(* ===== verification/_CoqProject ===== *)
-Q . S2P
Prelude.v
PyFloat.v
PyVal.v
Moves.v
Json.v
Sha256.v
Base64.v
Crypto.v
Trust.v
Models.v
Policy.v
Arbiter.v
PolicyRegistry.v
Lines.v
Anchors.v
Replay.v
ReplaySqlite.v
ReplayStore.v
Mesh.v
Issuer.v
Engine.v
Workflow.v
Rbac.v
Orders.v
SemVer.v
PyText.v
Regex.v
Governance.v
GovernanceText.v
PolicyStorage.v
VersionedRegistry.v
Jobs.v
JobsPostgres.v
Federation.v
KeyLifecycle.v
OperatorAuth.v
Deployment.v
PlatformAdmin.v
Service.v
Observability.v
Platform.v
ControlPlane.v
Storage.v
Kms.v
Bootstrap.v
Compliance.v
A2A.v
McpGateway.v
LangChain.v
Worker.v
Tokens.v
Entra.v
IdentityStore.v
HttpSessions.v
HttpRequest.v
HttpAuth.v
Server.v
HttpApi.v
OpenApi.v
HttpRoutes.v
HttpGovern.v
Cli.v
Base64Strict.v
Attest.v
DemoPr.v
LogFormat.v
