(* ===== verification/Prelude.v ===== *)
(** * Governed autonomy substrate: verification

    The program ([src/src/governed_autonomy/], Python) lets an action run only
    behind a governance barrier.  A request is decided by a deterministic
    arbiter against a policy, checked by a mesh of governance sources, recorded
    in a hash-chained replay log and answered with a signed authorization
    artifact; the execution boundary validates the artifact, consumes its
    nonce, runs the action and records its outcome.  Around this core stand the
    trust store and key life cycle, the policy registries, the review of policy
    changes, federation between organizations, the job queue and its worker,
    gateways for agents and tools, the translation of governance rules into
    policies, compliance reports, the validation of identity tokens, the HTTP
    API that serves all of this to authenticated callers, and the programs that
    start the server and the worker and call the API from a command line.

    ** Conventions

    Every operation is translated from its source as an executable function.
    A method of an object with state [S] is a computation [M S A]: a function
    from the state to a result, a value or an exception ([exn]), and the state
    left behind, which an exception does not undo.  [pyval] is a JSON value
    with insertion-ordered dictionaries; strings are their UTF-8 bytes, which
    order as Python's strings do; integers are unbounded and get the width of
    the column or number type where one applies; floats are IEEE binary64 in
    the Standard Library's [spec_float].  Readings of clocks, fresh nonces and
    identifiers are arguments.  Files are the text that was last written, and a
    SQL table is the list of its rows with the constraints of its schema.
    Recursion is structural, or has the length of the text as fuel (the JSON
    scanner), which its round trip theorem shows to be enough.

    What is not code of the repository is a class parameter: Ed25519 ([Crypto],
    with the laws [CryptoLaws] where verification of a fresh signature
    matters), the signature algorithms of identity tokens ([JWTCrypto], Tokens)
    and of attestations ([AttestKeys], Attest),
    the JSON Schema validator and the ISO timestamp parser (PolicyStorage,
    VersionedRegistry), the Unicode tables (Rbac, OperatorAuth), the text form
    of PostgreSQL's jsonb (JobsPostgres, Storage, IdentityStore), the parser of DER
    keys (Kms), and the SDK clients of AWS and MSAL, answers of HTTP servers,
    containers and Vault, which are function arguments.  SHA-256 is a concrete
    function.  Where a theorem needs that digests tell texts apart, its
    hypothesis [collision_free] (Models) says so of the very texts that are
    hashed there, and of no others; it is decidable, and the witnesses compute
    it.  An ill-typed value that the typed records cannot hold raises the marker
    exception [Unmodelled].

    A round trip through JSON is for values whose strings are UTF-8 without lone
    surrogates ([utf8_str]; characters outside ASCII go through their escapes),
    whose dictionaries have distinct keys and whose floats read back from their
    [repr] ([json_safe], [wf]).

    ** Files, in the order of their dependencies

    - Prelude: association lists (dictionaries), sorting by a key, tactics.
    - PyFloat, PyVal: floats and their [repr]; values, equality, exceptions, the
      monad.  Moves: computations that keep a part of the state or only grow it.
    - Json, Sha256, Base64: canonical.py and the parts of the Standard Library
      it uses; printing and parsing are inverse, canonical text is injective.
    - Crypto: crypto.py, signing.py; key pairs and the [Signer] protocol.
    - Trust: trust.py; keys, revocations and their file.
    - Models: models.py; signed approvals and authorization artifacts.
    - Policy, Arbiter, PolicyRegistry: policy.py; validation, the decision
      function, signed manifests and the immutable registry.
    - Lines, Anchors, Replay, ReplaySqlite: replay.py, audit.py; the log in
      memory, in a JSONL file and in SQLite, integrity evidence, anchors.
      ReplayStore: the interface [ReplayStore] with its laws, which mesh, issuer
      and engine are verified against and both logs implement.
    - Mesh: mesh.py; attested inputs, the source registry, the preflight.
    - Issuer, Engine, Workflow: issuer.py, engine.py, and the two together.
    - Rbac: rbac.py; roles from identity claims.  PyText: the Standard Library's
      conversions between text and numbers.
    - Regex, Governance, GovernanceText: governance.py; regular expressions, rules
      as mappings and as sentences, their policies, and the sentence grammar.
    - Orders, SemVer, PolicyStorage, VersionedRegistry: policy_registry.py;
      total orders, versions, the interface [PolicyStorage] with the in-memory
      and the file storage, publication, lifecycle and activation.
    - Jobs, JobsPostgres: jobs.py, jobs_postgres.py; the two job stores and
      [run_once] over the interface [JobStore] with its laws.
    - Federation: federation.py; signed events, snapshots, envelopes and the
      reconciler.
    - KeyLifecycle: key_lifecycle.py.  OperatorAuth: operator_auth.py.
    - Deployment: deployment.py, health.py.
    - PlatformAdmin: platform_admin.py; policy changes under review and signed
      trust changes.
    - Service: service.py; the facade over issuer, boundary and log, and its
      histories.  Observability: observability.py; trace contexts and counters.
    - Platform: platform.py; runtime identities, service principals and the
      deployment guardrails in front of the facade.
    - ControlPlane: control_plane.py; the facade over stores and platforms.
    - Kms, Bootstrap: kms_backends.py, bootstrap.py; the signers and the
      compositions read from the environment.
    - Compliance: compliance.py; control evaluations, evidence bundle, report.
    - Storage: storage.py; nonce repositories, the PostgreSQL trust store, and
      the PostgreSQL replay log on tables that processes share.
    - A2A, McpGateway, LangChain: a2a.py, mcp_gateway.py, langchain_adapter.py;
      delegated tasks, governed tools, the barrier around a LangChain tool.
    - Worker: worker.py, worker_main.py; secrets, the sandbox, the worker loop
      over the interface [JobStore].
    - Tokens: identity.py and auth/; JSON Web Tokens, key sets, replay cache,
      the authorization-code client.  Entra: auth/entra.py; device-code sign-in.
    - IdentityStore: auth/store.py; users, principals, role assignments and
      events in SQLite and PostgreSQL, with the laws [IdentityStoreLaws].
    - HttpSessions to HttpGovern: http_api.py; sign-in states and sessions
      (HttpSessions), requests and URLs (HttpRequest), authentication and role
      tables (HttpAuth), the methods of the API on the components (HttpApi), the
      OpenAPI document (OpenApi), the handler of GET, POST and OPTIONS
      (HttpRoutes), and what it lets a request do (HttpGovern).
    - Server: the starts of the server and of the worker (http_api.py,
      worker_main.py).  Cli: cli.py; the commands after argparse.
    - LogFormat: logging_config.py; the JSON lines of the log.
    - Base64Strict, Attest: attest/; signed attestations of pull requests and
      their ledger.  DemoPr: demo/; the policy, approvals, signed records and
      audit chain of the pull request demonstration, and its offline run.

    ** What is shown

    - Barrier: an action is called only for an artifact signed under a
      resolvable key, unexpired, unused, recorded, allowed and within the
      registered policy ([Engine.execute_sound]), at most once per nonce in any
      history ([execute_at_most_once]); its outcome is recorded
      ([execute_recorded]); an artifact just issued executes, once
      ([Workflow.issued_executes_once]); in any history of facade calls every
      action that was called goes back to a verified artifact on record
      ([Service.service_barrier]).
    - Issuing: an artifact satisfies the policy and its mesh requirements; a
      denial leaves one frame, an unmet mesh requirement none (Issuer).
    - Identity: an artifact issued through the platform signs the runtime
      identity's claims, whatever the request says
      ([Platform.platform_binds_identity]); the platform's histories are
      histories of the facade ([Platform.platform_refines_service]).
    - Decision: the arbiter allows exactly the requests that meet every
      constraint, and counts live, distinct, matching approvals, as long as the
      request states no count of its own, which the code takes as it is (Arbiter:
      [signed_quorum] and [quorum_met]).
    - Evidence: logs only grow, chains are tamper evident, reloading a log gives
      it back, an anchor certifies one log (Replay, ReplaySqlite); processes on
      one database keep one set of nonces, and one chain while jsonb gives back
      the events (Storage).
    - Mesh: conflicts fail closed, inputs are attested, order does not matter.
    - Policies: identifiers are immutable; a signed registration is verified;
      policies enter the reviewed registry only by a quorum of keys, each alive
      when it approved (PlatformAdmin);
      every call of the versioned registry is a step of the abstract lifecycle,
      revocation is final, activation is a compare-and-swap (VersionedRegistry).
    - Keys: revocation is effective and durable (Trust), the PostgreSQL table
      refines the store in memory (Storage), the key table and the
      trust store agree in every reachable state (KeyLifecycle), operator
      tokens authenticate exactly while live (OperatorAuth).
    - Rules: the policy made from rules demands the fields and the quorum of every
      rule for the action and the context of every rule at all
      ([Governance.rules_enforced]); a sentence of the grammar is read
      back as the rule it states ([GovernanceText.sentence_read_back]).
    - Operation: one revocation through the control plane reaches every service
      over its trust store ([ControlPlane.revocation_reaches_services]); a server
      starts only with a complete configuration ([Bootstrap.runtime_configured])
      and demands a credential ([Server.server_demands_credential]); the command
      line reaches the routes it names and its exit codes tell the outcome of
      the offline checks (Cli).
    - Pull requests: a signed attestation verifies, from memory and from its line
      of the ledger ([Attest.ledger_line_verifies]); a change of an agent is
      flagged exactly for a protected path or its length
      ([DemoPr.evaluate_flags]); an approval counts exactly when it is the latest
      stand of its login on the commit ([DemoPr.real_approvers_iff]); the audit
      chain is tamper evident ([DemoPr.audit_tamper_evident]).
    - Jobs: attempts are bounded, submission is idempotent, [run_once] records
      every outcome, a lease is exclusive.
    - Federation: what is adopted was verified, a message takes effect once.
    - Gateways and worker: a handler runs only for a delegated, validated
      artifact (A2A) or for an artifact within the policy of the tool that its
      request names (McpGateway); containers pair off with executed artifacts of distinct
      nonces, and hold no secret in the output that is kept (Worker).
    - Identity: an accepted token was signed by a published key and has the
      required claims (Tokens); roles come from explicit assignments only
      (IdentityStore); a session in memory gives the identity it was created
      with, until its expiry or revocation (HttpSessions), and it is created for
      a validated token, for the browser that began the sign-in
      ([HttpAuth.login_callback]).
    - HTTP: a GET changes nothing that is governed, a POST only for an accepted
      and permitted requester ([HttpGovern.http_changes_permitted]); artifacts
      carry the claims of the requester ([authorize_names_requester]);
      administration events name the actor ([admin_events_attributed]).  The
      state of these theorems is the whole server: log, policies, keys, queue,
      registry, operators, identities, sessions, limiter and traces.

    Lemmas also record behaviour that departs from what the program means to
    do: [Federation.snapshot_export_rejected],
    [PlatformAdmin.add_request_replays], [PlatformAdmin.activate_change_fails],
    [JobsPostgres.pg_crash_exceeds_max], [Jobs.fail_requeues_succeeded],
    [Jobs.claim_race], [Deployment.limiter_saturates], [Storage.append_lock_leaks],
    [Arbiter.stated_count_overrides], [McpGateway.mcp_action_override],
    [McpGateway.mcp_stated_count], [Governance.context_of_other_action],
    [Storage.float_event_breaks_log], [Replay.nonceless_execution_unreadable],
    [Replay.claimed_nonce_forgotten], [HttpSessions.repository_unbounded],
    [LangChain.barrier_reruns_on_type_error], [Worker.worker_retry_refused],
    [Worker.redact_leaves_tail], [Tokens.oidc_validate_leaks_errors],
    [IdentityStore.pg_role_assignments_not_json], [HttpAuth.empty_operator_token],
    [HttpAuth.login_next_line_break], [HttpAuth.repository_session_raises],
    [HttpGovern.executed_but_invalid], [HttpGovern.absent_claims_supplied],
    [HttpGovern.registry_withdrawal_unrecorded], [OpenApi.identity_paths_misplaced],
    [GovernanceText.field_list_dropped], [GovernanceText.strict_quorum_weakened],
    [GovernanceText.unknown_clause_dropped], [GovernanceText.presence_as_value],
    [GovernanceText.missing_action_named_none],
    [Compliance.evidence_exports_requests], [Bootstrap.restart_restores_revoked],
    [Cli.build_metadata_unreachable], [Cli.replay_verify_missing_file],
    [Cli.entra_failure_unreported], [LogFormat.log_level_replaced],
    [Attest.huge_risk_uncaught], [Attest.resigned_attestation_fails],
    [DemoPr.audit_prefix_verifies], [DemoPr.late_objection], [DemoPr.repo_line_break].

    ** What is not modelled

    Failures of the file system, of SQLite and of the PostgreSQL connection of
    the log, thread locks (operations are atomic steps; the interleavings of
    PostgreSQL transactions are modelled), lone surrogates in strings, digits
    outside ASCII in versions, sentences of rules outside ASCII, sharing of
    mutable dictionaries between objects, lifetimes and revisions that a request
    states as floats, texts of signed documents that a request gives as other
    JSON values.  Integers beyond CPython's conversion limit of 4300 digits are
    refused where the program reads a number from a text that a caller sends
    (HttpRequest, Governance), and printed without it elsewhere.  Socket servers
    and their TLS contexts, the stdio transport of the tool server, argparse and
    the layout of printed JSON are input and output around the model.  The admin
    pages are three string constants that the routes take as arguments, and the
    remaining scripts of demo/, examples/ and benchmarks/ call the program with
    fixed requests and print or time the results. *)

From stdpp Require Export base strings gmap list sorting.
From Stdlib Require Export ZArith Lia Ascii.

#[export] Set Default Goal Selector "!".
#[export] Set Warnings "-clear-no-such-hyp,-register-all".

(** * Notation scope of the development *)

Declare Scope gas_scope.
Delimit Scope gas_scope with gas.
Open Scope gas_scope.

#[global] Arguments String.append !s1 s2 / : simpl nomatch.

Create HintDb gas.
Create Rewrite HintDb gas.

(** * Texts character by character *)

Fixpoint all_chars (p : ascii → bool) (s : string) : bool :=
  match s with EmptyString => true | String c s => p c && all_chars p s end.

Lemma all_chars_app p a b : all_chars p (a +:+ b) = all_chars p a && all_chars p b.
Proof. induction a as [|c a IH]; simpl; [done|]. by rewrite IH, andb_assoc. Qed.

Lemma all_chars_cons p a s : all_chars p (String a s) = true ↔ p a = true ∧ all_chars p s = true.
Proof. apply andb_true_iff. Qed.

Lemma all_chars_append p s t : all_chars p (s +:+ t) = true ↔ all_chars p s = true ∧ all_chars p t = true.
Proof. by rewrite all_chars_app, andb_true_iff. Qed.

Lemma all_chars_impl (p q : ascii → bool) s :
  (∀ a, p a = true → q a = true) → all_chars p s = true → all_chars q s = true.
Proof. intros H. induction s as [|a s IH]; [done|]. rewrite !all_chars_cons. naive_solver. Qed.

Lemma str_app_assoc (a b c : string) : (a +:+ b) +:+ c = a +:+ (b +:+ c).
Proof. induction a as [|x a IH]; [done|]. cbn. by rewrite IH. Qed.

(** A character of one class is not of another, by trying all. *)
Lemma char_cases (f : ascii → bool) :
  forallb (λ n, f (ascii_of_N (N.of_nat n))) (seq 0 256) = true → ∀ a, f a = true.
Proof.
  intros H a. rewrite forallb_forall in H. specialize (H (N.to_nat (N_of_ascii a))).
  rewrite N2Nat.id, ascii_N_embedding in H. apply H, in_seq.
  pose proof (N_ascii_bounded a). lia.
Qed.

Ltac by_chars f a := let H := fresh in pose proof (char_cases f eq_refl a) as H; revert H; cbv beta.

(** * Association lists: Python dictionaries with string keys

    A Python [dict] keeps insertion order; [d[k] = v] on a present key keeps
    the key's position.  The model keeps both facts. *)

Section Assoc.
Context {A : Type}.
Implicit Types (d : list (string * A)) (k : string).

(** [d.get(k)] *)
Fixpoint assoc_get k d : option A :=
  match d with
  | [] => None
  | (k', v) :: d' => if String.eqb k k' then Some v else assoc_get k d'
  end.

(** [k in d] *)
Definition assoc_has k d : bool :=
  match assoc_get k d with Some _ => true | None => false end.

(** [d[k] = v] *)
Fixpoint assoc_set k (v : A) d : list (string * A) :=
  match d with
  | [] => [(k, v)]
  | (k', v') :: d' =>
      if String.eqb k k' then (k', v) :: d' else (k', v') :: assoc_set k v d'
  end.

(** [{**d, **e}], which is also [d.update(e)] *)
Definition assoc_update d (e : list (string * A)) : list (string * A) :=
  fold_left (λ acc kv, assoc_set kv.1 kv.2 acc) e d.

(** [{k2: v for k2, v in d.items() if k2 != k}] *)
Definition assoc_remove k d : list (string * A) :=
  List.filter (λ kv, negb (String.eqb k kv.1)) d.

(** [set(d) == set(ks)] and [set(d).issubset(ks)] *)
Definition keys_subset d (ks : list string) : bool :=
  forallb (λ kv, existsb (String.eqb kv.1) ks) d.
Definition keys_superset d (ks : list string) : bool :=
  forallb (λ k, assoc_has k d) ks.
Definition keys_equal d (ks : list string) : bool :=
  keys_subset d ks && keys_superset d ks.

Lemma assoc_has_get k d : assoc_has k d = true ↔ is_Some (assoc_get k d).
Proof.
  unfold assoc_has. destruct (assoc_get k d).
  - split; eauto.
  - split; [done | intros [? ?]; done].
Qed.

Lemma assoc_get_In k v d : assoc_get k d = Some v → In (k, v) d.
Proof.
  induction d as [|[k' v'] d IH]; simpl; [done|].
  destruct (String.eqb_spec k k') as [->|]; [intros [= ->]; by left|right; auto].
Qed.

Lemma assoc_get_None k d : assoc_get k d = None ↔ ¬ In k (map fst d).
Proof.
  induction d as [|[k' v'] d IH]; simpl; [naive_solver|].
  destruct (String.eqb_spec k k') as [->|Hne]; [|rewrite IH]; intuition congruence.
Qed.

Lemma assoc_In_get k v d :
  List.NoDup (map fst d) → In (k, v) d → assoc_get k d = Some v.
Proof.
  induction d as [|[k' v'] d IH]; simpl; [done|].
  intros Hnd [Heq|Hin]; inversion Hnd as [|? ? Hk Hd]; subst.
  - injection Heq as -> ->. by rewrite String.eqb_refl.
  - destruct (String.eqb_spec k k') as [->|]; [|auto].
    contradict Hk. by apply (in_map fst) in Hin.
Qed.

Lemma assoc_get_set_eq k v d : assoc_get k (assoc_set k v d) = Some v.
Proof.
  induction d as [|[k' v'] d IH]; simpl; [by rewrite String.eqb_refl|].
  destruct (String.eqb k k') eqn:E; simpl; by rewrite E.
Qed.

Lemma assoc_get_set_ne k k' v d :
  k ≠ k' → assoc_get k' (assoc_set k v d) = assoc_get k' d.
Proof.
  intros Hne. induction d as [|[k2 v2] d IH]; simpl.
  - destruct (String.eqb_spec k' k); congruence.
  - destruct (String.eqb_spec k k2) as [->|]; simpl.
    + destruct (String.eqb_spec k' k2); congruence.
    + by rewrite IH.
Qed.

Lemma assoc_get_app k d1 d2 :
  assoc_get k (d1 ++ d2) =
  match assoc_get k d1 with Some v => Some v | None => assoc_get k d2 end.
Proof.
  induction d1 as [|[k' v'] d1 IH]; simpl; [done|]. by destruct (String.eqb k k').
Qed.

Lemma assoc_set_keys k v d :
  map fst (assoc_set k v d) =
  if assoc_has k d then map fst d else map fst d ++ [k].
Proof.
  unfold assoc_has. induction d as [|[k' v'] d IH]; simpl; [done|].
  destruct (String.eqb_spec k k') as [->|]; simpl; [done|].
  rewrite IH. by destruct (assoc_get k d).
Qed.

Lemma assoc_set_NoDup k v d :
  List.NoDup (map fst d) → List.NoDup (map fst (assoc_set k v d)).
Proof.
  intros Hd. rewrite assoc_set_keys. destruct (assoc_has k d) eqn:E; [done|].
  apply NoDup_ListNoDup, NoDup_app.
  assert (¬ In k (map fst d)).
  { apply assoc_get_None. unfold assoc_has in E. by destruct (assoc_get k d). }
  repeat split; [by apply NoDup_ListNoDup| |apply NoDup_singleton].
  intros x Hx ->%list_elem_of_singleton. by rewrite list_elem_of_In in Hx.
Qed.

Lemma assoc_update_NoDup d e :
  List.NoDup (map fst d) → List.NoDup (map fst (assoc_update d e)).
Proof.
  unfold assoc_update. revert d. induction e as [|[k v] e IH]; simpl; [done|].
  intros d Hd. by apply IH, assoc_set_NoDup.
Qed.

(** The right operand of a dictionary merge wins. *)
Lemma assoc_get_update k d e :
  List.NoDup (map fst e) →
  assoc_get k (assoc_update d e) =
  match assoc_get k e with Some v => Some v | None => assoc_get k d end.
Proof.
  unfold assoc_update. revert d. induction e as [|[k' v'] e IH]; simpl; [done|].
  intros d Hnd. inversion Hnd as [|? ? Hk He]; subst. rewrite IH by done.
  destruct (String.eqb_spec k k') as [->|Hne].
  - apply assoc_get_None in Hk. rewrite Hk. by rewrite assoc_get_set_eq.
  - by rewrite assoc_get_set_ne.
Qed.

Lemma assoc_set_Forall (P : string → A → Prop) k v d :
  P k v → Forall (λ kv, P kv.1 kv.2) d → Forall (λ kv, P kv.1 kv.2) (assoc_set k v d).
Proof.
  intros Hk. induction 1 as [|[k' v'] d Hv Hd IH]; simpl; [by constructor|].
  destruct (String.eqb_spec k k') as [->|]; by constructor.
Qed.

Lemma assoc_get_remove_eq k d : assoc_get k (assoc_remove k d) = None.
Proof.
  unfold assoc_remove. induction d as [|[k' v'] d IH]; simpl; [done|].
  destruct (String.eqb k k') eqn:E; simpl; [done|]. by rewrite E.
Qed.

Lemma assoc_get_remove_ne k k' d :
  k ≠ k' → assoc_get k' (assoc_remove k d) = assoc_get k' d.
Proof.
  intros Hne. unfold assoc_remove. induction d as [|[k2 v2] d IH]; simpl; [done|].
  destruct (String.eqb_spec k k2) as [->|]; simpl.
  - destruct (String.eqb_spec k' k2); congruence.
  - by rewrite IH.
Qed.

Lemma assoc_remove_absent k d : assoc_get k d = None → assoc_remove k d = d.
Proof.
  unfold assoc_remove. induction d as [|[k' v'] d IH]; simpl; [done|].
  destruct (String.eqb k k') eqn:E; simpl; [done|]. intros H. by rewrite IH.
Qed.

Lemma assoc_remove_NoDup k d : NoDup (fst <$> d) → NoDup (fst <$> assoc_remove k d).
Proof.
  unfold assoc_remove. induction d as [|[k' v] d IH]; [done|]. rewrite fmap_cons, NoDup_cons. intros [Hk Hd].
  simpl. case_match; [|by apply IH]. rewrite fmap_cons. constructor; [|by apply IH]. contradict Hk.
  apply list_elem_of_fmap in Hk as (kv & Heq & Hkv). apply list_elem_of_fmap. exists kv. split; [done|].
  apply list_elem_of_In in Hkv. apply filter_In in Hkv as [Hkv _]. by apply list_elem_of_In.
Qed.

Lemma assoc_remove_Permutation k d e : d ≡ₚ e → assoc_remove k d ≡ₚ assoc_remove k e.
Proof.
  unfold assoc_remove. induction 1 as [|x d e _ IH|x y d|d e f _ IH1 _ IH2]; simpl; [done| | |by etransitivity].
  - case_match; by rewrite IH.
  - repeat case_match; done || constructor.
Qed.

Lemma assoc_remove_forallb k (p : string * A → bool) d : forallb p d = true → forallb p (assoc_remove k d) = true.
Proof.
  rewrite !forallb_forall. intros H x Hx. apply H. unfold assoc_remove in Hx. by apply filter_In in Hx as [? _].
Qed.
End Assoc.

(** [d.setdefault(k, v)] *)
Definition setdefault {A} (k : string) (v : A) (d : list (string * A)) : list (string * A) :=
  if assoc_has k d then d else assoc_set k v d.

Lemma setdefault_get {A} k (v : A) d k' :
  assoc_get k' (setdefault k v d) =
  if String.eqb k' k then Some (default v (assoc_get k d)) else assoc_get k' d.
Proof.
  unfold setdefault, assoc_has. destruct (String.eqb_spec k' k) as [->|Hne].
  - destruct (assoc_get k d) eqn:E; simpl; [done|apply assoc_get_set_eq].
  - destruct (assoc_get k d); [done|]. by rewrite assoc_get_set_ne.
Qed.

Lemma map_fst_values {A B} (f : A → B) (l : list (string * A)) :
  map fst (map (λ kv, (kv.1, f kv.2)) l) = map fst l.
Proof. rewrite List.map_map. by apply map_ext. Qed.

#[export] Hint Rewrite @assoc_get_set_eq @assoc_get_remove_eq : gas.
#[export] Hint Resolve assoc_set_NoDup assoc_update_NoDup : gas.

(** * Sorting by a string key

    [sorted(d.items())] and [sorted(xs, key=f)]: a stable insertion sort.  The
    order of strings is Python's (code points), because UTF-8 preserves it. *)

Section SortBy.
Context {A : Type} (key : A → string).

Fixpoint insert_by (x : A) (l : list A) : list A :=
  match l with
  | [] => [x]
  | y :: l' => if String.leb (key x) (key y) then x :: l else y :: insert_by x l'
  end.

Fixpoint sort_by (l : list A) : list A :=
  match l with
  | [] => []
  | x :: l' => insert_by x (sort_by l')
  end.

Definition key_le (x y : A) : Prop := String.le (key x) (key y).

Lemma insert_by_Permutation x l : insert_by x l ≡ₚ x :: l.
Proof.
  induction l as [|y l IH]; simpl; [done|].
  destruct (String.leb _ _); [done|]. rewrite IH. constructor.
Qed.

Lemma sort_by_Permutation l : sort_by l ≡ₚ l.
Proof.
  induction l as [|x l IH]; simpl; [done|]. by rewrite insert_by_Permutation, IH.
Qed.

Lemma leb_false_le s1 s2 : String.leb s1 s2 = false → String.le s2 s1.
Proof.
  intros H. unfold String.le.
  destruct (String.leb_total s1 s2) as [| ->]; [congruence|done].
Qed.

Lemma insert_by_HdRel x y l : key_le y x → HdRel key_le y l → HdRel key_le y (insert_by x l).
Proof.
  intros Hxy Hl. destruct l as [|z l]; simpl; [by constructor|].
  destruct (String.leb _ _); constructor; [done|by inversion Hl].
Qed.

Lemma insert_by_Sorted x l : Sorted key_le l → Sorted key_le (insert_by x l).
Proof.
  induction 1 as [|y l Hs IH Hhd]; simpl; [by repeat constructor|].
  destruct (String.leb (key x) (key y)) eqn:E.
  - constructor; [by constructor|]. constructor. unfold key_le, String.le. by rewrite E.
  - constructor; [done|]. apply insert_by_HdRel; [by apply leb_false_le|done].
Qed.

Lemma sort_by_Sorted l : Sorted key_le (sort_by l).
Proof. induction l; simpl; [constructor|by apply insert_by_Sorted]. Qed.

Lemma sort_by_StronglySorted l : StronglySorted key_le (sort_by l).
Proof.
  apply Sorted_StronglySorted, sort_by_Sorted.
  intros x y z; unfold key_le; apply transitivity.
Qed.

Lemma sort_by_length l : length (sort_by l) = length l.
Proof. by rewrite sort_by_Permutation. Qed.

(** Sorting is a canonical form: with distinct keys, permuted inputs sort to
    the same list. *)
Lemma sort_by_unique l1 l2 :
  NoDup (key <$> l1) → l1 ≡ₚ l2 → sort_by l1 = sort_by l2.
Proof.
  intros Hnd Hp.
  apply (StronglySorted_unique_strong key_le);
    [| apply sort_by_StronglySorted | apply sort_by_StronglySorted
     | by rewrite !sort_by_Permutation].
  intros x1 x2 Hx1 Hx2 Hle1 Hle2.
  rewrite sort_by_Permutation in Hx1.
  rewrite sort_by_Permutation, <-Hp in Hx2.
  assert (key x1 = key x2) as Hk by (by apply (anti_symm String.le)).
  apply list_elem_of_lookup in Hx1 as [i Hi]. apply list_elem_of_lookup in Hx2 as [j Hj].
  assert (i = j) as ->; [|congruence].
  eapply NoDup_lookup; [apply Hnd| |]; rewrite list_lookup_fmap.
  - by rewrite Hi.
  - rewrite Hj. simpl. by rewrite Hk.
Qed.

(** A sorted list is its own sort. *)
Lemma sort_by_id l : StronglySorted key_le l → sort_by l = l.
Proof.
  induction 1 as [|x l Hs IH Hall]; simpl; [done|]. rewrite IH.
  destruct l as [|y l]; simpl; [done|].
  inversion Hall as [|? ? Hxy]; subst.
  unfold key_le, String.le in Hxy. by destruct (String.leb _ _).
Qed.

Lemma sort_by_idemp l : sort_by (sort_by l) = sort_by l.
Proof. apply sort_by_id, sort_by_StronglySorted. Qed.
End SortBy.

(** Sorting commutes with maps that keep the key. *)
Lemma sort_by_map {A B} (ka : A → string) (kb : B → string) (f : A → B) l :
  (∀ x, kb (f x) = ka x) → sort_by kb (map f l) = map f (sort_by ka l).
Proof.
  intros Hk. induction l as [|x l IH]; simpl; [done|]. rewrite IH. clear IH.
  induction (sort_by ka l) as [|y l' IH]; simpl; [done|].
  rewrite !Hk. destruct (String.leb _ _); simpl; [done|]. by rewrite IH.
Qed.

Lemma assoc_get_Permutation {A} k (d e : list (string * A)) :
  NoDup (fst <$> d) → d ≡ₚ e → assoc_get k d = assoc_get k e.
Proof.
  intros Hd Hp. assert (NoDup (fst <$> e)) as He by (by rewrite <-Hp).
  apply NoDup_ListNoDup in Hd, He.
  destruct (assoc_get k d) as [v|] eqn:E; symmetry.
  - apply assoc_In_get; [done|]. apply list_elem_of_In. rewrite <-Hp.
    by apply list_elem_of_In, assoc_get_In.
  - apply assoc_get_None. apply assoc_get_None in E. contradict E.
    apply list_elem_of_In. apply list_elem_of_In in E. rewrite Hp. done.
Qed.

Lemma assoc_get_sort_by {A} k (d : list (string * A)) :
  NoDup (fst <$> d) → assoc_get k (sort_by fst d) = assoc_get k d.
Proof.
  intros Hd. symmetry. apply assoc_get_Permutation; [done|]. by rewrite sort_by_Permutation.
Qed.

Lemma assoc_get_map_values {A B} (f : A → B) k (d : list (string * A)) :
  assoc_get k (map (λ kv, (kv.1, f kv.2)) d) = f <$> assoc_get k d.
Proof. induction d as [|[k' v] d IH]; simpl; [done|]. by destruct (String.eqb k k'). Qed.

(** [sorted(xs)] for strings *)
Abbreviation sort_strings := (sort_by (λ s : string, s)).

(** [tuple(dict.fromkeys(xs))]: first occurrences, in order. *)
Definition dedup (l : list string) : list string :=
  fold_left (λ acc s, if existsb (String.eqb s) acc then acc else acc ++ [s]) l [].

(** [s in xs] *)
Definition str_in (s : string) (l : list string) : bool := existsb (String.eqb s) l.

Lemma str_in_spec s l : str_in s l = true ↔ s ∈ l.
Proof.
  unfold str_in. rewrite existsb_exists, list_elem_of_In. split.
  - by intros (x & Hx & ->%String.eqb_eq).
  - intros H. exists s. by rewrite String.eqb_refl.
Qed.

Lemma dedup_app acc l :
  let r := fold_left (λ acc s, if existsb (String.eqb s) acc then acc else acc ++ [s]) l acc in
  (∀ x, x ∈ r ↔ x ∈ acc ∨ x ∈ l) ∧ (NoDup acc → NoDup r).
Proof.
  revert acc. induction l as [|s l IH]; intros acc; cbn [fold_left].
  - split; [set_solver|done].
  - specialize (IH (if existsb (String.eqb s) acc then acc else acc ++ [s])) as [H1 H2].
    assert (existsb (String.eqb s) acc = true ↔ s ∈ acc) as Hs by apply str_in_spec.
    destruct (existsb _ acc).
    + split; [|done]. intros x. rewrite H1, elem_of_cons. naive_solver.
    + split; [intros x; rewrite H1; set_solver|]. intros Hn. apply H2, NoDup_app.
      split; [done|]. split; [|apply NoDup_singleton]. intros x Hx ->%list_elem_of_singleton.
      by apply Hs in Hx.
Qed.

Lemma elem_of_dedup x l : x ∈ dedup l ↔ x ∈ l.
Proof. unfold dedup. rewrite (proj1 (dedup_app [] l)). set_solver. Qed.

Lemma NoDup_dedup l : NoDup (dedup l).
Proof. apply (proj2 (dedup_app [] l)). constructor. Qed.

Lemma elem_of_sorted_dedup x l : x ∈ sort_strings (dedup l) ↔ x ∈ l.
Proof. by rewrite (sort_by_Permutation (λ y : string, y) (dedup l)), elem_of_dedup. Qed.

(** [len(set(xs)) == len(xs)] *)
Fixpoint str_nodup (l : list string) : bool :=
  match l with [] => true | s :: l' => negb (str_in s l') && str_nodup l' end.

Lemma str_nodup_spec l : str_nodup l = true ↔ NoDup l.
Proof.
  induction l as [|s l IH]; simpl; [split; [constructor|done]|].
  rewrite NoDup_cons, andb_true_iff, IH, negb_true_iff, <-str_in_spec.
  rewrite not_true_iff_false. tauto.
Qed.

Lemma forallb_Forall {A} (f : A → bool) (P : A → Prop) l :
  (∀ x, f x = true ↔ P x) → forallb f l = true ↔ Forall P l.
Proof.
  intros Hf. rewrite forallb_forall, List.Forall_forall. naive_solver.
Qed.

(** A scan that emits one item per failing element is empty when none fails. *)
Lemma flat_map_nil {A B} (f : A → bool) (g : A → B) l :
  flat_map (λ x, if f x then [] else [g x]) l = [] ↔ ∀ x, x ∈ l → f x = true.
Proof.
  induction l as [|x l IH]; simpl; [set_solver|].
  destruct (f x) eqn:E; simpl.
  - rewrite IH. set_solver.
  - split; [done|]. intros H. specialize (H x ltac:(left)). congruence.
Qed.

Lemma filter_Permutation {A} (f : A → bool) l1 l2 :
  l1 ≡ₚ l2 → List.filter f l1 ≡ₚ List.filter f l2.
Proof. induction 1; simpl; repeat case_match; try done; by econstructor. Qed.

Lemma if_nil {A} (b : bool) (x : A) : (if b then [] else [x]) = [] ↔ b = true.
Proof. by destruct b. Qed.

Lemma app_nil {A} (l1 l2 : list A) : l1 ++ l2 = [] ↔ l1 = [] ∧ l2 = [].
Proof. destruct l1, l2; naive_solver. Qed.

(** * Small tactics *)

(** Case on the discriminee of the first [if] or [match] of the goal or of a hypothesis. *)
Ltac case_goal :=
  match goal with
  | |- context [if ?b then _ else _] => destruct b eqn:?
  | |- context [match ?x with _ => _ end] => destruct x eqn:?
  end.
Ltac case_hyp H :=
  match type of H with
  | context [if ?b then _ else _] => destruct b eqn:?
  | context [match ?x with _ => _ end] => destruct x eqn:?
  end.

(** Turn boolean conjunctions and comparisons of the context into propositions. *)
Ltac breflect :=
  repeat match goal with
    | H : _ && _ = true |- _ => apply andb_true_iff in H as [? ?]
    | H : _ || _ = false |- _ => apply orb_false_iff in H as [? ?]
    | H : negb _ = true |- _ => apply negb_true_iff in H
    | H : negb _ = false |- _ => apply negb_false_iff in H
    | H : String.eqb _ _ = true |- _ => apply String.eqb_eq in H
    | H : String.eqb _ _ = false |- _ => apply String.eqb_neq in H
    | H : Z.ltb _ _ = true |- _ => apply Z.ltb_lt in H
    | H : Z.ltb _ _ = false |- _ => apply Z.ltb_ge in H
    | H : Z.leb _ _ = true |- _ => apply Z.leb_le in H
    | H : Z.leb _ _ = false |- _ => apply Z.leb_gt in H
    | H : Z.eqb _ _ = true |- _ => apply Z.eqb_eq in H
    | H : Z.eqb _ _ = false |- _ => apply Z.eqb_neq in H
    end.
