(* ===== verification/PyFloat.v ===== *)
(** Python's [float]: IEEE binary64 values as the Standard Library's
    [spec_float] (a plain inductive type, no primitive floats), their exact
    comparison with integers, correct rounding of decimal literals, and
    [float.__repr__] (the shortest decimal that rounds back). *)

From S2P Require Import Prelude.
From Stdlib Require Export SpecFloat.
From Stdlib Require Import DecimalString.

Open Scope Z_scope.

#[export] Instance spec_float_eq_dec : EqDecision spec_float.
Proof. solve_decision. Defined.

(** [repr] of an [int]. *)
Definition string_of_Z (z : Z) : string := NilZero.string_of_int (Z.to_int z).

(** ** Correct rounding

    [round_frac p q e] is the integer nearest to [p / (q * 2^e)], ties to even. *)

Definition round_div (n d : Z) : Z :=
  let fl := n / d in
  match 2 * (n - fl * d) ?= d with
  | Lt => fl
  | Gt => fl + 1
  | Eq => if Z.even fl then fl else fl + 1
  end.

(** [p * 2^-e / q] as a fraction. *)
Definition scaled_frac (p q e : Z) : Z * Z :=
  if 0 <=? e then (p, q * 2 ^ e) else (p * 2 ^ (- e), q).

Definition finite_of (s : bool) (m e : Z) : spec_float :=
  match m with
  | Zpos m => S754_finite s m e
  | _ => S754_zero s
  end.

(** The binary64 value nearest to the positive rational [p / q]: 53-bit
    significand, exponent at least -1074, overflow to infinity. *)
Definition round_rational (s : bool) (p q : Z) : spec_float :=
  let e0 := Z.log2 p - Z.log2 q - 53 in
  let '(n0, d0) := scaled_frac p q e0 in
  let e1 := if 2 ^ 53 <=? n0 / d0 then e0 + 1 else e0 in
  let e := Z.max e1 (-1074) in
  let '(n, d) := scaled_frac p q e in
  let m := round_div n d in
  let '(m, e) := if m =? 2 ^ 53 then (2 ^ 52, e + 1) else (m, e) in
  if 971 <? e then S754_infinity s else finite_of s m e.

(** The value of the decimal literal [digits * 10^exp10]. *)
Definition float_of_decimal (s : bool) (digits exp10 : Z) : spec_float :=
  if digits =? 0 then S754_zero s
  else if 0 <=? exp10 then round_rational s (digits * 10 ^ exp10) 1
  else round_rational s digits (10 ^ (- exp10)).

(** ** [float.__repr__] *)

Fixpoint repeat_char (c : ascii) (n : nat) : string :=
  match n with O => EmptyString | S n => String c (repeat_char c n) end.

(** Decimal point position [k]: [10^(k-1) <= p/q < 10^k]. *)
Definition below_pow10 (p q k : Z) : bool :=
  if 0 <=? k then p <? q * 10 ^ k else p * 10 ^ (- k) <? q.

Fixpoint find_decpt (fuel : nat) (p q k : Z) : Z :=
  match fuel with
  | O => k
  | S fuel => if below_pow10 p q k then k else find_decpt fuel p q (k + 1)
  end.

Definition decpt_of (p q : Z) : Z :=
  find_decpt 6 p q ((Z.log2 p - Z.log2 q - 1) * 30103 / 100000 - 1).

(** The decimals of [n] significant digits next to [p / q]: the nearest first. *)
Definition decimal_candidates (p q k n : Z) : list Z :=
  let '(a, b) := if 0 <=? n - k then (p * 10 ^ (n - k), q) else (p, q * 10 ^ (k - n)) in
  let near := round_div a b in
  let fl := a / b in
  [near; if near =? fl then fl + 1 else fl].

(** [digits] read as [0.d1d2d3... * 10^k]. *)
Definition try_digits (s : bool) (f : spec_float) (k n digits : Z) : option (string * Z) :=
  let '(digits, k) := if digits =? 10 ^ n then (10 ^ (n - 1), k + 1) else (digits, k) in
  if decide (float_of_decimal s digits (k - n) = f)
  then Some (string_of_Z digits, k) else None.

Fixpoint shortest (fuel : nat) (s : bool) (f : spec_float) (p q k n : Z) : option (string * Z) :=
  match fuel with
  | O => None
  | S fuel =>
      match omap (try_digits s f k n) (decimal_candidates p q k n) with
      | r :: _ => Some r
      | [] => shortest fuel s f p q k (n + 1)
      end
  end.

Definition exponent_string (e : Z) : string :=
  (if e <? 0 then "e-" else "e+") +:+
  (if Z.abs e <? 10 then "0" else "") +:+ string_of_Z (Z.abs e).

Definition format_digits (ds : string) (k : Z) : string :=
  let n := Z.of_nat (String.length ds) in
  if (-4 <? k) && (k <=? 16) then
    if k <=? 0 then "0." +:+ repeat_char "0" (Z.to_nat (- k)) +:+ ds
    else if n <=? k then ds +:+ repeat_char "0" (Z.to_nat (k - n)) +:+ ".0"
    else String.substring 0 (Z.to_nat k) ds +:+ "." +:+
         String.substring (Z.to_nat k) (Z.to_nat (n - k)) ds
  else
    String.substring 0 1 ds +:+
    (if n =? 1 then "" else "." +:+ String.substring 1 (Z.to_nat (n - 1)) ds) +:+
    exponent_string (k - 1).

(** [float.__repr__] on a finite value; 17 digits always round back, so the
    last branch is never taken. *)
Definition float_repr_finite (s : bool) (m : positive) (e : Z) : string :=
  let '(p, q) := if 0 <=? e then (Zpos m * 2 ^ e, 1) else (Zpos m, 2 ^ (- e)) in
  match shortest 17 false (S754_finite false m e) p q (decpt_of p q) 1 with
  | Some (ds, k) => (if s then "-" else "") +:+ format_digits ds k
  | None => ""
  end.

(** [repr(x)] *)
Definition float_repr (f : spec_float) : string :=
  match f with
  | S754_zero s => if s then "-0.0" else "0.0"
  | S754_infinity s => if s then "-inf" else "inf"
  | S754_nan => "nan"
  | S754_finite s m e => float_repr_finite s m e
  end.

(** [json.dumps(x)]: the literals of [json.encoder.floatstr]. *)
Definition json_float_repr (f : spec_float) : string :=
  match f with
  | S754_infinity s => if s then "-Infinity" else "Infinity"
  | S754_nan => "NaN"
  | _ => float_repr f
  end.

(** [math.isfinite] *)
Definition float_isfinite (f : spec_float) : bool :=
  match f with S754_zero _ | S754_finite _ _ _ => true | _ => false end.

(** ** Exact comparison of numbers

    Python compares an [int] with a [float] by their mathematical values;
    every comparison with NaN is false. *)

Inductive pynum := NInt (z : Z) | NFloat (f : spec_float).

Definition signed (s : bool) (m : positive) : Z := if s then Zneg m else Zpos m.

Definition compare_Z_float (z : Z) (f : spec_float) : option comparison :=
  match f with
  | S754_zero _ => Some (z ?= 0)
  | S754_infinity s => Some (if s then Gt else Lt)
  | S754_nan => None
  | S754_finite s m e =>
      Some (if 0 <=? e then z ?= signed s m * 2 ^ e else z * 2 ^ (- e) ?= signed s m)
  end.

Definition pynum_compare (x y : pynum) : option comparison :=
  match x, y with
  | NInt a, NInt b => Some (a ?= b)
  | NInt a, NFloat g => compare_Z_float a g
  | NFloat f, NInt b => option_map CompOpp (compare_Z_float b f)
  | NFloat f, NFloat g => SFcompare f g
  end.

Definition pynum_eqb (x y : pynum) : bool :=
  match pynum_compare x y with Some Eq => true | _ => false end.
Definition pynum_gtb (x y : pynum) : bool :=
  match pynum_compare x y with Some Gt => true | _ => false end.

(** [math.isfinite(x)]: an [int] too large for a double raises [OverflowError] ([None]). *)
Definition pynum_isfinite (x : pynum) : option bool :=
  match x with
  | NInt z => if Z.abs z <? 2 ^ 1024 - 2 ^ 970 then Some true else None
  | NFloat f => Some (float_isfinite f)
  end.

#[global] Arguments pynum_isfinite : simpl never.

Lemma pynum_eqb_int a b : pynum_eqb (NInt a) (NInt b) = (a =? b).
Proof. unfold pynum_eqb; simpl. by rewrite Z.eqb_compare; destruct (a ?= b). Qed.

Lemma pynum_gtb_int a b : pynum_gtb (NInt a) (NInt b) = (b <? a).
Proof.
  unfold pynum_gtb; simpl. rewrite Z.ltb_compare, (Z.compare_antisym a b).
  by destruct (a ?= b).
Qed.

Lemma pynum_eqb_refl_int a : pynum_eqb (NInt a) (NInt a) = true.
Proof. rewrite pynum_eqb_int. apply Z.eqb_refl. Qed.
