(* ===== verification/PyVal.v ===== *)
(** Python values and exceptions.

    [pyval] is the data the program moves around: JSON values with string
    keyed dictionaries (insertion ordered), plus [PObj] for an in-process
    object that is not a JSON value.  Strings are their UTF-8 encoding, so
    string order and equality are Python's.  The file also gives Python's
    [==], truth value, [str]/[repr], hashability, and the exceptions the
    program raises, with a state-and-exception monad. *)

From S2P Require Import Prelude PyFloat.

Inductive pyval :=
| PNone
| PBool (b : bool)
| PInt (z : Z)
| PFloat (f : spec_float)
| PStr (s : string)
| PList (l : list pyval)
| PDict (kvs : list (string * pyval))
| PObj (repr : string).

Abbreviation pydict := (list (string * pyval)).

(** Nested induction principle. *)
Section PyvalInd.
Variable P : pyval → Prop.
Hypothesis HNone : P PNone.
Hypothesis HBool : ∀ b, P (PBool b).
Hypothesis HInt : ∀ z, P (PInt z).
Hypothesis HFloat : ∀ f, P (PFloat f).
Hypothesis HStr : ∀ s, P (PStr s).
Hypothesis HList : ∀ l, Forall P l → P (PList l).
Hypothesis HDict : ∀ kvs, Forall (λ kv, P kv.2) kvs → P (PDict kvs).
Hypothesis HObj : ∀ r, P (PObj r).

Fixpoint pyval_ind_nested (v : pyval) : P v :=
  match v with
  | PNone => HNone
  | PBool b => HBool b
  | PInt z => HInt z
  | PFloat f => HFloat f
  | PStr s => HStr s
  | PList l =>
      HList l ((fix go l : Forall P l :=
        match l with
        | [] => List.Forall_nil P
        | x :: l => @List.Forall_cons _ P x l (pyval_ind_nested x) (go l)
        end) l)
  | PDict kvs =>
      HDict kvs ((fix go l : Forall (λ kv, P kv.2) l :=
        match l with
        | [] => List.Forall_nil _
        | x :: l => @List.Forall_cons _ (λ kv, P kv.2) x l (pyval_ind_nested x.2) (go l)
        end) kvs)
  | PObj r => HObj r
  end.
End PyvalInd.

Definition list_eqb {A} (eqb : A → A → bool) : list A → list A → bool :=
  fix go l1 l2 :=
    match l1, l2 with
    | [], [] => true
    | x :: l1, y :: l2 => eqb x y && go l1 l2
    | _, _ => false
    end.

(** [isinstance(v, ...)] *)
Definition is_str (v : pyval) : bool := match v with PStr _ => true | _ => false end.
Definition is_dict (v : pyval) : bool := match v with PDict _ => true | _ => false end.
Definition is_list (v : pyval) : bool := match v with PList _ => true | _ => false end.
Definition is_none (v : pyval) : bool := match v with PNone => true | _ => false end.
Definition is_bool (v : pyval) : bool := match v with PBool _ => true | _ => false end.

(** [isinstance(v, int) and not isinstance(v, bool)] *)
Definition strict_int (v : pyval) : option Z :=
  match v with PInt z => Some z | _ => None end.

(** [isinstance(v, str) and v] *)
Definition nonempty_str (v : pyval) : bool :=
  match v with PStr s => negb (String.eqb s "") | _ => false end.

(** [bool(v)] *)
Definition truthy (v : pyval) : bool :=
  match v with
  | PNone => false
  | PBool b => b
  | PInt z => negb (z =? 0)
  | PFloat f => match f with S754_zero _ => false | _ => true end
  | PStr s => negb (String.eqb s "")
  | PList l => match l with [] => false | _ => true end
  | PDict kvs => match kvs with [] => false | _ => true end
  | PObj _ => true
  end.

(** [bool] is a subclass of [int]: True == 1 == 1.0. *)
Definition as_num (v : pyval) : option pynum :=
  match v with
  | PBool b => Some (NInt (if b then 1 else 0))
  | PInt z => Some (NInt z)
  | PFloat f => Some (NFloat f)
  | _ => None
  end.

(** [v == w]; dictionaries compare as maps, whatever their order. *)
Fixpoint py_eqb (v w : pyval) {struct v} : bool :=
  match v, w with
  | PNone, PNone => true
  | PStr s, PStr t => String.eqb s t
  | PList l, PList m =>
      (fix go (l m : list pyval) {struct l} : bool :=
        match l, m with
        | [], [] => true
        | x :: l, y :: m => py_eqb x y && go l m
        | _, _ => false
        end) l m
  | PDict d, PDict e =>
      (length d =? length e)%nat &&
      (fix go (d : list (string * pyval)) {struct d} : bool :=
        match d with
        | [] => true
        | (k, x) :: d =>
            match assoc_get k e with
            | Some y => py_eqb x y
            | None => false
            end && go d
        end) d
  | PObj r, PObj q => String.eqb r q
  | _, _ =>
      match as_num v, as_num w with
      | Some a, Some b => pynum_eqb a b
      | _, _ => false
      end
  end.

Lemma py_eqb_str v s : py_eqb v (PStr s) = true ↔ v = PStr s.
Proof.
  destruct v; try (split; [by intros H; simpl in H; repeat case_match|done]).
  simpl. rewrite String.eqb_eq. naive_solver.
Qed.

(** [hash(v)] is defined: lists and dictionaries are unhashable. *)
Definition hashable (v : pyval) : bool :=
  match v with PList _ | PDict _ => false | _ => true end.

(** ** [str] and [repr] *)

Definition chr (n : N) : string := String (ascii_of_N n) "".
Definition dquote : string := chr 34.

Definition hex_digit (n : N) : ascii :=
  if (n <? 10)%N then ascii_of_N (48 + n) else ascii_of_N (87 + n).

Definition has_char (c : ascii) (s : string) : bool :=
  existsb (Ascii.eqb c) (String.list_ascii_of_string s).

(** One character of [repr(str)]; bytes above 126 belong to a UTF-8 sequence,
    taken as printable. *)
Definition repr_char (quote c : ascii) : string :=
  let n := N_of_ascii c in
  if Ascii.eqb c quote then String "\" (String c "")
  else if Ascii.eqb c "\" then "\\"
  else if (n =? 10)%N then "\n"
  else if (n =? 13)%N then "\r"
  else if (n =? 9)%N then "\t"
  else if ((n <? 32) || (n =? 127))%N
  then "\x" +:+ String (hex_digit (n / 16)) (String (hex_digit (n mod 16)) "")
  else String c "".

Fixpoint concat_map (f : ascii → string) (s : string) : string :=
  match s with EmptyString => "" | String c s => f c +:+ concat_map f s end.

Definition py_repr_str (s : string) : string :=
  let sq := ascii_of_N 39 in
  let dq := ascii_of_N 34 in
  let q := if has_char sq s && negb (has_char dq s) then dq else sq in
  String q (concat_map (repr_char q) s +:+ String q "").

Definition join (sep : string) (l : list string) : string := String.concat sep l.

Fixpoint py_repr (v : pyval) : string :=
  match v with
  | PNone => "None"
  | PBool b => if b then "True" else "False"
  | PInt z => string_of_Z z
  | PFloat f => float_repr f
  | PStr s => py_repr_str s
  | PList l => "[" +:+ join ", " (map py_repr l) +:+ "]"
  | PDict kvs =>
      "{" +:+ join ", " (map (λ kv, py_repr_str kv.1 +:+ ": " +:+ py_repr kv.2) kvs) +:+ "}"
  | PObj r => r
  end.

Definition py_str (v : pyval) : string :=
  match v with PStr s => s | _ => py_repr v end.

(** [len(s)] counts code points: the bytes that do not continue a sequence. *)
Definition is_continuation (c : ascii) : bool :=
  let n := N_of_ascii c in ((128 <=? n) && (n <? 192))%N.

Fixpoint py_len (s : string) : Z :=
  match s with
  | EmptyString => 0
  | String c s => (if is_continuation c then 0 else 1) + py_len s
  end.

(** [s[:n]] *)
Fixpoint py_take (n : nat) (s : string) : string :=
  match s with
  | EmptyString => ""
  | String c s' =>
      if is_continuation c then String c (py_take n s')
      else match n with O => "" | S n => String c (py_take n s') end
  end.

Fixpoint split_chars (cur : string) (s : string) : list string :=
  match s with
  | EmptyString => if String.eqb cur "" then [] else [cur]
  | String c s' =>
      if is_continuation c then split_chars (cur +:+ String c "") s'
      else (if String.eqb cur "" then [] else [cur]) ++ split_chars (String c "") s'
  end.

(** [sub in s] *)
Fixpoint str_contains (sub s : string) : bool :=
  String.prefix sub s ||
  match s with EmptyString => false | String _ s' => str_contains sub s' end.

(** ** Exceptions *)

Inductive exn :=
| ValueError (msg : string)
| TypeError (msg : string)
| KeyError (msg : string)
| RuntimeError (msg : string)
| OverflowError (msg : string)
| PermissionError (msg : string)
| TimeoutError (msg : string)
| OSError (msg : string)
| AuthorizationError (msg : string)
| PolicyDeniedError (decision : pydict)
| GovernanceMeshError (msg : string)
| FederationError (msg : string)
| PolicyValidationError (msg : string)
| PolicyImmutabilityError (msg : string)
| PolicyNotFoundError (msg : string)
| PolicyIntegrityError (msg : string)
| PolicySignatureError (msg : string)
| PolicyLifecycleError (msg : string)
| PolicyActivationConflictError (msg : string)
| IdentityValidationError (msg : string)
| JobStoreError (msg : string)
| IdentityStoreError (msg : string)
| IdentityTokenReplayError (msg : string)
| KMSBackendError (msg : string)
| OtherError (cls msg : string).

(** [isinstance(e, ValueError)], by the class statements of the program. *)
Definition is_ValueError (e : exn) : bool :=
  match e with
  | ValueError _ | GovernanceMeshError _ | FederationError _ | PolicyValidationError _
  | PolicyImmutabilityError _ | PolicyIntegrityError _ | PolicySignatureError _
  | PolicyLifecycleError _ | PolicyActivationConflictError _ | IdentityValidationError _ => true
  | _ => false
  end.
Definition is_KeyError (e : exn) : bool :=
  match e with KeyError _ | PolicyNotFoundError _ => true | _ => false end.
Definition is_TypeError (e : exn) : bool := match e with TypeError _ => true | _ => false end.
Definition is_RuntimeError (e : exn) : bool :=
  match e with
  | RuntimeError _ | JobStoreError _ | IdentityStoreError _ | IdentityTokenReplayError _ | KMSBackendError _ => true
  | _ => false
  end.
(** [TimeoutError] and [PermissionError] are subclasses of [OSError]. *)
Definition is_OSError (e : exn) : bool :=
  match e with OSError _ | TimeoutError _ | PermissionError _ => true | _ => false end.

(** [type(e).__name__] *)
Definition exn_name (e : exn) : string :=
  match e with
  | ValueError _ => "ValueError" | TypeError _ => "TypeError" | KeyError _ => "KeyError"
  | RuntimeError _ => "RuntimeError" | OverflowError _ => "OverflowError"
  | PermissionError _ => "PermissionError" | TimeoutError _ => "TimeoutError"
  | OSError _ => "OSError" | AuthorizationError _ => "AuthorizationError"
  | PolicyDeniedError _ => "PolicyDeniedError" | GovernanceMeshError _ => "GovernanceMeshError"
  | FederationError _ => "FederationError" | PolicyValidationError _ => "PolicyValidationError"
  | PolicyImmutabilityError _ => "PolicyImmutabilityError"
  | PolicyNotFoundError _ => "PolicyNotFoundError"
  | PolicyIntegrityError _ => "PolicyIntegrityError"
  | PolicySignatureError _ => "PolicySignatureError"
  | PolicyLifecycleError _ => "PolicyLifecycleError"
  | PolicyActivationConflictError _ => "PolicyActivationConflictError"
  | IdentityValidationError _ => "IdentityValidationError"
  | JobStoreError _ => "JobStoreError" | IdentityStoreError _ => "IdentityStoreError"
  | IdentityTokenReplayError _ => "IdentityTokenReplayError" | KMSBackendError _ => "KMSBackendError"
  | OtherError c _ => c
  end.

(** [SystemExit(msg)]: the process ends with the message and exit code 1. *)
Definition SystemExit (msg : string) : exn := OtherError "SystemExit" msg.
Definition is_SystemExit (e : exn) : bool := String.eqb (exn_name e) "SystemExit".

Definition dict_str_list (k : string) (d : pydict) : list string :=
  match assoc_get k d with Some (PList l) => map py_str l | _ => [] end.

(** [str(e)]; a [KeyError] shows the [repr] of its argument. *)
Definition exn_str (e : exn) : string :=
  match e with
  | KeyError m | PolicyNotFoundError m => py_repr_str m
  | PolicyDeniedError d =>
      "policy denied authorization: " +:+ join "; " (dict_str_list "reasons" d) +:+
      " [" +:+ join "," (dict_str_list "reason_codes" d) +:+ "]"
  | ValueError m | TypeError m | RuntimeError m | OverflowError m | PermissionError m
  | TimeoutError m | OSError m | AuthorizationError m | GovernanceMeshError m
  | FederationError m | PolicyValidationError m | PolicyImmutabilityError m
  | PolicyIntegrityError m | PolicySignatureError m | PolicyLifecycleError m
  | PolicyActivationConflictError m | IdentityValidationError m | JobStoreError m
  | IdentityStoreError m | IdentityTokenReplayError m | KMSBackendError m | OtherError _ m => m
  end.

(** ** Results and stateful computations *)

Inductive res (A : Type) := Ok (x : A) | Raise (e : exn).
Arguments Ok {_} _.
Arguments Raise {_} _.

#[export] Instance res_ret : MRet res := @Ok.
#[export] Instance res_bind : MBind res :=
  λ A B f m, match m with Ok x => f x | Raise e => Raise e end.

(** A method on an object with state [S]: the state survives an exception. *)
Definition M (S A : Type) : Type := S → res A * S.

#[export] Instance M_ret {S} : MRet (M S) := λ A x s, (Ok x, s).
#[export] Instance M_bind {S} : MBind (M S) :=
  λ A B f m s, match m s with
               | (Ok x, s') => f x s'
               | (Raise e, s') => (Raise e, s')
               end.

Definition raise {S A} (e : exn) : M S A := λ s, (Raise e, s).
Definition get_state {S} : M S S := λ s, (Ok s, s).
Definition put_state {S} (s : S) : M S unit := λ _, (Ok tt, s).
Definition modify {S} (f : S → S) : M S unit := λ s, (Ok tt, f s).
Definition lift_res {S A} (r : res A) : M S A := λ s, (r, s).

(** [if b: raise e] *)
Definition raise_if {S} (b : bool) (e : exn) : M S unit :=
  λ s, ((if b then Raise e else Ok tt), s).
Definition fail_if (b : bool) (e : exn) : res unit := if b then Raise e else Ok tt.

(** [try: m except E as exc: h(exc)]; [h] gives [None] for a class not caught. *)
Definition try_except {S A} (m : M S A) (h : exn → option (M S A)) : M S A :=
  λ s, match m s with
       | (Raise e, s') => match h e with Some k => k s' | None => (Raise e, s') end
       | r => r
       end.
Definition res_except {A} (m : res A) (h : exn → option exn) : res A :=
  match m with
  | Raise e => match h e with Some e' => Raise e' | None => Raise e end
  | Ok x => Ok x
  end.

(** Run a method of a component inside the state of its owner. *)
Definition zoom {S T A} (get : S → T) (set : T → S → S) (m : M T A) : M S A :=
  λ s, let '(r, t) := m (get s) in (r, set t s).

Fixpoint mapM_res {A B} (f : A → res B) (l : list A) : res (list B) :=
  match l with
  | [] => Ok []
  | x :: l => y ← f x; ys ← mapM_res f l; Ok (y :: ys)
  end.

Fixpoint forM_ {S A} (l : list A) (f : A → M S unit) : M S unit :=
  match l with
  | [] => mret tt
  | x :: l => f x ;; forM_ l f
  end.

Fixpoint for_res {A} (l : list A) (f : A → res unit) : res unit :=
  match l with
  | [] => Ok tt
  | x :: l => f x ;; for_res l f
  end.

(** ** Inversion of successful computations *)

Lemma res_bind_ok {A B} (m : res A) (f : A → res B) y :
  (m ≫= f) = Ok y ↔ ∃ x, m = Ok x ∧ f x = Ok y.
Proof. unfold mbind, res_bind. destruct m; naive_solver. Qed.

Lemma M_bind_ok {S A B} (m : M S A) (f : A → M S B) s y s' :
  (m ≫= f) s = (Ok y, s') ↔ ∃ x s1, m s = (Ok x, s1) ∧ f x s1 = (Ok y, s').
Proof. unfold mbind, M_bind. destruct (m s) as [[x|e] s1]; naive_solver. Qed.

Lemma M_bind_run {S X Y} (m : M S X) (f : X → M S Y) s :
  (m ≫= f) s = match m s with (Ok x, s') => f x s' | (Raise e, s') => (Raise e, s') end.
Proof. done. Qed.

Lemma raise_if_ok {S} b e (s : S) u s' :
  raise_if b e s = (Ok u, s') ↔ b = false ∧ s' = s.
Proof. unfold raise_if. destruct b, u; naive_solver. Qed.

Lemma fail_if_ok b e u : fail_if b e = Ok u ↔ b = false.
Proof. unfold fail_if. destruct b, u; naive_solver. Qed.

Lemma lift_res_ok {S A} (r : res A) (s : S) x s' :
  lift_res r s = (Ok x, s') ↔ r = Ok x ∧ s' = s.
Proof. unfold lift_res. naive_solver. Qed.

Lemma mret_res_ok {A} (x y : A) : (mret x : res A) = Ok y ↔ y = x.
Proof. unfold mret, res_ret. naive_solver. Qed.

Lemma mret_M_ok {S A} (x y : A) (s s' : S) : (mret x : M S A) s = (Ok y, s') ↔ y = x ∧ s' = s.
Proof. unfold mret, M_ret. naive_solver. Qed.

Lemma for_res_ok {A} (l : list A) f : for_res l f = Ok tt ↔ Forall (λ x, f x = Ok tt) l.
Proof.
  induction l as [|x l IH]; simpl; [split; [constructor|done]|].
  rewrite res_bind_ok, Forall_cons. split.
  - intros ([] & ? & ?). split; [done|]. by apply IH.
  - intros [? ?]. exists tt. split; [done|]. by apply IH.
Qed.

Lemma mapM_res_ok {A B} (f : A → res B) l ys :
  mapM_res f l = Ok ys ↔ Forall2 (λ x y, f x = Ok y) l ys.
Proof.
  revert ys. induction l as [|x l IH]; intros ys; simpl.
  - split; [intros [= <-]; constructor | intros H; by inversion H].
  - rewrite res_bind_ok. setoid_rewrite res_bind_ok. split.
    + intros (y & Hy & zs & Hzs & [= <-]). constructor; [done|]. by apply IH.
    + intros H. inversion H as [|? y ? zs Hy Hzs]; subst. exists y. split; [done|].
      exists zs. split; [by apply IH|done].
Qed.

(** Invert [H : computation = Ok _] step by step. *)
Ltac inv_ok_step :=
  match goal with
  | H : (_ ≫= _) = Ok _ |- _ =>
      apply res_bind_ok in H; let x := fresh "x" in let Hx := fresh "Hx" in
      destruct H as (x & Hx & H)
  | H : (_ ≫= _) _ = (Ok _, _) |- _ =>
      apply M_bind_ok in H; let x := fresh "x" in let s := fresh "st" in
      let Hx := fresh "Hx" in destruct H as (x & s & Hx & H)
  | H : raise_if _ _ _ = (Ok _, _) |- _ =>
      apply raise_if_ok in H; destruct H as [H ->]
  | H : fail_if _ _ = Ok _ |- _ => apply fail_if_ok in H
  | H : lift_res _ _ = (Ok _, _) |- _ =>
      apply lift_res_ok in H; destruct H as [H ->]
  | H : mret _ = Ok _ |- _ => apply mret_res_ok in H; subst
  | H : mret _ _ = (Ok _, _) |- _ =>
      apply mret_M_ok in H; let H1 := fresh in let H2 := fresh in
      destruct H as [H1 H2]; try subst
  | H : raise _ _ = (Ok _, _) |- _ => discriminate H
  | H : Raise _ = Ok _ |- _ => discriminate H
  | H : Ok _ = Raise _ |- _ => discriminate H
  | H : Ok _ = Ok _ |- _ => injection H as H; try subst
  | H : (Raise _, _) = (Ok _, _) |- _ => discriminate H
  | H : (Ok _, _) = (Raise _, _) |- _ => discriminate H
  | H : (Ok _, _) = (Ok _, _) |- _ => injection H as H; try subst
  | H : get_state _ = (Ok _, _) |- _ => injection H as H; try subst
  | H : put_state _ _ = (Ok _, _) |- _ => injection H as H; try subst
  | H : modify _ _ = (Ok _, _) |- _ => injection H as H; try subst
  | x : unit |- _ => destruct x
  end.
Ltac inv_ok := repeat (inv_ok_step; simpl in *).

(** The same, without simplifying what the steps compute. *)
Ltac inv_bind := repeat (inv_ok_step; cbv beta in *).

#[export] Hint Rewrite @res_bind_ok @M_bind_ok @raise_if_ok @fail_if_ok @lift_res_ok : gas.

Lemma for_res_ext {A} (l : list A) (f g : A → res unit) :
  (∀ x, x ∈ l → f x = g x) → for_res l f = for_res l g.
Proof.
  induction l as [|x l IH]; intros H; [done|]. cbn [for_res]. rewrite H by (by left).
  rewrite IH; [done|]. intros y Hy. apply H. by right.
Qed.
