(* ===== verification/Moves.v ===== *)
(** Computations that move the state along a preorder, or keep a part of it:
    the rules for the constructs of the state and exception monad, and the
    tactic [keep] that follows a computation with them and with the hints of the
    database [keeps]. *)

From S2P Require Import Prelude PyFloat PyVal.

Definition moves {S A} (P : S → S → Prop) (m : M S A) : Prop := ∀ s, P s (m s).2.

(** The states agree on [f]. *)
Definition same {S X} (f : S → X) (s s' : S) : Prop := f s' = f s.
#[export] Instance same_preorder {S X} (f : S → X) : PreOrder (same f).
Proof. split; [done|]. unfold same. intros s1 s2 s3 H1 H2. congruence. Qed.

Abbreviation keeps f := (moves (same f)).

Section Moves.
Context {S : Type} (P : S → S → Prop) `{!PreOrder P}.

Lemma moves_mret {A} (x : A) : moves P (mret x). Proof. intros s. reflexivity. Qed.
Lemma moves_raise {A} e : moves P (raise (A := A) e). Proof. intros s. reflexivity. Qed.
Lemma moves_lift {A} (r : res A) : moves P (lift_res r). Proof. intros s. reflexivity. Qed.
Lemma moves_raise_if b e : moves P (raise_if b e). Proof. intros s. reflexivity. Qed.
Lemma moves_get_state : moves P (get_state (S := S)). Proof. intros s. reflexivity. Qed.

(** Sequence and exceptions, at one state and at all. *)
Lemma moves_bind_at {A B} (m : M S A) (k : A → M S B) s :
  P s (m s).2 → (∀ x, moves P (k x)) → P s ((m ≫= k) s).2.
Proof.
  intros Hm Hk. rewrite M_bind_run. destruct (m s) as [[x|e] s1]; [|done].
  etransitivity; [exact Hm|apply (Hk x s1)].
Qed.
Lemma moves_try_at {A} (m : M S A) h s :
  P s (m s).2 → (∀ e k, h e = Some k → moves P k) → P s (try_except m h s).2.
Proof.
  intros Hm Hh. unfold try_except. destruct (m s) as [[x|e] s1]; [done|].
  destruct (h e) as [k|] eqn:Hk; [|done]. etransitivity; [exact Hm|apply (Hh e k Hk s1)].
Qed.

Lemma moves_bind {A B} (m : M S A) (k : A → M S B) : moves P m → (∀ x, moves P (k x)) → moves P (m ≫= k).
Proof. intros Hm Hk s. by apply moves_bind_at. Qed.

(** After reading the state, the rest need only move that state. *)
Lemma moves_read {A} (k : S → M S A) : (∀ s, P s (k s s).2) → moves P (s ← get_state; k s).
Proof. intros Hk s. apply (Hk s). Qed.

Lemma moves_try {A} (m : M S A) h : moves P m → (∀ e k, h e = Some k → moves P k) → moves P (try_except m h).
Proof. intros Hm Hh s. by apply moves_try_at. Qed.

Lemma moves_forM {A} (l : list A) (f : A → M S unit) : (∀ x, x ∈ l → moves P (f x)) → moves P (forM_ l f).
Proof.
  induction l as [|x l IH]; intros Hf; cbn; [apply moves_mret|].
  apply moves_bind; [apply Hf; by left|intros _; apply IH; intros y Hy; apply Hf; by right].
Qed.

Lemma moves_zoom {T0 A} (get : S → T0) (set : T0 → S → S) (m : M T0 A) :
  (∀ t s, P s (set t s)) → moves P (zoom get set m).
Proof. intros Hset s. unfold zoom. destruct (m (get s)) as [r t]. apply Hset. Qed.
End Moves.

Create HintDb keeps.

(** Follow the steps of a computation. *)
Ltac keep_step :=
  lazymatch goal with
  | |- moves _ (mret _) => apply moves_mret; typeclasses eauto
  | |- moves _ (raise _) => apply moves_raise; typeclasses eauto
  | |- moves _ (raise_if _ _) => apply moves_raise_if; typeclasses eauto
  | |- moves _ (lift_res _) => apply moves_lift; typeclasses eauto
  | |- moves _ get_state => apply moves_get_state; typeclasses eauto
  | |- moves _ (_ ≫= _) => apply moves_bind; [typeclasses eauto| |intros ?]
  | |- moves _ (try_except _ _) =>
      apply moves_try; [typeclasses eauto| |
        let e := fresh "e" in let k := fresh "k" in let Hk := fresh "Hk" in
        intros e k Hk; repeat case_match; simplify_eq]
  | |- moves _ (match ?x with _ => _ end) => destruct x
  | |- moves _ (let '(_, _) := ?x in _) => destruct x
  | |- moves _ _ => solve [eauto 4 with keeps]
  end.
Ltac keep := repeat keep_step.

(** The preorder of a property that a computation does not lose. *)
Definition stays {S} (P : S → Prop) (s s' : S) : Prop := P s → P s'.
#[export] Instance stays_preorder {S} (P : S → Prop) : PreOrder (stays P).
Proof. unfold stays. split; [by intros s|]. intros s1 s2 s3. auto. Qed.

(** A part of the state is changed by the computation of that part only. *)
Lemma stays_zoom {S T A} (P : S → Prop) (Q : T → Prop) (get : S → T) (set : T → S → S) (m : M T A) :
  (∀ s, P s → Q (get s)) → (∀ t s, P s → Q t → P (set t s)) →
  moves (stays Q) m → moves (stays P) (zoom get set m).
Proof.
  intros Hget Hset Hm s Hs. unfold zoom. specialize (Hm (get s) (Hget s Hs)).
  destruct (m (get s)) as [r t]. by apply Hset.
Qed.
