(* ===== verification/Json.v ===== *)
(** [json.dumps], [json.loads] and [canonical_json] (canonical.py).

    The printer takes the options the program uses: [sort_keys=True] always,
    [ensure_ascii] and the separators as a [json_style].  The parser follows
    [json.decoder].  The file proves that parsing a printed value gives the
    value back (with its dictionaries sorted), hence that canonical JSON is
    injective, and that it does not depend on dictionary order. *)

From S2P Require Import Prelude PyFloat PyVal.
From Stdlib Require Import ZifyN DecimalString DecimalFacts DecimalPos DecimalZ.

Open Scope Z_scope.

Record json_style := { ensure_ascii : bool; item_sep : string; key_sep : string }.

(** [canonical_json]: [separators=(",", ":"), ensure_ascii=False] *)
Definition canonical_style : json_style :=
  {| ensure_ascii := false; item_sep := ","; key_sep := ":" |}.
(** [json.dumps(x, sort_keys=True, separators=(",", ":"))] *)
Definition compact_style : json_style :=
  {| ensure_ascii := true; item_sep := ","; key_sep := ":" |}.
(** [json.dumps(x, sort_keys=True)] *)
Definition default_style : json_style :=
  {| ensure_ascii := true; item_sep := ", "; key_sep := ": " |}.

(** ** Strings *)

(** [\uXXXX] *)
Definition u_escape (n : N) : string :=
  "\u" +:+ String (hex_digit (n / 4096)) (String (hex_digit (n / 256 mod 16))
    (String (hex_digit (n / 16 mod 16)) (String (hex_digit (n mod 16)) ""))).

(** A code point above [0xFFFF] is written as a surrogate pair. *)
Definition escape_point (n : N) : string :=
  if (n <? 65536)%N then u_escape n
  else let m := (n - 65536)%N in
       u_escape (55296 + m / 1024) +:+ u_escape (56320 + m mod 1024).

Definition escape_byte (c : ascii) : string :=
  let n := N_of_ascii c in
  if (n =? 34)%N then String "\" (String c "")
  else if (n =? 92)%N then "\\"
  else if (n =? 10)%N then "\n"
  else if (n =? 13)%N then "\r"
  else if (n =? 9)%N then "\t"
  else if (n =? 12)%N then "\f"
  else if (n =? 8)%N then "\b"
  else if (n <? 32)%N then u_escape n
  else String c "".

(** The low six bits of a continuation byte. *)
Definition cont (c : ascii) : N := (N_of_ascii c mod 64)%N.

(** [ensure_ascii=True]: decode UTF-8 and escape what is not printable ASCII. *)
Fixpoint escape_ascii (s : string) : string :=
  match s with
  | EmptyString => ""
  | String c s1 =>
      let n := N_of_ascii c in
      if (n <? 127)%N then escape_byte c +:+ escape_ascii s1
      else if (n <? 192)%N then escape_point n +:+ escape_ascii s1
      else match s1 with
           | EmptyString => ""
           | String c2 s2 =>
               if (n <? 224)%N
               then escape_point ((n mod 32) * 64 + cont c2)%N +:+ escape_ascii s2
               else match s2 with
                    | EmptyString => ""
                    | String c3 s3 =>
                        if (n <? 240)%N
                        then escape_point ((n mod 16) * 4096 + cont c2 * 64 + cont c3)%N
                             +:+ escape_ascii s3
                        else match s3 with
                             | EmptyString => ""
                             | String c4 s4 =>
                                 escape_point ((n mod 8) * 262144 + cont c2 * 4096 +
                                               cont c3 * 64 + cont c4)%N
                                 +:+ escape_ascii s4
                             end
                    end
           end
  end.

Definition json_quote (st : json_style) (s : string) : string :=
  dquote +:+ (if ensure_ascii st then escape_ascii s else concat_map escape_byte s) +:+ dquote.

(** ** Values *)

Definition json_item (st : json_style) (kv : string * string) : string :=
  json_quote st kv.1 +:+ key_sep st +:+ kv.2.

Fixpoint json_text (st : json_style) (v : pyval) : string :=
  match v with
  | PNone => "null"
  | PBool b => if b then "true" else "false"
  | PInt z => string_of_Z z
  | PFloat f => json_float_repr f
  | PStr s => json_quote st s
  | PList l => "[" +:+ join (item_sep st) (map (json_text st) l) +:+ "]"
  | PDict kvs =>
      "{" +:+ join (item_sep st)
               (map (json_item st) (sort_by fst (map (λ kv, (kv.1, json_text st kv.2)) kvs)))
      +:+ "}"
  | PObj _ => ""
  end.

(** [json.dumps] accepts the value: no object that is not JSON. *)
Fixpoint serializable (v : pyval) : bool :=
  match v with
  | PList l => forallb serializable l
  | PDict kvs => forallb (λ kv, serializable kv.2) kvs
  | PObj _ => false
  | _ => true
  end.

Definition json_dumps (st : json_style) (v : pyval) : res string :=
  if serializable v then Ok (json_text st v)
  else Raise (TypeError "Object is not JSON serializable").

(** canonical.py: [canonical_json], as the bytes of the UTF-8 text. *)
Definition canonical_json (v : pyval) : res string := json_dumps canonical_style v.

(** ** Parsing *)

Definition is_ws (c : ascii) : bool :=
  let n := N_of_ascii c in ((n =? 32) || (n =? 9) || (n =? 10) || (n =? 13))%N.

Fixpoint skip_ws (s : string) : string :=
  match s with
  | String c s' => if is_ws c then skip_ws s' else s
  | EmptyString => ""
  end.

Fixpoint strip_prefix (p s : string) : option string :=
  match p, s with
  | EmptyString, _ => Some s
  | String a p, String b s => if Ascii.eqb a b then strip_prefix p s else None
  | _, _ => None
  end.

Definition hex_value (c : ascii) : option N :=
  let n := N_of_ascii c in
  if ((48 <=? n) && (n <=? 57))%N then Some (n - 48)%N
  else if ((97 <=? n) && (n <=? 102))%N then Some (n - 87)%N
  else if ((65 <=? n) && (n <=? 70))%N then Some (n - 55)%N
  else None.

Definition hex4 (a b c d : ascii) : option N :=
  match hex_value a, hex_value b, hex_value c, hex_value d with
  | Some a, Some b, Some c, Some d => Some (a * 4096 + b * 256 + c * 16 + d)%N
  | _, _, _, _ => None
  end.

(** The UTF-8 encoding of a code point. *)
Definition utf8 (n : N) : string :=
  if (n <? 128)%N then chr n
  else if (n <? 2048)%N then chr (192 + n / 64) +:+ chr (128 + n mod 64)
  else if (n <? 65536)%N
  then chr (224 + n / 4096) +:+ chr (128 + n / 64 mod 64) +:+ chr (128 + n mod 64)
  else chr (240 + n / 262144) +:+ chr (128 + n / 4096 mod 64) +:+
       chr (128 + n / 64 mod 64) +:+ chr (128 + n mod 64).

Definition simple_escape (c : ascii) : option string :=
  let n := N_of_ascii c in
  if (n =? 34)%N then Some dquote
  else if (n =? 92)%N then Some "\"
  else if (n =? 47)%N then Some "/"
  else if (n =? 98)%N then Some (chr 8)
  else if (n =? 102)%N then Some (chr 12)
  else if (n =? 110)%N then Some (chr 10)
  else if (n =? 114)%N then Some (chr 13)
  else if (n =? 116)%N then Some (chr 9)
  else None.

Definition prepend (p : string) (r : option (string * string)) : option (string * string) :=
  match r with Some (s, rest) => Some (p +:+ s, rest) | None => None end.

Definition is_high_surrogate (n : N) : bool := ((55296 <=? n) && (n <=? 56319))%N.
Definition is_low_surrogate (n : N) : bool := ((56320 <=? n) && (n <=? 57343))%N.

(** [json.decoder.scanstring], after the opening quote. *)
Fixpoint scan_string (s : string) : option (string * string) :=
  match s with
  | EmptyString => None
  | String c s1 =>
      if (N_of_ascii c =? 34)%N then Some ("", s1)
      else if (N_of_ascii c =? 92)%N then
        match s1 with
        | EmptyString => None
        | String e s2 =>
            if (N_of_ascii e =? 117)%N then
              match s2 with
              | String a (String b (String c (String d s3))) =>
                  match hex4 a b c d with
                  | None => None
                  | Some u =>
                      if is_high_surrogate u then
                        match s3 with
                        | String x (String y (String a' (String b' (String c' (String d' s4))))) =>
                            if ((N_of_ascii x =? 92) && (N_of_ascii y =? 117))%N then
                              match hex4 a' b' c' d' with
                              | Some w =>
                                  if is_low_surrogate w then
                                    prepend (utf8 (65536 + (u - 55296) * 1024 + (w - 56320)))
                                            (scan_string s4)
                                  else prepend (utf8 u) (scan_string s3)
                              | None => prepend (utf8 u) (scan_string s3)
                              end
                            else prepend (utf8 u) (scan_string s3)
                        | _ => prepend (utf8 u) (scan_string s3)
                        end
                      else prepend (utf8 u) (scan_string s3)
                  end
              | _ => None
              end
            else match simple_escape e with
                 | Some p => prepend p (scan_string s2)
                 | None => None
                 end
        end
      else if (N_of_ascii c <? 32)%N then None
      else prepend (String c "") (scan_string s1)
  end.

Definition digit_cons (c : ascii) (d : Decimal.uint) : option Decimal.uint :=
  if (48 <=? N_of_ascii c)%N && (N_of_ascii c <=? 57)%N
  then uint_of_char c (Some d) else None.

(** The longest run of decimal digits. *)
Fixpoint span_digits (s : string) : Decimal.uint * string :=
  match s with
  | EmptyString => (Decimal.Nil, "")
  | String c s' =>
      let '(d, r) := span_digits s' in
      match digit_cons c d with
      | Some d' => (d', r)
      | None => (Decimal.Nil, s)
      end
  end.

(** [0|[1-9]\d*] *)
Definition scan_int (s : string) : option (Decimal.uint * string) :=
  match s with
  | String c s' =>
      if Ascii.eqb c "0" then Some (Decimal.D0 Decimal.Nil, s')
      else match span_digits s with
           | (Decimal.Nil, _) => None
           | (d, r) => Some (d, r)
           end
  | EmptyString => None
  end.

Fixpoint uint_length (d : Decimal.uint) : Z :=
  match d with
  | Decimal.Nil => 0
  | Decimal.D0 d | Decimal.D1 d | Decimal.D2 d | Decimal.D3 d | Decimal.D4 d
  | Decimal.D5 d | Decimal.D6 d | Decimal.D7 d | Decimal.D8 d | Decimal.D9 d =>
      1 + uint_length d
  end.

(** [(\.\d+)?] *)
Definition scan_frac (s : string) : option Decimal.uint * string :=
  match s with
  | String c s' =>
      if Ascii.eqb c "." then
        match span_digits s' with
        | (Decimal.Nil, _) => (None, s)
        | (d, r) => (Some d, r)
        end
      else (None, s)
  | EmptyString => (None, s)
  end.

(** The digits of an exponent; [s] is the text to fall back to. *)
Definition scan_exp_digits (s : string) (neg : bool) (u : string) : option Z * string :=
  match span_digits u with
  | (Decimal.Nil, _) => (None, s)
  | (d, r) => (Some (if neg then - Z.of_uint d else Z.of_uint d), r)
  end.

(** [([eE][-+]?\d+)?] *)
Definition scan_exp (s : string) : option Z * string :=
  match s with
  | String c s' =>
      if Ascii.eqb c "e" || Ascii.eqb c "E" then
        match s' with
        | String g t =>
            if Ascii.eqb g "-" then scan_exp_digits s true t
            else if Ascii.eqb g "+" then scan_exp_digits s false t
            else scan_exp_digits s false s'
        | EmptyString => (None, s)
        end
      else (None, s)
  | EmptyString => (None, s)
  end.

(** A number after its optional minus sign. *)
Definition scan_unsigned (neg : bool) (s : string) : option (pyval * string) :=
  match scan_int s with
  | None => None
  | Some (d, s2) =>
      let '(frac, s3) := scan_frac s2 in
      let '(ex, s4) := scan_exp s3 in
      match frac, ex with
      | None, None => Some (PInt (Z.of_int (if neg then Decimal.Neg d else Decimal.Pos d)), s4)
      | _, _ =>
          let f := match frac with Some f => f | None => Decimal.Nil end in
          let e := match ex with Some e => e | None => 0 end in
          Some (PFloat (float_of_decimal neg (Z.of_uint (Decimal.app d f)) (e - uint_length f)), s4)
      end
  end.

(** [NUMBER_RE] *)
Definition scan_number (s : string) : option (pyval * string) :=
  match strip_prefix "-" s with
  | Some t => scan_unsigned true t
  | None => scan_unsigned false s
  end.

Definition json_literals : list (string * pyval) :=
  [("null", PNone); ("true", PBool true); ("false", PBool false); ("NaN", PFloat S754_nan);
   ("Infinity", PFloat (S754_infinity false)); ("-Infinity", PFloat (S754_infinity true))].

Fixpoint scan_literal (lits : list (string * pyval)) (s : string) : option (pyval * string) :=
  match lits with
  | [] => None
  | (t, v) :: lits => match strip_prefix t s with Some r => Some (v, r) | None => scan_literal lits s end
  end.

Fixpoint scan_value (fuel : nat) (s : string) {struct fuel} : option (pyval * string) :=
  match fuel with
  | O => None
  | S fuel =>
      match s with
      | EmptyString => None
      | String c r =>
          if (N_of_ascii c =? 34)%N then
            match scan_string r with Some (t, r) => Some (PStr t, r) | None => None end
          else if Ascii.eqb c "{" then
            match strip_prefix "}" (skip_ws r) with
            | Some r' => Some (PDict [], r')
            | None => scan_members fuel [] (skip_ws r)
            end
          else if Ascii.eqb c "[" then
            match strip_prefix "]" (skip_ws r) with
            | Some r' => Some (PList [], r')
            | None => scan_elements fuel [] (skip_ws r)
            end
          else match scan_literal json_literals s with
               | Some r => Some r
               | None => scan_number s
               end
      end
  end
with scan_elements (fuel : nat) (acc : list pyval) (s : string) {struct fuel} :
    option (pyval * string) :=
  match fuel with
  | O => None
  | S fuel =>
      match scan_value fuel s with
      | None => None
      | Some (v, r) =>
          match skip_ws r with
          | String c r' =>
              if Ascii.eqb c "]" then Some (PList (acc ++ [v]), r')
              else if Ascii.eqb c "," then scan_elements fuel (acc ++ [v]) (skip_ws r')
              else None
          | EmptyString => None
          end
      end
  end
with scan_members (fuel : nat) (acc : pydict) (s : string) {struct fuel} :
    option (pyval * string) :=
  match fuel with
  | O => None
  | S fuel =>
      match strip_prefix dquote s with
      | None => None
      | Some r =>
          match scan_string r with
          | None => None
          | Some (k, r) =>
              match strip_prefix ":" (skip_ws r) with
              | None => None
              | Some r =>
                  match scan_value fuel (skip_ws r) with
                  | None => None
                  | Some (v, r) =>
                      match skip_ws r with
                      | String c r' =>
                          if Ascii.eqb c "}" then Some (PDict (assoc_set k v acc), r')
                          else if Ascii.eqb c "," then
                            scan_members fuel (assoc_set k v acc) (skip_ws r')
                          else None
                      | EmptyString => None
                      end
                  end
              end
          end
      end
  end.

(** [json.loads]; [JSONDecodeError] is a [ValueError]. *)
Definition json_loads (s : string) : res pyval :=
  match scan_value (S (String.length s)) (skip_ws s) with
  | Some (v, r) =>
      match skip_ws r with
      | EmptyString => Ok v
      | _ => Raise (ValueError "Extra data")
      end
  | None => Raise (ValueError "Expecting value")
  end.

(** ** Normal form: dictionaries sorted by key, at every depth *)

Fixpoint norm (v : pyval) : pyval :=
  match v with
  | PList l => PList (map norm l)
  | PDict kvs => PDict (sort_by fst (map (λ kv, (kv.1, norm kv.2)) kvs))
  | _ => v
  end.

(** A dictionary has distinct keys, at every depth. *)
Fixpoint wf (v : pyval) : bool :=
  match v with
  | PList l => forallb wf l
  | PDict kvs => str_nodup (map fst kvs) && forallb (λ kv, wf kv.2) kvs
  | _ => true
  end.

Definition is_ascii_char (c : ascii) : bool := (N_of_ascii c <? 128)%N.
Definition ascii_str (s : string) : bool := forallb is_ascii_char (String.list_ascii_of_string s).

(** The text is UTF-8: whole characters, no surrogates, no longer forms. *)
Definition is_cont (c : ascii) : bool := ((128 <=? N_of_ascii c) && (N_of_ascii c <? 192))%N.

Definition point2 (c c2 : ascii) : N := (N_of_ascii c mod 32 * 64 + cont c2)%N.
Definition point3 (c c2 c3 : ascii) : N := (N_of_ascii c mod 16 * 4096 + cont c2 * 64 + cont c3)%N.
Definition point4 (c c2 c3 c4 : ascii) : N :=
  (N_of_ascii c mod 8 * 262144 + cont c2 * 4096 + cont c3 * 64 + cont c4)%N.

Definition ok2 (c c2 : ascii) : bool :=
  let n := N_of_ascii c in ((192 <=? n) && (n <? 224))%N && is_cont c2 && (128 <=? point2 c c2)%N.
Definition ok3 (c c2 c3 : ascii) : bool :=
  let n := N_of_ascii c in let p := point3 c c2 c3 in
  ((224 <=? n) && (n <? 240))%N && is_cont c2 && is_cont c3 && (2048 <=? p)%N &&
  negb (is_high_surrogate p || is_low_surrogate p).
Definition ok4 (c c2 c3 c4 : ascii) : bool :=
  let n := N_of_ascii c in let p := point4 c c2 c3 c4 in
  ((240 <=? n) && (n <? 248))%N && is_cont c2 && is_cont c3 && is_cont c4 && ((65536 <=? p) && (p <? 1114112))%N.

Fixpoint utf8_str (s : string) : bool :=
  match s with
  | EmptyString => true
  | String c s1 =>
      if is_ascii_char c then utf8_str s1 else
      match s1 with
      | EmptyString => false
      | String c2 s2 =>
          if ok2 c c2 then utf8_str s2 else
          match s2 with
          | EmptyString => false
          | String c3 s3 =>
              if ok3 c c2 c3 then utf8_str s3 else
              match s3 with
              | EmptyString => false
              | String c4 s4 => ok4 c c2 c3 c4 && utf8_str s4
              end
          end
      end
  end.

Lemma ascii_utf8 s : ascii_str s = true → utf8_str s = true.
Proof.
  unfold ascii_str. induction s as [|c s IH]; [done|]. cbn [String.list_ascii_of_string forallb utf8_str].
  intros [-> Hs]%andb_true_iff. by apply IH.
Qed.

(** The float's text reads back as the float; true of every finite binary64. *)
Definition float_roundtrips (f : spec_float) : bool :=
  match scan_number (json_float_repr f) with
  | Some (PFloat g, EmptyString) => if decide (g = f) then true else false
  | _ => false
  end.

(** The values a style prints so that they read back: JSON values, whose strings
    are UTF-8 where they are escaped. *)
Fixpoint json_safe (st : json_style) (v : pyval) : bool :=
  match v with
  | PNone | PBool _ | PInt _ => true
  | PFloat f => float_roundtrips f
  | PStr s => negb (ensure_ascii st) || utf8_str s
  | PList l => forallb (json_safe st) l
  | PDict kvs =>
      forallb (λ kv, (negb (ensure_ascii st) || utf8_str kv.1) && json_safe st kv.2) kvs
  | PObj _ => false
  end.

(** ** Strings: scanning a printed string gives it back *)

Lemma string_app_assoc (a b c : string) : (a +:+ b) +:+ c = a +:+ (b +:+ c).
Proof. induction a as [|x a IH]; simpl; [done|]. by rewrite IH. Qed.

Lemma string_app_nil_l (a : string) : "" +:+ a = a.
Proof. done. Qed.

Lemma string_app_nil_r (a : string) : a +:+ "" = a.
Proof. induction a as [|x a IH]; simpl; [done|]. by rewrite IH. Qed.

Lemma string_app_length (a b : string) :
  String.length (a +:+ b) = (String.length a + String.length b)%nat.
Proof. induction a as [|x a IH]; simpl; [done|]. by rewrite IH. Qed.

Lemma strip_prefix_app p s : strip_prefix p (p +:+ s) = Some s.
Proof. induction p as [|c p IH]; simpl; [done|]. by rewrite Ascii.eqb_refl. Qed.

Lemma scan_string_escape_byte c t :
  scan_string (escape_byte c +:+ t) = prepend (String c "") (scan_string t).
Proof. destruct c as [[] [] [] [] [] [] [] []]; reflexivity. Qed.

Lemma scan_string_escape_127 t :
  scan_string (escape_point 127 +:+ t) = prepend (chr 127) (scan_string t).
Proof. reflexivity. Qed.

Lemma prepend_Some p s r : prepend p (Some (s, r)) = Some (p +:+ s, r).
Proof. done. Qed.

Lemma scan_string_escaped s rest :
  scan_string (concat_map escape_byte s +:+ dquote +:+ rest) = Some (s, rest).
Proof.
  induction s as [|c s IH]; [done|].
  cbn [concat_map]. by rewrite string_app_assoc, scan_string_escape_byte, IH.
Qed.

(** *** Escapes of characters outside ASCII *)

Lemma hex_value_digit n : (n < 16)%N → hex_value (hex_digit n) = Some n.
Proof.
  intros Hn.
  assert (forallb (λ n, match hex_value (hex_digit n) with Some m => (m =? n)%N | None => false end)
            (map N.of_nat (seq 0 16)) = true) as H by (by vm_compute).
  rewrite forallb_forall in H. specialize (H n ltac:(rewrite <-(N2Nat.id n); apply in_map, in_seq; lia)).
  destruct (hex_value (hex_digit n)); [|done]. by apply N.eqb_eq in H as ->.
Qed.

Lemma hex4_digits n :
  (n < 65536)%N →
  hex4 (hex_digit (n / 4096)) (hex_digit (n / 256 mod 16)) (hex_digit (n / 16 mod 16)) (hex_digit (n mod 16)) =
    Some n.
Proof.
  intros Hn. unfold hex4. rewrite !hex_value_digit by (zify; Z.div_mod_to_equations; lia).
  f_equal. zify. Z.div_mod_to_equations. lia.
Qed.

Lemma scan_string_u n t :
  (n < 65536)%N → is_high_surrogate n = false →
  scan_string (u_escape n +:+ t) = prepend (utf8 n) (scan_string t).
Proof.
  intros Hn Hs. unfold u_escape. cbn [String.append scan_string]. by rewrite hex4_digits, Hs.
Qed.

Lemma scan_string_pair m t :
  (m < 1048576)%N →
  scan_string ((u_escape (55296 + m / 1024) +:+ u_escape (56320 + m mod 1024)) +:+ t) =
  prepend (utf8 (65536 + m)) (scan_string t).
Proof.
  intros Hm. rewrite string_app_assoc.
  assert (m / 1024 < 1024)%N by (apply N.Div0.div_lt_upper_bound; lia).
  assert (m mod 1024 < 1024)%N by (by apply N.mod_lt).
  set (hi := (55296 + m / 1024)%N). set (lo := (56320 + m mod 1024)%N).
  unfold u_escape. cbn [String.append scan_string].
  change (N_of_ascii "\" =? 34)%N with false. change (N_of_ascii "\" =? 92)%N with true.
  change (N_of_ascii "u" =? 117)%N with true. cbv iota. cbn [andb].
  rewrite (hex4_digits hi), (hex4_digits lo) by lia.
  assert (is_high_surrogate hi = true) as ->
    by (unfold is_high_surrogate; rewrite andb_true_iff, !N.leb_le; lia).
  assert (is_low_surrogate lo = true) as ->
    by (unfold is_low_surrogate; rewrite andb_true_iff, !N.leb_le; lia).
  do 2 f_equal. unfold hi, lo. zify. Z.div_mod_to_equations. lia.
Qed.

Lemma chr_of_ascii n c : n = N_of_ascii c → chr n = String c "".
Proof. intros ->. unfold chr. by rewrite ascii_N_embedding. Qed.
(** A character of [k] bytes is escaped as its code point, which is read as it. *)
Lemma escape_point_reads p t :
  (p < 1114112)%N → is_high_surrogate p = false →
  scan_string (escape_point p +:+ t) = prepend (utf8 p) (scan_string t).
Proof.
  intros Hp Hs. unfold escape_point. destruct (N.ltb_spec p 65536) as [|Hge]; [by apply scan_string_u|].
  rewrite scan_string_pair by lia. by replace (65536 + (p - 65536))%N with p by lia.
Qed.

Ltac byte_facts :=
  unfold cont, is_cont in *; rewrite ?andb_true_iff, ?N.leb_le, ?N.ltb_lt in *;
  repeat match goal with H : _ ∧ _ |- _ => destruct H end.

Lemma utf8_point2 c c2 : ok2 c c2 = true → utf8 (point2 c c2) = String c (String c2 "").
Proof.
  unfold ok2, utf8. intros H. assert (point2 c c2 < 2048)%N as Hlt.
  { unfold point2. byte_facts. zify. Z.div_mod_to_equations. lia. }
  assert (128 <= point2 c c2)%N as Hge by (by apply andb_true_iff in H as [_ H%N.leb_le]).
  destruct (N.ltb_spec (point2 c c2) 128) as [|_]; [lia|].
  destruct (N.ltb_spec (point2 c c2) 2048) as [_|]; [|lia].
  unfold point2 in *. byte_facts.
  rewrite (chr_of_ascii _ c), (chr_of_ascii _ c2); [done|..]; zify; Z.div_mod_to_equations; lia.
Qed.

Lemma utf8_point3 c c2 c3 :
  ok3 c c2 c3 = true → utf8 (point3 c c2 c3) = String c (String c2 (String c3 "")).
Proof.
  unfold ok3, utf8. intros [[H H1%N.leb_le]%andb_true_iff _]%andb_true_iff.
  assert (point3 c c2 c3 < 65536)%N as Hlt.
  { unfold point3. byte_facts. zify. Z.div_mod_to_equations. lia. }
  destruct (N.ltb_spec (point3 c c2 c3) 128) as [|_]; [lia|].
  destruct (N.ltb_spec (point3 c c2 c3) 2048) as [|_]; [lia|].
  destruct (N.ltb_spec (point3 c c2 c3) 65536) as [_|]; [|lia].
  unfold point3 in *. byte_facts.
  rewrite (chr_of_ascii _ c), (chr_of_ascii _ c2), (chr_of_ascii _ c3); [done|..];
    zify; Z.div_mod_to_equations; lia.
Qed.

Lemma utf8_point4 c c2 c3 c4 :
  ok4 c c2 c3 c4 = true → utf8 (point4 c c2 c3 c4) = String c (String c2 (String c3 (String c4 ""))).
Proof.
  unfold ok4, utf8. intros [H [H1%N.leb_le H2%N.ltb_lt]%andb_true_iff]%andb_true_iff.
  destruct (N.ltb_spec (point4 c c2 c3 c4) 128) as [|_]; [lia|].
  destruct (N.ltb_spec (point4 c c2 c3 c4) 2048) as [|_]; [lia|].
  destruct (N.ltb_spec (point4 c c2 c3 c4) 65536) as [|_]; [lia|].
  unfold point4 in *. byte_facts.
  rewrite (chr_of_ascii _ c), (chr_of_ascii _ c2), (chr_of_ascii _ c3), (chr_of_ascii _ c4); [done|..];
    zify; Z.div_mod_to_equations; lia.
Qed.

(** What escapes a whole character: itself if it is ASCII, else its code point. *)
Lemma escape_ascii_1 c s :
  is_ascii_char c = true →
  escape_ascii (String c s) =
  (if (N_of_ascii c <? 127)%N then escape_byte c else escape_point 127) +:+ escape_ascii s.
Proof.
  unfold is_ascii_char. intros H. cbn [escape_ascii].
  destruct (N.ltb_spec (N_of_ascii c) 127) as [|Hge]; [done|].
  apply N.ltb_lt in H. replace (N_of_ascii c) with 127%N by lia. done.
Qed.

Lemma escape_ascii_2 c c2 s :
  ok2 c c2 = true → escape_ascii (String c (String c2 s)) = escape_point (point2 c c2) +:+ escape_ascii s.
Proof.
  unfold ok2. intros [[[H1%N.leb_le H2%N.ltb_lt]%andb_true_iff _]%andb_true_iff _]%andb_true_iff.
  cbn [escape_ascii]. destruct (N.ltb_spec (N_of_ascii c) 127); [lia|].
  destruct (N.ltb_spec (N_of_ascii c) 192); [lia|]. by destruct (N.ltb_spec (N_of_ascii c) 224); [|lia].
Qed.

Lemma escape_ascii_3 c c2 c3 s :
  ok3 c c2 c3 = true →
  escape_ascii (String c (String c2 (String c3 s))) = escape_point (point3 c c2 c3) +:+ escape_ascii s.
Proof.
  unfold ok3. intros [[[[[H1%N.leb_le H2%N.ltb_lt]%andb_true_iff _]%andb_true_iff _]%andb_true_iff
    _]%andb_true_iff _]%andb_true_iff.
  cbn [escape_ascii]. destruct (N.ltb_spec (N_of_ascii c) 127); [lia|].
  destruct (N.ltb_spec (N_of_ascii c) 192); [lia|]. destruct (N.ltb_spec (N_of_ascii c) 224); [lia|].
  by destruct (N.ltb_spec (N_of_ascii c) 240); [|lia].
Qed.

Lemma escape_ascii_4 c c2 c3 c4 s :
  ok4 c c2 c3 c4 = true →
  escape_ascii (String c (String c2 (String c3 (String c4 s)))) =
  escape_point (point4 c c2 c3 c4) +:+ escape_ascii s.
Proof.
  unfold ok4. intros [[[[[H1%N.leb_le _]%andb_true_iff _]%andb_true_iff _]%andb_true_iff _]%andb_true_iff
    _]%andb_true_iff.
  cbn [escape_ascii]. destruct (N.ltb_spec (N_of_ascii c) 127); [lia|].
  destruct (N.ltb_spec (N_of_ascii c) 192); [lia|]. destruct (N.ltb_spec (N_of_ascii c) 224); [lia|].
  by destruct (N.ltb_spec (N_of_ascii c) 240); [lia|].
Qed.

(** UTF-8 by whole characters. *)
Lemma utf8_ind (P : string → Prop) :
  P "" → (∀ c s, is_ascii_char c = true → P s → P (String c s)) →
  (∀ c c2 s, ok2 c c2 = true → P s → P (String c (String c2 s))) →
  (∀ c c2 c3 s, ok3 c c2 c3 = true → P s → P (String c (String c2 (String c3 s)))) →
  (∀ c c2 c3 c4 s, ok4 c c2 c3 c4 = true → P s → P (String c (String c2 (String c3 (String c4 s))))) →
  ∀ s, utf8_str s = true → P s.
Proof.
  intros H0 H1 H2 H3 H4. fix IH 1. intros [|c s1]; [done|]. cbn [utf8_str].
  destruct (is_ascii_char c) eqn:E1; [intros H; apply H1; [done|by apply IH]|].
  destruct s1 as [|c2 s2]; [done|].
  destruct (ok2 c c2) eqn:E2; [intros H; apply H2; [done|by apply IH]|].
  destruct s2 as [|c3 s3]; [done|].
  destruct (ok3 c c2 c3) eqn:E3; [intros H; apply H3; [done|by apply IH]|].
  destruct s3 as [|c4 s4]; [done|].
  destruct (ok4 c c2 c3 c4) eqn:E4; [intros H; apply H4; [done|by apply IH]|done].
Qed.

Lemma scan_string_utf8 s rest :
  utf8_str s = true → scan_string (escape_ascii s +:+ dquote +:+ rest) = Some (s, rest).
Proof.
  revert s. apply utf8_ind; [done| | | |].
  - intros c s Hc IH. rewrite escape_ascii_1, string_app_assoc by done.
    destruct (N.ltb_spec (N_of_ascii c) 127) as [|Hge].
    + by rewrite scan_string_escape_byte, IH.
    + rewrite scan_string_escape_127, IH. unfold is_ascii_char in Hc. apply N.ltb_lt in Hc.
      unfold chr. replace 127%N with (N_of_ascii c) by lia. by rewrite ascii_N_embedding.
  - intros c c2 s Hc IH. rewrite escape_ascii_2, string_app_assoc by done.
    assert (point2 c c2 < 2048)%N as Hlt.
    { unfold ok2, point2 in *. byte_facts. zify. Z.div_mod_to_equations. lia. }
    rewrite escape_point_reads; [by rewrite IH, utf8_point2|lia|].
    unfold is_high_surrogate. apply andb_false_iff. left. apply N.leb_gt. lia.
  - intros c c2 c3 s Hc IH. rewrite escape_ascii_3, string_app_assoc by done.
    assert (point3 c c2 c3 < 65536)%N as Hlt.
    { unfold ok3, point3 in *. byte_facts. zify. Z.div_mod_to_equations. lia. }
    rewrite escape_point_reads; [by rewrite IH, utf8_point3|lia|].
    unfold ok3 in Hc. apply andb_true_iff in Hc as [_ Hc]. by apply negb_true_iff, orb_false_iff in Hc as [? _].
  - intros c c2 c3 c4 s Hc IH. rewrite escape_ascii_4, string_app_assoc by done.
    assert (65536 <= point4 c c2 c3 c4 < 1114112)%N as Hlt.
    { unfold ok4 in Hc. apply andb_true_iff in Hc as [_ [H1%N.leb_le H2%N.ltb_lt]%andb_true_iff]. lia. }
    rewrite escape_point_reads; [by rewrite IH, utf8_point4|lia|].
    unfold is_high_surrogate. apply andb_false_iff. right. apply N.leb_gt. lia.
Qed.

(** A text with characters of two, three and four bytes. *)
Example escape_ascii_ex :
  let s := String.string_of_list_ascii (map ascii_of_N [195; 169; 226; 130; 172; 240; 159; 152; 128]%N) in
  utf8_str s = true ∧ escape_ascii s = "\u00e9\u20ac\ud83d\ude00" ∧
  scan_string (escape_ascii s +:+ dquote) = Some (s, "").
Proof. vm_compute. repeat split. Qed.

(** The strings a style prints so that they read back. *)
Definition str_safe (st : json_style) (s : string) : bool := negb (ensure_ascii st) || utf8_str s.

Lemma scan_string_quote st s rest :
  str_safe st s = true →
  ∃ body, json_quote st s +:+ rest = dquote +:+ body ∧ scan_string body = Some (s, rest).
Proof.
  unfold str_safe, json_quote. intros H. eexists. rewrite !string_app_assoc. split; [done|].
  destruct (ensure_ascii st); simpl in H; [by apply scan_string_utf8|apply scan_string_escaped].
Qed.

(** ** Integers *)

Definition is_digit (c : ascii) : bool := ((48 <=? N_of_ascii c) && (N_of_ascii c <=? 57))%N.

(** Text that cannot continue a number. *)
Definition ends_number (s : string) : bool :=
  match s with
  | EmptyString => true
  | String c _ =>
      negb (is_digit c || Ascii.eqb c "." || Ascii.eqb c "e" || Ascii.eqb c "E" ||
            Ascii.eqb c "+" || Ascii.eqb c "-")
  end.

Definition no_digit_head (s : string) : bool :=
  match s with EmptyString => true | String c _ => negb (is_digit c) end.

Lemma ends_number_no_digit s : ends_number s = true → no_digit_head s = true.
Proof.
  destruct s as [|c s]; simpl; [done|]. by destruct (is_digit c).
Qed.

Lemma span_digits_stop s : no_digit_head s = true → span_digits s = (Decimal.Nil, s).
Proof.
  destruct s as [|c s]; simpl; [done|]. intros H. destruct (span_digits s) as [d r].
  unfold digit_cons. unfold is_digit in H. by destruct (_ && _)%N.
Qed.

Lemma span_digits_uint d rest :
  no_digit_head rest = true →
  span_digits (NilEmpty.string_of_uint d +:+ rest) = (d, rest).
Proof.
  intros Hr. induction d as [|d IH|d IH|d IH|d IH|d IH|d IH|d IH|d IH|d IH|d IH]; simpl;
    [by apply span_digits_stop| by rewrite IH ..].
Qed.

(** [0] alone, or a positive number without leading zero. *)
Definition int_digits (d : Decimal.uint) : Prop :=
  d = Decimal.D0 Decimal.Nil ∨
  match d with Decimal.Nil | Decimal.D0 _ => False | _ => True end.

Lemma nzhead_not_D0 d u : Decimal.nzhead d ≠ Decimal.D0 u.
Proof. induction d; simpl; congruence. Qed.

Lemma pos_to_uint_digits p : int_digits (Pos.to_uint p).
Proof.
  pose proof (Unsigned.to_of (Pos.to_uint p)) as H. rewrite Unsigned.of_to in H.
  simpl in H. unfold int_digits.
  destruct (Pos.to_uint p) as [|d|d|d|d|d|d|d|d|d|d] eqn:E; try (by right).
  left. unfold Decimal.unorm in H. simpl in H.
  destruct (Decimal.nzhead d) eqn:E2; try discriminate; [congruence|].
  by apply nzhead_not_D0 in E2.
Qed.

Lemma scan_int_uint d rest :
  int_digits d → no_digit_head rest = true →
  scan_int (NilEmpty.string_of_uint d +:+ rest) = Some (d, rest).
Proof.
  intros [->|Hd] Hr; [done|].
  destruct d as [|d|d|d|d|d|d|d|d|d|d]; try done; simpl; by rewrite span_digits_uint.
Qed.

Lemma scan_frac_stop s : ends_number s = true → scan_frac s = (None, s).
Proof. destruct s as [|c s]; simpl; [done|]. by destruct (is_digit c), (Ascii.eqb c "."). Qed.

Lemma scan_exp_stop s : ends_number s = true → scan_exp s = (None, s).
Proof.
  destruct s as [|c s]; simpl; [done|].
  by destruct (is_digit c), (Ascii.eqb c "."), (Ascii.eqb c "e"), (Ascii.eqb c "E").
Qed.

Lemma string_of_Z_shape z :
  ∃ neg d, int_digits d ∧
    string_of_Z z = (if neg : bool then "-" else "") +:+ NilEmpty.string_of_uint d ∧
    z = Z.of_int (if neg then Decimal.Neg d else Decimal.Pos d).
Proof.
  assert (∀ p, NilZero.string_of_uint (Pos.to_uint p) = NilEmpty.string_of_uint (Pos.to_uint p))
    as Hs.
  { intros p. unfold NilZero.string_of_uint. destruct (Pos.to_uint p) eqn:E; try done.
    by destruct (Unsigned.to_uint_nonnil p). }
  unfold string_of_Z. pose proof (DecimalZ.of_to z) as Hz. destruct z as [|p|p]; simpl in *.
  - exists false, (Decimal.D0 Decimal.Nil). split; [by left|]. done.
  - exists false, (Pos.to_uint p). split; [apply pos_to_uint_digits|]. by rewrite Hs.
  - exists true, (Pos.to_uint p). split; [apply pos_to_uint_digits|]. by rewrite Hs.
Qed.

Lemma int_digits_head d rest :
  int_digits d →
  ∃ c r, NilEmpty.string_of_uint d +:+ rest = String c r ∧ is_digit c = true.
Proof.
  intros [->|Hd]; [by eexists _, _|].
  destruct d; try done; simpl; by eexists _, _.
Qed.

Lemma is_digit_cases c :
  is_digit c = true → c ∈ ["0"; "1"; "2"; "3"; "4"; "5"; "6"; "7"; "8"; "9"]%char.
Proof.
  destruct c as [[] [] [] [] [] [] [] []]; try discriminate; intros _;
    repeat first [left | right].
Qed.

Lemma scan_number_int z rest :
  ends_number rest = true → scan_number (string_of_Z z +:+ rest) = Some (PInt z, rest).
Proof.
  intros Hr. destruct (string_of_Z_shape z) as (neg & d & Hd & -> & ->).
  pose proof (ends_number_no_digit _ Hr) as Hn.
  unfold scan_number, scan_unsigned. destruct neg.
  - rewrite string_app_assoc, strip_prefix_app, (scan_int_uint _ _ Hd Hn).
    by rewrite scan_frac_stop, scan_exp_stop.
  - assert (strip_prefix "-" (NilEmpty.string_of_uint d +:+ rest) = None) as Hp.
    { destruct (int_digits_head d rest Hd) as (c & r & -> & Hc%is_digit_cases).
      repeat (apply elem_of_cons in Hc as [->|Hc]; [done|]). by apply not_elem_of_nil in Hc. }
    rewrite string_app_nil_l, Hp, (scan_int_uint _ _ Hd Hn).
    by rewrite scan_frac_stop, scan_exp_stop.
Qed.

(** ** Floats: a number's text is scanned the same way in front of anything
    that cannot continue it *)

Lemma span_digits_app s d r rest :
  no_digit_head rest = true → span_digits s = (d, r) →
  span_digits (s +:+ rest) = (d, r +:+ rest).
Proof.
  intros Hr. revert d r. induction s as [|c s IH]; intros d r; simpl.
  - intros [= <- <-]. by apply span_digits_stop.
  - destruct (span_digits s) as [d' r'] eqn:E. rewrite (IH _ _ eq_refl).
    destruct (digit_cons c d'); by intros [= <- <-].
Qed.

Lemma scan_int_app s d r rest :
  no_digit_head rest = true → scan_int s = Some (d, r) →
  scan_int (s +:+ rest) = Some (d, r +:+ rest).
Proof.
  intros Hr. destruct s as [|c s]; [done|]. unfold scan_int.
  destruct (span_digits (String c s)) as [d' r'] eqn:E.
  apply (span_digits_app _ _ _ rest Hr) in E.
  change (String c s +:+ rest) with (String c (s +:+ rest)) in *. rewrite E.
  destruct (Ascii.eqb c "0"); [by intros [= <- <-]|]. destruct d'; naive_solver.
Qed.

Lemma scan_frac_app s f r rest :
  ends_number rest = true → scan_frac s = (f, r) → scan_frac (s +:+ rest) = (f, r +:+ rest).
Proof.
  intros Hr. pose proof (ends_number_no_digit _ Hr) as Hn.
  destruct s as [|c s]; simpl; [intros [= <- <-]; by apply scan_frac_stop|].
  destruct (Ascii.eqb c "."); [|by intros [= <- <-]].
  destruct (span_digits s) as [d' r'] eqn:E. rewrite (span_digits_app _ _ _ rest Hn E).
  destruct d'; by intros [= <- <-].
Qed.

Lemma scan_exp_digits_app s n u e r rest :
  no_digit_head rest = true → scan_exp_digits s n u = (e, r) →
  scan_exp_digits (s +:+ rest) n (u +:+ rest) = (e, r +:+ rest).
Proof.
  intros Hn. unfold scan_exp_digits. destruct (span_digits u) as [d' r'] eqn:E.
  rewrite (span_digits_app _ _ _ rest Hn E). destruct d'; by intros [= <- <-].
Qed.

Lemma ends_number_exp_head c rest :
  ends_number rest = true → Ascii.eqb c "e" || Ascii.eqb c "E" = true →
  scan_exp (String c rest) = (None, String c rest).
Proof.
  intros Hr Hc. pose proof (ends_number_no_digit _ Hr) as Hn. simpl. rewrite Hc.
  destruct rest as [|g t]; [done|].
  assert (Ascii.eqb g "-" = false ∧ Ascii.eqb g "+" = false) as [-> ->].
  { simpl in Hr. destruct (Ascii.eqb g "-"), (Ascii.eqb g "+"); auto;
      by rewrite ?orb_true_r in Hr. }
  unfold scan_exp_digits. by rewrite span_digits_stop.
Qed.

Lemma scan_exp_app s e r rest :
  ends_number rest = true → scan_exp s = (e, r) → scan_exp (s +:+ rest) = (e, r +:+ rest).
Proof.
  intros Hr. pose proof (ends_number_no_digit _ Hr) as Hn.
  destruct s as [|c s]; [intros [= <- <-]; by apply scan_exp_stop|].
  destruct (Ascii.eqb c "e" || Ascii.eqb c "E") eqn:Hc;
    [|simpl; rewrite Hc; by intros [= <- <-]].
  destruct s as [|g t].
  - simpl. rewrite Hc. intros [= <- <-].
    pose proof (ends_number_exp_head _ _ Hr Hc) as H. simpl in H. by rewrite Hc in H.
  - simpl. rewrite Hc. intros H.
    destruct (Ascii.eqb g "-"); [by apply (scan_exp_digits_app (String c (String g t)))|].
    destruct (Ascii.eqb g "+"); [by apply (scan_exp_digits_app (String c (String g t)))|].
    by apply (scan_exp_digits_app (String c (String g t)) _ (String g t)).
Qed.

Lemma scan_unsigned_app n u v r rest :
  ends_number rest = true → scan_unsigned n u = Some (v, r) →
  scan_unsigned n (u +:+ rest) = Some (v, r +:+ rest).
Proof.
  intros Hr. pose proof (ends_number_no_digit _ Hr) as Hn. unfold scan_unsigned.
  destruct (scan_int u) as [[d s2]|] eqn:Ei; [|done].
  rewrite (scan_int_app _ _ _ rest Hn Ei).
  destruct (scan_frac s2) as [f s3] eqn:Ef. rewrite (scan_frac_app _ _ _ rest Hr Ef).
  destruct (scan_exp s3) as [e s4] eqn:Ee. rewrite (scan_exp_app _ _ _ rest Hr Ee).
  destruct f, e; by intros [= <- <-].
Qed.

Lemma strip_minus_app s rest :
  s ≠ "" → strip_prefix "-" (s +:+ rest) =
  match strip_prefix "-" s with Some t => Some (t +:+ rest) | None => None end.
Proof. destruct s as [|c s]; [done|]. simpl. by destruct c as [[] [] [] [] [] [] [] []]. Qed.

Lemma scan_number_app s v r rest :
  ends_number rest = true → scan_number s = Some (v, r) →
  scan_number (s +:+ rest) = Some (v, r +:+ rest).
Proof.
  intros Hr. destruct (decide (s = "")) as [->|Hne]; [done|].
  unfold scan_number. rewrite strip_minus_app by done.
  destruct (strip_prefix "-" s) as [t|]; by apply scan_unsigned_app.
Qed.

(** A number starts with a digit, after an optional minus sign. *)
Lemma scan_unsigned_head n s x :
  scan_unsigned n s = Some x → ∃ c r, s = String c r ∧ is_digit c = true.
Proof.
  unfold scan_unsigned, scan_int. destruct s as [|c s]; [done|]. intros H. exists c, s.
  split; [done|]. destruct (Ascii.eqb_spec c "0") as [->|]; [done|]. simpl in H.
  destruct (span_digits s) as [d r]. unfold digit_cons in H. unfold is_digit.
  by destruct (_ && _)%N.
Qed.

Lemma scan_literal_digit c r :
  is_digit c = true → scan_literal json_literals (String c r) = None.
Proof.
  intros Hc%is_digit_cases.
  repeat (apply elem_of_cons in Hc as [->|Hc]; [done|]). by apply not_elem_of_nil in Hc.
Qed.

Lemma scan_literal_minus_digit c r :
  is_digit c = true → scan_literal json_literals (String "-" (String c r)) = None.
Proof.
  intros Hc%is_digit_cases.
  repeat (apply elem_of_cons in Hc as [->|Hc]; [done|]). by apply not_elem_of_nil in Hc.
Qed.

(** A character that starts a value: not white space, not a closing bracket. *)
Definition value_head (c : ascii) : bool := negb (is_ws c) && negb (Ascii.eqb c "]").

Lemma value_head_ws c : value_head c = true → is_ws c = false.
Proof. unfold value_head. by destruct (is_ws c). Qed.

Lemma value_head_bracket c r : value_head c = true → strip_prefix "]" (String c r) = None.
Proof.
  unfold value_head. intros H. cbn [strip_prefix]. rewrite Ascii.eqb_sym.
  by destruct (Ascii.eqb c "]"); [rewrite andb_false_r in H|].
Qed.

Lemma scan_number_head s x :
  scan_number s = Some x →
  ∃ c r, s = String c r ∧ value_head c = true ∧
    ∀ fuel rest, scan_value (S fuel) (s +:+ rest) = scan_number (s +:+ rest).
Proof.
  unfold scan_number at 1. destruct (strip_prefix "-" s) as [t|] eqn:Es.
  - intros (c & r & -> & Hc)%scan_unsigned_head. destruct s as [|a s]; [done|].
    assert (a = "-"%char ∧ s = String c r) as [-> ->].
    { cbn [strip_prefix] in Es. destruct (Ascii.eqb_spec "-" a) as [<-|]; [|done].
      by injection Es. }
    eexists _, _. do 2 (split; [done|]). intros fuel rest.
    cbn [scan_value String.append]. by rewrite scan_literal_minus_digit.
  - intros (c & r & -> & Hc)%scan_unsigned_head. eexists _, _. split; [done|].
    pose proof Hc as Hd%is_digit_cases. split.
    { repeat (apply elem_of_cons in Hd as [->|Hd]; [done|]). by apply not_elem_of_nil in Hd. }
    intros fuel rest. cbn [scan_value String.append]. rewrite scan_literal_digit by done.
    repeat (apply elem_of_cons in Hd as [->|Hd]; [done|]). by apply not_elem_of_nil in Hd.
Qed.

(** ** The round trip *)

(** A separator: its character, then only white space. *)
Definition sep_ok (c : ascii) (sep : string) : Prop :=
  ∃ w, sep = String c w ∧ ∀ t, skip_ws (w +:+ t) = skip_ws t.

Class StyleOk (st : json_style) : Prop := {
  item_sep_ok : sep_ok "," (item_sep st);
  key_sep_ok : sep_ok ":" (key_sep st)
}.

Lemma sep_ok_app c sep t :
  sep_ok c sep → skip_ws t = t → ∃ t', sep +:+ t = String c t' ∧ skip_ws t' = t.
Proof.
  intros (w & -> & Hw) Ht. exists (w +:+ t). split; [done|]. by rewrite Hw.
Qed.

#[export] Instance canonical_style_ok : StyleOk canonical_style.
Proof. by repeat econstructor. Qed.
#[export] Instance compact_style_ok : StyleOk compact_style.
Proof. by repeat econstructor. Qed.
#[export] Instance default_style_ok : StyleOk default_style.
Proof. by repeat econstructor. Qed.

Section Roundtrip.
Context (st : json_style) `{!StyleOk st}.

Definition member_text (kv : string * pyval) : string :=
  json_item st (kv.1, json_text st kv.2).

Lemma json_text_dict kvs :
  json_text st (PDict kvs) =
  "{" +:+ join (item_sep st) (map member_text (sort_by fst kvs)) +:+ "}".
Proof.
  simpl. rewrite (sort_by_map fst fst (λ kv : string * pyval, (kv.1, json_text st kv.2)))
    by done. by rewrite List.map_map.
Qed.

Lemma norm_dict kvs :
  norm (PDict kvs) = PDict (map (λ kv, (kv.1, norm kv.2)) (sort_by fst kvs)).
Proof. simpl. by rewrite (sort_by_map fst fst (λ kv : string * pyval, (kv.1, norm kv.2))). Qed.

Lemma skip_ws_nonws c r : is_ws c = false → skip_ws (String c r) = String c r.
Proof. simpl. by intros ->. Qed.

(** A safe value's text starts with something that is not white space. *)
Lemma json_text_head v :
  json_safe st v = true → ∃ c r, json_text st v = String c r ∧ value_head c = true.
Proof.
  assert (∀ c r, value_head c = true → ∃ c' r', String c r = String c' r' ∧ value_head c' = true)
    as Hc by eauto.
  destruct v as [|b|z|f|s|l|kvs|r]; intros H; try done; try (by apply Hc).
  - destruct b; by apply Hc.
  - destruct (scan_number_head (string_of_Z z) (PInt z, "")) as (c & r & E & Hws & _).
    { rewrite <-(string_app_nil_r (string_of_Z z)). by apply scan_number_int. }
    cbn [json_text]. rewrite E. by apply Hc.
  - cbn [json_safe] in H. unfold float_roundtrips in H.
    destruct (scan_number (json_float_repr f)) eqn:E; [|done].
    destruct (scan_number_head _ _ E) as (c & r & E2 & Hws & _).
    cbn [json_text]. rewrite E2. by apply Hc.
Qed.

Lemma skip_ws_text v rest :
  json_safe st v = true → skip_ws (json_text st v +:+ rest) = json_text st v +:+ rest.
Proof.
  intros (c & r & -> & Hc)%json_text_head. by apply skip_ws_nonws, value_head_ws.
Qed.

Lemma json_text_pos v : json_safe st v = true → (0 < String.length (json_text st v))%nat.
Proof. intros (c & r & -> & _)%json_text_head. simpl. lia. Qed.

(** What the round trip says of one value. *)
Definition reads_back (v : pyval) : Prop :=
  json_safe st v = true → wf v = true →
  ∀ fuel rest, (String.length (json_text st v) < fuel)%nat → ends_number rest = true →
    scan_value fuel (json_text st v +:+ rest) = Some (norm v, rest).

Lemma join_cons2 sep x y (l : list string) : join sep (x :: y :: l) = x +:+ sep +:+ join sep (y :: l).
Proof. done. Qed.

Lemma join_one sep x : join sep [x] = x.
Proof. done. Qed.

Lemma item_sep_ends_number rest : ends_number (item_sep st +:+ rest) = true.
Proof. destruct item_sep_ok as (w & -> & _). done. Qed.

Lemma item_sep_pos : (0 < String.length (item_sep st))%nat.
Proof. destruct item_sep_ok as (w & -> & _). simpl. lia. Qed.

Lemma scan_elements_text l : ∀ fuel acc rest,
  l ≠ [] → Forall reads_back l → forallb (json_safe st) l = true → forallb wf l = true →
  (S (String.length (join (item_sep st) (map (json_text st) l))) < fuel)%nat →
  scan_elements fuel acc (join (item_sep st) (map (json_text st) l) +:+ "]" +:+ rest) =
  Some (PList (acc ++ map norm l), rest).
Proof.
  induction l as [|v l IH]; intros fuel acc rest Hne Hall Hs Hw Hf; [done|].
  apply Forall_cons in Hall as [Hv Hall].
  apply andb_true_iff in Hs as [Hsv Hs], Hw as [Hwv Hw].
  destruct fuel as [|fuel]; [lia|]. destruct l as [|v2 l].
  - cbn [map] in *. rewrite join_one in *. cbn [scan_elements].
    rewrite (Hv Hsv Hwv fuel ("]" +:+ rest)) by (done || lia). done.
  - cbn [map] in *. rewrite join_cons2 in *. rewrite !string_app_length in Hf.
    cbn [scan_elements]. rewrite !string_app_assoc.
    pose proof (json_text_pos v Hsv).
    rewrite (Hv Hsv Hwv fuel) by (apply item_sep_ends_number || lia).
    assert (json_safe st v2 = true) as Hsv2 by (by apply andb_true_iff in Hs as [? ?]).
    destruct (sep_ok_app _ _ (join (item_sep st) (json_text st v2 :: map (json_text st) l)
                              +:+ "]" +:+ rest) item_sep_ok) as (t' & -> & Ht').
    { destruct l as [|v3 l]; cbn [map].
      - rewrite join_one. by apply skip_ws_text.
      - rewrite join_cons2, string_app_assoc. by apply skip_ws_text. }
    rewrite skip_ws_nonws, Ht' by done.
    replace (Ascii.eqb "," "]") with false by done. rewrite Ascii.eqb_refl.
    specialize (IH fuel (acc ++ [norm v]) rest). cbn [map] in IH.
    rewrite IH; [|done..|pose proof item_sep_pos; lia]. by rewrite <-app_assoc.
Qed.

Lemma assoc_set_absent {A} k (v : A) d : assoc_get k d = None → assoc_set k v d = d ++ [(k, v)].
Proof.
  induction d as [|[k' v'] d IH]; simpl; [done|]. destruct (String.eqb k k'); [done|].
  intros H. by rewrite IH.
Qed.

Definition member_ok (kv : string * pyval) : Prop :=
  str_safe st kv.1 = true ∧ json_safe st kv.2 = true ∧ wf kv.2 = true ∧ reads_back kv.2.

Lemma skip_ws_item kv rest :
  skip_ws (member_text kv +:+ rest) = member_text kv +:+ rest.
Proof. done. Qed.

(** One member, up to what follows it. *)
Lemma scan_member kv fuel acc rest :
  member_ok kv → (String.length (member_text kv) < fuel)%nat → ends_number rest = true →
  scan_members (S fuel) acc (member_text kv +:+ rest) =
  match skip_ws rest with
  | String c r' =>
      if Ascii.eqb c "}" then Some (PDict (assoc_set kv.1 (norm kv.2) acc), r')
      else if Ascii.eqb c "," then
        scan_members fuel (assoc_set kv.1 (norm kv.2) acc) (skip_ws r')
      else None
  | EmptyString => None
  end.
Proof.
  destruct kv as [k v]. intros (Hk & Hs & Hw & Hr). cbn [fst snd] in *.
  unfold member_text, json_item. cbn [fst snd].
  rewrite !string_app_assoc, !string_app_length. intros Hf Hrest.
  destruct (scan_string_quote st k (key_sep st +:+ json_text st v +:+ rest) Hk)
    as (body & -> & Hb).
  cbn [scan_members]. rewrite strip_prefix_app, Hb.
  destruct (sep_ok_app _ _ (json_text st v +:+ rest) key_sep_ok) as (t' & -> & Ht').
  { by apply skip_ws_text. }
  rewrite skip_ws_nonws by done. change (String ":" t') with (":" +:+ t').
  rewrite strip_prefix_app, Ht'. rewrite Hr; [done|done|done|lia|done].
Qed.

Lemma scan_members_text l : ∀ fuel acc rest,
  l ≠ [] → Forall member_ok l → List.NoDup (map fst (acc ++ l)) →
  (S (String.length (join (item_sep st) (map member_text l))) < fuel)%nat →
  scan_members fuel acc (join (item_sep st) (map member_text l) +:+ "}" +:+ rest) =
  Some (PDict (acc ++ map (λ kv, (kv.1, norm kv.2)) l), rest).
Proof.
  induction l as [|kv l IH]; intros fuel acc rest Hne Hall Hnd Hf; [done|].
  apply Forall_cons in Hall as [Hkv Hall].
  assert (assoc_set kv.1 (norm kv.2) acc = acc ++ [(kv.1, norm kv.2)]) as Hset.
  { apply assoc_set_absent, assoc_get_None. rewrite map_app in Hnd.
    apply List.NoDup_remove_2 in Hnd. rewrite in_app_iff in Hnd. tauto. }
  destruct fuel as [|fuel]; [lia|]. destruct l as [|kv2 l].
  - cbn [map] in *. rewrite join_one in *. rewrite scan_member by (done || lia).
    simpl. by rewrite Hset.
  - cbn [map] in *. rewrite join_cons2 in *. rewrite !string_app_length in Hf.
    rewrite !string_app_assoc, scan_member by (done || apply item_sep_ends_number || lia).
    destruct (sep_ok_app _ _ (join (item_sep st) (member_text kv2 :: map member_text l)
                              +:+ "}" +:+ rest) item_sep_ok) as (t' & -> & Ht').
    { destruct l as [|kv3 l]; cbn [map]; [by rewrite join_one|].
      by rewrite join_cons2, string_app_assoc. }
    rewrite skip_ws_nonws, Ht' by done.
    replace (Ascii.eqb "," "}") with false by done. rewrite Ascii.eqb_refl, Hset.
    specialize (IH fuel (acc ++ [(kv.1, norm kv.2)]) rest). cbn [map] in IH.
    rewrite IH; [|done|done| |pose proof item_sep_pos; lia].
    + by rewrite <-app_assoc.
    + rewrite <-app_assoc. rewrite map_app in *. done.
Qed.
End Roundtrip.

Lemma scan_value_text st `{!StyleOk st} v : reads_back st v.
Proof.
  induction v as [|b|z|f|s|l IH|kvs IH|r] using pyval_ind_nested;
    intros Hs Hw fuel rest Hf Hr; (destruct fuel as [|fuel]; [lia|]); try done.
  - by destruct b.
  - pose proof (scan_number_int z rest Hr) as Hn.
    destruct (scan_number_head (string_of_Z z) (PInt z, "")) as (c & r & E & _ & Hv).
    { rewrite <-(string_app_nil_r (string_of_Z z)). by apply scan_number_int. }
    cbn [json_text]. by rewrite Hv, Hn.
  - cbn [json_safe] in Hs. unfold float_roundtrips in Hs.
    destruct (scan_number (json_float_repr f)) as [[g t]|] eqn:E; [|done].
    destruct (scan_number_head _ _ E) as (c & r & E2 & _ & Hv).
    cbn [json_text norm]. rewrite Hv, (scan_number_app _ _ _ _ Hr E).
    destruct g; try done. destruct t; [|done]. by destruct (decide _) as [->|].
  - cbn [json_text norm]. destruct (scan_string_quote st s rest Hs) as (body & -> & Hb).
    change (dquote +:+ body) with (String (ascii_of_N 34) body).
    cbn -[scan_string]. by rewrite Hb.
  - cbn [json_text norm] in *. rewrite !string_app_length in Hf. cbn [String.length] in Hf.
    rewrite !string_app_assoc. destruct l as [|v l]; [done|].
    pose proof (scan_elements_text st (v :: l) fuel [] rest ltac:(done) IH Hs Hw ltac:(lia)) as H.
    apply andb_true_iff in Hs as [Hsv _].
    destruct (json_text_head st v Hsv) as (c & r & Hhd & Hc).
    assert (∃ r', join (item_sep st) (map (json_text st) (v :: l)) +:+ "]" +:+ rest = String c r')
      as [r' Hr'].
    { destruct l as [|v2 l]; cbn [map]; rewrite ?join_one, ?join_cons2, ?Hhd;
        cbn [String.append]; eauto. }
    rewrite Hr' in *. cbn -[scan_elements skip_ws strip_prefix map].
    rewrite skip_ws_nonws by (by apply value_head_ws). by rewrite value_head_bracket.
  - rewrite json_text_dict, norm_dict in *. rewrite !string_app_length in Hf.
    cbn [String.length] in Hf. rewrite !string_app_assoc.
    cbn [json_safe wf] in Hs, Hw. apply andb_true_iff in Hw as [Hnd Hw].
    assert (Forall (member_ok st) (sort_by fst kvs)) as Hall.
    { rewrite sort_by_Permutation. rewrite forallb_forall in Hs, Hw.
      rewrite List.Forall_forall in IH |- *. intros kv Hkv.
      pose proof (Hs kv Hkv) as [Hk Hv]%andb_true_iff. repeat split; auto. }
    assert (List.NoDup (map fst (sort_by fst kvs))) as Hnd'.
    { apply NoDup_ListNoDup. apply str_nodup_spec in Hnd.
      change (NoDup (fst <$> sort_by fst kvs)). by rewrite sort_by_Permutation. }
    destruct (sort_by fst kvs) as [|kv l] eqn:E; [done|].
    pose proof (scan_members_text st (kv :: l) fuel [] rest ltac:(done) Hall Hnd' ltac:(lia)) as H.
    assert (∃ r', join (item_sep st) (map (member_text st) (kv :: l)) +:+ "}" +:+ rest
             = String (ascii_of_N 34) r') as [r' Hr'].
    { destruct l as [|v2 l]; cbn [map]; rewrite ?join_one, ?join_cons2; unfold member_text;
        unfold json_item, json_quote; eexists; by rewrite !string_app_assoc. }
    rewrite Hr' in *.
    cbn -[scan_members skip_ws strip_prefix map ascii_of_N].
    by rewrite skip_ws_nonws.
Qed.

(** [json.loads(json.dumps(v))] is [v] with its dictionaries sorted. *)
Lemma json_loads_dumps st `{!StyleOk st} v t :
  json_safe st v = true → wf v = true → json_dumps st v = Ok t → json_loads t = Ok (norm v).
Proof.
  unfold json_dumps, json_loads. intros Hs Hw. destruct (serializable v); [|done].
  intros [= <-].
  rewrite <-(string_app_nil_r (json_text st v)) at 2. rewrite skip_ws_text by done.
  rewrite (scan_value_text st v Hs Hw) by (done || lia). done.
Qed.

Lemma json_safe_serializable st v : json_safe st v = true → serializable v = true.
Proof.
  induction v as [| | | | |l IH|kvs IH|r] using pyval_ind_nested; simpl; try done.
  - rewrite !forallb_forall. rewrite List.Forall_forall in IH. auto.
  - rewrite !forallb_forall. rewrite List.Forall_forall in IH.
    intros H kv Hkv. apply IH; [done|]. by apply H, andb_true_iff in Hkv as [_ ?].
Qed.

Lemma json_dumps_safe st v : json_safe st v = true → json_dumps st v = Ok (json_text st v).
Proof. intros H. unfold json_dumps. by rewrite (json_safe_serializable st v H). Qed.

Lemma json_dumps_ok st v t : json_dumps st v = Ok t → t = json_text st v.
Proof. unfold json_dumps. destruct (serializable v); naive_solver. Qed.

(** Canonical JSON is injective up to the order of dictionary entries. *)
Lemma json_text_inj st `{!StyleOk st} v w :
  json_safe st v = true → json_safe st w = true → wf v = true → wf w = true →
  json_text st v = json_text st w → norm v = norm w.
Proof.
  intros Hv Hw Hwv Hww Heq.
  pose proof (json_loads_dumps st v _ Hv Hwv (json_dumps_safe st v Hv)) as H1.
  pose proof (json_loads_dumps st w _ Hw Hww (json_dumps_safe st w Hw)) as H2.
  rewrite Heq, H2 in H1. by injection H1.
Qed.

(** ** Canonical text and normal forms *)

Lemma wf_dict kvs :
  wf (PDict kvs) = true ↔ NoDup (fst <$> kvs) ∧ Forall (λ kv, wf kv.2 = true) kvs.
Proof.
  simpl. rewrite andb_true_iff, str_nodup_spec. by rewrite (forallb_Forall _ (λ kv, wf kv.2 = true)).
Qed.

(** The text only depends on the normal form. *)
Lemma json_text_norm st v : json_text st (norm v) = json_text st v.
Proof.
  induction v as [| | | | |l IH|kvs IH|r] using pyval_ind_nested; try done.
  - cbn [norm json_text]. do 3 f_equal. rewrite List.map_map.
    apply map_ext_in. by rewrite List.Forall_forall in IH.
  - rewrite norm_dict, !json_text_dict. do 3 f_equal.
    rewrite (sort_by_map fst fst (λ kv : string * pyval, (kv.1, norm kv.2))) by done.
    rewrite List.map_map, sort_by_idemp. apply map_ext_in. intros kv Hkv.
    unfold member_text. simpl. do 2 f_equal.
    assert (Forall (λ kv, json_text st (norm kv.2) = json_text st kv.2) (sort_by fst kvs)) as H
      by (by rewrite sort_by_Permutation).
    by eapply List.Forall_forall in H.
Qed.

Lemma forallb_sorted_map {A} (f : A → A) (b : A → bool) (d : list (string * A)) :
  forallb (λ kv, b kv.2) (map (λ kv, (kv.1, f kv.2)) (sort_by fst d)) =
  forallb (λ kv, b (f kv.2)) d.
Proof.
  apply eq_true_iff_eq. rewrite !forallb_forall. split.
  - intros H x Hx. apply (H (x.1, f x.2)), in_map_iff. exists x. split; [done|].
    by rewrite <-list_elem_of_In, sort_by_Permutation, list_elem_of_In.
  - intros H y (x & <- & Hx)%in_map_iff. apply H.
    by rewrite <-list_elem_of_In, sort_by_Permutation, list_elem_of_In in Hx.
Qed.

Lemma norm_idemp v : norm (norm v) = norm v.
Proof.
  induction v as [| | | | |l IH|kvs IH|r] using pyval_ind_nested; try done.
  - cbn [norm]. f_equal. rewrite List.map_map. apply map_ext_in. by rewrite List.Forall_forall in IH.
  - rewrite norm_dict at 1. rewrite !norm_dict.
    rewrite (sort_by_map fst fst (λ kv : string * pyval, (kv.1, norm kv.2))) by done.
    rewrite List.map_map, sort_by_idemp. f_equal. apply map_ext_in. intros kv Hkv. simpl. f_equal.
    assert (Forall (λ kv, norm (norm kv.2) = norm kv.2) (sort_by fst kvs)) as H
      by (by rewrite sort_by_Permutation).
    by eapply List.Forall_forall in H.
Qed.

Lemma serializable_norm v : serializable (norm v) = serializable v.
Proof.
  induction v as [| | | | |l IH|kvs IH|r] using pyval_ind_nested; try done.
  - simpl. induction IH as [|x l Hx _ IH]; simpl; [done|]. by rewrite Hx, IH.
  - rewrite norm_dict. simpl. rewrite forallb_sorted_map. induction IH as [|x l Hx _ IH]; simpl; [done|].
    by rewrite Hx, IH.
Qed.

(** Two orders of the same dictionary have the same normal form. *)
Lemma norm_perm d e : NoDup (fst <$> d) → d ≡ₚ e → norm (PDict d) = norm (PDict e).
Proof.
  intros Hnd Hp. rewrite !norm_dict. do 2 f_equal. by apply sort_by_unique.
Qed.

(** Equal normal forms have equal normal entries. *)
Lemma norm_dict_get k d e :
  NoDup (fst <$> d) → NoDup (fst <$> e) → norm (PDict d) = norm (PDict e) →
  norm <$> assoc_get k d = norm <$> assoc_get k e.
Proof.
  intros Hd He. rewrite !norm_dict. intros [= H].
  apply (f_equal (assoc_get k)) in H. rewrite !(assoc_get_map_values norm) in H.
  by rewrite !assoc_get_sort_by in H.
Qed.

Lemma truthy_norm v : truthy (norm v) = truthy v.
Proof.
  destruct v as [| | | | |l|kvs|r]; try done; [by destruct l|]. rewrite norm_dict. simpl.
  pose proof (sort_by_length fst kvs) as Hl. by destruct (sort_by fst kvs), kvs.
Qed.

(** The entries of the normal form, and how they are read. *)
Definition norm_entries (d : pydict) : pydict := sort_by fst (map (λ kv, (kv.1, norm kv.2)) d).

Lemma norm_PDict d : norm (PDict d) = PDict (norm_entries d).
Proof. done. Qed.

Lemma norm_entries_map d : norm_entries d = map (λ kv, (kv.1, norm kv.2)) (sort_by fst d).
Proof. unfold norm_entries. by apply sort_by_map. Qed.

Lemma assoc_get_norm_entries k d :
  NoDup (fst <$> d) → assoc_get k (norm_entries d) = norm <$> assoc_get k d.
Proof. intros Hd. rewrite norm_entries_map, (assoc_get_map_values norm), assoc_get_sort_by; done. Qed.

Lemma keys_subset_norm_entries d ks : keys_subset (norm_entries d) ks = keys_subset d ks.
Proof.
  apply eq_true_iff_eq. unfold keys_subset, norm_entries. rewrite !forallb_forall.
  setoid_rewrite <-list_elem_of_In. setoid_rewrite sort_by_Permutation. split.
  - intros H [k v] Hin. apply (H (k, norm v)). apply list_elem_of_In, in_map_iff.
    exists (k, v). split; [done|]. by apply list_elem_of_In.
  - intros H x Hin. apply list_elem_of_In, in_map_iff in Hin as ([k v] & <- & Hin).
    apply list_elem_of_In in Hin. by apply (H (k, v)).
Qed.

Lemma keys_superset_norm_entries d ks :
  NoDup (fst <$> d) → keys_superset (norm_entries d) ks = keys_superset d ks.
Proof.
  intros Hd. unfold keys_superset. induction ks as [|k ks IH]; simpl; [done|]. rewrite IH. f_equal.
  unfold assoc_has. rewrite assoc_get_norm_entries by done. by destruct (assoc_get k d).
Qed.

(** A scalar is its own normal form and nothing else has it. *)
Lemma norm_scalar v w : norm v = norm w → v = w ∨ (is_list v = true ∧ is_list w = true) ∨
  (is_dict v = true ∧ is_dict w = true).
Proof. destruct v, w; rewrite ?norm_dict; simpl; naive_solver. Qed.

Lemma assoc_remove_norm k (d : pydict) :
  assoc_remove k (norm_entries d) ≡ₚ map (λ kv, (kv.1, norm kv.2)) (assoc_remove k d).
Proof.
  unfold norm_entries. rewrite (assoc_remove_Permutation _ _ _ (sort_by_Permutation _ _)).
  unfold assoc_remove. induction d as [|[k' v] d IH]; [done|]. simpl. case_match; simpl; by rewrite IH.
Qed.

(** Dictionaries that agree still agree without an entry. *)
Lemma norm_remove k d d' :
  NoDup (fst <$> d) → NoDup (fst <$> d') → norm (PDict d) = norm (PDict d') →
  norm (PDict (assoc_remove k d)) = norm (PDict (assoc_remove k d')).
Proof.
  intros Hd Hd' Hn. rewrite !norm_PDict in Hn. injection Hn as Hn.
  change (PDict (sort_by fst (map (λ kv, (kv.1, norm kv.2)) (assoc_remove k d))) =
          PDict (sort_by fst (map (λ kv, (kv.1, norm kv.2)) (assoc_remove k d')))).
  f_equal. apply sort_by_unique.
  - rewrite <-list_fmap_compose. by apply assoc_remove_NoDup.
  - by rewrite <-!assoc_remove_norm, Hn.
Qed.

(** What canonical bytes determine: exactly the normal form. *)
Lemma json_text_eq_norm st `{!StyleOk st} v w :
  json_safe st v = true → json_safe st w = true → wf v = true → wf w = true →
  json_text st v = json_text st w ↔ norm v = norm w.
Proof.
  intros Hv Hw Hwv Hww. split; [by apply json_text_inj|].
  intros H. by rewrite <-(json_text_norm st v), <-(json_text_norm st w), H.
Qed.

Lemma canonical_json_ok v t : canonical_json v = Ok t → serializable v = true ∧ t = json_text canonical_style v.
Proof. unfold canonical_json, json_dumps. destruct (serializable v); naive_solver. Qed.

#[export] Hint Resolve canonical_style_ok compact_style_ok default_style_ok : gas.
