(* ===== verification/Sha256.v ===== *)
(** [hashlib.sha256(data).hexdigest()]: SHA-256 (FIPS 180-4) on byte strings,
    as an executable function.  Its theorems are the shape of a digest (64
    lower-case hexadecimal characters); that it tells texts apart is only ever
    a hypothesis about given texts ([Models.collision_free]). *)

From S2P Require Import Prelude PyVal.

Local Open Scope N_scope.

(** [x mod 2 ** 32] *)
Definition w32 (x : N) : N := N.land x 4294967295.
Definition rotr (n x : N) : N := N.lor (N.shiftr x n) (N.shiftl (N.land x (N.ones n)) (32 - n)).
Definition xor3 (a b c : N) : N := N.lxor a (N.lxor b c).
Definition big_sigma0 x := xor3 (rotr 2 x) (rotr 13 x) (rotr 22 x).
Definition big_sigma1 x := xor3 (rotr 6 x) (rotr 11 x) (rotr 25 x).
Definition small_sigma0 x := xor3 (rotr 7 x) (rotr 18 x) (N.shiftr x 3).
Definition small_sigma1 x := xor3 (rotr 17 x) (rotr 19 x) (N.shiftr x 10).
Definition ch x y z := N.lxor (N.land x y) (N.land (N.lxor x 4294967295) z).
Definition maj x y z := xor3 (N.land x y) (N.land x z) (N.land y z).

(** ** The constants, from their definition

    The round constants are the first 32 bits of the fractional parts of the
    cube roots of the first 64 primes, the initial state those of the square
    roots of the first 8. *)

Definition is_prime (n : N) : bool :=
  (2 <=? n) && forallb (fun d => negb (n mod N.of_nat d =? 0)) (seq 2 (N.to_nat n - 2)).

Definition primes64 : list N :=
  Eval vm_compute in filter (fun n => is_prime n = true) (map N.of_nat (seq 0 312)).

(** The largest [r] below [2 ^ bits] with [f r <= n], for an increasing [f]. *)
Fixpoint root_bits (f : N -> N) (n : N) (bits : nat) (r : N) : N :=
  match bits with
  | O => r
  | S b =>
      let r' := r + 2 ^ N.of_nat b in
      root_bits f n b (if f r' <=? n then r' else r)
  end.

(** [floor(p ** (1/k) * 2 ** 32) mod 2 ** 32] *)
Definition root_fraction (k p : N) : N := w32 (root_bits (fun r => r ^ k) (p * 2 ^ (32 * k)) 37 0).

Definition sha_k : list N := Eval vm_compute in map (root_fraction 3) primes64.

Record sha_state := Sha { ha : N; hb : N; hc : N; hd : N; he : N; hf : N; hg : N; hh : N }.

Definition sha_init : sha_state :=
  Eval vm_compute in
  match map (root_fraction 2) (take 8 primes64) with
  | [a; b; c; d; e; f; g; h] => Sha a b c d e f g h
  | _ => Sha 0 0 0 0 0 0 0 0
  end.

Definition sha_round (s : sha_state) (k w : N) : sha_state :=
  let '(Sha a b c d e f g h) := s in
  let t1 := h + big_sigma1 e + ch e f g + k + w in
  let t2 := big_sigma0 a + maj a b c in
  Sha (w32 (t1 + t2)) a b c (w32 (d + t1)) e f g.

(** The message schedule as a sliding window of the last 16 words. *)
Fixpoint sha_rounds (ks : list N) (win : list N) (s : sha_state) : sha_state :=
  match ks with
  | [] => s
  | k :: ks =>
      match win with
      | w0 :: rest =>
          let new := w32 (small_sigma1 (nth 13 rest 0) + nth 8 rest 0 +
                          small_sigma0 (nth 0 rest 0) + w0) in
          sha_rounds ks (rest ++ [new]) (sha_round s k w0)
      | [] => s
      end
  end.

Definition sha_block (s : sha_state) (words : list N) : sha_state :=
  let '(Sha a b c d e f g h) := s in
  let '(Sha a' b' c' d' e' f' g' h') := sha_rounds sha_k words s in
  Sha (w32 (a + a')) (w32 (b + b')) (w32 (c + c')) (w32 (d + d'))
      (w32 (e + e')) (w32 (f + f')) (w32 (g + g')) (w32 (h + h')).

(** Big-endian 32-bit words of a byte list. *)
Fixpoint words_of (bs : list N) : list N :=
  match bs with
  | a :: b :: c :: d :: bs => (a * 16777216 + b * 65536 + c * 256 + d) :: words_of bs
  | _ => []
  end.

(** The eight bytes of the message length in bits. *)
Definition length_bytes (n : N) : list N :=
  map (fun i => N.shiftr n (8 * i) mod 256) [7; 6; 5; 4; 3; 2; 1; 0].

Definition sha_pad (bs : list N) : list N :=
  let len := length bs in
  let zeros := ((119 - len mod 64) mod 64)%nat in
  bs ++ [128] ++ repeat 0 zeros ++ length_bytes (8 * N.of_nat len).

Fixpoint sha_blocks (n : nat) (words : list N) (s : sha_state) : sha_state :=
  match n with
  | O => s
  | S n => sha_blocks n (drop 16 words) (sha_block s (take 16 words))
  end.

Definition bytes_of (s : string) : list N := map N_of_ascii (String.list_ascii_of_string s).

Definition sha256_words (s : string) : list N :=
  let padded := sha_pad (bytes_of s) in
  let '(Sha a b c d e f g h) :=
    sha_blocks (length padded / 64) (words_of padded) sha_init in
  [a; b; c; d; e; f; g; h].

(** Eight hexadecimal digits. *)
Definition hex_word (w : N) : string :=
  String.string_of_list_ascii
    (map (fun i => hex_digit (N.shiftr w (4 * i) mod 16)) [7; 6; 5; 4; 3; 2; 1; 0]).

(** [hashlib.sha256(data).hexdigest()] *)
Definition sha256_hex (s : string) : string :=
  fold_right (fun w acc => hex_word w +:+ acc) "" (sha256_words s).

(** [hashlib.sha256(data).digest()] *)
Definition sha256_bytes (s : string) : string :=
  String.string_of_list_ascii
    (flat_map (λ w, map (λ k, ascii_of_N (N.land (N.shiftr w k) 255)) [24; 16; 8; 0]%N) (sha256_words s)).

(** FIPS 180-4 test vectors: the empty message, one block, two blocks. *)
Example sha256_empty :
  sha256_hex "" = "e3b0c44298fc1c149afbf4c8996fb92427ae41e4649b934ca495991b7852b855".
Proof. vm_compute. reflexivity. Qed.

Example sha256_abc :
  sha256_hex "abc" = "ba7816bf8f01cfea414140de5dae2223b00361a396177a9cb410ff61f20015ad".
Proof. vm_compute. reflexivity. Qed.

Example sha256_two_blocks :
  sha256_hex "abcdbcdecdefdefgefghfghighijhijkijkljklmklmnlmnomnopnopq" =
  "248d6a61d20638b8e5c026930c3e6039a33ce45964ff2167f6ecedd419db06c1".
Proof. vm_compute. reflexivity. Qed.

(** ** The shape of a digest *)

Lemma hex_word_length w : String.length (hex_word w) = 8%nat.
Proof. done. Qed.

Lemma string_app_length_N (a b : string) :
  String.length (a +:+ b) = (String.length a + String.length b)%nat.
Proof. induction a as [|x a IH]; simpl; [done|]. by rewrite IH. Qed.

Lemma sha256_hex_length s : String.length (sha256_hex s) = 64%nat.
Proof.
  unfold sha256_hex, sha256_words. destruct (sha_blocks _ _ _) as [a b c d e f g h].
  cbn [fold_right]. by rewrite !string_app_length_N, !hex_word_length.
Qed.

Lemma sha256_hex_nonempty s : sha256_hex s ≠ "".
Proof. intros H. pose proof (sha256_hex_length s) as Hl. by rewrite H in Hl. Qed.

#[export] Hint Resolve sha256_hex_nonempty : gas.
