(* ===== verification/Base64.v ===== *)
(** URL-safe base64 without padding: [b64encode] and [b64decode] of
    canonical.py, over CPython's [binascii] codec.  The decoder is the lenient
    one of [binascii.a2b_base64] in its default, non-strict mode: characters
    outside the alphabet are skipped and a completed padding ends the input.
    The file proves that decoding inverts encoding. *)

From S2P Require Import Prelude PyFloat PyVal.
From Stdlib Require Import ZifyN.

(** ** The alphabet *)

Definition b64_char (n : N) : ascii :=
  if (n <? 26)%N then ascii_of_N (65 + n)
  else if (n <? 52)%N then ascii_of_N (97 + (n - 26))
  else if (n <? 62)%N then ascii_of_N (48 + (n - 52))
  else if (n =? 62)%N then "-"%char else "_"%char.

(** The alphabet of the decoder, after the translation of [-_] to [+/]; the
    characters [+] and [/] themselves are decoded as well. *)
Definition b64_value (c : ascii) : option N :=
  let n := N_of_ascii c in
  if ((65 <=? n) && (n <=? 90))%N then Some (n - 65)%N
  else if ((97 <=? n) && (n <=? 122))%N then Some (n - 97 + 26)%N
  else if ((48 <=? n) && (n <=? 57))%N then Some (n - 48 + 52)%N
  else if (Ascii.eqb c "-" || Ascii.eqb c "+") then Some 62%N
  else if (Ascii.eqb c "_" || Ascii.eqb c "/") then Some 63%N
  else None.

(** ** Encoding *)

(** [base64.urlsafe_b64encode(value).rstrip(b"=").decode("ascii")] *)
Fixpoint b64encode (value : string) : string :=
  match value with
  | EmptyString => ""
  | String a EmptyString =>
      let a := N_of_ascii a in
      String (b64_char (a / 4)) (String (b64_char (a mod 4 * 16)) "")
  | String a (String b EmptyString) =>
      let a := N_of_ascii a in let b := N_of_ascii b in
      String (b64_char (a / 4)) (String (b64_char (a mod 4 * 16 + b / 16))
        (String (b64_char (b mod 16 * 4)) ""))
  | String a (String b (String c rest)) =>
      let a := N_of_ascii a in let b := N_of_ascii b in let c := N_of_ascii c in
      String (b64_char (a / 4)) (String (b64_char (a mod 4 * 16 + b / 16))
        (String (b64_char (b mod 16 * 4 + c / 64)) (String (b64_char (c mod 64))
          (b64encode rest))))
  end.

(** ** Decoding *)

(** The loop of [a2b_base64]: [pos] is the position in the current quadruple,
    [left] the bits not yet written, [pads] the padding seen since the last
    data character. *)
Fixpoint a2b_base64 (pos left pads : N) (s : string) : res string :=
  match s with
  | EmptyString =>
      if (pos =? 0)%N then Ok ""
      else if (pos =? 1)%N then Raise (ValueError "Invalid base64-encoded string")
      else Raise (ValueError "Incorrect padding")
  | String c s =>
      if Ascii.eqb c "=" then
        if (2 <=? pos)%N then
          if (4 <=? pos + (pads + 1))%N then Ok "" else a2b_base64 pos left (pads + 1) s
        else a2b_base64 pos left pads s
      else match b64_value c with
      | None => a2b_base64 pos left pads s
      | Some v =>
          if (pos =? 0)%N then a2b_base64 1 v 0 s
          else if (pos =? 1)%N then
            t ← a2b_base64 2 (v mod 16) 0 s; Ok (String (ascii_of_N (left * 4 + v / 16)) t)
          else if (pos =? 2)%N then
            t ← a2b_base64 3 (v mod 4) 0 s; Ok (String (ascii_of_N (left * 16 + v / 4)) t)
          else
            t ← a2b_base64 0 0 0 s; Ok (String (ascii_of_N (left * 64 + v)) t)
      end
  end.

(** ["=" * (-len(value) % 4)] *)
Definition b64_padding (value : string) : string :=
  match (- Z.of_nat (String.length value)) mod 4 with
  | 1 => "=" | 2 => "==" | 3 => "===" | _ => ""
  end.

Definition is_ascii (s : string) : bool :=
  forallb (λ c, (N_of_ascii c <? 128)%N) (String.list_ascii_of_string s).

(** A character that ASCII lacks makes [encode("ascii")] raise
    [UnicodeEncodeError], a [ValueError]. *)
Definition b64decode (value : string) : res string :=
  if is_ascii value then a2b_base64 0 0 0 (value +:+ b64_padding value)
  else Raise (ValueError "'ascii' codec can't encode characters").

Example b64_rfc4648 :
  map b64encode ["f"; "fo"; "foo"; "foob"; "fooba"; "foobar"] =
    ["Zg"; "Zm8"; "Zm9v"; "Zm9vYg"; "Zm9vYmE"; "Zm9vYmFy"] ∧
  b64decode "Zm9vYg" = Ok "foob" ∧ b64decode "Zm.9v" = Ok "foo" ∧
  b64decode "Zm9vY" = Raise (ValueError "Invalid base64-encoded string").
Proof. vm_compute. repeat split. Qed.

(** ** Decoding inverts encoding *)

Definition sextet_ok (n : N) : bool :=
  let c := b64_char n in
  match b64_value c with Some m => (m =? n)%N | None => false end
  && negb (Ascii.eqb c "=") && (N_of_ascii c <? 128)%N.

Lemma sextets_ok : forallb sextet_ok (map N.of_nat (seq 0 64)) = true.
Proof. vm_compute. reflexivity. Qed.

Lemma b64_char_ok n :
  (n < 64)%N →
  b64_value (b64_char n) = Some n ∧ Ascii.eqb (b64_char n) "=" = false ∧
  (N_of_ascii (b64_char n) <? 128)%N = true.
Proof.
  intros Hn. pose proof sextets_ok as H. rewrite forallb_forall in H.
  assert (sextet_ok n = true) as Hok.
  { apply H. rewrite <-(N2Nat.id n). apply in_map. rewrite in_seq. lia. }
  unfold sextet_ok in Hok. apply andb_true_iff in Hok as [[Hv He]%andb_true_iff Hc].
  destruct (b64_value (b64_char n)) as [m|]; [|done].
  apply N.eqb_eq in Hv as ->. apply negb_true_iff in He. done.
Qed.

Lemma a2b_step pos left pads n s :
  (n < 64)%N →
  a2b_base64 pos left pads (String (b64_char n) s) =
  if (pos =? 0)%N then a2b_base64 1 n 0 s
  else if (pos =? 1)%N then
    t ← a2b_base64 2 (n mod 16) 0 s; Ok (String (ascii_of_N (left * 4 + n / 16)) t)
  else if (pos =? 2)%N then
    t ← a2b_base64 3 (n mod 4) 0 s; Ok (String (ascii_of_N (left * 16 + n / 4)) t)
  else t ← a2b_base64 0 0 0 s; Ok (String (ascii_of_N (left * 64 + n)) t).
Proof.
  intros Hn. destruct (b64_char_ok n Hn) as (Hv & He & _).
  cbn [a2b_base64]. by rewrite He, Hv.
Qed.

Lemma ascii_of_N_eq a n : n = N_of_ascii a → ascii_of_N n = a.
Proof. intros ->. apply ascii_N_embedding. Qed.

Ltac sextet_bound :=
  repeat match goal with
    | a : ascii |- _ =>
        lazymatch goal with
        | H : (N_of_ascii a < 256)%N |- _ => fail
        | _ => pose proof (N_ascii_bounded a)
        end
    end; zify; Z.div_mod_to_equations; lia.
Ltac a2b_steps :=
  repeat (rewrite a2b_step by sextet_bound; cbn [N.eqb Pos.eqb]).

(** [pad] bytes of padding close a group of one or two bytes. *)
Lemma a2b_group1 a :
  a2b_base64 0 0 0 (b64encode (String a "") +:+ "==") = Ok (String a "").
Proof.
  cbn [b64encode String.append]. a2b_steps. cbn.
  unfold mbind, res_bind. do 2 f_equal. apply ascii_of_N_eq. sextet_bound.
Qed.

Lemma a2b_group2 a b :
  a2b_base64 0 0 0 (b64encode (String a (String b "")) +:+ "=") = Ok (String a (String b "")).
Proof.
  cbn [b64encode String.append]. a2b_steps. cbn.
  unfold mbind, res_bind. do 2 f_equal; [|f_equal]; apply ascii_of_N_eq; sextet_bound.
Qed.

Lemma a2b_group3 a b c s t :
  a2b_base64 0 0 0 s = Ok t →
  a2b_base64 0 0 0 (String (b64_char (N_of_ascii a / 4))
    (String (b64_char (N_of_ascii a mod 4 * 16 + N_of_ascii b / 16))
      (String (b64_char (N_of_ascii b mod 16 * 4 + N_of_ascii c / 64))
        (String (b64_char (N_of_ascii c mod 64)) s)))) =
  Ok (String a (String b (String c t))).
Proof.
  intros Hs. a2b_steps. rewrite Hs.
  unfold mbind, res_bind. do 2 f_equal; [|f_equal; [|f_equal]];
    apply ascii_of_N_eq; sextet_bound.
Qed.

(** Strings by groups of three characters. *)
Lemma string_ind3 (P : string → Prop) :
  P "" → (∀ a, P (String a "")) → (∀ a b, P (String a (String b ""))) →
  (∀ a b c s, P s → P (String a (String b (String c s)))) → ∀ s, P s.
Proof.
  intros H0 H1 H2 H3.
  fix IH 1. intros [|a [|b [|c s]]]; [done|done|done|]. apply H3, IH.
Qed.

Lemma b64_padding_step a b c d s :
  b64_padding (String a (String b (String c (String d s)))) = b64_padding s.
Proof.
  unfold b64_padding. cbn [String.length].
  replace (- Z.of_nat (S (S (S (S (String.length s)))))) with
    (- Z.of_nat (String.length s) + (-1) * 4) by lia.
  by rewrite Z.mod_add by done.
Qed.

Lemma b64_char_ascii n : (n < 64)%N → (N_of_ascii (b64_char n) <? 128)%N = true.
Proof. intros Hn. by apply b64_char_ok. Qed.

Lemma b64encode_ascii v : is_ascii (b64encode v) = true.
Proof.
  unfold is_ascii.
  induction v as [|a|a b|a b c v IH] using string_ind3;
    cbn [b64encode String.list_ascii_of_string forallb]; [done| | |];
    rewrite !b64_char_ascii by sextet_bound; done.
Qed.

Lemma a2b_b64encode v :
  a2b_base64 0 0 0 (b64encode v +:+ b64_padding (b64encode v)) = Ok v.
Proof.
  induction v as [|a|a b|a b c v IH] using string_ind3.
  - done.
  - apply a2b_group1.
  - apply a2b_group2.
  - cbn [b64encode]. rewrite b64_padding_step. cbn [String.append].
    by apply a2b_group3.
Qed.

Lemma b64decode_encode v : b64decode (b64encode v) = Ok v.
Proof. unfold b64decode. rewrite b64encode_ascii. apply a2b_b64encode. Qed.

Lemma b64encode_inj v w : b64encode v = b64encode w → v = w.
Proof.
  intros H. pose proof (b64decode_encode v) as Hv.
  rewrite H, b64decode_encode in Hv. congruence.
Qed.

Lemma b64encode_nonempty v : v ≠ "" → b64encode v ≠ "".
Proof. intros Hv H. by apply (b64encode_inj v "") in H. Qed.

#[export] Hint Resolve b64encode_ascii : gas.
#[export] Hint Rewrite b64decode_encode : gas.
