(* ===== verification/Crypto.v ===== *)
(** Ed25519 keys and the signer boundary: crypto.py and signing.py.

    The curve operations belong to the third-party package [cryptography]:
    they are the parameters of the class [Crypto], and what the program relies
    on is the class [CryptoLaws] (a signature made with a private key verifies
    under its public key; a public key survives its raw encoding).  Nothing is
    assumed about forgery.  [toy_crypto] is a concrete instance on which the
    hypotheses hold. *)

From S2P Require Import Prelude PyFloat PyVal Sha256 Base64.

(** ** The package's operations *)

Class Crypto := {
  PublicKey : Type;
  PrivateKey : Type;
  private_public_key : PrivateKey → PublicKey;
  ed25519_sign : PrivateKey → string → string;
  (** [public_key.verify(signature, payload)] does not raise [InvalidSignature] *)
  ed25519_verify : PublicKey → string → string → bool;
  public_bytes_raw : PublicKey → string;
  (** [None] is [ValueError] *)
  from_public_bytes : string → option PublicKey;
  from_private_bytes : string → option PrivateKey
}.

Class CryptoLaws (C : Crypto) : Prop := {
  verify_sign : ∀ sk m, ed25519_verify (private_public_key sk) (ed25519_sign sk m) m = true;
  from_public_bytes_raw : ∀ pk, from_public_bytes (public_bytes_raw pk) = Some pk
}.

(** A concrete instance: keys are their names, a signature is the key and the message. *)
#[export] Instance toy_crypto : Crypto := {|
  PublicKey := string;
  PrivateKey := string;
  private_public_key := λ sk, sk;
  ed25519_sign := λ sk m, sk +:+ ":" +:+ m;
  ed25519_verify := λ pk sig m, String.eqb sig (pk +:+ ":" +:+ m);
  public_bytes_raw := λ pk, pk;
  from_public_bytes := λ b, Some b;
  from_private_bytes := λ b, if String.eqb b "" then None else Some b
|}.

#[export] Instance toy_crypto_laws : CryptoLaws toy_crypto.
Proof. split; [intros; apply String.eqb_refl | done]. Qed.

Section Crypto.
Context `{C : Crypto}.

(** ** crypto.py *)

(** [verify_signature]: a bad encoding is a [ValueError], hence [False]. *)
Definition verify_signature (public_key : PublicKey) (payload signature : string) : bool :=
  match b64decode signature with
  | Ok raw => ed25519_verify public_key raw payload
  | Raise _ => false
  end.

Record KeyPair := { kp_private_key : PrivateKey; kp_key_id : string }.

Definition keypair_from_private_key_b64 (key_id encoded : string) : res KeyPair :=
  fail_if (String.eqb key_id "" || String.eqb encoded "")
    (ValueError "key_id and encoded private key are required") ;;
  match b64decode encoded with
  | Raise _ => Raise (ValueError "encoded private key is invalid")
  | Ok raw =>
      match from_private_bytes raw with
      | None => Raise (ValueError "encoded private key is invalid")
      | Some sk => Ok {| kp_private_key := sk; kp_key_id := key_id |}
      end
  end.

Definition keypair_public_key (k : KeyPair) : PublicKey := private_public_key (kp_private_key k).
Definition keypair_public_key_bytes (k : KeyPair) : string :=
  public_bytes_raw (keypair_public_key k).
Definition keypair_sign (k : KeyPair) (payload : string) : string :=
  b64encode (ed25519_sign (kp_private_key k) payload).

(** ** signing.py: the [Signer] protocol and its implementations *)

Record Signer := {
  signer_key_id : string;
  signer_sign : string → res string;
  signer_public_key_bytes : res string
}.

Definition LocalEd25519Signer (key_id : string) (private_key : PrivateKey) : Signer := {|
  signer_key_id := key_id;
  signer_sign := λ payload, Ok (b64encode (ed25519_sign private_key payload));
  signer_public_key_bytes := Ok (public_bytes_raw (private_public_key private_key))
|}.

Definition keypair_signer (k : KeyPair) : Signer := {|
  signer_key_id := kp_key_id k;
  signer_sign := λ payload, Ok (keypair_sign k payload);
  signer_public_key_bytes := Ok (keypair_public_key_bytes k)
|}.

(** [None] from the callback is a value that is not [bytes]. *)
Definition RemoteSigner (key_id : string) (sign_callback : option (string → res (option string)))
    (public_key : string) : res Signer :=
  match sign_callback with
  | Some callback =>
      fail_if (String.eqb key_id "" || String.eqb public_key "")
        (ValueError "key_id, callback, and public_key are required") ;;
      Ok {|
        signer_key_id := key_id;
        signer_sign := λ payload,
          signature ← callback payload;
          match signature with
          | Some raw => Ok (b64encode raw)
          | None => Raise (TypeError "remote signer must return signature bytes")
          end;
        signer_public_key_bytes := Ok public_key
      |}
  | None => Raise (ValueError "key_id, callback, and public_key are required")
  end.

(** A KMS backend: [.sign(key_id, payload)] and perhaps [.public_key_bytes(key_id)]. *)
Record KMSBackend := {
  kms_sign : option (string → string → res (option string));
  kms_public_key_bytes : option (string → res string)
}.

Definition KMSSigner (key_id : string) (backend : KMSBackend) (public_key : option string)
    : res Signer :=
  fail_if (String.eqb key_id "") (ValueError "key_id is required") ;;
  match kms_sign backend with
  | None => Raise (ValueError "kms_backend must implement .sign(key_id, payload)")
  | Some sign =>
      Ok {|
        signer_key_id := key_id;
        signer_sign := λ payload,
          signature ← sign key_id payload;
          match signature with
          | Some raw => Ok (b64encode raw)
          | None => Raise (TypeError "KMS signer backend must return raw signature bytes")
          end;
        signer_public_key_bytes :=
          match public_key with
          | Some raw => Ok raw
          | None =>
              match kms_public_key_bytes backend with
              | Some get => get key_id
              | None =>
                  Raise (ValueError "KMS backend does not expose a public key for this signing key")
              end
          end
      |}
  end.

(** ** What a client of a signer relies on *)

(** The signatures of [sg] verify under [pk]; the client's theorems are proved
    against this interface. *)
Class SignerFor (sg : Signer) (pk : PublicKey) : Prop := {
  signer_total : ∀ payload, ∃ s, signer_sign sg payload = Ok s;
  signer_verifies : ∀ payload s, signer_sign sg payload = Ok s → verify_signature pk payload s = true
}.

Lemma verify_signature_b64 pk payload raw :
  verify_signature pk payload (b64encode raw) = ed25519_verify pk raw payload.
Proof. unfold verify_signature. by rewrite b64decode_encode. Qed.

#[export] Instance local_signer_for `{!CryptoLaws C} key_id sk :
  SignerFor (LocalEd25519Signer key_id sk) (private_public_key sk).
Proof.
  split; simpl; [eauto|]. intros payload s [= <-].
  rewrite verify_signature_b64. apply verify_sign.
Qed.

#[export] Instance keypair_signer_for `{!CryptoLaws C} k :
  SignerFor (keypair_signer k) (keypair_public_key k).
Proof.
  split; simpl; [eauto|]. intros payload s [= <-].
  unfold keypair_sign. rewrite verify_signature_b64. apply verify_sign.
Qed.

(** A remote signer is as good as its callback. *)
Lemma remote_signer_for key_id callback public_key sg pk :
  RemoteSigner key_id (Some callback) public_key = Ok sg →
  (∀ payload, ∃ raw, callback payload = Ok (Some raw) ∧ ed25519_verify pk raw payload = true) →
  SignerFor sg pk.
Proof.
  intros H Hcb. unfold RemoteSigner in H. inv_ok.
  split; simpl; intros payload; destruct (Hcb payload) as (raw & Heq & Hv); rewrite Heq; simpl.
  - eauto.
  - intros s [= <-]. by rewrite verify_signature_b64.
Qed.
End Crypto.

#[export] Hint Resolve local_signer_for keypair_signer_for : gas.
