(* ===== verification/Trust.v ===== *)
(** trust.py: the registry of issuer keys with durable revocation.

    The state is the object's fields together with the text of its file; a
    save replaces the text, as the atomic rename of the code does.  The file
    shows that revocation is effective, that a live key cannot be replaced,
    and that a reload sees the keys and the revocations of the last save. *)

From stdpp Require Import gmap.
From S2P Require Import Prelude PyFloat PyVal Json Sha256 Base64 Crypto.

Section Trust.
Context `{C : Crypto}.

Record TrustStore := {
  ts_path : bool;                     (** [self.path] is set *)
  ts_keys : list (string * PublicKey);
  ts_revoked : gset string;
  ts_file : option string             (** the file's text *)
}.

Implicit Types (t : TrustStore) (key_id : string).

(** ** Serialization *)

Definition trust_to_dict t : pydict :=
  [("keys", PDict (map (λ kv, (kv.1, PStr (b64encode (public_bytes_raw kv.2))))
                       (sort_by fst (ts_keys t))));
   ("revoked", PList (map PStr (sort_strings (elements (ts_revoked t)))))].

(** [_save]; nothing in the dictionary can fail to serialize. *)
Definition trust_save : M TrustStore unit :=
  λ t, if ts_path t then
         match json_dumps compact_style (PDict (trust_to_dict t)) with
         | Ok text =>
             (Ok tt, {| ts_path := true; ts_keys := ts_keys t; ts_revoked := ts_revoked t;
                        ts_file := Some text |})
         | Raise e => (Raise e, t)
         end
       else (Ok tt, t).

(** The loop of [_load] over [payload["keys"].items()]. *)
Fixpoint trust_load_keys (kvs : pydict) : res (list (string * PublicKey)) :=
  match kvs with
  | [] => Ok []
  | (key_id, encoded) :: kvs =>
      fail_if (String.eqb key_id "") (ValueError "trust store contains an invalid key ID") ;;
      match encoded with
      | PStr encoded =>
          raw ← b64decode encoded;
          match from_public_bytes raw with
          | Some key => rest ← trust_load_keys kvs; Ok ((key_id, key) :: rest)
          | None => Raise (ValueError "An Ed25519 public key is 32 bytes long")
          end
      | _ => Raise (ValueError "trust store contains an invalid public key")
      end
  end.

Definition trust_parse (text : string) : res (list (string * PublicKey) * gset string) :=
  payload ← json_loads text;
  match payload with
  | PDict d =>
      fail_if (negb (keys_equal d ["keys"; "revoked"]))
        (ValueError "trust store has an invalid schema") ;;
      match assoc_get "keys" d, assoc_get "revoked" d with
      | Some (PDict kvs), Some (PList l) =>
          fail_if (negb (forallb is_str l)) (ValueError "trust store has an invalid schema") ;;
          keys ← trust_load_keys kvs;
          let revoked := list_to_set (map py_str l) : gset string in
          fail_if (negb (forallb (λ r, assoc_has r keys) (map py_str l)))
            (ValueError "trust store revokes an unknown key") ;;
          Ok (keys, revoked)
      | _, _ => Raise (ValueError "trust store has an invalid schema")
      end
  | _ => Raise (ValueError "trust store has an invalid schema")
  end.

(** [TrustStore(path)]; [file] is the text of an existing file. *)
Definition trust_init (path : bool) (file : option string) : res TrustStore :=
  match path, file with
  | true, Some text =>
      match trust_parse text with
      | Ok (keys, revoked) =>
          Ok {| ts_path := true; ts_keys := keys; ts_revoked := revoked; ts_file := file |}
      | Raise _ => Raise (ValueError "trust store could not be loaded safely")
      end
  | _, _ => Ok {| ts_path := path; ts_keys := []; ts_revoked := ∅; ts_file := file |}
  end.

(** ** Operations *)

Definition trust_add key_id (public_key : PublicKey) : M TrustStore unit :=
  t ← get_state;
  raise_if (String.eqb key_id "") (ValueError "key_id must not be empty") ;;
  raise_if (assoc_has key_id (ts_keys t) && negb (bool_decide (key_id ∈ ts_revoked t)))
    (ValueError ("issuer key already exists: " +:+ key_id)) ;;
  put_state {| ts_path := ts_path t;
               ts_keys := assoc_set key_id public_key (ts_keys t);
               ts_revoked := ts_revoked t ∖ {[key_id]};
               ts_file := ts_file t |} ;;
  trust_save.

Definition trust_revoke key_id : M TrustStore unit :=
  t ← get_state;
  raise_if (negb (assoc_has key_id (ts_keys t))) (KeyError ("unknown issuer key: " +:+ key_id)) ;;
  put_state {| ts_path := ts_path t; ts_keys := ts_keys t;
               ts_revoked := ts_revoked t ∪ {[key_id]}; ts_file := ts_file t |} ;;
  trust_save.

Definition trust_resolve t key_id : option PublicKey :=
  if bool_decide (key_id ∈ ts_revoked t) then None else assoc_get key_id (ts_keys t).

(** ** Invariant *)

Record trust_inv t : Prop := {
  trust_keys_nodup : NoDup (fst <$> ts_keys t);
  trust_keys_named : Forall (λ kv, kv.1 ≠ "") (ts_keys t);
  trust_revoked_known : ∀ k, k ∈ ts_revoked t → assoc_has k (ts_keys t) = true
}.

Lemma trust_to_dict_serializable t : serializable (PDict (trust_to_dict t)) = true.
Proof.
  simpl. rewrite !andb_true_r. apply andb_true_iff.
  split; apply forallb_forall; by intros ? (? & <- & _)%in_map_iff.
Qed.

(** Saving changes the file only. *)
Definition trust_saved t : TrustStore :=
  {| ts_path := ts_path t; ts_keys := ts_keys t; ts_revoked := ts_revoked t;
     ts_file := if ts_path t then Some (json_text compact_style (PDict (trust_to_dict t)))
                else ts_file t |}.

Lemma trust_save_spec t : trust_save t = (Ok tt, trust_saved t).
Proof.
  unfold trust_save, json_dumps. rewrite trust_to_dict_serializable.
  destruct t as [[] keys revoked file]; done.
Qed.

Definition trust_added key_id pk t : TrustStore :=
  {| ts_path := ts_path t; ts_keys := assoc_set key_id pk (ts_keys t);
     ts_revoked := ts_revoked t ∖ {[key_id]}; ts_file := ts_file t |}.
Definition trust_revoked key_id t : TrustStore :=
  {| ts_path := ts_path t; ts_keys := ts_keys t;
     ts_revoked := ts_revoked t ∪ {[key_id]}; ts_file := ts_file t |}.

Lemma trust_add_ok key_id pk t t' :
  trust_add key_id pk t = (Ok tt, t') →
  key_id ≠ "" ∧ (assoc_has key_id (ts_keys t) = true → key_id ∈ ts_revoked t) ∧
  trust_save (trust_added key_id pk t) = (Ok tt, t').
Proof.
  unfold trust_add. intros H. inv_ok. breflect. split; [done|]. split; [|done].
  intros Hk. rewrite Hk in Hx1. simpl in Hx1. breflect. by apply bool_decide_eq_true in Hx1.
Qed.

Lemma trust_revoke_ok key_id t t' :
  trust_revoke key_id t = (Ok tt, t') →
  assoc_has key_id (ts_keys t) = true ∧ trust_save (trust_revoked key_id t) = (Ok tt, t').
Proof. unfold trust_revoke. intros H. inv_ok. breflect. done. Qed.

Lemma trust_save_inv t t' : trust_inv t → trust_save t = (Ok tt, t') → trust_inv t'.
Proof. rewrite trust_save_spec. intros [] [= <-]. by split. Qed.

Lemma trust_added_inv key_id pk t : key_id ≠ "" → trust_inv t → trust_inv (trust_added key_id pk t).
Proof.
  intros Hne [Hnd Hnm Hrk]. split; simpl.
  - apply NoDup_ListNoDup, assoc_set_NoDup, NoDup_ListNoDup, Hnd.
  - by apply (assoc_set_Forall (λ k _, k ≠ "")).
  - intros k [Hk Hk']%elem_of_difference. rewrite not_elem_of_singleton in Hk'.
    unfold assoc_has. rewrite assoc_get_set_ne by done. by apply Hrk.
Qed.

Lemma trust_revoked_inv key_id t :
  assoc_has key_id (ts_keys t) = true → trust_inv t → trust_inv (trust_revoked key_id t).
Proof.
  intros Hk [Hnd Hnm Hrk]. split; simpl; [done|done|].
  intros k [?| ->%elem_of_singleton]%elem_of_union; auto.
Qed.

Lemma trust_ops_inv t t' key_id pk :
  trust_inv t →
  trust_add key_id pk t = (Ok tt, t') ∨ trust_revoke key_id t = (Ok tt, t') →
  trust_inv t'.
Proof.
  intros Hi [H|H].
  - apply trust_add_ok in H as (Hne & _ & H). eapply trust_save_inv; [|done].
    by apply trust_added_inv.
  - apply trust_revoke_ok in H as (Hk & H). eapply trust_save_inv; [|done].
    by apply trust_revoked_inv.
Qed.

(** ** The file *)

(** What a reload of the file must see. *)
Definition trust_same (t u : TrustStore) : Prop :=
  (∀ k, assoc_get k (ts_keys u) = assoc_get k (ts_keys t)) ∧ ts_revoked u = ts_revoked t.

Lemma trust_load_keys_encoded `{!CryptoLaws C} kvs :
  Forall (λ kv, kv.1 ≠ "") kvs →
  trust_load_keys (map (λ kv, (kv.1, PStr (b64encode (public_bytes_raw kv.2)))) kvs) = Ok kvs.
Proof.
  induction 1 as [|[k pk] kvs Hk _ IH]; simpl in *; [done|].
  apply String.eqb_neq in Hk. rewrite Hk. simpl.
  rewrite b64decode_encode. simpl. by rewrite from_public_bytes_raw, IH.
Qed.

Definition trust_text t : Prop := Forall (λ kv, utf8_str kv.1 = true) (ts_keys t).

Lemma trust_revoked_in t k :
  trust_inv t → k ∈ elements (ts_revoked t) → assoc_has k (ts_keys t) = true.
Proof. intros [_ _ H] Hk%elem_of_elements. auto. Qed.

Lemma trust_dict_safe t :
  trust_inv t → trust_text t → json_safe compact_style (PDict (trust_to_dict t)) = true.
Proof.
  intros Hi Ha. unfold trust_text in Ha.
  cbn [trust_to_dict json_safe forallb fst snd ensure_ascii compact_style negb orb].
  apply andb_true_iff. split; [|rewrite andb_true_r].
  - apply forallb_forall. intros ? ([k pk] & <- & Hin)%in_map_iff. simpl.
    rewrite <-list_elem_of_In, sort_by_Permutation in Hin.
    eapply Forall_forall in Ha; [|done]. simpl in Ha. rewrite Ha. apply ascii_utf8, b64encode_ascii.
  - apply forallb_forall. intros ? (k & <- & Hin)%in_map_iff. simpl.
    rewrite <-list_elem_of_In, sort_by_Permutation in Hin.
    apply trust_revoked_in in Hin; [|done].
    apply assoc_has_get in Hin as [pk Hpk]. apply assoc_get_In, list_elem_of_In in Hpk.
    eapply Forall_forall in Ha; [|done]. by simpl in Ha.
Qed.

Lemma trust_dict_wf t : trust_inv t → wf (PDict (trust_to_dict t)) = true.
Proof.
  intros [Hnd _ _]. apply wf_dict. split; [by apply str_nodup_spec|].
  repeat constructor.
  - apply wf_dict. split.
    + rewrite (map_fst_values (λ pk, PStr (b64encode (public_bytes_raw pk)))).
      by rewrite sort_by_Permutation.
    + apply Forall_map, Forall_true. done.
  - simpl. apply forallb_forall. by intros ? (? & <- & _)%in_map_iff.
Qed.

Lemma norm_trust_dict t :
  norm (PDict (trust_to_dict t)) = PDict (trust_to_dict t).
Proof.
  unfold trust_to_dict. rewrite norm_dict. cbn [sort_by insert_by fst].
  change (String.leb "keys" "revoked") with true. cbn [map fst snd].
  rewrite norm_dict. cbn [norm].
  do 2 f_equal; [|f_equal]; do 2 f_equal; [|rewrite List.map_map; by apply map_ext].
  rewrite (sort_by_map fst fst (λ kv : string * PublicKey,
    (kv.1, PStr (b64encode (public_bytes_raw kv.2))))) by done.
  rewrite sort_by_idemp, List.map_map. by apply map_ext.
Qed.

Lemma trust_parse_saved `{!CryptoLaws C} t :
  trust_inv t → trust_text t →
  trust_parse (json_text compact_style (PDict (trust_to_dict t))) =
    Ok (sort_by fst (ts_keys t), ts_revoked t).
Proof.
  intros Hi Ha. unfold trust_parse.
  rewrite (json_loads_dumps compact_style (PDict (trust_to_dict t)));
    [|by apply trust_dict_safe|by apply trust_dict_wf|by apply json_dumps_safe, trust_dict_safe].
  rewrite norm_trust_dict. simpl.
  assert (forallb is_str (map PStr (sort_strings (elements (ts_revoked t)))) = true) as ->
    by (apply forallb_forall; by intros ? (? & <- & _)%in_map_iff).
  simpl. rewrite trust_load_keys_encoded by (rewrite sort_by_Permutation; apply Hi).
  simpl. rewrite List.map_map, (map_ext _ id), map_id by done.
  assert (forallb (λ r, assoc_has r (sort_by fst (ts_keys t)))
            (sort_strings (elements (ts_revoked t))) = true) as ->.
  { apply forallb_forall. intros k Hk.
    rewrite <-list_elem_of_In, sort_by_Permutation in Hk. apply trust_revoked_in in Hk; [|done].
    unfold assoc_has. rewrite assoc_get_sort_by; [done|apply Hi]. }
  simpl. do 2 f_equal. rewrite sort_by_Permutation. by rewrite list_to_set_elements_L.
Qed.
End Trust.

(** * Properties *)

(** C26. Revocation is effective and only additive: a successful [revoke]
    makes the key unresolvable, keeps every other key as it was, and a store
    reloaded from the file it writes resolves exactly like the live one. *)
Theorem trust_revoke_durable `{!CryptoLaws C} (t t' : TrustStore) (key_id : string) :
  trust_inv t → trust_text t → ts_path t = true →
  trust_revoke key_id t = (Ok tt, t') →
  trust_resolve t' key_id = None ∧
  (∀ k, k ≠ key_id → trust_resolve t' k = trust_resolve t k) ∧
  ∃ u, trust_init true (ts_file t') = Ok u ∧ ∀ k, trust_resolve u k = trust_resolve t' k.
Proof.
  intros Hi Ha Hp H. apply trust_revoke_ok in H as [Hk H].
  rewrite trust_save_spec in H. injection H as <-.
  assert (trust_inv (trust_revoked key_id t)) as Hi' by (by apply trust_revoked_inv).
  pose proof (trust_parse_saved (trust_revoked key_id t) Hi' Ha) as Hparse.
  unfold trust_saved. cbn [ts_file].
  change (ts_path (trust_revoked key_id t)) with (ts_path t). rewrite Hp.
  unfold trust_init. rewrite Hparse. clear Hparse.
  unfold trust_resolve. simpl. split; [by rewrite bool_decide_eq_true_2 by set_solver|].
  split.
  - intros k Hne. f_equal.
    by rewrite (bool_decide_ext _ (k ∈ ts_revoked t)) by set_solver.
  - eexists. split; [done|]. intros k. simpl. by rewrite assoc_get_sort_by by apply Hi.
Qed.

Definition trust_example : @TrustStore toy_crypto :=
  {| ts_path := true; ts_keys := [("issuer-2", "k2"); ("issuer-1", "k1")];
     ts_revoked := ∅; ts_file := None |}.

Lemma trust_revoke_durable_witness :
  let t' := (trust_revoke "issuer-1" trust_example).2 in
  trust_resolve t' "issuer-1" = None ∧
  (∀ k, k ≠ "issuer-1" → trust_resolve t' k = trust_resolve trust_example k) ∧
  ∃ u, trust_init true (ts_file t') = Ok u ∧ ∀ k, trust_resolve u k = trust_resolve t' k.
Proof.
  apply (trust_revoke_durable trust_example); [|by repeat constructor|done|done].
  split; [apply str_nodup_spec; reflexivity|by repeat constructor|set_solver].
Defined.

(** A live key cannot be replaced: [add] under the identifier of a known,
    unrevoked key raises and changes nothing; under a new or revoked
    identifier it installs the key, and no other identifier is affected. *)
Lemma trust_add_live_key `{C : Crypto} (t : TrustStore) (key_id : string) (pk : PublicKey) :
  key_id ≠ "" →
  match trust_resolve t key_id with
  | Some _ => trust_add key_id pk t = (Raise (ValueError ("issuer key already exists: " +:+ key_id)), t)
  | None => ∃ t', trust_add key_id pk t = (Ok tt, t') ∧ trust_resolve t' key_id = Some pk ∧
                  ∀ k, k ≠ key_id → trust_resolve t' k = trust_resolve t k
  end.
Proof.
  intros Hne%String.eqb_neq. unfold trust_add, mbind, M_bind, get_state, raise_if, put_state.
  rewrite Hne. unfold trust_resolve at 1. unfold assoc_has.
  destruct (bool_decide (key_id ∈ ts_revoked t)) eqn:Hr;
    [|destruct (assoc_get key_id (ts_keys t)) eqn:Hk; [done|]].
  all: rewrite ?andb_false_r; simpl; rewrite trust_save_spec; eexists; split; [done|];
    unfold trust_resolve; simpl; rewrite bool_decide_eq_false_2 by set_solver;
    rewrite assoc_get_set_eq; split; [done|]; intros k Hk';
    rewrite assoc_get_set_ne by done;
    by rewrite (bool_decide_ext (k ∈ _ ∖ _) (k ∈ ts_revoked t)) by set_solver.
Qed.

Lemma trust_add_live_key_example :
  trust_add "issuer-1" "other" trust_example =
    (Raise (ValueError "issuer key already exists: issuer-1"), trust_example).
Proof. apply (trust_add_live_key trust_example "issuer-1" "other"). discriminate. Defined.
