(* ===== verification/Models.v ===== *)
(** models.py: signed approvals and governance authorization artifacts (GAA),
    their canonical payloads, transport forms and parsers.

    The file shows that what a signer issues verifies, that parsing inverts
    serialization, and that the signed bytes determine every signed field. *)

From S2P Require Import Prelude PyFloat PyVal Json Sha256 Base64 Crypto.

(** [hashlib.sha256(canonical_json(v)).hexdigest()] *)
Definition canonical_digest (v : pyval) : res string :=
  bytes ← canonical_json v; Ok (sha256_hex bytes).

(** SHA-256 tells these texts apart: no two different ones of them have one
    digest.  This is about the texts at hand only, and decidable. *)
Definition collision_free (texts : list string) : Prop :=
  ∀ a b, a ∈ texts → b ∈ texts → sha256_hex a = sha256_hex b → a = b.

#[export] Instance collision_free_dec texts : Decision (collision_free texts).
Proof.
  destruct (decide (Forall (λ a, Forall (λ b, sha256_hex a = sha256_hex b → a = b) texts) texts)) as [H|H];
    [left|right].
  - intros a b Ha Hb. rewrite Forall_forall in H. specialize (H a Ha). rewrite Forall_forall in H. by apply H.
  - contradict H. apply Forall_forall. intros a Ha. apply Forall_forall. intros b Hb. by apply H.
Defined.

Lemma collision_free_mono l1 l2 : (∀ a, a ∈ l1 → a ∈ l2) → collision_free l2 → collision_free l1.
Proof. intros H Hc a b Ha Hb. apply Hc; auto. Qed.

(** The canonical text of a value. *)
Abbreviation canonical_text := (json_text canonical_style).

Lemma canonical_digest_text v g : canonical_digest v = Ok g → g = sha256_hex (canonical_text v).
Proof.
  intros H. unfold canonical_digest in H. apply res_bind_ok in H as (t & Ht & [= <-]).
  by apply canonical_json_ok in Ht as [_ ->].
Qed.

(** A digest determines the value up to entry order, if it tells the texts apart. *)
Lemma canonical_digest_binds v w g :
  json_safe canonical_style v = true → json_safe canonical_style w = true →
  wf v = true → wf w = true → collision_free [canonical_text v; canonical_text w] →
  canonical_digest v = Ok g → canonical_digest w = Ok g → norm v = norm w.
Proof.
  intros Hv Hw Hwv Hww Hc Hdv%canonical_digest_text Hdw%canonical_digest_text.
  apply (json_text_inj canonical_style); [done..|]. apply Hc; [by left|by right; left|congruence].
Qed.

(** ["k"] of a dictionary, [None] when absent: [d.get(k)]. *)
Definition dict_get (k : string) (d : pydict) : pyval :=
  match assoc_get k d with Some v => v | None => PNone end.

Lemma norm_get (d d' : pydict) k :
  NoDup (fst <$> d) → NoDup (fst <$> d') → norm (PDict d) = norm (PDict d') →
  assoc_has k d' = assoc_has k d ∧ norm (dict_get k d') = norm (dict_get k d).
Proof.
  intros H H' Hn. pose proof (norm_dict_get k _ _ H H' Hn) as Hk. unfold assoc_has, dict_get.
  destruct (assoc_get k d), (assoc_get k d'); naive_solver.
Qed.

(** [d.get(k, default)] *)
Definition dict_get_or (k : string) (default : pyval) (d : pydict) : pyval :=
  match assoc_get k d with Some v => v | None => default end.

(** A typed optional string as a JSON value. *)
Definition opt_str (o : option string) : pyval :=
  match o with Some s => PStr s | None => PNone end.

Lemma dict_get_norm_entries k d :
  NoDup (fst <$> d) → dict_get k (norm_entries d) = norm (dict_get k d).
Proof.
  intros Hd. unfold dict_get. rewrite assoc_get_norm_entries by done. by destruct (assoc_get k d).
Qed.

Lemma dict_get_or_norm_entries k v d :
  NoDup (fst <$> d) → norm v = v →
  dict_get_or k v (norm_entries d) = norm (dict_get_or k v d).
Proof.
  intros Hd Hv. unfold dict_get_or. rewrite assoc_get_norm_entries by done.
  by destruct (assoc_get k d).
Qed.

(** ** Field readers of the strict parsers *)

Definition read_str (e : exn) (v : pyval) : res string :=
  match v with PStr s => if String.eqb s "" then Raise e else Ok s | _ => Raise e end.
Definition read_dict (e : exn) (v : pyval) : res pydict :=
  match v with PDict d => Ok d | _ => Raise e end.
Definition read_list (e : exn) (v : pyval) : res (list pyval) :=
  match v with PList l => Ok l | _ => Raise e end.
Definition read_int (e : exn) (v : pyval) : res Z :=
  match v with PInt z => Ok z | _ => Raise e end.
(** [None] or a non-empty string. *)
Definition read_opt_str (e : exn) (v : pyval) : res (option string) :=
  match v with
  | PNone => Ok None
  | PStr s => if String.eqb s "" then Raise e else Ok (Some s)
  | _ => Raise e
  end.

Lemma read_str_ok e v s : read_str e v = Ok s ↔ v = PStr s ∧ s ≠ "".
Proof.
  destruct v; simpl; try naive_solver.
  destruct (String.eqb_spec s0 ""); naive_solver.
Qed.
Lemma read_str_nonempty e s : s ≠ "" → read_str e (PStr s) = Ok s.
Proof. intros H. by apply read_str_ok. Qed.

Lemma read_opt_str_some e s : Some s ≠ Some "" → read_opt_str e (PStr s) = Ok (Some s).
Proof. intros H. simpl. destruct (String.eqb_spec s ""); congruence. Qed.
#[global] Arguments read_str : simpl never.

(** * Signed approvals *)

Record SignedApproval := {
  sa_action : string;
  sa_request_digest : string;
  sa_decision_digest : string;
  sa_issuer_key_id : string;
  sa_signature : string;
  sa_actor_id : option string;
  sa_context : pydict
}.

Definition approval_unsigned_dict (a : SignedApproval) : pydict :=
  [("action", PStr (sa_action a));
   ("request_digest", PStr (sa_request_digest a));
   ("decision_digest", PStr (sa_decision_digest a));
   ("issuer_key_id", PStr (sa_issuer_key_id a));
   ("actor_id", opt_str (sa_actor_id a));
   ("context", PDict (sa_context a))].

Definition approval_unsigned_payload (a : SignedApproval) : res string :=
  canonical_json (PDict (approval_unsigned_dict a)).

Definition approval_sign_with (a : SignedApproval) (signature : string) : SignedApproval :=
  {| sa_action := sa_action a; sa_request_digest := sa_request_digest a;
     sa_decision_digest := sa_decision_digest a; sa_issuer_key_id := sa_issuer_key_id a;
     sa_signature := signature; sa_actor_id := sa_actor_id a; sa_context := sa_context a |}.

(** [context or {}]: an absent context is the empty one. *)
Definition approval_issue (action request_digest decision_digest : string) (issuer : Signer)
    (actor_id : option string) (context : option pydict) : res SignedApproval :=
  let unsigned :=
    {| sa_action := action; sa_request_digest := request_digest;
       sa_decision_digest := decision_digest; sa_issuer_key_id := signer_key_id issuer;
       sa_signature := ""; sa_actor_id := actor_id;
       sa_context := match context with Some d => d | None => [] end |} in
  payload ← approval_unsigned_payload unsigned;
  signature ← signer_sign issuer payload;
  Ok (approval_sign_with unsigned signature).

Definition approval_verify `{C : Crypto} (a : SignedApproval) (public_key : PublicKey) : res bool :=
  payload ← approval_unsigned_payload a;
  Ok (verify_signature public_key payload (sa_signature a)).

Definition approval_request_without_approvals (request : pydict) : pydict :=
  assoc_remove "approvals" request.

Definition approval_matches_request (a : SignedApproval) (request : pyval) (decision : option pydict)
    : res bool :=
  match request with
  | PDict request =>
      if negb (String.eqb (sa_action a) (py_str (dict_get "action" request))) then Ok false
      else
        digest ← canonical_digest (PDict (approval_request_without_approvals request));
        if negb (String.eqb (sa_request_digest a) digest) then Ok false
        else match decision with
        | None => Ok true
        | Some d =>
            dd ← canonical_digest (PDict d);
            Ok (String.eqb (sa_decision_digest a) dd)
        end
  | _ => Ok false
  end.

Definition approval_from_request (request decision : pydict) (issuer : Signer)
    (actor_id : option string) (context : option pydict) : res SignedApproval :=
  rd ← canonical_digest (PDict (approval_request_without_approvals request));
  dd ← canonical_digest (PDict decision);
  approval_issue (py_str (dict_get "action" request)) rd dd issuer actor_id context.

Definition approval_to_dict (a : SignedApproval) : pydict :=
  [("action", PStr (sa_action a));
   ("request_digest", PStr (sa_request_digest a));
   ("decision_digest", PStr (sa_decision_digest a));
   ("issuer_key_id", PStr (sa_issuer_key_id a));
   ("signature", PStr (sa_signature a))] ++
  match sa_actor_id a with Some s => [("actor_id", PStr s)] | None => [] end ++
  match sa_context a with [] => [] | d => [("context", PDict d)] end.

Definition approval_expected : list string :=
  ["action"; "request_digest"; "decision_digest"; "issuer_key_id"; "signature"].

Definition approval_from_dict (value : pyval) : res SignedApproval :=
  match value with
  | PDict d =>
      fail_if (negb (keys_subset d (approval_expected ++ ["actor_id"; "context"])))
        (ValueError "signed approval has an invalid schema") ;;
      fail_if (negb (keys_superset d approval_expected))
        (ValueError "signed approval is missing required fields") ;;
      action ← read_str (ValueError "signed approval action must be a non-empty string")
                 (dict_get "action" d);
      let field k := read_str (ValueError ("signed approval " +:+ k +:+ " must be a non-empty string"))
                       (dict_get k d) in
      request_digest ← field "request_digest";
      decision_digest ← field "decision_digest";
      issuer_key_id ← field "issuer_key_id";
      signature ← field "signature";
      actor_id ← read_opt_str
        (ValueError "signed approval actor_id must be a non-empty string when present")
        (dict_get "actor_id" d);
      context ← read_dict (ValueError "signed approval context must be an object when present")
                  (dict_get_or "context" (PDict []) d);
      Ok {| sa_action := action; sa_request_digest := request_digest;
            sa_decision_digest := decision_digest; sa_issuer_key_id := issuer_key_id;
            sa_signature := signature; sa_actor_id := actor_id; sa_context := context |}
  | _ => Raise (ValueError "signed approval must be an object")
  end.

(** The approvals that [approval_from_dict] can produce. *)
Record approval_valid (a : SignedApproval) : Prop := {
  approval_valid_action : sa_action a ≠ "";
  approval_valid_request_digest : sa_request_digest a ≠ "";
  approval_valid_decision_digest : sa_decision_digest a ≠ "";
  approval_valid_issuer : sa_issuer_key_id a ≠ "";
  approval_valid_signature : sa_signature a ≠ "";
  approval_valid_actor : sa_actor_id a ≠ Some ""
}.

Lemma approval_from_dict_valid v a : approval_from_dict v = Ok a → approval_valid a.
Proof.
  unfold approval_from_dict. intros H. destruct v as [| | | | | |d|]; try done. inv_ok.
  repeat match goal with
    | H : read_str _ _ = Ok _ |- _ => apply read_str_ok in H as [_ H]
    end.
  split; try done. simpl. intros ->.
  unfold read_opt_str in *. repeat case_match; naive_solver.
Qed.

Lemma approval_from_dict_context d a :
  approval_from_dict (PDict d) = Ok a →
  sa_context a = [] ∨ assoc_get "context" d = Some (PDict (sa_context a)).
Proof.
  unfold approval_from_dict. intros H. inv_ok. unfold dict_get_or in *.
  destruct (assoc_get "context" d) as [v|] eqn:E; simpl in *.
  - right. destruct v; try done. naive_solver.
  - left. naive_solver.
Qed.

Lemma approval_from_dict_to_dict a : approval_valid a → approval_from_dict (PDict (approval_to_dict a)) = Ok a.
Proof.
  destruct a as [act rd dd iss sg actor ctx]. intros [Ha Hr Hd Hi Hs Hc]; simpl in *.
  unfold approval_from_dict, approval_to_dict, dict_get, dict_get_or; simpl.
  destruct actor as [actor|], ctx as [|kv ctx]; simpl;  rewrite !read_str_nonempty by done;
    simpl; try done.
  all: destruct (String.eqb_spec actor "") as [->|]; [congruence|]; done.
Qed.

Lemma approval_issue_verifies `{C : Crypto} action rd dd sg pk `{!SignerFor sg pk} actor ctx a :
  approval_issue action rd dd sg actor ctx = Ok a → approval_verify a pk = Ok true.
Proof.
  unfold approval_issue. intros H. inv_ok. unfold approval_verify.
  change (approval_unsigned_payload (approval_sign_with ?u x0)) with (approval_unsigned_payload u). rewrite Hx. simpl.
  f_equal. by eapply signer_verifies.
Qed.

#[global] Arguments approval_from_dict : simpl never.
#[global] Arguments approval_matches_request : simpl never.
#[global] Arguments approval_verify : simpl never.

(** * Governance authorization artifacts *)

Record GovernanceAuthorizationArtifact := {
  gaa_action_request : pydict;
  gaa_decision : pydict;
  gaa_expires_at : Z;
  gaa_nonce : string;
  gaa_replay_frame_ref : string;
  gaa_issuer_key_id : string;
  gaa_signature : string
}.
Abbreviation gaa := GovernanceAuthorizationArtifact.

Definition gaa_unsigned_dict (a : gaa) : pydict :=
  [("action_request", PDict (gaa_action_request a));
   ("decision", PDict (gaa_decision a));
   ("expires_at", PInt (gaa_expires_at a));
   ("nonce", PStr (gaa_nonce a));
   ("replay_frame_ref", PStr (gaa_replay_frame_ref a));
   ("issuer_key_id", PStr (gaa_issuer_key_id a))].

Definition gaa_unsigned_payload (a : gaa) : res string := canonical_json (PDict (gaa_unsigned_dict a)).

Definition gaa_with_signature (a : gaa) (s : string) : gaa :=
  {| gaa_action_request := gaa_action_request a; gaa_decision := gaa_decision a; gaa_expires_at := gaa_expires_at a;
     gaa_nonce := gaa_nonce a; gaa_replay_frame_ref := gaa_replay_frame_ref a;
     gaa_issuer_key_id := gaa_issuer_key_id a; gaa_signature := s |}.

Definition gaa_issue (ar dec : pydict) (exp : Z) (n rf : string) (issuer : Signer) : res gaa :=
  let unsigned :=
    {| gaa_action_request := ar; gaa_decision := dec; gaa_expires_at := exp; gaa_nonce := n;
       gaa_replay_frame_ref := rf; gaa_issuer_key_id := signer_key_id issuer; gaa_signature := "" |} in
  payload ← gaa_unsigned_payload unsigned;
  s ← signer_sign issuer payload;
  Ok (gaa_with_signature unsigned s).

Definition gaa_to_dict (a : gaa) : pydict := gaa_unsigned_dict a ++ [("signature", PStr (gaa_signature a))].

Definition gaa_required : list string :=
  ["action_request"; "decision"; "expires_at"; "nonce"; "replay_frame_ref"; "issuer_key_id";
   "signature"].

Definition gaa_from_dict (value : pyval) : res gaa :=
  match value with
  | PDict d =>
      fail_if (negb (keys_equal d gaa_required))
        (ValueError "GAA must contain exactly the required fields") ;;
      ar ← read_dict (ValueError "action_request must be an object") (dict_get "action_request" d);
      dec ← read_dict (ValueError "decision must be an object") (dict_get "decision" d);
      exp ← read_int (ValueError "expires_at must be an integer") (dict_get "expires_at" d);
      let field k := read_str (ValueError (k +:+ " must be a non-empty string")) (dict_get k d) in
      n ← field "nonce";
      rf ← field "replay_frame_ref";
      iss ← field "issuer_key_id";
      s ← field "signature";
      Ok {| gaa_action_request := ar; gaa_decision := dec; gaa_expires_at := exp; gaa_nonce := n;
            gaa_replay_frame_ref := rf; gaa_issuer_key_id := iss; gaa_signature := s |}
  | _ => Raise (ValueError "GAA must contain exactly the required fields")
  end.

Definition gaa_to_json (a : gaa) : res string := json_dumps compact_style (PDict (gaa_to_dict a)).

Definition gaa_from_json (value : pyval) : res gaa :=
  match value with
  | PStr text =>
      match json_loads text with
      | Ok payload => gaa_from_dict payload
      | Raise _ => Raise (ValueError "GAA JSON is invalid")
      end
  | _ => Raise (ValueError "GAA JSON must be a string")
  end.

(** The artifacts [gaa_from_dict] can produce. *)
Record gaa_valid (a : gaa) : Prop := {
  gaa_valid_nonce : gaa_nonce a ≠ "";
  gaa_valid_frame : gaa_replay_frame_ref a ≠ "";
  gaa_valid_issuer : gaa_issuer_key_id a ≠ "";
  gaa_valid_signature : gaa_signature a ≠ ""
}.

(** Every dictionary inside has distinct keys and every string and float of
    it prints so that it reads back. *)
Definition gaa_printable (st : json_style) (a : gaa) : Prop :=
  json_safe st (PDict (gaa_to_dict a)) = true ∧ wf (PDict (gaa_to_dict a)) = true.

(** The same artifact with its dictionaries sorted. *)
Definition norm_gaa (a : gaa) : gaa :=
  {| gaa_action_request := norm_entries (gaa_action_request a);
     gaa_decision := norm_entries (gaa_decision a);
     gaa_expires_at := gaa_expires_at a; gaa_nonce := gaa_nonce a; gaa_replay_frame_ref := gaa_replay_frame_ref a;
     gaa_issuer_key_id := gaa_issuer_key_id a; gaa_signature := gaa_signature a |}.

Lemma gaa_from_dict_ok v a :
  gaa_from_dict v = Ok a →
  gaa_valid a ∧ ∃ d, v = PDict d ∧ assoc_get "action_request" d = Some (PDict (gaa_action_request a)) ∧
    assoc_get "decision" d = Some (PDict (gaa_decision a)) ∧
    assoc_get "expires_at" d = Some (PInt (gaa_expires_at a)) ∧
    assoc_get "nonce" d = Some (PStr (gaa_nonce a)) ∧
    assoc_get "replay_frame_ref" d = Some (PStr (gaa_replay_frame_ref a)) ∧
    assoc_get "issuer_key_id" d = Some (PStr (gaa_issuer_key_id a)) ∧
    assoc_get "signature" d = Some (PStr (gaa_signature a)).
Proof.
  unfold gaa_from_dict. intros H. destruct v as [| | | | | |d|]; try done. inv_ok.
  repeat match goal with
    | H : read_str _ _ = Ok _ |- _ => apply read_str_ok in H as [? ?]
    | H : read_dict _ ?v = Ok _ |- _ => destruct v eqn:?; try done; injection H as ->
    | H : read_int _ ?v = Ok _ |- _ => destruct v eqn:?; try done; injection H as ->
    end.
  unfold dict_get in *. split; [done|]. exists d.
  repeat match goal with
    | H : match ?x with Some _ => _ | None => _ end = _ |- _ => destruct x; try done; subst
    end.
  done.
Qed.

Lemma gaa_from_dict_to_dict a : gaa_valid a → gaa_from_dict (PDict (gaa_to_dict a)) = Ok a.
Proof.
  destruct a. intros [Hn Hf Hi Hs]; simpl in *.
  unfold gaa_from_dict, gaa_to_dict, dict_get; simpl. by rewrite !read_str_nonempty.
Qed.

(** Sorting the entries does not change what the parser reads. *)
Lemma gaa_norm_to_dict a :
  norm (PDict (gaa_to_dict a)) =
    PDict [("action_request", PDict (gaa_action_request (norm_gaa a)));
           ("decision", PDict (gaa_decision (norm_gaa a)));
           ("expires_at", PInt (gaa_expires_at a));
           ("issuer_key_id", PStr (gaa_issuer_key_id a));
           ("nonce", PStr (gaa_nonce a));
           ("replay_frame_ref", PStr (gaa_replay_frame_ref a));
           ("signature", PStr (gaa_signature a))].
Proof. destruct a. reflexivity. Qed.

Lemma gaa_from_dict_norm a :
  gaa_valid a → gaa_from_dict (norm (PDict (gaa_to_dict a))) = Ok (norm_gaa a).
Proof.
  intros [Hn Hf Hi Hs]. rewrite gaa_norm_to_dict. unfold gaa_from_dict, dict_get; simpl.
  by rewrite !read_str_nonempty.
Qed.

Lemma gaa_from_json_to_json a text :
  gaa_valid a → gaa_printable compact_style a → gaa_to_json a = Ok text →
  gaa_from_json (PStr text) = Ok (norm_gaa a).
Proof.
  intros Hv [Hs Hw] Ht. unfold gaa_from_json.
  rewrite (json_loads_dumps compact_style _ _ Hs Hw Ht). by apply gaa_from_dict_norm.
Qed.

Definition gaa_verify_artifact `{C : Crypto} (pk : PublicKey) (a : gaa) : res bool :=
  payload ← gaa_unsigned_payload a; Ok (verify_signature pk payload (gaa_signature a)).

Lemma gaa_issue_verifies `{C : Crypto} ar dec exp n rf sg pk `{!SignerFor sg pk} a :
  gaa_issue ar dec exp n rf sg = Ok a → gaa_verify_artifact pk a = Ok true.
Proof.
  unfold gaa_issue. intros H. inv_ok. unfold gaa_verify_artifact.
  change (gaa_unsigned_payload (gaa_with_signature ?u x0)) with (gaa_unsigned_payload u). rewrite Hx. simpl.
  f_equal. by eapply signer_verifies.
Qed.

Lemma gaa_issue_ok_fields ar dec exp n rf sg a :
  gaa_issue ar dec exp n rf sg = Ok a →
  gaa_action_request a = ar ∧ gaa_decision a = dec ∧ gaa_expires_at a = exp ∧ gaa_nonce a = n ∧
  gaa_replay_frame_ref a = rf ∧ gaa_issuer_key_id a = signer_key_id sg.
Proof. unfold gaa_issue. intros H. inv_ok. done. Qed.

Lemma gaa_payload_ok a :
  serializable (PDict (gaa_action_request a)) = true → serializable (PDict (gaa_decision a)) = true →
  gaa_unsigned_payload a = Ok (json_text canonical_style (PDict (gaa_unsigned_dict a))).
Proof.
  intros Ha Hd. unfold gaa_unsigned_payload, canonical_json, json_dumps.
  cbn [serializable gaa_unsigned_dict forallb snd] in *. by rewrite Ha, Hd.
Qed.

Lemma gaa_issue_total `{C : Crypto} ar dec exp n rf sg pk `{!SignerFor sg pk} :
  serializable (PDict ar) = true → serializable (PDict dec) = true →
  ∃ a, gaa_issue ar dec exp n rf sg = Ok a.
Proof.
  intros Ha Hd. unfold gaa_issue. rewrite gaa_payload_ok by done. unfold mbind, res_bind.
  edestruct (signer_total (sg := sg) (pk := pk)) as [s Hs]. rewrite Hs. eauto.
Qed.

#[global] Arguments gaa_from_dict : simpl never.
#[global] Arguments gaa_from_json : simpl never.
#[global] Arguments gaa_unsigned_payload : simpl never.

(** * Properties *)

(** C33. The transport form of an artifact loses nothing.  For an artifact with
    non-empty nonce, frame reference, issuer key and signature ([gaa_valid]) that
    is JSON, with strings of any Unicode characters, distinct keys in each
    dictionary and floats that read back from their [repr] ([gaa_printable]),
    what [to_json] writes, with every character outside ASCII as an escape,
    parses back to the same artifact with its dictionaries sorted; and the parser
    accepts only artifacts with these identifiers non-empty. *)
Theorem gaa_json_roundtrip (a : gaa) (text : string) :
  gaa_valid a → gaa_printable compact_style a → gaa_to_json a = Ok text →
  gaa_from_json (PStr text) = Ok (norm_gaa a) ∧
  (∀ v b, gaa_from_json v = Ok b → gaa_valid b).
Proof.
  intros Hv Hp Ht. split; [by apply gaa_from_json_to_json|].
  intros v b. unfold gaa_from_json. destruct v; try done.
  destruct (json_loads s); [|done]. intros H. by apply gaa_from_dict_ok in H as [? _].
Qed.

Definition gaa_example : gaa :=
  {| gaa_action_request := [("action", PStr "payments.transfer"); ("amount", PInt 100); ("to", PStr "Zoë 😀")];
     gaa_decision := [("outcome", PStr "allow")]; gaa_expires_at := 1700000000;
     gaa_nonce := "n-1"; gaa_replay_frame_ref := "f-1"; gaa_issuer_key_id := "issuer-1";
     gaa_signature := "c2ln" |}.

Lemma gaa_json_roundtrip_witness :
  ∃ text, gaa_to_json gaa_example = Ok text ∧
          gaa_from_json (PStr text) = Ok (norm_gaa gaa_example).
Proof.
  eexists. split; [reflexivity|].
  apply (gaa_json_roundtrip gaa_example); [by split| |reflexivity].
  by split; vm_compute.
Defined.

(** The signed bytes determine every signed field: two artifacts with the
    same payload agree on request, decision (up to the order of dictionary
    entries), expiry, nonce, replay frame and issuer key. *)
Lemma gaa_payload_binds (a b : gaa) (payload : string) :
  gaa_printable canonical_style a → gaa_printable canonical_style b →
  gaa_unsigned_payload a = Ok payload → gaa_unsigned_payload b = Ok payload →
  norm_gaa (gaa_with_signature a "") = norm_gaa (gaa_with_signature b "").
Proof.
  intros [Hsa Hwa] [Hsb Hwb] Ha Hb.
  apply canonical_json_ok in Ha as [_ ->]. apply canonical_json_ok in Hb as [_ Heq].
  assert (∀ c, json_safe canonical_style (PDict (gaa_to_dict c)) = true →
               json_safe canonical_style (PDict (gaa_unsigned_dict c)) = true) as Hs.
  { intros c. unfold gaa_to_dict. cbn [json_safe]. rewrite forallb_app. intros H. by breflect. }
  assert (∀ c, wf (PDict (gaa_to_dict c)) = true → wf (PDict (gaa_unsigned_dict c)) = true) as Hw.
  { intros c. rewrite !wf_dict. unfold gaa_to_dict. intros [_ H].
    split; [by apply str_nodup_spec|]. by apply Forall_app in H as [? _]. }
  apply (json_text_inj canonical_style) in Heq; auto.
  assert (∀ k, norm <$> assoc_get k (gaa_unsigned_dict a) =
               norm <$> assoc_get k (gaa_unsigned_dict b)) as Hk
    by (intros k; apply norm_dict_get; by try apply str_nodup_spec).
  pose proof (Hk "action_request") as H1. pose proof (Hk "decision") as H2.
  pose proof (Hk "expires_at") as H3. pose proof (Hk "nonce") as H4.
  pose proof (Hk "replay_frame_ref") as H5. pose proof (Hk "issuer_key_id") as H6.
  clear -H1 H2 H3 H4 H5 H6. unfold norm_gaa, norm_entries. destruct a, b; simpl in *. congruence.
Qed.

Lemma gaa_payload_binds_witness :
  let b := gaa_with_signature
    {| gaa_action_request := [("amount", PInt 100); ("to", PStr "Zoë 😀"); ("action", PStr "payments.transfer")];
       gaa_decision := [("outcome", PStr "allow")]; gaa_expires_at := 1700000000;
       gaa_nonce := "n-1"; gaa_replay_frame_ref := "f-1"; gaa_issuer_key_id := "issuer-1";
       gaa_signature := "" |} "b3RoZXI" in
  norm_gaa (gaa_with_signature gaa_example "") = norm_gaa (gaa_with_signature b "").
Proof.
  intros b. eapply (gaa_payload_binds gaa_example b);
    [by split; vm_compute|by split; vm_compute|reflexivity|reflexivity].
Defined.
