(* ===== verification/Policy.v ===== *)
(** policy.py, first half: the data of a policy, its validation, parser and
    serializer, and the deterministic arbiter.

    A [Policy] object is typed here: [policy_post_init] is the constructor's
    validation, from the untyped values the parser hands over to the typed
    record.  The code lets a few ill-typed values through (a [policy_id] that
    is a truthy non-string, a [max_request_bytes] that is a [bool] or a
    [float]); the record cannot hold them, and the model marks these inputs
    with the exception [Unmodelled]. *)

From S2P Require Import Prelude PyFloat PyVal Json Sha256 Base64 Crypto Models.

(** Not an exception of the program: the input is outside the typed model. *)
Definition unmodelled {A} (what : string) : res A := Raise (OtherError "Unmodelled" what).

Definition AttributeError (attr : string) : exn :=
  OtherError "AttributeError" ("object has no attribute " +:+ attr).

(** [tuple(v)]: a list, the characters of a string or the keys of a dictionary. *)
Definition py_tuple (v : pyval) : res (list pyval) :=
  match v with
  | PList l => Ok l
  | PStr s => Ok (map PStr (split_chars "" s))
  | PDict d => Ok (map (λ kv, PStr kv.1) d)
  | _ => Raise (TypeError "object is not iterable")
  end.

(** [v.items()] *)
Definition py_items (v : pyval) : res pydict :=
  match v with PDict d => Ok d | _ => Raise (AttributeError "items") end.

(** [{k: tuple(v) for k, v in d.items()}] *)
Definition items_of_tuples (v : pyval) : res (list (string * list pyval)) :=
  d ← py_items v;
  mapM_res (λ kv : string * pyval, l ← py_tuple kv.2; Ok (kv.1, l)) d.

(** * The policy record *)

Record Policy := {
  policy_id : string;
  allowed_actions : list string;
  required_fields : list (string * list string);
  exact_fields : list (string * pydict);
  required_context : list string;
  exact_context : pydict;
  max_request_bytes : Z;
  max_ttl_seconds : Z;
  required_approvals : list (string * Z);
  max_numeric_fields : list (string * list (string * pynum));
  required_mesh_inputs : list (string * Z);
  required_mesh_sources : list (string * list string);
  mesh_required_actions : list string;
  mesh_required_environments : list string
}.

(** The constructor's arguments, before [__post_init__]. *)
Record PolicyArgs := {
  pa_policy_id : pyval;
  pa_allowed_actions : list pyval;
  pa_required_fields : list (string * list pyval);
  pa_exact_fields : pyval;
  pa_required_context : list pyval;
  pa_exact_context : pyval;
  pa_max_request_bytes : pyval;
  pa_max_ttl_seconds : pyval;
  pa_required_approvals : pyval;
  pa_max_numeric_fields : pyval;
  pa_required_mesh_inputs : pyval;
  pa_required_mesh_sources : list (string * list pyval);
  pa_mesh_required_actions : list pyval;
  pa_mesh_required_environments : list pyval
}.

(** * [__post_init__] *)

(** [any(not isinstance(x, str) or not x for x in xs)] raises [e]. *)
Definition str_items (e : exn) (l : list pyval) : res (list string) := mapM_res (read_str e) l.

(** [tuple(sorted(xs)) == xs] *)
Fixpoint str_sorted (l : list string) : bool :=
  match l with
  | x :: (y :: _) as l' => String.leb x y && str_sorted l'
  | _ => true
  end.

(** [if not x <= 0: ...; raise e] for a size or a duration. *)
Definition positive_int (e : exn) (v : pyval) : res Z :=
  match v with
  | PInt z => if z <=? 0 then Raise e else Ok z
  | PBool false => Raise e
  | PBool true => unmodelled "a bool limit"
  | PFloat f =>
      if pynum_gtb (NFloat f) (NInt 0) then unmodelled "a float limit" else
      match f with S754_nan => unmodelled "a float limit" | _ => Raise e end
  | _ => Raise (TypeError "'<=' not supported between instances")
  end.

(** The values [sorted] cannot compare with each other: more than one element,
    not all of one kind. *)
Definition sort_error (l : list pyval) : bool :=
  match l with
  | [] | [_] => false
  | _ => negb (forallb is_str l || forallb (λ v, match as_num v with Some _ => true | None => false end) l)
  end.

(** [required_context]: the order is checked before the types. *)
Definition read_required_context (l : list pyval) : res (list string) :=
  fail_if (sort_error l) (TypeError "'<' not supported between instances") ;;
  let unsorted := ValueError "required_context must be sorted for deterministic output" in
  let nonempty := ValueError "required_context must contain non-empty strings" in
  if forallb is_str l then
    fail_if (negb (str_sorted (map py_str l))) unsorted ;; str_items nonempty l
  else Raise nonempty.

Definition key_nonempty (e : exn) {A} (kv : string * A) : res unit :=
  fail_if (String.eqb kv.1 "") e.

Definition read_fields (what : string) (kv : string * list pyval) : res (string * list string) :=
  key_nonempty (ValueError (what +:+ " action names must be non-empty strings")) kv ;;
  fields ← str_items (ValueError (what +:+ " must contain non-empty strings")) kv.2;
  Ok (kv.1, fields).

Definition read_exact (kv : string * pyval) : res (string * pydict) :=
  key_nonempty (ValueError "exact_fields action names must be non-empty strings") kv ;;
  fields ← read_dict (ValueError "exact_fields constraints must be objects") kv.2;
  Ok (kv.1, fields).

Definition read_count (what : string) (kv : string * pyval) : res (string * Z) :=
  key_nonempty (ValueError (what +:+ " action names must be non-empty strings")) kv ;;
  match kv.2 with
  | PInt z => if z <? 0 then Raise (ValueError (what +:+ " must use non-negative integers"))
              else Ok (kv.1, z)
  | _ => Raise (ValueError (what +:+ " must use non-negative integers"))
  end.

Definition read_limit (kv : string * pyval) : res (string * pynum) :=
  let e := ValueError "numeric field limits must use finite numbers" in
  key_nonempty e kv ;;
  match (match kv.2 with PInt z => Some (NInt z) | PFloat f => Some (NFloat f) | _ => None end) with
  | None => Raise e
  | Some n =>
      match pynum_isfinite n with
      | None => Raise (OverflowError "int too large to convert to float")
      | Some false => Raise e
      | Some true => Ok (kv.1, n)
      end
  end.

Definition read_limits (kv : string * pyval) : res (string * list (string * pynum)) :=
  let e := ValueError "max_numeric_fields must map action names to field limits" in
  key_nonempty e kv ;;
  fields ← read_dict e kv.2;
  limits ← mapM_res read_limit fields;
  Ok (kv.1, limits).

Definition read_sorted (what : string) (l : list pyval) : res (list string) :=
  xs ← str_items (ValueError (what +:+ " must contain non-empty strings")) l;
  fail_if (negb (str_sorted xs)) (ValueError (what +:+ " must be sorted for deterministic output")) ;;
  Ok xs.

Definition read_sources (kv : string * list pyval) : res (string * list string) :=
  key_nonempty (ValueError "required_mesh_sources action names must be non-empty strings") kv ;;
  sources ← str_items (ValueError "required_mesh_sources must contain only non-empty source IDs") kv.2;
  Ok (kv.1, sources).

Definition policy_post_init (a : PolicyArgs) : res Policy :=
  pid ← (if truthy (pa_policy_id a) then
           match pa_policy_id a with PStr s => Ok s | _ => unmodelled "policy_id is not a string" end
         else Raise (ValueError "policy_id must not be empty"));
  bytes ← positive_int (ValueError "max_request_bytes must be positive") (pa_max_request_bytes a);
  ttl ← positive_int (ValueError "max_ttl_seconds must be positive") (pa_max_ttl_seconds a);
  actions ← read_sorted "allowed_actions" (pa_allowed_actions a);
  let context_arg := match pa_exact_context a with PNone => PDict [] | v => v end in
  req_context ← read_required_context (pa_required_context a);
  req_fields ← mapM_res (read_fields "required_fields") (pa_required_fields a);
  exact_items ← py_items (pa_exact_fields a);
  exact ← mapM_res read_exact exact_items;
  context ← read_dict (ValueError "exact_context must be an object") context_arg;
  approval_items ← py_items (pa_required_approvals a);
  approvals ← mapM_res (read_count "required_approvals") approval_items;
  limit_items ← py_items (pa_max_numeric_fields a);
  limits ← mapM_res read_limits limit_items;
  input_items ← py_items (pa_required_mesh_inputs a);
  inputs ← mapM_res (read_count "required_mesh_inputs") input_items;
  sources ← mapM_res read_sources (pa_required_mesh_sources a);
  mesh_actions ← read_sorted "mesh_required_actions" (pa_mesh_required_actions a);
  mesh_envs ← read_sorted "mesh_required_environments" (pa_mesh_required_environments a);
  Ok {| policy_id := pid; allowed_actions := actions; required_fields := req_fields;
        exact_fields := exact; required_context := req_context; exact_context := context;
        max_request_bytes := bytes; max_ttl_seconds := ttl; required_approvals := approvals;
        max_numeric_fields := limits; required_mesh_inputs := inputs;
        required_mesh_sources := sources; mesh_required_actions := mesh_actions;
        mesh_required_environments := mesh_envs |}.

(** * [policy_from_dict] *)

Definition policy_required : list string :=
  ["policy_id"; "allowed_actions"; "required_fields"; "exact_fields"; "required_context";
   "exact_context"; "max_request_bytes"; "max_ttl_seconds"].
Definition policy_optional : list string :=
  ["required_approvals"; "max_numeric_fields"; "required_mesh_inputs"; "required_mesh_sources";
   "mesh_required_actions"; "mesh_required_environments"].

Definition policy_from_dict (value : pyval) : res Policy :=
  match value with
  | PDict d =>
      let invalid := ValueError "policy manifest has an invalid schema" in
      fail_if (negb (keys_subset d (policy_required ++ policy_optional))) invalid ;;
      fail_if (negb (keys_superset d policy_required)) invalid ;;
      actions ← py_tuple (dict_get "allowed_actions" d);
      fields ← items_of_tuples (dict_get "required_fields" d);
      context ← py_tuple (dict_get "required_context" d);
      sources ← items_of_tuples (dict_get_or "required_mesh_sources" (PDict []) d);
      mesh_actions ← py_tuple (dict_get_or "mesh_required_actions" (PList []) d);
      mesh_envs ← py_tuple (dict_get_or "mesh_required_environments" (PList []) d);
      policy_post_init {|
        pa_policy_id := dict_get "policy_id" d;
        pa_allowed_actions := actions;
        pa_required_fields := fields;
        pa_exact_fields := dict_get "exact_fields" d;
        pa_required_context := context;
        pa_exact_context := dict_get "exact_context" d;
        pa_max_request_bytes := dict_get "max_request_bytes" d;
        pa_max_ttl_seconds := dict_get "max_ttl_seconds" d;
        pa_required_approvals := dict_get_or "required_approvals" (PDict []) d;
        pa_max_numeric_fields := dict_get_or "max_numeric_fields" (PDict []) d;
        pa_required_mesh_inputs := dict_get_or "required_mesh_inputs" (PDict []) d;
        pa_required_mesh_sources := sources;
        pa_mesh_required_actions := mesh_actions;
        pa_mesh_required_environments := mesh_envs |}
  | _ => Raise (ValueError "policy must be an object")
  end.

(** * [Policy.to_dict] and [Policy.digest] *)

Definition of_num (n : pynum) : pyval :=
  match n with NInt z => PInt z | NFloat f => PFloat f end.
Definition of_strs (l : list string) : pyval := PList (map PStr l).

(** [{k: f(v) for k, v in sorted(d.items())}] *)
Definition sorted_dict {A} (f : A → pyval) (d : list (string * A)) : pyval :=
  PDict (map (λ kv, (kv.1, f kv.2)) (sort_by fst d)).

(** [if xs: result[k] = v] *)
Definition if_nonempty {A} (k : string) (l : list A) (v : pyval) : pydict :=
  match l with [] => [] | _ => [(k, v)] end.

Definition policy_to_dict (p : Policy) : pydict :=
  [("policy_id", PStr (policy_id p));
   ("allowed_actions", of_strs (allowed_actions p));
   ("required_fields", sorted_dict of_strs (required_fields p));
   ("exact_fields", sorted_dict PDict (exact_fields p));
   ("required_context", of_strs (required_context p));
   ("exact_context", PDict (exact_context p));
   ("max_request_bytes", PInt (max_request_bytes p));
   ("max_ttl_seconds", PInt (max_ttl_seconds p));
   ("required_approvals", sorted_dict PInt (required_approvals p))] ++
  if_nonempty "max_numeric_fields" (max_numeric_fields p)
    (sorted_dict (sorted_dict of_num) (max_numeric_fields p)) ++
  if_nonempty "required_mesh_inputs" (required_mesh_inputs p)
    (sorted_dict PInt (required_mesh_inputs p)) ++
  if_nonempty "required_mesh_sources" (required_mesh_sources p)
    (sorted_dict of_strs (required_mesh_sources p)) ++
  if_nonempty "mesh_required_actions" (mesh_required_actions p)
    (of_strs (mesh_required_actions p)) ++
  if_nonempty "mesh_required_environments" (mesh_required_environments p)
    (of_strs (mesh_required_environments p)).

Definition policy_digest (p : Policy) : res string := canonical_digest (PDict (policy_to_dict p)).

(** * Validity and persistence *)

Definition nonempty (s : string) : Prop := s ≠ "".
Definition named {A} (kv : string * A) : Prop := nonempty kv.1.

(** What the constructor guarantees. *)
Record policy_valid (p : Policy) : Prop := {
  pv_id : nonempty (policy_id p);
  pv_bytes : 0 < max_request_bytes p;
  pv_ttl : 0 < max_ttl_seconds p;
  pv_actions : Forall nonempty (allowed_actions p) ∧ str_sorted (allowed_actions p) = true;
  pv_context : Forall nonempty (required_context p) ∧ str_sorted (required_context p) = true;
  pv_fields : Forall (λ kv, named kv ∧ Forall nonempty kv.2) (required_fields p);
  pv_exact : Forall named (exact_fields p);
  pv_approvals : Forall (λ kv, named kv ∧ 0 ≤ kv.2) (required_approvals p);
  pv_limits : Forall (λ kv, named kv ∧
    Forall (λ fl, named fl ∧ pynum_isfinite fl.2 = Some true) kv.2) (max_numeric_fields p);
  pv_inputs : Forall (λ kv, named kv ∧ 0 ≤ kv.2) (required_mesh_inputs p);
  pv_sources : Forall (λ kv, named kv ∧ Forall nonempty kv.2) (required_mesh_sources p);
  pv_mesh_actions :
    Forall nonempty (mesh_required_actions p) ∧ str_sorted (mesh_required_actions p) = true;
  pv_mesh_envs :
    Forall nonempty (mesh_required_environments p) ∧
    str_sorted (mesh_required_environments p) = true
}.

(** ** Each reader accepts what its printer writes, and only valid data *)

Lemma str_items_ok e l xs : str_items e l = Ok xs ↔ l = map PStr xs ∧ Forall nonempty xs.
Proof.
  unfold str_items. rewrite mapM_res_ok. split.
  - induction 1 as [|v s l xs Hv H [IHl IHx]]; [done|].
    apply read_str_ok in Hv as [-> ?]. subst. simpl. auto.
  - intros [-> H]. induction H; simpl; constructor; [by apply read_str_nonempty|done].
Qed.

Lemma key_nonempty_ok e {A} (kv : string * A) : key_nonempty e kv = Ok tt ↔ named kv.
Proof. unfold key_nonempty, named, nonempty. rewrite fail_if_ok, String.eqb_neq. done. Qed.

Lemma read_fields_ok what kv r :
  read_fields what kv = Ok r ↔ kv = (r.1, map PStr r.2) ∧ named r ∧ Forall nonempty r.2.
Proof.
  unfold read_fields. destruct kv as [k l], r as [k' fs]. split.
  - intros H. inv_ok. apply key_nonempty_ok in Hx. apply str_items_ok in Hx0 as [-> ?]. done.
  - intros ([= -> ->] & Hn & Hf). rewrite (proj2 (key_nonempty_ok _ _)) by done. simpl.
    by rewrite (proj2 (str_items_ok _ _ fs)).
Qed.

Lemma read_sources_ok kv r :
  read_sources kv = Ok r ↔ kv = (r.1, map PStr r.2) ∧ named r ∧ Forall nonempty r.2.
Proof.
  unfold read_sources. destruct kv as [k l], r as [k' fs]. split.
  - intros H. inv_ok. apply key_nonempty_ok in Hx. apply str_items_ok in Hx0 as [-> ?]. done.
  - intros ([= -> ->] & Hn & Hf). rewrite (proj2 (key_nonempty_ok _ _)) by done. simpl.
    by rewrite (proj2 (str_items_ok _ _ fs)).
Qed.

Lemma read_exact_ok kv r : read_exact kv = Ok r ↔ kv = (r.1, PDict r.2) ∧ named r.
Proof.
  unfold read_exact. destruct kv as [k v], r as [k' fs]. split.
  - intros H. inv_ok. apply key_nonempty_ok in Hx. destruct v; simpl in *; naive_solver.
  - intros ([= -> ->] & Hn). by rewrite (proj2 (key_nonempty_ok _ _)).
Qed.

Lemma read_count_ok what kv r :
  read_count what kv = Ok r ↔ kv = (r.1, PInt r.2) ∧ named r ∧ 0 ≤ r.2.
Proof.
  unfold read_count. destruct kv as [k v], r as [k' n]. split.
  - intros H. inv_ok. apply key_nonempty_ok in Hx. destruct v; simpl in *; try done.
    destruct (z <? 0) eqn:E; breflect; naive_solver.
  - intros ([= -> ->] & Hn & Hz). rewrite (proj2 (key_nonempty_ok _ _)) by done. simpl in *.
    destruct (n <? 0) eqn:E; breflect; [lia|done].
Qed.

Lemma read_limit_ok kv r :
  read_limit kv = Ok r ↔ kv = (r.1, of_num r.2) ∧ named r ∧ pynum_isfinite r.2 = Some true.
Proof.
  unfold read_limit. destruct kv as [k v], r as [k' n]. split.
  - intros H. inv_ok. apply key_nonempty_ok in Hx.
    destruct v as [| |z|f| | | |]; try done;
      destruct (pynum_isfinite _) as [[]|] eqn:E in H; try done; by injection H as <- <-.
  - intros ([= -> ->] & Hn & Hz). rewrite (proj2 (key_nonempty_ok _ _)) by done.
    destruct n; cbn [of_num snd fst] in *; unfold mbind, res_bind; by rewrite Hz.
Qed.

Lemma mapM_res_Forall {A B} (f : A → res B) (g : B → A) (P : B → Prop) l xs :
  (∀ a b, f a = Ok b ↔ a = g b ∧ P b) → mapM_res f l = Ok xs ↔ l = map g xs ∧ Forall P xs.
Proof.
  intros Hf. rewrite mapM_res_ok. split.
  - induction 1 as [|a b l xs Hab H [IHl IHx]]; [done|].
    apply Hf in Hab as [-> ?]. subst. simpl. auto.
  - intros [-> H]. induction H; simpl; constructor; [by apply Hf|done].
Qed.

Lemma read_limits_ok kv r :
  read_limits kv = Ok r ↔ kv = (r.1, PDict (map (λ fl, (fl.1, of_num fl.2)) r.2)) ∧ named r ∧
    Forall (λ fl, named fl ∧ pynum_isfinite fl.2 = Some true) r.2.
Proof.
  assert (∀ l xs, mapM_res read_limit l = Ok xs ↔
    l = map (λ fl, (fl.1, of_num fl.2)) xs ∧
    Forall (λ fl, named fl ∧ pynum_isfinite fl.2 = Some true) xs) as Hm.
  { intros l xs. apply mapM_res_Forall. intros. apply read_limit_ok. }
  unfold read_limits. destruct kv as [k v], r as [k' fs]. split.
  - intros H. inv_ok. apply key_nonempty_ok in Hx. destruct v; simpl in *; try done.
    injection Hx0 as ->. apply Hm in Hx1 as [-> ?]. done.
  - intros ([= -> ->] & Hn & Hz). rewrite (proj2 (key_nonempty_ok _ _)) by done. simpl in *.
    by rewrite (proj2 (Hm _ fs)).
Qed.

Lemma read_sorted_ok what l xs :
  read_sorted what l = Ok xs ↔ l = map PStr xs ∧ Forall nonempty xs ∧ str_sorted xs = true.
Proof.
  unfold read_sorted. split.
  - intros H. inv_ok. apply str_items_ok in Hx as [-> ?]. breflect. done.
  - intros (-> & Hn & Hs). rewrite (proj2 (str_items_ok _ _ xs)) by done. simpl. by rewrite Hs.
Qed.

Lemma forallb_is_str xs : forallb is_str (map PStr xs) = true.
Proof. apply forallb_forall. by intros ? (? & <- & _)%in_map_iff. Qed.

Lemma map_py_str xs : map py_str (map PStr xs) = xs.
Proof. rewrite List.map_map. by rewrite (map_ext _ id), map_id. Qed.

Lemma read_required_context_ok l xs :
  read_required_context l = Ok xs ↔ l = map PStr xs ∧ Forall nonempty xs ∧ str_sorted xs = true.
Proof.
  unfold read_required_context. split.
  - intros H. inv_ok. destruct (forallb is_str l); [|done]. inv_ok. breflect.
    apply str_items_ok in H as [-> ?]. by rewrite map_py_str in Hx0.
  - intros (-> & Hn & Hs). rewrite forallb_is_str, map_py_str, Hs. simpl.
    replace (sort_error (map PStr xs)) with false.
    + simpl. by apply str_items_ok.
    + unfold sort_error. rewrite forallb_is_str. by destruct xs as [|? [|]].
Qed.

Lemma positive_int_ok e v z : positive_int e v = Ok z ↔ v = PInt z ∧ 0 < z.
Proof.
  unfold positive_int, unmodelled. split.
  - destruct v; simpl; repeat case_match; try done. intros [= ->]. breflect. done.
  - intros [-> Hz]. destruct (z <=? 0) eqn:E; breflect; [lia|done].
Qed.

Lemma policy_post_init_valid a p : policy_post_init a = Ok p → policy_valid p.
Proof.
  unfold policy_post_init. intros H.
  inv_bind.
  repeat match goal with
    | H : positive_int _ _ = Ok _ |- _ => apply positive_int_ok in H as [_ ?]
    | H : read_sorted _ _ = Ok _ |- _ => apply read_sorted_ok in H as [_ ?]
    | H : read_required_context _ = Ok _ |- _ => apply read_required_context_ok in H as [_ ?]
    | H : mapM_res (read_fields _) _ = Ok _ |- _ =>
        rewrite (mapM_res_Forall _ _ _ _ _ (read_fields_ok _)) in H; destruct H as [_ ?]
    | H : mapM_res read_sources _ = Ok _ |- _ =>
        rewrite (mapM_res_Forall _ _ _ _ _ read_sources_ok) in H; destruct H as [_ ?]
    | H : mapM_res read_exact _ = Ok _ |- _ =>
        rewrite (mapM_res_Forall _ _ _ _ _ read_exact_ok) in H; destruct H as [_ ?]
    | H : mapM_res (read_count _) _ = Ok _ |- _ =>
        rewrite (mapM_res_Forall _ _ _ _ _ (read_count_ok _)) in H; destruct H as [_ ?]
    | H : mapM_res read_limits _ = Ok _ |- _ =>
        rewrite (mapM_res_Forall _ _ _ _ _ read_limits_ok) in H; destruct H as [_ ?]
    end.
  split; simpl; try done.
  destruct (truthy (pa_policy_id a)) eqn:Ht; [|done].
  destruct (pa_policy_id a) as [| | | |s| | |]; try done.
  injection Hx as <-. unfold nonempty. by intros ->.
Qed.

Lemma policy_from_dict_valid v p : policy_from_dict v = Ok p → policy_valid p.
Proof.
  unfold policy_from_dict. intros H. destruct v as [| | | | | |d|]; try done.
  inv_bind.
  by apply policy_post_init_valid in H.
Qed.

(** ** What a stored policy reads back as *)

(** The policy with its dictionaries sorted by key. *)
Definition policy_norm (p : Policy) : Policy := {|
  policy_id := policy_id p; allowed_actions := allowed_actions p;
  required_fields := sort_by fst (required_fields p);
  exact_fields := map (λ kv, (kv.1, norm_entries kv.2)) (sort_by fst (exact_fields p));
  required_context := required_context p;
  exact_context := norm_entries (exact_context p);
  max_request_bytes := max_request_bytes p; max_ttl_seconds := max_ttl_seconds p;
  required_approvals := sort_by fst (required_approvals p);
  max_numeric_fields :=
    map (λ kv, (kv.1, sort_by fst kv.2)) (sort_by fst (max_numeric_fields p));
  required_mesh_inputs := sort_by fst (required_mesh_inputs p);
  required_mesh_sources := sort_by fst (required_mesh_sources p);
  mesh_required_actions := mesh_required_actions p;
  mesh_required_environments := mesh_required_environments p |}.

Lemma norm_of_strs l : norm (of_strs l) = of_strs l.
Proof. unfold of_strs; simpl. f_equal. rewrite List.map_map. by apply map_ext. Qed.

Lemma norm_of_num n : norm (of_num n) = of_num n.
Proof. by destruct n. Qed.

Lemma norm_sorted_dict {A} (f : A → pyval) d :
  norm (sorted_dict f d) = sorted_dict (λ x, norm (f x)) d.
Proof.
  unfold sorted_dict. rewrite norm_PDict, norm_entries_map.
  rewrite (sort_by_map fst fst (λ kv : string * A, (kv.1, f kv.2))) by done.
  by rewrite sort_by_idemp, List.map_map.
Qed.

Lemma sorted_dict_ext {A} (f g : A → pyval) d :
  (∀ x, f x = g x) → sorted_dict f d = sorted_dict g d.
Proof. intros H. unfold sorted_dict. f_equal. apply map_ext. intros x. by rewrite H. Qed.

Lemma norm_sorted_dict_id {A} (f : A → pyval) d :
  (∀ x, norm (f x) = f x) → norm (sorted_dict f d) = sorted_dict f d.
Proof. intros H. rewrite norm_sorted_dict. by apply sorted_dict_ext. Qed.

Ltac policy_options p :=
  destruct (max_numeric_fields p), (required_mesh_inputs p), (required_mesh_sources p),
    (mesh_required_actions p), (mesh_required_environments p); reflexivity.

Lemma policy_to_dict_keys p : NoDup (fst <$> policy_to_dict p).
Proof. apply str_nodup_spec. unfold policy_to_dict. policy_options p. Qed.

Lemma policy_to_dict_subset p :
  keys_subset (policy_to_dict p) (policy_required ++ policy_optional) = true.
Proof. unfold policy_to_dict. policy_options p. Qed.

Lemma policy_to_dict_superset p : keys_superset (policy_to_dict p) policy_required = true.
Proof. done. Qed.

(** The optional entries read as their value also when they are absent. *)
Lemma policy_to_dict_options p :
  dict_get_or "max_numeric_fields" (PDict []) (policy_to_dict p) =
    sorted_dict (sorted_dict of_num) (max_numeric_fields p) ∧
  dict_get_or "required_mesh_inputs" (PDict []) (policy_to_dict p) =
    sorted_dict PInt (required_mesh_inputs p) ∧
  dict_get_or "required_mesh_sources" (PDict []) (policy_to_dict p) =
    sorted_dict of_strs (required_mesh_sources p) ∧
  dict_get_or "mesh_required_actions" (PList []) (policy_to_dict p) =
    of_strs (mesh_required_actions p) ∧
  dict_get_or "mesh_required_environments" (PList []) (policy_to_dict p) =
    of_strs (mesh_required_environments p).
Proof. unfold policy_to_dict. split_and!; policy_options p. Qed.

(** Reading the printed dictionaries. *)
Lemma items_of_tuples_printed d :
  items_of_tuples (sorted_dict of_strs d) =
    Ok (map (λ kv, (kv.1, map PStr kv.2)) (sort_by fst d)).
Proof.
  unfold items_of_tuples, sorted_dict. simpl.
  induction (sort_by fst d) as [|[k l] d' IH]; simpl; [done|]. by rewrite IH.
Qed.

Lemma Forall_sort_by {A} (P : string * A → Prop) l : Forall P l → Forall P (sort_by fst l).
Proof. by rewrite sort_by_Permutation. Qed.

Lemma read_printed {A B} (f : string * A → res (string * B)) (g : B → A) (P : string * B → Prop) d :
  (∀ kv r, f kv = Ok r ↔ kv = (r.1, g r.2) ∧ P r) → Forall P d →
  mapM_res f (map (λ kv, (kv.1, g kv.2)) d) = Ok d.
Proof. intros Hf Hd. by apply (mapM_res_Forall _ _ _ _ _ Hf). Qed.

(** The constructor's arguments that a typed policy comes from. *)
Definition policy_args (q : Policy) : PolicyArgs := {|
  pa_policy_id := PStr (policy_id q);
  pa_allowed_actions := map PStr (allowed_actions q);
  pa_required_fields := map (λ kv, (kv.1, map PStr kv.2)) (required_fields q);
  pa_exact_fields := PDict (map (λ kv, (kv.1, PDict kv.2)) (exact_fields q));
  pa_required_context := map PStr (required_context q);
  pa_exact_context := PDict (exact_context q);
  pa_max_request_bytes := PInt (max_request_bytes q);
  pa_max_ttl_seconds := PInt (max_ttl_seconds q);
  pa_required_approvals := PDict (map (λ kv, (kv.1, PInt kv.2)) (required_approvals q));
  pa_max_numeric_fields := PDict (map (λ kv, (kv.1,
    PDict (map (λ fl, (fl.1, of_num fl.2)) kv.2))) (max_numeric_fields q));
  pa_required_mesh_inputs := PDict (map (λ kv, (kv.1, PInt kv.2)) (required_mesh_inputs q));
  pa_required_mesh_sources := map (λ kv, (kv.1, map PStr kv.2)) (required_mesh_sources q);
  pa_mesh_required_actions := map PStr (mesh_required_actions q);
  pa_mesh_required_environments := map PStr (mesh_required_environments q) |}.

Lemma policy_post_init_args q : policy_valid q → policy_post_init (policy_args q) = Ok q.
Proof.
  intros [Hid Hb Ht [Ha1 Ha2] [Hc1 Hc2] Hf He Hap Hl Hi Hs [Hm1 Hm2] [Hn1 Hn2]].
  unfold policy_post_init, policy_args.
  cbn [pa_policy_id pa_allowed_actions pa_required_fields pa_exact_fields pa_required_context
    pa_exact_context pa_max_request_bytes pa_max_ttl_seconds pa_required_approvals
    pa_max_numeric_fields pa_required_mesh_inputs pa_required_mesh_sources
    pa_mesh_required_actions pa_mesh_required_environments py_items truthy read_dict].
  replace (negb (policy_id q =? "")%string) with true
    by (symmetry; by apply negb_true_iff, String.eqb_neq).
  rewrite (proj2 (positive_int_ok _ (PInt (max_request_bytes q)) _)) by done.
  rewrite (proj2 (positive_int_ok _ (PInt (max_ttl_seconds q)) _)) by done.
  rewrite (proj2 (read_sorted_ok "allowed_actions" _ (allowed_actions q))) by done.
  rewrite (proj2 (read_required_context_ok _ (required_context q))) by done.
  rewrite (proj2 (read_sorted_ok "mesh_required_actions" _ (mesh_required_actions q))) by done.
  rewrite (proj2 (read_sorted_ok "mesh_required_environments" _ (mesh_required_environments q))) by done.
  unfold mbind, res_bind. rewrite (read_printed _ _ _ _ (read_fields_ok _) Hf). cbv beta iota.
  rewrite (read_printed _ _ _ _ read_exact_ok He). cbv beta iota.
  rewrite (read_printed _ _ _ _ (read_count_ok "required_approvals") Hap). cbv beta iota.
  rewrite (read_printed _ (λ l, PDict (map (λ fl, (fl.1, of_num fl.2)) l)) _ _ read_limits_ok Hl). cbv beta iota.
  rewrite (read_printed _ _ _ _ (read_count_ok "required_mesh_inputs") Hi). cbv beta iota.
  rewrite (read_printed _ _ _ _ read_sources_ok Hs).
  by destruct q.
Qed.

Lemma policy_norm_valid p : policy_valid p → policy_valid (policy_norm p).
Proof.
  intros []. split; simpl; try done; try by apply Forall_sort_by.
  - apply Forall_map. by apply Forall_sort_by.
  - apply Forall_map, Forall_sort_by. eapply Forall_impl; [exact pv_limits0|].
    intros kv [? ?]. split; [done|]. by apply Forall_sort_by.
Qed.

Lemma policy_read_back p :
  policy_valid p → policy_from_dict (norm (PDict (policy_to_dict p))) = Ok (policy_norm p).
Proof.
  intros Hv. rewrite norm_PDict. unfold policy_from_dict.
  pose proof (policy_to_dict_keys p) as Hnd.
  destruct (policy_to_dict_options p) as (Ho1 & Ho2 & Ho3 & Ho4 & Ho5).
  rewrite keys_subset_norm_entries, policy_to_dict_subset.
  rewrite keys_superset_norm_entries, policy_to_dict_superset by done.
  rewrite !dict_get_norm_entries, !dict_get_or_norm_entries, Ho1, Ho2, Ho3, Ho4, Ho5 by done.
  rewrite <-(policy_post_init_args (policy_norm p)) by by apply policy_norm_valid.
  change (dict_get "allowed_actions" (policy_to_dict p)) with (of_strs (allowed_actions p)).
  change (dict_get "required_fields" (policy_to_dict p)) with
    (sorted_dict of_strs (required_fields p)).
  change (dict_get "required_context" (policy_to_dict p)) with (of_strs (required_context p)).
  change (dict_get "exact_fields" (policy_to_dict p)) with (sorted_dict PDict (exact_fields p)).
  change (dict_get_or "required_approvals" (PDict []) (policy_to_dict p)) with
    (sorted_dict PInt (required_approvals p)).
  rewrite !norm_of_strs, !(norm_sorted_dict_id of_strs), !items_of_tuples_printed by apply norm_of_strs.
  rewrite !(norm_sorted_dict_id PInt) by done.
  rewrite (norm_sorted_dict_id (sorted_dict of_num))
    by (intros; apply norm_sorted_dict_id, norm_of_num).
  rewrite norm_sorted_dict.
  cbn [negb fail_if mbind res_bind py_tuple of_strs]. f_equal.
  unfold policy_args, policy_norm, sorted_dict. simpl. f_equal; by rewrite List.map_map.
Qed.

Lemma sorted_dict_map {A B} (f : B → pyval) (g : A → B) d :
  sorted_dict f (map (λ kv, (kv.1, g kv.2)) (sort_by fst d)) = sorted_dict (λ x, f (g x)) d.
Proof.
  unfold sorted_dict. rewrite (sort_by_map fst fst (λ kv : string * A, (kv.1, g kv.2))) by done.
  by rewrite sort_by_idemp, List.map_map.
Qed.

Lemma sorted_dict_sort {A} (f : A → pyval) d : sorted_dict f (sort_by fst d) = sorted_dict f d.
Proof. unfold sorted_dict. by rewrite sort_by_idemp. Qed.

Lemma if_nonempty_length {A B} k (l : list A) (m : list B) v :
  length l = length m → if_nonempty k l v = if_nonempty k m v.
Proof. by destruct l, m. Qed.

(** The stored form determines the policy's dictionary up to entry order. *)
Lemma policy_norm_to_dict p :
  norm (PDict (policy_to_dict (policy_norm p))) = norm (PDict (policy_to_dict p)).
Proof.
  rewrite !norm_PDict. unfold norm_entries. do 2 f_equal.
  unfold policy_to_dict, policy_norm.
  cbn [policy_id allowed_actions required_fields
    exact_fields required_context exact_context max_request_bytes max_ttl_seconds
    required_approvals max_numeric_fields required_mesh_inputs required_mesh_sources
    mesh_required_actions mesh_required_environments].
  rewrite !sorted_dict_sort, !sorted_dict_map.
  rewrite (sorted_dict_ext (λ x, sorted_dict of_num (sort_by fst x)) (sorted_dict of_num))
    by (intros; apply sorted_dict_sort).
  rewrite (if_nonempty_length _ (map _ _) (max_numeric_fields p))
    by (rewrite length_map; apply sort_by_length).
  rewrite !(if_nonempty_length _ (sort_by fst _) _ _ (sort_by_length fst _)).
  cbn [map app fst snd]. do 4 f_equal; [|do 2 f_equal].
  - f_equal. rewrite !norm_sorted_dict. apply sorted_dict_ext.
    intros d. rewrite <-norm_PDict. apply norm_idemp.
  - f_equal. rewrite <-norm_PDict. apply norm_idemp.
Qed.

Lemma policy_norm_serializable p :
  serializable (PDict (policy_to_dict (policy_norm p))) = serializable (PDict (policy_to_dict p)).
Proof. by rewrite <-(serializable_norm (PDict (policy_to_dict (policy_norm p)))), policy_norm_to_dict,
  serializable_norm. Qed.

Lemma policy_digest_norm p : policy_digest (policy_norm p) = policy_digest p.
Proof.
  unfold policy_digest, canonical_digest, canonical_json, json_dumps.
  rewrite policy_norm_serializable.
  by rewrite <-(json_text_norm _ (PDict (policy_to_dict (policy_norm p)))), policy_norm_to_dict,
    json_text_norm.
Qed.

(** * Properties *)

(** A stored policy is the policy: what the canonical text of a valid
    policy reads back as is a valid policy with the same digest, and the
    parser never yields an invalid one. *)
Lemma policy_roundtrip (p : Policy) (text : string) :
  policy_valid p → json_safe canonical_style (PDict (policy_to_dict p)) = true →
  wf (PDict (policy_to_dict p)) = true → canonical_json (PDict (policy_to_dict p)) = Ok text →
  ∃ q, (v ← json_loads text; policy_from_dict v) = Ok q ∧ policy_valid q ∧
       policy_digest q = policy_digest p.
Proof.
  intros Hv Hs Hw Ht. exists (policy_norm p).
  rewrite (json_loads_dumps canonical_style _ _ Hs Hw Ht).
  unfold mbind, res_bind.
  rewrite policy_read_back by done. split; [done|]. split; [by apply policy_norm_valid|].
  apply policy_digest_norm.
Qed.

Definition sample_policy : Policy := {|
  policy_id := "deploy"; allowed_actions := ["deploy.apply"; "deploy.plan"];
  required_fields := [("deploy.plan", ["target"]); ("deploy.apply", ["target"; "change_id"])];
  exact_fields := [("deploy.apply", [("region", PStr "eu-west-1"); ("dry_run", PBool false)])];
  required_context := ["environment"]; exact_context := [("environment", PStr "prod")];
  max_request_bytes := 4096; max_ttl_seconds := 60; required_approvals := [("deploy.apply", 2)];
  max_numeric_fields := [("deploy.apply", [("replicas", NInt 10)])];
  required_mesh_inputs := [("deploy.apply", 1)]; required_mesh_sources := [];
  mesh_required_actions := ["deploy.apply"]; mesh_required_environments := ["prod"] |}.

Lemma policy_roundtrip_witness :
  ∃ q, (v ← json_loads (json_text canonical_style (PDict (policy_to_dict sample_policy)));
        policy_from_dict v) = Ok q ∧ policy_valid q ∧
       policy_digest q = policy_digest sample_policy.
Proof.
  apply (policy_roundtrip sample_policy); [|reflexivity..].
  split; repeat constructor; discriminate.
Defined.
