(* ===== verification/Arbiter.v ===== *)
(** policy.py, second half: [DeterministicArbiter], the decision function.

    [decide] returns the decision dictionary of the code, field by field, or
    the exception the code raises (a request that is not JSON, an unhashable
    action, an integer beyond the doubles under a numeric limit).  The file
    proves that a decision allows exactly the requests that satisfy every
    constraint of the policy, and what the approval quorum counts. *)

From S2P Require Import Prelude PyFloat PyVal Json Sha256 Base64 Crypto Trust Models Policy.

Section Arbiter.
Context `{C : Crypto}.

(** [issuer_keys] and [trust_store]; at most one is given. *)
Record DeterministicArbiter := {
  arb_issuer_keys : list (string * PublicKey);
  arb_trust_store : option TrustStore
}.

Definition arbiter_init (issuer_keys : option (list (string * PublicKey)))
    (trust_store : option TrustStore) : res DeterministicArbiter :=
  match issuer_keys, trust_store with
  | Some _, Some _ => Raise (ValueError "provide either issuer_keys or trust_store, not both")
  | _, _ => Ok {| arb_issuer_keys := match issuer_keys with Some k => k | None => [] end;
                  arb_trust_store := trust_store |}
  end.

Definition resolve_public_key (A : DeterministicArbiter) (key_id : string) : option PublicKey :=
  match arb_trust_store A with
  | Some t => trust_resolve t key_id
  | None => assoc_get key_id (arb_issuer_keys A)
  end.

(** ** The approval quorum *)

(** An approval of the list counts: it parses, its key resolves, its
    signature verifies and it matches the request. *)
Definition approval_counts (A : DeterministicArbiter) (request : pydict) (approval : pyval)
    : res (option string) :=
  match approval with
  | PDict d =>
      if assoc_has "issuer_key_id" d && assoc_has "signature" d then
        match approval_from_dict (PDict d) with
        | Raise _ => Ok None
        | Ok candidate =>
            match resolve_public_key A (sa_issuer_key_id candidate) with
            | None => Ok None
            | Some public_key =>
                verified ← approval_verify candidate public_key;
                if negb verified then Ok None else
                matches ← approval_matches_request candidate (PDict request) None;
                Ok (if matches : bool then Some (sa_issuer_key_id candidate) else None)
            end
        end
      else Ok None
  | _ => Ok None
  end.

(** The set [approvers], in order of insertion. *)
Fixpoint collect_approvers (A : DeterministicArbiter) (request : pydict) (approvals : list pyval)
    (approvers : list string) : res (list string) :=
  match approvals with
  | [] => Ok approvers
  | a :: rest =>
      counted ← approval_counts A request a;
      collect_approvers A request rest
        (match counted with
         | Some k => if str_in k approvers then approvers else approvers ++ [k]
         | None => approvers
         end)
  end.

(** The first integer under [approval_count] or [approvals_count]. *)
Definition stated_count (container : pydict) : option Z :=
  match strict_int (dict_get "approval_count" container) with
  | Some z => Some z
  | None => strict_int (dict_get "approvals_count" container)
  end.

Fixpoint count_containers (A : DeterministicArbiter) (request : pydict)
    (containers : list pydict) (approvers : list string) : res Z :=
  match containers with
  | [] => Ok (Z.of_nat (length approvers))
  | container :: rest =>
      match stated_count container with
      | Some z => Ok z
      | None =>
          match dict_get "approvals" container with
          | PList approvals =>
              approvers ← collect_approvers A request approvals approvers;
              count_containers A request rest approvers
          | _ => count_containers A request rest approvers
          end
      end
  end.

Definition approval_count (A : DeterministicArbiter) (request context : pydict) : res Z :=
  count_containers A request [request; context] [].

(** ** [decide] *)

(** Pairs of a reason and its code. *)
Abbreviation reasons := (list (string * string)).

(** [d.get(action, default)]: a list or a dictionary is unhashable. *)
Definition by_action {T} (action : pyval) (d : list (string * T)) (default : T) : res T :=
  if hashable action then
    match action with
    | PStr a => Ok (match assoc_get a d with Some x => x | None => default end)
    | _ => Ok default
    end
  else Raise (TypeError "unhashable type").

Definition missing_fields (request : pydict) (fields : list string) : reasons :=
  flat_map (λ f, if assoc_has f request then [] else
    [("required field is missing: " +:+ f, "required_field_missing")]) fields.

Definition mismatched_fields (request : pydict) (fields : pydict) : reasons :=
  flat_map (λ fe, if py_eqb (dict_get fe.1 request) fe.2 then [] else
    [("field does not match policy: " +:+ fe.1, "field_mismatch")]) fields.

(** One numeric limit: [None] is [OverflowError] from [math.isfinite]. *)
Definition within_limit (value : pyval) (maximum : pynum) : option bool :=
  match value with
  | PInt z =>
      match pynum_isfinite (NInt z) with
      | None => None
      | Some _ => Some (negb (pynum_gtb (NInt z) maximum))
      end
  | PFloat f => Some (float_isfinite f && negb (pynum_gtb (NFloat f) maximum))
  | _ => Some false
  end.

Fixpoint exceeded_limits (request : pydict) (limits : list (string * pynum)) : res reasons :=
  match limits with
  | [] => Ok []
  | (f, maximum) :: rest =>
      match within_limit (dict_get f request) maximum with
      | None => Raise (OverflowError "int too large to convert to float")
      | Some ok =>
          tail ← exceeded_limits request rest;
          Ok ((if ok : bool then [] else
               [("numeric field exceeds policy maximum: " +:+ f, "numeric_limit_exceeded")]) ++ tail)
      end
  end.

Definition missing_context (context : pydict) (names : list string) : reasons :=
  flat_map (λ n, if assoc_has n context then [] else
    [("required context is missing: " +:+ n, "required_context_missing")]) names.

Definition mismatched_context (context expected : pydict) : reasons :=
  flat_map (λ ne, if py_eqb (dict_get ne.1 context) ne.2 then [] else
    [("context does not match policy: " +:+ ne.1, "context_mismatch")]) expected.

Definition quorum_reasons (A : DeterministicArbiter) (request context : pydict) (action : pyval)
    (required : Z) : res reasons :=
  if 0 <? required then
    count ← approval_count A request context;
    Ok (if count <? required then
          [("approval quorum not met for action " +:+ py_str action +:+ ": " +:+
            string_of_Z count +:+ " < " +:+ string_of_Z required, "approval_quorum_not_met")]
        else [])
  else Ok [].

Definition action_allowed (action : pyval) (p : Policy) : bool :=
  match action with PStr a => str_in a (allowed_actions p) | _ => false end.

(** [request.get("context", {})], [None] when it is not an object. *)
Definition request_context (request : pydict) : option pydict :=
  match dict_get_or "context" (PDict []) request with PDict c => Some c | _ => None end.

Definition decision_dict (p : Policy) (allow : bool) (digest : string) (rs : reasons)
    (request_bytes : string) : pydict :=
  [("allow", PBool allow);
   ("allowed_actions", of_strs (allowed_actions p));
   ("policy", PStr (policy_id p));
   ("policy_digest", PStr digest);
   ("reasons", of_strs (map fst rs));
   ("reason_codes", of_strs (map snd rs));
   ("request_digest", PStr (sha256_hex request_bytes))].

(** Every reason for a denial, in the order the code appends them. *)
Definition decide_reasons (A : DeterministicArbiter) (request : pydict) (p : Policy)
    (request_bytes : string) : res reasons :=
  let action := dict_get "action" request in
  let size := if max_request_bytes p <? Z.of_nat (String.length request_bytes) then
                [("request exceeds policy size limit", "request_too_large")] else [] in
  let '(bad_context, context) :=
    match request_context request with
    | Some c => ([], c)
    | None => ([("context must be an object", "invalid_context")], [])
    end in
  let not_allowed := if action_allowed action p then [] else
    [("action is not allowed by policy", "action_not_allowed")] in
  fields ← by_action action (required_fields p) [];
  exact ← by_action action (exact_fields p) [];
  limits ← by_action action (max_numeric_fields p) [];
  exceeded ← exceeded_limits request limits;
  required ← by_action action (required_approvals p) 0;
  quorum ← quorum_reasons A request context action required;
  Ok (size ++ bad_context ++ not_allowed ++ missing_fields request fields ++
      mismatched_fields request exact ++ exceeded ++
      missing_context context (required_context p) ++
      mismatched_context context (exact_context p) ++ quorum).

Definition decide (A : DeterministicArbiter) (request : pydict) (p : Policy) : res pydict :=
  request_bytes ← canonical_json (PDict request);
  rs ← decide_reasons A request p request_bytes;
  digest ← policy_digest p;
  Ok (decision_dict p (action_allowed (dict_get "action" request) p && match rs with [] => true | _ => false end)
        digest rs request_bytes).

(** ** What a decision means *)

(** Key [k] vouches for the request: the list holds an approval that parses,
    names [k], verifies under the live key of [k] and matches the request. *)
Definition vouches (A : DeterministicArbiter) (request : pydict) (approvals : list pyval)
    (k : string) : Prop :=
  ∃ a candidate pk, a ∈ approvals ∧ approval_from_dict a = Ok candidate ∧
    sa_issuer_key_id candidate = k ∧ resolve_public_key A k = Some pk ∧
    approval_verify candidate pk = Ok true ∧
    approval_matches_request candidate (PDict request) None = Ok true.

Definition list_of (v : pyval) : list pyval := match v with PList l => l | _ => [] end.

(** The quorum as documented: [n] distinct keys vouch, by the approvals that the
    request or its context carries. *)
Definition signed_quorum (A : DeterministicArbiter) (request context : pydict) (n : Z) : Prop :=
  ∃ signers, NoDup signers ∧ n ≤ Z.of_nat (length signers) ∧
    ∀ k, k ∈ signers → vouches A request (list_of (dict_get "approvals" request) ++
                                          list_of (dict_get "approvals" context)) k.

(** A count that the request or its context states as a bare integer. *)
Definition stated_in (request context : pydict) : option Z :=
  match stated_count request with Some z => Some z | None => stated_count context end.

(** The quorum as the code has it: where a bare count is stated it is taken as
    it is, and nothing is verified. *)
Definition quorum_met (A : DeterministicArbiter) (request context : pydict) (n : Z) : Prop :=
  match stated_in request context with
  | Some z => n ≤ z
  | None => signed_quorum A request context n
  end.

(** The constraints of [p] hold for [request]; [quorum] says when enough approve,
    [signed_quorum] as documented or [quorum_met] as the code counts. *)
Record satisfies_with (quorum : pydict → Z → Prop) (request : pydict) (p : Policy)
    (action : string) (context : pydict) (request_bytes : string) : Prop := {
  sat_size : Z.of_nat (String.length request_bytes) ≤ max_request_bytes p;
  sat_context : request_context request = Some context;
  sat_action : dict_get "action" request = PStr action;
  sat_allowed : action ∈ allowed_actions p;
  sat_fields : ∀ f, f ∈ default [] (assoc_get action (required_fields p)) →
    assoc_has f request = true;
  sat_exact : ∀ fe, fe ∈ default [] (assoc_get action (exact_fields p)) →
    py_eqb (dict_get fe.1 request) fe.2 = true;
  sat_limits : ∀ fm, fm ∈ default [] (assoc_get action (max_numeric_fields p)) →
    within_limit (dict_get fm.1 request) fm.2 = Some true;
  sat_required_context : ∀ n, n ∈ required_context p → assoc_has n context = true;
  sat_exact_context : ∀ ne, ne ∈ exact_context p → py_eqb (dict_get ne.1 context) ne.2 = true;
  sat_quorum : ∀ n, assoc_get action (required_approvals p) = Some n → 0 < n → quorum context n
}.

(** The request states no count, in itself or in its context. *)
Definition no_stated_count (request : pydict) : Prop :=
  stated_count request = None ∧ ∀ context, request_context request = Some context → stated_count context = None.

(** ** What the quorum counts *)

Lemma vouches_mono A request l1 l2 k :
  (∀ a, a ∈ l1 → a ∈ l2) → vouches A request l1 k → vouches A request l2 k.
Proof. intros Hl (a & c & pk & Ha & H). exists a, c, pk. auto. Qed.

Lemma signed_quorum_le A request context n m :
  n ≤ m → signed_quorum A request context m → signed_quorum A request context n.
Proof. intros Hn (ks & ? & ? & ?). exists ks. split_and!; [done|lia|done]. Qed.

Lemma approval_counts_some A request a k :
  approval_counts A request a = Ok (Some k) → vouches A request [a] k.
Proof.
  unfold approval_counts. destruct a as [| | | | | |d|]; try done.
  destruct (_ && _); [|done].
  destruct (approval_from_dict _) as [c|] eqn:Hp; [|done].
  destruct (resolve_public_key _ _) as [pk|] eqn:Hr; [|done]. intros H. inv_ok.
  destruct x; simpl in H; [|done]. inv_ok. destruct x; [|done].
  injection H as <-. exists (PDict d), c, pk. split_and!; try done. by left.
Qed.

Lemma approval_from_dict_keys d c :
  approval_from_dict (PDict d) = Ok c → assoc_has "issuer_key_id" d && assoc_has "signature" d = true.
Proof.
  unfold approval_from_dict. intros H. apply res_bind_ok in H as (? & _ & H).
  apply res_bind_ok in H as (? & Hk & _). apply fail_if_ok in Hk.
  breflect. unfold keys_superset in Hk. rewrite forallb_forall in Hk. by rewrite !Hk by (simpl; tauto).
Qed.

Lemma approval_counts_complete A request a k r :
  approval_counts A request a = Ok r → vouches A request [a] k → r = Some k.
Proof.
  intros H (a' & c & pk & ->%list_elem_of_singleton & Hp & <- & Hr & Hv & Hm). unfold approval_counts in H.
  destruct a as [| | | | | |d|]; try done. rewrite (approval_from_dict_keys _ _ Hp), Hp, Hr, Hv in H.
  unfold mbind, res_bind in H. simpl in H. rewrite Hm in H. by injection H as <-.
Qed.

Lemma add_approver_NoDup k acc : NoDup acc → NoDup (if str_in k acc then acc else acc ++ [k]).
Proof.
  intros Hnd. destruct (str_in k acc) eqn:E; [done|].
  apply NoDup_app. split; [done|]. split; [|apply NoDup_singleton].
  intros y Hy ->%list_elem_of_singleton. by rewrite (proj2 (str_in_spec _ _) Hy) in E.
Qed.

Lemma collect_approvers_spec A request approvals acc ks :
  collect_approvers A request approvals acc = Ok ks → NoDup acc →
  NoDup ks ∧ ∀ k, k ∈ ks → k ∈ acc ∨ vouches A request approvals k.
Proof.
  revert acc. induction approvals as [|a approvals IH]; intros acc H Hnd; simpl in H.
  { inv_ok. auto. }
  inv_ok. apply IH in H as [Hks Hin].
  - split; [done|]. intros k Hk. apply Hin in Hk as [Hk|Hk].
    + destruct x as [k'|]; [|by left]. destruct (str_in k' acc); [by left|].
      apply elem_of_app in Hk as [?| ->%list_elem_of_singleton]; [by left|]. right.
      eapply vouches_mono; [|by apply approval_counts_some]. set_solver.
    + right. eapply vouches_mono; [|done]. set_solver.
  - destruct x; [by apply add_approver_NoDup|done].
Qed.

Lemma collect_approvers_complete A request approvals acc ks :
  collect_approvers A request approvals acc = Ok ks →
  ∀ k, k ∈ acc ∨ vouches A request approvals k → k ∈ ks.
Proof.
  revert acc. induction approvals as [|a approvals IH]; intros acc H k Hk; simpl in H.
  { inv_ok. destruct Hk as [?|(a & c & pk & Ha & _)]; [done|by apply elem_of_nil in Ha]. }
  inv_ok. apply (IH _ H). destruct Hk as [Hk|(a' & c & pk & Ha & Hv)].
  - left. destruct x as [k'|]; [|done]. destruct (str_in k' acc); [done|]. set_solver.
  - apply elem_of_cons in Ha as [->|Ha]; [left|right; by exists a', c, pk].
    assert (x = Some k) as -> by (eapply approval_counts_complete; [done|]; exists a, c, pk; split; [by left|done]).
    destruct (str_in k acc) eqn:E; [by apply str_in_spec|]. set_solver.
Qed.

Lemma count_containers_complete A request cs acc n :
  Forall (λ c, stated_count c = None) cs → count_containers A request cs acc = Ok n →
  ∀ ks, NoDup ks → (∀ k, k ∈ ks → k ∈ acc ∨
    vouches A request (flat_map (λ c, list_of (dict_get "approvals" c)) cs) k) →
  Z.of_nat (length ks) ≤ n.
Proof.
  intros Hcs. revert acc. induction Hcs as [|c cs Hc Hcs IH]; intros acc H ks Hnd Hks;
    cbn [count_containers flat_map] in *.
  { injection H as <-. apply inj_le. apply submseteq_length, NoDup_submseteq; [done|].
    intros k Hk. destruct (Hks k Hk) as [?|(a & ? & ? & Ha & _)]; [done|by apply elem_of_nil in Ha]. }
  rewrite Hc in H.
  assert (∀ k l m, vouches A request (l ++ m) k → vouches A request l k ∨ vouches A request m k) as Hsplit.
  { intros k l m (a & x & pk & [Ha|Ha]%elem_of_app & Hv); [left|right]; by exists a, x, pk. }
  assert (∀ l, dict_get "approvals" c = l → (∀ m, l ≠ PList m) → count_containers A request cs acc = Ok n →
            Z.of_nat (length ks) ≤ n) as Hother.
  { intros l Hl Hno H'. apply (IH acc H' ks Hnd). intros k Hk. destruct (Hks k Hk) as [?|Hv]; [by left|].
    destruct (Hsplit _ _ _ Hv) as [(a & ? & ? & Ha & _)|?]; [|by right].
    rewrite Hl in Ha. destruct l; by apply elem_of_nil in Ha || (by destruct (Hno l)). }
  destruct (dict_get "approvals" c) as [| | | | |l| |] eqn:El; try (by eapply Hother; [reflexivity|done|done]).
  apply res_bind_ok in H as (acc' & Ha & H). apply (IH acc' H ks Hnd). intros k Hk.
  destruct (Hks k Hk) as [?|Hv]; [left; by apply (collect_approvers_complete _ _ _ _ _ Ha); left|].
  destruct (Hsplit _ _ _ Hv) as [?|?]; [left; apply (collect_approvers_complete _ _ _ _ _ Ha); by right|by right].
Qed.

Lemma count_containers_spec A request cs acc n :
  Forall (λ c, stated_count c = None) cs → NoDup acc →
  count_containers A request cs acc = Ok n →
  ∃ ks, NoDup ks ∧ n = Z.of_nat (length ks) ∧
    ∀ k, k ∈ ks → k ∈ acc ∨
      vouches A request (flat_map (λ c, list_of (dict_get "approvals" c)) cs) k.
Proof.
  intros Hcs. revert acc. induction Hcs as [|c cs Hc Hcs IH]; intros acc Hnd H;
    cbn [count_containers flat_map] in *.
  { inv_ok. exists acc. auto. }
  rewrite Hc in H.
  assert (∀ acc', NoDup acc' →
    (∀ k, k ∈ acc' → k ∈ acc ∨ vouches A request (list_of (dict_get "approvals" c)) k) →
    count_containers A request cs acc' = Ok n →
    ∃ ks, NoDup ks ∧ n = Z.of_nat (length ks) ∧ ∀ k, k ∈ ks → k ∈ acc ∨
      vouches A request (list_of (dict_get "approvals" c) ++
        flat_map (λ c, list_of (dict_get "approvals" c)) cs) k) as Hstep.
  { intros acc' Hnd' Hacc' H'. destruct (IH acc' Hnd' H') as (ks & ? & ? & Hks).
    exists ks. split; [done|]. split; [done|]. intros k Hk.
    destruct (Hks k Hk) as [[?|Hv]%Hacc'|Hv]; [by left| |];
      right; (eapply vouches_mono; [|exact Hv]); set_solver. }
  destruct (dict_get "approvals" c) as [| | | | |l| |]; inv_ok; try (by apply (Hstep acc); auto).
  apply collect_approvers_spec in Hx as [Hnd' Hin]; [|done].
  exact (Hstep x Hnd' Hin H).
Qed.

Lemma approval_count_spec A request context n :
  stated_count request = None → stated_count context = None →
  approval_count A request context = Ok n →
  ∃ ks, NoDup ks ∧ n = Z.of_nat (length ks) ∧
    ∀ k, k ∈ ks → vouches A request (list_of (dict_get "approvals" request) ++
                                     list_of (dict_get "approvals" context)) k.
Proof.
  intros Hr Hc H. apply count_containers_spec in H as (ks & ? & ? & Hks);
    [|by repeat constructor|constructor].
  exists ks. split_and!; try done. intros k Hk. destruct (Hks k Hk) as [?|Hv]; [set_solver|].
  simpl in Hv. by rewrite app_nil_r in Hv.
Qed.

(** The count meets a quorum exactly when enough keys vouch, or one is stated. *)
Lemma approval_count_quorum A request context count n :
  approval_count A request context = Ok count → n ≤ count ↔ quorum_met A request context n.
Proof.
  intros H. unfold quorum_met, stated_in.
  destruct (stated_count request) as [z|] eqn:Hr.
  { unfold approval_count in H. cbn [count_containers] in H. rewrite Hr in H. by injection H as <-. }
  destruct (stated_count context) as [z|] eqn:Hc.
  { unfold approval_count in H. cbn [count_containers] in H. rewrite Hr, Hc in H.
    destruct (dict_get "approvals" request); inv_ok; done. }
  split.
  - intros Hn. destruct (approval_count_spec _ _ _ _ Hr Hc H) as (ks & Hnd & -> & Hks). by exists ks.
  - intros (ks & Hnd & Hn & Hks). etransitivity; [exact Hn|].
    eapply (count_containers_complete A request [request; context] []); [by repeat constructor|exact H|done|].
    intros k Hk. right. simpl. rewrite app_nil_r. by apply Hks.
Qed.

Lemma res_bind_ext {A B} (m : res A) (f g : A → res B) : (∀ x, f x = g x) → m ≫= f = m ≫= g.
Proof. intros H. destruct m; cbn; auto. Qed.

(** Arbiters that resolve every key alike decide alike. *)
Lemma decide_ext A A' request p :
  (∀ k, resolve_public_key A k = resolve_public_key A' k) → decide A request p = decide A' request p.
Proof.
  intros HA.
  assert (∀ a, approval_counts A request a = approval_counts A' request a) as H1.
  { intros a. unfold approval_counts. destruct a; try done. destruct (_ && _); [|done].
    destruct (approval_from_dict _); [by rewrite HA|done]. }
  assert (∀ l acc, collect_approvers A request l acc = collect_approvers A' request l acc) as H2.
  { intros l. induction l as [|a l IH]; intros acc; cbn [collect_approvers]; [done|]. rewrite H1.
    by destruct (approval_counts _ _ _); cbn. }
  assert (∀ cs acc, count_containers A request cs acc = count_containers A' request cs acc) as H3.
  { intros cs. induction cs as [|c cs IH]; intros acc; cbn [count_containers]; [done|].
    destruct (stated_count c); [done|]. destruct (dict_get "approvals" c); try apply IH. rewrite H2.
    by destruct (collect_approvers _ _ _ _); cbn. }
  assert (∀ c action n, quorum_reasons A request c action n = quorum_reasons A' request c action n) as H4.
  { intros c action n. unfold quorum_reasons, approval_count. by rewrite H3. }
  assert (∀ bytes, decide_reasons A request p bytes = decide_reasons A' request p bytes) as H5.
  { intros bytes. unfold decide_reasons. destruct (request_context request); cbv zeta;
      repeat (apply res_bind_ext; intros ?); by rewrite H4. }
  unfold decide. apply res_bind_ext. intros bytes. by rewrite H5.
Qed.

Lemma exceeded_limits_nil request limits rs :
  exceeded_limits request limits = Ok rs →
  rs = [] ↔ ∀ fm, fm ∈ limits → within_limit (dict_get fm.1 request) fm.2 = Some true.
Proof.
  revert rs. induction limits as [|[f m] limits IH]; intros rs; cbn [exceeded_limits].
  - intros [= <-]. set_solver.
  - destruct (within_limit _ _) as [ok|] eqn:Hw; [|done]. intros H. inv_ok.
    rewrite app_nil, if_nil, (IH x Hx). set_unfold. split.
    + intros [-> H] fm [-> |?]; [done|auto].
    + intros H. split; [|by auto]. specialize (H (f, m) (or_introl eq_refl)). simpl in H. congruence.
Qed.

Lemma quorum_reasons_nil A request context action n rs :
  quorum_reasons A request context action n = Ok rs → rs = [] ↔ (0 < n → quorum_met A request context n).
Proof.
  unfold quorum_reasons. destruct (0 <? n) eqn:Hn; intros H; inv_ok; breflect.
  - pose proof (approval_count_quorum A request context x n Hx) as Hq.
    destruct (x <? n) eqn:Hc; breflect; split; try done.
    + intros H. apply H, Hq in Hn. lia.
    + intros _ _. apply Hq. lia.
  - split; [lia|done].
Qed.

Lemma by_action_str {T} a (d : list (string * T)) x0 : by_action (PStr a) d x0 = Ok (default x0 (assoc_get a d)).
Proof. unfold by_action. simpl. by destruct (assoc_get a d). Qed.

Lemma size_nil (b n : Z) x :
  (if b <? n then [x] else [] : list (string * string)) = [] ↔ n ≤ b.
Proof. destruct (b <? n) eqn:E; breflect; split; (done || lia). Qed.

(** No reason is given exactly when every constraint holds. *)
Lemma decide_reasons_nil A request p bytes rs :
  decide_reasons A request p bytes = Ok rs →
  rs = [] ↔ ∃ action context, satisfies_with (quorum_met A request) request p action context bytes.
Proof.
  unfold decide_reasons. intros H.
  destruct (request_context request) as [context|] eqn:Hctx; cycle 1.
  { inv_ok. rewrite !app_nil. split; [naive_solver|]. intros (a & c & []). congruence. }
  inv_ok. rewrite !app_nil, if_nil.
  destruct (dict_get "action" request) as [| | | |action| | |] eqn:Ha;
    try (split; [naive_solver|]; intros (a & c & []); congruence).
  rewrite !by_action_str in *. inv_ok.
  unfold missing_fields, mismatched_fields, missing_context, mismatched_context.
  rewrite !flat_map_nil. rewrite (exceeded_limits_nil request _ _ Hx2).
  rewrite (quorum_reasons_nil _ _ _ _ _ _ Hx4).
  unfold action_allowed. rewrite str_in_spec. split.
  - intros (Hsz & Hal & Hf & He & Hl & Hrc & Hec & Hq). exists action, context.
    split; try done.
    + revert Hsz. destruct (_ <? _) eqn:E; [done|]. breflect. lia.
    + intros n Hn Hpos. rewrite Hn in Hq. by apply Hq.
  - intros (a & c & []). assert (a = action) as -> by congruence.
    assert (c = context) as -> by congruence. repeat split; try done.
    + destruct (_ <? _) eqn:E; [|done]. breflect. lia.
    + intros Hpos. destruct (assoc_get action (required_approvals p)) as [n|] eqn:Hn; [|simpl in *; lia].
      by eapply sat_quorum0.
Qed.

Lemma decide_ok A request p d :
  decide A request p = Ok d →
  ∃ bytes rs digest,
    canonical_json (PDict request) = Ok bytes ∧ decide_reasons A request p bytes = Ok rs ∧
    policy_digest p = Ok digest ∧
    d = decision_dict p (match rs with [] => true | _ => false end) digest rs bytes.
Proof.
  unfold decide. intros H. inv_ok. exists x, x0, x1. split_and!; try done.
  f_equal. destruct x0 as [|r rs]; [|apply andb_false_r].
  destruct (decide_reasons_nil A request p x [] Hx0) as [Hsat _].
  destruct Hsat as (a & c & Hs); [done|]. rewrite (sat_action _ _ _ _ _ _ Hs). simpl.
  rewrite andb_true_r. apply str_in_spec, Hs.
Qed.

(** A decision allows exactly what satisfies the policy. *)
Lemma decide_allows A request p d :
  decide A request p = Ok d →
  dict_get "allow" d = PBool true ↔
  ∃ action context bytes, canonical_json (PDict request) = Ok bytes ∧
    satisfies_with (quorum_met A request) request p action context bytes.
Proof.
  intros H. apply decide_ok in H as (bytes & rs & digest & Hb & Hrs & _ & ->).
  pose proof (decide_reasons_nil A request p bytes rs Hrs) as Hiff. unfold dict_get; simpl. split.
  - intros Hal. destruct rs; [|done]. apply proj1 in Hiff.
    destruct (Hiff eq_refl) as (a & c & Hs). by exists a, c, bytes.
  - intros (a & c & bytes' & Hb' & Hs). assert (bytes' = bytes) as -> by congruence.
    apply proj2 in Hiff. rewrite Hiff; [done|]. eauto.
Qed.

Lemma satisfies_with_impl (Q Q' : pydict → Z → Prop) request p action context bytes :
  (∀ n, request_context request = Some context → Q context n → Q' context n) →
  satisfies_with Q request p action context bytes → satisfies_with Q' request p action context bytes.
Proof. intros H []. split; try done. intros n Hn Hp. apply H; [done|]. by eapply sat_quorum0. Qed.

(** Without a stated count, that is the documented quorum. *)
Lemma satisfies_signed A request p action context bytes :
  no_stated_count request →
  satisfies_with (quorum_met A request) request p action context bytes ↔
  satisfies_with (signed_quorum A request) request p action context bytes.
Proof.
  intros [Hr Hc]. split; apply satisfies_with_impl; intros n Hctx; unfold quorum_met, stated_in;
    by rewrite Hr, (Hc _ Hctx).
Qed.

Lemma decide_allows_signed A request p d :
  decide A request p = Ok d → no_stated_count request →
  dict_get "allow" d = PBool true ↔
  ∃ action context bytes, canonical_json (PDict request) = Ok bytes ∧
    satisfies_with (signed_quorum A request) request p action context bytes.
Proof. intros H Hno. rewrite (decide_allows _ _ _ _ H). by setoid_rewrite (satisfies_signed _ _ _ _ _ _ Hno). Qed.

(** ** Totality *)

Lemma serializable_get k d : serializable (PDict d) = true → serializable (dict_get k d) = true.
Proof.
  simpl. rewrite forallb_forall. intros H. unfold dict_get.
  destruct (assoc_get k d) as [v|] eqn:E; [|done]. by apply assoc_get_In, (H (k, v)) in E.
Qed.

Lemma canonical_json_total v : serializable v = true → ∃ t, canonical_json v = Ok t.
Proof. unfold canonical_json, json_dumps. intros ->. eauto. Qed.

Lemma canonical_digest_total v : serializable v = true → ∃ t, canonical_digest v = Ok t.
Proof.
  intros [t Ht]%canonical_json_total. exists (sha256_hex t).
  unfold canonical_digest. rewrite Ht. done.
Qed.

Lemma serializable_remove k d :
  serializable (PDict d) = true → serializable (PDict (assoc_remove k d)) = true.
Proof.
  simpl. rewrite !forallb_forall. intros H x [Hx _]%filter_In. by apply H.
Qed.

Lemma approval_counts_total A request a :
  serializable (PDict request) = true → serializable a = true →
  ∃ k, approval_counts A request a = Ok k.
Proof.
  intros Hr Ha. unfold approval_counts. destruct a as [| | | | | |d|]; eauto.
  destruct (_ && _); [|eauto].
  destruct (approval_from_dict (PDict d)) as [c|] eqn:Hp; [|eauto].
  destruct (resolve_public_key _ _) as [pk|]; [|eauto].
  assert (serializable (PDict (approval_unsigned_dict c)) = true) as Hs.
  { assert (serializable (PDict (sa_context c)) = true) as Hc.
    { apply approval_from_dict_context in Hp as [->|Hv]; [done|].
      apply (serializable_get "context") in Ha. unfold dict_get in Ha. by rewrite Hv in Ha. }
    cbn [serializable approval_unsigned_dict forallb snd] in *. rewrite Hc.
    by destruct (sa_actor_id c). }
  unfold approval_verify, approval_unsigned_payload.
  destruct (canonical_json_total _ Hs) as [t Ht]. rewrite Ht. simpl.
  destruct (negb _); [eauto|]. unfold approval_matches_request.
  destruct (negb _); [simpl; eauto|].
  destruct (canonical_digest_total (PDict (approval_request_without_approvals request))) as [g Hg];
    [by apply serializable_remove|]. rewrite Hg. simpl. destruct (negb _); simpl; eauto.
Qed.

Lemma collect_approvers_total A request l acc :
  serializable (PDict request) = true → forallb serializable l = true →
  ∃ ks, collect_approvers A request l acc = Ok ks.
Proof.
  intros Hr. revert acc. induction l as [|a l IH]; intros acc Hl; simpl in *; [eauto|].
  breflect. destruct (approval_counts_total A request a) as [k Hk]; [done..|].
  rewrite Hk. simpl. auto.
Qed.

Lemma count_containers_total A request cs acc :
  serializable (PDict request) = true → Forall (λ c, serializable (PDict c) = true) cs →
  ∃ n, count_containers A request cs acc = Ok n.
Proof.
  intros Hr Hcs. revert acc. induction Hcs as [|c cs Hc Hcs IH]; intros acc; cbn [count_containers]; [eauto|].
  destruct (stated_count c); [eauto|].
  pose proof (serializable_get "approvals" c Hc) as Ha.
  destruct (dict_get "approvals" c) as [| | | | |l| |]; auto.
  destruct (collect_approvers_total A request l acc Hr Ha) as [ks Hks]. rewrite Hks. simpl. auto.
Qed.

Lemma exceeded_limits_total request limits :
  (∀ f z, dict_get f request = PInt z → Z.abs z < 2 ^ 1024 - 2 ^ 970) →
  ∃ rs, exceeded_limits request limits = Ok rs.
Proof.
  intros Hz. induction limits as [|[f m] limits [rs IH]]; cbn [exceeded_limits]; [eauto|].
  assert (∃ b, within_limit (dict_get f request) m = Some b) as [b Hb].
  { unfold within_limit, pynum_isfinite. destruct (dict_get f request) eqn:E; eauto.
    apply Hz, Z.ltb_lt in E. rewrite E. eauto. }
  rewrite Hb, IH. simpl. eauto.
Qed.

Lemma by_action_total {T} action (d : list (string * T)) x0 :
  hashable action = true → ∃ x, by_action action d x0 = Ok x.
Proof. unfold by_action. intros ->. destruct action; eauto. Qed.

Lemma quorum_reasons_total A request context action n :
  serializable (PDict request) = true → serializable (PDict context) = true →
  ∃ rs, quorum_reasons A request context action n = Ok rs.
Proof.
  intros Hr Hc. unfold quorum_reasons. destruct (0 <? n); [|eauto].
  destruct (count_containers_total A request [request; context] []) as [k Hk]; [done|by repeat constructor|].
  unfold approval_count. rewrite Hk. simpl. eauto.
Qed.

Lemma decide_reasons_total A request p bytes :
  serializable (PDict request) = true → hashable (dict_get "action" request) = true →
  (∀ f z, dict_get f request = PInt z → Z.abs z < 2 ^ 1024 - 2 ^ 970) →
  ∃ rs, decide_reasons A request p bytes = Ok rs.
Proof.
  intros Hr Ha Hz. unfold decide_reasons.
  assert (∀ c, request_context request = Some c → serializable (PDict c) = true) as Hc.
  { intros c. unfold request_context, dict_get_or.
    pose proof (serializable_get "context" request Hr) as H. unfold dict_get in H.
    destruct (assoc_get "context" request) as [[]|]; try done; by intros [= <-]. }
  assert (∀ bad c, serializable (PDict c) = true → ∃ rs,
    (fields ← by_action (dict_get "action" request) (required_fields p) [];
     exact ← by_action (dict_get "action" request) (exact_fields p) [];
     limits ← by_action (dict_get "action" request) (max_numeric_fields p) [];
     exceeded ← exceeded_limits request limits;
     required ← by_action (dict_get "action" request) (required_approvals p) 0;
     quorum ← quorum_reasons A request c (dict_get "action" request) required;
     Ok (bad fields exact exceeded quorum : list (string * string))) = Ok rs) as Hmain.
  { intros bad c Hs.
    destruct (by_action_total (dict_get "action" request) (required_fields p) [] Ha) as [x1 ->].
    destruct (by_action_total (dict_get "action" request) (exact_fields p) [] Ha) as [x2 ->].
    destruct (by_action_total (dict_get "action" request) (max_numeric_fields p) [] Ha) as [x3 ->].
    destruct (by_action_total (dict_get "action" request) (required_approvals p) 0 Ha) as [x4 ->].
    simpl. destruct (exceeded_limits_total request x3 Hz) as [x5 ->]. simpl.
    destruct (quorum_reasons_total A request c (dict_get "action" request) x4 Hr Hs) as [x6 ->].
    simpl. eauto. }
  destruct (request_context request) as [c|].
  - by apply (Hmain (λ fields exact exceeded quorum, _) c), Hc.
  - by apply (Hmain (λ fields exact exceeded quorum, _) []).
Qed.
End Arbiter.

(** * Properties *)

(** C13. A decision on a request that states no approval count itself allows it
    exactly when every constraint of the policy holds for it: size, context
    object, allowed action, required and exact fields, numeric limits, required
    and exact context, and as many distinct keys as the quorum asks for that are
    live and signed a verified approval of this request.  A denial always carries
    at least one reason, and an allowance none. *)
Theorem decide_allow_iff `{C : Crypto} (A : DeterministicArbiter) (request : pydict)
    (p : Policy) (d : pydict) :
  decide A request p = Ok d → no_stated_count request →
  (dict_get "allow" d = PBool true ↔
     ∃ action context bytes, canonical_json (PDict request) = Ok bytes ∧
       satisfies_with (signed_quorum A request) request p action context bytes) ∧
  (dict_get "allow" d = PBool true ↔ dict_get "reasons" d = PList []) ∧
  (dict_get "allow" d = PBool false ↔ dict_get "reasons" d ≠ PList []).
Proof.
  intros H Hno. split; [by apply decide_allows_signed|].
  apply decide_ok in H as (bytes & rs & digest & _ & _ & _ & ->).
  unfold dict_get; simpl. destruct rs; naive_solver.
Qed.

Definition example_policy : Policy := {|
  policy_id := "payments"; allowed_actions := ["payments.transfer"];
  required_fields := [("payments.transfer", ["amount"; "account"])];
  exact_fields := [("payments.transfer", [("currency", PStr "EUR")])];
  required_context := ["environment"]; exact_context := [("environment", PStr "prod")];
  max_request_bytes := 65536; max_ttl_seconds := 300;
  required_approvals := [("payments.transfer", 1)];
  max_numeric_fields := [("payments.transfer", [("amount", NInt 1000)])];
  required_mesh_inputs := []; required_mesh_sources := []; mesh_required_actions := [];
  mesh_required_environments := [] |}.

Definition example_arbiter : @DeterministicArbiter toy_crypto :=
  {| arb_issuer_keys := [("ops", "opskey")]; arb_trust_store := None |}.

Definition example_unapproved (amount : Z) : pydict :=
  [("action", PStr "payments.transfer"); ("amount", PInt amount); ("account", PStr "A-1");
   ("currency", PStr "EUR"); ("context", PDict [("environment", PStr "prod")])].

(** The request with one approval, signed by the toy key of [ops]. *)
Definition example_request (amount : Z) : pydict :=
  match approval_from_request (example_unapproved amount) [] (LocalEd25519Signer "ops" "opskey") None None with
  | Ok a => example_unapproved amount ++ [("approvals", PList [PDict (approval_to_dict a)])]
  | Raise _ => []
  end.

Lemma decide_allow_iff_witness :
  ∃ d, decide example_arbiter (example_request 100) example_policy = Ok d ∧
       dict_get "allow" d = PBool true ∧
       ∃ action context bytes, canonical_json (PDict (example_request 100)) = Ok bytes ∧
         satisfies_with (signed_quorum example_arbiter (example_request 100)) (example_request 100)
           example_policy action context bytes.
Proof.
  set (d := match decide example_arbiter (example_request 100) example_policy with
            | Ok d => d | Raise _ => [] end).
  exists d. assert (decide example_arbiter (example_request 100) example_policy = Ok d) as H
    by (vm_compute; reflexivity).
  assert (dict_get "allow" d = PBool true) as Ha by (vm_compute; reflexivity).
  split; [exact H|]. split; [exact Ha|].
  apply (decide_allow_iff example_arbiter (example_request 100) example_policy d H); [|exact Ha].
  split; [vm_compute; reflexivity|]. intros c Hc. vm_compute in Hc. injection Hc as <-. vm_compute. reflexivity.
Defined.

(** C16. With no bare count stated in the request or its context, the quorum
    counts distinct signers: each counted key is live in the arbiter's store
    and signed an approval whose signature verifies and whose action and
    digest are those of this request. *)
Theorem approval_quorum_sound `{C : Crypto} (A : DeterministicArbiter) (request context : pydict)
    (n : Z) :
  stated_count request = None → stated_count context = None →
  approval_count A request context = Ok n →
  ∃ signers, NoDup signers ∧ n = Z.of_nat (length signers) ∧
    ∀ k, k ∈ signers →
      vouches A request (list_of (dict_get "approvals" request) ++
                         list_of (dict_get "approvals" context)) k.
Proof. apply approval_count_spec. Qed.

Lemma approval_quorum_sound_witness :
  ∃ signers, NoDup signers ∧ 1 = Z.of_nat (length signers) ∧
    ∀ k, k ∈ signers →
      vouches example_arbiter (example_request 100)
        (list_of (dict_get "approvals" (example_request 100)) ++ []) k.
Proof.
  apply (approval_quorum_sound example_arbiter (example_request 100) [] 1);
    vm_compute; reflexivity.
Defined.

(** C32. The decision is total on JSON requests with a hashable action whose
    integers fit a double: the arbiter returns a decision, whatever the policy
    says and whatever approvals the request carries. *)
Theorem decide_total `{C : Crypto} (A : DeterministicArbiter) (request : pydict) (p : Policy) :
  serializable (PDict request) = true → hashable (dict_get "action" request) = true →
  (∀ f z, dict_get f request = PInt z → Z.abs z < 2 ^ 1024 - 2 ^ 970) →
  serializable (PDict (policy_to_dict p)) = true →
  ∃ d, decide A request p = Ok d.
Proof.
  intros Hr Ha Hz Hp. unfold decide. destruct (canonical_json_total _ Hr) as [bytes ->]. simpl.
  destruct (decide_reasons_total A request p bytes Hr Ha Hz) as [rs ->]. simpl.
  unfold policy_digest. destruct (canonical_digest_total _ Hp) as [g ->]. simpl. eauto.
Qed.

Lemma decide_total_witness :
  ∃ d, decide example_arbiter (example_unapproved 100) example_policy = Ok d.
Proof.
  apply (decide_total example_arbiter (example_unapproved 100) example_policy); try reflexivity.
  intros f z H. unfold dict_get, example_unapproved in H. simpl in H.
  repeat case_match; simplify_eq; vm_compute; reflexivity.
Defined.

(** The quorum trusts a bare integer: when the request states
    [approval_count] (or [approvals_count]), that number is the count, and no
    signature is looked at. *)
Lemma stated_count_overrides `{C : Crypto} (A : DeterministicArbiter) (request context : pydict)
    (n : Z) :
  stated_count request = Some n → approval_count A request context = Ok n.
Proof. intros H. unfold approval_count. cbn [count_containers]. by rewrite H. Qed.
