(* ===== verification/PolicyRegistry.v ===== *)
(** policy.py: [SignedPolicyManifest] and the in-process [PolicyRegistry],
    immutable by policy identifier, with its durable snapshot.

    The trust store the registry holds is shared with the rest of the program,
    so its current state is an argument of the operations that consult it. *)

From S2P Require Import Prelude PyFloat PyVal Json Sha256 Base64 Crypto Trust Models Policy.

Section PolicyRegistry.
Context `{C : Crypto}.

(** * Signed manifests *)

Record SignedPolicyManifest := {
  pm_policy : Policy;
  pm_version : Z;
  pm_issuer_key_id : string;
  pm_signature : string
}.

Definition manifest_unsigned_payload (m : SignedPolicyManifest) : res string :=
  canonical_json (PDict [("policy", PDict (policy_to_dict (pm_policy m)));
                         ("version", PInt (pm_version m));
                         ("issuer_key_id", PStr (pm_issuer_key_id m))]).

Definition manifest_issue (policy : Policy) (version : Z) (issuer : Signer)
    : res SignedPolicyManifest :=
  fail_if (version <=? 0) (ValueError "manifest version must be positive") ;;
  let unsigned := {| pm_policy := policy; pm_version := version;
                     pm_issuer_key_id := signer_key_id issuer; pm_signature := "" |} in
  payload ← manifest_unsigned_payload unsigned;
  s ← signer_sign issuer payload;
  Ok {| pm_policy := policy; pm_version := version;
        pm_issuer_key_id := signer_key_id issuer; pm_signature := s |}.

Definition manifest_verify (m : SignedPolicyManifest) (trust : TrustStore) : res bool :=
  if pm_version m <=? 0 then Ok false else
  match trust_resolve trust (pm_issuer_key_id m) with
  | None => Ok false
  | Some key =>
      payload ← manifest_unsigned_payload m;
      Ok (verify_signature key payload (pm_signature m))
  end.

Definition manifest_to_dict (m : SignedPolicyManifest) : pydict :=
  [("policy", PDict (policy_to_dict (pm_policy m)));
   ("version", PInt (pm_version m));
   ("issuer_key_id", PStr (pm_issuer_key_id m));
   ("signature", PStr (pm_signature m))].

Definition signed_policy_manifest_from_dict (value : pyval) : res SignedPolicyManifest :=
  let invalid := ValueError "policy manifest has an invalid schema" in
  match value with
  | PDict d =>
      fail_if (negb (keys_equal d ["policy"; "version"; "issuer_key_id"; "signature"])) invalid ;;
      version ← read_int (ValueError "manifest version must be an integer") (dict_get "version" d);
      issuer ← read_str (ValueError "manifest issuer_key_id must be a non-empty string")
                 (dict_get "issuer_key_id" d);
      s ← read_str (ValueError "manifest signature must be a non-empty string")
            (dict_get "signature" d);
      policy ← policy_from_dict (dict_get "policy" d);
      Ok {| pm_policy := policy; pm_version := version; pm_issuer_key_id := issuer;
            pm_signature := s |}
  | _ => Raise invalid
  end.

(** * The registry *)

Record PolicyRegistry := {
  pr_path : bool;
  pr_policies : list (string * Policy);
  pr_versions : list (string * Z);
  pr_manifests : list (string * SignedPolicyManifest);
  pr_file : option string
}.

Definition registry_empty : PolicyRegistry :=
  {| pr_path := false; pr_policies := []; pr_versions := []; pr_manifests := []; pr_file := None |}.

Definition registry_get (r : PolicyRegistry) (pid : string) : option Policy :=
  assoc_get pid (pr_policies r).
Definition registry_version (r : PolicyRegistry) (pid : string) : option Z :=
  assoc_get pid (pr_versions r).

Definition registry_put (p : Policy) (r : PolicyRegistry) : PolicyRegistry :=
  {| pr_path := pr_path r; pr_policies := assoc_set (policy_id p) p (pr_policies r);
     pr_versions := setdefault (policy_id p) 1 (pr_versions r);
     pr_manifests := pr_manifests r; pr_file := pr_file r |}.

Definition registry_register (policy : Policy) : M PolicyRegistry unit :=
  r ← get_state;
  conflict ← lift_res
    match registry_get r (policy_id policy) with
    | None => Ok false
    | Some existing =>
        d1 ← policy_digest existing; d2 ← policy_digest policy; Ok (negb (String.eqb d1 d2))
    end;
  raise_if conflict (ValueError ("policy ID is already registered: " +:+ policy_id policy)) ;;
  modify (registry_put policy).

Definition registry_entry (r : PolicyRegistry) (kv : string * Policy) : pyval :=
  match assoc_get kv.1 (pr_manifests r) with
  | Some m => PDict (manifest_to_dict m)
  | None =>
      PDict [("policy", PDict (policy_to_dict kv.2));
             ("version", PInt (default 1 (registry_version r kv.1)))]
  end.

Definition registry_to_dict (r : PolicyRegistry) : pydict :=
  [("policies", PList (map (registry_entry r) (sort_by fst (pr_policies r))))].

Definition registry_save : M PolicyRegistry unit :=
  r ← get_state;
  if pr_path r then
    text ← lift_res (json_dumps compact_style (PDict (registry_to_dict r)));
    put_state {| pr_path := true; pr_policies := pr_policies r; pr_versions := pr_versions r;
                 pr_manifests := pr_manifests r; pr_file := Some text |}
  else mret tt.

Definition registry_set_signed (m : SignedPolicyManifest) (r : PolicyRegistry) : PolicyRegistry :=
  let pid := policy_id (pm_policy m) in
  {| pr_path := pr_path r; pr_policies := pr_policies r;
     pr_versions := assoc_set pid (pm_version m) (pr_versions r);
     pr_manifests := assoc_set pid m (pr_manifests r); pr_file := pr_file r |}.

(** What [register_signed] does with a verified manifest: [None] when it
    returns early, because the manifest is the registered one. *)
Definition registry_stale (r : PolicyRegistry) (m : SignedPolicyManifest) : res bool :=
  let pid := policy_id (pm_policy m) in
  match registry_get r pid, registry_version r pid with
  | Some current, Some current_version =>
      if pm_version m <=? current_version then
        same ← (if pm_version m =? current_version then
                  d1 ← policy_digest current; d2 ← policy_digest (pm_policy m);
                  Ok (String.eqb d1 d2)
                else Ok false);
        if same : bool then Ok true
        else Raise (ValueError "policy manifest version is stale or conflicting")
      else Ok false
  | Some _, None => Raise (TypeError "'<=' not supported between instances of 'int' and 'NoneType'")
  | None, _ => Ok false
  end.

Definition registry_register_signed (m : SignedPolicyManifest) (trust : option TrustStore)
    : M PolicyRegistry unit :=
  match trust with
  | None => raise (ValueError "a trust store is required to validate a signed policy manifest")
  | Some store =>
      verified ← lift_res (manifest_verify m store);
      raise_if (negb verified) (ValueError "policy manifest signature is invalid or untrusted") ;;
      r ← get_state;
      unchanged ← lift_res (registry_stale r m);
      if unchanged : bool then mret tt else
      registry_register (pm_policy m) ;;
      modify (registry_set_signed m) ;;
      registry_save
  end.

(** ** Snapshots *)

Definition registry_load_unsigned (d : pydict) (r : PolicyRegistry) : res PolicyRegistry :=
  fail_if (negb (keys_equal d ["policy"; "version"]))
    (ValueError "policy registry has an invalid entry schema") ;;
  policy ← policy_from_dict (dict_get "policy" d);
  let e := ValueError "policy registry version must be a positive integer" in
  version ← read_int e (dict_get "version" d);
  fail_if (version <=? 0) e ;;
  Ok {| pr_path := pr_path r; pr_policies := assoc_set (policy_id policy) policy (pr_policies r);
        pr_versions := assoc_set (policy_id policy) version (pr_versions r);
        pr_manifests := pr_manifests r; pr_file := pr_file r |}.

(** The body of the loop of [_load]. *)
Definition registry_load_entry (trust : option TrustStore) (entry : pyval) (r : PolicyRegistry)
    : res PolicyRegistry :=
  match entry with
  | PDict d =>
      if assoc_has "signature" d then
        m ← signed_policy_manifest_from_dict (PDict d);
        verified ← match trust with Some t => manifest_verify m t | None => Ok true end;
        fail_if (negb verified)
          (ValueError "persisted policy manifest signature is invalid or untrusted") ;;
        let pid := policy_id (pm_policy m) in
        Ok {| pr_path := pr_path r; pr_policies := assoc_set pid (pm_policy m) (pr_policies r);
              pr_versions := assoc_set pid (pm_version m) (pr_versions r);
              pr_manifests := assoc_set pid m (pr_manifests r); pr_file := pr_file r |}
      else registry_load_unsigned d r
  | _ => Raise (ValueError "policy registry has an invalid entry schema")
  end.

Fixpoint registry_load_entries (trust : option TrustStore) (entries : list pyval)
    (r : PolicyRegistry) : res PolicyRegistry :=
  match entries with
  | [] => Ok r
  | e :: entries => r ← registry_load_entry trust e r; registry_load_entries trust entries r
  end.

(** [PolicyRegistry(path=..., trust_store=...)] on an existing file. *)
Definition registry_load (trust : option TrustStore) (text : string) : res PolicyRegistry :=
  payload ← res_except (json_loads text)
    (λ _, Some (ValueError "policy registry could not be loaded safely"));
  match payload with
  | PDict d =>
      fail_if (negb (keys_equal d ["policies"])) (ValueError "policy registry has an invalid schema") ;;
      entries ← read_list (ValueError "policy registry entries must be a list") (dict_get "policies" d);
      registry_load_entries trust entries
        {| pr_path := true; pr_policies := []; pr_versions := []; pr_manifests := [];
           pr_file := Some text |}
  | _ => Raise (ValueError "policy registry has an invalid schema")
  end.

(** The body of the loop of [from_dict]: signed entries go through
    [register_signed]. *)
Definition registry_from_entry (trust : option TrustStore) (entry : pyval) (r : PolicyRegistry)
    : res PolicyRegistry :=
  match entry with
  | PDict d =>
      if assoc_has "signature" d then
        m ← signed_policy_manifest_from_dict (PDict d);
        verified ← match trust with Some t => manifest_verify m t | None => Ok true end;
        fail_if (negb verified)
          (ValueError "persisted policy manifest signature is invalid or untrusted") ;;
        match registry_register_signed m trust r with
        | (Ok _, r') => Ok r'
        | (Raise e, _) => Raise e
        end
      else registry_load_unsigned d r
  | _ => Raise (ValueError "policy registry has an invalid entry schema")
  end.

Fixpoint registry_from_entries (trust : option TrustStore) (entries : list pyval)
    (r : PolicyRegistry) : res PolicyRegistry :=
  match entries with
  | [] => Ok r
  | e :: entries => r ← registry_from_entry trust e r; registry_from_entries trust entries r
  end.

Definition registry_from_dict (trust : option TrustStore) (value : pyval) : res PolicyRegistry :=
  let invalid := ValueError "policy registry snapshot has an invalid schema" in
  match value with
  | PDict d =>
      fail_if (negb (keys_equal d ["policies"])) invalid ;;
      entries ← read_list (ValueError "policy registry entries must be a list") (dict_get "policies" d);
      registry_from_entries trust entries registry_empty
  | _ => Raise invalid
  end.

Definition registry_versions (r : PolicyRegistry) : list (string * Z) := sort_by fst (pr_versions r).

Definition registry_policies (r : PolicyRegistry) : list Policy :=
  map snd (sort_by fst (pr_policies r)).

Definition registry_digests (r : PolicyRegistry) : res (list (string * string)) :=
  mapM_res (λ kv : string * Policy, d ← policy_digest kv.2; Ok (kv.1, d))
    (sort_by fst (pr_policies r)).

(** ** Operations in sequence *)

(** One call of the registry's mutators; a call that raises leaves the state
    it left. *)
Inductive registry_call :=
| CallRegister (p : Policy)
| CallRegisterSigned (m : SignedPolicyManifest) (trust : option TrustStore).

Definition registry_run (c : registry_call) (r : PolicyRegistry) : PolicyRegistry :=
  match c with
  | CallRegister p => (registry_register p r).2
  | CallRegisterSigned m t => (registry_register_signed m t r).2
  end.

(** ** Lemmas *)

(** The identifier of every entry is its key, and policies and versions have
    the same keys. *)
Record registry_inv (r : PolicyRegistry) : Prop := {
  ri_ids : ∀ k p, registry_get r k = Some p → policy_id p = k;
  ri_versions : ∀ k, is_Some (registry_get r k) ↔ is_Some (registry_version r k);
}.

(** [r'] extends [r]: no digest of a registered identifier changes, and no
    version goes down. *)
Record registry_extends (r r' : PolicyRegistry) : Prop := {
  re_digest : ∀ k p, registry_get r k = Some p →
    ∃ p', registry_get r' k = Some p' ∧ policy_digest p' = policy_digest p;
  re_version : ∀ k v, registry_version r k = Some v →
    ∃ v', registry_version r' k = Some v' ∧ v ≤ v'
}.

#[export] Instance registry_extends_preorder : PreOrder registry_extends.
Proof.
  split.
  - intros r. split; eauto using Z.le_refl.
  - intros r1 r2 r3 [Hd1 Hv1] [Hd2 Hv2]. split.
    + intros k p Hp. destruct (Hd1 k p Hp) as (p' & Hp' & <-). eauto.
    + intros k v Hv. destruct (Hv1 k v Hv) as (v' & Hv' & ?).
      destruct (Hv2 k v' Hv') as (v'' & ? & ?). exists v''. split; [done|lia].
Qed.

Lemma registry_register_spec p r :
  registry_register p r =
  match registry_get r (policy_id p) with
  | None => (Ok tt, registry_put p r)
  | Some q =>
      match policy_digest q, policy_digest p with
      | Ok d1, Ok d2 =>
          if String.eqb d1 d2 then (Ok tt, registry_put p r)
          else (Raise (ValueError ("policy ID is already registered: " +:+ policy_id p)), r)
      | Raise e, _ => (Raise e, r)
      | _, Raise e => (Raise e, r)
      end
  end.
Proof.
  unfold registry_register, mbind, M_bind, get_state, lift_res, raise_if, modify.
  destruct (registry_get r (policy_id p)) as [q|]; [|done].
  unfold res_bind. destruct (policy_digest q); [|done]. destruct (policy_digest p); [|done].
  simpl. by destruct (String.eqb _ _).
Qed.

Lemma registry_put_extends p r :
  registry_inv r →
  (∀ q, registry_get r (policy_id p) = Some q → policy_digest p = policy_digest q) →
  registry_inv (registry_put p r) ∧ registry_extends r (registry_put p r).
Proof.
  intros [Hid Hver] Hq. 
  split; split; unfold registry_put, registry_get, registry_version in *; simpl; intros k.
  - intros q. destruct (String.eqb_spec (policy_id p) k) as [<-|Hne].
    + rewrite assoc_get_set_eq. by intros [= <-].
    + rewrite assoc_get_set_ne by done. apply Hid.
  - rewrite setdefault_get. destruct (String.eqb_spec k (policy_id p)) as [->|Hne].
    + rewrite assoc_get_set_eq. split; eauto.
    + by rewrite assoc_get_set_ne by done.
  - intros q Hk. destruct (String.eqb_spec (policy_id p) k) as [<-|Hne].
    + rewrite assoc_get_set_eq. exists p. split; [done|auto].
    + rewrite assoc_get_set_ne by done. eauto.
  - intros v Hk. rewrite setdefault_get. destruct (String.eqb_spec k (policy_id p)) as [->|Hne].
    + rewrite Hk. exists v. split; [done|lia].
    + exists v. split; [done|lia].
Qed.

Lemma registry_register_extends p r :
  registry_inv r →
  let r' := (registry_register p r).2 in registry_inv r' ∧ registry_extends r r'.
Proof.
  intros Hi. rewrite registry_register_spec.
  assert (registry_inv r ∧ registry_extends r r) as Hr by (split; [done|reflexivity]).
  destruct (registry_get r (policy_id p)) as [q|] eqn:Hq.
  - destruct (policy_digest q) as [d1|] eqn:H1; [|done].
    destruct (policy_digest p) as [d2|] eqn:H2; [|done].
    destruct (String.eqb_spec d1 d2) as [->|]; [|done]. simpl.
    apply registry_put_extends; [done|]. intros q' Hq'. congruence.
  - apply registry_put_extends; [done|]. congruence.
Qed.

Lemma registry_save_state r :
  let r' := (registry_save r).2 in
  pr_policies r' = pr_policies r ∧ pr_versions r' = pr_versions r.
Proof.
  unfold registry_save, mbind, M_bind, get_state, lift_res, put_state.
  destruct (pr_path r); [|done]. by destruct (json_dumps _ _).
Qed.

Lemma registry_same_extends r r' :
  pr_policies r' = pr_policies r → pr_versions r' = pr_versions r →
  registry_inv r → registry_inv r' ∧ registry_extends r r'.
Proof.
  intros Hp Hv [Hid Hver]. unfold registry_get, registry_version in *.
  split; split; unfold registry_get, registry_version; rewrite ?Hp, ?Hv;
    eauto using Z.le_refl.
Qed.

(** A successful signed registration beyond the current version. *)
Lemma registry_set_signed_extends m r :
  registry_inv r → is_Some (registry_get r (policy_id (pm_policy m))) →
  (∀ v, registry_version r (policy_id (pm_policy m)) = Some v → v ≤ pm_version m) →
  registry_inv (registry_set_signed m r) ∧ registry_extends r (registry_set_signed m r).
Proof.
  intros [Hid Hver] Hm Hv. 
  split; split; unfold registry_set_signed, registry_get, registry_version in *; simpl;
    intros k; eauto.
  - destruct (String.eqb_spec (policy_id (pm_policy m)) k) as [<-|Hne].
    + rewrite assoc_get_set_eq. split; eauto.
    + by rewrite assoc_get_set_ne by done.
  - intros v Hk. destruct (String.eqb_spec (policy_id (pm_policy m)) k) as [<-|Hne].
    + rewrite assoc_get_set_eq. eauto.
    + rewrite assoc_get_set_ne by done. exists v. split; [done|lia].
Qed.

Lemma manifest_verify_version m t : manifest_verify m t = Ok true → 0 < pm_version m.
Proof. unfold manifest_verify. destruct (pm_version m <=? 0) eqn:E; breflect; done. Qed.

(** The outcomes of a signed registration: an error or an unchanged manifest
    leave the policies alone; otherwise the policy is registered, then the
    manifest recorded over a version that is not larger. *)
Lemma registry_register_signed_cases m t r :
  let '(res, r') := registry_register_signed m (Some t) r in
  (r' = r ∧ (res = Ok tt → manifest_verify m t = Ok true ∧ registry_stale r m = Ok true)) ∨
  (manifest_verify m t = Ok true ∧ registry_stale r m = Ok false ∧
   ∃ r1, registry_register (pm_policy m) r = (Ok tt, r1) ∧
         pr_policies r' = pr_policies (registry_set_signed m r1) ∧
         pr_versions r' = pr_versions (registry_set_signed m r1)).
Proof.
  unfold registry_register_signed, mbind at 1, M_bind at 1, lift_res at 1.
  destruct (manifest_verify m t) as [[]|] eqn:Hv; simpl; [|by left|by left].
  unfold mbind, M_bind, raise_if, get_state. simpl. unfold lift_res.
  destruct (registry_stale r m) as [[]|] eqn:Hs; [by left| |by left].
  pose proof (registry_register_spec (pm_policy m) r) as Hreg.
  destruct (registry_register (pm_policy m) r) as [[[]|e] r1] eqn:Hr.
  - unfold modify. pose proof (registry_save_state (registry_set_signed m r1)) as [Hp Hver].
    destruct (registry_save (registry_set_signed m r1)) as [res r2] eqn:E.
    right. split; [done|]. split; [done|].
    exists r1. simpl in *. split; [done|]. split; done.
  - left. split; [|done]. repeat case_match; simplify_eq; done.
Qed.

Lemma registry_register_get p r r1 :
  registry_register p r = (Ok tt, r1) →
  registry_get r1 (policy_id p) = Some p ∧
  (∀ v, registry_version r1 (policy_id p) = Some v →
     registry_version r (policy_id p) = Some v ∨ v = 1).
Proof.
  rewrite registry_register_spec. intros H.
  assert (r1 = registry_put p r) as -> by (repeat case_match; simplify_eq; done).
  unfold registry_put, registry_get, registry_version; simpl. rewrite assoc_get_set_eq.
  split; [done|]. intros v. rewrite setdefault_get, String.eqb_refl.
  destruct (assoc_get _ _); simpl; naive_solver.
Qed.

Lemma registry_stale_false r m v :
  registry_stale r m = Ok false → registry_inv r →
  registry_version r (policy_id (pm_policy m)) = Some v → v < pm_version m.
Proof.
  intros H [_ Hver] Hv. unfold registry_stale in H.
  destruct (registry_get r (policy_id (pm_policy m))) as [q|] eqn:Hg.
  - rewrite Hv in H. destruct (pm_version m <=? v) eqn:E; breflect; [|lia].
    apply res_bind_ok in H as (same & _ & H). by destruct same.
  - specialize (Hver (policy_id (pm_policy m))). rewrite Hg, Hv in Hver.
    assert (is_Some (None : option Policy)) as [? ?] by (apply Hver; eauto). done.
Qed.

Lemma registry_run_extends c r :
  registry_inv r → registry_inv (registry_run c r) ∧ registry_extends r (registry_run c r).
Proof.
  intros Hi. destruct c as [p|m [t|]]; cbn [registry_run]; [by apply registry_register_extends| |].
  - pose proof (registry_register_signed_cases m t r) as H.
    destruct (registry_register_signed m (Some t) r) as [res r'] eqn:E.
    destruct H as [[-> _]|(Hv & Hs & r1 & Hr & Hp & Hver)]; cbn [snd]; [by split|].
    pose proof (registry_register_extends (pm_policy m) r Hi) as [Hi1 He1].
    rewrite Hr in Hi1, He1. simpl in *.
    apply registry_register_get in Hr as [Hg Hver1].
    destruct (registry_set_signed_extends m r1 Hi1) as [Hi2 He2]; [eauto| |].
    { intros v Hv1. apply manifest_verify_version in Hv.
      destruct (Hver1 v Hv1) as [Hv0| ->]; [|lia].
      pose proof (registry_stale_false r m v Hs Hi Hv0). lia. }
    destruct (registry_same_extends (registry_set_signed m r1) r' Hp Hver Hi2) as [Hi3 He3].
    split; [done|]. by etransitivity; [|etransitivity].
  - split; [done|reflexivity].
Qed.

Lemma registry_runs_extends calls r :
  registry_inv r →
  let r' := fold_left (λ r c, registry_run c r) calls r in
  registry_inv r' ∧ registry_extends r r'.
Proof.
  revert r. induction calls as [|c calls IH]; intros r Hi; simpl; [split; [done|reflexivity]|].
  destruct (registry_run_extends c r Hi) as [Hi1 He1].
  destruct (IH _ Hi1) as [Hi2 He2]. split; [done|]. by etransitivity.
Qed.

Lemma registry_empty_inv : registry_inv registry_empty.
Proof.
  split; unfold registry_empty, registry_get, registry_version; simpl; [done|].
  intros k. split; intros [? H]; discriminate.
Qed.
End PolicyRegistry.

(** * Properties *)

(** C25. Policies are immutable by identifier: whatever registrations, signed
    or not, succeed or fail after it, the digest registered under an
    identifier never changes and its version never goes down. *)
Theorem registry_immutable `{C : Crypto} (before after : list registry_call) (k : string)
    (p : Policy) (v : Z) :
  let r := fold_left (λ r c, registry_run c r) before registry_empty in
  let r' := fold_left (λ r c, registry_run c r) after r in
  registry_get r k = Some p → registry_version r k = Some v →
  ∃ p' v', registry_get r' k = Some p' ∧ policy_digest p' = policy_digest p ∧
           registry_version r' k = Some v' ∧ v ≤ v'.
Proof.
  intros r r' Hp Hv.
  destruct (registry_runs_extends before registry_empty registry_empty_inv) as [Hi _].
  destruct (registry_runs_extends after r Hi) as [_ [Hd Hver]].
  destruct (Hd k p Hp) as (p' & ? & ?). destruct (Hver k v Hv) as (v' & ? & ?).
  exists p', v'. done.
Qed.

(** The same identifier with another allowed action. *)
Definition conflicting_policy : Policy := {|
  policy_id := "deploy"; allowed_actions := ["deploy.destroy"];
  required_fields := []; exact_fields := []; required_context := []; exact_context := [];
  max_request_bytes := 4096; max_ttl_seconds := 60; required_approvals := [];
  max_numeric_fields := []; required_mesh_inputs := []; required_mesh_sources := [];
  mesh_required_actions := []; mesh_required_environments := [] |}.

Lemma registry_immutable_witness :
  let r := fold_left (λ r c, @registry_run toy_crypto c r) [CallRegister sample_policy] registry_empty in
  let r' := fold_left (λ r c, registry_run c r) [CallRegister conflicting_policy] r in
  ∃ p' v', registry_get r' "deploy" = Some p' ∧
    policy_digest p' = policy_digest sample_policy ∧ registry_version r' "deploy" = Some v' ∧ 1 ≤ v'.
Proof.
  apply (registry_immutable (C := toy_crypto) [CallRegister sample_policy]
           [CallRegister conflicting_policy] "deploy" sample_policy 1); reflexivity.
Defined.

(** A signed registration succeeds only for a manifest whose signature
    verifies under a live key of the trust store; it then holds the manifest's
    policy at the manifest's version, never below the version it replaces. *)
Lemma register_signed_verified `{C : Crypto} (m : SignedPolicyManifest) (t : TrustStore)
    (r r' : PolicyRegistry) :
  registry_inv r →
  registry_register_signed m (Some t) r = (Ok tt, r') →
  manifest_verify m t = Ok true ∧ is_Some (trust_resolve t (pm_issuer_key_id m)) ∧
  registry_version r' (policy_id (pm_policy m)) = Some (pm_version m) ∧
  (∃ p, registry_get r' (policy_id (pm_policy m)) = Some p ∧
        policy_digest p = policy_digest (pm_policy m)) ∧
  ∀ v, registry_version r (policy_id (pm_policy m)) = Some v → v ≤ pm_version m.
Proof.
  intros Hi H. pose proof (registry_register_signed_cases m t r) as Hc. rewrite H in Hc.
  assert (manifest_verify m t = Ok true) as Hv by (destruct Hc as [[_ Hc]|Hc]; naive_solver).
  split; [done|]. split.
  { unfold manifest_verify in Hv. destruct (pm_version m <=? 0); [done|].
    destruct (trust_resolve _ _); [eauto|done]. }
  destruct Hc as [[-> Hc]|(_ & Hs & r1 & Hr & Hp & Hver)].
  - destruct (Hc eq_refl) as [_ Hs]. clear Hc. unfold registry_stale in Hs.
    destruct (registry_get r _) as [q|] eqn:Hq; [|done].
    destruct (registry_version r _) as [v|] eqn:Hvv; [|done].
    destruct (_ <=? _); [|done].
    apply res_bind_ok in Hs as (same & Hs & Hsame). destruct same; [|done].
    destruct (pm_version m =? v) eqn:E; [|done]. breflect. subst v.
    apply res_bind_ok in Hs as (d1 & H1 & Hs). apply res_bind_ok in Hs as (d2 & H2 & Hs).
    injection Hs as ->%String.eqb_eq. split; [done|]. split.
    + exists q. by rewrite H1, H2.
    + intros v [= ->]. lia.
  - pose proof (registry_register_get _ _ _ Hr) as [Hg _].
    unfold registry_version, registry_get in *. rewrite Hp, Hver.
    unfold registry_set_signed; simpl. rewrite assoc_get_set_eq. split; [done|]. split; [eauto|].
    intros v Hvv. pose proof (registry_stale_false r m v Hs Hi Hvv). lia.
Qed.

Definition signed_example : SignedPolicyManifest :=
  {| pm_policy := conflicting_policy; pm_version := 3; pm_issuer_key_id := "issuer-1";
     pm_signature := match manifest_issue conflicting_policy 3
                             (LocalEd25519Signer "issuer-1" ("k1" : @PrivateKey toy_crypto)) with
                     | Ok m => pm_signature m | Raise _ => "" end |}.

Lemma register_signed_verified_witness :
  manifest_verify signed_example trust_example = Ok true ∧
  registry_version (registry_register_signed signed_example (Some trust_example) registry_empty).2
    "deploy" = Some 3.
Proof.
  destruct (register_signed_verified signed_example trust_example registry_empty
    (registry_register_signed signed_example (Some trust_example) registry_empty).2
    registry_empty_inv) as (H1 & _ & H2 & _); [vm_compute; reflexivity|].
  split; [exact H1|exact H2].
Defined.
