(* ===== verification/Lines.v ===== *)
(** Text files of one JSON value per line: [str.splitlines], and the fact that
    JSON written with [ensure_ascii] is one line, so that a file of appended
    lines reads back as those lines. *)

From S2P Require Import Prelude PyFloat PyVal Json.

(** ** [str.splitlines]

    Line boundaries are LF, CR, CRLF, VT, FF, FS, GS, RS, NEL (U+0085), LS and
    PS (U+2028, U+2029), the last three by their UTF-8 bytes. *)

Definition is_line_break (c : ascii) : bool :=
  let n := N_of_ascii c in ((10 <=? n) && (n <=? 12) || (28 <=? n) && (n <=? 30))%N.

Fixpoint splitlines_from (cur : string) (s : string) : list string :=
  match s with
  | EmptyString => if String.eqb cur "" then [] else [cur]
  | String c r =>
      if (N_of_ascii c =? 13)%N then
        cur :: match r with
               | String d r' => if (N_of_ascii d =? 10)%N then splitlines_from "" r'
                                else splitlines_from "" r
               | EmptyString => []
               end
      else if is_line_break c then cur :: splitlines_from "" r
      else if (N_of_ascii c =? 194)%N then
        match r with
        | String d r' => if (N_of_ascii d =? 133)%N then cur :: splitlines_from "" r'
                         else splitlines_from (cur +:+ String c "") r
        | EmptyString => [cur +:+ String c ""]
        end
      else if (N_of_ascii c =? 226)%N then
        match r with
        | String d (String e r') =>
            if ((N_of_ascii d =? 128) && ((N_of_ascii e =? 168) || (N_of_ascii e =? 169)))%N
            then cur :: splitlines_from "" r'
            else splitlines_from (cur +:+ String c "") r
        | _ => splitlines_from (cur +:+ String c "") r
        end
      else splitlines_from (cur +:+ String c "") r
  end.

Definition splitlines (s : string) : list string := splitlines_from "" s.

Definition newline : string := chr 10.

Example splitlines_ex :
  splitlines ("a" +:+ newline +:+ newline +:+ "b" +:+ chr 13 +:+ newline +:+ "c") = ["a"; ""; "b"; "c"].
Proof. reflexivity. Qed.

(** ** Strings of printable ASCII characters *)

Definition printable_char (c : ascii) : bool :=
  let n := N_of_ascii c in ((32 <=? n) && (n <? 127))%N.
Abbreviation printable := (all_chars printable_char).

Lemma printable_plain c :
  printable_char c = true →
  (N_of_ascii c =? 13)%N = false ∧ is_line_break c = false ∧ (N_of_ascii c =? 194)%N = false ∧
  (N_of_ascii c =? 226)%N = false.
Proof.
  unfold printable_char, is_line_break. rewrite andb_true_iff, N.leb_le, N.ltb_lt.
  intros [? ?]. rewrite orb_false_iff, !andb_false_iff, !N.eqb_neq, !N.leb_gt.
  split_and!; lia.
Qed.

Lemma splitlines_from_line cur a r :
  printable a = true →
  splitlines_from cur (a +:+ newline +:+ r) = (cur +:+ a) :: splitlines r.
Proof.
  revert cur. induction a as [|c a IH]; intros cur Ha.
  - rewrite string_app_nil_r. done.
  - apply andb_true_iff in Ha as [Hc Ha].
    apply printable_plain in Hc as (H1 & H2 & H3 & H4).
    cbn [String.append splitlines_from]. rewrite H1, H2, H3, H4, IH by done.
    by rewrite string_app_assoc.
Qed.

Fixpoint lines_text (lines : list string) : string :=
  match lines with [] => "" | l :: lines => l +:+ newline +:+ lines_text lines end.

Lemma lines_text_app a b : lines_text (a ++ b) = lines_text a +:+ lines_text b.
Proof.
  induction a as [|x a IH]; [done|]. cbn [app lines_text]. by rewrite IH, !string_app_assoc.
Qed.

(** A file of appended lines reads back as those lines. *)
Lemma splitlines_lines lines :
  Forall (λ l, printable l = true) lines → splitlines (lines_text lines) = lines.
Proof.
  induction 1 as [|l lines Hl _ IH]; [done|].
  cbn [lines_text]. unfold splitlines. rewrite splitlines_from_line by done.
  f_equal. exact IH.
Qed.

(** ** Printed JSON is printable *)

Lemma escape_byte_printable c :
  is_ascii_char c = true →
  printable (if (N_of_ascii c <? 127)%N then escape_byte c else escape_point 127) = true.
Proof. destruct c as [[] [] [] [] [] [] [] []]; intros H; try discriminate H; reflexivity. Qed.

Lemma hex_digit_printable n : (n < 16)%N → printable_char (hex_digit n) = true.
Proof.
  intros Hn. assert (forallb (λ n, printable_char (hex_digit n)) (map N.of_nat (seq 0 16)) = true) as H
    by (by vm_compute).
  rewrite forallb_forall in H. apply H. rewrite <-(N2Nat.id n). apply in_map, in_seq. lia.
Qed.

Lemma u_escape_printable n : (n < 65536)%N → printable (u_escape n) = true.
Proof.
  intros Hn. unfold u_escape. rewrite all_chars_app. cbn [all_chars].
  rewrite !hex_digit_printable by (zify; Z.div_mod_to_equations; lia). done.
Qed.

Lemma escape_point_printable n : (n < 1114112)%N → printable (escape_point n) = true.
Proof.
  intros Hn. unfold escape_point. destruct (N.ltb_spec n 65536); [by apply u_escape_printable|].
  rewrite all_chars_app, !u_escape_printable; [done|..]; zify; Z.div_mod_to_equations; lia.
Qed.

Lemma escape_ascii_printable s : utf8_str s = true → printable (escape_ascii s) = true.
Proof.
  revert s. apply utf8_ind; [done| | | |].
  - intros c s Hc IH. rewrite escape_ascii_1 by done. by rewrite all_chars_app, escape_byte_printable, IH.
  - intros c c2 s Hc IH. rewrite escape_ascii_2 by done. rewrite all_chars_app, IH, andb_true_r.
    apply escape_point_printable. unfold ok2, point2 in *. byte_facts. zify. Z.div_mod_to_equations. lia.
  - intros c c2 c3 s Hc IH. rewrite escape_ascii_3 by done. rewrite all_chars_app, IH, andb_true_r.
    apply escape_point_printable. unfold ok3, point3 in *. byte_facts. zify. Z.div_mod_to_equations. lia.
  - intros c c2 c3 c4 s Hc IH. rewrite escape_ascii_4 by done. rewrite all_chars_app, IH, andb_true_r.
    apply escape_point_printable. unfold ok4 in Hc.
    by apply andb_true_iff in Hc as [_ [_ ?%N.ltb_lt]%andb_true_iff].
Qed.

(** What a scanner of numbers consumes is printable. *)
Definition consumes (s r : string) : Prop := ∃ p, s = p +:+ r ∧ printable p = true.

Lemma consumes_refl s : consumes s s.
Proof. by exists "". Qed.
Lemma consumes_trans s r t : consumes s r → consumes r t → consumes s t.
Proof.
  intros (p & -> & Hp) (q & -> & Hq). exists (p +:+ q). rewrite string_app_assoc. split; [done|].
  by rewrite all_chars_app, Hp, Hq.
Qed.
Lemma consumes_cons c s r : printable_char c = true → consumes s r → consumes (String c s) r.
Proof. intros Hc (p & -> & Hp). exists (String c p). simpl. by rewrite Hc, Hp. Qed.

Lemma digit_cons_printable c d d' : digit_cons c d = Some d' → printable_char c = true.
Proof.
  unfold digit_cons, printable_char. destruct (_ && _) eqn:E; [|done]. intros _.
  apply andb_true_iff in E as [H1%N.leb_le H2%N.leb_le].
  apply andb_true_iff. rewrite N.leb_le, N.ltb_lt. lia.
Qed.

Lemma span_digits_consumes s d r : span_digits s = (d, r) → consumes s r.
Proof.
  revert d r. induction s as [|c s IH]; intros d r H; simpl in H.
  - injection H as <- <-. apply consumes_refl.
  - destruct (span_digits s) as [d0 r0]. destruct (digit_cons c d0) eqn:E; injection H as <- <-.
    + apply consumes_cons; [by eapply digit_cons_printable|by eapply IH].
    + apply consumes_refl.
Qed.

Lemma scan_int_consumes s d r : scan_int s = Some (d, r) → consumes s r.
Proof.
  destruct s as [|c s]; cbn [scan_int]; [done|].
  destruct (Ascii.eqb_spec c "0") as [->|_].
  - intros [= <- <-]. by apply consumes_cons, consumes_refl.
  - destruct (span_digits (String c s)) as [d0 r0] eqn:E. apply span_digits_consumes in E.
    destruct d0; [done|..]; by intros [= <- <-].
Qed.

Lemma scan_frac_consumes s d r : scan_frac s = (d, r) → consumes s r.
Proof.
  destruct s as [|c s]; cbn [scan_frac]; [intros [= <- <-]; apply consumes_refl|].
  destruct (Ascii.eqb_spec c ".") as [->|_]; [|intros [= <- <-]; apply consumes_refl].
  destruct (span_digits s) as [d0 r0] eqn:E. apply span_digits_consumes in E.
  destruct d0; intros [= <- <-]; [apply consumes_refl|by apply consumes_cons..].
Qed.

Lemma scan_exp_digits_consumes s n u e r :
  consumes s u → scan_exp_digits s n u = (e, r) → consumes s r.
Proof.
  unfold scan_exp_digits. intros Hu. destruct (span_digits u) as [d0 r0] eqn:E.
  apply span_digits_consumes in E.
  destruct d0; intros [= <- <-]; [apply consumes_refl|by eapply consumes_trans..].
Qed.

Lemma scan_exp_consumes s e r : scan_exp s = (e, r) → consumes s r.
Proof.
  destruct s as [|c s]; cbn [scan_exp]; [intros [= <- <-]; apply consumes_refl|].
  destruct (Ascii.eqb c "e" || Ascii.eqb c "E") eqn:Hc; [|intros [= <- <-]; apply consumes_refl].
  assert (printable_char c = true) as Hpc
    by (apply orb_true_iff in Hc as [->%Ascii.eqb_eq| ->%Ascii.eqb_eq]; done).
  destruct s as [|g t]; [intros [= <- <-]; apply consumes_refl|].
  destruct (Ascii.eqb_spec g "-") as [->|_]; [|destruct (Ascii.eqb_spec g "+") as [->|_]];
    apply scan_exp_digits_consumes; repeat (apply consumes_cons; [done|]); apply consumes_refl.
Qed.

Lemma scan_number_consumes s v r : scan_number s = Some (v, r) → consumes s r.
Proof.
  assert (∀ n t v r, scan_unsigned n t = Some (v, r) → consumes t r) as Hu.
  { intros n t v0 r0. unfold scan_unsigned. destruct (scan_int t) as [[d s2]|] eqn:E1; [|done].
    destruct (scan_frac s2) as [f s3] eqn:E2. destruct (scan_exp s3) as [e s4] eqn:E3.
    apply scan_int_consumes in E1. apply scan_frac_consumes in E2. apply scan_exp_consumes in E3.
    intros H. assert (s4 = r0) as -> by (destruct f, e; by injection H).
    by eapply consumes_trans, consumes_trans. }
  unfold scan_number. destruct s as [|c s]; [by apply Hu|]. cbn [strip_prefix].
  destruct (Ascii.eqb_spec "-" c) as [<-|_]; [|by apply Hu].
  intros H%Hu. by apply consumes_cons.
Qed.

Lemma json_float_printable f : float_roundtrips f = true → printable (json_float_repr f) = true.
Proof.
  unfold float_roundtrips. destruct (scan_number _) as [[v r]|] eqn:E; [|done].
  destruct v, r; try done. intros _. apply scan_number_consumes in E as (p & -> & Hp).
  by rewrite string_app_nil_r.
Qed.

Lemma string_of_Z_printable z : printable (string_of_Z z) = true.
Proof.
  pose proof (scan_number_int z "" eq_refl) as H. rewrite string_app_nil_r in H.
  apply scan_number_consumes in H as (p & -> & Hp). by rewrite string_app_nil_r.
Qed.

Lemma join_printable sep l :
  printable sep = true → Forall (λ s, printable s = true) l → printable (join sep l) = true.
Proof.
  intros Hsep. induction 1 as [|x l Hx Hl IH]; [done|].
  destruct l as [|y l]; [done|]. rewrite join_cons2, !all_chars_app, Hx, Hsep. done.
Qed.

Lemma json_text_printable st v :
  ensure_ascii st = true → printable (item_sep st) = true → printable (key_sep st) = true →
  json_safe st v = true → printable (json_text st v) = true.
Proof.
  intros Ha Hi Hk.
  assert (∀ s, utf8_str s = true → printable (json_quote st s) = true) as Hq.
  { intros s Hs. unfold json_quote. rewrite Ha, !all_chars_app, escape_ascii_printable by done. done. }
  induction v as [|[]|z|f|s|l IH|kvs IH|r] using pyval_ind_nested; cbn [json_text json_safe]; try done.
  - intros _. apply string_of_Z_printable.
  - apply json_float_printable.
  - rewrite Ha. apply Hq.
  - intros Hs. rewrite !all_chars_app. apply andb_true_iff. split; [done|]. rewrite andb_true_r.
    apply join_printable; [done|]. apply Forall_map. rewrite forallb_forall in Hs.
    rewrite Forall_forall in IH |- *. intros x Hx. apply IH; [done|]. apply Hs. by apply list_elem_of_In.
  - intros Hs. rewrite !all_chars_app. apply andb_true_iff. split; [done|]. rewrite andb_true_r.
    apply join_printable; [done|]. apply Forall_map. rewrite sort_by_Permutation. apply Forall_map.
    rewrite forallb_forall in Hs. rewrite Forall_forall in IH |- *. intros x Hx.
    specialize (IH x Hx). rewrite Ha in Hs. apply list_elem_of_In, Hs, andb_true_iff in Hx as [Hk1 Hs1]. unfold json_item. cbn [fst snd].
    rewrite !all_chars_app, Hq, Hk by done. cbn [andb]. by apply IH.
Qed.
