(* ===== verification/Anchors.v ===== *)
(** audit.py: signed checkpoints of a replay log and their JSONL sink. *)

From S2P Require Import Prelude PyFloat PyVal Json Sha256 Base64 Crypto Models Lines.

Record AuditAnchor := {
  an_replay_digest : string;
  an_head_hash : string;
  an_frame_count : Z;
  an_signer_key_id : string;
  an_signature : string
}.

Definition anchor_unsigned (digest head : string) (count : Z) (key_id : string) : pydict :=
  [("replay_digest", PStr digest); ("head_hash", PStr head); ("frame_count", PInt count);
   ("signer_key_id", PStr key_id)].

Definition anchor_unsigned_payload (a : AuditAnchor) : pydict :=
  anchor_unsigned (an_replay_digest a) (an_head_hash a) (an_frame_count a) (an_signer_key_id a).

Definition anchor_to_dict (a : AuditAnchor) : pydict :=
  anchor_unsigned_payload a ++ [("signature", PStr (an_signature a))].

Definition anchor_required : list string :=
  ["replay_digest"; "head_hash"; "frame_count"; "signer_key_id"; "signature"].

(** [any(key not in payload for key in required)], then [payload[key]]: the
    payload is any JSON value. *)
Definition anchor_from_dict (payload : pyval) : res AuditAnchor :=
  let missing := ValueError "audit anchor is missing required fields" in
  let invalid := ValueError "audit anchor fields are invalid" in
  match payload with
  | PDict d =>
      fail_if (negb (keys_superset d anchor_required)) missing ;;
      match dict_get "replay_digest" d, dict_get "head_hash" d, dict_get "frame_count" d,
            dict_get "signer_key_id" d, dict_get "signature" d with
      | PStr digest, PStr head, PInt count, PStr key_id, PStr signature =>
          fail_if (count <? 0) invalid ;;
          Ok {| an_replay_digest := digest; an_head_hash := head; an_frame_count := count;
                an_signer_key_id := key_id; an_signature := signature |}
      | _, _, _, _, _ => Raise invalid
      end
  | PList l =>
      fail_if (negb (forallb (λ k, existsb (py_eqb (PStr k)) l) anchor_required)) missing ;;
      Raise (TypeError "list indices must be integers or slices, not str")
  | PStr s =>
      fail_if (negb (forallb (λ k, str_contains k s) anchor_required)) missing ;;
      Raise (TypeError "string indices must be integers, not 'str'")
  | _ => Raise (TypeError "argument is not iterable")
  end.

Definition anchor_verify `{C : Crypto} (a : AuditAnchor) (public_key : PublicKey) : res bool :=
  payload ← canonical_json (PDict (anchor_unsigned_payload a));
  Ok (verify_signature public_key payload (an_signature a)).

(** The dictionary [verify_integrity] returns, typed: [first_error] is the
    index, frame and reason of the first mismatch. *)
Record ReplayIntegrity := {
  in_ok : bool;
  in_frame_count : Z;
  in_head_hash : string;
  in_replay_digest : string;
  in_duplicate_frame_ids : list string;
  in_first_error : option (Z * string * string)
}.

(** [sign_audit_anchor]: only evidence of an intact log is signed. *)
Definition sign_audit_anchor (integrity : ReplayIntegrity) (signer : Signer) : res AuditAnchor :=
  fail_if (negb (in_ok integrity)) (ValueError "cannot anchor an invalid replay log") ;;
  let digest := in_replay_digest integrity in
  let head := in_head_hash integrity in
  let count := in_frame_count integrity in
  payload ← canonical_json (PDict (anchor_unsigned digest head count (signer_key_id signer)));
  signature ← signer_sign signer payload;
  Ok {| an_replay_digest := digest; an_head_hash := head; an_frame_count := count;
        an_signer_key_id := signer_key_id signer; an_signature := signature |}.

(** ** The JSONL sink *)

Definition sink_append (a : AuditAnchor) : M string unit :=
  text ← lift_res (json_dumps compact_style (PDict (anchor_to_dict a)));
  modify (λ file, file +:+ text +:+ newline).

(** [anchors()] of a file's text; [None] is a file that does not exist. *)
Definition sink_anchors (file : option string) : res (list AuditAnchor) :=
  match file with
  | None => Ok []
  | Some text =>
      mapM_res (λ line, v ← json_loads line; anchor_from_dict v)
        (filter (λ l, l ≠ "") (splitlines text))
  end.

(** ** Lemmas *)

Lemma sign_audit_anchor_ok `{C : Crypto} integrity signer pk `{!SignerFor signer pk} a :
  sign_audit_anchor integrity signer = Ok a →
  in_ok integrity = true ∧ anchor_verify a pk = Ok true ∧
  an_replay_digest a = in_replay_digest integrity ∧ an_head_hash a = in_head_hash integrity ∧
  an_frame_count a = in_frame_count integrity ∧ an_signer_key_id a = signer_key_id signer.
Proof.
  unfold sign_audit_anchor. intros H. inv_bind. breflect.
  split; [done|]. split; [|done]. unfold anchor_verify, anchor_unsigned_payload.
  cbn [an_replay_digest an_head_hash an_frame_count an_signer_key_id an_signature].
  rewrite Hx0. unfold mbind, res_bind. f_equal. by eapply signer_verifies.
Qed.

Lemma sign_audit_anchor_total `{C : Crypto} integrity signer pk `{!SignerFor signer pk} :
  in_ok integrity = true → ∃ a, sign_audit_anchor integrity signer = Ok a.
Proof.
  intros Hok. unfold sign_audit_anchor. rewrite Hok. unfold mbind, res_bind. simpl.
  edestruct (signer_total (sg := signer) (pk := pk)) as [s Hs]. rewrite Hs. eauto.
Qed.

Lemma anchor_from_to_dict a :
  0 ≤ an_frame_count a → anchor_from_dict (norm (PDict (anchor_to_dict a))) = Ok a.
Proof.
  destruct a as [d h n k s]; simpl. intros Hn. unfold dict_get; simpl.
  destruct (n <? 0) eqn:E; breflect; [lia|done].
Qed.

Definition anchor_text (a : AuditAnchor) : Prop :=
  json_safe compact_style (PDict (anchor_to_dict a)) = true.

(** What the sink appends reads back, after what was there. *)
Lemma sink_append_anchors a file l :
  anchor_text a → 0 ≤ an_frame_count a →
  Forall (λ x, printable x = true ∧ x ≠ "") l →
  ∃ text, sink_append a (lines_text l) = (Ok tt, lines_text (l ++ [text])) ∧
    printable text = true ∧ text ≠ "" ∧
    (sink_anchors (Some (lines_text l)) = Ok file →
     sink_anchors (Some (lines_text (l ++ [text]))) = Ok (file ++ [a])).
Proof.
  intros Ha Hn Hl. exists (json_text compact_style (PDict (anchor_to_dict a))).
  assert (printable (json_text compact_style (PDict (anchor_to_dict a))) = true) as Hp
    by by apply json_text_printable.
  assert (json_text compact_style (PDict (anchor_to_dict a)) ≠ "") as Hne by done.
  unfold sink_append. rewrite json_dumps_safe by done. split; [|split; [done|split; [done|]]].
  { unfold mbind, M_bind, lift_res, modify. do 2 f_equal. rewrite lines_text_app.
    cbn [lines_text]. by rewrite string_app_nil_r. }
  unfold sink_anchors. rewrite !splitlines_lines; cycle 1.
  { apply Forall_app; split; [|by repeat constructor]. eapply Forall_impl; [done|naive_solver]. }
  { eapply Forall_impl; [done|naive_solver]. }
  rewrite filter_app, mapM_res_ok, mapM_res_ok. intros Hf.
  apply Forall2_app; [done|]. rewrite filter_cons_True by done. repeat constructor.
  rewrite (json_loads_dumps compact_style (PDict (anchor_to_dict a)));
    [|done|by apply wf_dict; split; [by apply str_nodup_spec|by repeat constructor]|by apply json_dumps_safe].
  by apply anchor_from_to_dict.
Qed.
