(* ===== verification/Replay.v ===== *)
(** replay.py: the append-only, hash-chained replay log, in memory with its
    JSONL file, and the SQLite log.

    Frames are kept in order.  The file is the text that [append] has written.
    [load_jsonl] is given the text; a frame whose identifier is not a string
    but whose hash and link are right is outside the typed model. *)

From stdpp Require Import gmap.
From S2P Require Import Prelude PyFloat PyVal Json Sha256 Base64 Crypto Models Policy Lines Anchors.

(** * Frames *)

Record ReplayFrame := {
  rf_frame_id : string;
  rf_previous_hash : string;
  rf_event : pydict;
  rf_frame_hash : string
}.

Definition frame_body (frame_id previous_hash event : pyval) : pyval :=
  PDict [("frame_id", frame_id); ("previous_hash", previous_hash); ("event", event)].

Definition frame_create (frame_id previous_hash : string) (event : pydict) : res ReplayFrame :=
  frame_hash ← canonical_digest (frame_body (PStr frame_id) (PStr previous_hash) (PDict event));
  Ok {| rf_frame_id := frame_id; rf_previous_hash := previous_hash; rf_event := event;
        rf_frame_hash := frame_hash |}.

Definition frame_to_dict (f : ReplayFrame) : pydict :=
  [("frame_id", PStr (rf_frame_id f)); ("previous_hash", PStr (rf_previous_hash f));
   ("event", PDict (rf_event f)); ("frame_hash", PStr (rf_frame_hash f))].

(** * The log *)

Record ReplayLog := {
  rl_path : bool;
  rl_frames : list ReplayFrame;
  rl_nonces : gset string;
  rl_file : option string
}.

Definition replay_new (path : bool) : ReplayLog :=
  {| rl_path := path; rl_frames := []; rl_nonces := ∅; rl_file := None |}.

(** [self._frames[-1].frame_hash if self._frames else ""] *)
Definition head_hash (frames : list ReplayFrame) : string :=
  match last frames with Some f => rf_frame_hash f | None => "" end.

Definition replay_append (frame_id : string) (event : pydict) : M ReplayLog ReplayFrame :=
  l ← get_state;
  frame ← lift_res (frame_create frame_id (head_hash (rl_frames l)) event);
  modify (λ l, {| rl_path := rl_path l; rl_frames := rl_frames l ++ [frame];
                  rl_nonces := rl_nonces l; rl_file := rl_file l |}) ;;
  (if rl_path l then
     text ← lift_res (json_dumps default_style (PDict (frame_to_dict frame)));
     modify (λ l, {| rl_path := rl_path l; rl_frames := rl_frames l; rl_nonces := rl_nonces l;
                     rl_file := Some (default "" (rl_file l) +:+ text +:+ newline) |})
   else mret tt) ;;
  mret frame.

Definition replay_get (l : ReplayLog) (frame_id : string) : option ReplayFrame :=
  List.find (λ f, String.eqb (rf_frame_id f) frame_id) (rl_frames l).

Definition replay_claim_nonce (nonce : string) : M ReplayLog unit :=
  l ← get_state;
  raise_if (bool_decide (nonce ∈ rl_nonces l)) (ValueError ("nonce already consumed: " +:+ nonce)) ;;
  put_state {| rl_path := rl_path l; rl_frames := rl_frames l;
               rl_nonces := rl_nonces l ∪ {[nonce]}; rl_file := rl_file l |}.

Definition replay_mark_nonce (nonce : string) : M ReplayLog unit := replay_claim_nonce nonce.

Definition replay_nonce_used (l : ReplayLog) (nonce : string) : bool :=
  bool_decide (nonce ∈ rl_nonces l).

Definition replay_events (l : ReplayLog) (event_type : option string) : res (list pydict) :=
  match event_type with
  | Some t =>
      fail_if (String.eqb t "") (ValueError "event_type must not be empty") ;;
      Ok (List.filter (λ e, py_eqb (dict_get "type" e) (PStr t)) (map rf_event (rl_frames l)))
  | None => Ok (map rf_event (rl_frames l))
  end.

Definition replay_events_for_nonce (l : ReplayLog) (nonce : string) : res (list pydict) :=
  fail_if (String.eqb nonce "") (ValueError "nonce must not be empty") ;;
  Ok (List.filter (λ e, py_eqb (dict_get "nonce" e) (PStr nonce)) (map rf_event (rl_frames l))).

(** ** [reconstruct_decisions] and [audit_summary]

    A record is the pair of its [authorization] and [execution] entries. *)

Definition decision_record : Type := pyval * pyval.

Definition authorization_entry (event : pydict) : pyval :=
  PDict [("issued", PBool (truthy (dict_get_or "issued" (PBool false) event)));
         ("request", dict_get "request" event);
         ("decision", dict_get "decision" event);
         ("artifact_payload", dict_get "artifact_payload" event)].

Definition execution_entry (event : pydict) : pyval :=
  PDict [("status", dict_get "status" event); ("result", dict_get "result" event);
         ("error", dict_get "error" event); ("policy_id", dict_get "policy_id" event)].

(** [decisions.setdefault(key, {...})], then the assignment of one entry. *)
Definition update_record (key : string) (upd : decision_record → decision_record)
    (ds : list (string * decision_record)) : list (string * decision_record) :=
  assoc_set key (upd (default (PNone, PNone) (assoc_get key ds))) ds.

Definition reconstruct_step (ds : list (string * decision_record)) (event : pydict)
    : list (string * decision_record) :=
  let nonce := dict_get "nonce" event in
  if py_eqb (dict_get "type" event) (PStr "authorization") then
    if truthy nonce then
      update_record (py_str nonce) (λ r, (authorization_entry event, r.2)) ds
    else ds
  else if py_eqb (dict_get "type" event) (PStr "execution") then
    if truthy nonce then
      update_record (py_str nonce) (λ r, (r.1, execution_entry event)) ds
    else ds
  else ds.

Definition reconstruct_decisions (l : ReplayLog) : list (string * decision_record) :=
  sort_by fst (fold_left reconstruct_step (map rf_event (rl_frames l)) []).

Definition events_with_nonce (l : ReplayLog) (t : string) : list pydict :=
  List.filter (λ e, py_eqb (dict_get "type" e) (PStr t) && truthy (dict_get "nonce" e))
    (map rf_event (rl_frames l)).

Definition count_status (status : string) (events : list pydict) : Z :=
  Z.of_nat (length (List.filter (λ e, py_eqb (dict_get "status" e) (PStr status)) events)).

Definition decision_record_dict (r : decision_record) : pyval :=
  PDict [("authorization", r.1); ("execution", r.2)].

Definition audit_summary (l : ReplayLog) : pydict :=
  let authorizations := events_with_nonce l "authorization" in
  let executions := events_with_nonce l "execution" in
  [("frame_count", PInt (Z.of_nat (length (rl_frames l))));
   ("authorization_count", PInt (Z.of_nat (length authorizations)));
   ("execution_count", PInt (Z.of_nat (length executions)));
   ("success_count", PInt (count_status "completed" executions));
   ("failure_count", PInt (count_status "failed" executions));
   ("nonces", of_strs (sort_strings
      (map (λ e, py_str (dict_get "nonce" e)) (authorizations ++ executions))));
   ("decisions", PDict (map (λ kr, (kr.1, decision_record_dict kr.2)) (reconstruct_decisions l)))].

(** ** Integrity *)

Fixpoint verify_chain_from (previous_hash : string) (frames : list ReplayFrame) : res bool :=
  match frames with
  | [] => Ok true
  | f :: frames =>
      expected ← frame_create (rf_frame_id f) previous_hash (rf_event f);
      if negb (String.eqb (rf_previous_hash f) previous_hash) ||
         negb (String.eqb (rf_frame_hash f) (rf_frame_hash expected))
      then Ok false
      else verify_chain_from (rf_frame_hash f) frames
  end.

Definition verify_chain (l : ReplayLog) : res bool := verify_chain_from "" (rl_frames l).

(** The loop of [verify_integrity]: the last hash, the duplicate identifiers
    in order, and the first error. *)
Fixpoint integrity_scan (index : Z) (previous_hash : string) (seen dups : list string)
    (err : option (Z * string * string)) (frames : list ReplayFrame)
    : res (string * list string * option (Z * string * string)) :=
  match frames with
  | [] => Ok (previous_hash, dups, err)
  | f :: frames =>
      let dups := if str_in (rf_frame_id f) seen then dups ++ [rf_frame_id f] else dups in
      expected ← frame_create (rf_frame_id f) previous_hash (rf_event f);
      let err := match err with
                 | Some _ => err
                 | None =>
                     if negb (String.eqb (rf_previous_hash f) previous_hash)
                     then Some (index, rf_frame_id f, "previous_hash_mismatch")
                     else if negb (String.eqb (rf_frame_hash f) (rf_frame_hash expected))
                     then Some (index, rf_frame_id f, "frame_hash_mismatch")
                     else None
                 end in
      integrity_scan (index + 1) (rf_frame_hash f) (rf_frame_id f :: seen) dups err frames
  end.

Definition replay_digest (frames : list ReplayFrame) : res string :=
  canonical_digest (PList (map (λ f, PDict (frame_to_dict f)) frames)).

Definition verify_integrity (l : ReplayLog) : res ReplayIntegrity :=
  scan ← integrity_scan 0 "" [] [] None (rl_frames l);
  let '(head, dups, err) := scan in
  digest ← replay_digest (rl_frames l);
  Ok {| in_ok := match err, dups with None, [] => true | _, _ => false end;
        in_frame_count := Z.of_nat (length (rl_frames l));
        in_head_hash := head;
        in_replay_digest := digest;
        in_duplicate_frame_ids := sort_strings dups;
        in_first_error := err |}.

(** The dictionary as the callers see it. *)
Definition integrity_to_dict (i : ReplayIntegrity) : pydict :=
  [("ok", PBool (in_ok i)); ("frame_count", PInt (in_frame_count i)); ("head_hash", PStr (in_head_hash i));
   ("replay_digest", PStr (in_replay_digest i));
   ("duplicate_frame_ids", of_strs (in_duplicate_frame_ids i));
   ("first_error", match in_first_error i with
                   | Some (index, frame_id, reason) =>
                       PDict [("index", PInt index); ("frame_id", PStr frame_id); ("reason", PStr reason)]
                   | None => PNone
                   end)].

Definition create_anchor (l : ReplayLog) (signer : Signer) : res AuditAnchor :=
  integrity ← verify_integrity l; sign_audit_anchor integrity signer.

(** [anchor(signer, sink)], with the sink's file as the state. *)
Definition replay_anchor (l : ReplayLog) (signer : Signer) : M string AuditAnchor :=
  a ← lift_res (create_anchor l signer); sink_append a ;; mret a.

(** [certified] of [certify_anchor]; [verify_anchor] is the same value. *)
Definition certify_anchor `{C : Crypto} (l : ReplayLog) (a : AuditAnchor) (public_key : PublicKey)
    : res bool :=
  integrity ← verify_integrity l;
  if in_ok integrity then
    verified ← anchor_verify a public_key;
    Ok (verified && String.eqb (an_replay_digest a) (in_replay_digest integrity) &&
        String.eqb (an_head_hash a) (in_head_hash integrity) &&
        (an_frame_count a =? in_frame_count integrity))
  else Ok false.

(** ** [load_jsonl] *)

(** [log._used_nonces.add(frame.event["nonce"])]; a nonce that is not a string
    never equals one that is asked for. *)
Definition load_nonce (event : pydict) (nonces : gset string) : res (gset string) :=
  if py_eqb (dict_get "type" event) (PStr "execution") then
    match assoc_get "nonce" event with
    | None => Raise (KeyError "nonce")
    | Some (PStr n) => Ok (nonces ∪ {[n]})
    | Some v => fail_if (negb (hashable v)) (TypeError "unhashable type") ;; Ok nonces
    end
  else Ok nonces.

Definition load_line (number : Z) (line : string) (l : ReplayLog) : res ReplayLog :=
  let invalid := ValueError ("invalid replay frame at line " +:+ string_of_Z number) in
  match json_loads line with
  | Ok (PDict d) =>
      match assoc_get "frame_id" d, assoc_get "previous_hash" d, assoc_get "event" d,
            assoc_get "frame_hash" d with
      | Some frame_id, Some previous_hash, Some event, Some frame_hash =>
          expected ← canonical_digest (frame_body frame_id previous_hash event);
          fail_if (negb (py_eqb frame_hash (PStr expected)))
            (ValueError ("invalid frame hash at line " +:+ string_of_Z number)) ;;
          let head := head_hash (rl_frames l) in
          fail_if (negb (py_eqb previous_hash (PStr head)))
            (ValueError ("broken replay chain at line " +:+ string_of_Z number)) ;;
          match event with
          | PDict ev =>
              nonces ← load_nonce ev (rl_nonces l);
              match frame_id with
              | PStr fid =>
                  Ok {| rl_path := rl_path l;
                        rl_frames := rl_frames l ++
                          [{| rf_frame_id := fid; rf_previous_hash := head; rf_event := ev;
                              rf_frame_hash := expected |}];
                        rl_nonces := nonces; rl_file := rl_file l |}
              | _ => unmodelled "frame_id is not a string"
              end
          | _ => Raise (AttributeError "get")
          end
      | _, _, _, _ => Raise invalid
      end
  | _ => Raise invalid
  end.

Fixpoint load_lines (number : Z) (lines : list string) (l : ReplayLog) : res ReplayLog :=
  match lines with
  | [] => Ok l
  | line :: lines => l ← load_line number line l; load_lines (number + 1) lines l
  end.

Definition load_jsonl (file : option string) : res ReplayLog :=
  let l := {| rl_path := true; rl_frames := []; rl_nonces := ∅; rl_file := file |} in
  match file with
  | None => Ok l
  | Some text => load_lines 1 (splitlines text) l
  end.

(** * Lemmas *)

(** A chain of frames after a given hash. *)
Fixpoint linked (previous_hash : string) (frames : list ReplayFrame) : Prop :=
  match frames with
  | [] => True
  | f :: frames =>
      frame_create (rf_frame_id f) previous_hash (rf_event f) = Ok f ∧
      linked (rf_frame_hash f) frames
  end.

Lemma frame_create_ok fid prev ev f :
  frame_create fid prev ev = Ok f →
  rf_frame_id f = fid ∧ rf_previous_hash f = prev ∧ rf_event f = ev ∧
  canonical_digest (frame_body (PStr fid) (PStr prev) (PDict ev)) = Ok (rf_frame_hash f).
Proof. unfold frame_create. intros H. inv_bind. done. Qed.

Lemma frame_create_fields f prev :
  (frame_create (rf_frame_id f) prev (rf_event f) = Ok f ↔
   ∃ e, frame_create (rf_frame_id f) prev (rf_event f) = Ok e ∧
        rf_previous_hash f = prev ∧ rf_frame_hash f = rf_frame_hash e).
Proof.
  split.
  - intros H. exists f. apply frame_create_ok in H as H'. naive_solver.
  - intros (e & H & Hp & Hh). apply frame_create_ok in H as H'. rewrite H. f_equal.
    destruct f, e; simpl in *. naive_solver congruence.
Qed.

Lemma verify_chain_linked prev frames : verify_chain_from prev frames = Ok true ↔ linked prev frames.
Proof.
  revert prev. induction frames as [|f frames IH]; intros prev; cbn [verify_chain_from linked]; [done|].
  rewrite frame_create_fields, <-IH. clear IH.
  destruct (frame_create _ _ _) as [e|]; unfold mbind, res_bind; [|naive_solver].
  destruct (String.eqb_spec (rf_previous_hash f) prev), (String.eqb_spec (rf_frame_hash f) (rf_frame_hash e));
    simpl; naive_solver congruence.
Qed.

Definition head_from (prev : string) (frames : list ReplayFrame) : string :=
  match last frames with Some f => rf_frame_hash f | None => prev end.

Lemma head_from_cons prev f frames : head_from prev (f :: frames) = head_from (rf_frame_hash f) frames.
Proof. unfold head_from. rewrite last_cons. by destruct (last frames). Qed.

Lemma linked_app prev a b : linked prev (a ++ b) ↔ linked prev a ∧ linked (head_from prev a) b.
Proof.
  revert prev. induction a as [|f a IH]; intros prev; simpl; [unfold head_from; naive_solver|].
  rewrite IH, head_from_cons. tauto.
Qed.

Lemma replay_append_ok fid ev l f l' :
  replay_append fid ev l = (Ok f, l') →
  frame_create fid (head_hash (rl_frames l)) ev = Ok f ∧
  rl_path l' = rl_path l ∧ rl_frames l' = rl_frames l ++ [f] ∧ rl_nonces l' = rl_nonces l ∧
  rl_file l' = if rl_path l then
      Some (default "" (rl_file l) +:+
            json_text default_style (PDict (frame_to_dict f)) +:+ newline)
    else rl_file l.
Proof.
  unfold replay_append. intros H. inv_bind. destruct (rl_path st) eqn:Hp; inv_bind.
  - match goal with H : json_dumps _ _ = Ok _ |- _ => apply json_dumps_ok in H as -> end. done.
  - done.
Qed.

(** An append that raises leaves the log as it was. *)
Lemma replay_append_raise fid ev l e l' :
  replay_append fid ev l = (Raise e, l') → l' = l.
Proof.
  unfold replay_append, mbind, M_bind, get_state, lift_res, modify.
  destruct (frame_create _ _ _) as [f|] eqn:E; [|naive_solver].
  destruct (rl_path l); [|done].
  assert (serializable (PDict (frame_to_dict f)) = true) as Hs.
  { apply frame_create_ok in E as (_ & _ & <- & E). unfold canonical_digest in E.
    apply res_bind_ok in E as (t & E & _). apply canonical_json_ok in E as [E _].
    cbn [serializable frame_body frame_to_dict forallb snd] in *.
    by rewrite !andb_true_r in *. }
  unfold json_dumps. by rewrite Hs.
Qed.

Lemma replay_append_linked fid ev l f l' :
  linked "" (rl_frames l) → replay_append fid ev l = (Ok f, l') → linked "" (rl_frames l').
Proof.
  intros Hl H. apply replay_append_ok in H as (Hf & _ & -> & _).
  apply linked_app. split; [done|]. simpl. split; [|done].
  pose proof (frame_create_ok _ _ _ _ Hf) as (-> & _ & -> & _). done.
Qed.

Lemma linked_get prev frames i f :
  linked prev frames → frames !! i = Some f →
  frame_create (rf_frame_id f) (head_from prev (take i frames)) (rf_event f) = Ok f.
Proof.
  intros Hl Hi. rewrite <-(take_drop_middle frames i f Hi) in Hl.
  apply linked_app in Hl as [_ [Hl _]]. exact Hl.
Qed.

(** ** Tamper evidence *)

(** The same frame up to the order of the event's entries. *)
Definition same_frame (f g : ReplayFrame) : Prop :=
  rf_frame_id f = rf_frame_id g ∧ rf_previous_hash f = rf_previous_hash g ∧
  rf_frame_hash f = rf_frame_hash g ∧ norm (PDict (rf_event f)) = norm (PDict (rf_event g)).

(** The event is JSON: it prints so that it reads back. *)
Record json_event (st : json_style) (f : ReplayFrame) : Prop := {
  je_safe : json_safe st (PDict (rf_event f)) = true;
  je_wf : wf (PDict (rf_event f)) = true
}.

(** The text that the hash of a frame is taken of. *)
Definition frame_text (f : ReplayFrame) : string :=
  canonical_text (frame_body (PStr (rf_frame_id f)) (PStr (rf_previous_hash f)) (PDict (rf_event f))).

Lemma frame_body_binds f g prev prev' :
  frame_create (rf_frame_id f) prev (rf_event f) = Ok f →
  frame_create (rf_frame_id g) prev' (rf_event g) = Ok g →
  json_event canonical_style f → json_event canonical_style g →
  collision_free [frame_text f; frame_text g] → rf_frame_hash f = rf_frame_hash g →
  same_frame f g ∧ prev = prev'.
Proof.
  intros Hf Hg [Hfs Hfw] [Hgs Hgw] Hc Heq.
  apply frame_create_ok in Hf as (_ & Hpf & _ & Hf). apply frame_create_ok in Hg as (_ & Hpg & _ & Hg).
  unfold frame_text in Hc. rewrite Hpf, Hpg in Hc. rewrite <-Heq in Hg.
  pose proof (λ H1 H2 H3 H4, canonical_digest_binds _ _ _ H1 H2 H3 H4 Hc Hf Hg) as Htg.
  unfold frame_body in Htg. lapply Htg; clear Htg; [intros Htg|].
  2:{ cbn [json_safe forallb fst snd canonical_style ensure_ascii negb orb andb] in *. by rewrite ?Hfs. }
  lapply Htg; clear Htg; [intros Htg|].
  2:{ cbn [json_safe forallb fst snd canonical_style ensure_ascii negb orb andb] in *. by rewrite ?Hgs. }
  lapply Htg; clear Htg; [intros Htg|].
  2:{ cbn [wf forallb map fst snd andb] in *. by rewrite ?Hfw. }
  lapply Htg; clear Htg; [intros Htg|].
  2:{ cbn [wf forallb map fst snd andb] in *. by rewrite ?Hgw. }
  assert (∀ k, norm <$> assoc_get k [("frame_id", PStr (rf_frame_id f)); ("previous_hash", PStr prev);
                 ("event", PDict (rf_event f))] =
               norm <$> assoc_get k [("frame_id", PStr (rf_frame_id g)); ("previous_hash", PStr prev');
                 ("event", PDict (rf_event g))]) as Hk
    by (intros k; apply norm_dict_get; by try apply str_nodup_spec).
  pose proof (Hk "frame_id") as H1. pose proof (Hk "previous_hash") as H2.
  pose proof (Hk "event") as H3. cbn in H1, H2. unfold same_frame.
  change (Some (norm (PDict (rf_event f))) = Some (norm (PDict (rf_event g)))) in H3.
  split_and!; congruence.
Qed.

Lemma linked_head_nonempty f prev : frame_create (rf_frame_id f) prev (rf_event f) = Ok f → rf_frame_hash f ≠ "".
Proof.
  intros H. apply frame_create_ok in H as (_ & _ & _ & H). unfold canonical_digest in H.
  apply res_bind_ok in H as (t & _ & H). injection H as <-. apply sha256_hex_nonempty.
Qed.

Lemma linked_same_head fs gs :
  linked "" fs → linked "" gs →
  Forall (json_event canonical_style) fs → Forall (json_event canonical_style) gs →
  collision_free (map frame_text (fs ++ gs)) →
  head_hash fs = head_hash gs → Forall2 same_frame fs gs.
Proof.
  revert gs. induction fs as [|f fs IH] using rev_ind; intros gs Hf Hg Hjf Hjg Hc Hh.
  - destruct gs as [|g gs _] using rev_ind; [constructor|].
    apply linked_app in Hg as [_ [Hg _]]. apply linked_head_nonempty in Hg.
    unfold head_hash in Hh. rewrite last_snoc in Hh. simpl in Hh. congruence.
  - apply linked_app in Hf as [Hf1 [Hf2 _]].
    destruct gs as [|g gs _] using rev_ind.
    { apply linked_head_nonempty in Hf2. unfold head_hash in Hh. rewrite last_snoc in Hh. done. }
    apply linked_app in Hg as [Hg1 [Hg2 _]].
    apply Forall_app in Hjf as [Hjf1 Hjf2%Forall_inv].
    apply Forall_app in Hjg as [Hjg1 Hjg2%Forall_inv].
    unfold head_hash in Hh. rewrite !last_snoc in Hh.
    assert (∀ l, l ⊆ (fs ++ [f]) ++ gs ++ [g] → collision_free (map frame_text l)) as Hsub.
    { intros l Hl. eapply collision_free_mono; [|exact Hc]. intros a (x & -> & Hx)%list_elem_of_fmap.
      apply list_elem_of_fmap. eauto. }
    destruct (frame_body_binds f g _ _ Hf2 Hg2 Hjf2 Hjg2) as [Hs Hp]; [|done|].
    { apply (Hsub [f; g]). set_solver. }
    apply Forall2_app; [|by constructor]. apply IH; [done..| |done]. apply Hsub. set_solver.
Qed.

(** ** [verify_integrity] *)

Lemma integrity_scan_spec idx prev seen dups err frames head dups' err' :
  integrity_scan idx prev seen dups err frames = Ok (head, dups', err') →
  head = head_from prev frames ∧
  (err' = None ↔ err = None ∧ linked prev frames) ∧
  (dups' = [] ↔ dups = [] ∧ NoDup (map rf_frame_id frames) ∧
     ∀ f, f ∈ frames → rf_frame_id f ∉ seen).
Proof.
  revert idx prev seen dups err. induction frames as [|f frames IH];
    intros idx prev seen dups err H; cbn [integrity_scan] in H.
  - injection H as <- <- <-. split; [done|]. split; [simpl; tauto|].
    split; [intros ->; split; [done|split; [constructor|set_solver]]|tauto].
  - apply res_bind_ok in H as (e & He & H). apply IH in H as (-> & Herr & Hdups).
    split; [by rewrite head_from_cons|]. split.
    + rewrite Herr. cbn [linked]. rewrite frame_create_fields.
      destruct err as [?|]; [naive_solver|].
      destruct (String.eqb_spec (rf_previous_hash f) prev),
        (String.eqb_spec (rf_frame_hash f) (rf_frame_hash e)); simpl; naive_solver congruence.
    + rewrite Hdups. cbn [map]. rewrite NoDup_cons.
      assert ((if str_in (rf_frame_id f) seen then dups ++ [rf_frame_id f] else dups) = [] ↔
              dups = [] ∧ rf_frame_id f ∉ seen) as ->.
      { destruct (str_in _ _) eqn:E.
        - apply str_in_spec in E. rewrite app_nil. naive_solver.
        - split; [|naive_solver]. intros ->. split; [done|].
          intros Hin%str_in_spec. congruence. }
      split.
      * intros ((-> & Hf) & Hnd & Hseen). split_and!; [done| |done|].
        -- intros (g & Hg & Hin)%list_elem_of_fmap. apply (Hseen g Hin). rewrite Hg. by left.
        -- intros g [->|Hin]%elem_of_cons; [done|]. specialize (Hseen g Hin). set_solver.
      * intros (-> & [Hnin Hnd] & Hseen). split_and!; [done|apply Hseen; by left|done|].
        intros g Hin [Heq|Hin']%elem_of_cons.
        -- apply Hnin. apply list_elem_of_fmap. by exists g.
        -- apply (Hseen g); [by right|done].
Qed.

Lemma frame_create_total fid prev ev : serializable (PDict ev) = true → ∃ f, frame_create fid prev ev = Ok f.
Proof.
  intros H. unfold frame_create, canonical_digest, canonical_json, json_dumps.
  cbn [serializable frame_body forallb snd] in *. rewrite H. simpl. eauto.
Qed.

Definition events_serializable (frames : list ReplayFrame) : Prop :=
  Forall (λ f, serializable (PDict (rf_event f)) = true) frames.

Lemma integrity_scan_total idx prev seen dups err frames :
  events_serializable frames → ∃ r, integrity_scan idx prev seen dups err frames = Ok r.
Proof.
  intros H. revert idx prev seen dups err. induction H as [|f frames Hf _ IH];
    intros idx prev seen dups err; cbn [integrity_scan]; [eauto|].
  destruct (frame_create_total (rf_frame_id f) prev (rf_event f) Hf) as [e He].
  rewrite He. unfold mbind, res_bind. apply IH.
Qed.

Lemma frames_serializable frames :
  events_serializable frames → ∃ d, replay_digest frames = Ok d.
Proof.
  intros H. unfold replay_digest, canonical_digest, canonical_json, json_dumps.
  assert (serializable (PList (map (λ f, PDict (frame_to_dict f)) frames)) = true) as ->.
  { cbn [serializable]. apply forallb_forall. intros v (f & <- & Hf)%in_map_iff.
    unfold events_serializable in H. rewrite List.Forall_forall in H. specialize (H f Hf).
    cbn [serializable frame_to_dict forallb snd] in *. by rewrite H. }
  unfold mbind, res_bind. eauto.
Qed.

Lemma verify_integrity_spec l :
  events_serializable (rl_frames l) →
  ∃ i, verify_integrity l = Ok i ∧
    (in_ok i = true ↔ linked "" (rl_frames l) ∧ NoDup (map rf_frame_id (rl_frames l))) ∧
    in_head_hash i = head_hash (rl_frames l) ∧
    in_frame_count i = Z.of_nat (length (rl_frames l)) ∧
    replay_digest (rl_frames l) = Ok (in_replay_digest i).
Proof.
  intros Hs. unfold verify_integrity.
  destruct (integrity_scan_total 0 "" [] [] None _ Hs) as [[[head dups] err] Hscan].
  destruct (frames_serializable _ Hs) as [d Hd]. rewrite Hscan. unfold mbind, res_bind. rewrite Hd.
  eexists. split; [done|]. cbn [in_ok in_head_hash in_frame_count in_replay_digest].
  apply integrity_scan_spec in Hscan as (-> & Herr & Hdups). split; [|done].
  transitivity (err = None ∧ dups = []).
  - destruct err, dups; split; (done || by intros [? ?]).
  - rewrite Herr, Hdups. set_solver.
Qed.

Lemma verify_chain_total prev frames :
  events_serializable frames → ∃ b, verify_chain_from prev frames = Ok b.
Proof.
  intros H. revert prev. induction H as [|f frames Hf _ IH]; intros prev; cbn [verify_chain_from]; [eauto|].
  destruct (frame_create_total (rf_frame_id f) prev (rf_event f) Hf) as [e He].
  rewrite He. unfold mbind, res_bind. destruct (_ || _); eauto.
Qed.

(** ** The file reads back *)

Definition frame_line (f : ReplayFrame) : string := json_text default_style (PDict (frame_to_dict f)).

Definition norm_frame (f : ReplayFrame) : ReplayFrame :=
  {| rf_frame_id := rf_frame_id f; rf_previous_hash := rf_previous_hash f;
     rf_event := norm_entries (rf_event f); rf_frame_hash := rf_frame_hash f |}.

(** The nonces that [load_jsonl] restores. *)
Definition is_execution (event : pydict) : bool := py_eqb (dict_get "type" event) (PStr "execution").
Definition event_nonce (event : pydict) : gset string :=
  if is_execution event then
    match assoc_get "nonce" event with Some (PStr n) => {[n]} | _ => ∅ end
  else ∅.
Definition executed_nonces (frames : list ReplayFrame) : gset string :=
  ⋃ map (λ f, event_nonce (rf_event f)) frames.

(** A frame whose line reads back: JSON in UTF-8, and a string nonce in an
    execution event. *)
Record storable (f : ReplayFrame) : Prop := {
  st_id : utf8_str (rf_frame_id f) = true;
  st_prev : utf8_str (rf_previous_hash f) = true;
  st_hash : utf8_str (rf_frame_hash f) = true;
  st_event : json_event default_style f;
  st_nonce : is_execution (rf_event f) = true → ∃ n, assoc_get "nonce" (rf_event f) = Some (PStr n)
}.

Lemma canonical_digest_norm v : canonical_digest (norm v) = canonical_digest v.
Proof.
  unfold canonical_digest, canonical_json, json_dumps. by rewrite serializable_norm, json_text_norm.
Qed.

Lemma py_eqb_norm_str v s : py_eqb (norm v) (PStr s) = py_eqb v (PStr s).
Proof. by destruct v. Qed.

Lemma norm_frame_create prev f :
  frame_create (rf_frame_id f) prev (rf_event f) = Ok f →
  canonical_digest (frame_body (PStr (rf_frame_id f)) (PStr prev) (PDict (norm_entries (rf_event f)))) =
    Ok (rf_frame_hash f).
Proof.
  intros H. apply frame_create_ok in H as (_ & _ & _ & H). rewrite <-H.
  rewrite <-(canonical_digest_norm (frame_body _ _ (PDict (norm_entries _)))).
  rewrite <-(canonical_digest_norm (frame_body _ _ (PDict (rf_event f)))).
  unfold frame_body. f_equal. rewrite !norm_PDict. unfold norm_entries at 1 3.
  cbn [map fst snd]. by rewrite <-norm_PDict, norm_idemp.
Qed.

Lemma frame_dict_norm f :
  norm (PDict (frame_to_dict f)) =
    PDict [("event", PDict (norm_entries (rf_event f))); ("frame_hash", PStr (rf_frame_hash f));
           ("frame_id", PStr (rf_frame_id f)); ("previous_hash", PStr (rf_previous_hash f))].
Proof. reflexivity. Qed.

Lemma storable_line f : storable f →
  json_safe default_style (PDict (frame_to_dict f)) = true ∧ wf (PDict (frame_to_dict f)) = true.
Proof.
  intros [Hi Hp Hh [Hs Hw] _]. unfold frame_to_dict.
  split; cbn [json_safe wf forallb map fst snd default_style ensure_ascii negb orb andb] in *.
  - rewrite Hi, Hp, Hh, Hs. done.
  - rewrite Hw. done.
Qed.

Lemma load_nonce_norm ev nonces :
  NoDup (fst <$> ev) → (is_execution ev = true → ∃ n, assoc_get "nonce" ev = Some (PStr n)) →
  load_nonce (norm_entries ev) nonces = Ok (nonces ∪ event_nonce ev).
Proof.
  intros Hnd Hn. unfold load_nonce, event_nonce. rewrite dict_get_norm_entries by done.
  rewrite py_eqb_norm_str. change (py_eqb (dict_get "type" ev) (PStr "execution")) with (is_execution ev).
  destruct (is_execution ev); [|by rewrite union_empty_r_L].
  destruct Hn as [n Hn]; [done|]. rewrite assoc_get_norm_entries, Hn by done. done.
Qed.

Lemma load_line_frame n f l :
  storable f → frame_create (rf_frame_id f) (head_hash (rl_frames l)) (rf_event f) = Ok f →
  load_line n (frame_line f) l =
    Ok {| rl_path := rl_path l; rl_frames := rl_frames l ++ [norm_frame f];
          rl_nonces := rl_nonces l ∪ event_nonce (rf_event f); rl_file := rl_file l |}.
Proof.
  intros Hst Hc. destruct (storable_line f Hst) as [Hs Hw]. unfold load_line, frame_line.
  rewrite (json_loads_dumps default_style _ _ Hs Hw (json_dumps_safe _ _ Hs)), frame_dict_norm.
  pose proof (frame_create_ok _ _ _ _ Hc) as (_ & Hp & _ & _).
  pose proof (norm_frame_create _ _ Hc) as Hd. rewrite <-Hp in Hd |- *.
  cbn [assoc_get String.eqb Ascii.eqb Bool.eqb]. rewrite Hd. unfold mbind, res_bind.
  cbn [py_eqb]. rewrite !String.eqb_refl. cbn [negb fail_if].
  rewrite load_nonce_norm; [|destruct Hst as [_ _ _ [_ Hw'] _]; by apply wf_dict in Hw' as [? _]|apply Hst].
  done.
Qed.

Lemma head_hash_norm frames : head_hash (map norm_frame frames) = head_hash frames.
Proof. unfold head_hash. rewrite fmap_last. by destruct (last frames). Qed.

Lemma load_lines_frames n frames l :
  Forall storable frames → linked (head_hash (rl_frames l)) frames →
  load_lines n (map frame_line frames) l =
    Ok {| rl_path := rl_path l; rl_frames := rl_frames l ++ map norm_frame frames;
          rl_nonces := rl_nonces l ∪ executed_nonces frames; rl_file := rl_file l |}.
Proof.
  intros Hst. revert n l. induction Hst as [|f frames Hf _ IH]; intros n l Hl; cbn [map load_lines].
  - rewrite app_nil_r. unfold executed_nonces. simpl. rewrite union_empty_r_L. by destruct l.
  - destruct Hl as [Hc Hl]. rewrite (load_line_frame n f l Hf Hc). unfold mbind, res_bind.
    rewrite IH; cbn [rl_path rl_frames rl_nonces rl_file].
    + unfold executed_nonces. cbn [map]. rewrite <-app_assoc. rewrite union_list_cons. do 2 f_equal. by rewrite (assoc_L (∪)).
    + unfold head_hash. rewrite last_snoc. done.
Qed.

(** What [append] keeps true of a log with a file. *)
Definition log_stored (l : ReplayLog) : Prop :=
  rl_path l = true ∧ default "" (rl_file l) = lines_text (map frame_line (rl_frames l)).

Lemma replay_append_stored fid ev l f l' :
  log_stored l → replay_append fid ev l = (Ok f, l') → log_stored l'.
Proof.
  intros [Hp Hf] H. apply replay_append_ok in H as (_ & Hp' & Hfr & _ & Hfile).
  rewrite Hp in Hfile. split; [congruence|]. rewrite Hfile, Hfr. cbn [default].
  rewrite map_app, lines_text_app, <-Hf. cbn [map lines_text]. by rewrite string_app_nil_r.
Qed.

Lemma load_jsonl_stored l :
  log_stored l → linked "" (rl_frames l) → Forall storable (rl_frames l) →
  load_jsonl (rl_file l) =
    Ok {| rl_path := true; rl_frames := map norm_frame (rl_frames l);
          rl_nonces := executed_nonces (rl_frames l); rl_file := rl_file l |}.
Proof.
  intros [_ Hf] Hl Hst. unfold load_jsonl. destruct (rl_file l) as [text|] eqn:Hfile; simpl in Hf.
  - rewrite Hf, splitlines_lines.
    + rewrite load_lines_frames; [|done|done]. cbn [rl_path rl_frames rl_nonces rl_file].
      by rewrite union_empty_l_L.
    + apply Forall_map. eapply Forall_impl; [done|]. intros f Hs.
      apply storable_line in Hs as [Hs _]. by apply json_text_printable.
  - destruct (rl_frames l) as [|f frames]; [done|]. simpl in Hf. done.
Qed.

(** ** Sequences of calls *)

Inductive replay_call :=
| ReplayAppend (frame_id : string) (event : pydict)
| ReplayClaim (nonce : string).

(** The log after a call; a call that raises leaves the log it left. *)
Definition replay_run (l : ReplayLog) (c : replay_call) : ReplayLog :=
  match c with
  | ReplayAppend fid ev => (replay_append fid ev l).2
  | ReplayClaim n => (replay_claim_nonce n l).2
  end.

Lemma replay_claim_spec n l :
  replay_claim_nonce n l =
    if bool_decide (n ∈ rl_nonces l) then (Raise (ValueError ("nonce already consumed: " +:+ n)), l)
    else (Ok tt, {| rl_path := rl_path l; rl_frames := rl_frames l;
                    rl_nonces := rl_nonces l ∪ {[n]}; rl_file := rl_file l |}).
Proof.
  unfold replay_claim_nonce, mbind, M_bind, get_state, raise_if, put_state.
  by destruct (bool_decide _).
Qed.

(** What every call preserves and what it may only extend. *)
Record replay_step_ok (l l' : ReplayLog) : Prop := {
  rs_path : rl_path l' = rl_path l;
  rs_frames : rl_frames l `prefix_of` rl_frames l';
  rs_nonces : rl_nonces l ⊆ rl_nonces l';
  rs_linked : linked "" (rl_frames l) → linked "" (rl_frames l');
  rs_stored : log_stored l → log_stored l'
}.

#[export] Instance replay_step_ok_preorder : PreOrder replay_step_ok.
Proof.
  split.
  - intros l. by split.
  - intros l1 l2 l3 [] []. split; try (by etransitivity); auto.
Qed.

Lemma replay_run_ok l c : replay_step_ok l (replay_run l c).
Proof.
  destruct c as [fid ev|n]; cbn [replay_run].
  - destruct (replay_append fid ev l) as [[f|e] l'] eqn:H; cbn [snd].
    + apply replay_append_ok in H as H'. destruct H' as (_ & Hp & Hf & Hn & _). split.
      * done.
      * rewrite Hf. by apply prefix_app_r.
      * by rewrite Hn.
      * intros Hl. by eapply replay_append_linked.
      * intros Hl. by eapply replay_append_stored.
    + apply replay_append_raise in H as ->. reflexivity.
  - rewrite replay_claim_spec. destruct (bool_decide _); cbn [snd]; [reflexivity|].
    split; cbn [rl_path rl_frames rl_nonces]; [done|done|set_solver|done|done].
Qed.

Lemma replay_runs_ok l calls : replay_step_ok l (fold_left replay_run calls l).
Proof.
  revert l. induction calls as [|c calls IH]; intros l; simpl; [reflexivity|].
  etransitivity; [apply replay_run_ok|apply IH].
Qed.

(** * Properties *)

(** C18. The log is append-only and hash-chained: whatever calls follow, earlier
    frames keep their place and content, the chain keeps verifying, and a
    consumed nonce can never be consumed again. *)
Theorem replay_append_only (path : bool) (before after : list replay_call) (nonce : string) :
  let l := fold_left replay_run before (replay_new path) in
  let l' := fold_left replay_run after l in
  rl_frames l `prefix_of` rl_frames l' ∧
  verify_chain l' = Ok true ∧
  (replay_nonce_used l nonce = true →
   replay_claim_nonce nonce l' = (Raise (ValueError ("nonce already consumed: " +:+ nonce)), l')).
Proof.
  intros l l'. pose proof (replay_runs_ok (replay_new path) before) as [_ _ _ Hb _].
  pose proof (replay_runs_ok l after) as [_ Hf Hn Hl _]. fold l' in Hf, Hn, Hl.
  split; [done|]. split.
  - apply verify_chain_linked, Hl, Hb. done.
  - intros Hu%bool_decide_eq_true. rewrite replay_claim_spec.
    by rewrite bool_decide_eq_true_2 by (apply Hn, Hu).
Qed.

Definition example_calls : list replay_call :=
  [ReplayAppend "f-1" [("type", PStr "authorization"); ("nonce", PStr "n-1")]; ReplayClaim "n-1";
   ReplayAppend "f-2" [("type", PStr "execution"); ("nonce", PStr "n-1"); ("status", PStr "completed")]].
Definition example_log : ReplayLog := fold_left replay_run example_calls (replay_new true).

Lemma replay_append_only_witness :
  replay_claim_nonce "n-1" example_log =
    (Raise (ValueError "nonce already consumed: n-1"), example_log).
Proof.
  apply (proj2 (proj2 (replay_append_only true example_calls [] "n-1"))).
  vm_compute. reflexivity.
Defined.

(** C19. The head hash commits to the whole history: two chains that verify and
    have the same head hash hold the same frames, up to the order of entries
    inside events, when SHA-256 tells the hashed texts of these frames apart
    (no two different ones of them have one digest). *)
Theorem replay_tamper_evident (fs gs : list ReplayFrame) :
  verify_chain_from "" fs = Ok true → verify_chain_from "" gs = Ok true →
  Forall (json_event canonical_style) fs → Forall (json_event canonical_style) gs →
  collision_free (map frame_text (fs ++ gs)) → head_hash fs = head_hash gs →
  Forall2 same_frame fs gs.
Proof. rewrite !verify_chain_linked. apply linked_same_head. Qed.

Definition frames_of (r : res ReplayFrame) : list ReplayFrame :=
  match r with Ok f => [f] | Raise _ => [] end.

Lemma replay_tamper_evident_witness :
  let fs := frames_of (frame_create "f-1" "" [("a", PInt 1); ("b", PInt 2)]) in
  let gs := frames_of (frame_create "f-1" "" [("b", PInt 2); ("a", PInt 1)]) in
  Forall2 same_frame fs gs.
Proof.
  apply replay_tamper_evident; [vm_compute; reflexivity|vm_compute; reflexivity| | | |vm_compute; reflexivity].
  - constructor; [by split; vm_compute|constructor].
  - constructor; [by split; vm_compute|constructor].
  - apply (bool_decide_unpack _). vm_compute. exact I.
Defined.

(** C34. The JSONL file reads back as the log: after any appends and claims on a
    fresh durable log whose frames are [storable] (strings of Unicode characters,
    distinct keys, floats that read back from their [repr], and a string nonce in
    every execution event), [load_jsonl] of its file gives the same frames up to
    the order of entries inside events, with a chain that verifies and the same
    head; the nonces it restores are those of the execution frames. *)
Theorem replay_reload (calls : list replay_call) :
  let l := fold_left replay_run calls (replay_new true) in
  Forall storable (rl_frames l) →
  ∃ l', load_jsonl (rl_file l) = Ok l' ∧
    rl_frames l' = map norm_frame (rl_frames l) ∧
    verify_chain l' = Ok true ∧ head_hash (rl_frames l') = head_hash (rl_frames l) ∧
    rl_nonces l' = executed_nonces (rl_frames l).
Proof.
  intros l Hst. pose proof (replay_runs_ok (replay_new true) calls) as [_ _ _ Hl Hs].
  fold l in Hl, Hs.
  assert (linked "" (rl_frames l)) as Hlink by (by apply Hl).
  assert (log_stored l) as Hstored by (by apply Hs).
  rewrite (load_jsonl_stored l Hstored Hlink Hst). eexists. split; [done|].
  cbn [rl_frames rl_nonces]. split; [done|]. split; [|split; [apply head_hash_norm|done]].
  apply verify_chain_linked. cbn [rl_frames]. clear -Hlink.
  revert Hlink. generalize "". induction (rl_frames l) as [|f frames IH]; intros prev; [done|].
  cbn [map linked]. intros [Hc Hl]. split; [|by apply IH].
  apply frame_create_fields. pose proof (norm_frame_create _ _ Hc) as Hd.
  unfold frame_create. cbn [norm_frame rf_frame_id rf_event rf_previous_hash rf_frame_hash].
  rewrite Hd. unfold mbind, res_bind. eexists. split; [done|]. split; [|done].
  by apply frame_create_ok in Hc as (_ & ? & _).
Qed.

(** An execution event without a nonce is appended, and the file is never read
    again. *)
Example nonceless_execution_unreadable :
  let r := replay_append "execution:x" [("type", PStr "execution")] (replay_new true) in
  (∃ f, r.1 = Ok f) ∧ load_jsonl (rl_file r.2) = Raise (KeyError "nonce").
Proof. vm_compute. split; [by eexists|done]. Qed.

(** A nonce that was claimed, but whose execution left no frame, is free again
    after a reload. *)
Example claimed_nonce_forgotten :
  let l := fold_left replay_run [ReplayAppend "a" [("type", PStr "authorization")]; ReplayClaim "n1"] (replay_new true) in
  replay_nonce_used l "n1" = true ∧
  ∃ l', load_jsonl (rl_file l) = Ok l' ∧ replay_nonce_used l' "n1" = false.
Proof. split; [vm_compute; reflexivity|]. eexists. split; vm_compute; reflexivity. Qed.

Lemma replay_reload_witness :
  ∃ l', load_jsonl (rl_file example_log) = Ok l' ∧
    rl_frames l' = map norm_frame (rl_frames example_log) ∧
    verify_chain l' = Ok true ∧ head_hash (rl_frames l') = head_hash (rl_frames example_log) ∧
    rl_nonces l' = executed_nonces (rl_frames example_log).
Proof.
  apply (replay_reload example_calls). vm_compute.
  repeat constructor; try discriminate. intros _. eexists. reflexivity.
Defined.

(** [verify_integrity] accepts exactly the intact logs: it is [ok] when the
    chain verifies and no frame identifier repeats, and it reports the head
    hash, the length and the digest of the frames. *)
Lemma verify_integrity_iff (l : ReplayLog) :
  events_serializable (rl_frames l) →
  ∃ i, verify_integrity l = Ok i ∧
    (in_ok i = true ↔ verify_chain l = Ok true ∧ NoDup (map rf_frame_id (rl_frames l))) ∧
    in_head_hash i = head_hash (rl_frames l) ∧
    in_frame_count i = Z.of_nat (length (rl_frames l)) ∧
    replay_digest (rl_frames l) = Ok (in_replay_digest i).
Proof.
  intros H. unfold verify_chain. setoid_rewrite verify_chain_linked. by apply verify_integrity_spec.
Qed.

(** A log whose second frame was altered after the fact. *)
Definition tampered_log : ReplayLog := {|
  rl_path := false; rl_nonces := ∅; rl_file := None;
  rl_frames := map (λ f, {| rf_frame_id := rf_frame_id f; rf_previous_hash := rf_previous_hash f;
                            rf_event := rf_event f ++ [("x", PInt 1)];
                            rf_frame_hash := rf_frame_hash f |}) (rl_frames example_log) |}.

Lemma verify_integrity_tampered :
  ∃ i, verify_integrity tampered_log = Ok i ∧
    (in_ok i = true ↔ verify_chain tampered_log = Ok true ∧
       NoDup (map rf_frame_id (rl_frames tampered_log))).
Proof.
  destruct (verify_integrity_iff tampered_log) as (i & H1 & H2 & _);
    [by repeat constructor|by exists i].
Defined.

(** An anchor certifies the log it was made from, and nothing else: the
    log it certifies has, up to the order of entries inside events, the frames
    of the anchored log, when SHA-256 tells their texts apart. *)
Lemma anchor_certifies `{C : Crypto} (l l' : ReplayLog) (signer : Signer) (pk : PublicKey)
    (a : AuditAnchor) :
  SignerFor signer pk → create_anchor l signer = Ok a →
  certify_anchor l a pk = Ok true ∧
  (Forall (json_event canonical_style) (rl_frames l) →
   Forall (json_event canonical_style) (rl_frames l') →
   collision_free (map frame_text (rl_frames l ++ rl_frames l')) →
   certify_anchor l' a pk = Ok true → Forall2 same_frame (rl_frames l) (rl_frames l')).
Proof.
  intros Hsg Ha. unfold create_anchor in Ha. apply res_bind_ok in Ha as (i & Hi & Ha).
  destruct (sign_audit_anchor_ok i signer pk a Ha) as (Hok & Hv & Hd & Hh & Hn & _).
  split.
  - unfold certify_anchor. rewrite Hi. unfold mbind, res_bind. rewrite Hok, Hv. cbv beta iota.
    by rewrite Hd, Hh, Hn, !String.eqb_refl, Z.eqb_refl.
  - intros Hj Hj' Hfree Hc. unfold certify_anchor in Hc. apply res_bind_ok in Hc as (i' & Hi' & Hc).
    destruct (in_ok i') eqn:Hok'; [|done]. apply res_bind_ok in Hc as (b & _ & Hc).
    injection Hc as Hc. breflect.
    assert (∀ l, Forall (json_event canonical_style) (rl_frames l) →
            events_serializable (rl_frames l)) as Hser.
    { intros l0 Hl0. eapply Forall_impl; [exact Hl0|]. intros f [Hs _].
      by apply json_safe_serializable in Hs. }
    destruct (verify_integrity_spec l (Hser l Hj)) as (j & Hj1 & Hj2 & Hj3 & _).
    destruct (verify_integrity_spec l' (Hser l' Hj')) as (j' & Hj1' & Hj2' & Hj3' & _).
    assert (j = i) as -> by congruence. assert (j' = i') as -> by congruence.
    apply linked_same_head; [by apply Hj2|by apply Hj2'|done|done|done|]. congruence.
Qed.

Lemma anchor_certifies_witness :
  ∃ a, create_anchor example_log (LocalEd25519Signer (C := toy_crypto) "auditor" "k") = Ok a ∧
       certify_anchor example_log a ("k" : @PublicKey toy_crypto) = Ok true.
Proof.
  set (a := match create_anchor example_log (LocalEd25519Signer (C := toy_crypto) "auditor" "k") with
            | Ok a => a | Raise _ => Build_AuditAnchor "" "" 0 "" "" end).
  exists a. assert (create_anchor example_log (LocalEd25519Signer (C := toy_crypto) "auditor" "k") = Ok a) as H
    by (vm_compute; reflexivity).
  split; [exact H|].
  exact (proj1 (anchor_certifies example_log example_log _ _ a
    (local_signer_for (C := toy_crypto) "auditor" "k") H)).
Defined.
