(* ===== verification/ReplaySqlite.v ===== *)
(** replay.py: [SQLiteReplayLog], the transactional log.

    The database is its two tables, with the uniqueness constraints that the
    schema declares; the object also keeps the frames and nonces in memory. *)

From stdpp Require Import gmap.
From S2P Require Import Prelude PyFloat PyVal Json Sha256 Base64 Crypto Models Policy Lines Anchors Replay.

(** A row of [replay_frames]. *)
Record FrameRow := {
  row_frame_id : string;
  row_previous_hash : string;
  row_event_json : string;
  row_frame_hash : string
}.

Record SQLiteReplayLog := {
  sq_rows : list FrameRow;          (** [replay_frames] in [rowid] order *)
  sq_nonce_rows : gset string;      (** [consumed_nonces] *)
  sq_frames : list ReplayFrame;     (** [self._frames] *)
  sq_used : gset string             (** [self._used_nonces] *)
}.

Definition row_frame (r : FrameRow) : res ReplayFrame :=
  event ← json_loads (row_event_json r);
  match event with
  | PDict ev =>
      Ok {| rf_frame_id := row_frame_id r; rf_previous_hash := row_previous_hash r;
            rf_event := ev; rf_frame_hash := row_frame_hash r |}
  | _ => unmodelled "an event that is not an object"
  end.

(** [SQLiteReplayLog(path)] on a database with these tables. *)
Definition sqlite_open (rows : list FrameRow) (nonces : gset string) : res SQLiteReplayLog :=
  frames ← mapM_res row_frame rows;
  valid ← verify_chain_from "" frames;
  fail_if (negb valid) (ValueError "SQLite replay log contains an invalid hash chain") ;;
  Ok {| sq_rows := rows; sq_nonce_rows := nonces; sq_frames := frames; sq_used := nonces |}.

(** The [PRIMARY KEY] and [UNIQUE] constraints of [replay_frames]. *)
Definition row_conflict (rows : list FrameRow) (r : FrameRow) : bool :=
  existsb (λ q, String.eqb (row_frame_id q) (row_frame_id r) ||
                String.eqb (row_frame_hash q) (row_frame_hash r)) rows.

Definition sqlite_append (frame_id : string) (event : pydict) : M SQLiteReplayLog ReplayFrame :=
  l ← get_state;
  frame ← lift_res (frame_create frame_id (head_hash (sq_frames l)) event);
  text ← lift_res (json_dumps compact_style (PDict event));
  let row := {| row_frame_id := rf_frame_id frame; row_previous_hash := rf_previous_hash frame;
                row_event_json := text; row_frame_hash := rf_frame_hash frame |} in
  raise_if (row_conflict (sq_rows l) row)
    (ValueError ("replay frame already exists: " +:+ frame_id)) ;;
  put_state {| sq_rows := sq_rows l ++ [row]; sq_nonce_rows := sq_nonce_rows l;
               sq_frames := sq_frames l ++ [frame]; sq_used := sq_used l |} ;;
  mret frame.

Definition sqlite_claim_nonce (nonce : string) : M SQLiteReplayLog unit :=
  l ← get_state;
  raise_if (bool_decide (nonce ∈ sq_nonce_rows l))
    (ValueError ("nonce already consumed: " +:+ nonce)) ;;
  put_state {| sq_rows := sq_rows l; sq_nonce_rows := sq_nonce_rows l ∪ {[nonce]};
               sq_frames := sq_frames l; sq_used := sq_used l ∪ {[nonce]} |}.

Definition sqlite_mark_nonce (nonce : string) : M SQLiteReplayLog unit := sqlite_claim_nonce nonce.

Definition sqlite_run (l : SQLiteReplayLog) (c : replay_call) : SQLiteReplayLog :=
  match c with
  | ReplayAppend fid ev => (sqlite_append fid ev l).2
  | ReplayClaim n => (sqlite_claim_nonce n l).2
  end.

(** ** Invariant: the tables hold what the memory holds *)

Definition frame_row (f : ReplayFrame) : FrameRow :=
  {| row_frame_id := rf_frame_id f; row_previous_hash := rf_previous_hash f;
     row_event_json := json_text compact_style (PDict (rf_event f));
     row_frame_hash := rf_frame_hash f |}.

Record sqlite_inv (l : SQLiteReplayLog) : Prop := {
  si_rows : sq_rows l = map frame_row (sq_frames l);
  si_nonces : sq_used l = sq_nonce_rows l;
  si_linked : linked "" (sq_frames l);
  si_ids : NoDup (map rf_frame_id (sq_frames l))
}.

Definition sqlite_empty : SQLiteReplayLog :=
  {| sq_rows := []; sq_nonce_rows := ∅; sq_frames := []; sq_used := ∅ |}.

Lemma sqlite_empty_inv : sqlite_inv sqlite_empty.
Proof. split; try done. constructor. Qed.

Lemma row_conflict_false frames r :
  row_conflict (map frame_row frames) r = false → row_frame_id r ∉ map rf_frame_id frames.
Proof.
  unfold row_conflict. intros H (f & Hf & Hin)%list_elem_of_fmap.
  apply not_true_iff_false in H. apply H, existsb_exists. exists (frame_row f).
  split; [by apply in_map, list_elem_of_In|]. simpl. by rewrite Hf, String.eqb_refl.
Qed.

Lemma sqlite_append_inv fid ev l :
  sqlite_inv l → sqlite_inv (sqlite_append fid ev l).2.
Proof.
  intros Hi. unfold sqlite_append, mbind, M_bind, get_state, lift_res, raise_if, put_state, mret, M_ret.
  destruct (frame_create _ _ _) as [f|] eqn:Hf; [|done].
  destruct (json_dumps _ _) as [text|] eqn:Ht; [|done]. cbv beta iota.
  destruct (row_conflict _ _) eqn:Hc; [done|]. cbn [snd]. destruct Hi as [Hr Hn Hl Hd].
  apply json_dumps_ok in Ht as ->. rewrite Hr in Hc. apply row_conflict_false in Hc.
  apply frame_create_ok in Hf as Hfields. destruct Hfields as (Hid & Hp & Hev & _).
  split; cbn [sq_rows sq_nonce_rows sq_frames sq_used]; [|done| |].
  - rewrite Hr, map_app. unfold frame_row. cbn [map]. by rewrite Hev.
  - apply linked_app. split; [done|]. split; [|done]. by rewrite Hid, Hev.
  - rewrite map_app. apply NoDup_app. split; [done|]. split; [|apply NoDup_singleton].
    intros k Hk ->%list_elem_of_singleton. done.
Qed.

Lemma sqlite_run_inv l c : sqlite_inv l → sqlite_inv (sqlite_run l c).
Proof.
  intros Hi. destruct c as [fid ev|n]; cbn [sqlite_run]; [by apply sqlite_append_inv|].
  unfold sqlite_claim_nonce, mbind, M_bind, get_state, raise_if, put_state.
  destruct (bool_decide _); [done|]. destruct Hi as [Hr Hn Hl Hd].
  split; cbn [snd sq_rows sq_nonce_rows sq_frames sq_used]; [done|by rewrite Hn|done|done].
Qed.

Lemma sqlite_runs_inv calls l : sqlite_inv l → sqlite_inv (fold_left sqlite_run calls l).
Proof.
  revert l. induction calls as [|c calls IH]; intros l Hi; simpl; [done|].
  by apply IH, sqlite_run_inv.
Qed.

Lemma row_frame_row f :
  json_event compact_style f → row_frame (frame_row f) = Ok (norm_frame f).
Proof.
  intros [Hs Hw]. unfold row_frame, frame_row. cbn [row_event_json].
  by rewrite (json_loads_dumps compact_style _ _ Hs Hw (json_dumps_safe _ _ Hs)).
Qed.

Lemma linked_norm prev frames : linked prev frames → linked prev (map norm_frame frames).
Proof.
  revert prev. induction frames as [|f frames IH]; intros prev; [done|].
  cbn [map linked]. intros [Hc Hl]. split; [|by apply IH].
  apply frame_create_fields. pose proof (norm_frame_create _ _ Hc) as Hd.
  unfold frame_create. cbn [norm_frame rf_frame_id rf_event rf_previous_hash rf_frame_hash].
  rewrite Hd. unfold mbind, res_bind. eexists. split; [done|]. split; [|done].
  by apply frame_create_ok in Hc as (_ & ? & _).
Qed.

(** * Properties *)

(** The database survives a restart: after any calls, successful or not,
    reopening its tables gives the frames of the live log, up to the order of
    entries inside events, with a chain that verifies, no repeated frame
    identifier, and every nonce ever claimed. *)
Lemma sqlite_reopen (calls : list replay_call) :
  let l := fold_left sqlite_run calls sqlite_empty in
  Forall (json_event compact_style) (sq_frames l) →
  ∃ l', sqlite_open (sq_rows l) (sq_nonce_rows l) = Ok l' ∧
    sq_frames l' = map norm_frame (sq_frames l) ∧
    verify_chain_from "" (sq_frames l') = Ok true ∧
    NoDup (map rf_frame_id (sq_frames l')) ∧ sq_used l' = sq_used l.
Proof.
  intros l Hj. destruct (sqlite_runs_inv calls sqlite_empty sqlite_empty_inv) as [Hr Hn Hl Hd].
  fold l in Hr, Hn, Hl, Hd. unfold sqlite_open.
  assert (mapM_res row_frame (sq_rows l) = Ok (map norm_frame (sq_frames l))) as ->.
  { apply mapM_res_ok. rewrite Hr. clear -Hj.
    induction Hj as [|f frames Hf _ IH]; cbn [map]; constructor; [by apply row_frame_row|done]. }
  assert (verify_chain_from "" (map norm_frame (sq_frames l)) = Ok true) as Hv
    by by apply verify_chain_linked, linked_norm.
  unfold mbind, res_bind. rewrite Hv. eexists. split; [done|]. cbn [sq_frames sq_used].
  rewrite List.map_map. done.
Qed.

Lemma sqlite_reopen_witness :
  let l := fold_left sqlite_run (example_calls ++ example_calls) sqlite_empty in
  ∃ l', sqlite_open (sq_rows l) (sq_nonce_rows l) = Ok l' ∧
    sq_frames l' = map norm_frame (sq_frames l) ∧
    verify_chain_from "" (sq_frames l') = Ok true ∧
    NoDup (map rf_frame_id (sq_frames l')) ∧ sq_used l' = sq_used l.
Proof.
  apply (sqlite_reopen (example_calls ++ example_calls)). vm_compute.
  repeat constructor.
Defined.
