(* ===== verification/ReplayStore.v ===== *)
(** The interface between the replay log and its clients (mesh, issuer,
    engine, service): what [append], [claim_nonce], [nonce_used] and [frames]
    promise, and the two logs that keep the promise. *)

From stdpp Require Import gmap.
From S2P Require Import Prelude PyFloat PyVal Json Sha256 Base64 Crypto Models Policy Lines Anchors Replay ReplaySqlite.

(** The operations of a replay log. *)
Class ReplayStore (L : Type) := {
  store_append : string → pydict → M L ReplayFrame;
  store_claim : string → M L unit;
  store_used : L → string → bool;
  store_frames : L → list ReplayFrame;
  store_inv : L → Prop
}.

(** The log already has a frame with the identifier of the frame that the append
    would make, or with its hash. *)
Definition frame_taken (fid : string) (ev : pydict) (frames : list ReplayFrame) : Prop :=
  ∃ f g, frame_create fid (head_hash frames) ev = Ok f ∧ g ∈ frames ∧
    (rf_frame_id g = fid ∨ rf_frame_hash g = rf_frame_hash f).

(** Their contract. *)
Class ReplayStoreLaws (L : Type) {S : ReplayStore L} : Prop := {
  append_inv : ∀ fid ev l, store_inv l → store_inv (store_append fid ev l).2;
  append_ok : ∀ fid ev l f l', store_append fid ev l = (Ok f, l') →
    frame_create fid (head_hash (store_frames l)) ev = Ok f ∧
    store_frames l' = store_frames l ++ [f] ∧ ∀ n, store_used l' n = store_used l n;
  append_raise : ∀ fid ev l e l', store_append fid ev l = (Raise e, l') → l' = l;
  (** an append fails only on an event that is not JSON or a frame that is there *)
  append_total : ∀ fid ev l, store_inv l → serializable (PDict ev) = true →
    (∃ f l', store_append fid ev l = (Ok f, l')) ∨
    (store_append fid ev l = (Raise (ValueError ("replay frame already exists: " +:+ fid)), l) ∧
     frame_taken fid ev (store_frames l));
  claim_inv : ∀ n l, store_inv l → store_inv (store_claim n l).2;
  claim_used : ∀ n l, store_inv l → store_used l n = true →
    store_claim n l = (Raise (ValueError ("nonce already consumed: " +:+ n)), l);
  claim_fresh : ∀ n l, store_inv l → store_used l n = false →
    ∃ l', store_claim n l = (Ok tt, l') ∧ store_frames l' = store_frames l ∧
          ∀ m, store_used l' m = String.eqb m n || store_used l m
}.

#[export] Instance replay_store : ReplayStore ReplayLog := {|
  store_append := replay_append;
  store_claim := replay_claim_nonce;
  store_used := replay_nonce_used;
  store_frames := rl_frames;
  store_inv := λ l, linked "" (rl_frames l)
|}.

#[export] Instance sqlite_store : ReplayStore SQLiteReplayLog := {|
  store_append := sqlite_append;
  store_claim := sqlite_claim_nonce;
  store_used := λ l n, bool_decide (n ∈ sq_used l);
  store_frames := sq_frames;
  store_inv := sqlite_inv
|}.

Lemma nonce_union (X : gset string) n m :
  bool_decide (m ∈ X ∪ {[n]}) = String.eqb m n || bool_decide (m ∈ X).
Proof.
  apply eq_true_iff_eq. rewrite orb_true_iff, !bool_decide_eq_true, String.eqb_eq. set_solver.
Qed.

#[export] Instance replay_store_laws : ReplayStoreLaws ReplayLog.
Proof.
  split; cbn [store_append store_claim store_used store_frames store_inv replay_store].
  - intros fid ev l Hl. destruct (replay_append fid ev l) as [[f|e] l'] eqn:H; cbn [snd].
    + by eapply replay_append_linked.
    + by apply replay_append_raise in H as ->.
  - intros fid ev l f l' H. apply replay_append_ok in H as (Hf & _ & Hfr & Hn & _).
    split; [done|]. split; [done|]. intros n. unfold replay_nonce_used. by rewrite Hn.
  - apply replay_append_raise.
  - intros fid ev l _ Hs. left.
    destruct (replay_append fid ev l) as [[f|e] l'] eqn:H; [eauto|exfalso].
    unfold replay_append, mbind, M_bind, get_state, lift_res, modify in H.
    destruct (frame_create_total fid (head_hash (rl_frames l)) ev Hs) as [f Hf]. rewrite Hf in H.
    destruct (rl_path l); [|done]. unfold json_dumps in H.
    apply frame_create_ok in Hf as (_ & _ & <- & _).
    assert (serializable (PDict (frame_to_dict f)) = true) as Hs'
      by (cbn [serializable frame_to_dict forallb snd] in *; by rewrite Hs).
    by rewrite Hs' in H.
  - intros n l Hl. rewrite replay_claim_spec. by destruct (bool_decide _).
  - intros n l _ Hu. rewrite replay_claim_spec. unfold replay_nonce_used in Hu. by rewrite Hu.
  - intros n l _ Hu. rewrite replay_claim_spec. unfold replay_nonce_used in *. rewrite Hu.
    eexists. split; [done|]. split; [done|]. intros m. apply nonce_union.
Qed.

#[export] Instance sqlite_store_laws : ReplayStoreLaws SQLiteReplayLog.
Proof.
  split; cbn [store_append store_claim store_used store_frames store_inv sqlite_store].
  - intros fid ev l. apply sqlite_append_inv.
  - intros fid ev l f l' H. unfold sqlite_append in H. inv_bind. done.
  - intros fid ev l e l' H. unfold sqlite_append, mbind, M_bind, get_state, lift_res, raise_if,
      put_state, mret, M_ret in H.
    repeat case_match; naive_solver.
  - intros fid ev l Hi Hs. unfold sqlite_append, mbind, M_bind, get_state, lift_res, raise_if,
      put_state, mret, M_ret.
    destruct (frame_create_total fid (head_hash (sq_frames l)) ev Hs) as [f Hf]. rewrite Hf.
    unfold json_dumps. rewrite Hs. cbv beta iota. destruct (row_conflict _ _) eqn:Hc; [right|left; eauto].
    split; [done|]. apply existsb_exists in Hc as (q & Hq & Hc). rewrite (si_rows _ Hi) in Hq.
    apply in_map_iff in Hq as (g & <- & Hg%list_elem_of_In). exists f, g. split_and!; [done..|].
    apply frame_create_ok in Hf as (Hid & _). cbn in Hc. rewrite Hid in Hc.
    apply orb_true_iff in Hc as [Hc|Hc]; apply String.eqb_eq in Hc; auto.
  - intros n l. apply (sqlite_run_inv l (ReplayClaim n)).
  - intros n l [_ Hn _ _] Hu. unfold sqlite_claim_nonce, mbind, M_bind, get_state, raise_if.
    by rewrite <-Hn, Hu.
  - intros n l [_ Hn _ _] Hu.
    unfold sqlite_claim_nonce, mbind, M_bind, get_state, raise_if, put_state.
    rewrite <-Hn, Hu. eexists. split; [done|]. split; [done|]. intros m. apply nonce_union.
Qed.

(** ** Consequences for any log *)

Section StoreFacts.
Context {L : Type} `{LL : ReplayStoreLaws L}.
Implicit Types l : L.

(** An append keeps every earlier frame. *)
Lemma append_prefix fid ev l : store_frames l `prefix_of` store_frames (store_append fid ev l).2.
Proof.
  destruct (store_append fid ev l) as [[f|e] l'] eqn:H; cbn [snd].
  - apply append_ok in H as (_ & -> & _). by apply prefix_app_r.
  - by apply append_raise in H as ->.
Qed.

Lemma append_used fid ev l n : store_used (store_append fid ev l).2 n = store_used l n.
Proof.
  destruct (store_append fid ev l) as [[f|e] l'] eqn:H; cbn [snd].
  - by apply append_ok in H as (_ & _ & ->).
  - by apply append_raise in H as ->.
Qed.

Lemma claim_ok n l l' :
  store_inv l → store_claim n l = (Ok tt, l') →
  store_used l n = false ∧ store_frames l' = store_frames l ∧
  ∀ m, store_used l' m = String.eqb m n || store_used l m.
Proof.
  intros Hi H. destruct (store_used l n) eqn:Hu.
  - rewrite claim_used in H by done. done.
  - destruct (claim_fresh n l Hi Hu) as (l1 & H1 & ? & ?). rewrite H1 in H. by injection H as <-.
Qed.

Lemma claim_raise n l e l' : store_inv l → store_claim n l = (Raise e, l') → l' = l ∧ store_used l n = true.
Proof.
  intros Hi H. destruct (store_used l n) eqn:Hu.
  - rewrite claim_used in H by done. by injection H as <- <-.
  - destruct (claim_fresh n l Hi Hu) as (l1 & H1 & _). by rewrite H1 in H.
Qed.
End StoreFacts.
