(* ===== verification/Mesh.v ===== *)
(** mesh.py: governance inputs, the registry of governance sources, and the
    preflight that aggregates inputs into one decision.

    The file proves that an allowance needs every highest-priority source to
    agree on it, that under a source registry every input carries a signature
    by a live key, and that the outcome does not depend on the order of the
    inputs. *)

From stdpp Require Import gmap.
From S2P Require Import Prelude PyFloat PyVal Json Sha256 Base64 Crypto Trust Models Policy Lines Anchors Replay ReplaySqlite ReplayStore.

(** * Governance inputs *)

Record GovernanceInput := {
  gi_source_id : string;
  gi_decision : pydict;
  gi_weight : Z;
  gi_priority : Z;
  gi_metadata : option pydict;
  gi_source_signature : option string
}.

Definition mesh_error (msg : string) : exn := GovernanceMeshError msg.

(** [__post_init__] on the constructor's arguments. *)
Definition governance_input_init (source_id decision weight priority metadata signature : pyval)
    : res GovernanceInput :=
  sid ← read_str (mesh_error "source_id must be a non-empty string") source_id;
  let bad_decision := mesh_error "decision must be a non-empty mapping" in
  d ← read_dict bad_decision decision;
  fail_if (match d with [] => true | _ => false end) bad_decision ;;
  fail_if (negb (serializable (PDict d))) (mesh_error "decision must contain canonical JSON values") ;;
  let bad_weight := mesh_error "weight must be a positive integer" in
  w ← read_int bad_weight weight;
  fail_if (w <=? 0) bad_weight ;;
  let bad_priority := mesh_error "priority must be a non-negative integer" in
  p ← read_int bad_priority priority;
  fail_if (p <? 0) bad_priority ;;
  m ← match metadata with
      | PNone => Ok None
      | PDict m => Ok (Some m)
      | _ => Raise (mesh_error "metadata must be a mapping when present")
      end;
  fail_if (negb (is_bool (dict_get "allow" d))) (mesh_error "decision.allow must be a boolean") ;;
  s ← read_opt_str (mesh_error "source_signature must be a non-empty string when present") signature;
  Ok {| gi_source_id := sid; gi_decision := d; gi_weight := w; gi_priority := p;
        gi_metadata := m; gi_source_signature := s |}.

Definition gi_digest (i : GovernanceInput) : res string := canonical_digest (PDict (gi_decision i)).

Definition gi_allow (i : GovernanceInput) : bool := truthy (dict_get "allow" (gi_decision i)).

Definition metadata_dict (i : GovernanceInput) : pydict := default [] (gi_metadata i).

Definition attestation_payload (i : GovernanceInput) : res string :=
  canonical_json (PDict
    [("source_id", PStr (gi_source_id i)); ("decision", PDict (gi_decision i));
     ("weight", PInt (gi_weight i)); ("priority", PInt (gi_priority i));
     ("metadata", PDict (metadata_dict i))]).

Definition gi_attest (i : GovernanceInput) (signer : Signer) : res GovernanceInput :=
  payload ← attestation_payload i;
  s ← signer_sign signer payload;
  governance_input_init (PStr (gi_source_id i)) (PDict (gi_decision i)) (PInt (gi_weight i))
    (PInt (gi_priority i)) (match gi_metadata i with Some m => PDict m | None => PNone end) (PStr s).

Definition gi_to_dict (i : GovernanceInput) : res pydict :=
  digest ← gi_digest i;
  Ok ([("source_id", PStr (gi_source_id i)); ("decision", PDict (gi_decision i));
       ("weight", PInt (gi_weight i)); ("priority", PInt (gi_priority i));
       ("metadata", PDict (metadata_dict i)); ("decision_digest", PStr digest)] ++
      match gi_source_signature i with Some s => [("source_signature", PStr s)] | None => [] end).

Definition gi_expected : list string :=
  ["source_id"; "decision"; "weight"; "priority"; "metadata"; "decision_digest"].

Definition gi_from_dict (value : pyval) : res GovernanceInput :=
  match value with
  | PDict d =>
      fail_if (negb (keys_subset d (gi_expected ++ ["source_signature"])) ||
               negb (keys_superset d gi_expected))
        (mesh_error "governance input has an invalid schema") ;;
      item ← governance_input_init (dict_get "source_id" d) (dict_get "decision" d)
               (dict_get "weight" d) (dict_get "priority" d) (dict_get "metadata" d)
               (dict_get "source_signature" d);
      digest ← gi_digest item;
      fail_if (negb (py_eqb (dict_get "decision_digest" d) (PStr digest)))
        (mesh_error "governance input digest does not match evidence") ;;
      Ok item
  | _ => Raise (mesh_error "governance input must be an object")
  end.

(** * The source registry *)

Section Sources.
Context `{C : Crypto}.

(** [public_key] arguments: an Ed25519 key, a string, or anything else. *)
Inductive key_arg := KeyObject (k : PublicKey) | KeyText (s : string) | KeyOther.

Definition coerce_public_key (k : key_arg) : res PublicKey :=
  match k with
  | KeyObject k => Ok k
  | KeyText s =>
      match (raw ← b64decode s; Ok (from_public_bytes raw)) with
      | Ok (Some k) => Ok k
      | _ => Raise (mesh_error "public_key string is not valid base64 Ed25519 bytes")
      end
  | KeyOther => Raise (mesh_error "public_key must be an Ed25519 public key or a base64-encoded string")
  end.

Record GovernanceSourceRegistry := {
  sr_path : bool;
  sr_keys : list (string * PublicKey);
  sr_metadata : list (string * pydict);
  sr_revoked : gset string;
  sr_file : option string
}.

Definition source_entry (r : GovernanceSourceRegistry) (kv : string * PublicKey) : string * pyval :=
  (kv.1, PDict [("public_key", PStr (b64encode (public_bytes_raw kv.2)));
                ("metadata", PDict (default [] (assoc_get kv.1 (sr_metadata r))))]).

Definition sources_to_dict (r : GovernanceSourceRegistry) : pydict :=
  [("sources", PDict (map (source_entry r) (sort_by fst (sr_keys r))));
   ("revoked", PList (map PStr (sort_strings (elements (sr_revoked r)))))].

(** [_save]: this file keeps non-ASCII characters ([ensure_ascii=False]). *)
Definition sources_save : M GovernanceSourceRegistry unit :=
  r ← get_state;
  if sr_path r then
    text ← lift_res (json_dumps canonical_style (PDict (sources_to_dict r)));
    put_state {| sr_path := true; sr_keys := sr_keys r; sr_metadata := sr_metadata r;
                 sr_revoked := sr_revoked r; sr_file := Some text |}
  else mret tt.

(** [register]; [None] is a null key. *)
Definition source_register (source_id : string) (public_key : option key_arg)
    (metadata : option pydict) : M GovernanceSourceRegistry unit :=
  raise_if (String.eqb source_id "") (mesh_error "source_id must be a non-empty string") ;;
  match public_key with
  | None => raise (mesh_error "public_key must not be null")
  | Some k =>
      key ← lift_res (coerce_public_key k);
      modify (λ r, {| sr_path := sr_path r; sr_keys := assoc_set source_id key (sr_keys r);
                      sr_metadata := assoc_set source_id (default [] metadata) (sr_metadata r);
                      sr_revoked := sr_revoked r ∖ {[source_id]}; sr_file := sr_file r |}) ;;
      sources_save
  end.

Definition source_revoke (source_id : string) : M GovernanceSourceRegistry unit :=
  r ← get_state;
  raise_if (negb (assoc_has source_id (sr_keys r)))
    (mesh_error ("unknown governance source: " +:+ source_id)) ;;
  put_state {| sr_path := sr_path r; sr_keys := sr_keys r; sr_metadata := sr_metadata r;
               sr_revoked := sr_revoked r ∪ {[source_id]}; sr_file := sr_file r |} ;;
  sources_save.

(** [resolve]: the registry's revocations come first, then the trust store. *)
Definition source_resolve (r : GovernanceSourceRegistry) (trust : option TrustStore)
    (source_id : string) : option PublicKey :=
  if bool_decide (source_id ∈ sr_revoked r) then None else
  match trust with
  | Some t =>
      match trust_resolve t source_id with
      | Some k => Some k
      | None => assoc_get source_id (sr_keys r)
      end
  | None => assoc_get source_id (sr_keys r)
  end.

(** The loops of [from_dict]. *)
Fixpoint sources_load (kvs : pydict) (r : GovernanceSourceRegistry) : res GovernanceSourceRegistry :=
  match kvs with
  | [] => Ok r
  | (source_id, entry) :: kvs =>
      fail_if (String.eqb source_id "") (mesh_error "source registry contains an invalid source ID") ;;
      metadata ← read_dict (mesh_error "source registry source metadata must be an object") entry;
      arg ← match dict_get "public_key" metadata with
            | PNone => Raise (mesh_error ("source " +:+ source_id +:+ " is missing a public key"))
            | PStr s => Ok (KeyText s)
            | _ => Ok KeyOther
            end;
      key ← res_except (coerce_public_key arg)
              (λ _, Some (mesh_error ("source " +:+ source_id +:+ " has an invalid public key")));
      (* [dict(metadata or {})] of a value that is no mapping *)
      meta ← match dict_get_or "metadata" (PDict []) metadata with
             | PDict m => Ok m
             | v => if truthy v then unmodelled "metadata that is not an object" else Ok []
             end;
      match source_register source_id (Some (KeyObject key)) (Some meta) r with
      | (Ok _, r') => sources_load kvs r'
      | (Raise e, _) => Raise e
      end
  end.

Fixpoint sources_load_revoked (l : list pyval) (r : GovernanceSourceRegistry)
    : res GovernanceSourceRegistry :=
  match l with
  | [] => Ok r
  | v :: l =>
      source_id ← read_str (mesh_error "source registry contains an invalid revoked source ID") v;
      match source_revoke source_id r with
      | (Ok _, r') => sources_load_revoked l r'
      | (Raise e, _) => Raise e
      end
  end.

Definition sources_empty (path : bool) (file : option string) : GovernanceSourceRegistry :=
  {| sr_path := path; sr_keys := []; sr_metadata := []; sr_revoked := ∅; sr_file := file |}.

Definition sources_from_dict (value : pyval) : res GovernanceSourceRegistry :=
  match value with
  | PDict d =>
      fail_if (negb (keys_superset d ["sources"; "revoked"]))
        (mesh_error "source registry has an invalid schema") ;;
      sources ← read_dict (mesh_error "source registry sources must be an object") (dict_get "sources" d);
      revoked ← read_list (mesh_error "source registry revoked must be a list") (dict_get "revoked" d);
      r ← sources_load sources (sources_empty false None);
      sources_load_revoked revoked r
  | _ => Raise (mesh_error "source registry must be an object")
  end.

(** [GovernanceSourceRegistry(path=...)] on an existing file. *)
Definition sources_open (text : string) : res GovernanceSourceRegistry :=
  r ← res_except (v ← json_loads text; sources_from_dict v)
        (λ _, Some (mesh_error "source registry could not be loaded safely"));
  Ok {| sr_path := true; sr_keys := sr_keys r; sr_metadata := sr_metadata r;
        sr_revoked := sr_revoked r; sr_file := Some text |}.

(** * The mesh *)

(** Where the mesh takes keys from; a registry comes with its trust store. *)
Inductive mesh_keys :=
| MeshRegistry (r : GovernanceSourceRegistry) (trust : option TrustStore)
| MeshTrustStore (t : TrustStore)
| MeshSources (keys : list (string * PublicKey)).

Definition mesh_init (trusted_sources : option (list (string * PublicKey)))
    (trust_store : option TrustStore)
    (source_registry : option (GovernanceSourceRegistry * option TrustStore)) : res mesh_keys :=
  match trusted_sources, trust_store, source_registry with
  | Some _, Some _, _ => Raise (ValueError "provide either trusted_sources or trust_store, not both")
  | None, None, Some (r, t) => Ok (MeshRegistry r t)
  | _, _, Some _ =>
      Raise (ValueError "provide either a source registry or key map/trust store, not both")
  | None, Some t, None => Ok (MeshTrustStore t)
  | Some keys, None, None => Ok (MeshSources keys)
  | None, None, None => Ok (MeshSources [])
  end.

Definition mesh_resolve (keys : mesh_keys) (source_id : string) : option PublicKey :=
  match keys with
  | MeshRegistry r trust => source_resolve r trust source_id
  | MeshTrustStore t => trust_resolve t source_id
  | MeshSources ks => assoc_get source_id ks
  end.

(** Without any key source, attestations are not checked. *)
Definition mesh_unchecked (keys : mesh_keys) : bool :=
  match keys with MeshSources [] => true | _ => false end.

Definition verify_source_attestation (keys : mesh_keys) (i : GovernanceInput) : res unit :=
  if mesh_unchecked keys then Ok tt else
  let bad := mesh_error ("governance source attestation is invalid: " +:+ gi_source_id i) in
  match mesh_resolve keys (gi_source_id i), gi_source_signature i with
  | Some key, Some s =>
      payload ← attestation_payload i;
      fail_if (negb (verify_signature key payload s)) bad
  | _, _ => Raise bad
  end.
End Sources.

(** ** Aggregation *)

(** An input with its digest. *)
Definition digested : Type := string * GovernanceInput.

Definition with_digest (i : GovernanceInput) : res digested := d ← gi_digest i; Ok (d, i).

(** [max(item.priority for item in items)] *)
Definition max_priority (items : list digested) : Z :=
  match items with
  | [] => 0
  | (_, i) :: rest => fold_left (λ m di, Z.max m (gi_priority di.2)) rest (gi_priority i)
  end.

Definition top_inputs (items : list digested) : list digested :=
  List.filter (λ di, gi_priority di.2 =? max_priority items) items.

Definition conflict_entry (priority : Z) (s o : digested) : pyval :=
  PDict [("source_ids", of_strs [gi_source_id s.2; gi_source_id o.2]);
         ("left_digest", PStr s.1); ("right_digest", PStr o.1);
         ("left_allow", dict_get "allow" (gi_decision s.2));
         ("right_allow", dict_get "allow" (gi_decision o.2));
         ("priority", PInt priority)].

Definition by_source (items : list digested) : list digested :=
  sort_by (λ di : digested, gi_source_id di.2) items.

(** The double loop over the highest-priority inputs, by source. *)
Definition mesh_conflicts (priority : Z) (top : list digested) : list pyval :=
  flat_map (λ s, flat_map (λ o,
      if String.ltb (gi_source_id s.2) (gi_source_id o.2) && negb (String.eqb s.1 o.1)
      then [conflict_entry priority s o] else []) (by_source top)) (by_source top).

(** [groups.setdefault(item.digest(), []).append(item)] *)
Definition add_to_group (groups : list (string * list GovernanceInput)) (di : digested)
    : list (string * list GovernanceInput) :=
  assoc_set di.1 (default [] (assoc_get di.1 groups) ++ [di.2]) groups.

Definition mesh_groups (items : list digested) : list (string * list GovernanceInput) :=
  fold_left add_to_group items [].

(** The sort key of a group: [(-max priority, -sum of weights, digest)]. *)
Definition group_priority (g : list GovernanceInput) : Z :=
  match g with
  | [] => 0
  | i :: rest => fold_left (λ m j, Z.max m (gi_priority j)) rest (gi_priority i)
  end.
Definition group_weight (g : list GovernanceInput) : Z :=
  fold_left (λ s i, s + gi_weight i) g 0.

(** The first group ranks before the second. *)
Definition ranks_before (a b : string * list GovernanceInput) : bool :=
  (group_priority b.2 <? group_priority a.2) ||
  (group_priority a.2 =? group_priority b.2) &&
  ((group_weight b.2 <? group_weight a.2) ||
   (group_weight a.2 =? group_weight b.2) && String.leb a.1 b.1).

(** [sorted(groups.items(), key=...)[0]]: the first of the least groups. *)
Definition winning_group (groups : list (string * list GovernanceInput))
    : option (string * list GovernanceInput) :=
  match groups with
  | [] => None
  | g :: gs => Some (fold_left (λ best x, if ranks_before best x then best else x) gs g)
  end.

(** [len({item.digest() for item in top_inputs}) > 1] *)
Definition unresolved (top : list digested) : bool :=
  match top with
  | [] => false
  | (d, _) :: rest => negb (forallb (λ di, String.eqb di.1 d) rest)
  end.

Record GovernancePreflightDecision := {
  pd_allow : bool;
  pd_status : string;
  pd_selected_digest : option string;
  pd_selected_source_ids : list string;
  pd_input_digests : list (string * string);
  pd_conflicts : list pyval;
  pd_reasons : list string;
  pd_digest : string;
  pd_replay_frame_ref : option string
}.

Definition preflight_to_dict (d : GovernancePreflightDecision) : pydict :=
  [("allow", PBool (pd_allow d)); ("status", PStr (pd_status d));
   ("selected_digest", opt_str (pd_selected_digest d));
   ("selected_source_ids", of_strs (pd_selected_source_ids d));
   ("input_digests", sorted_dict PStr (pd_input_digests d));
   ("conflicts", PList (pd_conflicts d)); ("reasons", of_strs (pd_reasons d));
   ("digest", PStr (pd_digest d)); ("replay_frame_ref", opt_str (pd_replay_frame_ref d))].

(** The outcome before it is recorded: allow, status, selected digest,
    selected sources and reasons. *)
Record mesh_outcome := {
  mo_allow : bool;
  mo_status : string;
  mo_selected_digest : option string;
  mo_selected_source_ids : list string;
  mo_reasons : list string
}.

Definition mesh_select (items : list digested) : res mesh_outcome :=
  match winning_group (mesh_groups items) with
  | Some (winning_digest, (first :: _) as winning_inputs) =>
      if unresolved (top_inputs items) then
        Ok {| mo_allow := false; mo_status := "conflict"; mo_selected_digest := None;
              mo_selected_source_ids := [];
              mo_reasons := ["highest-priority governance sources provide conflicting decisions"] |}
      else
        reasons ← py_tuple (dict_get_or "reasons" (PList []) (gi_decision first));
        Ok {| mo_allow := gi_allow first;
              mo_status := if gi_allow first then "allow" else "deny";
              mo_selected_digest := Some winning_digest;
              mo_selected_source_ids := sort_strings (map gi_source_id winning_inputs);
              mo_reasons := map py_str reasons |}
  | _ => Raise (OtherError "IndexError" "list index out of range")
  end.

Definition mesh_input_digests (items : list digested) : list (string * string) :=
  map (λ di, (gi_source_id di.2, di.1)) (by_source items).

Definition mesh_unsigned (request_digest : string) (o : mesh_outcome) (items : list digested)
    (frame_ref : option string) : pydict :=
  [("request_digest", PStr request_digest); ("allow", PBool (mo_allow o));
   ("status", PStr (mo_status o)); ("selected_digest", opt_str (mo_selected_digest o));
   ("selected_source_ids", of_strs (mo_selected_source_ids o));
   ("input_digests", sorted_dict PStr (mesh_input_digests items));
   ("conflicts", PList (mesh_conflicts (max_priority items) (top_inputs items)));
   ("reasons", of_strs (mo_reasons o)); ("replay_frame_ref", opt_str frame_ref)].

(** [a or b] for an optional string. *)
Definition or_default (o : option string) (s : string) : string :=
  match o with Some r => if String.eqb r "" then s else r | None => s end.

Section Preflight.
Context `{C : Crypto} {L : Type} `{RS : ReplayStore L}.

(** The checks and the decision, without the log. *)
Definition preflight_outcome (keys : mesh_keys) (inputs : list GovernanceInput)
    (request_digest : string) : res (mesh_outcome * list digested) :=
  fail_if (String.eqb request_digest "") (mesh_error "request_digest must be a non-empty string") ;;
  fail_if (match inputs with [] => true | _ => false end)
    (mesh_error "at least one governance input is required") ;;
  for_res inputs (verify_source_attestation keys) ;;
  fail_if (negb (str_nodup (map gi_source_id inputs)))
    (mesh_error "source IDs must be unique per preflight") ;;
  items ← mapM_res with_digest inputs;
  o ← mesh_select items;
  Ok (o, items).

(** [preflight]; the state is the replay log, when the mesh has one. *)
Definition mesh_preflight (keys : mesh_keys) (inputs : list GovernanceInput)
    (request_digest : string) (frame_ref : option string)
    : M (option L) GovernancePreflightDecision :=
  oi ← lift_res (preflight_outcome keys inputs request_digest);
  let '(o, items) := oi : mesh_outcome * list digested in
  let unsigned := mesh_unsigned request_digest o items frame_ref in
  digest ← lift_res (canonical_digest (PDict unsigned));
  log ← get_state;
  ref ← match log with
        | None => mret frame_ref
        | Some l =>
            let ref := or_default frame_ref ("mesh-" +:+ digest) in
            match store_append ref [("type", PStr "governance_preflight");
                                    ("request_digest", PStr request_digest);
                                    ("decision_digest", PStr digest);
                                    ("decision", PDict unsigned)] l with
            | (Ok _, l') => put_state (Some l') ;; mret (Some ref)
            | (Raise e, l') => put_state (Some l') ;; raise e
            end
        end;
  mret {| pd_allow := mo_allow o; pd_status := mo_status o;
          pd_selected_digest := mo_selected_digest o;
          pd_selected_source_ids := mo_selected_source_ids o;
          pd_input_digests := mesh_input_digests items;
          pd_conflicts := mesh_conflicts (max_priority items) (top_inputs items);
          pd_reasons := mo_reasons o; pd_digest := digest; pd_replay_frame_ref := ref |}.
End Preflight.

(** * Lemmas *)

(** ** Ranking is a total preorder whose ties are equal digests *)

Lemma ranks_before_spec a b :
  ranks_before a b = true ↔
  group_priority b.2 < group_priority a.2 ∨
  (group_priority a.2 = group_priority b.2 ∧
   (group_weight b.2 < group_weight a.2 ∨
    (group_weight a.2 = group_weight b.2 ∧ String.le a.1 b.1))).
Proof.
  unfold ranks_before, String.le.
  rewrite orb_true_iff, andb_true_iff, orb_true_iff, andb_true_iff, !Z.ltb_lt, !Z.eqb_eq.
  destruct (String.leb a.1 b.1); simpl; intuition congruence.
Qed.

Lemma ranks_before_total a b : ranks_before a b = true ∨ ranks_before b a = true.
Proof.
  rewrite !ranks_before_spec.
  destruct (Z.lt_trichotomy (group_priority a.2) (group_priority b.2)) as [?|[?|?]]; [by auto| |by auto].
  destruct (Z.lt_trichotomy (group_weight a.2) (group_weight b.2)) as [?|[?|?]]; [by auto 6| |by auto 6].
  destruct (String.leb_total a.1 b.1) as [Hl|Hl]; unfold String.le; rewrite Hl; simpl; auto 10.
Qed.

Lemma ranks_before_trans a b c :
  ranks_before a b = true → ranks_before b c = true → ranks_before a c = true.
Proof.
  rewrite !ranks_before_spec. intros [?|[? [?|[? ?]]]] [?|[? [?|[? ?]]]];
    try (left; lia); right; (split; [lia|]); try (left; lia); right.
  split; [lia|]. by etransitivity.
Qed.

Lemma ranks_before_tie a b :
  ranks_before a b = true → ranks_before b a = true → a.1 = b.1.
Proof.
  rewrite !ranks_before_spec. intros [?|[? [?|[? Hab]]]] [?|[? [?|[? Hba]]]]; try lia.
  by apply (anti_symm String.le).
Qed.

Lemma fold_best gs g :
  let w := fold_left (λ best x, if ranks_before best x then best else x) gs g in
  w ∈ g :: gs ∧ ∀ x, x ∈ g :: gs → ranks_before w x = true.
Proof.
  assert (∀ a, ranks_before a a = true) as Hrefl by (intros a; by destruct (ranks_before_total a a)).
  revert g. induction gs as [|y gs IH]; intros g; simpl.
  - split; [by left|]. by intros x ->%list_elem_of_singleton.
  - destruct (IH (if ranks_before g y then g else y)) as [Hin Hbest]. clear IH.
    set (w := fold_left _ gs _) in *. split.
    + destruct (ranks_before g y); set_solver.
    + intros x Hx. destruct (ranks_before g y) eqn:E.
      * apply elem_of_cons in Hx as [->|Hx]; [apply Hbest; by left|].
        apply elem_of_cons in Hx as [->|Hx]; [|apply Hbest; by right].
        eapply ranks_before_trans; [|exact E]. apply Hbest. by left.
      * assert (ranks_before y g = true) by (destruct (ranks_before_total y g); congruence).
        apply elem_of_cons in Hx as [->|Hx]; [|by apply Hbest].
        eapply ranks_before_trans; [|done]. apply Hbest. by left.
Qed.

Lemma winning_group_spec groups w :
  winning_group groups = Some w → w ∈ groups ∧ ∀ x, x ∈ groups → ranks_before w x = true.
Proof. destruct groups as [|g gs]; [done|]. intros [= <-]. apply fold_best. Qed.

(** ** Groups hold the inputs of their digest, in order *)

Definition members (d : string) (items : list digested) : list GovernanceInput :=
  map snd (List.filter (λ di, String.eqb d di.1) items).

Lemma members_snoc d items di :
  members d (items ++ [di]) = members d items ++ (if String.eqb d di.1 then [di.2] else []).
Proof. unfold members. rewrite List.filter_app, map_app. simpl. by destruct (String.eqb d di.1). Qed.

Lemma mesh_groups_get items d :
  assoc_get d (mesh_groups items) = match members d items with [] => None | l => Some l end.
Proof.
  unfold mesh_groups. induction items as [|di items IH] using rev_ind; [done|].
  rewrite fold_left_app. cbn [fold_left]. rewrite members_snoc. unfold add_to_group at 1.
  destruct (String.eqb_spec d di.1) as [->|Hne].
  - rewrite assoc_get_set_eq, IH. by destruct (members di.1 items).
  - rewrite assoc_get_set_ne by congruence. rewrite app_nil_r. exact IH.
Qed.

Lemma mesh_groups_keys items : NoDup (fst <$> mesh_groups items).
Proof.
  unfold mesh_groups. assert (NoDup (fst <$> ([] : list (string * list GovernanceInput)))) as H by constructor.
  revert H. generalize ([] : list (string * list GovernanceInput)).
  induction items as [|di items IH]; intros g H; simpl; [done|].
  apply IH, NoDup_ListNoDup, assoc_set_NoDup, NoDup_ListNoDup, H.
Qed.

Lemma mesh_groups_in items d g :
  (d, g) ∈ mesh_groups items ↔ g = members d items ∧ members d items ≠ [].
Proof.
  pose proof (mesh_groups_keys items) as Hnd. split.
  - intros Hin%list_elem_of_In. apply assoc_In_get in Hin; [|by apply NoDup_ListNoDup].
    rewrite mesh_groups_get in Hin. by destruct (members d items); simplify_eq.
  - intros [-> Hne]. apply list_elem_of_In, assoc_get_In. rewrite mesh_groups_get.
    by destruct (members d items).
Qed.

Lemma members_in d items i : i ∈ members d items ↔ (d, i) ∈ items.
Proof.
  unfold members. rewrite list_elem_of_In, in_map_iff. setoid_rewrite filter_In.
  setoid_rewrite <-list_elem_of_In. split.
  - intros ([d' i'] & <- & Hin & ->%String.eqb_eq). done.
  - intros H. exists (d, i). by rewrite String.eqb_refl.
Qed.

Lemma members_perm d items1 items2 : items1 ≡ₚ items2 → members d items1 ≡ₚ members d items2.
Proof.
  intros H. unfold members. by apply Permutation_map, filter_Permutation.
Qed.

(** ** Maxima *)

Lemma fold_max_spec {A} (f : A → Z) l m :
  let r := fold_left (λ m x, Z.max m (f x)) l m in
  m ≤ r ∧ (∀ x, x ∈ l → f x ≤ r) ∧ (r = m ∨ ∃ x, x ∈ l ∧ f x = r).
Proof.
  revert m. induction l as [|y l IH]; intros m; simpl; [split_and!; [lia|set_solver|by left]|].
  destruct (IH (Z.max m (f y))) as (H1 & H2 & H3). split_and!; [lia| |].
  - intros x [->|Hx]%elem_of_cons; [lia|auto].
  - destruct H3 as [H3|(x & Hx & H3)]; [|right; exists x; split; [by right|done]].
    destruct (Z.max_spec m (f y)) as [[? Hm]|[? Hm]]; rewrite Hm in H3 at 2.
    + right. exists y. split; [by left|done].
    + by left.
Qed.

Lemma max_priority_spec items :
  items ≠ [] → (∀ di, di ∈ items → gi_priority di.2 ≤ max_priority items) ∧
               ∃ di, di ∈ items ∧ gi_priority di.2 = max_priority items.
Proof.
  destruct items as [|[d i] items]; [done|]. intros _. cbn [max_priority].
  destruct (fold_max_spec (λ di : digested, gi_priority di.2) items (gi_priority i)) as (H1 & H2 & H3).
  split; [intros di [->|Hx]%elem_of_cons; auto|].
  destruct H3 as [H3|(x & Hx & H3)]; [exists (d, i)|exists x]; (split; [set_solver|]); [|done].
  by symmetry.
Qed.

Lemma group_priority_spec g :
  g ≠ [] → (∀ i, i ∈ g → gi_priority i ≤ group_priority g) ∧ ∃ i, i ∈ g ∧ gi_priority i = group_priority g.
Proof.
  destruct g as [|i g]; [done|]. intros _. cbn [group_priority].
  destruct (fold_max_spec gi_priority g (gi_priority i)) as (H1 & H2 & H3).
  split; [intros j [->|Hx]%elem_of_cons; auto|].
  destruct H3 as [H3|(x & Hx & H3)]; [exists i|exists x]; (split; [set_solver|]); [|done].
  by symmetry.
Qed.

Lemma max_priority_perm items1 items2 : items1 ≡ₚ items2 → max_priority items1 = max_priority items2.
Proof.
  intros Hp. destruct items1 as [|x items1]; [by apply Permutation_nil_l in Hp as ->|].
  assert (items2 ≠ []) as Hne by (intros ->; by apply Permutation_nil_r in Hp).
  destruct (max_priority_spec (x :: items1)) as [Hm1 (d1 & Hi1 & He1)]; [done|].
  destruct (max_priority_spec items2 Hne) as [Hm2 (d2 & Hi2 & He2)].
  rewrite Hp in Hi1. rewrite <-Hp in Hi2. apply Hm2 in Hi1. apply Hm1 in Hi2. lia.
Qed.

Lemma top_inputs_in items di :
  di ∈ top_inputs items ↔ di ∈ items ∧ gi_priority di.2 = max_priority items.
Proof.
  unfold top_inputs. rewrite !list_elem_of_In, filter_In. by rewrite Z.eqb_eq.
Qed.

Lemma unresolved_false top :
  unresolved top = false ↔ ∀ a b, a ∈ top → b ∈ top → a.1 = b.1.
Proof.
  destruct top as [|[d i] top]; simpl; [set_solver|].
  rewrite negb_false_iff, forallb_forall. setoid_rewrite String.eqb_eq.
  setoid_rewrite <-list_elem_of_In. split.
  - intros H. assert (∀ a, a ∈ (d, i) :: top → a.1 = d) as Ha
      by (intros a [->|?]%elem_of_cons; auto).
    intros a b Hin1%Ha Hin2%Ha. congruence.
  - intros H x Hx. apply (H x (d, i)); [by right|by left].
Qed.

(** The winner of a resolved preflight has the digest of every top input. *)
Lemma winning_digest items d g :
  winning_group (mesh_groups items) = Some (d, g) → items ≠ [] →
  unresolved (top_inputs items) = false →
  g = members d items ∧ g ≠ [] ∧ ∀ di, di ∈ top_inputs items → di.1 = d.
Proof.
  intros Hw Hne Hu. apply winning_group_spec in Hw as [Hin Hbest].
  apply mesh_groups_in in Hin as [-> Hg]. split; [done|]. split; [done|].
  destruct (max_priority_spec items Hne) as [Hmax (t & Ht & Htp)].
  assert (t ∈ top_inputs items) as Htop by (by apply top_inputs_in).
  (* the group of the top input [t] *)
  assert (t.2 ∈ members t.1 items) as Htm by (apply members_in; by destruct t).
  assert (members t.1 items ≠ []) as Htg by (intros E; rewrite E in Htm; by apply elem_of_nil in Htm).
  pose proof (Hbest (t.1, members t.1 items) (proj2 (mesh_groups_in _ _ _) (conj eq_refl Htg))) as Hb.
  apply ranks_before_spec in Hb. simpl in Hb.
  destruct (group_priority_spec _ Hg) as [_ (i & Hi & Hip)].
  destruct (group_priority_spec _ Htg) as [Htle _]. specialize (Htle _ Htm).
  apply members_in in Hi as Hi'. pose proof (Hmax _ Hi') as Hile. simpl in Hile.
  assert (gi_priority i = max_priority items) as Hitop by (destruct Hb as [?|[? _]]; lia).
  intros di Hdi. rewrite unresolved_false in Hu. rewrite (Hu di (d, i)); [done|done|].
  by apply top_inputs_in.
Qed.

Lemma mesh_select_spec items o :
  mesh_select items = Ok o → items ≠ [] →
  (unresolved (top_inputs items) = true ∧ mo_allow o = false ∧ mo_status o = "conflict") ∨
  (unresolved (top_inputs items) = false ∧ ∃ d first rest,
     members d items = first :: rest ∧ mo_allow o = gi_allow first ∧
     mo_status o = (if gi_allow first then "allow" else "deny") ∧
     mo_selected_digest o = Some d ∧ ∀ di, di ∈ top_inputs items → di.1 = d).
Proof.
  unfold mesh_select. intros H Hne.
  destruct (winning_group _) as [[d [|first rest]]|] eqn:Hw; [done| |done].
  destruct (unresolved (top_inputs items)) eqn:Hu; [by injection H as <-; left|right].
  split; [done|]. apply res_bind_ok in H as (rs & _ & H). injection H as <-.
  destruct (winning_digest items d _ Hw Hne Hu) as (Hm & _ & Htop).
  by exists d, first, rest.
Qed.

Lemma mapM_with_digest inputs items :
  mapM_res with_digest inputs = Ok items →
  map snd items = inputs ∧ Forall (λ di, gi_digest di.2 = Ok di.1) items.
Proof.
  rewrite mapM_res_ok. induction 1 as [|i [d j] inputs items H _ [IH1 IH2]]; [done|].
  unfold with_digest in H. apply res_bind_ok in H as (d' & Hd & [= -> ->]). simpl. by rewrite IH1; auto.
Qed.

Lemma mesh_preflight_ok `{C : Crypto} {L} `{RS : ReplayStore L} keys inputs rd ref (log log' : option L) d :
  mesh_preflight keys inputs rd ref log = (Ok d, log') →
  ∃ o items, preflight_outcome keys inputs rd = Ok (o, items) ∧
    pd_allow d = mo_allow o ∧ pd_status d = mo_status o ∧
    pd_selected_digest d = mo_selected_digest o.
Proof.
  unfold mesh_preflight. intros H. inv_bind. destruct x as [o items]. exists o, items. split; [done|].
  inv_bind. done.
Qed.

Lemma preflight_outcome_ok `{C : Crypto} keys inputs rd o items :
  preflight_outcome keys inputs rd = Ok (o, items) ↔
  rd ≠ "" ∧ inputs ≠ [] ∧ Forall (λ i, verify_source_attestation keys i = Ok tt) inputs ∧
  NoDup (map gi_source_id inputs) ∧ mapM_res with_digest inputs = Ok items ∧ mesh_select items = Ok o.
Proof.
  unfold preflight_outcome. rewrite <-for_res_ok, <-str_nodup_spec. split.
  - intros H. inv_bind. breflect. simplify_eq. split_and!; try done. by destruct inputs.
  - intros (Hrd & Hne & Hv & Hnd & Hi & Ho). apply String.eqb_neq in Hrd. rewrite Hrd.
    assert (match inputs with [] => true | _ => false end = false) as -> by (by destruct inputs).
    rewrite Hv, Hnd, Hi. unfold mbind, res_bind. cbn [fail_if negb]. by rewrite Ho.
Qed.

(** ** Order of the inputs *)

(** Inputs of one digest agree in what the preflight reads of them. *)
Definition coherent (items : list digested) : Prop :=
  ∀ a b, a ∈ items → b ∈ items → a.1 = b.1 →
    gi_allow a.2 = gi_allow b.2 ∧
    dict_get_or "reasons" (PList []) (gi_decision a.2) = dict_get_or "reasons" (PList []) (gi_decision b.2).

Lemma group_priority_perm g h : g ≡ₚ h → group_priority g = group_priority h.
Proof.
  intros Hp. destruct g as [|x g]; [by apply Permutation_nil_l in Hp as ->|].
  assert (h ≠ []) as Hne by (intros ->; by apply Permutation_nil_r in Hp).
  destruct (group_priority_spec (x :: g)) as [Hm1 (d1 & Hi1 & He1)]; [done|].
  destruct (group_priority_spec h Hne) as [Hm2 (d2 & Hi2 & He2)].
  rewrite Hp in Hi1. rewrite <-Hp in Hi2. apply Hm2 in Hi1. apply Hm1 in Hi2. lia.
Qed.

Lemma group_weight_perm g h : g ≡ₚ h → group_weight g = group_weight h.
Proof.
  unfold group_weight. intros Hp. generalize 0.
  induction Hp as [|x g h _ IH|x y g|g h k _ IH1 _ IH2]; intros z; simpl; [done|by rewrite IH| |].
  - f_equal. lia.
  - by rewrite IH1.
Qed.

Lemma ranks_before_perm d1 g1 h1 d2 g2 h2 :
  g1 ≡ₚ h1 → g2 ≡ₚ h2 → ranks_before (d1, g1) (d2, g2) = ranks_before (d1, h1) (d2, h2).
Proof.
  intros H1 H2. unfold ranks_before; simpl.
  by rewrite (group_priority_perm _ _ H1), (group_priority_perm _ _ H2),
    (group_weight_perm _ _ H1), (group_weight_perm _ _ H2).
Qed.

Lemma winning_group_some groups : groups ≠ [] → ∃ w, winning_group groups = Some w.
Proof. destruct groups; [done|eauto]. Qed.

(** The winning digest does not depend on the order. *)
Lemma winning_group_perm items1 items2 d1 g1 d2 g2 :
  items1 ≡ₚ items2 →
  winning_group (mesh_groups items1) = Some (d1, g1) →
  winning_group (mesh_groups items2) = Some (d2, g2) →
  d1 = d2 ∧ g1 ≡ₚ g2.
Proof.
  intros Hp H1 H2.
  apply winning_group_spec in H1 as [Hin1 Hb1]. apply winning_group_spec in H2 as [Hin2 Hb2].
  apply mesh_groups_in in Hin1 as [-> Hne1]. apply mesh_groups_in in Hin2 as [-> Hne2].
  assert (∀ d, members d items1 ≠ [] ↔ members d items2 ≠ []) as Hne.
  { intros d. pose proof (members_perm d _ _ Hp) as Hm. split; intros H E; rewrite E in Hm.
    - by apply Permutation_nil_r in Hm.
    - by apply Permutation_nil_l in Hm. }
  assert (ranks_before (d1, members d1 items1) (d2, members d2 items1) = true) as Hr1
    by (apply Hb1, mesh_groups_in; split; [done|by apply Hne]).
  assert (ranks_before (d2, members d2 items2) (d1, members d1 items2) = true) as Hr2
    by (apply Hb2, mesh_groups_in; split; [done|by apply Hne]).
  rewrite (ranks_before_perm _ _ _ _ _ _ (members_perm d2 _ _ (symmetry Hp))
             (members_perm d1 _ _ (symmetry Hp))) in Hr2.
  pose proof (ranks_before_tie _ _ Hr1 Hr2) as Heq. simpl in Heq. subst d2.
  split; [done|]. by apply members_perm.
Qed.

Lemma by_source_perm items1 items2 :
  NoDup (map (λ di : digested, gi_source_id di.2) items1) → items1 ≡ₚ items2 →
  by_source items1 = by_source items2.
Proof. apply sort_by_unique. Qed.

Lemma sort_strings_perm l1 l2 : NoDup l1 → l1 ≡ₚ l2 → sort_strings l1 = sort_strings l2.
Proof. intros Hnd. apply sort_by_unique. by rewrite list_fmap_id. Qed.

Lemma NoDup_map_filter {A B} (f : A → B) (p : A → bool) l :
  NoDup (map f l) → NoDup (map f (List.filter p l)).
Proof.
  induction l as [|x l IH]; simpl; [done|]. rewrite NoDup_cons. intros [Hx Hl].
  destruct (p x); simpl; [|auto]. apply NoDup_cons. split; [|auto].
  rewrite list_elem_of_In in *. rewrite in_map_iff in *. intros (y & Hy & Hin). apply Hx.
  exists y. split; [done|]. by apply filter_In in Hin as [? _].
Qed.

Lemma top_inputs_perm items1 items2 : items1 ≡ₚ items2 → top_inputs items1 ≡ₚ top_inputs items2.
Proof.
  intros Hp. unfold top_inputs. rewrite (max_priority_perm _ _ Hp). by apply filter_Permutation.
Qed.

Lemma unresolved_perm top1 top2 : top1 ≡ₚ top2 → unresolved top1 = unresolved top2.
Proof.
  intros Hp. destruct (unresolved top2) eqn:E2.
  - apply not_false_iff_true. intros E1. apply not_false_iff_true in E2. apply E2.
    rewrite unresolved_false in E1 |- *. intros a b. rewrite <-Hp. apply E1.
  - rewrite unresolved_false in E2 |- *. intros a b. rewrite Hp. apply E2.
Qed.

Lemma mesh_select_perm items1 items2 :
  items1 ≡ₚ items2 → coherent items1 → NoDup (map (λ di : digested, gi_source_id di.2) items1) →
  items1 ≠ [] → mesh_select items1 = mesh_select items2.
Proof.
  intros Hp Hc Hnd Hne. unfold mesh_select.
  assert (∀ items, items ≠ [] → ∃ w, winning_group (mesh_groups items) = Some w) as Hsome.
  { intros items Hn. apply winning_group_some. intros E.
    destruct (max_priority_spec items Hn) as [_ ([d i] & Hin & _)]. apply members_in in Hin.
    assert ((d, members d items) ∈ mesh_groups items) as Hg.
    { apply mesh_groups_in. split; [done|]. intros E'. rewrite E' in Hin. by apply elem_of_nil in Hin. }
    rewrite E in Hg. by apply elem_of_nil in Hg. }
  assert (items2 ≠ []) as Hne2 by (intros ->; by apply Permutation_nil_r in Hp).
  destruct (Hsome items1 Hne) as [[d1 g1] H1]. destruct (Hsome items2 Hne2) as [[d2 g2] H2].
  rewrite H1, H2. destruct (winning_group_perm _ _ _ _ _ _ Hp H1 H2) as [<- Hg].
  apply winning_group_spec in H1 as [H1 _]. apply winning_group_spec in H2 as [H2 _].
  apply mesh_groups_in in H1 as [Hg1 _]. apply mesh_groups_in in H2 as [Hg2 _].
  rewrite (unresolved_perm _ _ (top_inputs_perm _ _ Hp)).
  destruct g1 as [|f1 r1], g2 as [|f2 r2];
    [done|by apply Permutation_nil_cons in Hg|by symmetry in Hg; apply Permutation_nil_cons in Hg|].
  destruct (unresolved _); [done|].
  assert ((d1, f1) ∈ items1) as Hf1 by (apply members_in; rewrite <-Hg1; by left).
  assert ((d1, f2) ∈ items1) as Hf2 by (rewrite Hp; apply members_in; rewrite <-Hg2; by left).
  destruct (Hc _ _ Hf1 Hf2 eq_refl) as [Hal Hre]. simpl in Hal, Hre. rewrite Hal, Hre.
  destruct (py_tuple _); [|done]. unfold mbind, res_bind. do 2 f_equal.
  apply sort_strings_perm; [|by rewrite Hg].
  rewrite Hg1. unfold members. rewrite List.map_map. by apply NoDup_map_filter.
Qed.

Lemma mapM_res_perm {A B} (f : A → res B) l1 l2 ys1 :
  l1 ≡ₚ l2 → mapM_res f l1 = Ok ys1 → ∃ ys2, mapM_res f l2 = Ok ys2 ∧ ys1 ≡ₚ ys2.
Proof.
  intros Hp. revert ys1. induction Hp as [|x l1 l2 _ IH|x y l|l1 l2 l3 _ IH1 _ IH2]; intros ys1 H; simpl in *.
  - exists []. by injection H as <-.
  - apply res_bind_ok in H as (b & Hb & H). apply res_bind_ok in H as (bs & Hbs & [= <-]).
    destruct (IH bs Hbs) as (bs2 & H2 & Hbp). exists (b :: bs2). rewrite Hb. simpl. rewrite H2.
    split; [done|]. by constructor.
  - apply res_bind_ok in H as (b & Hb & H). apply res_bind_ok in H as (bs & Hbs & [= <-]).
    apply res_bind_ok in Hbs as (c & Hc & H). apply res_bind_ok in H as (cs & Hcs & [= <-]).
    exists (c :: b :: cs). rewrite Hc. simpl. rewrite Hb. simpl. rewrite Hcs. split; [done|]. constructor.
  - destruct (IH1 _ H) as (ys2 & H2 & ?). destruct (IH2 _ H2) as (ys3 & H3 & ?).
    exists ys3. split; [done|]. by etransitivity.
Qed.

Lemma mesh_conflicts_perm items1 items2 :
  items1 ≡ₚ items2 → NoDup (map (λ di : digested, gi_source_id di.2) items1) →
  mesh_conflicts (max_priority items1) (top_inputs items1) =
  mesh_conflicts (max_priority items2) (top_inputs items2).
Proof.
  intros Hp Hnd. unfold mesh_conflicts. rewrite (max_priority_perm _ _ Hp).
  rewrite (by_source_perm (top_inputs items1) (top_inputs items2)).
  - done.
  - by apply NoDup_map_filter.
  - by apply top_inputs_perm.
Qed.

(** ** The highest-priority inputs *)

(** [i] is an input that no input outranks. *)
Definition top_priority (inputs : list GovernanceInput) (i : GovernanceInput) : Prop :=
  i ∈ inputs ∧ ∀ j, j ∈ inputs → gi_priority j ≤ gi_priority i.

Lemma top_priority_digested items i :
  items ≠ [] → top_priority (map snd items) i ↔ ∃ g, (g, i) ∈ top_inputs items.
Proof.
  intros Hne. destruct (max_priority_spec items Hne) as [Hle (t & Ht & Htp)]. split.
  - intros [(di & -> & Hin)%list_elem_of_fmap Hmax]. exists di.1. apply top_inputs_in.
    destruct di as [g i]. simpl in *. split; [done|].
    specialize (Hmax t.2 ltac:(by apply list_elem_of_fmap; exists t)).
    specialize (Hle _ Hin). simpl in Hle. lia.
  - intros (g & [Hin Hp]%top_inputs_in). simpl in Hp. split.
    + apply list_elem_of_fmap. by exists (g, i).
    + intros j (dj & -> & Hj)%list_elem_of_fmap. rewrite Hp. by apply Hle.
Qed.

Lemma unresolved_true top :
  unresolved top = true → ∃ a b, a ∈ top ∧ b ∈ top ∧ a.1 ≠ b.1.
Proof.
  intros Hu. apply not_false_iff_true in Hu. rewrite unresolved_false in Hu.
  destruct (decide (Exists (λ a, Exists (λ b, a.1 ≠ b.1) top) top)) as [HE|HnE].
  - apply Exists_exists in HE as (a & Ha & HE). apply Exists_exists in HE as (b & Hb & ?).
    by exists a, b.
  - exfalso. apply Hu. intros a b Ha Hb. destruct (decide (a.1 = b.1)) as [|Hneq]; [done|].
    exfalso. apply HnE. apply Exists_exists. exists a. split; [done|].
    apply Exists_exists. by exists b.
Qed.

(** The decision of the input is JSON. *)
Definition json_decision (i : GovernanceInput) : Prop :=
  json_safe canonical_style (PDict (gi_decision i)) = true ∧ wf (PDict (gi_decision i)) = true.

Lemma gi_allow_norm i :
  gi_allow i = truthy (default PNone (norm <$> assoc_get "allow" (gi_decision i))).
Proof.
  unfold gi_allow, dict_get. destruct (assoc_get "allow" (gi_decision i)) as [v|]; [|reflexivity].
  symmetry. apply truthy_norm.
Qed.

(** The text that the digest of an input is taken of. *)
Definition decision_text (i : GovernanceInput) : string := canonical_text (PDict (gi_decision i)).

(** Reasons, if the decision has some, are a list of texts. *)
Definition text_reasons (i : GovernanceInput) : bool :=
  match dict_get_or "reasons" (PList []) (gi_decision i) with PList l => forallb is_str l | _ => false end.

Lemma gi_digest_binds i j g :
  json_decision i → json_decision j → collision_free [decision_text i; decision_text j] →
  gi_digest i = Ok g → gi_digest j = Ok g →
  ∀ k, norm <$> assoc_get k (gi_decision i) = norm <$> assoc_get k (gi_decision j).
Proof.
  intros [Hs1 Hw1] [Hs2 Hw2] Hc H1 H2 k.
  pose proof (canonical_digest_binds _ _ g Hs1 Hs2 Hw1 Hw2 Hc H1 H2) as Hn.
  apply wf_dict in Hw1 as [Hn1 _]. apply wf_dict in Hw2 as [Hn2 _]. by apply norm_dict_get.
Qed.

Lemma norm_texts l m : forallb is_str l = true → forallb is_str m = true → map norm l = map norm m → l = m.
Proof.
  revert m. induction l as [|x l IH]; intros [|y m]; simpl; try done.
  intros [Hx Hl]%andb_true_iff [Hy Hm]%andb_true_iff [= Hxy Hlm]. f_equal; [|by apply IH].
  by destruct x, y.
Qed.

(** Decisions of one digest allow alike, for the same reasons. *)
Lemma gi_digest_agree i j g :
  json_decision i → json_decision j → collision_free [decision_text i; decision_text j] →
  gi_digest i = Ok g → gi_digest j = Ok g →
  gi_allow i = gi_allow j ∧
  (text_reasons i = true → text_reasons j = true →
   dict_get_or "reasons" (PList []) (gi_decision i) = dict_get_or "reasons" (PList []) (gi_decision j)).
Proof.
  intros Hi Hj Hc H1 H2. pose proof (gi_digest_binds i j g Hi Hj Hc H1 H2) as Hk.
  split; [by rewrite !gi_allow_norm, Hk|]. unfold text_reasons, dict_get_or. specialize (Hk "reasons").
  destruct (assoc_get "reasons" (gi_decision i)) as [v|], (assoc_get "reasons" (gi_decision j)) as [w|];
    try done. destruct v as [| | | | |l| |], w as [| | | | |m| |]; try done.
  intros Hl Hm. f_equal. apply norm_texts; [done..|]. by injection Hk.
Qed.

(** * Properties *)


Definition mesh_input (source : string) (allow : bool) (priority : Z) : GovernanceInput :=
  {| gi_source_id := source; gi_decision := [("allow", PBool allow)]; gi_weight := 1;
     gi_priority := priority; gi_metadata := None; gi_source_signature := None |}.

Definition mesh_example (inputs : list GovernanceInput) : res GovernancePreflightDecision :=
  (mesh_preflight (C := toy_crypto) (L := ReplayLog) (MeshSources []) inputs "digest" (Some "frame")
    None).1.


(** C24. Every input is attested: when the mesh has a key source, a preflight
    succeeds only if each input carries a signature over its source, decision,
    weight, priority and metadata that verifies under the live key of that
    source, and no source speaks twice. *)
Theorem mesh_attested `{C : Crypto} {L} `{RS : ReplayStore L} (keys : mesh_keys)
    (inputs : list GovernanceInput) (rd : string) (ref : option string) (log log' : option L)
    (d : GovernancePreflightDecision) :
  mesh_unchecked keys = false →
  mesh_preflight keys inputs rd ref log = (Ok d, log') →
  NoDup (map gi_source_id inputs) ∧
  ∀ i, i ∈ inputs → ∃ key s payload,
    mesh_resolve keys (gi_source_id i) = Some key ∧ gi_source_signature i = Some s ∧
    attestation_payload i = Ok payload ∧ verify_signature key payload s = true.
Proof.
  intros Hk H. apply mesh_preflight_ok in H as (o & items & Hout & _).
  apply preflight_outcome_ok in Hout as (_ & _ & Hatt & Hnd & _). split; [done|].
  rewrite Forall_forall in Hatt. intros i Hi%Hatt. unfold verify_source_attestation in Hi.
  rewrite Hk in Hi. destruct (mesh_resolve _ _) as [key|]; [|done].
  destruct (gi_source_signature i) as [s|]; [|done].
  apply res_bind_ok in Hi as (payload & Hp & Hi). apply fail_if_ok in Hi. breflect.
  by exists key, s, payload.
Qed.

Definition attested_input : GovernanceInput :=
  match gi_attest (mesh_input "a" true 0) (LocalEd25519Signer (C := toy_crypto) "a" "ka") with
  | Ok i => i | Raise _ => mesh_input "a" true 0 end.

Lemma mesh_attested_witness :
  ∃ key s payload,
    mesh_resolve (C := toy_crypto) (MeshSources [("a", "ka")]) "a" = Some key ∧
    gi_source_signature attested_input = Some s ∧
    attestation_payload attested_input = Ok payload ∧ verify_signature key payload s = true.
Proof.
  set (keys := @MeshSources toy_crypto [("a", "ka")]).
  set (r := mesh_preflight (L := ReplayLog) keys [attested_input] "digest" (Some "frame") None).
  set (d := match r.1 with Ok d => d | Raise _ => Build_GovernancePreflightDecision false "" None [] [] [] [] "" None end).
  assert (r = (Ok d, None)) as H by (vm_compute; reflexivity).
  exact (proj2 (mesh_attested keys [attested_input] "digest" (Some "frame") None None d eq_refl H)
           attested_input (list_elem_of_here _ _)).
Defined.

(** C35. The decision is a function of the set of inputs: any order of the same
    inputs gives the same decision and the same log, when the inputs' decisions
    are JSON whose reasons are texts and SHA-256 tells their texts apart.  Two
    inputs may state one decision with its entries in different orders. *)
Theorem mesh_order_invariant `{C : Crypto} {L} `{RS : ReplayStore L} (keys : mesh_keys)
    (inputs1 inputs2 : list GovernanceInput) (rd : string) (ref : option string)
    (log log' : option L) (d : GovernancePreflightDecision) :
  inputs1 ≡ₚ inputs2 →
  (∀ i, i ∈ inputs1 → json_decision i ∧ text_reasons i = true) →
  collision_free (map decision_text inputs1) →
  mesh_preflight keys inputs1 rd ref log = (Ok d, log') →
  mesh_preflight keys inputs2 rd ref log = (Ok d, log').
Proof.
  intros Hp Hj Hfree H. pose proof H as H0.
  apply mesh_preflight_ok in H0 as (o & items1 & Hout & _). pose proof Hout as Hout1.
  apply preflight_outcome_ok in Hout as (Hrd & Hne & Hatt & Hnd & Hitems & Hsel).
  destruct (mapM_res_perm with_digest inputs1 inputs2 items1 Hp Hitems) as (items2 & Hitems2 & Hip).
  apply mapM_with_digest in Hitems as [Hmap Hdig]. rewrite Forall_forall in Hdig.
  assert (NoDup (map (λ di : digested, gi_source_id di.2) items1)) as Hnd1
    by (by rewrite <-Hmap, List.map_map in Hnd).
  assert (mesh_select items2 = Ok o) as Hsel2.
  { rewrite <-(mesh_select_perm items1 items2); [done|done| |done|by intros ->; rewrite <-Hmap in Hne].
    assert (∀ a, a ∈ items1 → a.2 ∈ inputs1) as Hin
      by (intros a Ha; rewrite <-Hmap; apply list_elem_of_fmap; eauto).
    intros a b Ha Hb Hab. destruct (Hj _ (Hin a Ha)) as [Hja Hra], (Hj _ (Hin b Hb)) as [Hjb Hrb].
    destruct (gi_digest_agree a.2 b.2 a.1) as [Hal Hre]; [done..| |by apply Hdig|rewrite Hab; by apply Hdig|
      by split; [|apply Hre]].
    eapply collision_free_mono; [|exact Hfree]. intros x Hx. apply list_elem_of_fmap.
    apply elem_of_cons in Hx as [->|[->|[]%elem_of_nil]%elem_of_cons];
      eexists; (split; [reflexivity|]); auto. }
  assert (preflight_outcome keys inputs2 rd = Ok (o, items2)) as Hout2.
  { apply preflight_outcome_ok. split_and!; try done.
    - intros ->. by apply Permutation_nil_r in Hp.
    - by rewrite <-Hp.
    - by rewrite <-Hp. }
  unfold mesh_preflight in *. rewrite Hout1 in H. rewrite Hout2.
  unfold mbind, M_bind, lift_res in *.
  assert (mesh_input_digests items1 = mesh_input_digests items2) as Hid
    by (unfold mesh_input_digests; by rewrite (by_source_perm items1 items2)).
  assert (mesh_unsigned rd o items1 ref = mesh_unsigned rd o items2 ref) as Hun
    by (unfold mesh_unsigned; by rewrite Hid, (mesh_conflicts_perm items1 items2)).
  by rewrite <-Hun, <-Hid, <-(mesh_conflicts_perm items1 items2).
Qed.

(** Two sources state one decision, its entries in different orders. *)
Definition reasoned_input (source : string) (swapped : bool) : GovernanceInput :=
  let d := [("allow", PBool true); ("reasons", PList [PStr "ok"])] in
  {| gi_source_id := source; gi_decision := if swapped then rev d else d; gi_weight := 1;
     gi_priority := 2; gi_metadata := None; gi_source_signature := None |}.

Lemma mesh_order_invariant_witness :
  ∃ d, mesh_example [reasoned_input "a" false; reasoned_input "b" true; mesh_input "c" false 1] = Ok d ∧
       mesh_example [mesh_input "c" false 1; reasoned_input "b" true; reasoned_input "a" false] = Ok d.
Proof.
  set (in1 := [reasoned_input "a" false; reasoned_input "b" true; mesh_input "c" false 1]).
  set (in2 := [mesh_input "c" false 1; reasoned_input "b" true; reasoned_input "a" false]).
  set (r := mesh_preflight (C := toy_crypto) (L := ReplayLog) (MeshSources []) in1 "digest"
              (Some "frame") None).
  set (d := match r.1 with Ok d => d | Raise _ => Build_GovernancePreflightDecision false "" None [] [] [] [] "" None end).
  assert (r = (Ok d, None)) as H by (vm_compute; reflexivity).
  exists d. split; [unfold mesh_example; fold r; by rewrite H|]. unfold mesh_example.
  rewrite (mesh_order_invariant (MeshSources []) in1 in2 "digest" (Some "frame") None None d).
  - reflexivity.
  - exact (Permutation_rev in1).
  - intros i Hi%list_elem_of_In. destruct Hi as [<-|[<-|[<-|[]]]]; split; try reflexivity; split; reflexivity.
  - apply (bool_decide_unpack _). vm_compute. exact I.
  - exact H.
Defined.
