(* ===== verification/Issuer.v ===== *)
(** issuer.py: the authorization workflow.  A request is decided by the
    arbiter, checked by the governance mesh when there are mesh inputs,
    recorded in the replay log and answered with a signed artifact.

    The clock reading and the fresh nonce are arguments.  The state is the
    issuer's replay log and, when its mesh records into a log of its own, that
    log.  The file shows what an issued artifact guarantees, what a refusal
    leaves behind, and that no mesh requirement of a policy is skipped. *)

From S2P Require Import Prelude PyFloat PyVal Json Sha256 Base64 Crypto Trust Models Policy Arbiter Replay ReplayStore Mesh.

(** ** What the workflow reads from any log *)

Section LogReads.
Context {L : Type} `{RS : ReplayStore L}.

Definition store_get (l : L) (frame_id : string) : option ReplayFrame :=
  List.find (λ f, String.eqb (rf_frame_id f) frame_id) (store_frames l).

Definition store_events_for_nonce (l : L) (nonce : string) : res (list pydict) :=
  fail_if (String.eqb nonce "") (ValueError "nonce must not be empty") ;;
  Ok (List.filter (λ e, py_eqb (dict_get "nonce" e) (PStr nonce)) (map rf_event (store_frames l))).
End LogReads.

(** ** The approvals argument *)

Inductive approval_arg :=
| ApprovalObject (a : SignedApproval)
| ApprovalDict (d : pydict)
| ApprovalOther.

Definition serialize_approval (a : approval_arg) : res pyval :=
  match a with
  | ApprovalObject a => Ok (PDict (approval_to_dict a))
  | ApprovalDict d => Ok (PDict d)
  | ApprovalOther => Raise (ValueError "approvals must be SignedApproval instances or objects")
  end.

Definition effective_request (request : pydict) (approvals : option (list approval_arg))
    : res pydict :=
  match approvals with
  | None => Ok request
  | Some l =>
      serialized ← mapM_res serialize_approval l;
      match dict_get "approvals" request with
      | PNone => Ok (assoc_set "approvals" (PList serialized) request)
      | PList existing => Ok (assoc_set "approvals" (PList (existing ++ serialized)) request)
      | _ => Raise (ValueError "request approvals must be a list when present")
      end
  end.

(** ** The mesh requirement of a policy *)

(** [str(action) if action is not None else None] *)
Definition action_name (request : pydict) : option string :=
  match dict_get "action" request with PNone => None | v => Some (py_str v) end.

(** [d.get(action, default)] for the optional action name. *)
Definition by_name {A} (name : option string) (d : list (string * A)) (x : A) : A :=
  default x (n ← name; assoc_get n d).

Definition request_environment (request : pydict) : pyval :=
  match dict_get "context" request with PDict c => dict_get "environment" c | _ => PNone end.

Definition active_mesh_requirement (request : pydict) (p : Policy) : bool :=
  match action_name request with Some a => str_in a (mesh_required_actions p) | None => false end ||
  match request_environment request with
  | PStr e => str_in e (mesh_required_environments p)
  | _ => false
  end.

(** [f"{action!r}"] *)
Definition name_repr (name : option string) : string :=
  match name with Some a => py_repr_str a | None => "None" end.

(** A decision turned into a denial with further codes and reasons. *)
Definition denied_with (decision : pydict) (codes reasons : list string) : pydict :=
  let d1 := assoc_set "allow" (PBool false) decision in
  let d2 := assoc_set "reason_codes"
    (PList (list_of (dict_get "reason_codes" d1) ++ map PStr codes)) d1 in
  assoc_set "reasons" (PList (list_of (dict_get "reasons" d2) ++ map PStr reasons)) d2.

(** The code and the reason of the first unmet requirement. *)
Definition mesh_unmet (request : pydict) (p : Policy) (inputs : list GovernanceInput)
    : option (string * string) :=
  let action := action_name request in
  let count := by_name action (required_mesh_inputs p) 0 in
  let sources := by_name action (required_mesh_sources p) [] in
  let active := active_mesh_requirement request p in
  let missing := List.filter (λ s, negb (str_in s (map gi_source_id inputs))) sources in
  let inputs_required :=
    ("mesh_inputs_required", "mesh inputs required for action " +:+ name_repr action) in
  if active || negb (count =? 0) || match sources with [] => false | _ => true end then
    if active && match inputs with [] => true | _ => false end then Some inputs_required
    else if Z.of_nat (length inputs) <? count then Some inputs_required
    else match missing with
         | [] => None
         | _ => Some ("mesh_sources_missing",
                      "mesh source requirements unmet: " +:+ join ", " missing)
         end
  else None.

(** ** The issuer *)

Section Issuer.
Context `{C : Crypto} {L : Type} `{RS : ReplayStore L}.

(** [ai_mesh] is the configured mesh with its keys; the flag says that it
    records into the issuer's log.  Without one, a mesh is made from the
    source registry, which is what [ai_registry] gives keys to. *)
Record AuthorizationIssuer := {
  ai_issuer : Signer;
  ai_arbiter : DeterministicArbiter;
  ai_mesh : option (mesh_keys * bool);
  ai_registry : option (GovernanceSourceRegistry * option TrustStore)
}.

Record issuer_state := { is_log : L; is_mesh_log : option L }.

Definition on_log {A} (m : M L A) : M issuer_state A :=
  zoom is_log (λ l s, {| is_log := l; is_mesh_log := is_mesh_log s |}) m.

(** A mesh run on the issuer's own log. *)
Definition on_shared {A} (m : M (option L) A) : M issuer_state A :=
  λ s, let '(r, ol) := m (Some (is_log s)) in
       (r, {| is_log := default (is_log s) ol; is_mesh_log := is_mesh_log s |}).

Definition on_own {A} (m : M (option L) A) : M issuer_state A :=
  zoom is_mesh_log (λ l s, {| is_log := is_log s; is_mesh_log := l |}) m.

Definition issuer_preflight (I : AuthorizationIssuer) (inputs : list GovernanceInput)
    (request_digest : string) : M issuer_state GovernancePreflightDecision :=
  match ai_mesh I with
  | Some (keys, true) => on_shared (mesh_preflight keys inputs request_digest None)
  | Some (keys, false) => on_own (mesh_preflight keys inputs request_digest None)
  | None =>
      keys ← lift_res (mesh_init None None (ai_registry I));
      on_shared (mesh_preflight keys inputs request_digest None)
  end.

(** The mesh stage: the decision after it and the mesh's own decision. *)
Definition mesh_stage (I : AuthorizationIssuer) (request decision : pydict)
    (inputs : list GovernanceInput)
    : M issuer_state (pydict * option GovernancePreflightDecision) :=
  match inputs with
  | [] => mret (decision, None)
  | _ =>
      request_digest ← lift_res (canonical_digest (PDict request));
      d ← issuer_preflight I inputs request_digest;
      let noted dec := assoc_set "mesh_preflight_digest" (PStr (pd_digest d)) dec in
      mret (noted (if pd_allow d then decision
                   else denied_with decision ["governance_mesh_denied"] (pd_reasons d)), Some d)
  end.

Definition denied_event (nonce : string) (request decision : pydict) : pydict :=
  [("type", PStr "authorization"); ("nonce", PStr nonce); ("request", PDict request);
   ("decision", PDict decision); ("issued", PBool false)].

Definition mesh_evidence (request : pydict) (inputs : list GovernanceInput)
    (mesh : option GovernancePreflightDecision) : res pydict :=
  match mesh with
  | None => Ok []
  | Some d =>
      digest ← canonical_digest (PDict request);
      inputs ← mapM_res gi_to_dict inputs;
      Ok [("mesh_preflight_digest", PStr (pd_digest d)); ("mesh_request_digest", PStr digest);
          ("mesh_inputs", PList (map PDict inputs))]
  end.

Definition issued_event (nonce payload : string) (decision evidence : pydict) : pydict :=
  [("type", PStr "authorization"); ("nonce", PStr nonce); ("artifact_payload", PStr payload);
   ("decision", PDict decision); ("issued", PBool true)] ++ evidence.

Definition authorize (I : AuthorizationIssuer) (now : Z) (nonce : string) (request : pydict)
    (p : Policy) (ttl_seconds : Z) (approvals : option (list approval_arg))
    (inputs : list GovernanceInput) : M issuer_state GovernanceAuthorizationArtifact :=
  raise_if (ttl_seconds <=? 0) (ValueError "ttl_seconds must be positive") ;;
  raise_if (max_ttl_seconds p <? ttl_seconds) (ValueError "ttl_seconds exceeds policy maximum") ;;
  request ← lift_res (effective_request request approvals);
  match mesh_unmet request p inputs with
  | Some (code, reason) =>
      decision ← lift_res (decide (ai_arbiter I) request p);
      raise (PolicyDeniedError (denied_with decision [code] [reason]))
  | None =>
      decision ← lift_res (decide (ai_arbiter I) request p);
      dm ← mesh_stage I request decision inputs;
      let '(decision, mesh) := dm : pydict * option GovernancePreflightDecision in
      let frame_id := "authorization:" +:+ nonce in
      if negb (truthy (dict_get "allow" decision)) then
        on_log (store_append frame_id (denied_event nonce request decision)) ;;
        raise (PolicyDeniedError decision)
      else
        let expires_at := now + ttl_seconds in
        let unsigned :=
          {| gaa_action_request := request; gaa_decision := decision;
             gaa_expires_at := expires_at; gaa_nonce := nonce; gaa_replay_frame_ref := frame_id;
             gaa_issuer_key_id := signer_key_id (ai_issuer I); gaa_signature := "" |} in
        payload ← lift_res (gaa_unsigned_payload unsigned);
        evidence ← lift_res (mesh_evidence request inputs mesh);
        on_log (store_append frame_id (issued_event nonce payload decision evidence)) ;;
        lift_res (gaa_issue request decision expires_at nonce frame_id (ai_issuer I))
  end.

(** A failed execution of the nonce is on record. *)
Definition failed_execution (l : L) (nonce : string) : res bool :=
  events ← store_events_for_nonce l nonce;
  Ok (existsb (λ e, py_eqb (dict_get "type" e) (PStr "execution") &&
                    py_eqb (dict_get "status" e) (PStr "failed")) events).

Definition authorize_compensation (I : AuthorizationIssuer) (now : Z) (nonce failed_nonce : string)
    (request : pydict) (p : Policy) (ttl_seconds : Z)
    : M issuer_state GovernanceAuthorizationArtifact :=
  raise_if (String.eqb failed_nonce "") (ValueError "failed_nonce must not be empty") ;;
  s ← get_state;
  failed ← lift_res (failed_execution (is_log s) failed_nonce);
  raise_if (negb failed)
    (AuthorizationError "compensation requires an audited failed execution") ;;
  authorize I now nonce (assoc_set "compensation_for" (PStr failed_nonce) request) p ttl_seconds
    None [].
End Issuer.
#[global] Arguments AuthorizationIssuer : clear implicits.
#[global] Arguments AuthorizationIssuer {C}.
#[global] Arguments issuer_state : clear implicits.
#[global] Arguments authorize : simpl never.
#[global] Arguments mesh_stage : simpl never.
#[global] Arguments decide : simpl never.

(** * Lemmas *)

(** ** Computations that only append frames *)

(** [l'] is [l] with frames appended; no nonce was consumed. *)
Record log_extends {L} `{RS : ReplayStore L} (l l' : L) : Prop := {
  extends_frames : store_frames l `prefix_of` store_frames l';
  extends_used : ∀ n, store_used l' n = store_used l n;
  extends_inv : store_inv l → store_inv l'
}.

Section Extends.
Context `{C : Crypto} {L : Type} `{LL : ReplayStoreLaws L}.

#[export] Instance log_extends_preorder : PreOrder (log_extends (L := L)).
Proof.
  split; [by split|]. intros l1 l2 l3 [H1 H2 H3] [H4 H5 H6].
  split; [by etransitivity| |by auto]. intros n. by rewrite H5.
Qed.

Lemma append_extends fid ev (l : L) : log_extends l (store_append fid ev l).2.
Proof.
  split; [apply append_prefix|intros n; apply append_used|apply append_inv].
Qed.

Definition appends_only {A} (m : M (issuer_state L) A) : Prop :=
  ∀ s, log_extends (is_log s) (is_log (m s).2).

Lemma appends_bind {A B} (m : M (issuer_state L) A) (f : A → M (issuer_state L) B) :
  appends_only m → (∀ x, appends_only (f x)) → appends_only (m ≫= f).
Proof.
  intros Hm Hf s. unfold mbind, M_bind. specialize (Hm s).
  destruct (m s) as [[x|e] s1]; [|done]. cbn [snd] in Hm. etransitivity; [done|apply Hf].
Qed.

Lemma appends_lift {A} (r : res A) : appends_only (lift_res r).
Proof. intros s. reflexivity. Qed.
Lemma appends_raise_if b e : appends_only (raise_if b e).
Proof. intros s. reflexivity. Qed.
Lemma appends_raise {A} e : appends_only (raise (A := A) e).
Proof. intros s. reflexivity. Qed.
Lemma appends_ret {A} (x : A) : appends_only (mret x).
Proof. intros s. reflexivity. Qed.
Lemma appends_get : appends_only get_state.
Proof. intros s. reflexivity. Qed.

Lemma appends_on_log fid ev : appends_only (on_log (store_append fid ev)).
Proof.
  intros s. unfold on_log, zoom. pose proof (append_extends fid ev (is_log s)) as H.
  by destruct (store_append fid ev (is_log s)) as [r l].
Qed.

Lemma preflight_extends keys inputs rd ref (l : L) :
  ∃ l', (mesh_preflight keys inputs rd ref (Some l)).2 = Some l' ∧ log_extends l l'.
Proof.
  unfold mesh_preflight, mbind, M_bind, lift_res, get_state, put_state, mret, M_ret, raise.
  destruct (preflight_outcome keys inputs rd) as [[o items]|e]; [|by exists l].
  destruct (canonical_digest _) as [g|e]; [|by exists l]. cbv beta iota.
  match goal with |- context [store_append ?fid ?ev l] =>
    pose proof (append_extends fid ev l) as Hx; destruct (store_append fid ev l) as [[f|e] l'] end;
    by exists l'.
Qed.

Lemma appends_shared keys inputs rd ref : appends_only (on_shared (mesh_preflight keys inputs rd ref)).
Proof.
  intros s. unfold on_shared. destruct (preflight_extends keys inputs rd ref (is_log s)) as (l' & H & Hx).
  destruct (mesh_preflight _ _ _ _ _) as [r ol]. cbn [snd] in H |- *. by rewrite H.
Qed.

Lemma appends_own {A} (m : M (option L) A) : appends_only (on_own m).
Proof. intros s. unfold on_own, zoom. by destruct (m _) as [r l]. Qed.
End Extends.

Create HintDb appends.
#[export] Hint Resolve appends_lift appends_raise_if appends_raise appends_ret appends_get
  appends_on_log appends_shared appends_own : appends.

(** Split a computation at its binds and branches. *)
Ltac appends :=
  repeat first
    [ solve [auto with appends]
    | apply appends_bind; [|intros ?]
    | progress cbv beta iota
    | match goal with |- appends_only (match ?x with _ => _ end) => destruct x end
    | match goal with |- appends_only (if ?x then _ else _) => destruct x end ].

Section IssuerLemmas.
Context `{C : Crypto} {L : Type} `{LL : ReplayStoreLaws L}.
Implicit Types s : issuer_state L.

Lemma appends_preflight I inputs rd : appends_only (L := L) (issuer_preflight I inputs rd).
Proof. unfold issuer_preflight. appends. Qed.
Hint Resolve appends_preflight : appends.

Lemma appends_mesh_stage I request decision inputs :
  appends_only (L := L) (mesh_stage I request decision inputs).
Proof. unfold mesh_stage. appends. Qed.
Hint Resolve appends_mesh_stage : appends.

Lemma appends_authorize I now nonce request p ttl approvals inputs :
  appends_only (L := L) (authorize I now nonce request p ttl approvals inputs).
Proof. unfold authorize. appends. Qed.
End IssuerLemmas.

(** ** What an issued artifact went through *)

(** The artifact before it is signed. *)
Definition unsigned_gaa `{C : Crypto} (I : AuthorizationIssuer) (request decision : pydict)
    (expires_at : Z) (nonce : string) : gaa :=
  {| gaa_action_request := request; gaa_decision := decision; gaa_expires_at := expires_at;
     gaa_nonce := nonce; gaa_replay_frame_ref := "authorization:" +:+ nonce;
     gaa_issuer_key_id := signer_key_id (ai_issuer I); gaa_signature := "" |}.

Lemma denied_with_allow decision codes reasons :
  dict_get "allow" (denied_with decision codes reasons) = PBool false.
Proof. unfold denied_with, dict_get. by rewrite !assoc_get_set_ne, assoc_get_set_eq by done. Qed.

Section Issued.
Context `{C : Crypto} {L : Type} `{LL : ReplayStoreLaws L}.
Implicit Types s : issuer_state L.

Record issued (I : AuthorizationIssuer) (now : Z) (nonce : string) (request : pydict) (p : Policy)
    (ttl : Z) (inputs : list GovernanceInput) s s' (a : gaa) (decided decision : pydict)
    (mesh : option GovernancePreflightDecision) (payload : string) (evidence : pydict)
    (frame : ReplayFrame) s1 : Prop := {
  issued_ttl : 0 < ttl ≤ max_ttl_seconds p;
  issued_unmet : mesh_unmet request p inputs = None;
  issued_decided : decide (ai_arbiter I) request p = Ok decided;
  issued_stage : mesh_stage I request decided inputs s = (Ok (decision, mesh), s1);
  issued_allow : truthy (dict_get "allow" decision) = true;
  issued_payload : gaa_unsigned_payload (unsigned_gaa I request decision (now + ttl) nonce) = Ok payload;
  issued_evidence : mesh_evidence request inputs mesh = Ok evidence;
  issued_append : store_append ("authorization:" +:+ nonce)
    (issued_event nonce payload decision evidence) (is_log s1) = (Ok frame, is_log s');
  issued_artifact : gaa_issue request decision (now + ttl) nonce ("authorization:" +:+ nonce)
    (ai_issuer I) = Ok a
}.

Lemma authorize_ok I now nonce request0 p ttl approvals inputs s a s' :
  authorize I now nonce request0 p ttl approvals inputs s = (Ok a, s') →
  ∃ request, effective_request request0 approvals = Ok request ∧
    ∃ decided decision mesh payload evidence frame s1,
      issued I now nonce request p ttl inputs s s' a decided decision mesh payload evidence frame s1.
Proof.
  unfold authorize. intros H. inv_bind. breflect. exists x1. split; [done|].
  destruct (mesh_unmet x1 p inputs) as [[code reason]|] eqn:Hu; [inv_bind|]. inv_bind.
  destruct x0 as [decision mesh].
  destruct (negb (truthy _)) eqn:Hal; inv_bind; breflect.
  exists x, decision, mesh, x0, x2, x3, st0.
  unfold on_log, zoom in *.
  match goal with H : (let '(_, _) := ?m in _) = _ |- _ => destruct m as [rf lf] eqn:Happ; injection H as -> <- end.
  split; try done.
Qed.

Lemma decide_allow_bool A request p d :
  decide A request p = Ok d → dict_get "allow" d = PBool true ∨ dict_get "allow" d = PBool false.
Proof.
  intros H. apply decide_ok in H as (? & rs & ? & _ & _ & _ & ->). destruct rs; [by left|by right].
Qed.

(** The mesh stage lets an allowance through unchanged but for its digest. *)
Lemma mesh_stage_allows I request decided inputs s decision mesh s1 :
  mesh_stage I request decided inputs s = (Ok (decision, mesh), s1) →
  truthy (dict_get "allow" decision) = true →
  (inputs = [] ∧ mesh = None ∧ decision = decided ∧ s1 = s) ∨
  (inputs ≠ [] ∧ ∃ d digest, mesh = Some d ∧ pd_allow d = true ∧
     canonical_digest (PDict request) = Ok digest ∧
     issuer_preflight I inputs digest s = (Ok d, s1) ∧
     decision = assoc_set "mesh_preflight_digest" (PStr (pd_digest d)) decided).
Proof.
  unfold mesh_stage. intros H Hal. destruct inputs as [|i inputs]; inv_bind.
  { left. naive_solver. }
  right. split; [done|]. cbv zeta in *.
  match goal with H : (_, _) = (_, _) |- _ => injection H as -> -> end.
  destruct (pd_allow x0) eqn:Hp; [naive_solver|].
  unfold dict_get in Hal. rewrite assoc_get_set_ne in Hal by done.
  fold (dict_get "allow" (denied_with decided ["governance_mesh_denied"] (pd_reasons x0))) in Hal.
  by rewrite denied_with_allow in Hal.
Qed.
End Issued.

Lemma decide_allow_satisfies `{C : Crypto} A request p d :
  decide A request p = Ok d → truthy (dict_get "allow" d) = true →
  ∃ action context bytes, canonical_json (PDict request) = Ok bytes ∧
    satisfies_with (quorum_met A request) request p action context bytes.
Proof.
  intros H Hal. apply decide_ok in H as (bytes & rs & g & Hb & Hrs & _ & ->).
  destruct rs; [|done]. apply decide_reasons_nil in Hrs as [Hrs _].
  destruct (Hrs eq_refl) as (a & c & Hs). by exists a, c, bytes.
Qed.

Lemma mesh_unmet_none request p inputs :
  mesh_unmet request p inputs = None →
  (active_mesh_requirement request p = true → inputs ≠ []) ∧
  by_name (action_name request) (required_mesh_inputs p) 0 ≤ Z.of_nat (length inputs) ∧
  ∀ k, k ∈ by_name (action_name request) (required_mesh_sources p) [] → k ∈ map gi_source_id inputs.
Proof.
  unfold mesh_unmet.
  set (count := by_name _ (required_mesh_inputs p) 0).
  set (sources := by_name _ (required_mesh_sources p) []).
  destruct (_ || _ || _) eqn:Hreq.
  - destruct (_ && _) eqn:Hact; [done|]. destruct (_ <? count) eqn:Hc; [done|]. breflect.
    intros H. split; [|split; [done|]].
    + intros Ha ->. by rewrite Ha in Hact.
    + intros k Hk. destruct (str_in k (map gi_source_id inputs)) eqn:Hin; [by apply str_in_spec|].
      assert (k ∈ List.filter (λ s, negb (str_in s (map gi_source_id inputs))) sources) as Hm.
      { apply list_elem_of_In, filter_In. rewrite Hin. by split; [apply list_elem_of_In|]. }
      destruct (List.filter _ _); [by apply not_elem_of_nil in Hm|done].
  - intros _. breflect. split; [congruence|]. split; [lia|].
    intros k Hk. by destruct sources; [apply not_elem_of_nil in Hk|].
Qed.

(** * Properties *)

(** C4. An issued artifact is justified: its request satisfies every constraint
    of the policy (its quorum by distinct verified signers, unless the request
    states a count, which is taken as it is), its lifetime is the one asked for
    and within the policy's maximum, its signature verifies under the issuer's key, and the last frame
    of the log is its authorization frame and holds its signed bytes. *)
Theorem authorize_sound `{C : Crypto} {L} `{LL : ReplayStoreLaws L} (I : AuthorizationIssuer)
    (pk : PublicKey) `{HS : !SignerFor (ai_issuer I) pk} (now : Z) (nonce : string)
    (request0 : pydict) (p : Policy) (ttl : Z) (approvals : option (list approval_arg))
    (inputs : list GovernanceInput) (s s' : issuer_state L) (a : gaa) :
  authorize I now nonce request0 p ttl approvals inputs s = (Ok a, s') →
  effective_request request0 approvals = Ok (gaa_action_request a) ∧
  (∃ action context bytes, canonical_json (PDict (gaa_action_request a)) = Ok bytes ∧
     satisfies_with (quorum_met (ai_arbiter I) (gaa_action_request a)) (gaa_action_request a) p action context bytes) ∧
  gaa_nonce a = nonce ∧ gaa_expires_at a = now + ttl ∧ 0 < ttl ≤ max_ttl_seconds p ∧
  gaa_verify_artifact pk a = Ok true ∧
  ∃ frame payload, gaa_unsigned_payload a = Ok payload ∧
    last (store_frames (is_log s')) = Some frame ∧
    rf_frame_id frame = gaa_replay_frame_ref a ∧
    dict_get "type" (rf_event frame) = PStr "authorization" ∧
    dict_get "artifact_payload" (rf_event frame) = PStr payload.
Proof.
  intros H. apply authorize_ok in H as (request & Heff & decided & decision & mesh & payload &
    evidence & frame & s1 & [[Ht1 Ht2] _ Hdec Hst Hal Hpl _ Happ Ha]).
  pose proof (gaa_issue_ok_fields _ _ _ _ _ _ _ Ha) as (Hr & _ & Hx & Hn & Hf & _).
  apply append_ok in Happ as (Hfr & Hfs & _).
  pose proof (frame_create_ok _ _ _ _ Hfr) as (Hid & _ & Hev & _).
  rewrite Hr. split_and!; try done.
  - eapply decide_allow_satisfies; [done|].
    destruct (mesh_stage_allows _ _ _ _ _ _ _ _ Hst Hal) as [(_ & _ & -> & _)|(_ & d & g & _ & _ & _ & _ & ->)];
      [done|]. unfold dict_get in Hal |- *. by rewrite assoc_get_set_ne in Hal.
  - by eapply gaa_issue_verifies.
  - exists frame, payload. rewrite Hfs, last_snoc, Hid, Hev, Hf. split_and!; try done.
    unfold gaa_issue in Ha. inv_bind. done.
Qed.

(** C12. The mesh requirements of a policy are not skipped: an artifact is
    issued only with as many inputs and from all the sources the policy asks
    for, with at least one input where the action or the environment requires
    the mesh, and whenever there are inputs the preflight over this very
    request allowed, and its digest is in the signed decision. *)
Theorem authorize_mesh_required `{C : Crypto} {L} `{LL : ReplayStoreLaws L} (I : AuthorizationIssuer)
    (now : Z) (nonce : string) (request0 : pydict) (p : Policy) (ttl : Z)
    (approvals : option (list approval_arg)) (inputs : list GovernanceInput)
    (s s' : issuer_state L) (a : gaa) :
  authorize I now nonce request0 p ttl approvals inputs s = (Ok a, s') →
  let request := gaa_action_request a in
  (active_mesh_requirement request p = true → inputs ≠ []) ∧
  by_name (action_name request) (required_mesh_inputs p) 0 ≤ Z.of_nat (length inputs) ∧
  (∀ k, k ∈ by_name (action_name request) (required_mesh_sources p) [] →
     k ∈ map gi_source_id inputs) ∧
  (inputs ≠ [] → ∃ d digest s1, canonical_digest (PDict request) = Ok digest ∧
     issuer_preflight I inputs digest s = (Ok d, s1) ∧ pd_allow d = true ∧
     dict_get "mesh_preflight_digest" (gaa_decision a) = PStr (pd_digest d)).
Proof.
  intros H request. apply authorize_ok in H as (request' & Heff & decided & decision & mesh &
    payload & evidence & frame & s1 & [_ Hun _ Hst Hal _ _ _ Ha]).
  pose proof (gaa_issue_ok_fields _ _ _ _ _ _ _ Ha) as (Hr & Hd & _).
  assert (request = request') as -> by done.
  destruct (mesh_unmet_none _ _ _ Hun) as (H1 & H2 & H3). split_and!; try done.
  intros Hne. destruct (mesh_stage_allows _ _ _ _ _ _ _ _ Hst Hal) as [(? & _)|(_ & d & g & _ & Hpd & Hg & Hpre & ->)];
    [done|]. exists d, g, s1. split_and!; try done.
  rewrite Hd. unfold dict_get. by rewrite assoc_get_set_eq.
Qed.

Definition example_issuer : @AuthorizationIssuer toy_crypto :=
  {| ai_issuer := LocalEd25519Signer (C := toy_crypto) "issuer" "issuer-key";
     ai_arbiter := example_arbiter; ai_mesh := None; ai_registry := None |}.

Definition example_issuer_state : issuer_state ReplayLog :=
  {| is_log := replay_new false; is_mesh_log := None |}.

Abbreviation example_issue amount inputs :=
  (authorize (C := toy_crypto) (L := ReplayLog) example_issuer 1000 "n1" (example_request amount)
     example_policy 300 None inputs example_issuer_state).

Definition no_gaa : gaa :=
  {| gaa_action_request := []; gaa_decision := []; gaa_expires_at := 0; gaa_nonce := "";
     gaa_replay_frame_ref := ""; gaa_issuer_key_id := ""; gaa_signature := "" |}.
Definition gaa_of (r : res gaa) : gaa := match r with Ok a => a | Raise _ => no_gaa end.

Definition example_gaa : gaa := Eval vm_compute in gaa_of (example_issue 100 []).1.

Lemma authorize_sound_witness :
  gaa_nonce example_gaa = "n1" ∧ gaa_expires_at example_gaa = 1300 ∧
  gaa_verify_artifact (C := toy_crypto) "issuer-key" example_gaa = Ok true.
Proof.
  assert (example_issue 100 [] = (Ok example_gaa, (example_issue 100 []).2)) as H
    by (vm_compute; reflexivity).
  set (s' := (example_issue 100 []).2) in H.
  destruct (authorize_sound example_issuer "issuer-key"
    (HS := local_signer_for (C := toy_crypto) "issuer" "issuer-key") 1000 "n1"
    (example_request 100) example_policy 300 None [] example_issuer_state
    s' example_gaa H) as (_ & _ & Hn & He & _ & Hv & _).
  exact (conj Hn (conj He Hv)).
Defined.

Definition example_mesh_gaa : gaa := Eval vm_compute in gaa_of (example_issue 100 [mesh_input "m" true 1]).1.

Lemma authorize_mesh_required_witness :
  ∃ d, pd_allow d = true ∧
       dict_get "mesh_preflight_digest" (gaa_decision example_mesh_gaa) = PStr (pd_digest d).
Proof.
  assert (example_issue 100 [mesh_input "m" true 1] =
          (Ok example_mesh_gaa, (example_issue 100 [mesh_input "m" true 1]).2)) as H
    by (vm_compute; reflexivity).
  set (s' := (example_issue 100 [mesh_input "m" true 1]).2) in H.
  pose proof (authorize_mesh_required example_issuer 1000 "n1" (example_request 100) example_policy
    300 None [mesh_input "m" true 1] example_issuer_state s' example_mesh_gaa H) as Hm.
  destruct (proj2 (proj2 (proj2 Hm)) ltac:(discriminate)) as (d & _ & _ & _ & _ & Hd & Hg).
  exact (ex_intro _ d (conj Hd Hg)).
Defined.

Lemma serializable_set k v d :
  serializable v = true → serializable (PDict d) = true → serializable (PDict (assoc_set k v d)) = true.
Proof.
  intros Hv. induction d as [|[j x] d IH]; cbn [assoc_set]; intros Hd.
  { cbn in *. by rewrite Hv. }
  cbn [serializable forallb snd] in Hd. apply andb_true_iff in Hd as [Hx Hd].
  destruct (String.eqb k j); cbn [serializable forallb snd] in *; [by rewrite Hv|].
  by rewrite Hx, IH.
Qed.

Lemma serializable_strs l : serializable (of_strs l) = true.
Proof. unfold of_strs. cbn. apply forallb_forall. intros x (s & <- & _)%in_map_iff. done. Qed.

Lemma serializable_denied_with decision codes reasons :
  serializable (PDict decision) = true → serializable (PDict (denied_with decision codes reasons)) = true.
Proof.
  intros H. unfold denied_with.
  assert (∀ k d xs, serializable (PDict d) = true →
    serializable (PList (list_of (dict_get k d) ++ map PStr xs)) = true) as Hl.
  { intros k d xs Hd. cbn [serializable]. rewrite forallb_app. apply andb_true_iff. split; [|apply serializable_strs].
    pose proof (serializable_get k d Hd) as Hk. by destruct (dict_get k d). }
  repeat (apply serializable_set; [apply Hl|]); repeat (apply serializable_set; [first [done | apply Hl]|]); done.
Qed.

(** What a refusal records is JSON whenever the arbiter could decide. *)
Lemma denied_event_serializable `{C : Crypto} {L} `{RS : ReplayStore L} (I : AuthorizationIssuer) A nonce
    request p decided decision inputs mesh (s s1 : issuer_state L) :
  decide A request p = Ok decided → mesh_stage I request decided inputs s = (Ok (decision, mesh), s1) →
  serializable (PDict (denied_event nonce request decision)) = true.
Proof.
  intros (bytes & rs & g & [Hr _]%canonical_json_ok & _ & _ & ->)%decide_ok Hst.
  assert (serializable (PDict decision) = true) as Hd.
  { set (d0 := decision_dict _ _ _ _ _) in Hst.
    assert (serializable (PDict d0) = true) as H0.
    { subst d0. unfold decision_dict. cbn -[of_strs]. rewrite !serializable_strs. reflexivity. }
    unfold mesh_stage in Hst. destruct inputs; inv_bind; simplify_eq; [done|].
    apply serializable_set; [done|]. destruct (pd_allow _); [done|]. by apply serializable_denied_with. }
  cbn [denied_event serializable forallb snd] in *. by rewrite Hr, Hd.
Qed.



(** Compensation needs a recorded failure: an artifact for a compensating
    action is issued only when the log holds a frame of a failed execution of
    that very nonce, and the signed request names it. *)
Lemma compensation_requires_failure `{C : Crypto} {L} `{LL : ReplayStoreLaws L}
    (I : AuthorizationIssuer) (now : Z) (nonce failed_nonce : string) (request : pydict)
    (p : Policy) (ttl : Z) (s s' : issuer_state L) (a : gaa) :
  authorize_compensation I now nonce failed_nonce request p ttl s = (Ok a, s') →
  failed_nonce ≠ "" ∧
  dict_get "compensation_for" (gaa_action_request a) = PStr failed_nonce ∧
  ∃ frame, frame ∈ store_frames (is_log s) ∧
    dict_get "nonce" (rf_event frame) = PStr failed_nonce ∧
    dict_get "type" (rf_event frame) = PStr "execution" ∧
    dict_get "status" (rf_event frame) = PStr "failed".
Proof.
  unfold authorize_compensation. intros H. inv_bind. breflect. split; [done|].
  apply authorize_ok in H as (request' & Heff & decided & decision & mesh & payload & evidence &
    frame & s1 & Hiss).
  cbn [effective_request] in Heff. injection Heff as <-.
  pose proof (gaa_issue_ok_fields _ _ _ _ _ _ _ (issued_artifact _ _ _ _ _ _ _ _ _ _ _ _ _ _ _ _ _ Hiss))
    as (-> & _).
  split; [unfold dict_get; by rewrite assoc_get_set_eq|].
  unfold failed_execution, store_events_for_nonce in *. inv_bind. 
  match goal with H : existsb _ _ = true |- _ =>
    apply existsb_exists in H as (ev & [Hin Hn]%filter_In & [Ht Hs]%andb_true_iff) end.
  apply in_map_iff in Hin as (f & <- & Hf). exists f. rewrite list_elem_of_In.
  by apply py_eqb_str in Hn, Ht, Hs.
Qed.

(** The example policy without a quorum. *)
Definition open_policy : Policy := {|
  policy_id := "payments"; allowed_actions := ["payments.transfer"];
  required_fields := [("payments.transfer", ["amount"; "account"])]; exact_fields := [];
  required_context := []; exact_context := []; max_request_bytes := 65536; max_ttl_seconds := 300;
  required_approvals := []; max_numeric_fields := []; required_mesh_inputs := [];
  required_mesh_sources := []; mesh_required_actions := []; mesh_required_environments := [] |}.

Definition failed_state : issuer_state ReplayLog :=
  {| is_log := (replay_append "execution:n0"
       [("type", PStr "execution"); ("nonce", PStr "n0"); ("status", PStr "failed")]
       (replay_new false)).2;
     is_mesh_log := None |}.

Abbreviation example_compensation :=
  (authorize_compensation (C := toy_crypto) (L := ReplayLog) example_issuer 1000 "n1" "n0"
     (example_unapproved 100) open_policy 300 failed_state).

Definition compensation_gaa : gaa := Eval vm_compute in gaa_of example_compensation.1.

Lemma compensation_requires_failure_witness :
  dict_get "compensation_for" (gaa_action_request compensation_gaa) = PStr "n0".
Proof.
  assert (example_compensation = (Ok compensation_gaa, example_compensation.2)) as H
    by (vm_compute; reflexivity).
  set (s' := example_compensation.2) in H.
  pose proof (compensation_requires_failure (L := ReplayLog) example_issuer 1000 "n1" "n0"
    (example_unapproved 100) open_policy 300 failed_state s' compensation_gaa H) as Hc.
  exact (proj1 (proj2 Hc)).
Defined.
