(* ===== verification/Engine.v ===== *)
(** engine.py: the execution boundary.  An artifact is validated against the
    keys, the log, the policy registry and its mesh evidence; its nonce is
    consumed; the action runs; the outcome is recorded.

    The action is an argument: a function of the request that returns a value
    or raises.  The state is the replay log and, to speak of how often an
    action runs, the list of artifacts whose action was called.  The file
    shows that an action runs only for a justified artifact, at most once,
    never after its key is revoked, and that an issued artifact executes. *)

From S2P Require Import Prelude PyFloat PyVal Json Sha256 Base64 Crypto Trust Models Policy Arbiter PolicyRegistry Replay ReplayStore Mesh Issuer.

Definition auth_error (msg : string) : exn := AuthorizationError msg.

(** [ExecutionBoundary._result_audit] *)
Definition result_audit (result : pyval) : res pydict :=
  match canonical_json result with
  | Raise e =>
      if is_TypeError e || is_ValueError e then
        Ok [("result_omitted", PBool true); ("result_omission_reason", PStr "not-json")]
      else Raise e
  | Ok encoded =>
      let size := Z.of_nat (String.length encoded) in
      Ok ([("result_digest", PStr (sha256_hex encoded)); ("result_bytes", PInt size)] ++
          if size <=? 4096 then [("result", result)]
          else [("result_omitted", PBool true); ("result_omission_reason", PStr "size-limit")])
  end.

(** ** Mesh evidence *)

Definition evidence_keys : list string :=
  ["mesh_preflight_digest"; "mesh_request_digest"; "mesh_inputs"].

Section Engine.
Context `{C : Crypto} {L : Type} `{RS : ReplayStore L}.

(** [GovernanceMesh().preflight(...)]: no keys, no log. *)
Definition reconstruct_preflight (raw_inputs : list pyval) (request_digest : string)
    : res GovernancePreflightDecision :=
  inputs ← mapM_res gi_from_dict raw_inputs;
  (mesh_preflight (L := L) (MeshSources []) inputs request_digest None None).1.

Definition validate_mesh_evidence (a : gaa) (frame : ReplayFrame) : res unit :=
  let event := rf_event frame in
  match dict_get "mesh_preflight_digest" (gaa_decision a) with
  | PNone =>
      fail_if (existsb (λ k, assoc_has k event) evidence_keys)
        (auth_error "mesh evidence is present without a signed mesh digest")
  | PStr digest =>
      fail_if (String.eqb digest "") (auth_error "mesh preflight digest is malformed") ;;
      fail_if (negb (keys_superset event evidence_keys))
        (auth_error "mesh evidence is incomplete") ;;
      fail_if (negb (py_eqb (dict_get "mesh_preflight_digest" event) (PStr digest)))
        (auth_error "mesh evidence digest does not match signed decision") ;;
      request_digest ← canonical_digest (PDict (gaa_action_request a));
      fail_if (negb (py_eqb (dict_get "mesh_request_digest" event) (PStr request_digest)))
        (auth_error "mesh evidence does not match the authorized request") ;;
      match dict_get "mesh_inputs" event with
      | PList ((_ :: _) as raw_inputs) =>
          decision ← res_except (reconstruct_preflight raw_inputs request_digest)
            (λ e, if is_ValueError e || is_TypeError e
                  then Some (auth_error "mesh evidence is invalid") else None);
          fail_if (negb (pd_allow decision) || negb (String.eqb (pd_digest decision) digest))
            (auth_error "mesh evidence does not reconstruct to the signed digest") ;;
          expected ← frame_create (rf_frame_id frame) (rf_previous_hash frame) (rf_event frame);
          fail_if (negb (String.eqb (rf_frame_hash expected) (rf_frame_hash frame)))
            (auth_error "mesh authorization replay evidence is tampered")
      | _ => Raise (auth_error "mesh evidence inputs are malformed")
      end
  | _ => Raise (auth_error "mesh preflight digest is malformed")
  end.

(** ** The boundary *)

(** Exactly one of [trust_store] and [issuer_keys]. *)
Inductive engine_keys :=
| EngineTrust (t : TrustStore)
| EngineIssuers (keys : list (string * PublicKey)).

Record ExecutionBoundary := {
  eb_keys : engine_keys;
  eb_registry : option PolicyRegistry;
  eb_arbiter : DeterministicArbiter
}.

Definition boundary_init (issuer_keys : option (list (string * PublicKey)))
    (trust_store : option TrustStore) (registry : option PolicyRegistry)
    (arbiter : DeterministicArbiter) : res ExecutionBoundary :=
  match issuer_keys, trust_store with
  | None, Some t => Ok {| eb_keys := EngineTrust t; eb_registry := registry; eb_arbiter := arbiter |}
  | Some k, None => Ok {| eb_keys := EngineIssuers k; eb_registry := registry; eb_arbiter := arbiter |}
  | _, _ => Raise (ValueError "provide exactly one of issuer_keys or trust_store")
  end.

Definition engine_resolve (k : engine_keys) (key_id : string) : option PublicKey :=
  match k with
  | EngineTrust t => trust_resolve t key_id
  | EngineIssuers keys => assoc_get key_id keys
  end.

(** [PolicyRegistry.get] on a value of the signed decision. *)
Definition registry_get_value (r : PolicyRegistry) (policy_id : pyval) : res (option Policy) :=
  if hashable policy_id then
    Ok (match policy_id with PStr k => registry_get r k | _ => None end)
  else Raise (TypeError "unhashable type").

(** The policy checks of [_validate]. *)
Definition validate_policy (B : ExecutionBoundary) (a : gaa) : res unit :=
  match eb_registry B with
  | None => Ok tt
  | Some r =>
      found ← registry_get_value r (dict_get "policy" (gaa_decision a));
      match found with
      | None => Raise (auth_error "GAA policy is not registered")
      | Some p =>
          let expected := dict_get "policy_digest" (gaa_decision a) in
          (if is_none expected then Ok tt else
             digest ← policy_digest p;
             fail_if (negb (py_eqb expected (PStr digest)))
               (auth_error "GAA policy digest does not match registry")) ;;
          decision ← decide (eb_arbiter B) (gaa_action_request a) p;
          fail_if (negb (truthy (dict_get "allow" decision)))
            (auth_error ("action request violates policy constraints: " +:+
               join "; " (dict_str_list "reasons" decision) +:+ " [" +:+
               join "," (dict_str_list "reason_codes" decision) +:+ "]"))
      end
  end.

Definition action_in_list (a : gaa) : bool :=
  match dict_get "allowed_actions" (gaa_decision a) with
  | PList l => existsb (py_eqb (dict_get "action" (gaa_action_request a))) l
  | _ => false
  end.

(** [_validate], with the reading of the clock. *)
Definition validate (B : ExecutionBoundary) (now : Z) (log : L) (a : gaa) : res unit :=
  let invalid := auth_error "GAA signature is invalid or issuer is unknown" in
  match engine_resolve (eb_keys B) (gaa_issuer_key_id a) with
  | None => Raise invalid
  | Some key =>
      payload ← gaa_unsigned_payload a;
      fail_if (negb (verify_signature key payload (gaa_signature a))) invalid ;;
      fail_if (gaa_expires_at a <=? now) (auth_error "GAA is expired") ;;
      fail_if (store_used log (gaa_nonce a)) (auth_error "GAA nonce has already been used") ;;
      match store_get log (gaa_replay_frame_ref a) with
      | None => Raise (auth_error "authorization replay frame is missing")
      | Some frame =>
          let event := rf_event frame in
          fail_if (negb (py_eqb (dict_get "type" event) (PStr "authorization")))
            (auth_error "authorization replay frame is missing") ;;
          fail_if (negb (py_eqb (dict_get "nonce" event) (PStr (gaa_nonce a))))
            (auth_error "nonce does not match authorization frame") ;;
          fail_if (negb (py_eqb (dict_get "artifact_payload" event) (PStr payload)))
            (auth_error "authorization frame does not match GAA") ;;
          validate_mesh_evidence a frame ;;
          fail_if (match dict_get "allow" (gaa_decision a) with PBool true => false | _ => true end)
            (auth_error "policy decision does not allow execution") ;;
          validate_policy B a ;;
          fail_if (negb (action_in_list a))
            (auth_error "requested action is outside policy constraints")
      end
  end.

Record engine_state := {
  es_log : L;
  es_invoked : list gaa   (** the artifacts whose action was called, oldest first *)
}.

Definition in_log {A} (m : M L A) : M engine_state A :=
  zoom es_log (λ l s, {| es_log := l; es_invoked := es_invoked s |}) m.

Definition execution_event (a : gaa) (status : string) (outcome : pydict) : pydict :=
  [("type", PStr "execution"); ("nonce", PStr (gaa_nonce a));
   ("authorization_frame_ref", PStr (gaa_replay_frame_ref a));
   ("policy", dict_get "policy" (gaa_decision a)); ("status", PStr status)] ++ outcome.

(** The call of the action and the record of its outcome. *)
Definition run_action (action : pydict → res pyval) (a : gaa) : M engine_state pyval :=
  modify (λ s, {| es_log := es_log s; es_invoked := es_invoked s ++ [a] |}) ;;
  let frame_id := "execution:" +:+ gaa_nonce a in
  match action (gaa_action_request a) with
  | Raise e =>
      in_log (store_append frame_id (execution_event a "failed"
        [("error_type", PStr (exn_name e)); ("error", PStr (py_take 512 (exn_str e)))])) ;;
      raise e
  | Ok result =>
      audit ← lift_res (result_audit result);
      in_log (store_append frame_id (execution_event a "completed" audit)) ;;
      mret result
  end.

Definition execute (B : ExecutionBoundary) (now : Z) (action : pydict → res pyval) (a : gaa)
    : M engine_state pyval :=
  s ← get_state;
  lift_res (validate B now (es_log s) a) ;;
  try_except (in_log (store_claim (gaa_nonce a)))
    (λ e, if is_ValueError e then Some (raise (auth_error "GAA nonce has already been used"))
          else None) ;;
  run_action action a.
End Engine.
#[global] Arguments engine_state : clear implicits.
#[global] Arguments execute : simpl never.
#[global] Arguments validate : simpl never.

(** * Lemmas *)

Section EngineLemmas.
Context `{C : Crypto} {L : Type} `{LL : ReplayStoreLaws L}.
Implicit Types (s : engine_state L) (a : gaa) (B : ExecutionBoundary).

(** What a validated artifact went through. *)
Record validated B (now : Z) (log : L) a (key : PublicKey) (frame : ReplayFrame) : Prop := {
  validated_key : engine_resolve (eb_keys B) (gaa_issuer_key_id a) = Some key;
  validated_signature : gaa_verify_artifact key a = Ok true;
  validated_time : now < gaa_expires_at a;
  validated_fresh : store_used log (gaa_nonce a) = false;
  validated_frame : store_get log (gaa_replay_frame_ref a) = Some frame;
  validated_type : dict_get "type" (rf_event frame) = PStr "authorization";
  validated_nonce : dict_get "nonce" (rf_event frame) = PStr (gaa_nonce a);
  validated_payload : ∃ payload, gaa_unsigned_payload a = Ok payload ∧
    dict_get "artifact_payload" (rf_event frame) = PStr payload;
  validated_mesh : validate_mesh_evidence (L := L) a frame = Ok tt;
  validated_allow : dict_get "allow" (gaa_decision a) = PBool true;
  validated_policy : validate_policy B a = Ok tt;
  validated_action : action_in_list a = true
}.

Lemma validate_ok B now log a :
  validate B now log a = Ok tt ↔ ∃ key frame, validated B now log a key frame.
Proof.
  unfold validate. split.
  - destruct (engine_resolve _ _) as [key|] eqn:Hk; [|done]. intros H. inv_bind.
    destruct (store_get _ _) as [frame|] eqn:Hf; [|done]. inv_bind. breflect.
    repeat match goal with H : py_eqb _ (PStr _) = true |- _ => apply py_eqb_str in H end.
    exists key, frame. split; try done.
    + unfold gaa_verify_artifact, mbind, res_bind. rewrite Hx. by f_equal.
    + eauto.
    + repeat case_match; naive_solver.
  - intros (key & frame & [-> Hs Ht Hu -> Hty Hn (payload & Hp & Hpl) -> Hal -> Hact]).
    unfold gaa_verify_artifact in Hs. rewrite Hp in Hs. injection Hs as Hs.
    unfold mbind, res_bind. rewrite Hp, Hs, Hu, Hty, Hn, Hpl, Hal, Hact.
    apply Z.leb_gt in Ht. rewrite Ht. simpl. by rewrite !String.eqb_refl.
Qed.

Lemma execute_rejected B now action a s e :
  validate B now (es_log s) a = Raise e → execute B now action a s = (Raise e, s).
Proof. intros H. unfold execute, mbind, M_bind, get_state, lift_res. by rewrite H. Qed.

(** A validated artifact's nonce is free, so it is consumed and the action runs. *)
Lemma execute_accepted B now action a s :
  store_inv (es_log s) → validate B now (es_log s) a = Ok tt →
  ∃ l1, store_claim (gaa_nonce a) (es_log s) = (Ok tt, l1) ∧
        store_frames l1 = store_frames (es_log s) ∧
        (∀ m, store_used l1 m = String.eqb m (gaa_nonce a) || store_used (es_log s) m) ∧
        execute B now action a s = run_action action a {| es_log := l1; es_invoked := es_invoked s |}.
Proof.
  intros Hi Hv. pose proof Hv as (key & frame & Hval)%validate_ok.
  destruct (claim_fresh _ _ Hi (validated_fresh _ _ _ _ _ _ Hval)) as (l1 & Hc & Hf & Hu).
  exists l1. split_and!; try done.
  unfold execute, mbind, M_bind, get_state, lift_res, try_except, in_log, zoom. by rewrite Hv, Hc.
Qed.

(** Running the action calls it once and only appends to the log. *)
Lemma run_action_effect action a s :
  es_invoked (run_action action a s).2 = es_invoked s ++ [a] ∧
  log_extends (es_log s) (es_log (run_action action a s).2).
Proof.
  unfold run_action, mbind, M_bind, modify, lift_res, in_log, zoom, raise, mret, M_ret.
  destruct (action _) as [v|e]; [destruct (result_audit v) as [audit|e]|].
  2: by split.
  all: match goal with |- context [store_append ?fid ?ev (es_log ?s)] =>
    pose proof (append_extends fid ev (es_log s)) as Hx;
    destruct (store_append fid ev (es_log s)) as [[f|e'] l'] end; by split.
Qed.

Lemma execute_cases B now action a s :
  store_inv (es_log s) →
  (∃ e, validate B now (es_log s) a = Raise e ∧ execute B now action a s = (Raise e, s)) ∨
  (validate B now (es_log s) a = Ok tt ∧
   es_invoked (execute B now action a s).2 = es_invoked s ++ [a] ∧
   store_inv (es_log (execute B now action a s).2) ∧
   store_frames (es_log s) `prefix_of` store_frames (es_log (execute B now action a s).2) ∧
   ∀ m, store_used (es_log (execute B now action a s).2) m =
        String.eqb m (gaa_nonce a) || store_used (es_log s) m).
Proof.
  intros Hi. destruct (validate B now (es_log s) a) as [[]|e] eqn:Hv.
  - right. split; [done|].
    destruct (execute_accepted B now action a s Hi Hv) as (l1 & Hc & Hf & Hu & ->).
    destruct (run_action_effect action a {| es_log := l1; es_invoked := es_invoked s |})
      as [Hinv [Hfr Hus Hin]]. cbn [es_log es_invoked] in *.
    split; [done|]. split; [|split].
    + apply Hin. pose proof (claim_inv (gaa_nonce a) _ Hi) as H1. by rewrite Hc in H1.
    + by rewrite <-Hf.
    + intros m. by rewrite Hus, Hu.
  - left. exists e. split; [done|]. by apply execute_rejected.
Qed.
(** A call that returns answers with what the action returned. *)
Lemma run_action_value action a s s' v :
  run_action action a s = (Ok v, s') → action (gaa_action_request a) = Ok v.
Proof.
  unfold run_action. intros H. inv_bind. destruct (action _); inv_bind; done.
Qed.

Lemma execute_value B now action a s s' v :
  execute B now action a s = (Ok v, s') → action (gaa_action_request a) = Ok v.
Proof.
  unfold execute. intros H. inv_bind.
  match goal with H : run_action _ _ _ = _ |- _ => by apply run_action_value in H end.
Qed.

End EngineLemmas.

(** The policy check against a registry, spelled out. *)
Definition registry_satisfied `{C : Crypto} (B : ExecutionBoundary) (a : gaa) : Prop :=
  ∀ r, eb_registry B = Some r →
    ∃ k p action context bytes, dict_get "policy" (gaa_decision a) = PStr k ∧
      registry_get r k = Some p ∧
      (dict_get "policy_digest" (gaa_decision a) = PNone ∨
       ∃ g, dict_get "policy_digest" (gaa_decision a) = PStr g ∧ policy_digest p = Ok g) ∧
      canonical_json (PDict (gaa_action_request a)) = Ok bytes ∧
      satisfies_with (quorum_met (eb_arbiter B) (gaa_action_request a)) (gaa_action_request a) p action context bytes.

Lemma validate_policy_ok `{C : Crypto} B a : validate_policy B a = Ok tt → registry_satisfied B a.
Proof.
  unfold validate_policy. intros H r Hr. rewrite Hr in H. inv_bind.
  destruct x as [p|]; [|done]. cbv zeta in H. inv_bind. breflect.
  unfold registry_get_value in *. destruct (hashable _) eqn:Hh; [|done].
  destruct (dict_get "policy" (gaa_decision a)) as [| | | |k| | |] eqn:Hk; try done.
  destruct (decide_allow_satisfies _ _ _ _ Hx1 H) as (act & ctx & bytes & Hb & Hs).
  exists k, p, act, ctx, bytes. split_and!; try done; [congruence|].
  destruct (is_none _) eqn:Hn; [left; by destruct (dict_get "policy_digest" (gaa_decision a))|right].
  inv_bind. breflect. apply py_eqb_str in Hx0. eauto.
Qed.

Lemma trust_resolve_revoked `{C : Crypto} k (t t' : TrustStore) :
  trust_revoke k t = (Ok tt, t') → trust_resolve t' k = None.
Proof.
  intros H. apply trust_revoke_ok in H as (_ & H). rewrite trust_save_spec in H. injection H as <-.
  unfold trust_resolve, trust_saved, trust_revoked. cbn [ts_revoked].
  rewrite bool_decide_eq_true_2 by set_solver. done.
Qed.

(** ** The record of an outcome *)

Lemma result_audit_ok v : ∃ audit, result_audit v = Ok audit ∧ serializable (PDict audit) = true.
Proof.
  unfold result_audit, canonical_json, json_dumps.
  destruct (serializable v) eqn:Hs; eexists; (split; [reflexivity|]); [|reflexivity].
  cbv zeta. by case_match; cbn; rewrite ?Hs.
Qed.

(** The event that records what the action did. *)
Definition outcome_event (action : pydict → res pyval) (a : gaa) : pydict :=
  match action (gaa_action_request a) with
  | Raise e => execution_event a "failed"
      [("error_type", PStr (exn_name e)); ("error", PStr (py_take 512 (exn_str e)))]
  | Ok v => execution_event a "completed" (match result_audit v with Ok audit => audit | Raise _ => [] end)
  end.

Lemma execution_event_serializable a status outcome :
  serializable (PDict (gaa_decision a)) = true → serializable (PDict outcome) = true →
  serializable (PDict (execution_event a status outcome)) = true.
Proof.
  intros Hd Ho. unfold execution_event. cbn [serializable] in *.
  rewrite forallb_app, Ho. cbn [forallb snd serializable andb].
  by rewrite (serializable_get "policy" (gaa_decision a)).
Qed.

Lemma run_action_spec `{C : Crypto} {L} `{LL : ReplayStoreLaws L} action a (s : engine_state L) :
  store_inv (es_log s) → serializable (PDict (gaa_decision a)) = true →
  let r := run_action action a s in
  let frame_id := "execution:" +:+ gaa_nonce a in
  (r.1 = action (gaa_action_request a) ∧
   ∃ frame, store_frames (es_log r.2) = store_frames (es_log s) ++ [frame] ∧
     rf_frame_id frame = frame_id ∧ rf_event frame = outcome_event action a) ∨
  (r.1 = Raise (ValueError ("replay frame already exists: " +:+ frame_id)) ∧ es_log r.2 = es_log s ∧
   frame_taken frame_id (outcome_event action a) (store_frames (es_log s))).
Proof.
  intros Hi Hd r frame_id. subst r.
  unfold run_action, outcome_event, mbind, M_bind, modify, lift_res, in_log, zoom, raise, mret, M_ret.
  fold frame_id. destruct (action _) as [v|e].
  - destruct (result_audit_ok v) as (audit & Haudit & Hs). rewrite Haudit. cbv beta iota. cbn [es_log].
    destruct (append_total frame_id (execution_event a "completed" audit) (es_log s) Hi)
      as [(f & l' & Happ)|[Happ Htk]]; [by apply execution_event_serializable|..]; rewrite Happ; [left|by right].
    apply append_ok in Happ as (Hf & Hfs & _). apply frame_create_ok in Hf as (Hid & _ & Hev & _).
    split; [done|]. by exists f.
  - cbn [es_log].
    match goal with |- context [store_append frame_id ?ev (es_log s)] =>
      destruct (append_total frame_id ev (es_log s) Hi) as [(f & l' & Happ)|[Happ Htk]];
      [by apply execution_event_serializable|..]; rewrite Happ; [left|by right] end.
    apply append_ok in Happ as (Hf & Hfs & _). apply frame_create_ok in Hf as (Hid & _ & Hev & _).
    split; [done|]. by exists f.
Qed.

Lemma payload_serializable a payload :
  gaa_unsigned_payload a = Ok payload → serializable (PDict (gaa_decision a)) = true.
Proof.
  unfold gaa_unsigned_payload. intros H. apply canonical_json_ok in H as [H _].
  cbn [serializable gaa_unsigned_dict forallb snd] in H |- *. by breflect.
Qed.

Lemma execute_outcome `{C : Crypto} {L} `{LL : ReplayStoreLaws L} B now action a (s : engine_state L) :
  store_inv (es_log s) → validate B now (es_log s) a = Ok tt →
  let r := execute B now action a s in
  let frame_id := "execution:" +:+ gaa_nonce a in
  (r.1 = action (gaa_action_request a) ∧
   ∃ frame, store_frames (es_log r.2) = store_frames (es_log s) ++ [frame] ∧
     rf_frame_id frame = frame_id ∧ rf_event frame = outcome_event action a) ∨
  (r.1 = Raise (ValueError ("replay frame already exists: " +:+ frame_id)) ∧
   store_frames (es_log r.2) = store_frames (es_log s) ∧
   frame_taken frame_id (outcome_event action a) (store_frames (es_log s))).
Proof.
  intros Hi Hv. pose proof Hv as (key & frame & Hval)%validate_ok.
  destruct (validated_payload _ _ _ _ _ _ Hval) as (payload & Hp & _).
  destruct (execute_accepted B now action a s Hi Hv) as (l1 & Hc & Hf & _ & ->).
  assert (store_inv l1) as Hi1 by (pose proof (claim_inv (gaa_nonce a) (es_log s) Hi) as H; by rewrite Hc in H).
  rewrite <-Hf. pose proof (run_action_spec action a {| es_log := l1; es_invoked := es_invoked s |} Hi1
    (payload_serializable _ _ Hp)) as [H|(H1 & H2 & H3)]; [by left|right]. by rewrite H2.
Qed.

(** * Properties *)

(** C1. An action runs only for a justified artifact: either the call raises and
    leaves the log and the record of calls alone, or the action is called once
    and the artifact was signed by a key the boundary resolves, unexpired, with
    a nonce never consumed, recorded in an authorization frame that holds
    exactly its signed bytes, its mesh evidence checked, its decision an
    allowance, its action among the allowed ones, and its request satisfying
    the registered policy whose digest it carries. *)
Theorem execute_sound `{C : Crypto} {L} `{LL : ReplayStoreLaws L} (B : ExecutionBoundary)
    (now : Z) (action : pydict → res pyval) (a : gaa) (s s' : engine_state L) (r : res pyval) :
  store_inv (es_log s) → execute B now action a s = (r, s') →
  (s' = s ∧ ∃ e, r = Raise e) ∨
  (es_invoked s' = es_invoked s ++ [a] ∧
   (∃ key frame, validated B now (es_log s) a key frame) ∧ registry_satisfied B a).
Proof.
  intros Hi H. destruct (execute_cases B now action a s Hi) as [(e & _ & He)|(Hv & Hinv & _)].
  - left. rewrite He in H. injection H as <- <-. eauto.
  - right. rewrite H in Hinv. split; [done|]. apply validate_ok in Hv as (key & frame & Hv).
    split; [eauto|]. apply validate_policy_ok, (validated_policy _ _ _ _ _ _ Hv).
Qed.

(** Calls on the boundary, by any clients of its log. *)
Inductive engine_call `{C : Crypto} :=
| CallExecute (B : ExecutionBoundary) (now : Z) (action : pydict → res pyval) (a : gaa)
| CallAppend (frame_id : string) (event : pydict)
| CallClaim (nonce : string).

Definition engine_run `{C : Crypto} {L} `{RS : ReplayStore L} (s : engine_state L) (c : engine_call)
    : engine_state L :=
  match c with
  | CallExecute B now action a => (execute B now action a s).2
  | CallAppend fid ev => (in_log (store_append fid ev) s).2
  | CallClaim n => (in_log (store_claim n) s).2
  end.

(** Each called artifact has a nonce of its own, and it is consumed. *)
Record called_once {L} `{RS : ReplayStore L} (s : engine_state L) : Prop := {
  once_inv : store_inv (es_log s);
  once_nodup : NoDup (map gaa_nonce (es_invoked s));
  once_used : ∀ a, a ∈ es_invoked s → store_used (es_log s) (gaa_nonce a) = true
}.

Lemma engine_run_once `{C : Crypto} {L} `{LL : ReplayStoreLaws L} (s : engine_state L) c :
  called_once s → called_once (engine_run s c).
Proof.
  intros [Hi Hn Hu]. destruct c as [B now action a|fid ev|n]; cbn [engine_run].
  - destruct (execute_cases B now action a s Hi) as [(e & _ & ->)|(Hv & Hinv & Hi' & _ & Hused)];
      [by split|].
    apply validate_ok in Hv as (key & frame & Hv). split; [done| |].
    + rewrite Hinv, map_app. apply NoDup_app. split; [done|]. split; [|apply NoDup_singleton].
      intros m (b & -> & Hb)%list_elem_of_fmap Hm%list_elem_of_singleton.
      pose proof (validated_fresh _ _ _ _ _ _ Hv) as Hf. rewrite <-Hm, Hu in Hf by done. done.
    + rewrite Hinv. intros b [Hb| ->%list_elem_of_singleton]%elem_of_app; rewrite Hused.
      * by rewrite Hu, orb_true_r.
      * by rewrite String.eqb_refl.
  - unfold in_log, zoom. pose proof (append_extends fid ev (es_log s)) as [Hf Hus Hin].
    destruct (store_append fid ev (es_log s)) as [r l']. cbn [snd] in *.
    split; [by apply Hin|done|]. intros a Ha. cbn [es_log]. by rewrite Hus, Hu.
  - unfold in_log, zoom. pose proof (claim_inv n (es_log s) Hi) as Hin.
    destruct (store_claim n (es_log s)) as [[[]|e] l'] eqn:Hc; cbn [snd] in *.
    + apply claim_ok in Hc as (_ & _ & Hus); [|done]. split; [done|done|].
      intros a Ha. cbn [es_log]. by rewrite Hus, Hu, orb_true_r.
    + apply claim_raise in Hc as [-> _]; [|done]. by split.
Qed.

(** C2. At most once: whatever calls follow on a log, by any number of
    boundaries, clocks, actions and other clients of the log, no nonce has its
    action called twice, and the nonce of every called artifact is consumed. *)
Theorem execute_at_most_once `{C : Crypto} {L} `{LL : ReplayStoreLaws L} (log : L)
    (calls : list engine_call) :
  store_inv log →
  let s := fold_left engine_run calls {| es_log := log; es_invoked := [] |} in
  NoDup (map gaa_nonce (es_invoked s)) ∧
  ∀ a, a ∈ es_invoked s → store_used (es_log s) (gaa_nonce a) = true.
Proof.
  intros Hi s. assert (called_once s) as [_ ? ?]; [|done]. subst s.
  assert (called_once {| es_log := log; es_invoked := [] |}) as H.
  { split; [done|constructor|]. intros a Ha. by apply not_elem_of_nil in Ha. }
  revert H. generalize {| es_log := log; es_invoked := [] |}.
  induction calls as [|c calls IH]; intros s Hs; [done|]. by apply IH, engine_run_once.
Qed.

(** Revocation stops execution: once the issuer's key is revoked in the
    boundary's trust store, an artifact of that key is refused with the log and
    the record of calls untouched, whatever else is true of it. *)
Lemma revoked_key_blocks `{C : Crypto} {L} `{LL : ReplayStoreLaws L} (B : ExecutionBoundary)
    (t t' : TrustStore) (now : Z) (action : pydict → res pyval) (a : gaa) (s : engine_state L) :
  trust_revoke (gaa_issuer_key_id a) t = (Ok tt, t') → eb_keys B = EngineTrust t' →
  execute B now action a s =
    (Raise (AuthorizationError "GAA signature is invalid or issuer is unknown"), s).
Proof.
  intros Ht HB. apply execute_rejected. unfold validate. rewrite HB. cbn [engine_resolve].
  by rewrite (trust_resolve_revoked _ _ _ Ht).
Qed.

(** Every execution is on record: for a validated artifact the call returns
    what the action returned, or raises what it raised, after appending one
    execution frame that states the nonce, the authorization frame, the policy
    and the outcome (with the digest of the result, or the error), unless a
    frame with its identifier or hash is already there; the nonce is consumed either way. *)
Lemma execute_recorded `{C : Crypto} {L} `{LL : ReplayStoreLaws L} (B : ExecutionBoundary)
    (now : Z) (action : pydict → res pyval) (a : gaa) (s : engine_state L) :
  store_inv (es_log s) → validate B now (es_log s) a = Ok tt →
  let r := execute B now action a s in
  let frame_id := "execution:" +:+ gaa_nonce a in
  store_used (es_log r.2) (gaa_nonce a) = true ∧
  ((r.1 = action (gaa_action_request a) ∧
    ∃ frame, store_frames (es_log r.2) = store_frames (es_log s) ++ [frame] ∧
      rf_frame_id frame = frame_id ∧ rf_event frame = outcome_event action a) ∨
   (r.1 = Raise (ValueError ("replay frame already exists: " +:+ frame_id)) ∧
    store_frames (es_log r.2) = store_frames (es_log s) ∧
    frame_taken frame_id (outcome_event action a) (store_frames (es_log s)))).
Proof.
  intros Hi Hv r frame_id. split; [|by apply execute_outcome].
  destruct (execute_cases B now action a s Hi) as [(e & He & _)|(_ & _ & _ & _ & Hu)]; [congruence|].
  subst r. by rewrite Hu, String.eqb_refl.
Qed.

(** ** Witnesses *)

Definition example_registry : PolicyRegistry := (registry_register example_policy registry_empty).2.

Definition example_boundary : @ExecutionBoundary toy_crypto :=
  {| eb_keys := EngineIssuers (C := toy_crypto) [("issuer", "issuer-key")];
     eb_registry := Some example_registry; eb_arbiter := example_arbiter |}.

Definition example_engine_log : ReplayLog := Eval vm_compute in is_log (example_issue 100 []).2.

Abbreviation example_engine_state := {| es_log := example_engine_log; es_invoked := [] |}.

(** An action that reports success. *)
Definition example_action (request : pydict) : res pyval := Ok (PStr "transferred").

Lemma example_log_linked : store_inv example_engine_log.
Proof. apply verify_chain_linked. vm_compute. reflexivity. Qed.

Lemma execute_sound_witness :
  (∃ key frame, validated example_boundary 1100 example_engine_log example_gaa key frame) ∧
  registry_satisfied example_boundary example_gaa.
Proof.
  assert ((execute example_boundary 1100 example_action example_gaa example_engine_state).1 =
          Ok (PStr "transferred")) as Hv by (vm_compute; reflexivity).
  destruct (execute example_boundary 1100 example_action example_gaa example_engine_state)
    as [r s'] eqn:Hr. cbn [fst] in Hv.
  assert (store_inv (L := ReplayLog) (es_log example_engine_state)) as Hi by exact example_log_linked.
  pose proof (execute_sound (L := ReplayLog) example_boundary 1100 example_action example_gaa
    example_engine_state s' r) as H.
  specialize (H Hi). specialize (H Hr). destruct H as [[_ [e He]]|[_ H]].
  - rewrite Hv in He. discriminate He.
  - exact H.
Defined.

Definition example_presentations : list (@engine_call toy_crypto) :=
  [CallExecute example_boundary 1100 example_action example_gaa;
   CallExecute example_boundary 1101 example_action example_gaa].

Abbreviation example_presented := (fold_left engine_run example_presentations example_engine_state).

(** Two presentations of one artifact: the action is called once. *)
Lemma execute_at_most_once_witness :
  length (es_invoked example_presented) = 1%nat ∧ NoDup (map gaa_nonce (es_invoked example_presented)).
Proof.
  split; [vm_compute; reflexivity|].
  pose proof (execute_at_most_once example_engine_log example_presentations example_log_linked) as H.
  cbv zeta in H. exact (proj1 H).
Defined.

Definition example_trust : @TrustStore toy_crypto :=
  {| ts_path := false; ts_keys := [("issuer", "issuer-key")]; ts_revoked := ∅; ts_file := None |}.

Lemma revoked_key_blocks_example :
  let t' := (trust_revoke "issuer" example_trust).2 in
  execute {| eb_keys := EngineTrust t'; eb_registry := None; eb_arbiter := example_arbiter |}
    1100 example_action example_gaa example_engine_state =
  (Raise (AuthorizationError "GAA signature is invalid or issuer is unknown"), example_engine_state).
Proof.
  intros t'. apply (revoked_key_blocks _ example_trust t').
  - vm_compute; reflexivity.
  - reflexivity.
Defined.

Lemma execute_recorded_witness :
  let r := execute example_boundary 1100 example_action example_gaa example_engine_state in
  store_used (es_log r.2) "n1" = true.
Proof.
  assert (validate example_boundary 1100 example_engine_log example_gaa = Ok tt) as Hv
    by (vm_compute; reflexivity).
  exact (proj1 (execute_recorded example_boundary 1100 example_action example_gaa
    example_engine_state example_log_linked Hv)).
Defined.
