(* ===== verification/Workflow.v ===== *)
(** From issuer to execution: issuer.py, mesh.py and engine.py together.

    What the issuer puts into the log is what the boundary accepts: the mesh
    inputs survive their transport form, a preflight over the transported
    inputs reconstructs the signed digest without keys, and so an issued
    artifact executes. *)

From S2P Require Import Prelude PyFloat PyVal Json Sha256 Base64 Crypto Trust Models Policy Arbiter PolicyRegistry Replay ReplayStore Mesh Issuer Engine.

(** * The aggregation does not read metadata and signatures *)

Section Transport.
Variable f : GovernanceInput → GovernanceInput.
Hypothesis f_source : ∀ i, gi_source_id (f i) = gi_source_id i.
Hypothesis f_decision : ∀ i, gi_decision (f i) = gi_decision i.
Hypothesis f_weight : ∀ i, gi_weight (f i) = gi_weight i.
Hypothesis f_priority : ∀ i, gi_priority (f i) = gi_priority i.

Definition transport_item (di : digested) : digested := (di.1, f di.2).
Definition transport_group (g : string * list GovernanceInput) : string * list GovernanceInput :=
  (g.1, map f g.2).

Lemma fold_max_map {A} (p : A → Z) (g : A → A) l z :
  (∀ x, p (g x) = p x) → fold_left (λ m x, Z.max m (p x)) (map g l) z = fold_left (λ m x, Z.max m (p x)) l z.
Proof. intros Hp. revert z. induction l as [|x l IH]; intros z; simpl; [done|]. by rewrite Hp, IH. Qed.

Lemma max_priority_transport items : max_priority (map transport_item items) = max_priority items.
Proof.
  destruct items as [|[d i] items]; [done|]. unfold max_priority. simpl. rewrite f_priority.
  apply (fold_max_map (λ di : digested, gi_priority di.2)). intros di. apply f_priority.
Qed.

Lemma top_inputs_transport items :
  top_inputs (map transport_item items) = map transport_item (top_inputs items).
Proof.
  unfold top_inputs. rewrite max_priority_transport. generalize (max_priority items) as m. intros m.
  induction items as [|[d i] items IH]; simpl; [done|]. rewrite IH, f_priority. by destruct (_ =? m).
Qed.

Lemma by_source_transport items : by_source (map transport_item items) = map transport_item (by_source items).
Proof. apply sort_by_map. intros di. apply f_source. Qed.

Lemma mesh_conflicts_transport p top : mesh_conflicts p (map transport_item top) = mesh_conflicts p top.
Proof.
  unfold mesh_conflicts. rewrite by_source_transport, flat_map_concat_map, List.map_map.
  rewrite (flat_map_concat_map _ (by_source top)). f_equal. apply map_ext. intros s.
  rewrite !flat_map_concat_map, List.map_map. f_equal. apply map_ext. intros o. simpl.
  rewrite !f_source. case_match; [|done]. unfold conflict_entry. simpl. by rewrite !f_source, !f_decision.
Qed.

Lemma groups_transport items groups :
  fold_left add_to_group (map transport_item items) (map transport_group groups) =
  map transport_group (fold_left add_to_group items groups).
Proof.
  revert groups. induction items as [|[d i] items IH]; intros groups; simpl; [done|].
  rewrite <-IH. f_equal. unfold add_to_group. cbn [fst snd transport_item].
  assert (∀ g, assoc_set d (map f g) (map transport_group groups) =
               map transport_group (assoc_set d g groups)) as Hset.
  { intros g. clear. induction groups as [|[k x] groups IH]; simpl; [done|].
    destruct (String.eqb d k); simpl; [done|]. by rewrite IH. }
  rewrite <-Hset. f_equal. rewrite map_app. f_equal.
  unfold transport_group. rewrite (assoc_get_map_values (map f)). by destruct (assoc_get d groups).
Qed.

Lemma group_priority_transport g : group_priority (map f g) = group_priority g.
Proof.
  destruct g as [|i g]; [done|]. simpl. rewrite f_priority. by apply fold_max_map.
Qed.

Lemma group_weight_transport g : group_weight (map f g) = group_weight g.
Proof.
  unfold group_weight. generalize 0. induction g as [|i g IH]; intros z; simpl; [done|].
  by rewrite f_weight, IH.
Qed.

Lemma winning_group_transport groups :
  winning_group (map transport_group groups) = transport_group <$> winning_group groups.
Proof.
  destruct groups as [|g gs]; [done|]. simpl. f_equal. revert g.
  induction gs as [|x gs IH]; intros g; simpl; [done|]. rewrite <-IH. f_equal.
  unfold ranks_before. simpl. rewrite !group_priority_transport, !group_weight_transport.
  by case_match.
Qed.

Lemma unresolved_transport top : unresolved (map transport_item top) = unresolved top.
Proof.
  destruct top as [|[d i] top]; [done|]. simpl. f_equal.
  induction top as [|[e j] top IH]; simpl; [done|]. by rewrite IH.
Qed.

Lemma mesh_select_transport items : mesh_select (map transport_item items) = mesh_select items.
Proof.
  unfold mesh_select, mesh_groups. pose proof (groups_transport items []) as Hg. cbn [map] in Hg.
  rewrite Hg, winning_group_transport.
  destruct (winning_group _) as [[d [|i g]]|]; [done| |done]. simpl.
  rewrite top_inputs_transport, unresolved_transport, f_decision.
  unfold gi_allow. rewrite f_decision, f_source. rewrite List.map_map.
  rewrite (map_ext (λ x, gi_source_id (f x)) gi_source_id) by done. done.
Qed.

Lemma mesh_unsigned_transport rd o items ref :
  mesh_unsigned rd o (map transport_item items) ref = mesh_unsigned rd o items ref.
Proof.
  unfold mesh_unsigned, mesh_input_digests.
  rewrite max_priority_transport, top_inputs_transport, mesh_conflicts_transport, by_source_transport,
    List.map_map.
  rewrite (map_ext (λ x, (gi_source_id (transport_item x).2, (transport_item x).1))
                   (λ di, (gi_source_id di.2, di.1))); [done|].
  intros di. simpl. by rewrite f_source.
Qed.

Lemma with_digest_transport inputs items :
  mapM_res with_digest inputs = Ok items →
  mapM_res with_digest (map f inputs) = Ok (map transport_item items).
Proof.
  rewrite !mapM_res_ok. induction 1 as [|i di inputs items H _ IH]; simpl; constructor; [|done].
  unfold with_digest, gi_digest in *. rewrite f_decision.
  apply res_bind_ok in H as (d & -> & [= <-]). done.
Qed.

(** A preflight that allowed under some keys gives, without keys and log, the
    same decision digest on the transported inputs. *)
Lemma preflight_transport `{C : Crypto} {L} `{RS : ReplayStore L} keys inputs rd (log log' : option L) d :
  mesh_preflight keys inputs rd None log = (Ok d, log') →
  ∃ d', (mesh_preflight (L := L) (MeshSources []) (map f inputs) rd None None).1 = Ok d' ∧
        pd_allow d' = pd_allow d ∧ pd_digest d' = pd_digest d.
Proof.
  intros H. pose proof H as (o & items & Ho & _)%mesh_preflight_ok.
  pose proof Ho as (Hrd & Hne & _ & Hnd & Hitems & Hsel)%preflight_outcome_ok.
  assert (preflight_outcome (MeshSources []) (map f inputs) rd = Ok (o, map transport_item items)) as Ho'.
  { apply preflight_outcome_ok. split_and!; try done.
    - by destruct inputs.
    - apply Forall_forall. intros i _. done.
    - rewrite List.map_map. by rewrite (map_ext (λ x, gi_source_id (f x)) gi_source_id).
    - by apply with_digest_transport.
    - by rewrite mesh_select_transport. }
  unfold mesh_preflight in *. rewrite Ho in H. rewrite Ho'.
  unfold mbind, M_bind, lift_res in *. rewrite mesh_unsigned_transport.
  destruct (canonical_digest _) as [g|e]; [|done]. cbn [get_state mret M_ret] in *.
  eexists. split; [reflexivity|]. cbn [pd_allow pd_digest].
  destruct log as [l|]; [|by injection H as <- _].
  unfold get_state, put_state, raise in H. destruct (store_append _ _ l) as [[fr|e] l']; [|done].
  by injection H as <- _.
Qed.
End Transport.

(** * The transport form of an input *)

(** What the constructor accepts. *)
Record gi_valid (i : GovernanceInput) : Prop := {
  gi_valid_source : gi_source_id i ≠ "";
  gi_valid_decision : gi_decision i ≠ [];
  gi_valid_json : serializable (PDict (gi_decision i)) = true;
  gi_valid_weight : 0 < gi_weight i;
  gi_valid_priority : 0 ≤ gi_priority i;
  gi_valid_allow : is_bool (dict_get "allow" (gi_decision i)) = true;
  gi_valid_signature : gi_source_signature i ≠ Some ""
}.

Lemma governance_input_init_valid sid d w p m sg i :
  governance_input_init sid d w p m sg = Ok i → gi_valid i.
Proof.
  unfold governance_input_init. intros H. inv_bind. breflect.
  repeat match goal with
    | H : read_str _ _ = Ok _ |- _ => apply read_str_ok in H as [_ H]
    | H : read_dict _ ?v = Ok _ |- _ => destruct v; try done; injection H as ->
    end.
  split; cbn [gi_source_id gi_decision gi_weight gi_priority gi_source_signature]; try done.
  - by destruct x0.
  - unfold read_opt_str in *. repeat case_match; simplify_eq; breflect; congruence.
Qed.

(** [None] metadata becomes an empty object. *)
Definition gi_transport (i : GovernanceInput) : GovernanceInput :=
  {| gi_source_id := gi_source_id i; gi_decision := gi_decision i; gi_weight := gi_weight i;
     gi_priority := gi_priority i; gi_metadata := Some (metadata_dict i);
     gi_source_signature := gi_source_signature i |}.

Lemma gi_from_to_dict i d : gi_valid i → gi_to_dict i = Ok d → gi_from_dict (PDict d) = Ok (gi_transport i).
Proof.
  intros [Hs Hd Hj Hw Hp Ha Hsg] H. unfold gi_to_dict in H.
  apply res_bind_ok in H as (g & Hg & H). injection H as <-.
  match goal with |- context [PDict ?d] => set (dd := d) end. unfold gi_from_dict.
  assert (keys_subset dd (gi_expected ++ ["source_signature"]) = true) as ->
    by (unfold dd; by destruct (gi_source_signature i)).
  assert (keys_superset dd gi_expected = true) as -> by done. cbn [negb orb fail_if].
  assert (governance_input_init (dict_get "source_id" dd) (dict_get "decision" dd)
    (dict_get "weight" dd) (dict_get "priority" dd) (dict_get "metadata" dd)
    (dict_get "source_signature" dd) = Ok (gi_transport i)) as Hinit.
  { unfold governance_input_init.
    assert (dict_get "source_signature" dd = opt_str (gi_source_signature i)) as ->
      by (unfold dd; by destruct (gi_source_signature i)).
    change (dict_get "source_id" dd) with (PStr (gi_source_id i)).
    change (dict_get "decision" dd) with (PDict (gi_decision i)).
    change (dict_get "weight" dd) with (PInt (gi_weight i)).
    change (dict_get "priority" dd) with (PInt (gi_priority i)).
    change (dict_get "metadata" dd) with (PDict (metadata_dict i)).
    rewrite read_str_nonempty by done. cbn [read_dict read_int]. unfold mbind, res_bind.
    apply Z.leb_gt in Hw. apply Z.ltb_ge in Hp.
    assert (match gi_decision i with [] => true | _ => false end = false) as -> by (by destruct (gi_decision i)).
    rewrite Hj, Hw, Hp, Ha. cbn [negb fail_if].
    destruct (gi_source_signature i) as [sg|] eqn:Hsig; cbn [opt_str];
      [rewrite read_opt_str_some by done|]; unfold gi_transport; by rewrite Hsig. }
  rewrite Hinit. unfold mbind, res_bind, gi_digest in *. cbn [gi_transport gi_decision].
  rewrite Hg. change (dict_get "decision_digest" dd) with (PStr g). simpl. by rewrite String.eqb_refl.
Qed.

Lemma gi_from_to_dicts inputs ds :
  Forall gi_valid inputs → mapM_res gi_to_dict inputs = Ok ds →
  mapM_res gi_from_dict (map PDict ds) = Ok (map gi_transport inputs).
Proof.
  rewrite !mapM_res_ok. intros Hv H. induction H as [|i d inputs ds Hd _ IH]; cbn [map]; [constructor|].
  apply Forall_cons in Hv as [Hi Hv]. constructor; [by apply gi_from_to_dict|auto].
Qed.

(** * Issued artifacts execute *)

(** The frame that a preflight adds is a mesh frame. *)
Lemma preflight_frames `{C : Crypto} {L} `{LL : ReplayStoreLaws L} keys inputs rd (l l' : L) :
  (mesh_preflight keys inputs rd None (Some l)).2 = Some l' →
  ∃ fs, store_frames l' = store_frames l ++ fs ∧ Forall (λ f, String.prefix "mesh-" (rf_frame_id f) = true) fs.
Proof.
  assert (∀ r, Some l = Some r → ∃ fs, store_frames r = store_frames l ++ fs ∧
    Forall (λ f, String.prefix "mesh-" (rf_frame_id f) = true) fs) as Hsame.
  { intros r [= <-]. exists []. by rewrite app_nil_r. }
  unfold mesh_preflight, mbind, M_bind, lift_res, get_state, put_state, mret, M_ret, raise.
  destruct (preflight_outcome _ _ _) as [[o items]|e]; [|apply Hsame].
  destruct (canonical_digest _) as [g|e]; [|apply Hsame]. cbv beta iota.
  match goal with |- context [store_append ?fid ?ev l] =>
    destruct (store_append fid ev l) as [[f|e] l1] eqn:Happ end; cbn [snd]; intros [= <-].
  - apply append_ok in Happ as (Hf & Hfs & _). exists [f]. split; [done|].
    apply frame_create_ok in Hf as (Hid & _).
    constructor; [|done]. cbv beta. rewrite Hid. simpl. by destruct g.
  - apply append_raise in Happ as ->. by apply Hsame.
Qed.

(** Looking up a frame that was appended when no earlier frame had its name. *)
Lemma store_get_appended {L} `{RS : ReplayStore L} (l : L) old frame later :
  store_frames l = old ++ frame :: later →
  Forall (λ f, rf_frame_id f ≠ rf_frame_id frame) old →
  store_get l (rf_frame_id frame) = Some frame.
Proof.
  intros Hl Hold. unfold store_get. rewrite Hl. clear Hl.
  induction Hold as [|f old Hf _ IH]; simpl.
  - by rewrite String.eqb_refl.
  - apply String.eqb_neq in Hf. by rewrite Hf.
Qed.

Section Complete.
Context `{C : Crypto} {L : Type} `{LL : ReplayStoreLaws L}.
Implicit Types s : issuer_state L.

(** The mesh stage only adds mesh frames to the issuer's log. *)
Lemma mesh_stage_frames I request decided inputs s r s1 :
  mesh_stage I request decided inputs s = (Ok r, s1) →
  ∃ fs, store_frames (is_log s1) = store_frames (is_log s) ++ fs ∧
        Forall (λ f, String.prefix "mesh-" (rf_frame_id f) = true) fs.
Proof.
  assert (∃ fs, store_frames (is_log s) = store_frames (is_log s) ++ fs ∧
    Forall (λ f, String.prefix "mesh-" (rf_frame_id f) = true) fs) as Hsame
    by (exists []; by rewrite app_nil_r).
  assert (∀ keys g d s2, on_shared (mesh_preflight keys inputs g None) s = (Ok d, s2) →
    ∃ fs, store_frames (is_log s2) = store_frames (is_log s) ++ fs ∧
          Forall (λ f, String.prefix "mesh-" (rf_frame_id f) = true) fs) as Hshared.
  { intros keys g d s2 H. unfold on_shared in H.
    destruct (preflight_extends keys inputs g None (is_log s)) as (l' & Hl & _).
    pose proof (preflight_frames keys inputs g _ _ Hl) as Hf.
    destruct (mesh_preflight _ _ _ _ _) as [r1 ol]. cbn [snd] in Hl. subst ol.
    injection H as _ <-. done. }
  unfold mesh_stage. intros H. destruct inputs as [|i inputs]; inv_bind; [by inv_bind|].
  unfold issuer_preflight in *. destruct (ai_mesh I) as [[keys []]|]; inv_bind; eauto.
  unfold on_own, zoom in *.
  match goal with H : (let '(_, _) := ?m in _) = _ |- _ => destruct m; injection H as _ <- end. done.
Qed.

Lemma issuer_preflight_run I inputs g s d s1 :
  issuer_preflight I inputs g s = (Ok d, s1) →
  ∃ keys log log', mesh_preflight (L := L) keys inputs g None log = (Ok d, log').
Proof.
  unfold issuer_preflight. intros H.
  assert (∀ keys, on_shared (mesh_preflight keys inputs g None) s = (Ok d, s1) →
    ∃ keys log log', mesh_preflight (L := L) keys inputs g None log = (Ok d, log')) as Hshared.
  { intros keys Hk. unfold on_shared in Hk. destruct (mesh_preflight keys _ _ _ _) as [r ol] eqn:Hm.
    injection Hk as -> _. eauto. }
  destruct (ai_mesh I) as [[keys []]|]; [eauto| |].
  - unfold on_own, zoom in H. destruct (mesh_preflight keys _ _ _ _) as [r ol] eqn:Hm.
    injection H as -> _. eauto.
  - apply M_bind_ok in H as (keys & s2 & [_ ->]%lift_res_ok & H). eauto.
Qed.

Lemma preflight_digest_nonempty keys inputs g ref (log log' : option L) d :
  mesh_preflight keys inputs g ref log = (Ok d, log') → pd_digest d ≠ "".
Proof.
  unfold mesh_preflight. intros H. inv_bind. destruct x as [o items]. inv_bind. cbn [pd_digest].
  unfold canonical_digest in *. inv_bind. apply sha256_hex_nonempty.
Qed.

(** The evidence the issuer records passes the boundary's check. *)
Lemma mesh_evidence_valid I request decided inputs s decision mesh s1 evidence payload nonce a frame prev :
  Forall gi_valid inputs →
  mesh_stage I request decided inputs s = (Ok (decision, mesh), s1) →
  truthy (dict_get "allow" decision) = true →
  dict_get "mesh_preflight_digest" decided = PNone →
  mesh_evidence request inputs mesh = Ok evidence →
  gaa_action_request a = request → gaa_decision a = decision →
  frame_create (rf_frame_id frame) prev (issued_event nonce payload decision evidence) = Ok frame →
  validate_mesh_evidence (L := L) a frame = Ok tt.
Proof.
  intros Hv Hst Hal Hnone Hev Hr Hd Hfr.
  pose proof (frame_create_ok _ _ _ _ Hfr) as (_ & Hprev & Hevent & _).
  unfold validate_mesh_evidence. rewrite Hr, Hd, Hevent.
  destruct (mesh_stage_allows _ _ _ _ _ _ _ _ Hst Hal)
    as [(_ & -> & -> & _)|(Hne & d & g & -> & Hpd & Hg & Hpre & ->)].
  { rewrite Hnone. injection Hev as <-. done. }
  cbn [mesh_evidence] in Hev. rewrite Hg in Hev.
  apply res_bind_ok in Hev as (g' & [= <-] & Hev).
  apply res_bind_ok in Hev as (ds & Hds & Hev). injection Hev as <-.
  destruct (issuer_preflight_run _ _ _ _ _ _ Hpre) as (keys & log & log' & Hm).
  destruct (preflight_transport gi_transport (λ _, eq_refl) (λ _, eq_refl) (λ _, eq_refl)
    (λ _, eq_refl) keys inputs g log log' d Hm) as (d' & Hm' & Hpd' & Hdig).
  pose proof (preflight_digest_nonempty _ _ _ _ _ _ _ Hm) as Hne'. apply String.eqb_neq in Hne'.
  assert (dict_get "mesh_preflight_digest"
    (assoc_set "mesh_preflight_digest" (PStr (pd_digest d)) decided) = PStr (pd_digest d)) as ->
    by (unfold dict_get; by rewrite assoc_get_set_eq).
  rewrite Hne'. set (ev := issued_event _ _ _ _).
  assert (keys_superset ev evidence_keys = true) as -> by done.
  change (dict_get "mesh_preflight_digest" ev) with (PStr (pd_digest d)).
  change (dict_get "mesh_request_digest" ev) with (PStr g).
  change (dict_get "mesh_inputs" ev) with (PList (map PDict ds)).
  cbn [fail_if negb py_eqb]. unfold mbind, res_bind. rewrite !String.eqb_refl, Hg. cbn [fail_if negb].
  rewrite String.eqb_refl. cbn [fail_if negb].
  destruct ds as [|d0 ds]; [apply mapM_res_ok in Hds; by inversion Hds; subst|].
  cbn [map]. change (PDict d0 :: map PDict ds) with (map PDict (d0 :: ds)).
  unfold reconstruct_preflight. rewrite (gi_from_to_dicts _ _ Hv Hds). unfold mbind, res_bind.
  rewrite Hm'. cbn [res_except]. rewrite Hpd', Hdig, Hpd, String.eqb_refl. cbn [negb orb fail_if].
  rewrite Hprev. unfold ev. rewrite Hfr. by rewrite String.eqb_refl.
Qed.

(** The boundary resolves the issuer's key, shares the arbiter, and its
    registry, if any, holds the policy. *)
Record boundary_accepts (B : ExecutionBoundary) (I : AuthorizationIssuer) (p : Policy)
    (pk : PublicKey) : Prop := {
  accepts_key : engine_resolve (eb_keys B) (signer_key_id (ai_issuer I)) = Some pk;
  accepts_policy : ∀ r, eb_registry B = Some r →
    registry_get r (policy_id p) = Some p ∧
    ∀ k, resolve_public_key (eb_arbiter B) k = resolve_public_key (ai_arbiter I) k
}.

Lemma issued_policy_valid B I p pk request decided decision a :
  boundary_accepts B I p pk → decide (ai_arbiter I) request p = Ok decided →
  truthy (dict_get "allow" decided) = true →
  (∀ k, k ≠ "mesh_preflight_digest" → dict_get k decision = dict_get k decided) →
  gaa_action_request a = request → gaa_decision a = decision →
  validate_policy B a = Ok tt ∧ action_in_list a = true ∧ dict_get "allow" decision = PBool true.
Proof.
  intros [_ Hp] Hdec Hal Hget Hr Hd.
  pose proof Hdec as (bytes & rs & g & Hb & Hrs & Hg & Hdict)%decide_ok.
  destruct rs; [|by rewrite Hdict in Hal].
  pose proof (proj1 (decide_reasons_nil _ _ _ _ _ Hrs) eq_refl) as (act & ctx & Hsat).
  subst decided. split_and!.
  - unfold validate_policy. destruct (eb_registry B) as [r|] eqn:HB; [|done].
    destruct (Hp r eq_refl) as [Hreg HA]. rewrite Hd, Hr, !Hget by done.
    change (dict_get "policy" _) with (PStr (policy_id p)).
    change (dict_get "policy_digest" _) with (PStr g).
    cbn [registry_get_value hashable is_none]. rewrite Hreg.
    unfold mbind, res_bind. rewrite Hg. cbn [py_eqb]. rewrite String.eqb_refl. cbn [negb fail_if].
    rewrite (decide_ext _ _ _ _ HA).
    by rewrite Hdec.
  - unfold action_in_list. rewrite Hd, Hr, Hget, (sat_action _ _ _ _ _ _ Hsat) by done.
    change (dict_get "allowed_actions" _) with (of_strs (allowed_actions p)). cbn [of_strs].
    apply existsb_exists. exists (PStr act). split; [|apply String.eqb_refl].
    apply in_map, list_elem_of_In, Hsat.
  - by rewrite Hget by done.
Qed.

(** An artifact just issued is valid on any later log that has not seen its nonce. *)
Lemma issued_validates B I pk `{!SignerFor (ai_issuer I) pk} now now' nonce request0 p ttl approvals
    inputs s s' a (log : L) :
  authorize I now nonce request0 p ttl approvals inputs s = (Ok a, s') →
  boundary_accepts B I p pk → Forall gi_valid inputs →
  Forall (λ f, rf_frame_id f ≠ "authorization:" +:+ nonce) (store_frames (is_log s)) →
  store_frames (is_log s') `prefix_of` store_frames log → store_used log nonce = false →
  now' < now + ttl → validate B now' log a = Ok tt.
Proof.
  intros H HB Hv Hfresh [later Hlater] Hused Hnow.
  apply authorize_ok in H as (request & Heff & decided & decision & mesh & payload &
    evidence & frame & s1 & [_ _ Hdec Hst Hal Hpl Hev Happ Ha]).
  pose proof (gaa_issue_ok_fields _ _ _ _ _ _ _ Ha) as (Hr & Hd & Hx & Hn & Hf & Hk).
  pose proof (mesh_stage_frames _ _ _ _ _ _ _ Hst) as (fs & Hfs & Hmesh).
  apply append_ok in Happ as (Hfr & Hframes & _).
  pose proof (frame_create_ok _ _ _ _ Hfr) as (Hid & _ & Hevent & _).
  assert (∀ k, k ≠ "mesh_preflight_digest" → dict_get k decision = dict_get k decided) as Hget.
  { intros k Hk'. destruct (mesh_stage_allows _ _ _ _ _ _ _ _ Hst Hal)
      as [(_ & _ & -> & _)|(_ & d & g & _ & _ & _ & _ & ->)]; [done|].
    unfold dict_get. by rewrite assoc_get_set_ne. }
  pose proof Hal as Hal'. rewrite Hget in Hal' by done.
  destruct (issued_policy_valid B I p pk request decided decision a HB Hdec Hal' Hget Hr Hd)
    as (Hpol & Hact & Hallow).
  apply validate_ok. exists pk, frame. split; try done.
  - rewrite Hk. by apply accepts_key in HB.
  - by eapply gaa_issue_verifies.
  - lia.
  - by rewrite Hn.
  - rewrite Hf, <-Hid. apply (store_get_appended log (store_frames (is_log s1)) frame later).
    + by rewrite Hlater, Hframes, <-app_assoc.
    + rewrite Hfs, Hid. apply Forall_app. split; [done|].
      eapply Forall_impl; [exact Hmesh|]. intros f Hpre Heq. cbv beta in Hpre. by rewrite Heq in Hpre.
  - by rewrite Hevent.
  - by rewrite Hevent, Hn.
  - exists payload. rewrite Hevent. split; [|done]. unfold gaa_issue in Ha. by inv_bind.
  - eapply mesh_evidence_valid; try done.
    + apply decide_ok in Hdec as (? & ? & ? & _ & _ & _ & ->). done.
    + rewrite Hid. exact Hfr.
  - by rewrite Hd.
Qed.
End Complete.

(** * Properties *)

(** C20. What is issued can be executed: an artifact from [authorize] (with or
    without well-formed mesh inputs, and with no frame of its authorization in
    the log before), presented before it expires to a boundary that resolves the
    issuer's key and, when it has a policy registry, has the policy in it and an
    arbiter that resolves every approver's key as the issuer's arbiter does, on
    any log that continues the issuer's and has not seen the nonce, has its
    action called.  The call returns what the action returned or raised, unless
    the log already has a frame with the identifier or the hash of the one for
    its outcome, and a second presentation, to any boundary and at any time, is
    refused without calling the action. *)
Theorem issued_executes_once `{C : Crypto} {L} `{LL : ReplayStoreLaws L} (B B' : ExecutionBoundary)
    (I : AuthorizationIssuer) (pk : PublicKey) `{HS : !SignerFor (ai_issuer I) pk}
    (now now' now'' : Z) (nonce : string) (request0 : pydict) (p : Policy) (ttl : Z)
    (approvals : option (list approval_arg)) (inputs : list GovernanceInput)
    (s s' : issuer_state L) (a : gaa) (log : L) (called : list gaa)
    (action action' : pydict → res pyval) :
  authorize I now nonce request0 p ttl approvals inputs s = (Ok a, s') →
  boundary_accepts B I p pk → Forall gi_valid inputs →
  Forall (λ f, rf_frame_id f ≠ "authorization:" +:+ nonce) (store_frames (is_log s)) →
  store_frames (is_log s') `prefix_of` store_frames log → store_used log nonce = false →
  store_inv log → now' < now + ttl →
  let r := execute B now' action a {| es_log := log; es_invoked := called |} in
  es_invoked r.2 = called ++ [a] ∧
  (r.1 = action (gaa_action_request a) ∨
   r.1 = Raise (ValueError ("replay frame already exists: execution:" +:+ nonce)) ∧
   frame_taken ("execution:" +:+ nonce) (outcome_event action a) (store_frames log)) ∧
  ∃ e, execute B' now'' action' a r.2 = (Raise e, r.2).
Proof.
  intros H HB Hv Hfresh Hpre Hused Hinv Hnow r.
  pose proof (issued_validates B I pk now now' nonce request0 p ttl approvals inputs s s' a log
    H HB Hv Hfresh Hpre Hused Hnow) as Hval.
  assert (gaa_nonce a = nonce) as Hn.
  { apply authorize_ok in H as (? & _ & ? & ? & ? & ? & ? & ? & ? & [_ _ _ _ _ _ _ _ Ha]).
    apply gaa_issue_ok_fields in Ha as (_ & _ & _ & ? & _). done. }
  pose proof (execute_outcome B now' action a {| es_log := log; es_invoked := called |} Hinv Hval) as Ho.
  destruct (execute_cases B now' action a {| es_log := log; es_invoked := called |} Hinv)
    as [(e & He & _)|(_ & Hcall & Hinv' & _ & Hus)]; [cbn [es_log] in He; congruence|].
  fold r in Ho, Hcall, Hinv', Hus. split; [done|]. split.
  - rewrite Hn in Ho. destruct Ho as [[Ho _]|(Ho & _ & Htk)]; [by left|by right].
  - destruct (validate B' now'' (es_log r.2) a) as [[]|e] eqn:Hv2.
    + apply validate_ok in Hv2 as (key & frame & Hv2).
      apply validated_fresh in Hv2. by rewrite Hus, String.eqb_refl in Hv2.
    + exists e. by apply execute_rejected.
Qed.

Lemma mesh_input_valid source b priority : source ≠ "" → 0 ≤ priority → gi_valid (mesh_input source b priority).
Proof. intros Hs Hp. by split. Qed.

Lemma example_accepts : boundary_accepts example_boundary example_issuer example_policy "issuer-key".
Proof. split; [reflexivity|]. intros r [= <-]. split; [vm_compute; reflexivity|reflexivity]. Qed.

Lemma example_inputs_valid : Forall gi_valid [mesh_input "m" true 1].
Proof. constructor; [by apply mesh_input_valid|constructor]. Qed.

Abbreviation example_mesh_log := (is_log (example_issue 100 [mesh_input "m" true 1]).2).

(** An artifact issued with a mesh input executes. *)
Lemma issued_executes_once_witness :
  let r := execute example_boundary 1100 example_action example_mesh_gaa
             {| es_log := example_mesh_log; es_invoked := [] |} in
  es_invoked r.2 = [example_mesh_gaa].
Proof.
  assert (example_issue 100 [mesh_input "m" true 1] =
          (Ok example_mesh_gaa, (example_issue 100 [mesh_input "m" true 1]).2)) as H
    by (vm_compute; reflexivity).
  assert (store_inv example_mesh_log) as Hi.
  { apply (extends_inv _ _ (appends_authorize (L := ReplayLog) example_issuer 1000 "n1"
      (example_request 100) example_policy 300 None [mesh_input "m" true 1] example_issuer_state)).
    exact I. }
  assert (store_used example_mesh_log "n1" = false) as Hu by (vm_compute; reflexivity).
  pose proof (issued_executes_once (L := ReplayLog) example_boundary example_boundary example_issuer
    "issuer-key" (HS := local_signer_for (C := toy_crypto) "issuer" "issuer-key") 1000 1100 1100 "n1"
    (example_request 100) example_policy 300 None [mesh_input "m" true 1] example_issuer_state
    (example_issue 100 [mesh_input "m" true 1]).2 example_mesh_gaa example_mesh_log []
    example_action example_action H example_accepts) as Hx.
  specialize (Hx example_inputs_valid).
  specialize (Hx (Forall_nil_2 _)).
  specialize (Hx ltac:(exists []; rewrite app_nil_r; exact eq_refl)).
  specialize (Hx Hu Hi eq_refl). exact (proj1 Hx).
Defined.
