(* ===== verification/Rbac.v ===== *)
(** rbac.py: the mapping of identity claims to roles and the role checks.

    ASCII characters are classified here; the case and the class of the other
    characters come from Unicode tables, the parameter [UnicodeData].  The file
    shows which claims grant a role and that a guarded call runs only for an
    identity that holds a required role. *)

From stdpp Require Import gmap.
From S2P Require Import Prelude PyFloat PyVal Json Sha256 Base64 Crypto Models.

(** Python's tables for one character outside ASCII (given by its UTF-8 bytes). *)
Class UnicodeData := {
  (** [c.lower() if c.isalnum() else ""] *)
  uni_normalize : string → string;
  (** [c.isspace()] *)
  uni_space : string → bool
}.

(** No letters or spaces outside ASCII. *)
#[export] Instance ascii_only : UnicodeData :=
  {| uni_normalize := λ _, ""; uni_space := λ _, false |}.

(** ** Roles *)

Inductive Role := PLATFORM_ADMIN | POLICY_ADMIN | OPERATOR | AUDITOR | APPROVER | SERVICE_PRINCIPAL.

#[export] Instance Role_eq_dec : EqDecision Role.
Proof. solve_decision. Defined.

(** [for role in Role] *)
Definition all_roles : list Role :=
  [PLATFORM_ADMIN; POLICY_ADMIN; OPERATOR; AUDITOR; APPROVER; SERVICE_PRINCIPAL].

Definition role_index (r : Role) : nat :=
  match r with
  | PLATFORM_ADMIN => 0 | POLICY_ADMIN => 1 | OPERATOR => 2 | AUDITOR => 3 | APPROVER => 4
  | SERVICE_PRINCIPAL => 5
  end.

Lemma all_roles_index r : all_roles !! role_index r = Some r.
Proof. by destruct r. Qed.

#[export] Instance Role_countable : Countable Role :=
  inj_countable role_index (λ n, all_roles !! n) all_roles_index.

Definition role_value (r : Role) : string :=
  match r with
  | PLATFORM_ADMIN => "platform_admin" | POLICY_ADMIN => "policy_admin" | OPERATOR => "operator"
  | AUDITOR => "auditor" | APPROVER => "approver" | SERVICE_PRINCIPAL => "service_principal"
  end.

(** [role.name] *)
Definition role_name (r : Role) : string :=
  match r with
  | PLATFORM_ADMIN => "PLATFORM_ADMIN" | POLICY_ADMIN => "POLICY_ADMIN" | OPERATOR => "OPERATOR"
  | AUDITOR => "AUDITOR" | APPROVER => "APPROVER" | SERVICE_PRINCIPAL => "SERVICE_PRINCIPAL"
  end.

Record ClaimsIdentity := {
  ci_subject : string;
  ci_tenant_id : option string;
  ci_service_id : option string;
  ci_email : option string;
  ci_roles : gset Role;
  ci_groups : list string;
  ci_issuer : option string;
  ci_service_principal : bool
}.

(** ** Claims *)

Section Mapper.
Context `{U : UnicodeData}.

Definition ascii_between (lo hi : N) (n : N) : bool := ((lo <=? n) && (n <=? hi))%N.

(** [c.lower() if c.isalnum() else ""] *)
Definition normalize_char (c : string) : string :=
  match c with
  | String a "" =>
      let n := N_of_ascii a in
      if ascii_between 65 90 n then String (ascii_of_N (n + 32)) ""
      else if ascii_between 97 122 n || ascii_between 48 57 n then c
      else if (n <? 128)%N then "" else uni_normalize c
  | _ => uni_normalize c
  end.

(** [c.isspace()] *)
Definition is_space (c : string) : bool :=
  match c with
  | String a "" =>
      let n := N_of_ascii a in
      if (n <? 128)%N then ascii_between 9 13 n || ascii_between 28 32 n else uni_space c
  | _ => uni_space c
  end.

(** [ClaimsMapper._normalize] *)
Definition normalize (value : string) : string :=
  join "" (map normalize_char (split_chars "" value)).

(** [value.split()] *)
Fixpoint split_words (word : string) (chars : list string) : list string :=
  match chars with
  | [] => if String.eqb word "" then [] else [word]
  | c :: chars =>
      if is_space c then (if String.eqb word "" then [] else [word]) ++ split_words "" chars
      else split_words (word +:+ c) chars
  end.

Definition as_list (value : pyval) : list string :=
  match value with
  | PStr s => split_words "" (split_chars "" s)
  | PList l => map py_str (List.filter is_str l)
  | _ => []
  end.

(** [a or b] *)
Definition py_or (a b : pyval) : pyval := if truthy a then a else b.

(** [v if isinstance(v, str) else None] *)
Definition str_or_none (v : pyval) : option string := match v with PStr s => Some s | _ => None end.

Record ClaimsMapper := {
  cm_role_mapping : list (string * Role);
  cm_normalized : list (string * Role)
}.

Definition claims_mapper (role_mapping : list (string * Role))
    (legacy_admin_role legacy_admin_scope : string) : ClaimsMapper :=
  let m := setdefault legacy_admin_scope OPERATOR (setdefault legacy_admin_role OPERATOR role_mapping) in
  {| cm_role_mapping := m;
     cm_normalized := fold_left (λ acc kv, assoc_set (normalize kv.1) kv.2 acc) m [] |}.

(** The role one claim value grants. *)
Definition item_role (m : ClaimsMapper) (item : string) : option Role :=
  match assoc_get item (cm_role_mapping m) with
  | Some r => Some r
  | None =>
      match assoc_get (normalize item) (cm_normalized m) with
      | Some r => Some r
      | None =>
          List.find (λ r, String.eqb (normalize item) (normalize (role_value r)) ||
                          String.eqb (normalize item) (normalize (role_name r))) all_roles
      end
  end.

Definition role_candidates (claims : pydict) : list string :=
  as_list (dict_get "roles" claims) ++ as_list (dict_get "scope" claims) ++
  as_list (dict_get "scp" claims) ++ as_list (dict_get "groups" claims).

Definition add_item_role (m : ClaimsMapper) (roles : gset Role) (item : string) : gset Role :=
  match item_role m item with Some r => roles ∪ {[r]} | None => roles end.

Definition map_to_identity (m : ClaimsMapper) (claims : pydict) : res ClaimsIdentity :=
  match py_or (dict_get "oid" claims) (dict_get "sub" claims) with
  | PStr subject =>
      if String.eqb subject "" then Raise (ValueError "claims are missing oid or sub") else
      let roles := fold_left (add_item_role m) (role_candidates claims) ∅ in
      let service_principal := py_eqb (dict_get "idtyp" claims) (PStr "app") in
      Ok {| ci_subject := subject;
            ci_tenant_id := str_or_none (py_or (dict_get "tid" claims) (dict_get "tenant_id" claims));
            ci_service_id := str_or_none
              (py_or (py_or (dict_get "appid" claims) (dict_get "azp" claims))
                     (dict_get "client_id" claims));
            ci_email := str_or_none (py_or (dict_get "email" claims) (dict_get "upn" claims));
            ci_roles := if service_principal then roles ∪ {[SERVICE_PRINCIPAL]} else roles;
            ci_groups := as_list (dict_get "groups" claims);
            ci_issuer := str_or_none (dict_get "iss" claims);
            ci_service_principal := service_principal |}
  | _ => Raise (ValueError "claims are missing oid or sub")
  end.
End Mapper.

(** ** Role checks *)

Definition has_permission (identity : ClaimsIdentity) (required : list Role) : bool :=
  bool_decide (PLATFORM_ADMIN ∈ ci_roles identity) ||
  existsb (λ r, bool_decide (r ∈ ci_roles identity)) required.

Definition roles_error (required : list Role) : exn :=
  PermissionError ("access denied; required roles: " +:+
    py_repr (PList (map PStr (sort_strings (dedup (map role_value required)))))).

Definition require_roles (identity : ClaimsIdentity) (required : list Role) : res unit :=
  fail_if (negb (has_permission identity required)) (roles_error required).

(** The [authorize] decorator: [identity] is the keyword argument, if it is an identity. *)
Definition authorized {S A} (required : list Role) (identity : option ClaimsIdentity) (f : M S A) : M S A :=
  match identity with
  | None => raise (PermissionError "an authenticated identity is required")
  | Some i => lift_res (require_roles i required) ;; f
  end.

(** * Lemmas *)

Lemma has_permission_spec identity required :
  has_permission identity required = true ↔
  PLATFORM_ADMIN ∈ ci_roles identity ∨ ∃ r, r ∈ required ∧ r ∈ ci_roles identity.
Proof.
  unfold has_permission. rewrite orb_true_iff, bool_decide_eq_true, existsb_exists.
  setoid_rewrite bool_decide_eq_true. by setoid_rewrite list_elem_of_In.
Qed.

Lemma require_roles_ok identity required :
  require_roles identity required = Ok tt ↔ has_permission identity required = true.
Proof. unfold require_roles. rewrite fail_if_ok. apply negb_false_iff. Qed.

Lemma fold_item_roles `{U : UnicodeData} m items (roles : gset Role) r :
  r ∈ fold_left (add_item_role m) items roles ↔
  r ∈ roles ∨ ∃ item, item ∈ items ∧ item_role m item = Some r.
Proof.
  revert roles. induction items as [|i items IH]; intros roles; simpl.
  - split; [by left|]. intros [?|(? & ?%not_elem_of_nil & _)]; [done|by exfalso].
  - rewrite IH. unfold add_item_role. setoid_rewrite elem_of_cons.
    destruct (item_role m i) as [r'|] eqn:E; [rewrite elem_of_union, elem_of_singleton|];
      naive_solver.
Qed.

(** ** What a claim value grants *)

(** The normalized mapping has the role of the last key with that form. *)
Lemma normalized_mapping_get `{U : UnicodeData} n (mapping : list (string * Role)) r :
  assoc_get n (fold_left (λ acc kv, assoc_set (normalize kv.1) kv.2 acc) mapping []) = Some r ↔
  ∃ before k after, mapping = before ++ (k, r) :: after ∧ normalize k = n ∧
    ∀ kr, kr ∈ after → normalize kr.1 ≠ n.
Proof.
  induction mapping as [|[k x] mapping IH] using rev_ind.
  { split; [done|]. intros (b & k & a & Hnil & _). by destruct b. }
  rewrite fold_left_app. cbn [fold_left fst snd]. destruct (decide (normalize k = n)) as [<-|Hne].
  - rewrite assoc_get_set_eq. split.
    + intros [= ->]. exists mapping, k, []. split_and!; [done..|]. intros kr Hkr. by apply elem_of_nil in Hkr.
    + intros (b & k' & a & E & Hk & Ha). destruct a as [|kr a _] using rev_ind.
      * by apply app_inj_tail in E as [_ [= <- <-]].
      * rewrite app_comm_cons, app_assoc in E. apply app_inj_tail in E as [_ <-].
        by destruct (Ha (k, x) ltac:(set_solver)).
  - rewrite assoc_get_set_ne, IH by done. split.
    + intros (b & k' & a & -> & Hk & Ha). exists b, k', (a ++ [(k, x)]). rewrite <-app_assoc. split_and!; [done..|].
      intros kr [Hkr|Hkr%list_elem_of_singleton]%elem_of_app; [auto|by subst].
    + intros (b & k' & a & E & Hk & Ha). destruct a as [|kr a _] using rev_ind.
      * apply app_inj_tail in E as [_ [= <- <-]]. done.
      * rewrite app_comm_cons, app_assoc in E. apply app_inj_tail in E as [-> <-].
        exists b, k', a. split_and!; [done..|]. intros kr Hkr. apply Ha. set_solver.
Qed.

Lemma normalized_mapping_none `{U : UnicodeData} n (mapping : list (string * Role)) :
  assoc_get n (fold_left (λ acc kv, assoc_set (normalize kv.1) kv.2 acc) mapping []) = None ↔
  ∀ kr, kr ∈ mapping → normalize kr.1 ≠ n.
Proof.
  induction mapping as [|[k x] mapping IH] using rev_ind.
  { split; [|done]. intros _ kr Hkr. by apply elem_of_nil in Hkr. }
  rewrite fold_left_app. cbn [fold_left fst snd]. destruct (decide (normalize k = n)) as [<-|Hne].
  - rewrite assoc_get_set_eq. split; [done|]. intros H. by destruct (H (k, x) ltac:(set_solver)).
  - rewrite assoc_get_set_ne, IH by done. set_solver.
Qed.

Definition plain_name (r : Role) : string :=
  match r with
  | PLATFORM_ADMIN => "platformadmin" | POLICY_ADMIN => "policyadmin" | OPERATOR => "operator"
  | AUDITOR => "auditor" | APPROVER => "approver" | SERVICE_PRINCIPAL => "serviceprincipal"
  end.

Lemma normalize_role `{U : UnicodeData} r :
  normalize (role_value r) = plain_name r ∧ normalize (role_name r) = plain_name r.
Proof. by destruct r. Qed.

Lemma find_role `{U : UnicodeData} n r :
  List.find (λ r, String.eqb n (normalize (role_value r)) || String.eqb n (normalize (role_name r))) all_roles
    = Some r ↔ n = normalize (role_value r).
Proof.
  assert (∀ r, String.eqb n (normalize (role_value r)) || String.eqb n (normalize (role_name r)) =
               String.eqb n (plain_name r)) as E.
  { intros x. destruct (normalize_role x) as [-> ->]. apply orb_diag. }
  rewrite (proj1 (normalize_role r)). split.
  - intros [_ H]%find_some. rewrite E in H. by apply String.eqb_eq in H.
  - intros ->. by destruct r.
Qed.

Lemma item_role_spec `{U : UnicodeData} role_mapping admin scope item r :
  let mapping := setdefault scope OPERATOR (setdefault admin OPERATOR role_mapping) in
  item_role (claims_mapper role_mapping admin scope) item = Some r ↔
  assoc_get item mapping = Some r ∨
  assoc_get item mapping = None ∧
    (∃ before k after, mapping = before ++ (k, r) :: after ∧ normalize k = normalize item ∧
       ∀ kr, kr ∈ after → normalize kr.1 ≠ normalize item) ∨
  (∀ kr, kr ∈ mapping → normalize kr.1 ≠ normalize item) ∧ normalize item = normalize (role_value r).
Proof.
  intros mapping. rewrite <-normalized_mapping_get, <-normalized_mapping_none, <-find_role.
  unfold item_role, claims_mapper. cbn [cm_role_mapping cm_normalized]. fold mapping.
  destruct (assoc_get item mapping) as [x|] eqn:E1.
  - assert (assoc_get (normalize item) (fold_left (λ acc kv, assoc_set (normalize kv.1) kv.2 acc) mapping []) ≠ None)
      as Hn.
    { rewrite normalized_mapping_none. intros H. by apply assoc_get_In, list_elem_of_In, H in E1. }
    naive_solver.
  - destruct (assoc_get (normalize item) _) as [x|]; naive_solver.
Qed.

Lemma as_list_spec `{U : UnicodeData} v item :
  item ∈ as_list v ↔
  match v with PStr s => item ∈ split_words "" (split_chars "" s) | PList l => PStr item ∈ l | _ => False end.
Proof.
  destruct v; cbn [as_list]; try (split; [apply elem_of_nil|done]); [done|].
  rewrite list_elem_of_fmap. split.
  - intros (x & -> & [Hx Hs]%list_elem_of_In%filter_In). apply list_elem_of_In in Hx. by destruct x.
  - intros H. exists (PStr item). split; [done|]. apply list_elem_of_In, filter_In. by rewrite <-list_elem_of_In.
Qed.

Lemma granted_by_claims `{U : UnicodeData} role_mapping admin scope claims r :
  let mapping := setdefault scope OPERATOR (setdefault admin OPERATOR role_mapping) in
  ((∃ item, item ∈ role_candidates claims ∧
            item_role (claims_mapper role_mapping admin scope) item = Some r) ∨
   (r = SERVICE_PRINCIPAL ∧ dict_get "idtyp" claims = PStr "app")) ↔
  (∃ claim item, claim ∈ ["roles"; "scope"; "scp"; "groups"] ∧
     match dict_get claim claims with
     | PStr s => item ∈ split_words "" (split_chars "" s)
     | PList l => PStr item ∈ l
     | _ => False
     end ∧
     (assoc_get item mapping = Some r ∨
      assoc_get item mapping = None ∧
        (∃ before k after, mapping = before ++ (k, r) :: after ∧ normalize k = normalize item ∧
           ∀ kr, kr ∈ after → normalize kr.1 ≠ normalize item) ∨
      (∀ kr, kr ∈ mapping → normalize kr.1 ≠ normalize item) ∧
        normalize item = normalize (role_value r))) ∨
  (r = SERVICE_PRINCIPAL ∧ dict_get "idtyp" claims = PStr "app").
Proof.
  intros mapping. pose proof (λ item, item_role_spec role_mapping admin scope item r) as Hs.
  cbv zeta in Hs. fold mapping in Hs. setoid_rewrite <-Hs. setoid_rewrite <-as_list_spec.
  unfold role_candidates. split; (intros [H|?]; [left|by right]).
  - destruct H as (item & Hin & Hr). rewrite !elem_of_app in Hin.
    destruct Hin as [Hin|[Hin|[Hin|Hin]]]; eexists _, item; (split; [|exact (conj Hin Hr)]); set_solver.
  - destruct H as (claim & item & Hc & Hin & Hr). exists item. split; [|done]. rewrite !elem_of_app.
    rewrite !elem_of_cons in Hc. destruct Hc as [->|[->|[->|[->|Hc%elem_of_nil]]]]; tauto.
Qed.

(** * Properties *)

(** C37. A role comes from a claim that grants it.  An identity holds exactly the
    roles granted by the strings in its roles, scope, scp and groups claims (the
    items of a list, or the words of a string), and the service-principal role
    when the token is an app token.  A string grants the role the configured
    mapping gives it, where the legacy administrator role and scope map to
    operator unless they are configured; if it is no key of the mapping, the role
    of the last key that has the same letters and digits up to case; if there is
    none either, the role whose own name has the same letters and digits; and
    nothing otherwise.  A guarded call runs exactly when the identity holds a
    required role or is a platform admin, and otherwise raises with the state
    untouched. *)
Theorem rbac_grants `{U : UnicodeData} (role_mapping : list (string * Role))
    (legacy_admin_role legacy_admin_scope : string) (claims : pydict) (i : ClaimsIdentity) :
  let mapping := setdefault legacy_admin_scope OPERATOR (setdefault legacy_admin_role OPERATOR role_mapping) in
  map_to_identity (claims_mapper role_mapping legacy_admin_role legacy_admin_scope) claims = Ok i →
  (∀ r, r ∈ ci_roles i ↔
     (∃ claim item, claim ∈ ["roles"; "scope"; "scp"; "groups"] ∧
        match dict_get claim claims with
        | PStr s => item ∈ split_words "" (split_chars "" s)
        | PList l => PStr item ∈ l
        | _ => False
        end ∧
        (assoc_get item mapping = Some r ∨
         assoc_get item mapping = None ∧
           (∃ before k after, mapping = before ++ (k, r) :: after ∧ normalize k = normalize item ∧
              ∀ kr, kr ∈ after → normalize kr.1 ≠ normalize item) ∨
         (∀ kr, kr ∈ mapping → normalize kr.1 ≠ normalize item) ∧
           normalize item = normalize (role_value r))) ∨
     (r = SERVICE_PRINCIPAL ∧ dict_get "idtyp" claims = PStr "app")) ∧
  ∀ (S A : Type) (required : list Role) (f : M S A) (s : S),
    ((PLATFORM_ADMIN ∈ ci_roles i ∨ ∃ r, r ∈ required ∧ r ∈ ci_roles i) →
       authorized required (Some i) f s = f s) ∧
    (¬ (PLATFORM_ADMIN ∈ ci_roles i ∨ ∃ r, r ∈ required ∧ r ∈ ci_roles i) →
       authorized required (Some i) f s = (Raise (roles_error required), s)).
Proof.
  intros mapping H. split.
  - intros r. etransitivity; [|apply granted_by_claims]. unfold map_to_identity in H.
    destruct (py_or _ _) as [| | | |subject| | |]; try done.
    destruct (String.eqb subject ""); [done|]. injection H as <-. cbn [ci_roles].
    rewrite <-py_eqb_str. destruct (py_eqb (dict_get "idtyp" claims) (PStr "app"));
      [rewrite elem_of_union, elem_of_singleton|]; rewrite fold_item_roles;
      set_solver.
  - intros S A required f s. rewrite <-has_permission_spec.
    unfold authorized, mbind, M_bind, lift_res, require_roles.
    destruct (has_permission i required); split; intros Hp; try done.
Qed.

Definition example_mapper : ClaimsMapper := claims_mapper [] "gas-admin" "gas.admin".

Definition example_claims : pydict :=
  [("sub", PStr "alice"); ("roles", PList [PStr "Policy Admin"; PStr "unknown"]);
   ("scope", PStr "openid gas.admin")].

Lemma rbac_grants_witness :
  ∃ i, map_to_identity example_mapper example_claims = Ok i ∧
       POLICY_ADMIN ∈ ci_roles i ∧ PLATFORM_ADMIN ∉ ci_roles i.
Proof.
  set (i := match map_to_identity example_mapper example_claims with
            | Ok i => i | Raise _ => {| ci_subject := ""; ci_tenant_id := None; ci_service_id := None;
                ci_email := None; ci_roles := ∅; ci_groups := []; ci_issuer := None;
                ci_service_principal := false |} end).
  assert (map_to_identity example_mapper example_claims = Ok i) as H by (vm_compute; reflexivity).
  destruct (rbac_grants [] "gas-admin" "gas.admin" example_claims i H) as [Hr _].
  exists i. split; [exact H|]. split.
  - apply Hr. left. exists "roles", "Policy Admin". split; [left|]. split; [left|].
    right. right. split; [|vm_compute; reflexivity].
    apply (proj1 (Forall_forall _ _)). constructor; [|constructor; [|constructor]]; vm_compute; discriminate.
  - apply (bool_decide_unpack _). vm_compute. exact Logic.I.
Defined.
