(* ===== verification/Orders.v ===== *)
(** Total orders as boolean functions with their laws, the orders of tuples
    and lists, and the stable sort by such an order. *)

From S2P Require Import Prelude.

(** * Orders and sorting *)

Class LebOrder {A} (leb : A → A → bool) : Prop := {
  leb_total : ∀ x y, leb x y = true ∨ leb y x = true;
  leb_trans : ∀ x y z, leb x y = true → leb y z = true → leb x z = true;
  leb_antisym : ∀ x y, leb x y = true → leb y x = true → x = y
}.

Lemma leb_refl {A} (leb : A → A → bool) `{!LebOrder leb} x : leb x x = true.
Proof. by destruct (leb_total x x). Qed.

#[export] Instance Z_leb_order : LebOrder Z.leb.
Proof. split; intros *; rewrite !Z.leb_le; lia. Qed.

#[export] Instance String_leb_order : LebOrder String.leb.
Proof.
  split.
  - intros x y. destruct (String.leb_total x y) as [H|H]; auto.
  - intros x y z Hx Hy. assert (String.le x z) as H; [|by unfold String.le in H; destruct (String.leb x z)].
    transitivity y; unfold String.le; [by rewrite Hx|by rewrite Hy].
  - intros x y Hx Hy. apply (anti_symm String.le); unfold String.le; [by rewrite Hx|by rewrite Hy].
Qed.

(** Tuples compare component by component. *)
Definition pair_leb {A B} (la : A → A → bool) (lb : B → B → bool) (x y : A * B) : bool :=
  la x.1 y.1 && (negb (la y.1 x.1) || lb x.2 y.2).

#[export] Instance pair_leb_order {A B} (la : A → A → bool) (lb : B → B → bool)
  `{!LebOrder la, !LebOrder lb} : LebOrder (pair_leb la lb).
Proof.
  unfold pair_leb. split.
  - intros [a b] [c d]; simpl. destruct (leb_total a c) as [H|H]; rewrite H; simpl.
    + destruct (la c a); simpl; [|by left]. destruct (leb_total b d); auto.
    + destruct (la a c); simpl; [|by right]. destruct (leb_total b d); auto.
  - intros [a b] [c d] [e f]; simpl. intros [H1 H2]%andb_true_iff [H3 H4]%andb_true_iff.
    rewrite (leb_trans _ _ _ H1 H3). simpl. destruct (la e a) eqn:E; simpl; [|done].
    rewrite (leb_trans _ _ _ H3 E) in H2. rewrite (leb_trans _ _ _ E H1) in H4. simpl in *.
    by eapply leb_trans.
  - intros [a b] [c d]; simpl. intros [H1 H2]%andb_true_iff [H3 H4]%andb_true_iff.
    rewrite H3 in H2. rewrite H1 in H4. simpl in *. f_equal; by apply leb_antisym.
Qed.

Fixpoint list_leb {A} (leb : A → A → bool) (l m : list A) : bool :=
  match l, m with
  | [], _ => true
  | _ :: _, [] => false
  | x :: l, y :: m => leb x y && (negb (leb y x) || list_leb leb l m)
  end.

#[export] Instance list_leb_order {A} (leb : A → A → bool) `{!LebOrder leb} : LebOrder (list_leb leb).
Proof.
  split.
  - induction x as [|a x IH]; intros [|b y]; simpl; auto.
    destruct (leb_total a b) as [H|H]; rewrite H; simpl.
    + destruct (leb b a); simpl; auto.
    + destruct (leb a b); simpl; auto.
  - induction x as [|a x IH]; intros [|b y] [|c z]; simpl; try done.
    intros [H1 H2]%andb_true_iff [H3 H4]%andb_true_iff.
    rewrite (leb_trans _ _ _ H1 H3). simpl. destruct (leb c a) eqn:E; simpl; [|done].
    rewrite (leb_trans _ _ _ H3 E) in H2. rewrite (leb_trans _ _ _ E H1) in H4. simpl in *. eauto.
  - induction x as [|a x IH]; intros [|b y]; simpl; try done.
    intros [H1 H2]%andb_true_iff [H3 H4]%andb_true_iff.
    rewrite H3 in H2. rewrite H1 in H4. simpl in *. f_equal; [by apply leb_antisym|auto].
Qed.

(** [sorted(l, key=f)] for a key with a boolean order: stable insertion. *)
Section SortLeb.
Context {A K : Type} (key : A → K) (leb : K → K → bool) `{!LebOrder leb}.

Fixpoint insert_leb (x : A) (l : list A) : list A :=
  match l with
  | [] => [x]
  | y :: l' => if leb (key x) (key y) then x :: l else y :: insert_leb x l'
  end.

Fixpoint sort_leb (l : list A) : list A :=
  match l with [] => [] | x :: l' => insert_leb x (sort_leb l') end.

Lemma insert_leb_perm x l : insert_leb x l ≡ₚ x :: l.
Proof.
  induction l as [|y l IH]; simpl; [done|]. destruct (leb _ _); [done|]. rewrite IH. constructor.
Qed.

Lemma sort_leb_perm l : sort_leb l ≡ₚ l.
Proof. induction l as [|x l IH]; simpl; [done|]. by rewrite insert_leb_perm, IH. Qed.

Lemma insert_leb_sorted x l :
  StronglySorted (λ a b, leb (key a) (key b) = true) l →
  StronglySorted (λ a b, leb (key a) (key b) = true) (insert_leb x l).
Proof.
  induction 1 as [|y l Hs IH Hall]; simpl; [by repeat constructor|].
  destruct (leb (key x) (key y)) eqn:E.
  - constructor; [by constructor|]. constructor; [done|].
    eapply Forall_impl; [exact Hall|]. intros z Hz. simpl in Hz. by eapply leb_trans.
  - constructor; [done|]. rewrite insert_leb_perm. constructor; [|done].
    destruct (leb_total (key x) (key y)); congruence.
Qed.

Lemma sort_leb_sorted l : StronglySorted (λ a b, leb (key a) (key b) = true) (sort_leb l).
Proof. induction l; simpl; [constructor|by apply insert_leb_sorted]. Qed.

(** The last of a sorted list is a maximum. *)
Lemma sort_leb_last l x y : last (sort_leb l) = Some x → y ∈ l → leb (key y) (key x) = true.
Proof.
  intros Hx Hy. rewrite <-(sort_leb_perm l) in Hy.
  pose proof (sort_leb_sorted l) as Hs. revert Hx Hy.
  induction Hs as [|z s Hs IH Hall]; [by intros|]. intros Hx [->|Hy]%elem_of_cons.
  - destruct s as [|w s]; [injection Hx as ->; by apply leb_refl|].
    rewrite last_cons_cons in Hx. rewrite Forall_forall in Hall. apply Hall.
    by apply last_Some_elem_of.
  - destruct s as [|w s]; [by apply not_elem_of_nil in Hy|]. rewrite last_cons_cons in Hx. auto.
Qed.
(** The first of a sorted list is a minimum. *)
Lemma sort_leb_head l x y : head (sort_leb l) = Some x → y ∈ l → leb (key x) (key y) = true.
Proof.
  intros Hx Hy. rewrite <-(sort_leb_perm l) in Hy.
  destruct (sort_leb_sorted l) as [|z s Hs Hall]; [done|]. injection Hx as ->.
  apply elem_of_cons in Hy as [->|Hy]; [by apply leb_refl|].
  by apply (proj1 (Forall_forall _ _) Hall).
Qed.

Lemma sort_leb_head_elem l x : head (sort_leb l) = Some x → x ∈ l.
Proof.
  intros Hx. rewrite <-(sort_leb_perm l). destruct (sort_leb l); [done|]. injection Hx as ->. by left.
Qed.

Lemma sort_leb_head_None l : head (sort_leb l) = None → l = [].
Proof.
  intros Hx. apply Permutation_nil_r. rewrite <-(sort_leb_perm l). by destruct (sort_leb l).
Qed.
End SortLeb.
