(* ===== verification/SemVer.v ===== *)
(** policy_registry.py: policy identifiers and semantic versions.

    The two regular expressions as parsers, the precedence key [semver_key] and
    the sort by it, total because its parts are.  Digits are the ASCII ones. *)

From S2P Require Import Prelude PyFloat PyVal Orders.

(** * Identifiers and versions *)

Definition ascii_in (lo hi : N) (c : ascii) : bool :=
  ((lo <=? N_of_ascii c) && (N_of_ascii c <=? hi))%N.
Definition ascii_digit : ascii → bool := ascii_in 48 57.
Definition ascii_lower : ascii → bool := ascii_in 97 122.
Definition ascii_upper : ascii → bool := ascii_in 65 90.
(** [c.lower()] of an ASCII character *)
Definition lower_char (c : ascii) : ascii := if ascii_upper c then ascii_of_N (N_of_ascii c + 32) else c.

(** [$] also matches before a final line feed. *)
Fixpoint strip_newline (s : string) : string :=
  match s with
  | EmptyString => ""
  | String c r => if (N_of_ascii c =? 10)%N && String.eqb r "" then "" else String c (strip_newline r)
  end.

(** [_ID_RE.match(s)] *)
Definition id_match (s : string) : bool :=
  let alnum c := ascii_lower c || ascii_digit c in
  match strip_newline s with
  | EmptyString => false
  | String c r =>
      alnum c && all_chars (λ c, alnum c || Ascii.eqb c "." || Ascii.eqb c "_" || Ascii.eqb c "-") r &&
      (String.length r <=? 127)%nat
  end.

Fixpoint split_from (c : ascii) (cur s : string) : list string :=
  match s with
  | EmptyString => [cur]
  | String d r =>
      if Ascii.eqb d c then cur :: split_from c "" r else split_from c (cur +:+ String d "") r
  end.

(** [s.split(c)] *)
Definition split_on (c : ascii) (s : string) : list string := split_from c "" s.

(** The text before the first [c], and the text after it. *)
Fixpoint cut (c : ascii) (s : string) : string * option string :=
  match s with
  | EmptyString => ("", None)
  | String d r =>
      if Ascii.eqb d c then ("", Some r) else let '(a, b) := cut c r in (String d a, b)
  end.

(** [0|[1-9]\d*] *)
Definition numeric_id (s : string) : bool :=
  match s with
  | EmptyString => false
  | String c r => all_chars ascii_digit s && (String.eqb s "0" || negb (Ascii.eqb c "0"))
  end.

Definition id_char (c : ascii) : bool :=
  ascii_digit c || ascii_lower c || ascii_upper c || Ascii.eqb c "-".

(** [[0-9a-zA-Z-]+] *)
Definition build_id (s : string) : bool := negb (String.eqb s "") && all_chars id_char s.

(** [0|[1-9]\d*|\d*[a-zA-Z-][0-9a-zA-Z-]*] *)
Definition pre_id (s : string) : bool :=
  numeric_id s || build_id s && negb (all_chars ascii_digit s).

(** The groups of [_SEMVER_RE.match(version)]: the core numbers and the pre-release. *)
Definition semver_match (version : string) : option (string * string * string * option string) :=
  let '(main, build) := cut "+" (strip_newline version) in
  let '(core, pre) := cut "-" main in
  let build_ok := match build with Some b => forallb build_id (split_on "." b) | None => true end in
  let pre_ok := match pre with Some p => forallb pre_id (split_on "." p) | None => true end in
  match split_on "." core with
  | [major; minor; patch] =>
      if numeric_id major && numeric_id minor && numeric_id patch && build_ok && pre_ok
      then Some (major, minor, patch, pre) else None
  | _ => None
  end.

(** [int(s)] on decimal digits *)
Definition dec_value (s : string) : Z :=
  fold_left (λ n c, n * 10 + (Z.of_N (N_of_ascii c) - 48)) (String.list_ascii_of_string s) 0.

(** A pre-release identifier: [(0, n, "")] or [(1, 0, s)]. *)
Definition pre_part (s : string) : Z * (Z * string) :=
  if all_chars ascii_digit s && negb (String.eqb s "") then (0, (dec_value s, "")) else (1, (0, s)).

(** [(1,)] is [(1, [])]: after every [(0, parts)]. *)
Definition semver_key_type : Type := Z * (Z * (Z * (Z * list (Z * (Z * string))))).

Definition semver_leb : semver_key_type → semver_key_type → bool :=
  pair_leb Z.leb (pair_leb Z.leb (pair_leb Z.leb (pair_leb Z.leb
    (list_leb (pair_leb Z.leb (pair_leb Z.leb String.leb)))))).

#[export] Instance semver_leb_order : LebOrder semver_leb.
Proof. unfold semver_leb. apply _. Qed.

Definition semver_key (version : string) : res semver_key_type :=
  match semver_match version with
  | None => Raise (ValueError ("invalid semantic version: " +:+ py_repr_str version))
  | Some (major, minor, patch, pre) =>
      Ok (dec_value major, (dec_value minor, (dec_value patch,
           match pre with
           | None => (1, [])
           | Some p => (0, map pre_part (split_on "." p))
           end)))
  end.

(** [sorted(versions, key=semver_key)] *)
Definition sort_versions (versions : list string) : res (list string) :=
  keyed ← mapM_res (λ v, k ← semver_key v; Ok (k, v)) versions;
  Ok (map snd (sort_leb fst semver_leb keyed)).

(** The precedence example of SemVer 2.0.0, section 11. *)
Example semver_precedence :
  sort_versions ["1.0.0"; "1.0.0-rc.1"; "1.0.0-beta.11"; "1.0.0-beta.2"; "1.0.0-beta";
                 "1.0.0-alpha.beta"; "1.0.0-alpha.1"; "1.0.0-alpha"; "0.9.10+build.7"] =
  Ok ["0.9.10+build.7"; "1.0.0-alpha"; "1.0.0-alpha.1"; "1.0.0-alpha.beta"; "1.0.0-beta";
      "1.0.0-beta.2"; "1.0.0-beta.11"; "1.0.0-rc.1"; "1.0.0"].
Proof. vm_compute. reflexivity. Qed.

Example semver_rejects :
  map semver_match ["1.0"; "01.0.0"; "1.0.0-"; "1.0.0-01"; "1.0.0+"; "v1.0.0"; "1.0.0-a..b"] =
  repeat None 7.
Proof. vm_compute. reflexivity. Qed.

(** ** Sorted versions *)

Lemma sort_versions_ok versions sorted :
  sort_versions versions = Ok sorted →
  ∃ keyed, map snd keyed = versions ∧ Forall (λ kv, semver_key kv.2 = Ok kv.1) keyed ∧
           sorted = map snd (sort_leb fst semver_leb keyed).
Proof.
  unfold sort_versions. intros H. apply res_bind_ok in H as (keyed & Hk & [= <-]).
  apply mapM_res_ok in Hk. exists keyed.
  assert (map snd keyed = versions ∧ Forall (λ kv, semver_key kv.2 = Ok kv.1) keyed) as [Hm Hf]; [|done].
  induction Hk as [|v kv versions keyed Hv _ [<- ?]]; [by split|].
  apply res_bind_ok in Hv as (k & Hk' & [= <-]). simpl. by split; [|constructor].
Qed.

(** The last of the sorted versions is one of them, of greatest precedence. *)
Lemma sort_versions_last versions sorted v :
  sort_versions versions = Ok sorted → last sorted = Some v →
  v ∈ versions ∧ ∃ kv, semver_key v = Ok kv ∧
    ∀ w, w ∈ versions → ∃ kw, semver_key w = Ok kw ∧ semver_leb kw kv = true.
Proof.
  intros (keyed & <- & Hf & ->)%sort_versions_ok Hl. rewrite Forall_forall in Hf.
  assert (∃ k, last (sort_leb fst semver_leb keyed) = Some (k, v)) as (k & Hk).
  { change (map snd (sort_leb fst semver_leb keyed)) with (snd <$> sort_leb fst semver_leb keyed) in Hl.
    rewrite fmap_last in Hl. destruct (last _) as [[k v']|]; [|done]. injection Hl as ->. eauto. }
  assert ((k, v) ∈ keyed) as Hin by (rewrite <-(sort_leb_perm fst semver_leb); by apply last_Some_elem_of).
  split; [apply list_elem_of_fmap; by exists (k, v)|]. exists k. split; [by apply (Hf (k, v))|].
  intros w (kw & -> & Hw)%list_elem_of_fmap. exists kw.1. split; [by apply Hf|].
  by apply (sort_leb_last fst semver_leb keyed (k, v) kw Hk).
Qed.
