(* ===== verification/PyText.v ===== *)
(** Python's text and number conversions, shared by the components: [lower], [strip],
    [int(text)], [int(f)] and [int(v)]. *)

From S2P Require Import Prelude PyFloat PyVal Rbac Orders SemVer.

(** [s.lower()] of an ASCII text *)
Definition str_lower (s : string) : string := concat_map (λ c, String (lower_char c) "") s.

Fixpoint drop_spaces `{U : UnicodeData} (cs : list string) : list string :=
  match cs with
  | [] => []
  | c :: rest => if is_space c then drop_spaces rest else cs
  end.

(** [s.strip()] *)
Definition strip_chars `{U : UnicodeData} (s : string) : list string :=
  rev (drop_spaces (rev (drop_spaces (split_chars "" s)))).

(** [int(text)]: decimal digits, single underscores between them, a sign and
    spaces around; at most 4300 digits. *)
Fixpoint digit_groups (after_digit : bool) (s : string) : bool :=
  match s with
  | EmptyString => after_digit
  | String c r => if ascii_digit c then digit_groups true r
                  else Ascii.eqb c "_" && after_digit && digit_groups false r
  end.
Definition int_text `{U : UnicodeData} (text : string) : option Z :=
  let t := join "" (strip_chars text) in
  let '(neg, digits) := match t with
    | String c r => if Ascii.eqb c "-" then (true, r) else if Ascii.eqb c "+" then (false, r) else (false, t)
    | EmptyString => (false, t)
    end in
  let plain := concat_map (λ c, if Ascii.eqb c "_" then "" else String c "") digits in
  if digit_groups false digits && (String.length plain <=? 4300)%nat
  then Some (if neg : bool then - dec_value plain else dec_value plain) else None.

(** [int(f)] *)
Definition float_trunc (f : spec_float) : res Z :=
  match f with
  | S754_zero _ => Ok 0
  | S754_infinity _ => Raise (OverflowError "cannot convert float infinity to integer")
  | S754_nan => Raise (ValueError "cannot convert float NaN to integer")
  | S754_finite s m e =>
      let a := if 0 <=? e then Z.pos m * 2 ^ e else Z.pos m / 2 ^ (- e) in Ok (if s then - a else a)
  end.

(** [int(v)] *)
Definition py_int `{U : UnicodeData} (v : pyval) : res Z :=
  match v with
  | PInt z => Ok z
  | PBool b => Ok (if b then 1 else 0)
  | PFloat f => float_trunc f
  | PStr s =>
      match int_text s with
      | Some z => Ok z
      | None => Raise (ValueError ("invalid literal for int() with base 10: " +:+ py_repr_str s))
      end
  | _ => Raise (TypeError "int() argument must be a string, a bytes-like object or a real number")
  end.
