(* ===== verification/Regex.v ===== *)
(** The regular expressions of [re], as far as the program uses them on ASCII
    text: a backtracking matcher in continuation style, which tries the
    alternatives in order and repeats greedily, with the groups it captured;
    search, iteration over the matches, and [split].

    The matcher is structural: repetition is of single characters, which is all
    the program's patterns repeat.  It is shown to agree with the relation
    [accepts], which forgets the order of the attempts. *)

From S2P Require Import Prelude PyFloat PyVal Orders SemVer.

Inductive regex :=
| REps
| RChar (p : ascii → bool)
| RSeq (r1 r2 : regex)
| RAlt (r1 r2 : regex)
| RStar (p : ascii → bool)
| RGroup (n : nat) (r : regex)
| REnd.

(** Groups, the last capture first. *)
Definition captures := list (nat * string).

Definition group (n : nat) (c : captures) : option string :=
  snd <$> List.find (λ g, Nat.eqb g.1 n) c.

(** The part of [s] before its suffix [rest]. *)
Definition consumed (s rest : string) : string :=
  String.substring 0 (String.length s - String.length rest) s.

(** [$] without MULTILINE *)
Definition at_end (s : string) : bool := String.eqb s "" || String.eqb s (chr 10).

Section Match.
Context {X : Type}.

(** [p*]: the longest run first. *)
Fixpoint star (p : ascii → bool) (s : string) (k : string → option X) : option X :=
  match s with
  | EmptyString => k ""
  | String a s' =>
      if p a then match star p s' k with Some x => Some x | None => k s end else k s
  end.

Fixpoint rmatch (r : regex) (s : string) (c : captures) (k : string → captures → option X) : option X :=
  match r with
  | REps => k s c
  | RChar p => match s with String a s' => if p a then k s' c else None | EmptyString => None end
  | RSeq r1 r2 => rmatch r1 s c (λ s c, rmatch r2 s c k)
  | RAlt r1 r2 => match rmatch r1 s c k with Some x => Some x | None => rmatch r2 s c k end
  | RStar p => star p s (λ s, k s c)
  | RGroup n r => rmatch r s c (λ rest c, k rest ((n, consumed s rest) :: c))
  | REnd => if at_end s then k s c else None
  end.
End Match.

(** ** Patterns *)

Definition rseq (l : list regex) : regex := foldr RSeq REps l.
Definition rplus (p : ascii → bool) : regex := RSeq (RChar p) (RStar p).
Definition ropt (r : regex) : regex := RAlt r REps.

(** A text, and a text under IGNORECASE. *)
Definition rlit (s : string) : regex := rseq (map (λ a, RChar (Ascii.eqb a)) (String.list_ascii_of_string s)).
Definition same_letter (a b : ascii) : bool := Ascii.eqb (lower_char a) (lower_char b).
Definition rword (s : string) : regex :=
  rseq (map (λ a, RChar (same_letter a)) (String.list_ascii_of_string s)).

(** [\s], [\d], [[A-Za-z0-9_]] and [.] on ASCII text *)
Definition space_char (c : ascii) : bool := ascii_in 9 13 c || ascii_in 28 32 c.
Definition word_char (c : ascii) : bool :=
  ascii_upper c || ascii_lower c || ascii_digit c || Ascii.eqb c "_".
Definition not_newline (c : ascii) : bool := negb (Ascii.eqb c (ascii_of_N 10)).

(** ** Operations *)

(** [re.match(r, s)]: the rest of the text and the groups. *)
Definition re_match (r : regex) (s : string) : option (string * captures) :=
  rmatch r s [] (λ rest c, Some (rest, c)).

(** [re.fullmatch(r, s)] *)
Definition re_fullmatch (r : regex) (s : string) : option captures :=
  rmatch r s [] (λ rest c, if String.eqb rest "" then Some c else None).

(** [re.search(r, s)] *)
Fixpoint re_search (r : regex) (s : string) : option captures :=
  match re_match r s with
  | Some (_, c) => Some c
  | None => match s with EmptyString => None | String _ s => re_search r s end
  end.

(** [re.finditer(r, s)] for a pattern without empty matches; [skip] characters
    belong to the match before. *)
Fixpoint re_finditer (r : regex) (skip : nat) (s : string) : list captures :=
  match s with
  | EmptyString => []
  | String _ s' =>
      match skip with
      | S skip => re_finditer r skip s'
      | O =>
          match re_match r s with
          | Some (rest, c) => c :: re_finditer r (String.length s - String.length rest - 1) s'
          | None => re_finditer r 0 s'
          end
      end
  end.

(** [re.split(r, s)] for a pattern without groups and empty matches. *)
Fixpoint re_split (r : regex) (skip : nat) (piece s : string) : list string :=
  match s with
  | EmptyString => [piece]
  | String a s' =>
      match skip with
      | S skip => re_split r skip piece s'
      | O =>
          match re_match r s with
          | Some (rest, _) => piece :: re_split r (String.length s - String.length rest - 1) "" s'
          | None => re_split r 0 (piece +:+ String a "") s'
          end
      end
  end.

(** [s.strip()] *)
Fixpoint lstrip (s : string) : string :=
  match s with String c s' => if space_char c then lstrip s' else s | EmptyString => "" end.
Fixpoint rstrip (s : string) : string :=
  match s with
  | String c s' => let t := rstrip s' in if space_char c && String.eqb t "" then "" else String c t
  | EmptyString => ""
  end.
Definition strip (s : string) : string := rstrip (lstrip s).

(** * The matcher against the relation *)

Inductive accepts : regex → string → captures → string → captures → Prop :=
| acc_eps s c : accepts REps s c s c
| acc_char p a s c : p a = true → accepts (RChar p) (String a s) c s c
| acc_seq r1 r2 s1 c1 s2 c2 s3 c3 :
    accepts r1 s1 c1 s2 c2 → accepts r2 s2 c2 s3 c3 → accepts (RSeq r1 r2) s1 c1 s3 c3
| acc_left r1 r2 s c s' c' : accepts r1 s c s' c' → accepts (RAlt r1 r2) s c s' c'
| acc_right r1 r2 s c s' c' : accepts r2 s c s' c' → accepts (RAlt r1 r2) s c s' c'
| acc_stop p s c : accepts (RStar p) s c s c
| acc_more p a s c s' c' :
    p a = true → accepts (RStar p) s c s' c' → accepts (RStar p) (String a s) c s' c'
| acc_group n r s c s' c' :
    accepts r s c s' c' → accepts (RGroup n r) s c s' ((n, consumed s s') :: c')
| acc_end s c : at_end s = true → accepts REnd s c s c.

#[export] Hint Constructors accepts : gas.

Lemma star_sound {X} p s (k : string → option X) c x :
  star p s k = Some x → ∃ s', accepts (RStar p) s c s' c ∧ k s' = Some x.
Proof.
  induction s as [|a s IH]; cbn [star]; [eauto with gas|].
  destruct (p a) eqn:Hp; [|eauto with gas]. destruct (star p s k) eqn:Hs; [|eauto with gas].
  intros [= ->]. destruct (IH eq_refl) as (s' & Ha & Hk). eauto with gas.
Qed.

Lemma rmatch_sound {X} r s c (k : string → captures → option X) x :
  rmatch r s c k = Some x → ∃ s' c', accepts r s c s' c' ∧ k s' c' = Some x.
Proof.
  revert s c k. induction r as [|p|r1 IH1 r2 IH2|r1 IH1 r2 IH2|p|n r IH|]; intros s c k; cbn [rmatch]; intros H.
  - eauto with gas.
  - destruct s as [|a s]; [done|]. destruct (p a) eqn:Hp; [|done]. eauto with gas.
  - apply IH1 in H as (s1 & c1 & Ha & H). apply IH2 in H as (s2 & c2 & Hb & H). eauto with gas.
  - destruct (rmatch r1 s c k) eqn:H1.
    + injection H as <-. apply IH1 in H1 as (s' & c' & ? & ?). eauto with gas.
    + apply IH2 in H as (s' & c' & ? & ?). eauto with gas.
  - apply (star_sound _ _ _ c) in H as (s' & ? & ?). eauto with gas.
  - apply IH in H as (s' & c' & ? & ?). eauto with gas.
  - destruct (at_end s) eqn:He; [|done]. eauto with gas.
Qed.

Lemma star_complete {X} p s c s' c' (k : string → option X) :
  accepts (RStar p) s c s' c' → c' = c ∧ (k s' ≠ None → star p s k ≠ None).
Proof.
  intros H. remember (RStar p) as r eqn:Hr.
  induction H as [| | | | |p' s c|p' a s c s' c' Hp _ IH| |]; try discriminate; injection Hr as ->.
  - split; [done|]. destruct s; cbn [star]; [done|]. destruct (p a); [|done]. by destruct (star p s k).
  - destruct (IH eq_refl) as [-> Hk]. split; [done|]. intros Hn. cbn [star]. rewrite Hp.
    specialize (Hk Hn). by destruct (star p s k).
Qed.

Lemma rmatch_complete {X} r s c s' c' (k : string → captures → option X) :
  accepts r s c s' c' → k s' c' ≠ None → rmatch r s c k ≠ None.
Proof.
  intros H. revert k. induction H as [| | |r1 r2 s c s' c' _ IH|r1 r2 s c s' c' _ IH|p s c|p a s c s' c' Hp H IH| |];
    intros k Hk; cbn [rmatch].
  - done.
  - by rewrite H.
  - auto.
  - specialize (IH k Hk). by destruct (rmatch r1 s c k).
  - specialize (IH k Hk). by destruct (rmatch r1 s c k), (rmatch r2 s c k).
  - by apply (star_complete p s c s c (λ s, k s c) (acc_stop p s c)).
  - destruct (star_complete p (String a s) c s' c' (λ s, k s c) (acc_more p a s c s' c' Hp H)) as [-> Hs].
    by apply Hs.
  - auto.
  - by rewrite H.
Qed.

(** The matcher finds a match exactly when the relation has one, and what it
    finds is one. *)
Lemma re_match_accepts r s :
  (re_match r s = None ↔ ∀ s' c', ¬ accepts r s [] s' c') ∧
  (∀ s' c', re_match r s = Some (s', c') → accepts r s [] s' c').
Proof.
  unfold re_match. assert (∀ s' c', rmatch r s [] (λ rest c, Some (rest, c)) = Some (s', c') →
                           accepts r s [] s' c') as Hs.
  { intros s' c' H. apply rmatch_sound in H as (? & ? & ? & [= <- <-]). done. }
  split; [|done]. split.
  - intros H s' c' Ha. by apply (rmatch_complete _ _ _ _ _ (λ rest c, Some (rest, c)) Ha) in H.
  - intros H. destruct (rmatch _ _ _ _) as [[s' c']|] eqn:E; [|done]. by destruct (H s' c'); auto.
Qed.
