(* ===== verification/Governance.v ===== *)
(** governance.py: governing rules as mappings or sentences, and their
    translation into a policy.

    Sentences are read with the regular expressions of the source (Regex); a
    sentence outside ASCII is outside the model.  The file shows what policy a
    list of rules becomes, and that a sentence written in the grammar the
    patterns are meant for is read back as the rule it states. *)

From S2P Require Import Prelude PyFloat PyVal Json Crypto Models Trust Policy Arbiter Rbac Orders SemVer PyText Regex.

Record GovernanceRule := {
  gr_action : string;
  gr_required_fields : list string;
  gr_exact_fields : pydict;
  gr_required_context : list string;
  gr_exact_context : pydict;
  gr_description : string;
  gr_required_approvals : Z
}.

(** ** Rules given as mappings *)

Definition read_exact_mapping (what : string) (v : pyval) : res pydict :=
  match v with
  | PDict d => Ok d
  | _ => Raise (ValueError (what +:+ " must be a mapping of field->value"))
  end.

Definition none_or (default v : pyval) : pyval := if is_none v then default else v.

(** [tuple(str(x) for x in v)] *)
Definition str_tuple (v : pyval) : res (list string) := l ← py_tuple v; Ok (map py_str l).

Definition approvals_of (d : pydict) : pyval :=
  none_or (PInt 0)
    (dict_get_or "required_approvals"
      (dict_get_or "approval_threshold" (dict_get_or "approvals_required" (PInt 0) d) d) d).

Definition from_mapping (payload : pydict) : res GovernanceRule :=
  let action := py_str (py_or (py_or (dict_get "action" payload) (dict_get "name" payload))
                              (dict_get "rule" payload)) in
  fail_if (String.eqb action "") (ValueError "governance rule must include an action") ;;
  fields ← str_tuple (dict_get_or "required_fields" (PList []) payload);
  exact ← read_exact_mapping "exact_fields" (dict_get_or "exact_fields" (PDict []) payload);
  context ← str_tuple (none_or (PList []) (dict_get_or "required_context" (PList []) payload));
  exact_context ← read_exact_mapping "exact_context"
                    (none_or (PDict []) (dict_get_or "exact_context" (PDict []) payload));
  approvals ← match approvals_of payload with
              | PInt z => fail_if (z <? 0) (ValueError "required_approvals must be non-negative") ;; Ok z
              | _ => Raise (ValueError "required_approvals must be a non-negative integer")
              end;
  Ok {| gr_action := action; gr_required_fields := fields; gr_exact_fields := exact;
        gr_required_context := sort_strings (dedup context); gr_exact_context := exact_context;
        gr_description := py_str (dict_get_or "description" (PStr "") payload);
        gr_required_approvals := approvals |}.

(** ** Sentences *)

Definition spaces0 : regex := RStar space_char.
Definition spaces1 : regex := rplus space_char.
Definition word1 : regex := rplus word_char.

(** allow|require WORD when|if|for REST, to the end *)
Definition conditional_pattern : regex :=
  rseq [RAlt (rword "allow") (rword "require"); spaces1; RGroup 1 word1; spaces1;
        RAlt (rword "when") (RAlt (rword "if") (rword "for")); spaces1;
        RGroup 2 (RStar not_newline); REnd].

(** WORD is|are present *)
Definition presence_pattern : regex :=
  rseq [RGroup 1 word1; spaces1; RAlt (rword "is") (rword "are"); spaces1; rword "present"].

(** approval|approvals|approval_count, a comparison, DIGITS *)
Definition approval_pattern : regex :=
  rseq [RAlt (RSeq (rword "approval") (ropt (rword "s"))) (rword "approval_count"); spaces0;
        RAlt (rlit ">=") (RAlt (rlit "==") (RAlt (rlit "=") (rlit ">"))); spaces0;
        RGroup 1 (rplus ascii_digit)].

Definition double_quote : ascii := ascii_of_N 34.
Definition single_quote : ascii := ascii_of_N 39.
Definition quoted (q : ascii) (n : nat) : regex :=
  rseq [RChar (Ascii.eqb q); RGroup n (RStar (λ c, negb (Ascii.eqb c q))); RChar (Ascii.eqb q)].

(** One of letters, digits and [@._-]. *)
Definition bare_char (c : ascii) : bool :=
  ascii_upper c || ascii_lower c || ascii_digit c || Ascii.eqb c "@" || Ascii.eqb c "." ||
  Ascii.eqb c "_" || Ascii.eqb c "-".

(** WORD, an equals sign or two, and a value in double quotes, in single
    quotes or bare *)
Definition exact_pattern : regex :=
  rseq [RGroup 1 word1; spaces0; RAlt (rlit "==") (rlit "="); spaces0;
        RAlt (quoted double_quote 2) (RAlt (quoted single_quote 3) (RGroup 4 (rplus bare_char)))].

(** require WORD WORD, one of == = is, and a value to the end *)
Definition requirement_pattern : regex :=
  rseq [rword "require"; spaces1; RGroup 1 word1; spaces1; RGroup 2 word1; spaces0;
        RAlt (rlit "==") (RAlt (rlit "=") (rword "is")); spaces0;
        RGroup 3 (rplus not_newline); REnd].

(** a comma, the word and, or spaces *)
Definition separator_pattern : regex :=
  RAlt (rseq [spaces0; RChar (Ascii.eqb ","); spaces0])
    (RAlt (rseq [spaces1; rlit "and"; spaces1]) spaces1).

Definition split_fields (text : string) : list string :=
  if String.eqb text "" then []
  else List.filter (λ f, negb (String.eqb f ""))
         (map strip (List.filter (λ p, negb (String.eqb (strip p) ""))
                       (re_split separator_pattern 0 "" (strip text)))).

(** [int(text)] of a sign and digits *)
Definition literal_int (s : string) : res pyval :=
  let '(neg, digits) := match s with
                        | String c r => if Ascii.eqb c "-" then (true, r) else (false, s)
                        | EmptyString => (false, s)
                        end in
  if (String.length digits <=? 4300)%nat
  then Ok (PInt (if neg : bool then - dec_value digits else dec_value digits))
  else Raise (ValueError "Exceeds the limit (4300 digits) for integer string conversion").

Definition starts_ends (q : ascii) (s : string) : bool :=
  match s with
  | EmptyString => false
  | String c _ =>
      Ascii.eqb c q &&
      match String.get (String.length s - 1) s with Some d => Ascii.eqb d q | None => false end
  end.

(** [s[1:-1]] *)
Definition inner (s : string) : string := String.substring 1 (String.length s - 2) s.

Definition normalize_literal (value : string) : res pyval :=
  let value := strip value in
  if String.eqb value "" then Ok (PStr value)
  else if starts_ends double_quote value || starts_ends single_quote value then Ok (PStr (inner value))
  else if str_in (str_lower value) ["true"; "false"] then Ok (PBool (String.eqb (str_lower value) "true"))
  else match re_fullmatch (RSeq (ropt (rlit "-")) (rplus ascii_digit)) value with
       | Some _ => literal_int value
       | None => Ok (PStr value)
       end.

Definition captured (n : nat) (c : captures) : string := default "" (group n c).

(** [next(v for v in (quoted_double, quoted_single, bare) if v is not None)] *)
Definition first_group (c : captures) : string :=
  match group 2 c with
  | Some v => v
  | None => match group 3 c with Some v => v | None => captured 4 c end
  end.

(** The loop over the exact constraints. *)
Fixpoint read_exacts (matches : list captures) (exact : pydict) : res pydict :=
  match matches with
  | [] => Ok exact
  | c :: matches =>
      v ← normalize_literal (first_group c);
      read_exacts matches (assoc_set (captured 1 c) v exact)
  end.

Definition conditional_rule (text action remainder : string) : res GovernanceRule :=
  let presence := map (captured 1) (re_finditer presence_pattern 0 remainder) in
  let fields := match presence with [] => [] | _ => split_fields (join " " presence) end in
  approvals ← match re_search approval_pattern remainder with
              | Some c => match literal_int (captured 1 c) with
                          | Ok (PInt z) => Ok z
                          | Ok _ => Ok 0
                          | Raise e => Raise e
                          end
              | None => Ok 0
              end;
  exact ← read_exacts (re_finditer exact_pattern 0 remainder) [];
  fail_if (match fields, exact with [], [] => approvals =? 0 | _, _ => false end)
    (ValueError ("unsupported governance rule: " +:+ text)) ;;
  Ok {| gr_action := action; gr_required_fields := dedup fields; gr_exact_fields := exact;
        gr_required_context := []; gr_exact_context := []; gr_description := text;
        gr_required_approvals := approvals |}.

Definition requirement_rule (text action field value : string) : res GovernanceRule :=
  v ← normalize_literal value;
  Ok {| gr_action := action; gr_required_fields := []; gr_exact_fields := [(field, v)];
        gr_required_context := []; gr_exact_context := []; gr_description := text;
        gr_required_approvals := 0 |}.

Definition sentence_rule (item : string) : res GovernanceRule :=
  let text := strip item in
  if String.eqb text "" then Raise (ValueError "governance rule strings must not be empty")
  else match re_match conditional_pattern text with
       | Some (_, c) => conditional_rule text (captured 1 c) (captured 2 c)
       | None =>
           match re_match requirement_pattern text with
           | Some (_, c) => requirement_rule text (captured 1 c) (captured 2 c) (captured 3 c)
           | None => Raise (ValueError ("unsupported governance rule syntax: " +:+ text))
           end
       end.

Definition coerce_rule (item : pyval) : res GovernanceRule :=
  match item with
  | PDict d => from_mapping d
  | PStr s => if ascii_str s then sentence_rule s else unmodelled "a sentence outside ASCII"
  | _ => Raise (ValueError "governance rule items must be mappings or strings")
  end.

(** ** Translation *)

Definition merge_rule (current rule : GovernanceRule) : GovernanceRule := {|
  gr_action := gr_action rule;
  gr_required_fields := dedup (gr_required_fields current ++ gr_required_fields rule);
  gr_exact_fields := assoc_update (gr_exact_fields current) (gr_exact_fields rule);
  gr_required_context := sort_strings (dedup (gr_required_context current ++ gr_required_context rule));
  gr_exact_context := assoc_update (gr_exact_context current) (gr_exact_context rule);
  gr_description := if String.eqb (gr_description current) "" then gr_description rule
                    else gr_description current;
  gr_required_approvals := Z.max (gr_required_approvals current) (gr_required_approvals rule) |}.

Definition add_rule (rule : GovernanceRule) (normalized : list (string * GovernanceRule))
    : list (string * GovernanceRule) :=
  assoc_set (gr_action rule)
    (match assoc_get (gr_action rule) normalized with
     | None => rule
     | Some current => merge_rule current rule
     end) normalized.

Fixpoint normalize_rules (items : list pyval) (normalized : list (string * GovernanceRule))
    : res (list (string * GovernanceRule)) :=
  match items with
  | [] => Ok normalized
  | item :: items => rule ← coerce_rule item; normalize_rules items (add_rule rule normalized)
  end.

(** The constructor of [Policy] with the arguments the translator gives. *)
Definition translated_args (pid : string) (actions : list string) (fields : list (string * list string))
    (exact : list (string * pydict)) (context : list string) (exact_context : pydict)
    (max_bytes max_ttl : Z) (approvals : list (string * Z)) : PolicyArgs := {|
  pa_policy_id := PStr pid;
  pa_allowed_actions := map PStr actions;
  pa_required_fields := map (λ kv, (kv.1, map PStr kv.2)) fields;
  pa_exact_fields := PDict (map (λ kv, (kv.1, PDict kv.2)) exact);
  pa_required_context := map PStr context;
  pa_exact_context := PDict exact_context;
  pa_max_request_bytes := PInt max_bytes;
  pa_max_ttl_seconds := PInt max_ttl;
  pa_required_approvals := PDict (map (λ kv, (kv.1, PInt kv.2)) approvals);
  pa_max_numeric_fields := PDict [];
  pa_required_mesh_inputs := PDict [];
  pa_required_mesh_sources := [];
  pa_mesh_required_actions := [];
  pa_mesh_required_environments := [] |}.

Definition rules_policy (pid : string) (normalized : list (string * GovernanceRule)) : res Policy :=
  let rules := sort_by fst normalized in
  policy_post_init (translated_args pid
    (sort_strings (map fst normalized))
    (map (λ kr, (kr.1, gr_required_fields kr.2)) rules)
    (map (λ kr, (kr.1, gr_exact_fields kr.2)) rules)
    (sort_strings (dedup (concat (map (λ kr, gr_required_context kr.2) rules))))
    (fold_left (λ c kr, assoc_update c (gr_exact_context kr.2)) rules [])
    65536 300
    (map (λ kr, (kr.1, gr_required_approvals kr.2))
       (List.filter (λ kr, 0 <? gr_required_approvals kr.2) rules))).

Definition translate_items (pid : string) (source : pyval) : res Policy :=
  items ← py_tuple source;
  normalized ← normalize_rules items [];
  fail_if (match normalized with [] => true | _ => false end)
    (ValueError "no governance rules were provided") ;;
  rules_policy pid normalized.

Section Translate.
Context `{U : UnicodeData}.

(** [required_approvals] of a source mapping: per action, or one for all. *)
Definition source_approvals (d : pydict) (actions : list string) : res (list (string * Z)) :=
  match dict_get_or "required_approvals" (PDict []) d with
  | PDict per_action => mapM_res (λ kv : string * pyval, n ← py_int kv.2; Ok (kv.1, n)) per_action
  | PInt n => Ok (assoc_update [] (map (λ a, (a, n)) actions))
  | _ => Ok []
  end.

(** What a source mapping adds to the policy of its rules. *)
Definition translate_overrides (d : pydict) (policy : Policy) : res Policy :=
  context ← str_tuple (dict_get_or "required_context" (PList []) d);
  exact_context ← read_exact_mapping "exact_context"
                    (none_or (PDict []) (dict_get_or "exact_context" (PDict []) d));
  approvals ← source_approvals d (allowed_actions policy);
  match context, exact_context, approvals with
  | [], [], [] => Ok policy
  | _, _, _ =>
      policy_post_init (translated_args (policy_id policy) (allowed_actions policy)
        (required_fields policy) (exact_fields policy)
        (sort_strings (dedup (required_context policy ++ context)))
        (assoc_update (Policy.exact_context policy) exact_context)
        (max_request_bytes policy) (max_ttl_seconds policy)
        (assoc_update (required_approvals policy) approvals))
  end.

(** [translate]; [own] is [self.policy_id]. *)
Fixpoint translate (own : string) (pid : option string) (source : pyval) {struct source} : res Policy :=
  let given := match pid with Some p => if String.eqb p "" then own else p | None => own end in
  match source with
  | PDict d =>
      let effective := py_str (py_or (dict_get "policy_id" d) (PStr given)) in
      let missing := ValueError "source mapping must include a 'rules' collection" in
      policy ← (fix rules (kvs : pydict) : res Policy :=
                  match kvs with
                  | [] => Raise missing
                  | (k, v) :: kvs =>
                      if String.eqb k "rules"
                      then (if is_none v then Raise missing else translate own (Some effective) v)
                      else rules kvs
                  end) d;
      translate_overrides d policy
  | _ => translate_items given source
  end.
End Translate.

(** * Lemmas: what rules become *)

Definition rules_for (a : string) (rs : list GovernanceRule) : list GovernanceRule :=
  List.filter (λ r, String.eqb (gr_action r) a) rs.

(** The rules of one action as one rule. *)
Definition combined (rs : list GovernanceRule) : option GovernanceRule :=
  match rs with [] => None | r :: rs => Some (fold_left merge_rule rs r) end.

(** The value the last rule that sets [f] gives it. *)
Definition last_setting (get : GovernanceRule → pydict) (f : string) (rs : list GovernanceRule) : option pyval :=
  fold_left (λ v r, match assoc_get f (get r) with Some x => Some x | None => v end) rs None.

Definition max_approvals (rs : list GovernanceRule) : Z :=
  fold_left (λ n r, Z.max n (gr_required_approvals r)) rs 0.

(** What [from_mapping] and the sentences give, unless a name is empty. *)
Record rule_ok (r : GovernanceRule) : Prop := {
  ro_action : gr_action r ≠ "";
  ro_fields : Forall nonempty (gr_required_fields r);
  ro_context : Forall nonempty (gr_required_context r);
  ro_exact : NoDup (map fst (gr_exact_fields r));
  ro_exact_context : NoDup (map fst (gr_exact_context r));
  ro_approvals : 0 ≤ gr_required_approvals r
}.

Lemma normalize_rules_spec items n :
  normalize_rules items n =
  (rs ← mapM_res coerce_rule items; Ok (fold_left (λ n r, add_rule r n) rs n)).
Proof.
  revert n. induction items as [|v items IH]; intros n; [done|]. cbn [normalize_rules mapM_res].
  unfold mbind, res_bind. destruct (coerce_rule v) as [r|e]; [|done]. rewrite IH.
  unfold mbind, res_bind. by destruct (mapM_res coerce_rule items).
Qed.

Lemma add_rules_get a rs n :
  assoc_get a (fold_left (λ n r, add_rule r n) rs n) =
  match assoc_get a n with
  | Some c => Some (fold_left merge_rule (rules_for a rs) c)
  | None => combined (rules_for a rs)
  end.
Proof.
  revert n. induction rs as [|r rs IH]; intros n; cbn [fold_left rules_for List.filter].
  - by destruct (assoc_get a n).
  - rewrite IH. unfold add_rule. fold (rules_for a rs).
    destruct (String.eqb_spec (gr_action r) a) as [<-|Hne].
    + rewrite assoc_get_set_eq. by destruct (assoc_get (gr_action r) n).
    + by rewrite assoc_get_set_ne.
Qed.

Lemma add_rules_nodup rs n :
  List.NoDup (map fst n) → List.NoDup (map fst (fold_left (λ n r, add_rule r n) rs n)).
Proof.
  revert n. induction rs as [|r rs IH]; intros n Hn; cbn [fold_left]; [done|].
  apply IH. unfold add_rule. auto with gas.
Qed.

Lemma combined_spec r rs :
  let m := fold_left merge_rule rs r in
  (∀ f, f ∈ gr_required_fields m ↔ ∃ x, x ∈ r :: rs ∧ f ∈ gr_required_fields x) ∧
  (∀ c, c ∈ gr_required_context m ↔ ∃ x, x ∈ r :: rs ∧ c ∈ gr_required_context x).
Proof.
  revert r. induction rs as [|y rs IH]; intros r; cbn [fold_left].
  - split; intros ?; set_solver.
  - specialize (IH (merge_rule r y)) as [Hf Hc]. split; intros f; rewrite ?Hf, ?Hc; clear.
    + split.
      * intros (x & [->|Hx]%elem_of_cons & H); [|set_solver].
        cbn [merge_rule gr_required_fields] in H. rewrite elem_of_dedup in H. set_solver.
      * intros (x & Hx & H). rewrite !elem_of_cons in Hx.
        assert (x = r ∨ x = y ∨ x ∈ rs) as [Hy|[Hy|Hy]] by naive_solver;
          [exists (merge_rule r y)..|exists x]; cbn [merge_rule gr_required_fields];
          rewrite ?elem_of_dedup; set_solver.
    + split.
      * intros (x & [->|Hx]%elem_of_cons & H); [|set_solver].
        cbn [merge_rule gr_required_context] in H. rewrite elem_of_sorted_dedup in H. set_solver.
      * intros (x & Hx & H). rewrite !elem_of_cons in Hx.
        assert (x = r ∨ x = y ∨ x ∈ rs) as [Hy|[Hy|Hy]] by naive_solver;
          [exists (merge_rule r y)..|exists x]; cbn [merge_rule gr_required_context];
          rewrite ?elem_of_sorted_dedup; set_solver.
Qed.

Lemma merge_rule_ok r x : rule_ok r → rule_ok x → rule_ok (merge_rule r x).
Proof.
  intros [] []. split; cbn [merge_rule gr_action gr_required_fields gr_exact_fields gr_required_context
    gr_exact_context gr_required_approvals]; try done.
  - apply Forall_forall. intros f. rewrite elem_of_dedup, elem_of_app, !Forall_forall in *. naive_solver.
  - apply Forall_forall. intros f. rewrite elem_of_sorted_dedup, elem_of_app, !Forall_forall in *. naive_solver.
  - apply NoDup_ListNoDup, assoc_update_NoDup. by apply NoDup_ListNoDup.
  - apply NoDup_ListNoDup, assoc_update_NoDup. by apply NoDup_ListNoDup.
  - lia.
Qed.

Lemma combined_ok r rs : rule_ok r → Forall rule_ok rs → rule_ok (fold_left merge_rule rs r).
Proof.
  intros Hr H. revert r Hr. induction H as [|x rs Hx _ IH]; intros r Hr; [done|].
  apply IH. by apply merge_rule_ok.
Qed.

(** Merging keeps the last setting and the largest quorum. *)
Lemma combined_exact r rs f :
  Forall rule_ok rs →
  assoc_get f (gr_exact_fields (fold_left merge_rule rs r)) = last_setting gr_exact_fields f (r :: rs) ∧
  assoc_get f (gr_exact_context (fold_left merge_rule rs r)) = last_setting gr_exact_context f (r :: rs).
Proof.
  unfold last_setting. cbn [fold_left]. intros H. revert r.
  induction H as [|x rs Hx _ IH]; intros r; cbn [fold_left].
  - by destruct (assoc_get f (gr_exact_fields r)), (assoc_get f (gr_exact_context r)).
  - destruct (IH (merge_rule r x)) as [-> ->]. cbn [merge_rule gr_exact_fields gr_exact_context].
    destruct Hx as [_ _ _ H1 H2 _].
    rewrite !assoc_get_update by (by apply NoDup_ListNoDup).
    by destruct (assoc_get f (gr_exact_fields x)), (assoc_get f (gr_exact_fields r)),
      (assoc_get f (gr_exact_context x)), (assoc_get f (gr_exact_context r)).
Qed.

Lemma combined_approvals r rs n :
  Z.max n (gr_required_approvals (fold_left merge_rule rs r)) =
  fold_left (λ n r, Z.max n (gr_required_approvals r)) (r :: rs) n.
Proof.
  revert r n. induction rs as [|x rs IH]; intros r n; [done|]. cbn [fold_left] in *.
  rewrite (IH (merge_rule r x) n). cbn [merge_rule gr_required_approvals]. by rewrite Z.max_assoc.
Qed.

(** ** The policy of the rules *)

Definition policy_of_rules (pid : string) (normalized : list (string * GovernanceRule)) : Policy :=
  let rules := sort_by fst normalized in {|
  policy_id := pid;
  allowed_actions := sort_strings (map fst normalized);
  required_fields := map (λ kr, (kr.1, gr_required_fields kr.2)) rules;
  exact_fields := map (λ kr, (kr.1, gr_exact_fields kr.2)) rules;
  required_context := sort_strings (dedup (concat (map (λ kr, gr_required_context kr.2) rules)));
  exact_context := fold_left (λ c kr, assoc_update c (gr_exact_context kr.2)) rules [];
  max_request_bytes := 65536;
  max_ttl_seconds := 300;
  required_approvals := map (λ kr, (kr.1, gr_required_approvals kr.2))
    (List.filter (λ kr, 0 <? gr_required_approvals kr.2) rules);
  max_numeric_fields := []; required_mesh_inputs := []; required_mesh_sources := [];
  mesh_required_actions := []; mesh_required_environments := [] |}.

Lemma str_sorted_sort l : str_sorted (sort_strings l) = true.
Proof.
  pose proof (sort_by_Sorted (λ s : string, s) l) as H.
  induction H as [|x xs _ IH Hhd]; [done|]. destruct Hhd as [|y xs Hxy]; [done|].
  cbn [str_sorted] in *. rewrite IH, andb_true_r. unfold key_le, String.le in Hxy. by destruct (String.leb x y).
Qed.

Definition rule_entry (kr : string * GovernanceRule) : Prop := kr.1 = gr_action kr.2 ∧ rule_ok kr.2.

Lemma add_rules_entries rs n :
  Forall rule_entry n → Forall rule_ok rs → Forall rule_entry (fold_left (λ n r, add_rule r n) rs n).
Proof.
  intros Hn H. revert n Hn. induction H as [|r rs Hr _ IH]; intros n Hn; [done|]. cbn [fold_left].
  apply IH. apply (assoc_set_Forall (λ k v, rule_entry (k, v))); [|by apply Forall_forall; intros [] ?;
    rewrite Forall_forall in Hn; apply Hn].
  split; destruct (assoc_get (gr_action r) n) as [c|] eqn:E; try done.
  apply merge_rule_ok; [|done]. apply assoc_get_In, list_elem_of_In in E.
  rewrite Forall_forall in Hn. by apply Hn in E as [_ ?].
Qed.

Lemma policy_of_rules_valid pid n :
  pid ≠ "" → Forall rule_entry n → policy_valid (policy_of_rules pid n).
Proof.
  intros Hpid Hn.
  assert (∀ kr, kr ∈ sort_by fst n → rule_entry kr) as Hs.
  { intros kr. rewrite sort_by_Permutation. by apply Forall_forall. }
  split; cbn [policy_id policy_of_rules allowed_actions required_fields exact_fields required_context
    exact_context max_request_bytes max_ttl_seconds required_approvals max_numeric_fields
    required_mesh_inputs required_mesh_sources mesh_required_actions mesh_required_environments];
    try done.
  - split; [|apply str_sorted_sort]. rewrite sort_by_Permutation. apply Forall_forall.
    intros a ((k & r) & -> & [E Hr]%(proj1 (Forall_forall _ _) Hn))%list_elem_of_fmap. cbn in *. subst k.
    by destruct Hr.
  - split; [|apply str_sorted_sort]. apply Forall_forall. intros c.
    rewrite elem_of_sorted_dedup, list_elem_of_In, in_concat.
    intros (l & ((k & r) & <- & Hin%list_elem_of_In%Hs)%in_map_iff & Hc%list_elem_of_In).
    destruct Hin as [_ [_ _ Hx _ _ _]]. rewrite Forall_forall in Hx. by apply Hx.
  - apply Forall_forall. intros kv ((k & r) & -> & [E Hr]%Hs)%list_elem_of_fmap. cbn in *. subst k.
    by destruct Hr.
  - apply Forall_forall. intros kv ((k & r) & -> & [E Hr]%Hs)%list_elem_of_fmap. cbn in *. subst k.
    by destruct Hr.
  - apply Forall_forall. intros kv ((k & r) & -> & Hin)%list_elem_of_fmap.
    apply list_elem_of_In, filter_In in Hin as [[E Hr]%list_elem_of_In%Hs _]. cbn in *. subst k.
    by destruct Hr.
Qed.

Lemma rules_policy_ok pid n :
  pid ≠ "" → Forall rule_entry n → rules_policy pid n = Ok (policy_of_rules pid n).
Proof. intros Hpid Hn. by apply (policy_post_init_args (policy_of_rules pid n)), policy_of_rules_valid. Qed.

Lemma last_setting_app get f rs r :
  last_setting get f (rs ++ [r]) =
  match assoc_get f (get r) with Some x => Some x | None => last_setting get f rs end.
Proof. unfold last_setting. by rewrite fold_left_app. Qed.

(** A setting that is kept was made by some rule, and every made one is kept. *)
Lemma last_setting_some get f rs :
  (is_Some (last_setting get f rs) ↔ ∃ r, r ∈ rs ∧ is_Some (assoc_get f (get r))) ∧
  (∀ v, last_setting get f rs = Some v → ∃ r, r ∈ rs ∧ assoc_get f (get r) = Some v).
Proof.
  induction rs as [|r rs [IH1 IH2]] using rev_ind.
  - split; [|done]. split; [by intros []|]. by intros (? & ?%elem_of_nil & _).
  - rewrite last_setting_app. destruct (assoc_get f (get r)) as [x|] eqn:E.
    + split; [|intros v [= <-]; exists r; set_solver]. split; [intros _; exists r; set_solver|eauto].
    + split.
      * rewrite IH1. split; intros (y & Hy & Hs); exists y; [set_solver|].
        apply elem_of_app in Hy as [Hy| ->%list_elem_of_singleton]; [done|]. rewrite E in Hs. by destruct Hs.
      * intros v (y & Hy & Hs)%IH2. exists y. set_solver.
Qed.

Lemma context_settings rules f :
  Forall rule_entry rules →
  assoc_get f (fold_left (λ c (kr : string * GovernanceRule), assoc_update c (gr_exact_context kr.2)) rules []) =
  last_setting gr_exact_context f (map snd rules).
Proof.
  intros H. induction rules as [|[k r] rules IH] using rev_ind; [done|].
  apply Forall_app in H as [H [Hr _]%Forall_cons]. rewrite fold_left_app, map_app. cbn [fold_left map snd].
  rewrite last_setting_app, assoc_get_update, IH by (done || apply NoDup_ListNoDup, Hr). done.
Qed.

Lemma rules_for_elem a rs r : r ∈ rules_for a rs ↔ r ∈ rs ∧ gr_action r = a.
Proof. unfold rules_for. rewrite !list_elem_of_In, filter_In, String.eqb_eq. done. Qed.

Lemma combined_none a rs : combined (rules_for a rs) = None ↔ ¬ ∃ r, r ∈ rs ∧ gr_action r = a.
Proof.
  setoid_rewrite <-rules_for_elem. destruct (rules_for a rs) as [|r l]; cbn; [set_solver|].
  split; [done|]. intros H. destruct H. exists r. set_solver.
Qed.

(** ** What the policy of the rules demands *)

Lemma last_setting_concat get f rs1 rs2 :
  last_setting get f (rs1 ++ rs2) =
  match last_setting get f rs2 with Some x => Some x | None => last_setting get f rs1 end.
Proof.
  induction rs2 as [|r rs2 IH] using rev_ind; [by rewrite app_nil_r|].
  rewrite app_assoc, !last_setting_app, IH. by destruct (assoc_get f (get r)).
Qed.

(** The rules grouped by action, the actions in their order. *)
Definition by_action_name (rs : list GovernanceRule) : list GovernanceRule :=
  flat_map (λ a, rules_for a rs) (sort_strings (dedup (map gr_action rs))).

Definition normalized_rules (rs : list GovernanceRule) : list (string * GovernanceRule) :=
  fold_left (λ n r, add_rule r n) rs [].

Section Normalized.
Context (rs : list GovernanceRule) (Hrs : Forall rule_ok rs).

Lemma normalized_get a : assoc_get a (normalized_rules rs) = combined (rules_for a rs).
Proof. apply add_rules_get. Qed.

Lemma normalized_nodup : NoDup (map fst (normalized_rules rs)).
Proof. apply NoDup_ListNoDup, add_rules_nodup. constructor. Qed.

Lemma normalized_entries : Forall rule_entry (normalized_rules rs).
Proof. by apply add_rules_entries. Qed.

Lemma normalized_keys : map fst (normalized_rules rs) ≡ₚ dedup (map gr_action rs).
Proof.
  apply NoDup_Permutation; [apply normalized_nodup|apply NoDup_dedup|]. intros a.
  rewrite elem_of_dedup. transitivity (∃ r, r ∈ rs ∧ gr_action r = a).
  - pose proof (combined_none a rs) as Hn. rewrite <-normalized_get, assoc_get_None, <-list_elem_of_In in Hn.
    destruct (base.decide (a ∈ map fst (normalized_rules rs))) as [Hin|Hin]; [|tauto].
    split; [intros _|done]. destruct (assoc_get a (normalized_rules rs)) as [m|] eqn:E.
    + rewrite normalized_get in E. destruct (rules_for a rs) as [|r l] eqn:El; [done|].
      exists r. apply rules_for_elem. rewrite El. by left.
    + apply assoc_get_None in E. by rewrite list_elem_of_In in Hin.
  - rewrite list_elem_of_fmap. naive_solver.
Qed.

Lemma sorted_actions : map fst (sort_by fst (normalized_rules rs)) = sort_strings (dedup (map gr_action rs)).
Proof.
  rewrite <-(sort_by_map fst (λ s : string, s) fst) by done.
  apply sort_by_unique; [|apply normalized_keys]. rewrite list_fmap_id. apply normalized_nodup.
Qed.

Lemma rules_for_ok a : Forall rule_ok (rules_for a rs).
Proof. apply Forall_forall. intros r [Hr _]%rules_for_elem. by apply (proj1 (Forall_forall _ _) Hrs). Qed.

Lemma combined_setting get a f m :
  get = gr_exact_fields ∨ get = gr_exact_context → combined (rules_for a rs) = Some m →
  assoc_get f (get m) = last_setting get f (rules_for a rs).
Proof.
  intros Hg Hm. pose proof (rules_for_ok a) as Hok. destruct (rules_for a rs) as [|r l]; [done|].
  injection Hm as <-. apply Forall_cons in Hok as [_ Hl].
  destruct (combined_exact r l f Hl). by destruct Hg as [-> | ->].
Qed.

(** The policy's exact context is the last setting in the order of the actions. *)
Lemma exact_context_setting pid c :
  assoc_get c (Policy.exact_context (policy_of_rules pid (normalized_rules rs))) =
  last_setting gr_exact_context c (by_action_name rs).
Proof.
  cbn [policy_of_rules Policy.exact_context]. unfold by_action_name. rewrite <-sorted_actions.
  assert (∀ kr, kr ∈ sort_by fst (normalized_rules rs) → rule_entry kr ∧ combined (rules_for kr.1 rs) = Some kr.2) as H.
  { intros kr Hk. rewrite sort_by_Permutation in Hk. split.
    - by apply (proj1 (Forall_forall _ _) normalized_entries).
    - rewrite <-normalized_get. apply assoc_In_get; [apply NoDup_ListNoDup, normalized_nodup|].
      destruct kr. by apply list_elem_of_In. }
  rewrite context_settings by (apply Forall_forall; intros kr Hk; by apply H).
  induction (sort_by fst (normalized_rules rs)) as [|kr l IH] using rev_ind; [done|].
  rewrite !map_app, flat_map_app. cbn [map flat_map]. rewrite app_nil_r.
  rewrite last_setting_app, last_setting_concat, IH by (intros; apply H; set_solver).
  rewrite (combined_setting gr_exact_context kr.1 c kr.2); [done|by right|]. apply H. set_solver.
Qed.

Lemma max_approvals_spec l n : max_approvals l ≤ n ↔ 0 ≤ n ∧ ∀ r, r ∈ l → gr_required_approvals r ≤ n.
Proof.
  unfold max_approvals. induction l as [|r l IH] using rev_ind; cbn.
  - split; [|tauto]. intros H. split; [done|]. intros r Hr. by apply elem_of_nil in Hr.
  - rewrite fold_left_app. cbn. rewrite Z.max_lub_iff, IH. clear IH.
    setoid_rewrite elem_of_app. setoid_rewrite list_elem_of_singleton. split.
    + intros [[H1 H2] H3]. split; [done|]. intros x [Hx|Hx]; [auto|by subst].
    + intros [H1 H2]. auto.
Qed.
End Normalized.

(** What a list of rules asks of a request.  Fields and quorum are those of the
    rules for its action; what any rule says of the context holds for every
    action, because a [Policy] has one context for all of them. *)
Record rules_satisfied `{C : Crypto} (A : DeterministicArbiter) (request : pydict) (rs : list GovernanceRule)
    (action : string) (context : pydict) (request_bytes : string) : Prop := {
  rl_size : Z.of_nat (String.length request_bytes) ≤ 65536;
  rl_object : request_context request = Some context;
  rl_action : dict_get "action" request = PStr action;
  rl_rule : ∃ r, r ∈ rs ∧ gr_action r = action;
  rl_fields : ∀ r f, r ∈ rules_for action rs → f ∈ gr_required_fields r → assoc_has f request = true;
  rl_exact : ∀ f v, last_setting gr_exact_fields f (rules_for action rs) = Some v →
    py_eqb (dict_get f request) v = true;
  rl_context : ∀ r c, r ∈ rs → c ∈ gr_required_context r → assoc_has c context = true;
  rl_exact_context : ∀ c v, last_setting gr_exact_context c (by_action_name rs) = Some v →
    py_eqb (dict_get c context) v = true;
  rl_quorum : ∀ r, r ∈ rules_for action rs → 0 < gr_required_approvals r →
    signed_quorum A request context (gr_required_approvals r)
}.

Lemma entries_lookup (P : string → pyval → Prop) (d : pydict) :
  NoDup (map fst d) → (∀ e, e ∈ d → P e.1 e.2) ↔ (∀ k v, assoc_get k d = Some v → P k v).
Proof.
  intros Hd. split.
  - intros H k v Hk%assoc_get_In%list_elem_of_In. by apply (H (k, v)).
  - intros H [k v] Hin. apply H, assoc_In_get; [by apply NoDup_ListNoDup|by apply list_elem_of_In].
Qed.

Lemma exact_context_nodup pid n : NoDup (map fst (Policy.exact_context (policy_of_rules pid n))).
Proof.
  cbn [policy_of_rules Policy.exact_context]. apply NoDup_ListNoDup.
  assert (∀ c, List.NoDup (map fst c) → List.NoDup (map fst (fold_left
    (λ c (kr : string * GovernanceRule), assoc_update c (gr_exact_context kr.2)) (sort_by fst n) c))) as H.
  { induction (sort_by fst n) as [|kr l IH]; intros c Hc; [done|]. apply IH. auto with gas. }
  apply H. constructor.
Qed.

Lemma assoc_get_filter {T} (q : T → bool) a (l : list (string * T)) :
  NoDup (map fst l) →
  assoc_get a (List.filter (λ kr, q kr.2) l) =
  match assoc_get a l with Some r => if q r then Some r else None | None => None end.
Proof.
  induction l as [|[k r] l IH]; [done|]. cbn [map fst List.filter snd assoc_get].
  rewrite NoDup_cons. intros [Hk Hl]. destruct (String.eqb_spec a k) as [->|Hne].
  - destruct (q r); cbn [assoc_get]; [by rewrite String.eqb_refl|].
    rewrite IH by done. destruct (assoc_get k l) eqn:E; [|done].
    apply assoc_get_In, (in_map fst), list_elem_of_In in E. by destruct Hk.
  - destruct (q r); cbn [assoc_get]; [|by apply IH].
    destruct (String.eqb_spec a k); [done|by apply IH].
Qed.

Section Enforced.
Context `{C : Crypto} (A : DeterministicArbiter) (request : pydict).
Context (rs : list GovernanceRule) (Hrs : Forall rule_ok rs) (pid : string).

Abbreviation p := (policy_of_rules pid (normalized_rules rs)).

Lemma policy_parts a :
  assoc_get a (required_fields p) = gr_required_fields <$> combined (rules_for a rs) ∧
  assoc_get a (exact_fields p) = gr_exact_fields <$> combined (rules_for a rs) ∧
  assoc_get a (required_approvals p) =
    match combined (rules_for a rs) with
    | Some m => if 0 <? gr_required_approvals m then Some (gr_required_approvals m) else None
    | None => None
    end.
Proof.
  pose proof (normalized_nodup rs) as Hnd.
  assert (NoDup (map fst (sort_by fst (normalized_rules rs)))) as Hs by (by rewrite sort_by_Permutation).
  cbn [policy_of_rules required_fields exact_fields required_approvals].
  rewrite !assoc_get_map_values, <-!normalized_get.
  rewrite (assoc_get_filter (λ r, 0 <? gr_required_approvals r)) by done.
  rewrite !assoc_get_sort_by by done. split_and!; [done..|].
  destruct (assoc_get a (normalized_rules rs)) as [m|]; [|done]. by destruct (0 <? _).
Qed.

Lemma required_context_rules c : c ∈ required_context p ↔ ∃ r, r ∈ rs ∧ c ∈ gr_required_context r.
Proof.
  cbn [policy_of_rules required_context]. rewrite elem_of_sorted_dedup, list_elem_of_In, in_concat. split.
  - intros (l & ((k & m) & <- & Hin%list_elem_of_In)%in_map_iff & Hc%list_elem_of_In). cbn in Hc.
    rewrite sort_by_Permutation in Hin. apply list_elem_of_In in Hin.
    apply assoc_In_get in Hin; [|apply NoDup_ListNoDup, normalized_nodup]. rewrite normalized_get in Hin.
    destruct (rules_for k rs) as [|r l] eqn:El; [done|]. injection Hin as <-.
    apply (proj2 (combined_spec r l)) in Hc as (x & Hx & Hc). rewrite <-El in Hx.
    apply rules_for_elem in Hx as [Hx _]. eauto.
  - intros (r & Hr & Hc). assert (r ∈ rules_for (gr_action r) rs) as Hx by (by apply rules_for_elem).
    destruct (rules_for (gr_action r) rs) as [|y l] eqn:El; [by apply elem_of_nil in Hx|].
    exists (gr_required_context (fold_left merge_rule l y)). split.
    + apply in_map_iff. exists (gr_action r, fold_left merge_rule l y). split; [done|].
      apply list_elem_of_In. rewrite sort_by_Permutation. apply list_elem_of_In, assoc_get_In.
      by rewrite normalized_get, El.
    + apply list_elem_of_In, (combined_spec y l). eauto.
Qed.

(** The merged quorum is that of some rule, and no rule asks for more. *)
Lemma merged_quorum r l :
  (∃ x, x ∈ r :: l ∧ gr_required_approvals x = gr_required_approvals (fold_left merge_rule l r)) ∧
  ∀ x, x ∈ r :: l → gr_required_approvals x ≤ gr_required_approvals (fold_left merge_rule l r).
Proof.
  revert r. induction l as [|y l IH]; intros r; cbn [fold_left].
  - split; [exists r; set_solver|]. by intros x ->%list_elem_of_singleton.
  - destruct (IH (merge_rule r y)) as [(x & Hx & E) Hle]. split.
    + apply elem_of_cons in Hx as [->|Hx]; [|exists x; set_solver].
      cbn [merge_rule gr_required_approvals] in E.
      destruct (Z.max_spec (gr_required_approvals r) (gr_required_approvals y)) as [[_ Em]|[_ Em]];
        rewrite Em in E; [exists y|exists r]; set_solver.
    + pose proof (Hle _ ltac:(left)) as Hm. cbn [merge_rule gr_required_approvals] in Hm.
      intros z [->|[->|Hz]%elem_of_cons]%elem_of_cons; [lia..|]. apply Hle. by right.
Qed.

Lemma action_allowed_rules a : a ∈ allowed_actions p ↔ ∃ r, r ∈ rs ∧ gr_action r = a.
Proof.
  cbn [policy_of_rules allowed_actions].
  rewrite sort_by_Permutation, normalized_keys, elem_of_dedup, list_elem_of_fmap. naive_solver.
Qed.

Lemma exact_rules a r l (P : string → pyval → Prop) :
  rules_for a rs = r :: l →
  (∀ e, e ∈ gr_exact_fields (fold_left merge_rule l r) → P e.1 e.2) ↔
  (∀ f v, last_setting gr_exact_fields f (rules_for a rs) = Some v → P f v).
Proof.
  intros El. pose proof (rules_for_ok rs Hrs a) as Hok. rewrite El in Hok.
  apply Forall_cons in Hok as [Hr Hl]. rewrite entries_lookup by (by destruct (combined_ok r l Hr Hl)).
  assert (∀ f, assoc_get f (gr_exact_fields (fold_left merge_rule l r)) =
               last_setting gr_exact_fields f (rules_for a rs)) as E.
  { intros f. apply (combined_setting rs Hrs); [by left|by rewrite El]. }
  split; intros H f v Hv; apply H; by rewrite ?E, <-?E in *.
Qed.

(** The constraints of the policy are those of the rules. *)
Lemma satisfies_rules action context bytes :
  satisfies_with (signed_quorum A request) request p action context bytes ↔
  rules_satisfied A request rs action context bytes.
Proof.
  destruct (policy_parts action) as (Hf & He & Hq).
  assert ((∀ ne, ne ∈ Policy.exact_context p → py_eqb (dict_get ne.1 context) ne.2 = true) ↔
          (∀ c v, last_setting gr_exact_context c (by_action_name rs) = Some v →
                  py_eqb (dict_get c context) v = true)) as Hec.
  { rewrite (entries_lookup (λ c v, py_eqb (dict_get c context) v = true)) by apply exact_context_nodup.
    by setoid_rewrite exact_context_setting. }
  destruct (rules_for action rs) as [|r l] eqn:El.
  { apply (f_equal combined), combined_none in El. split; intros Hx; exfalso; apply El.
    - apply action_allowed_rules, Hx.
    - apply Hx. }
  cbn [combined] in Hf, He, Hq. destruct (merged_quorum r l) as [(x & Hx & Hmx) Hle].
  pose proof (proj1 (combined_spec r l)) as Hcf.
  pose proof (exact_rules action r l (λ f v, py_eqb (dict_get f request) v = true) El) as Hex.
  split.
  - intros [H1 H2 H3 H4 H5 H6 _ H8 H9 H10]. rewrite Hf in H5. rewrite He in H6. rewrite Hq in H10.
    split; try done.
    + by apply action_allowed_rules.
    + rewrite El. intros y f Hy Hfy. apply H5, Hcf. eauto.
    + by apply Hex.
    + intros y c Hy Hc. apply H8, required_context_rules. eauto.
    + by apply Hec.
    + rewrite El. intros y Hy Hp. specialize (Hle y Hy).
      rewrite (proj2 (Z.ltb_lt _ _)) in H10 by lia.
      eapply signed_quorum_le; [exact Hle|]. apply H10; [done|lia].
  - intros [H1 H2 H3 H4 H5 H6 H8 H9 H10]. rewrite El in H5, H10.
    split; try done; rewrite ?Hf, ?He, ?Hq.
    + by apply action_allowed_rules.
    + intros f (y & Hy & Hfy)%Hcf. by apply (H5 y).
    + by apply Hex.
    + intros ? Hn. by apply elem_of_nil in Hn.
    + intros c (y & Hy & Hc)%required_context_rules. by apply (H8 y).
    + by apply Hec.
    + intros n Hn Hpos. destruct (0 <? _); [|done]. injection Hn as <-. rewrite <-Hmx. apply H10; [done|lia].
Qed.
End Enforced.

(** * Properties *)


Definition example_items : list pyval :=
  [PStr "allow write_file when path is present and content is present";
   PStr "require write_file tenant == 'acme'";
   PDict [("action", PStr "deploy"); ("required_context", PList [PStr "environment"]);
          ("approvals_required", PInt 2)]].

(** The context that the rule for [deploy] requires is required of [read] as
    well: a request that meets the only rule for [read] is denied. *)
Example context_of_other_action :
  let rule a c := PDict [("action", PStr a); ("required_context", PList c)] in
  (policy ← translate "ops" None (PList [rule "read" []; rule "deploy" [PStr "environment"]]);
   decide (C := toy_crypto) example_arbiter [("action", PStr "read")] policy) ≫=
    (λ d, Ok (dict_get "allow" d, dict_get "reasons" d)) =
  Ok (PBool false, PList [PStr "required context is missing: environment"]).
Proof. vm_compute. reflexivity. Qed.

Definition rules_of (r : res (list GovernanceRule)) : list GovernanceRule :=
  match r with Ok rs => rs | Raise _ => [] end.

