(* ===== verification/GovernanceText.v ===== *)
(** governance.py: the sentences of the rule language.

    A sentence that states its clauses in the forms the patterns are meant for
    is read back as the rule it states, whatever the words.  The proofs follow
    how a pattern can begin to match: at a word, with the right text after it. *)

From S2P Require Import Prelude PyFloat PyVal Json Crypto Models Trust Policy Arbiter Rbac Orders SemVer PyText Regex Governance.

(** * The grammar *)

Inductive clause :=
| Present (field : string)                 (** [field is present] *)
| Equals (field value : string)            (** [field == 'value'] *)
| Approvals (digits : string).             (** [approvals >= digits] *)

Definition clause_text (c : clause) : string :=
  match c with
  | Present f => f +:+ " is present"
  | Equals f v => f +:+ " == '" +:+ v +:+ "'"
  | Approvals d => "approvals >= " +:+ d
  end.

Fixpoint clauses_text (c : clause) (cs : list clause) : string :=
  match cs with
  | [] => clause_text c
  | c' :: cs => clause_text c +:+ " and " +:+ clauses_text c' cs
  end.

Definition sentence (action : string) (c : clause) (cs : list clause) : string :=
  "allow " +:+ action +:+ " when " +:+ clauses_text c cs.

(** ** What the clauses state *)

Definition literal_of (v : string) : pyval :=
  if str_in (str_lower v) ["true"; "false"] then PBool (String.eqb (str_lower v) "true")
  else if negb (String.eqb v "") && all_chars ascii_digit v then PInt (dec_value v) else PStr v.

Definition present_of (c : clause) : list string := match c with Present f => [f] | _ => [] end.
Definition equals_of (c : clause) : list (string * string) :=
  match c with Equals f v => [(f, v)] | _ => [] end.
Definition approvals_in (c : clause) : list string := match c with Approvals d => [d] | _ => [] end.

Definition stated_rule (action : string) (c : clause) (cs : list clause) : GovernanceRule := {|
  gr_action := action;
  gr_required_fields := dedup (flat_map present_of (c :: cs));
  gr_exact_fields := assoc_update [] (map (λ fv, (fv.1, literal_of fv.2)) (flat_map equals_of (c :: cs)));
  gr_required_context := [];
  gr_exact_context := [];
  gr_description := sentence action c cs;
  gr_required_approvals := match flat_map approvals_in (c :: cs) with [] => 0 | d :: _ => dec_value d end |}.

Definition is_word (w : string) : Prop := w ≠ "" ∧ all_chars word_char w = true.

(** A word, and not one the patterns take for a separator; a value of word
    characters; a positive number. *)
Definition clause_ok (c : clause) : Prop :=
  match c with
  | Present f => is_word f ∧ f ≠ "and"
  | Equals f v => is_word f ∧ all_chars word_char v = true ∧ (String.length v ≤ 4300)%nat
  | Approvals d => d ≠ "" ∧ all_chars ascii_digit d = true ∧ (String.length d ≤ 4300)%nat ∧ 0 < dec_value d
  end.

(** * Texts *)

Definition starts (p : ascii → bool) (s : string) : bool :=
  match s with String a _ => p a | EmptyString => false end.

Fixpoint drop_while (p : ascii → bool) (s : string) : string :=
  match s with String a s' => if p a then drop_while p s' else s | EmptyString => "" end.

(** What follows the word at the front. *)
Definition after (s : string) : string := drop_while space_char (drop_while word_char s).

Lemma str_app_nil (a : string) : a +:+ "" = a.
Proof. induction a as [|x a IH]; [done|]. cbn. by rewrite IH. Qed.

Lemma length_str_app (a b : string) : String.length (a +:+ b) = (String.length a + String.length b)%nat.
Proof. induction a as [|x a IH]; [done|]. cbn. by rewrite IH. Qed.

Lemma drop_while_app p w s : all_chars p w = true → drop_while p (w +:+ s) = drop_while p s.
Proof.
  induction w as [|a w IH]; [done|]. rewrite all_chars_cons. intros [Ha Hw]. cbn. rewrite Ha. auto.
Qed.

Lemma drop_while_id p s : starts p s = false → drop_while p s = s.
Proof. destruct s as [|a s]; [done|]. cbn. by intros ->. Qed.

Lemma consumed_app w s : consumed (w +:+ s) s = w.
Proof.
  unfold consumed. rewrite length_str_app. replace (_ - _)%nat with (String.length w) by lia.
  induction w as [|a w IH]; cbn; [by destruct s|by rewrite IH].
Qed.

Lemma word_not_space a : word_char a = true → space_char a = false.
Proof. by_chars (λ a, negb (word_char a) || negb (space_char a)) a. by destruct (word_char a), (space_char a). Qed.

Lemma space_not_word a : space_char a = true → word_char a = false.
Proof. by_chars (λ a, negb (word_char a) || negb (space_char a)) a. by destruct (word_char a), (space_char a). Qed.

Lemma word_not_newline a : word_char a = true → not_newline a = true.
Proof. by_chars (λ a, negb (word_char a) || not_newline a) a. by destruct (word_char a). Qed.

Lemma digit_word a : ascii_digit a = true → word_char a = true.
Proof. by_chars (λ a, negb (ascii_digit a) || word_char a) a. by destruct (ascii_digit a). Qed.

Lemma word_not_quote a : word_char a = true → negb (Ascii.eqb a single_quote) = true.
Proof. by_chars (λ a, negb (word_char a) || negb (Ascii.eqb a single_quote)) a. by destruct (word_char a). Qed.

(** * Greedy repetition *)

Lemma star_greedy {X} p w s (k : string → option X) x :
  all_chars p w = true → starts p s = false → k s = Some x → star p (w +:+ s) k = Some x.
Proof.
  intros Hw Hs Hk. induction w as [|a w IH].
  - cbn. destruct s as [|a s]; [done|]. cbn in *. by rewrite Hs.
  - apply all_chars_cons in Hw as [Ha Hw]. cbn. rewrite Ha. by rewrite IH.
Qed.

Lemma plus_greedy {X} p w s c (k : string → captures → option X) x :
  w ≠ "" → all_chars p w = true → starts p s = false → k s c = Some x →
  rmatch (rplus p) (w +:+ s) c k = Some x.
Proof.
  intros Hne Hw Hs Hk. destruct w as [|a w]; [done|]. apply all_chars_cons in Hw as [Ha Hw].
  cbn. rewrite Ha. by apply star_greedy.
Qed.

(** A group that takes a whole word. *)
Lemma group_greedy {X} n p w s c (k : string → captures → option X) x :
  w ≠ "" → all_chars p w = true → starts p s = false → k s ((n, w) :: c) = Some x →
  rmatch (RGroup n (rplus p)) (w +:+ s) c k = Some x.
Proof.
  intros Hne Hw Hs Hk. cbn [rmatch]. change (RSeq (RChar p) (RStar p)) with (rplus p).
  apply (plus_greedy p w s c (λ rest c', k rest ((n, consumed (w +:+ s) rest) :: c'))); [done..|].
  by rewrite consumed_app.
Qed.

(** * Iterating over a text *)

Lemma finditer_skip r w t : re_finditer r (String.length w) (w +:+ t) = re_finditer r 0 t.
Proof. induction w as [|a w IH]; [done|]. cbn. apply IH. Qed.

Lemma finditer_hit r w t c :
  w ≠ "" → re_match r (w +:+ t) = Some (t, c) → re_finditer r 0 (w +:+ t) = c :: re_finditer r 0 t.
Proof.
  destruct w as [|a w]; [done|]. intros _ H. cbn [String.append re_finditer] in *. rewrite H. f_equal.
  cbn [String.length]. rewrite length_str_app.
  replace (S (String.length w + String.length t) - String.length t - 1)%nat with (String.length w) by lia.
  apply finditer_skip.
Qed.

Lemma search_finditer r s : re_match r "" = None → re_search r s = head (re_finditer r 0 s).
Proof.
  intros H0. induction s as [|a s IH]; cbn [re_search re_finditer].
  - by rewrite H0.
  - destruct (re_match r (String a s)) as [[rest c]|]; [done|]. apply IH.
Qed.

(** ** Where a pattern can begin *)

Lemma acc_star p s c s' c' :
  accepts (RStar p) s c s' c' → c' = c ∧ ∃ w, all_chars p w = true ∧ s = w +:+ s'.
Proof.
  intros H. remember (RStar p) as r eqn:Hr. induction H; try discriminate.
  - split; [done|]. by exists "".
  - injection Hr as ->. destruct (IHaccepts eq_refl) as [-> (w & Hw & ->)].
    split; [done|]. exists (String a w). by rewrite all_chars_cons.
Qed.

Lemma acc_plus p s c s' c' :
  accepts (rplus p) s c s' c' → ∃ w, w ≠ "" ∧ all_chars p w = true ∧ s = w +:+ s'.
Proof.
  intros H. inversion H as [| |? ? ? ? ? ? ? ? H1 H2| | | | | |]; subst.
  inversion H1 as [|? a ? ? Ha| | | | | | |]; subst. apply acc_star in H2 as [-> (w & Hw & ->)].
  exists (String a w). by rewrite all_chars_cons.
Qed.

Lemma letter_word (a b : ascii) : same_letter a b = true → word_char a = true → word_char b = true.
Proof.
  intros H Ha. unfold same_letter in H. apply Ascii.eqb_eq in H.
  assert (∀ x, word_char (lower_char x) = word_char x) as E.
  { intros x. by_chars (λ a, Bool.eqb (word_char (lower_char a)) (word_char a)) x. apply Bool.eqb_true_iff. }
  by rewrite <-(E b), <-H, E.
Qed.

Lemma letter_not_space (a b : ascii) : same_letter a b = true → word_char a = true → space_char b = false.
Proof. intros H Ha. by apply word_not_space, (letter_word a b). Qed.

(** A text equal to [k] under IGNORECASE. *)
Fixpoint same_word (k w : string) : bool :=
  match k, w with
  | EmptyString, EmptyString => true
  | String a k, String b w => same_letter a b && same_word k w
  | _, _ => false
  end.

Lemma acc_rword k s c s' c' :
  accepts (rword k) s c s' c' → c' = c ∧ ∃ w, same_word k w = true ∧ s = w +:+ s'.
Proof.
  revert s c. induction k as [|a k IH]; intros s c H; cbn in H.
  - inversion H; subst. split; [done|]. by exists "".
  - inversion H as [| |? ? ? ? ? ? ? ? H1 H2| | | | | |]; subst.
    inversion H1 as [|? b ? ? Hb| | | | | | |]; subst. apply IH in H2 as [-> (w & Hw & ->)].
    split; [done|]. exists (String b w). cbn. by rewrite Hb.
Qed.

Lemma acc_rlit k s c s' c' : accepts (rlit k) s c s' c' → c' = c ∧ s = k +:+ s'.
Proof.
  revert s c. induction k as [|a k IH]; intros s c H; cbn in H; [by inversion H; subst|].
  inversion H as [| |? ? ? ? ? ? ? ? H1 H2| | | | | |]; subst.
  inversion H1 as [|? b ? ? Hb| | | | | | |]; subst. apply IH in H2 as [-> ->].
  by apply Ascii.eqb_eq in Hb as <-.
Qed.

Lemma same_word_chars k w : same_word k w = true → all_chars word_char k = true → all_chars word_char w = true.
Proof.
  revert w. induction k as [|a k IH]; intros [|b w]; try done. cbn [same_word]. rewrite !all_chars_cons.
  intros [Ha Hw]%andb_true_iff [Hka Hk]. split; [by apply (letter_word a)|by apply IH].
Qed.

(** Take a derivation apart down to characters, repetitions and groups. *)
Ltac inv_accepts :=
  repeat match goal with
    | H : accepts (RSeq _ _) _ _ _ _ |- _ => inversion H; clear H; subst
    | H : accepts (RAlt _ _) _ _ _ _ |- _ => inversion H; clear H; subst
    | H : accepts (RChar _) _ _ _ _ |- _ => inversion H; clear H; subst
    | H : accepts (RGroup _ _) _ _ _ _ |- _ => inversion H; clear H; subst
    | H : accepts (rword _) _ _ _ _ |- _ => apply acc_rword in H as [-> (? & ? & ->)]
    | H : accepts (rlit _) _ _ _ _ |- _ => apply acc_rlit in H as [-> ->]
    | H : accepts REps _ _ _ _ |- _ => inversion H; clear H; subst
    | H : accepts (RStar _) _ _ _ _ |- _ => apply acc_star in H as [-> (? & ? & ->)]
    | H : accepts (rplus _) _ _ _ _ |- _ => apply acc_plus in H as (? & ? & ? & ->)
    end.

Lemma after_eq w sp t :
  all_chars word_char w = true → all_chars space_char sp = true →
  sp ≠ "" ∨ starts word_char t = false → starts space_char t = false → after (w +:+ sp +:+ t) = t.
Proof.
  intros Hw Hsp Ht Hs. unfold after. rewrite drop_while_app by done.
  rewrite (drop_while_id word_char).
  - by rewrite drop_while_app, drop_while_id.
  - destruct sp as [|a sp]; [by destruct Ht|]. apply all_chars_cons in Hsp as [Ha _]. by apply space_not_word.
Qed.

Lemma starts_all p w t : w ≠ "" → all_chars p w = true → starts p (w +:+ t) = true.
Proof. destruct w as [|a w]; [done|]. intros _ [Ha _]%all_chars_cons. done. Qed.

Lemma starts_word w t : w ≠ "" → all_chars word_char w = true → starts word_char (w +:+ t) = true.
Proof. apply starts_all. Qed.

Section Begin.
Context (r : regex) (need : string → bool).
Hypothesis Hneed : ∀ s s' c', accepts r s [] s' c' → starts word_char s = true ∧ need (after s) = true.

Lemma no_match s : starts word_char s && need (after s) = false → re_match r s = None.
Proof.
  intros H. apply (re_match_accepts r s). intros s' c' [H1 H2]%Hneed. by rewrite H1, H2 in H.
Qed.

Lemma skip_char a s : word_char a = false → re_finditer r 0 (String a s) = re_finditer r 0 s.
Proof. intros Ha. cbn [re_finditer]. rewrite no_match; [done|]. cbn. by rewrite Ha. Qed.

(** A word is skipped when what follows it is not what the pattern needs. *)
Lemma skip_word w s :
  all_chars word_char w = true → starts word_char s = false → need (drop_while space_char s) = false →
  re_finditer r 0 (w +:+ s) = re_finditer r 0 s.
Proof.
  intros Hw Hs Hn. induction w as [|a w IH]; [done|].
  pose proof Hw as [_ Hw']%all_chars_cons. cbn [String.append re_finditer]. rewrite no_match; [by apply IH|].
  apply andb_false_iff. right. unfold after. change (String a (w +:+ s)) with (String a w +:+ s).
  by rewrite drop_while_app, (drop_while_id word_char).
Qed.
End Begin.

(** ** The three patterns over a remainder *)

Definition presence_need (t : string) : bool :=
  match t with
  | String a (String b _) => (same_letter "i" a && same_letter "s" b) || (same_letter "a" a && same_letter "r" b)
  | _ => false
  end && starts (same_letter "p") (after t).

Definition op_char (a : ascii) : bool := Ascii.eqb a ">" || Ascii.eqb a "=".

Definition approval_need (t : string) : bool :=
  starts op_char t && starts ascii_digit (drop_while space_char (drop_while op_char t)).

Definition exact_need (t : string) : bool := starts (Ascii.eqb "=") t.

Lemma presence_begins s s' c' :
  accepts presence_pattern s [] s' c' → starts word_char s = true ∧ presence_need (after s) = true.
Proof.
  unfold presence_pattern, word1, spaces1. cbn [rseq foldr]. intros H.
  assert (∀ w sp kw sp' pr t,
    w ≠ "" → all_chars word_char w = true → sp ≠ "" → all_chars space_char sp = true →
    same_word "is" kw = true ∨ same_word "are" kw = true → sp' ≠ "" → all_chars space_char sp' = true →
    same_word "present" pr = true →
    let s := w +:+ sp +:+ kw +:+ sp' +:+ pr +:+ t in
    starts word_char s = true ∧ presence_need (after s) = true) as Hgo; [|inv_accepts; apply Hgo; auto].
  clear. intros w sp kw sp' pr t Hw1 Hw Hsp1 Hsp Hkw Hsp1' Hsp' Hpr s. split; [by apply starts_word|].
  assert (all_chars word_char kw = true) as Hk by (destruct Hkw as [Hk|Hk]; by apply same_word_chars in Hk).
  assert (starts (same_letter "p") (pr +:+ t) = true ∧ starts space_char (pr +:+ t) = false) as [Hp Hps].
  { destruct pr as [|a pr]; [done|]. cbn [same_word] in Hpr. apply andb_true_iff in Hpr as [Ha _].
    split; [done|]. by apply (letter_not_space "p"). }
  unfold s. rewrite after_eq; [|done|done|by left|].
  - unfold presence_need. rewrite after_eq by (auto; by left). rewrite Hp, andb_true_r.
    destruct kw as [|a [|b kw]]; [by destruct Hkw| |].
    + destruct Hkw as [Hkw|Hkw]; cbn [same_word] in Hkw; by rewrite andb_false_r in Hkw.
    + cbn [String.append]. apply orb_true_iff. destruct Hkw as [Hkw|Hkw]; [left|right]; cbn [same_word] in Hkw;
        rewrite andb_assoc in Hkw; by apply andb_true_iff in Hkw as [? _].
  - destruct kw as [|a kw]; [by destruct Hkw|]. apply all_chars_cons in Hk as [Ha _]. by apply word_not_space.
Qed.

Lemma exact_begins s s' c' :
  accepts exact_pattern s [] s' c' → starts word_char s = true ∧ exact_need (after s) = true.
Proof.
  unfold exact_pattern, quoted, word1, spaces0. cbn [rseq foldr]. intros H. inv_accepts;
    (split; [by apply starts_word|]); cbn [String.append]; by rewrite after_eq by (auto; by right).
Qed.

(** An operator, then spaces, then digits. *)
Lemma approval_need_op op sp d t :
  op ≠ "" → all_chars op_char op = true → all_chars space_char sp = true →
  d ≠ "" → all_chars ascii_digit d = true → approval_need (op +:+ sp +:+ d +:+ t) = true.
Proof.
  intros Hop Ho Hsp Hd Hdd. unfold approval_need. rewrite drop_while_app by done.
  destruct d as [|a d]; [done|]. apply all_chars_cons in Hdd as [Ha _].
  rewrite (drop_while_id op_char).
  - rewrite drop_while_app, drop_while_id; [|by apply word_not_space, digit_word|done].
    destruct op as [|o op]; [done|]. apply all_chars_cons in Ho as [Ho _]. cbn. by rewrite Ho, Ha.
  - destruct sp as [|b sp]; cbn.
    + revert Ha. by_chars (λ a, negb (ascii_digit a) || negb (op_char a)) a. by destruct (ascii_digit a), (op_char a).
    + apply all_chars_cons in Hsp as [Hb _]. revert Hb.
      by_chars (λ a, negb (space_char a) || negb (op_char a)) b. by destruct (space_char b), (op_char b).
Qed.

Lemma approval_need_after w sp op sp' d t :
  w ≠ "" → all_chars word_char w = true → all_chars space_char sp = true →
  op ≠ "" → all_chars op_char op = true → all_chars space_char sp' = true →
  d ≠ "" → all_chars ascii_digit d = true →
  starts word_char (w +:+ sp +:+ op +:+ sp' +:+ d +:+ t) = true ∧
  approval_need (after (w +:+ sp +:+ op +:+ sp' +:+ d +:+ t)) = true.
Proof.
  intros Hw1 Hw Hsp Hop Ho Hsp' Hd Hdd. split; [by apply starts_word|].
  destruct op as [|o op]; [done|]. pose proof Ho as [Ho1 _]%all_chars_cons.
  assert (word_char o = false ∧ space_char o = false) as [Hn1 Hn2].
  { revert Ho1. by_chars (λ a, negb (op_char a) || negb (word_char a) && negb (space_char a)) o.
    by destruct (op_char o), (word_char o), (space_char o). }
  rewrite after_eq by (auto; by right). by apply approval_need_op.
Qed.

Lemma same_word_nonempty k w : same_word k w = true → k ≠ "" → w ≠ "".
Proof. by destruct k, w. Qed.

Lemma app_nonempty (a b : string) : a ≠ "" → a +:+ b ≠ "".
Proof. by destruct a. Qed.

Lemma approval_begins s s' c' :
  accepts approval_pattern s [] s' c' → starts word_char s = true ∧ approval_need (after s) = true.
Proof.
  unfold approval_pattern, ropt, spaces0. cbn [rseq foldr]. intros H. inv_accepts;
    repeat match goal with
      | H : same_word ?k ?w = true |- _ =>
          pose proof (same_word_nonempty k w H ltac:(done));
          pose proof (same_word_chars k w H eq_refl); clear H
      end;
    try (match goal with |- context [?a +:+ ?b +:+ ?c +:+ ?d +:+ ?e +:+ ?f +:+ ?g] =>
           rewrite <-(str_app_assoc a b (c +:+ d +:+ e +:+ f +:+ g)) end);
    apply approval_need_after; rewrite ?all_chars_append; auto using app_nonempty; done.
Qed.

(** ** Clause by clause *)

(** What follows a clause: the end, or another one. *)
Definition tail (t : string) : Prop := t = "" ∨ ∃ s, t = " and " +:+ s.

Section Clauses.
Context (r : regex) (need : string → bool) (hits : clause → list captures).
Hypothesis Hbegin : ∀ s s' c', accepts r s [] s' c' → starts word_char s = true ∧ need (after s) = true.
Hypothesis Hclause : ∀ c t, clause_ok c → tail t →
  need (clause_text c +:+ t) = false ∧
  re_finditer r 0 (clause_text c +:+ t) = hits c ++ re_finditer r 0 t.
Hypothesis Hand : ∀ s, need ("and " +:+ s) = false.

Lemma clause_starts c t : clause_ok c → starts word_char (clause_text c +:+ t) = true.
Proof.
  destruct c as [f|f v|d]; cbn [clause_ok clause_text]; [intros [[? ?] _]|intros [[? ?] _]|done];
    rewrite !str_app_assoc; by apply starts_word.
Qed.

Lemma find_and s : starts space_char s = false → need s = false →
  re_finditer r 0 (" and " +:+ s) = re_finditer r 0 s.
Proof.
  intros Hs Hn. change (" and " +:+ s) with (String " " ("and" +:+ String " " s)).
  rewrite (skip_char r need Hbegin) by done. rewrite (skip_word r need Hbegin); [|done..|].
  - by rewrite (skip_char r need Hbegin).
  - cbn [drop_while]. change (space_char " ") with true. cbv iota. by rewrite drop_while_id.
Qed.

Lemma find_clauses c cs :
  clause_ok c → Forall clause_ok cs → re_finditer r 0 (clauses_text c cs) = flat_map hits (c :: cs).
Proof.
  intros Hc Hcs. revert c Hc. induction Hcs as [|c' cs Hc' Hcs IH]; intros c Hc; cbn [clauses_text flat_map].
  - rewrite <-(str_app_nil (clause_text c)). rewrite (proj2 (Hclause c "" Hc (or_introl eq_refl))). done.
  - rewrite (proj2 (Hclause c _ Hc (or_intror (ex_intro _ _ eq_refl)))). f_equal.
    assert (∃ t, tail t ∧ clauses_text c' cs = clause_text c' +:+ t) as (t & Ht & E).
    { destruct cs as [|c'' cs]; cbn [clauses_text].
      - exists "". split; [by left|]. by rewrite str_app_nil.
      - eexists. split; [right; eauto|done]. }
    rewrite find_and; [by apply IH| |].
    + rewrite E. pose proof (clause_starts c' t Hc') as Hw. destruct (clause_text c' +:+ t); [done|].
      by apply word_not_space.
    + rewrite E. by apply Hclause.
Qed.
End Clauses.

Lemma tail_facts t : tail t →
  starts word_char t = false ∧ starts ascii_digit t = false ∧
  presence_need (drop_while space_char t) = false ∧ exact_need (drop_while space_char t) = false ∧
  approval_need (drop_while space_char t) = false.
Proof. by intros [->|[s ->]]. Qed.

(** ** Clauses a pattern passes over *)

Section Skip.
Context (r : regex) (need : string → bool).
Hypothesis Hbegin : ∀ s s' c', accepts r s [] s' c' → starts word_char s = true ∧ need (after s) = true.

Lemma skip_present f t :
  all_chars word_char f = true → starts word_char t = false → need ("is present" +:+ t) = false →
  need ("present" +:+ t) = false → need (drop_while space_char t) = false →
  re_finditer r 0 (clause_text (Present f) +:+ t) = re_finditer r 0 t.
Proof.
  intros Hf Ht H1 H2 H3. cbn [clause_text]. rewrite str_app_assoc.
  rewrite (skip_word r need Hbegin f) by done.
  change (" is present" +:+ t) with (String " " ("is" +:+ String " " ("present" +:+ t))).
  rewrite (skip_char r need Hbegin), (skip_word r need Hbegin) by done.
  by rewrite (skip_char r need Hbegin), (skip_word r need Hbegin) by done.
Qed.

Lemma skip_equals f v t :
  all_chars word_char f = true → all_chars word_char v = true →
  need ("== '" +:+ v +:+ "'" +:+ t) = false → need ("'" +:+ t) = false →
  re_finditer r 0 (clause_text (Equals f v) +:+ t) = re_finditer r 0 t.
Proof.
  intros Hf Hv H1 H2. cbn [clause_text]. rewrite !str_app_assoc.
  rewrite (skip_word r need Hbegin f) by done. cbn [String.append].
  rewrite !(skip_char r need Hbegin) by done. rewrite (skip_word r need Hbegin v) by done.
  by rewrite (skip_char r need Hbegin).
Qed.

Lemma skip_approvals d t :
  all_chars ascii_digit d = true → starts word_char t = false →
  need (">= " +:+ d +:+ t) = false → need (drop_while space_char t) = false →
  re_finditer r 0 (clause_text (Approvals d) +:+ t) = re_finditer r 0 t.
Proof.
  intros Hd Ht H1 H2. cbn [clause_text]. rewrite !str_app_assoc.
  change ("approvals >= " +:+ d +:+ t) with ("approvals" +:+ String " " (">= " +:+ d +:+ t)).
  rewrite (skip_word r need Hbegin "approvals") by done. cbn [String.append].
  rewrite !(skip_char r need Hbegin) by done. rewrite (skip_word r need Hbegin d); [done| |done..].
  by apply (all_chars_impl ascii_digit word_char); [apply digit_word|].
Qed.
End Skip.

Lemma rmatch_seq {X} r1 r2 s c (k : string → captures → option X) :
  rmatch (RSeq r1 r2) s c k = rmatch r1 s c (λ s c, rmatch r2 s c k).
Proof. done. Qed.

(** ** Steps of a match that succeeds *)

Section Steps.
Context {X : Type} (c : captures) (k : string → captures → option X) (x : X).

Lemma step_star p w s rest :
  all_chars p w = true → starts p s = false → rmatch rest s c k = Some x →
  rmatch (RSeq (RStar p) rest) (w +:+ s) c k = Some x.
Proof. intros. by apply star_greedy. Qed.

Lemma step_plus p w s rest :
  w ≠ "" → all_chars p w = true → starts p s = false → rmatch rest s c k = Some x →
  rmatch (RSeq (rplus p) rest) (w +:+ s) c k = Some x.
Proof. intros. by apply (plus_greedy p w s c (λ s c, rmatch rest s c k)). Qed.

Lemma step_group n p w s rest :
  w ≠ "" → all_chars p w = true → starts p s = false → rmatch rest s ((n, w) :: c) k = Some x →
  rmatch (RSeq (RGroup n (rplus p)) rest) (w +:+ s) c k = Some x.
Proof. intros. by apply (group_greedy n p w s c (λ s c, rmatch rest s c k)). Qed.

Lemma step_left r1 r2 rest s :
  rmatch (RSeq r1 rest) s c k = Some x → rmatch (RSeq (RAlt r1 r2) rest) s c k = Some x.
Proof. cbn [rmatch]. by intros ->. Qed.

Lemma step_right r1 r2 rest s :
  rmatch (RSeq r1 rest) s c k = None → rmatch (RSeq r2 rest) s c k = Some x →
  rmatch (RSeq (RAlt r1 r2) rest) s c k = Some x.
Proof. cbn [rmatch]. by intros -> ->. Qed.

Lemma step_quoted q n v s rest :
  all_chars (λ a, negb (Ascii.eqb a q)) v = true → rmatch rest s ((n, v) :: c) k = Some x →
  rmatch (RSeq (quoted q n) rest) (String q (v +:+ String q s)) c k = Some x.
Proof.
  intros Hv Hk. unfold quoted. cbn [rseq foldr rmatch]. rewrite Ascii.eqb_refl.
  apply star_greedy; [done|cbn; by rewrite Ascii.eqb_refl|]. by rewrite Ascii.eqb_refl, consumed_app.
Qed.
End Steps.

Lemma match_lit {X} l s c (k : string → captures → option X) : rmatch (rlit l) (l +:+ s) c k = k s c.
Proof. induction l as [|a l IH]; [done|]. cbn. by rewrite Ascii.eqb_refl. Qed.

Lemma match_word {X} l s c (k : string → captures → option X) : rmatch (rword l) (l +:+ s) c k = k s c.
Proof. induction l as [|a l IH]; [done|]. cbn. unfold same_letter. by rewrite Ascii.eqb_refl. Qed.

Lemma step_lit {X} l s c (k : string → captures → option X) rest :
  rmatch (RSeq (rlit l) rest) (l +:+ s) c k = rmatch rest s c k.
Proof. by rewrite rmatch_seq, match_lit. Qed.

Lemma step_word {X} l s c (k : string → captures → option X) rest :
  rmatch (RSeq (rword l) rest) (l +:+ s) c k = rmatch rest s c k.
Proof. by rewrite rmatch_seq, match_word. Qed.

(** The text after the first word of a clause. *)
Lemma after_clause c t :
  clause_ok c →
  after (clause_text c +:+ t) =
    match c with
    | Present _ => "is present" +:+ t
    | Equals _ v => "== '" +:+ v +:+ "'" +:+ t
    | Approvals d => ">= " +:+ d +:+ t
    end.
Proof.
  destruct c as [f|f v|d]; cbn [clause_ok clause_text]; rewrite !str_app_assoc.
  - intros [[_ Hf] _]. change (" is present" +:+ t) with (" " +:+ "is present" +:+ t). apply after_eq; auto.
  - intros [[_ Hf] _].
    change (" == '" +:+ v +:+ "'" +:+ t) with (" " +:+ "== '" +:+ v +:+ "'" +:+ t). apply after_eq; auto.
  - intros _. change ("approvals >= " +:+ d +:+ t) with ("approvals" +:+ " " +:+ ">= " +:+ d +:+ t).
    apply after_eq; auto.
Qed.

Definition presence_hits (c : clause) : list captures := map (λ f, [(1%nat, f)]) (present_of c).
Definition exact_hits (c : clause) : list captures := map (λ fv, [(3%nat, fv.2); (1%nat, fv.1)]) (equals_of c).
Definition approval_hits (c : clause) : list captures := map (λ d, [(1%nat, d)]) (approvals_in c).

Lemma clause_begins c t : clause_ok c → starts word_char (clause_text c +:+ t) = true.
Proof.
  destruct c as [f|f v|d]; cbn [clause_ok clause_text]; [intros [[? ?] _]|intros [[? ?] _]|done];
    rewrite !str_app_assoc; by apply starts_word.
Qed.

Lemma presence_clause c t : clause_ok c → tail t →
  presence_need (clause_text c +:+ t) = false ∧
  re_finditer presence_pattern 0 (clause_text c +:+ t) = presence_hits c ++ re_finditer presence_pattern 0 t.
Proof.
  intros Hc Ht. pose proof (tail_facts t Ht) as (Hw & _ & Hp & _). split.
  { unfold presence_need. rewrite after_clause, andb_comm by done. by destruct c. }
  destruct c as [f|f v|d].
  - destruct Hc as [[Hf Hf'] _]. apply finditer_hit; [by apply app_nonempty|].
    cbn [clause_text]. rewrite str_app_assoc. unfold re_match, presence_pattern. cbn [rseq foldr].
    by apply step_group.
  - destruct Hc as ([_ Hf] & Hv & _).
    apply (skip_equals _ _ presence_begins); (done || reflexivity || by destruct t).
  - destruct Hc as (_ & Hd & _). apply (skip_approvals _ _ presence_begins); (done || reflexivity).
Qed.

Lemma exact_clause c t : clause_ok c → tail t →
  exact_need (clause_text c +:+ t) = false ∧
  re_finditer exact_pattern 0 (clause_text c +:+ t) = exact_hits c ++ re_finditer exact_pattern 0 t.
Proof.
  intros Hc Ht. pose proof (tail_facts t Ht) as (Hw & _ & _ & He & _). split.
  { pose proof (clause_begins c t Hc) as Hs. unfold exact_need.
    destruct (clause_text c +:+ t) as [|a s]; [done|]. revert Hs. cbn [starts].
    by_chars (λ a, negb (word_char a) || negb (Ascii.eqb "=" a)) a. by destruct (word_char a), (Ascii.eqb "=" a). }
  destruct c as [f|f v|d].
  - destruct Hc as [[_ Hf] _]. apply (skip_present _ _ exact_begins); (done || reflexivity).
  - destruct Hc as ([Hf Hf'] & Hv & _). apply finditer_hit; [by apply app_nonempty|].
    cbn [clause_text]. rewrite !str_app_assoc. unfold re_match, exact_pattern, spaces0. cbn [rseq foldr].
    apply step_group; [done..|].
    change (" == '" +:+ v +:+ "'" +:+ t) with (" " +:+ "==" +:+ " " +:+ String single_quote (v +:+ String single_quote t)).
    apply step_star; [done..|]. apply step_left. rewrite step_lit. apply step_star; [done..|].
    apply step_right; [done|]. apply step_left. apply step_quoted; [|done].
    by apply (all_chars_impl word_char); [apply word_not_quote|].
  - destruct Hc as (_ & Hd & _). apply (skip_approvals _ _ exact_begins); (done || reflexivity).
Qed.

Lemma approval_clause c t : clause_ok c → tail t →
  approval_need (clause_text c +:+ t) = false ∧
  re_finditer approval_pattern 0 (clause_text c +:+ t) = approval_hits c ++ re_finditer approval_pattern 0 t.
Proof.
  intros Hc Ht. pose proof (tail_facts t Ht) as (Hw & Hd' & _ & _ & Ha). split.
  { pose proof (clause_begins c t Hc) as Hs. unfold approval_need.
    destruct (clause_text c +:+ t) as [|a s]; [done|]. revert Hs. cbn [starts].
    by_chars (λ a, negb (word_char a) || negb (op_char a)) a. by destruct (word_char a), (op_char a). }
  destruct c as [f|f v|d].
  - destruct Hc as [[_ Hf] _]. apply (skip_present _ _ approval_begins); (done || reflexivity).
  - destruct Hc as ([_ Hf] & Hv & _). apply (skip_equals _ _ approval_begins); (done || reflexivity).
  - destruct Hc as (Hd & Hdd & _). apply finditer_hit; [done|].
    cbn [clause_text]. rewrite !str_app_assoc. unfold re_match, approval_pattern, spaces0, ropt. cbn [rseq foldr].
    change ("approvals >= " +:+ d +:+ t) with ("approval" +:+ "s" +:+ " " +:+ ">=" +:+ " " +:+ d +:+ t).
    apply step_left. rewrite rmatch_seq, step_word. rewrite <-rmatch_seq. apply step_left. rewrite step_word.
    apply step_star; [done..|]. apply step_left. rewrite step_lit. apply step_star; [done| |].
    + destruct d as [|a d]; [done|]. apply all_chars_cons in Hdd as [Hx _]. by apply word_not_space, digit_word.
    + by apply step_group.
Qed.

(** * Values, field lists and the frame of a sentence *)

Lemma lstrip_id s : starts space_char s = false → lstrip s = s.
Proof. destruct s as [|a s]; [done|]. cbn. by intros ->. Qed.

Lemma rstrip_app x y : y ≠ "" → rstrip y = y → rstrip (x +:+ y) = x +:+ y.
Proof.
  intros Hy Hr. induction x as [|a x IH]; [done|]. cbn. rewrite IH.
  destruct (String.eqb_spec (x +:+ y) "") as [E|_]; [by destruct x|]. by rewrite andb_false_r.
Qed.

Lemma strip_word w : all_chars word_char w = true → strip w = w.
Proof.
  intros Hw. unfold strip. rewrite lstrip_id.
  - induction w as [|a w IH]; [done|]. apply all_chars_cons in Hw as [Ha Hw]. cbn.
    rewrite IH by done. by rewrite (word_not_space a Ha).
  - destruct w as [|a w]; [done|]. apply all_chars_cons in Hw as [Ha _]. by apply word_not_space.
Qed.

Lemma starts_ends_word q v : word_char q = false → all_chars word_char v = true → starts_ends q v = false.
Proof.
  intros Hq Hv. destruct v as [|a v]; [done|]. apply all_chars_cons in Hv as [Ha _]. cbn.
  destruct (Ascii.eqb_spec a q); [congruence|done].
Qed.

Lemma fullmatch_digits v :
  all_chars word_char v = true →
  (match re_fullmatch (RSeq (ropt (rlit "-")) (rplus ascii_digit)) v with Some _ => true | None => false end) =
  negb (String.eqb v "") && all_chars ascii_digit v.
Proof.
  intros Hv. unfold re_fullmatch, ropt.
  destruct (negb (String.eqb v "") && all_chars ascii_digit v) eqn:E.
  - apply andb_true_iff in E as [Hne%negb_true_iff%String.eqb_neq Hd].
    erewrite step_right; [done| |].
    + destruct v as [|a v]; [done|]. apply all_chars_cons in Hd as [Ha _].
      unfold rlit. cbn [rseq foldr map String.list_ascii_of_string rmatch].
      by destruct (Ascii.eqb_spec "-" a) as [<-|_].
    + cbn [rmatch]. rewrite <-(str_app_nil v). by apply plus_greedy.
  - destruct (rmatch _ _ _ _) as [c|] eqn:Em; [|done].
    apply rmatch_sound in Em as (s' & c' & Ha & Hk). destruct (String.eqb_spec s' "") as [->|]; [|done].
    inv_accepts; [done|]. rewrite str_app_nil in *.
    match goal with H : _ ≠ "" |- _ => apply String.eqb_neq in H; rewrite H in E end.
    cbn in E. congruence.
Qed.

Lemma normalize_literal_word v :
  all_chars word_char v = true → (String.length v ≤ 4300)%nat → normalize_literal v = Ok (literal_of v).
Proof.
  intros Hv Hl. unfold normalize_literal, literal_of. rewrite strip_word by done.
  rewrite !starts_ends_word by done. pose proof (fullmatch_digits v Hv) as Hf.
  destruct (String.eqb_spec v "") as [->|Hne]; [done|]. cbn [orb negb andb] in *.
  destruct (str_in _ _); [done|]. destruct (re_fullmatch _ v) as [c|]; rewrite <-Hf; [|done].
  unfold literal_int. destruct v as [|a v]; [done|].
  symmetry in Hf. apply all_chars_cons in Hf as [Ha _].
  destruct (Ascii.eqb_spec a "-") as [->|_]; [done|]. by rewrite (proj2 (Nat.leb_le _ _) Hl).
Qed.

Lemma read_exacts_stated cs acc :
  Forall clause_ok cs →
  read_exacts (flat_map exact_hits cs) acc =
  Ok (assoc_update acc (map (λ fv, (fv.1, literal_of fv.2)) (flat_map equals_of cs))).
Proof.
  intros H. revert acc. induction H as [|c cs Hc _ IH]; intros acc; [done|].
  destruct c as [f|f v|d]; cbn [flat_map exact_hits equals_of map app read_exacts]; [apply IH| |apply IH].
  destruct Hc as (_ & Hv & Hl). cbn [first_group group fst snd].
  change (first_group [(3%nat, v); (1%nat, f)]) with v. rewrite normalize_literal_word by done. apply IH.
Qed.

(** ** The list of present fields *)

Lemma separator_begins s c s' c' :
  accepts separator_pattern s c s' c' → starts space_char s || starts (Ascii.eqb ",") s = true.
Proof.
  unfold separator_pattern, spaces0, spaces1. cbn [rseq foldr]. intros H. apply orb_true_iff. inv_accepts;
    match goal with |- context [starts space_char (?w +:+ ?t)] =>
      destruct (base.decide (w = "")) as [->|Hw]; [|left; by apply starts_all] end; try done.
  match goal with H : Ascii.eqb "," _ = true |- _ => by right end.
Qed.

Lemma split_word w r cur :
  all_chars word_char w = true →
  re_split separator_pattern 0 cur (w +:+ r) = re_split separator_pattern 0 (cur +:+ w) r.
Proof.
  revert cur. induction w as [|a w IH]; intros cur Hw; [by rewrite str_app_nil|].
  apply all_chars_cons in Hw as [Ha Hw]. cbn [String.append re_split].
  rewrite (proj2 (proj1 (re_match_accepts separator_pattern (String a (w +:+ r))))).
  - rewrite IH by done. by rewrite str_app_assoc.
  - intros s' c' Hacc%separator_begins. cbn [starts] in Hacc. rewrite (word_not_space a Ha) in Hacc. cbn [orb] in Hacc.
    revert Ha Hacc. by_chars (λ a, negb (word_char a) || negb (Ascii.eqb "," a)) a.
    by destruct (word_char a), (Ascii.eqb "," a).
Qed.

Lemma comma_inv s c s' c' :
  accepts (rseq [spaces0; RChar (Ascii.eqb ","); spaces0]) s c s' c' →
  starts (Ascii.eqb ",") (drop_while space_char s) = true.
Proof.
  unfold spaces0. cbn [rseq foldr]. intros H. inv_accepts. rewrite drop_while_app by done.
  match goal with H : Ascii.eqb "," _ = true |- _ => by apply Ascii.eqb_eq in H as <- end.
Qed.

Lemma and_inv s c s' c' :
  accepts (rseq [spaces1; rlit "and"; spaces1]) s c s' c' →
  ∃ t, drop_while space_char s = "and" +:+ t ∧ starts space_char t = true.
Proof.
  unfold spaces1. cbn [rseq foldr]. intros H. inv_accepts.
  rewrite drop_while_app by done. eexists. split; [reflexivity|]. by apply starts_all.
Qed.

Lemma rmatch_none {X} r s c (k : string → captures → option X) :
  (∀ s' c', ¬ accepts r s c s' c') → rmatch r s c k = None.
Proof.
  intros H. destruct (rmatch r s c k) eqn:E; [|done].
  apply rmatch_sound in E as (s' & c' & Ha & _). by apply H in Ha.
Qed.

(** Between two fields the separator is one space. *)
Lemma separator_match f r :
  is_word f → f ≠ "and" → starts word_char r = false →
  re_match separator_pattern (" " +:+ f +:+ r) = Some (f +:+ r, []).
Proof.
  intros [Hf Hw] Hand Hr.
  assert (starts space_char (f +:+ r) = false ∧ starts (Ascii.eqb ",") (f +:+ r) = false) as [Hs Hc].
  { destruct f as [|a f]; [done|]. apply all_chars_cons in Hw as [Ha _].
    split; [by apply word_not_space|]. cbn [String.append starts]. revert Ha.
    by_chars (λ a, negb (word_char a) || negb (Ascii.eqb "," a)) a.
    by destruct (word_char a), (Ascii.eqb "," a). }
  assert (drop_while space_char (" " +:+ f +:+ r) = f +:+ r) as Hd.
  { rewrite drop_while_app by done. by apply drop_while_id. }
  unfold re_match, separator_pattern. cbn [rmatch]. rewrite rmatch_none, rmatch_none.
  - unfold spaces1. by apply (plus_greedy space_char " ").
  - intros s' c' (t & E & Ht)%and_inv. rewrite Hd in E. apply Hand.
    assert (r = t) as ->.
    { rewrite <-(drop_while_id word_char r), <-(drop_while_app word_char f), E by done.
      rewrite drop_while_app by done. apply drop_while_id. destruct t as [|b t]; [done|].
      by apply space_not_word. }
    by rewrite <-(consumed_app f t), E, consumed_app.
  - intros s' c' Ha%comma_inv. rewrite Hd in Ha. congruence.
Qed.

Lemma join_cons f g fs : join " " (f :: g :: fs) = f +:+ " " +:+ join " " (g :: fs).
Proof. done. Qed.

(** A list of words ends as its last word does. *)
Lemma join_words f fs :
  Forall is_word (f :: fs) →
  (∃ r, starts word_char r = false ∧ join " " (f :: fs) = f +:+ r) ∧
  (∃ x w, is_word w ∧ join " " (f :: fs) = x +:+ w).
Proof.
  revert f. induction fs as [|g fs IH]; intros f [Hf H]%Forall_cons.
  - split; [exists ""; by rewrite str_app_nil|by exists "", f].
  - rewrite join_cons. destruct (IH g H) as [_ (x & w & Hw & ->)].
    split; [by exists (" " +:+ x +:+ w)|]. exists (f +:+ " " +:+ x), w. by rewrite !str_app_assoc.
Qed.

Lemma rstrip_word x w : is_word w → rstrip (x +:+ w) = x +:+ w.
Proof.
  intros [Hne Hw]. apply rstrip_app; [done|]. clear Hne. induction w as [|a w IH]; [done|].
  apply all_chars_cons in Hw as [Ha Hw]. cbn. rewrite IH by done. by rewrite (word_not_space a Ha).
Qed.

Lemma split_words f fs cur :
  Forall is_word (f :: fs) → Forall (λ w, w ≠ "and") fs →
  re_split separator_pattern 0 cur (join " " (f :: fs)) = (cur +:+ f) :: fs.
Proof.
  intros H Hand. revert f cur H. induction Hand as [|g fs Hg Hand IH]; intros f cur [[Hf Hw] H]%Forall_cons.
  - change (join " " [f]) with f. rewrite <-(str_app_nil f) at 1. by rewrite split_word.
  - pose proof H as [Hgw _]%Forall_cons. destruct (join_words g fs H) as [(r & Hr & E) _].
    rewrite join_cons, split_word, E by done. cbn [String.append re_split].
    pose proof (separator_match g r Hgw Hg Hr) as Hm. cbn [String.append] in Hm. rewrite Hm.
    replace (String.length (String " " (g +:+ r)) - String.length (g +:+ r) - 1)%nat with O by (cbn [String.length]; lia).
    by rewrite <-E, IH.
Qed.

Lemma split_fields_words f fs :
  Forall is_word (f :: fs) → Forall (λ w, w ≠ "and") fs → split_fields (join " " (f :: fs)) = f :: fs.
Proof.
  intros H Hand. unfold split_fields. destruct (join_words f fs H) as [(r & _ & E) (x & w & Hw & E')].
  pose proof H as [[Hf Hfw] _]%Forall_cons.
  assert (strip (join " " (f :: fs)) = join " " (f :: fs)) as ->.
  { unfold strip. rewrite lstrip_id; [by rewrite E', rstrip_word|]. rewrite E.
    destruct f as [|a f]; [done|]. apply all_chars_cons in Hfw as [Ha _]. by apply word_not_space. }
  destruct (String.eqb_spec (join " " (f :: fs)) "") as [E0|_]; [rewrite E in E0; by destruct f|].
  rewrite split_words by done. cbn [String.append]. clear -H.
  assert (∀ l, Forall is_word l →
    List.filter (λ p, negb (String.eqb (strip p) "")) l = l ∧ map strip l = l ∧
    List.filter (λ p, negb (String.eqb p "")) l = l) as Hid.
  { induction 1 as [|g l [Hg Hw] Hl (I1 & I2 & I3)]; [done|]. cbn [List.filter map].
    rewrite strip_word by done. destruct (String.eqb_spec g ""); [done|]. cbn [negb]. by rewrite I1, I2, I3. }
  destruct (Hid _ H) as (-> & -> & ->). done.
Qed.

(** * A sentence as a whole *)

Lemma flat_map_caps {A} (g : clause → list A) (h : A → captures) (out : captures → A) cs :
  (∀ a, out (h a) = a) → map out (flat_map (λ c, map h (g c)) cs) = flat_map g cs.
Proof.
  intros Ho. induction cs as [|c cs IH]; [done|]. cbn [flat_map]. rewrite map_app, IH. f_equal.
  induction (g c) as [|a l IHl]; [done|]. cbn. by rewrite Ho, IHl.
Qed.

Section Clauses.
Context (c : clause) (cs : list clause) (Hc : clause_ok c) (Hcs : Forall clause_ok cs).

Lemma found_presence : re_finditer presence_pattern 0 (clauses_text c cs) = flat_map presence_hits (c :: cs).
Proof. by apply (find_clauses _ _ _ presence_begins presence_clause). Qed.

Lemma found_exact : re_finditer exact_pattern 0 (clauses_text c cs) = flat_map exact_hits (c :: cs).
Proof. by apply (find_clauses _ _ _ exact_begins exact_clause). Qed.

Lemma found_approvals : re_finditer approval_pattern 0 (clauses_text c cs) = flat_map approval_hits (c :: cs).
Proof. by apply (find_clauses _ _ _ approval_begins approval_clause). Qed.

Lemma present_fields :
  Forall is_word (flat_map present_of (c :: cs)) ∧ Forall (λ w, w ≠ "and") (flat_map present_of (c :: cs)).
Proof.
  assert (Forall clause_ok (c :: cs)) as H by (by constructor). clear Hc Hcs.
  induction H as [|d ds Hd _ [IH1 IH2]]; [done|]. cbn [flat_map].
  split; apply Forall_app; (split; [|done]); destruct d; cbn [present_of]; constructor; (done || by destruct Hd || constructor).
Qed.

Lemma assoc_set_not_nil {A} k (v : A) d : assoc_set k v d ≠ [].
Proof. destruct d as [|[k' v'] d]; cbn; [done|]. by destruct (String.eqb k k'). Qed.

Lemma assoc_update_not_nil {A} (d e : list (string * A)) : d ≠ [] → assoc_update d e ≠ [].
Proof.
  revert d. induction e as [|[k v] e IH]; intros d Hd; [done|]. apply IH, assoc_set_not_nil.
Qed.

Lemma conditional_rule_stated action :
  conditional_rule (sentence action c cs) action (clauses_text c cs) = Ok (stated_rule action c cs).
Proof.
  unfold conditional_rule. rewrite found_presence, found_exact, search_finditer, found_approvals by done.
  rewrite read_exacts_stated by (by constructor).
  unfold presence_hits. rewrite (flat_map_caps present_of (λ f, [(1%nat, f)]) (captured 1)) by done.
  set (fields := flat_map present_of (c :: cs)).
  replace (match fields with [] => [] | _ :: _ => split_fields (join " " fields) end) with fields.
  2:{ pose proof present_fields as [H1 H2]. fold fields in H1, H2. destruct fields as [|f fs]; [done|].
      apply Forall_cons in H2 as [_ H2]. by rewrite split_fields_words. }
  assert ((match head (flat_map approval_hits (c :: cs)) with
           | Some a => match literal_int (captured 1 a) with
                       | Ok (PInt z) => Ok z | Ok _ => Ok 0 | Raise e => Raise e end
           | None => Ok 0
           end) = Ok (gr_required_approvals (stated_rule action c cs))) as ->.
  { cbn [stated_rule gr_required_approvals].
    assert (Forall clause_ok (c :: cs)) as H by (by constructor). clear fields Hc Hcs.
    induction H as [|d ds Hd _ IH]; [done|]. destruct d as [f|f v|d]; cbn [flat_map approval_hits approvals_in map app];
      [apply IH..|]. cbn [head]. change (captured 1 [(1%nat, d)]) with d. unfold literal_int.
    destruct Hd as (Hd & Hdd & Hl & _). destruct d as [|a d]; [done|]. pose proof Hdd as [Ha _]%all_chars_cons.
    destruct (Ascii.eqb_spec a "-") as [->|_]; [done|]. by rewrite (proj2 (Nat.leb_le _ _) Hl). }
  unfold mbind, res_bind.
  match goal with |- context [fail_if ?b _] => assert (b = false) as -> end; [|done].
  unfold fields. destruct c as [f|f v|d]; cbn [flat_map present_of equals_of map app]; [done| |].
  - destruct (flat_map present_of cs); [|done].
    destruct (assoc_update _ _) eqn:E; [|done]. by apply (assoc_update_not_nil (assoc_set f (literal_of v) [])) in E.
  - destruct (flat_map present_of cs); [|done]. destruct (assoc_update _ _); [|done].
    cbn. apply Z.eqb_neq. destruct Hc as (_ & _ & _ & ?). lia.
Qed.

(** ** Characters *)

Lemma clauses_chars (p : ascii → bool) :
  (∀ a, word_char a = true → p a = true) → all_chars p " =>'" = true → all_chars p (clauses_text c cs) = true.
Proof.
  intros Hw Hp.
  assert (∀ a, Ascii.eqb a " " || Ascii.eqb a "=" || Ascii.eqb a ">" || Ascii.eqb a single_quote = true → p a = true) as Hq.
  { rewrite !all_chars_cons in Hp. intros a Ha. rewrite !orb_true_iff in Ha.
    destruct Hp as (H1 & H2 & H3 & H4 & _).
    destruct Ha as [[[->%Ascii.eqb_eq| ->%Ascii.eqb_eq]| ->%Ascii.eqb_eq]| ->%Ascii.eqb_eq];
      [exact H1|exact H2|exact H3|exact H4]. }
  assert (∀ s, all_chars (λ a, word_char a || Ascii.eqb a " " || Ascii.eqb a "=" || Ascii.eqb a ">" ||
                               Ascii.eqb a single_quote) s = true → all_chars p s = true) as Hlit.
  { intros s. apply all_chars_impl. intros a Ha. rewrite <-!orb_assoc in Ha.
    apply orb_true_iff in Ha as [Ha|Ha]; [auto|]. apply Hq. by rewrite <-!orb_assoc. }
  assert (∀ d, clause_ok d → all_chars p (clause_text d) = true) as Hd.
  { intros [f|f v|d]; cbn [clause_ok clause_text].
    - intros [[_ Hf] _]. apply all_chars_append. split; [by apply (all_chars_impl word_char)|by apply Hlit].
    - intros ([_ Hf] & Hv & _). rewrite !all_chars_append. split_and!;
        (by apply (all_chars_impl word_char)) || by apply Hlit.
    - intros (_ & Hx & _). apply all_chars_append. split; [by apply Hlit|].
      apply (all_chars_impl ascii_digit); [|done]. intros a Ha. by apply Hw, digit_word. }
  revert c Hc. induction Hcs as [|d ds Hd' Hds IH]; intros e He; cbn [clauses_text]; [by apply Hd|].
  rewrite !all_chars_append. split_and!; [by apply Hd|by apply Hlit|by apply IH].
Qed.

Lemma clauses_end : ∃ x y, clauses_text c cs = x +:+ y ∧ y ≠ "" ∧ rstrip y = y.
Proof.
  revert c Hc. induction Hcs as [|d ds Hd Hds IH]; intros e He; cbn [clauses_text].
  - destruct e as [f|f v|d]; cbn [clause_text].
    + exists (f +:+ " is "), "present". by rewrite str_app_assoc.
    + exists (f +:+ " == '" +:+ v), "'". by rewrite !str_app_assoc.
    + exists "approvals >= ", d. destruct He as (Hd & Hdd & _). split; [done|]. split; [done|].
      apply (rstrip_word "" d). split; [done|]. by apply (all_chars_impl ascii_digit word_char); [apply digit_word|].
  - destruct (IH Hds d Hd) as (x & y & -> & Hy & Hr). exists (clause_text e +:+ " and " +:+ x), y.
    by rewrite !str_app_assoc.
Qed.

Lemma clauses_begin : starts word_char (clauses_text c cs) = true.
Proof.
  destruct cs as [|d ds]; cbn [clauses_text]; [rewrite <-(str_app_nil (clause_text c))|]; by apply clause_begins.
Qed.
End Clauses.

Lemma ascii_str_chars s : ascii_str s = all_chars is_ascii_char s.
Proof. unfold ascii_str. induction s as [|a s IH]; [done|]. cbn. by rewrite IH. Qed.

(** * Properties *)

(** C15. A sentence that allows an action under one or more clauses - a field is
    present, a field has a quoted value, at least so many approvals - is read
    back as exactly the rule it states, for all action, field and value words:
    the fields in order, each value read as a boolean, a number or a text, the
    first quorum, and the sentence itself as the description. *)
Theorem sentence_read_back (action : string) (c : clause) (cs : list clause) :
  is_word action → clause_ok c → Forall clause_ok cs →
  coerce_rule (PStr (sentence action c cs)) = Ok (stated_rule action c cs).
Proof.
  intros [Ha Haw] Hc Hcs. cbn [coerce_rule].
  assert (ascii_str (sentence action c cs) = true) as ->.
  { rewrite ascii_str_chars. unfold sentence.
    assert (∀ a, word_char a = true → is_ascii_char a = true) as Hw.
    { intros a. by_chars (λ a, negb (word_char a) || is_ascii_char a) a. by destruct (word_char a). }
    rewrite !all_chars_append. split_and!; [done|by apply (all_chars_impl word_char)|done|by apply clauses_chars]. }
  unfold sentence_rule.
  assert (strip (sentence action c cs) = sentence action c cs) as ->.
  { unfold strip. rewrite lstrip_id by done. destruct (clauses_end c cs Hc Hcs) as (x & y & E & Hy & Hr).
    unfold sentence. rewrite E, <-!str_app_assoc. by apply rstrip_app. }
  assert (re_match conditional_pattern (sentence action c cs) =
          Some ("", [(2%nat, clauses_text c cs); (1%nat, action)])) as Hm.
  { pose proof (clauses_begin c cs Hc Hcs) as Hb.
    unfold re_match, conditional_pattern, sentence, spaces1. cbn [rseq foldr].
    change ("allow " +:+ action +:+ " when " +:+ clauses_text c cs) with
      ("allow" +:+ " " +:+ action +:+ " " +:+ "when" +:+ " " +:+ clauses_text c cs).
    apply step_left. rewrite step_word. apply step_plus; [done..| |].
    { destruct action as [|a w]; [done|]. apply all_chars_cons in Haw as [Hx _]. by apply word_not_space. }
    apply step_group; [done..|]. apply step_plus; [done..|]. apply step_left. rewrite step_word.
    apply step_plus; [done..| |].
    { revert Hb. destruct (clauses_text c cs) as [|a s]; [done|]. apply word_not_space. }
    rewrite rmatch_seq. cbn [rmatch]. rewrite <-(str_app_nil (clauses_text c cs)) at 1.
    apply star_greedy; [|done|].
    - apply clauses_chars; [done..|apply word_not_newline|done].
    - cbn. rewrite <-(str_app_nil (clauses_text c cs)) at 1. by rewrite consumed_app. }
  rewrite Hm. change (captured 1 _) with action. change (captured 2 _) with (clauses_text c cs).
  by apply conditional_rule_stated.
Qed.

Lemma sentence_read_back_witness :
  coerce_rule (PStr "allow deploy when target is present and tenant == 'acme' and approvals >= 2") =
  Ok {| gr_action := "deploy"; gr_required_fields := ["target"]; gr_exact_fields := [("tenant", PStr "acme")];
        gr_required_context := []; gr_exact_context := [];
        gr_description := "allow deploy when target is present and tenant == 'acme' and approvals >= 2";
        gr_required_approvals := 2 |}.
Proof.
  refine (sentence_read_back "deploy" (Present "target") [Equals "tenant" "acme"; Approvals "2"] _ _ _);
    repeat constructor; done || lia.
Defined.

(** ** Clauses that are not what they seem *)

(** Of fields in a list only the last is required. *)
Lemma field_list_dropped :
  (r ← sentence_rule "allow deploy when target and image are present"; Ok (gr_required_fields r)) = Ok ["image"].
Proof. reflexivity. Qed.

(** A strict comparison asks for one approval less than it says. *)
Lemma strict_quorum_weakened :
  (r ← sentence_rule "allow deploy when approvals > 2"; Ok (gr_required_approvals r)) = Ok 2.
Proof. reflexivity. Qed.

(** A clause that no pattern knows is dropped without an error. *)
Lemma unknown_clause_dropped :
  (r ← sentence_rule "allow transfer when amount <= 100 and account is present";
   Ok (gr_required_fields r, gr_exact_fields r)) = Ok (["account"], []).
Proof. reflexivity. Qed.

(** A presence in the other sentence form demands the value "present". *)
Lemma presence_as_value :
  (r ← sentence_rule "require transfer amount is present"; Ok (gr_exact_fields r)) =
  Ok [("amount", PStr "present")].
Proof. reflexivity. Qed.

(** A mapping without an action is a rule for the action "None". *)
Lemma missing_action_named_none :
  (r ← from_mapping [("required_fields", PList [PStr "target"])]; Ok (gr_action r)) = Ok "None".
Proof. reflexivity. Qed.
