(* ===== verification/PolicyStorage.v ===== *)
(** policy_registry.py: policy records, their signatures, and the two storages.

    A storage is an instance of the class [PolicyStorage]: the process-local
    dictionary and the write-once files, with the contract [PolicyStorageLaws]
    that the registry is verified against.

    The JSON Schema validator (package jsonschema) and the parsing of ISO-8601
    timestamps are the parameters [PolicySchema] and [IsoTime]. *)

From S2P Require Import Prelude PyFloat PyVal Json Sha256 Base64 Crypto Trust Models Policy Orders SemVer.

Definition POLICY_RECORD_SCHEMA_VERSION : string := "1.0".
Definition POLICY_SIGNATURE_ALGORITHM : string := "ed25519".
Definition MAX_POLICY_BYTES : Z := 1024 * 1024.
Definition MAX_POLICY_RECORD_BYTES : Z := MAX_POLICY_BYTES + 8192.

Definition policy_not_found (policy_id version : string) : exn :=
  PolicyNotFoundError (policy_id +:+ "@" +:+ version).

(** ** The schema validator *)

Class PolicySchema := {
  (** path and message of each error of [_validator().iter_errors(policy)] *)
  schema_errors : pyval → list (list string * string)
}.

(** What the code relies on: the schema requires an object with [id] and
    [version], of the patterns that the schema states. *)
Class PolicySchemaLaws (P : PolicySchema) : Prop := {
  schema_accepts : ∀ v, schema_errors v = [] →
    ∃ d id version, v = PDict d ∧ assoc_get "id" d = Some (PStr id) ∧
      assoc_get "version" d = Some (PStr version) ∧ id_match id = true ∧
      is_Some (semver_match version)
}.

Definition validate_policy `{P : PolicySchema} (policy : pyval) : res unit :=
  if negb (is_dict policy) then Raise (PolicyValidationError "policy must be an object") else
  encoded ← res_except (canonical_json policy)
    (λ e, if is_TypeError e || is_ValueError e
          then Some (PolicyValidationError "policy is not canonical JSON serializable") else None);
  fail_if (MAX_POLICY_BYTES <? Z.of_nat (String.length encoded))
    (PolicyValidationError ("policy exceeds " +:+ string_of_Z MAX_POLICY_BYTES +:+ " byte limit")) ;;
  let errors := sort_leb fst (list_leb String.leb) (schema_errors policy) in
  let where_ path := let p := join "/" path in if String.eqb p "" then "<root>" else p in
  fail_if (match errors with [] => false | _ => true end)
    (PolicyValidationError (join "; " (map (λ e, where_ e.1 +:+ ": " +:+ e.2) errors))).

(** ** Records *)

(** Fields read from a file are not checked, so they are any JSON value. *)
Record PolicySignature := {
  sg_signer_id : pyval;
  sg_algorithm : pyval;
  sg_signature : pyval;
  sg_signed_at : pyval
}.

Record StoredPolicy := {
  sp_id : string;
  sp_version : string;
  sp_content_hash : pyval;
  sp_policy : pyval;
  sp_schema_version : pyval;
  sp_signature : option PolicySignature
}.

Definition signed_payload (s : StoredPolicy) : res string :=
  match sp_signature s with
  | None => Raise (PolicySignatureError "policy has no publication signature")
  | Some g =>
      canonical_json (PDict
        [("content_digest", sp_content_hash s); ("policy", sp_policy s);
         ("policy_id", PStr (sp_id s)); ("schema_version", sp_schema_version s);
         ("signature_algorithm", sg_algorithm g); ("signed_at", sg_signed_at g);
         ("signer_id", sg_signer_id g); ("version", PStr (sp_version s))])
  end.

(** [asdict(signature)] *)
Definition signature_dict (g : PolicySignature) : pyval :=
  PDict [("signer_id", sg_signer_id g); ("algorithm", sg_algorithm g);
         ("signature", sg_signature g); ("signed_at", sg_signed_at g)].

Definition opt_signature (o : option PolicySignature) : pyval :=
  match o with Some g => signature_dict g | None => PNone end.

(** [a == b] of the dataclass *)
Definition stored_eqb (a b : StoredPolicy) : bool :=
  String.eqb (sp_id a) (sp_id b) && String.eqb (sp_version a) (sp_version b) &&
  py_eqb (sp_content_hash a) (sp_content_hash b) && py_eqb (sp_policy a) (sp_policy b) &&
  py_eqb (sp_schema_version a) (sp_schema_version b) &&
  py_eqb (opt_signature (sp_signature a)) (opt_signature (sp_signature b)).

(** ** The storage boundary *)

Class PolicyStorage (T : Type) := {
  storage_get : T → string → string → res (option StoredPolicy);
  storage_put : StoredPolicy → M T unit;
  storage_versions : T → string → list string;
  (** [None] when the storage has no [load_state] and [save_state] *)
  storage_load_state : T → option (res pydict);
  storage_save_state : option (pydict → M T unit)
}.

(** *** [InMemoryPolicyStorage] *)

Definition memory_key (id version : string) (kv : (string * string) * StoredPolicy) : bool :=
  String.eqb kv.1.1 id && String.eqb kv.1.2 version.

Definition InMemoryPolicyStorage : Type := list ((string * string) * StoredPolicy).

Definition memory_get (t : InMemoryPolicyStorage) (id version : string) : option StoredPolicy :=
  snd <$> List.find (memory_key id version) t.

Definition memory_put (s : StoredPolicy) (t : InMemoryPolicyStorage) : InMemoryPolicyStorage :=
  if existsb (memory_key (sp_id s) (sp_version s)) t
  then map (λ kv, if memory_key (sp_id s) (sp_version s) kv then (kv.1, s) else kv) t
  else t ++ [((sp_id s, sp_version s), s)].

Definition memory_versions (t : InMemoryPolicyStorage) (id : string) : list string :=
  map (λ kv, kv.1.2) (List.filter (λ kv, String.eqb kv.1.1 id) t).

#[export] Instance memory_storage : PolicyStorage InMemoryPolicyStorage := {|
  storage_get := λ t id version, Ok (memory_get t id version);
  storage_put := λ s, modify (memory_put s);
  storage_versions := memory_versions;
  storage_load_state := λ _, None;
  storage_save_state := None
|}.

(** *** [FilePolicyStorage]: the texts of [<root>/<id>/<version>.json] in
    directory order, and the text of the state file *)

Record FilePolicyStorage := {
  fp_files : list ((string * string) * string);
  fp_state : option string
}.

Definition file_key (id version : string) (kv : (string * string) * string) : bool :=
  String.eqb kv.1.1 id && String.eqb kv.1.2 version.

Definition file_text (t : FilePolicyStorage) (id version : string) : option string :=
  snd <$> List.find (file_key id version) (fp_files t).

(** [_path] *)
Definition check_path (id version : string) : res unit :=
  fail_if (negb (id_match id) || match semver_match version with Some _ => false | None => true end)
    (ValueError "invalid policy id or version").

(** [d[k]] *)
Definition dict_item (k : string) (d : pydict) : res pyval :=
  match assoc_get k d with Some v => Ok v | None => Raise (KeyError k) end.

Definition read_signature (v : pyval) : res (option PolicySignature) :=
  match v with
  | PDict d =>
      signer ← dict_item "signer_id" d;
      algorithm ← dict_item "algorithm" d;
      signature ← dict_item "signature" d;
      signed_at ← dict_item "signed_at" d;
      Ok (Some {| sg_signer_id := signer; sg_algorithm := algorithm; sg_signature := signature;
                  sg_signed_at := signed_at |})
  | _ => Ok None
  end.

Definition read_record (id version text : string) : res StoredPolicy :=
  record ← json_loads text;
  match record with
  | PDict d =>
      signature ← read_signature (dict_get "signature" d);
      content_hash ← dict_item "content_hash" d;
      policy ← dict_item "policy" d;
      Ok {| sp_id := id; sp_version := version; sp_content_hash := content_hash;
            sp_policy := policy;
            sp_schema_version := dict_get_or "schema_version" (PStr POLICY_RECORD_SCHEMA_VERSION) d;
            sp_signature := signature |}
  | _ => Raise (AttributeError "get")
  end.

Definition file_get (t : FilePolicyStorage) (id version : string) : res (option StoredPolicy) :=
  check_path id version ;;
  let name := id +:+ "@" +:+ version in
  match file_text t id version with
  | None => Ok None
  | Some text =>
      fail_if (MAX_POLICY_RECORD_BYTES <? Z.of_nat (String.length text))
        (PolicyIntegrityError ("stored policy record exceeds size limit: " +:+ name)) ;;
      s ← res_except (read_record id version text)
        (λ e, if is_KeyError e || is_TypeError e || is_ValueError e
              then Some (PolicyIntegrityError ("stored policy record is malformed: " +:+ name))
              else None);
      Ok (Some s)
  end.

Definition record_dict (s : StoredPolicy) : pydict :=
  [("content_hash", sp_content_hash s); ("policy", sp_policy s);
   ("schema_version", sp_schema_version s); ("signature", opt_signature (sp_signature s))].

(** The link of the temporary file fails when the record exists. *)
Definition file_put (s : StoredPolicy) : M FilePolicyStorage unit :=
  t ← get_state;
  lift_res (check_path (sp_id s) (sp_version s)) ;;
  text ← lift_res (canonical_json (PDict (record_dict s)));
  match file_text t (sp_id s) (sp_version s) with
  | None =>
      put_state {| fp_files := fp_files t ++ [((sp_id s, sp_version s), text)];
                   fp_state := fp_state t |}
  | Some _ =>
      existing ← lift_res (file_get t (sp_id s) (sp_version s));
      raise_if (match existing with Some e => negb (stored_eqb e s) | None => true end)
        (PolicyImmutabilityError
          ("policy " +:+ sp_id s +:+ "@" +:+ sp_version s +:+ " already exists"))
  end.

Definition file_versions (t : FilePolicyStorage) (id : string) : list string :=
  if id_match id then
    List.filter (λ v, match semver_match v with Some _ => true | None => false end)
      (map (λ kv, kv.1.2) (List.filter (λ kv, String.eqb kv.1.1 id) (fp_files t)))
  else [].

Definition file_load_state (t : FilePolicyStorage) : res pydict :=
  match fp_state t with
  | None => Ok []
  | Some text =>
      match json_loads text with
      | Raise e =>
          Raise (PolicyIntegrityError "policy lifecycle state could not be loaded safely")
      | Ok (PDict d) => Ok d
      | Ok _ => Raise (PolicyIntegrityError "policy lifecycle state must be an object")
      end
  end.

Definition file_save_state (payload : pydict) : M FilePolicyStorage unit :=
  text ← lift_res (canonical_json (PDict payload));
  modify (λ t, {| fp_files := fp_files t; fp_state := Some text |}).

#[export] Instance file_storage : PolicyStorage FilePolicyStorage := {|
  storage_get := file_get;
  storage_put := file_put;
  storage_versions := file_versions;
  storage_load_state := λ t, Some (file_load_state t);
  storage_save_state := Some file_save_state
|}.

(** * The contract of a storage *)

(** A record that a file holds without change: JSON whose dictionaries are
    sorted, under a valid name, within the size limit. *)
Record record_ok (s : StoredPolicy) : Prop := {
  record_path : check_path (sp_id s) (sp_version s) = Ok tt;
  record_safe : json_safe canonical_style (PDict (record_dict s)) = true;
  record_wf : wf (PDict (record_dict s)) = true;
  record_hash_norm : norm (sp_content_hash s) = sp_content_hash s;
  record_policy_norm : norm (sp_policy s) = sp_policy s;
  record_schema_norm : norm (sp_schema_version s) = sp_schema_version s;
  record_signature_norm : ∀ g, sp_signature s = Some g →
    norm (sg_signer_id g) = sg_signer_id g ∧ norm (sg_algorithm g) = sg_algorithm g ∧
    norm (sg_signature g) = sg_signature g ∧ norm (sg_signed_at g) = sg_signed_at g;
  record_size : Z.of_nat (String.length (json_text canonical_style (PDict (record_dict s)))) ≤
    MAX_POLICY_RECORD_BYTES
}.

Class PolicyStorageLaws (T : Type) {PS : PolicyStorage T} : Prop := {
  put_other : ∀ s t i v, (i, v) ≠ (sp_id s, sp_version s) →
    storage_get (storage_put s t).2 i v = storage_get t i v;
  put_new : ∀ s t, record_ok s → storage_get t (sp_id s) (sp_version s) = Ok None →
    ∃ t', storage_put s t = (Ok tt, t') ∧ storage_get t' (sp_id s) (sp_version s) = Ok (Some s);
  save_get : ∀ f p t i v, storage_save_state (T := T) = Some f →
    storage_get (f p t).2 i v = storage_get t i v
}.

(** ** The dictionary *)

Lemma memory_get_app t kv id version :
  memory_get (t ++ [kv]) id version =
  match memory_get t id version with
  | Some s => Some s
  | None => if memory_key id version kv then Some kv.2 else None
  end.
Proof.
  unfold memory_get. induction t as [|x t IH]; simpl; [by destruct (memory_key _ _ kv)|].
  by destruct (memory_key id version x).
Qed.

Lemma memory_get_none t id version :
  memory_get t id version = None → existsb (memory_key id version) t = false.
Proof.
  unfold memory_get. induction t as [|x t IH]; simpl; [done|].
  by destruct (memory_key id version x).
Qed.

Lemma memory_key_other s i v (kv : (string * string) * StoredPolicy) :
  (i, v) ≠ (sp_id s, sp_version s) → memory_key (sp_id s) (sp_version s) kv = true →
  memory_key i v kv = false.
Proof.
  unfold memory_key. intros Hne [H1%String.eqb_eq H2%String.eqb_eq]%andb_true_iff.
  rewrite H1, H2. apply andb_false_iff.
  destruct (String.eqb_spec (sp_id s) i) as [He|]; [right|by left].
  apply String.eqb_neq. congruence.
Qed.

#[export] Instance memory_storage_laws : PolicyStorageLaws InMemoryPolicyStorage.
Proof.
  split; cbn [storage_get storage_put storage_save_state memory_storage]; [| |done].
  - intros s t i v Hne. unfold modify, memory_put. cbn [snd]. f_equal. destruct (existsb _ t).
    + unfold memory_get. f_equal. induction t as [|x t IH]; simpl; [done|].
      destruct (memory_key (sp_id s) (sp_version s) x) eqn:E.
      * assert (memory_key i v (x.1, s) = memory_key i v x) as -> by done.
        by rewrite (memory_key_other s i v x Hne E).
      * by rewrite IH.
    + rewrite memory_get_app. unfold memory_key. cbn [fst snd].
      destruct (memory_get t i v); [done|].
      destruct (String.eqb_spec (sp_id s) i), (String.eqb_spec (sp_version s) v); naive_solver.
  - intros s t _ Hn. injection Hn as Hn. eexists. split; [reflexivity|].
    unfold memory_put. rewrite (memory_get_none _ _ _ Hn), memory_get_app, Hn.
    unfold memory_key. cbn [fst snd]. by rewrite !String.eqb_refl.
Qed.

(** ** The files *)

Lemma file_text_app t x id version :
  file_text {| fp_files := fp_files t ++ [x]; fp_state := fp_state t |} id version =
  match file_text t id version with
  | Some s => Some s
  | None => if file_key id version x then Some x.2 else None
  end.
Proof.
  unfold file_text. cbn [fp_files]. induction (fp_files t) as [|y l IH]; simpl.
  - by destruct (file_key id version x).
  - by destruct (file_key id version y).
Qed.

Lemma file_get_text t t' id version :
  file_text t' id version = file_text t id version → file_get t' id version = file_get t id version.
Proof. unfold file_get. by intros ->. Qed.

Lemma file_get_none t id version : file_get t id version = Ok None → file_text t id version = None.
Proof.
  unfold file_get. intros H. inv_bind. destruct (file_text t id version); [|done].
  apply res_bind_ok in H as (? & _ & H). apply res_bind_ok in H as (? & _ & H). done.
Qed.

(** What is written reads back. *)
Lemma read_record_written s text :
  record_ok s → canonical_json (PDict (record_dict s)) = Ok text →
  read_record (sp_id s) (sp_version s) text = Ok s.
Proof.
  intros [_ Hs Hw Hh Hp Hv Hg _] Ht. unfold read_record, canonical_json in *.
  rewrite (json_loads_dumps canonical_style _ _ Hs Hw Ht). unfold mbind, res_bind.
  change (norm (PDict (record_dict s))) with
    (PDict [("content_hash", norm (sp_content_hash s)); ("policy", norm (sp_policy s));
            ("schema_version", norm (sp_schema_version s));
            ("signature", norm (opt_signature (sp_signature s)))]).
  cbv iota. rewrite Hh, Hp, Hv.
  destruct s as [id v h p sv [g|]]; cbn in *; [|done].
  destruct (Hg g eq_refl) as (H1 & H2 & H3 & H4). rewrite H1, H2, H3, H4. by destruct g.
Qed.

#[export] Instance file_storage_laws : PolicyStorageLaws FilePolicyStorage.
Proof.
  split; cbn [storage_get storage_put storage_save_state file_storage].
  - intros s t i v Hne. unfold file_put, mbind, M_bind, get_state, lift_res, put_state, raise_if.
    destruct (check_path _ _) as [[]|]; [|done]. destruct (canonical_json _) as [text|]; [|done].
    destruct (file_text t (sp_id s) (sp_version s)); [by destruct (file_get t _ _)|].
    cbn [snd]. apply file_get_text. rewrite file_text_app. unfold file_key. cbn [fst snd].
    destruct (file_text t i v); [done|].
    destruct (String.eqb_spec (sp_id s) i), (String.eqb_spec (sp_version s) v); naive_solver.
  - intros s t Hok Hn%file_get_none. unfold file_put, mbind, M_bind, get_state, lift_res, put_state.
    assert (canonical_json (PDict (record_dict s)) =
            Ok (json_text canonical_style (PDict (record_dict s)))) as Ht
      by (apply json_dumps_safe, record_safe, Hok).
    rewrite (record_path s Hok), Ht, Hn.
    cbv beta iota. eexists. split; [reflexivity|].
    unfold file_get. rewrite (record_path s Hok). unfold mbind, res_bind.
    rewrite file_text_app, Hn. unfold file_key. cbn [fst snd]. rewrite !String.eqb_refl. cbn [andb].
    pose proof (record_size s Hok) as Hz. apply Z.ltb_ge in Hz. rewrite Hz. cbn [fail_if].
    by rewrite (read_record_written s _ Hok Ht).
  - intros f p t i v [= <-]. unfold file_save_state, mbind, M_bind, lift_res, modify.
    by destruct (canonical_json _).
Qed.
