(* ===== verification/VersionedRegistry.v ===== *)
(** policy_registry.py: [VersionedPolicyRegistry], signed immutable versions
    with a compare-and-swap lifecycle.

    The registry is verified against the storage interface.  The file shows
    that content is immutable, that revocation is final, that what
    [get_active] returns is active, verified and never revoked, and how the
    activation revision serializes activations. *)

From stdpp Require Import gmap.
From S2P Require Import Prelude PyFloat PyVal Json Sha256 Base64 Crypto Trust Models Policy Rbac Orders SemVer PolicyStorage.

Inductive PolicyLifecycle := DRAFT | PUBLISHED | ACTIVE | DEPRECATED | REVOKED.

#[export] Instance lifecycle_eq_dec : EqDecision PolicyLifecycle.
Proof. solve_decision. Defined.

Definition lifecycle_value (l : PolicyLifecycle) : string :=
  match l with
  | DRAFT => "DRAFT" | PUBLISHED => "PUBLISHED" | ACTIVE => "ACTIVE" | DEPRECATED => "DEPRECATED"
  | REVOKED => "REVOKED"
  end.

(** [PolicyLifecycle(value)] *)
Definition lifecycle_of (v : pyval) : res PolicyLifecycle :=
  match List.find (λ l, py_eqb v (PStr (lifecycle_value l)))
          [DRAFT; PUBLISHED; ACTIVE; DEPRECATED; REVOKED] with
  | Some l => Ok l
  | None => Raise (ValueError (py_repr v +:+ " is not a valid PolicyLifecycle"))
  end.

Record PolicyActivationEvent := {
  ae_policy_id : string;
  ae_previous_version : option string;
  ae_selected_version : string;
  ae_requested_by : string;
  ae_reason : string;
  ae_timestamp : string;
  ae_revision : Z;
  ae_operation : string
}.

Record PolicyVerificationResult := {
  vr_policy_id : string;
  vr_version : string;
  vr_valid : bool;
  vr_digest_valid : bool;
  vr_signature_valid : bool;
  vr_errors : list string
}.

Definition verification_to_dict (v : PolicyVerificationResult) : pydict :=
  [("policy_id", PStr (vr_policy_id v)); ("version", PStr (vr_version v));
   ("valid", PBool (vr_valid v)); ("digest_valid", PBool (vr_digest_valid v));
   ("signature_valid", PBool (vr_signature_valid v)); ("errors", of_strs (vr_errors v))].

(** [datetime.fromisoformat(s)]: [None] for [ValueError], otherwise the UTC
    offset, if the timestamp has one. *)
Class IsoTime := { iso_offset : string → option (option Z) }.

(** ** Signers and verifiers *)

(** [getattr(signer, "algorithm", ...)] *)
Record PolicySigner := { psg_signer : Signer; psg_algorithm : option string }.

(** [verify(signer_id, algorithm, payload, signature)] *)
Definition PolicyVerifier : Type := pyval → pyval → string → pyval → res bool.

Section Verifiers.
Context `{C : Crypto}.

(** [verify_signature] on a signature that may not be a string *)
Definition verify_signature_value (key : PublicKey) (payload : string) (signature : pyval) : res bool :=
  match signature with
  | PStr s => Ok (verify_signature key payload s)
  | _ => Raise (TypeError "signature is not a string")
  end.

(** Lookup of a signer in a dictionary: an unhashable key is a [TypeError]. *)
Definition signer_key (resolve : string → option PublicKey) (signer_id : pyval) : res (option PublicKey) :=
  if hashable signer_id
  then Ok (match signer_id with PStr s => resolve s | _ => None end)
  else Raise (TypeError "unhashable type").

Definition StaticPolicyVerifier (public_keys : list (string * PublicKey)) : PolicyVerifier :=
  λ signer_id algorithm payload signature,
    if negb (py_eqb algorithm (PStr POLICY_SIGNATURE_ALGORITHM)) then Ok false else
    key ← signer_key (λ s, assoc_get s public_keys) signer_id;
    match key with Some k => verify_signature_value k payload signature | None => Ok false end.

Definition TrustStorePolicyVerifier (t : TrustStore) : PolicyVerifier :=
  λ signer_id algorithm payload signature,
    key ← signer_key (trust_resolve t) signer_id;
    if negb (py_eqb algorithm (PStr POLICY_SIGNATURE_ALGORITHM)) then Ok false else
    match key with Some k => verify_signature_value k payload signature | None => Ok false end.
End Verifiers.

(** * The registry *)

Section Registry.
Context `{SCH : PolicySchema} `{ISO : IsoTime} {T : Type} `{PS : PolicyStorage T}.

Record VersionedPolicyRegistry := {
  vp_storage : T;
  vp_states : gmap (string * string) PolicyLifecycle;
  vp_active : list (string * (string * Z));
  vp_history : list (string * list PolicyActivationEvent)
}.
Implicit Types r : VersionedPolicyRegistry.

Definition with_storage (t : T) r : VersionedPolicyRegistry :=
  {| vp_storage := t; vp_states := vp_states r; vp_active := vp_active r; vp_history := vp_history r |}.
Definition with_states (s : gmap (string * string) PolicyLifecycle) r : VersionedPolicyRegistry :=
  {| vp_storage := vp_storage r; vp_states := s; vp_active := vp_active r; vp_history := vp_history r |}.
Definition with_active (a : list (string * (string * Z))) r : VersionedPolicyRegistry :=
  {| vp_storage := vp_storage r; vp_states := vp_states r; vp_active := a; vp_history := vp_history r |}.
Definition with_history (h : list (string * list PolicyActivationEvent)) r : VersionedPolicyRegistry :=
  {| vp_storage := vp_storage r; vp_states := vp_states r; vp_active := vp_active r; vp_history := h |}.

Definition on_storage {A} (m : M T A) : M VersionedPolicyRegistry A := zoom vp_storage with_storage m.

(** ** The saved lifecycle state *)

Definition add_state (acc : list (string * pydict)) (kv : (string * string) * PolicyLifecycle)
    : list (string * pydict) :=
  assoc_set kv.1.1
    (assoc_set kv.1.2 (PStr (lifecycle_value kv.2)) (default [] (assoc_get kv.1.1 acc))) acc.

Definition event_dict (e : PolicyActivationEvent) : pyval :=
  PDict [("policy_id", PStr (ae_policy_id e)); ("previous_version", opt_str (ae_previous_version e));
         ("selected_version", PStr (ae_selected_version e));
         ("requested_by", PStr (ae_requested_by e)); ("reason", PStr (ae_reason e));
         ("timestamp", PStr (ae_timestamp e)); ("revision", PInt (ae_revision e));
         ("operation", PStr (ae_operation e))].

Definition state_payload r : pydict :=
  [("states", PDict (map (λ kv, (kv.1, PDict kv.2)) (fold_left add_state (map_to_list (vp_states r)) [])));
   ("active", PDict (map (λ kv, (kv.1, PDict [("version", PStr kv.2.1); ("revision", PInt kv.2.2)]))
                         (vp_active r)));
   ("history", PDict (map (λ kv, (kv.1, PList (map event_dict kv.2))) (vp_history r)))].

Definition save_state : M VersionedPolicyRegistry unit :=
  match storage_save_state with
  | None => mret tt
  | Some saver => r ← get_state; on_storage (saver (state_payload r))
  end.

Definition load_states (states : pydict) : res (gmap (string * string) PolicyLifecycle) :=
  foldl (λ acc kv,
      m ← acc;
      match kv.2 with
      | PDict versions =>
          foldl (λ acc vv, m ← acc; l ← lifecycle_of vv.2; Ok (<[(kv.1, vv.1) := l]> m)) (Ok m) versions
      | _ => Raise (ValueError "invalid lifecycle state")
      end) (Ok ∅) states.

Definition load_active (active : pydict) : res (list (string * (string * Z))) :=
  mapM_res (λ kv,
      match kv.2 with
      | PDict d =>
          version ← dict_item "version" d;
          revision ← dict_item "revision" d;
          match version, revision with
          | PStr v, PInt n =>
              fail_if (n <? 0) (ValueError "invalid active revision") ;; Ok (kv.1, (v, n))
          | PStr v, PBool _ => unmodelled "a boolean revision"
          | _, _ => Raise (ValueError "invalid active revision")
          end
      | _ => Raise (ValueError "invalid active state")
      end) active.

Definition event_fields : list string :=
  ["policy_id"; "previous_version"; "selected_version"; "requested_by"; "reason"; "timestamp";
   "revision"; "operation"].

(** [PolicyActivationEvent] from keyword arguments: the names are checked, the values are not. *)
Definition load_event (d : pydict) : res PolicyActivationEvent :=
  fail_if (negb (keys_equal d event_fields)) (TypeError "unexpected or missing argument") ;;
  match dict_get "policy_id" d, dict_get "previous_version" d, dict_get "selected_version" d,
        dict_get "requested_by" d, dict_get "reason" d, dict_get "timestamp" d,
        dict_get "revision" d, dict_get "operation" d with
  | PStr pid, (PStr _ | PNone) as prev, PStr sel, PStr req, PStr rea, PStr ts, PInt n, PStr op =>
      Ok {| ae_policy_id := pid; ae_previous_version := str_or_none prev;
            ae_selected_version := sel; ae_requested_by := req; ae_reason := rea;
            ae_timestamp := ts; ae_revision := n; ae_operation := op |}
  | _, _, _, _, _, _, _, _ => unmodelled "an event field of another type"
  end.

Definition load_history (history : pydict) : res (list (string * list PolicyActivationEvent)) :=
  mapM_res (λ kv,
      match kv.2 with
      | PList events =>
          evs ← mapM_res (λ e, match e with PDict d => load_event d | _ => unmodelled "unreachable" end)
                  (List.filter is_dict events);
          Ok (kv.1, evs)
      | _ => Raise (ValueError "invalid activation history")
      end) history.

Definition load_payload (t : T) (payload : pydict) : res VersionedPolicyRegistry :=
  match dict_get_or "states" (PDict []) payload, dict_get_or "active" (PDict []) payload,
        dict_get_or "history" (PDict []) payload with
  | PDict states, PDict active, PDict history =>
      s ← load_states states;
      a ← load_active active;
      h ← load_history history;
      Ok {| vp_storage := t; vp_states := s; vp_active := a; vp_history := h |}
  | _, _, _ => Raise (ValueError "invalid lifecycle state")
  end.

(** [VersionedPolicyRegistry(storage)]; the verifier is an argument of the operations. *)
Definition registry_open (t : T) : res VersionedPolicyRegistry :=
  let empty := {| vp_storage := t; vp_states := ∅; vp_active := []; vp_history := [] |} in
  match storage_load_state t with
  | None => Ok empty
  | Some loaded =>
      payload ← loaded;
      match payload with
      | [] => Ok empty
      | _ =>
          res_except (load_payload t payload)
            (λ e, if is_KeyError e || is_TypeError e || is_ValueError e
                  then Some (PolicyIntegrityError "policy lifecycle state is malformed") else None)
      end
  end.

(** ** New records *)

Definition policy_hash (policy : pyval) : res string := canonical_digest policy.

Definition canonical_policy (policy : pyval) : res pydict :=
  validate_policy policy ;;
  text ← canonical_json policy;
  content ← json_loads text;
  read_dict (PolicyValidationError "policy must be an object") content.

(** [content[k]], a string by the schema *)
Definition content_str (k : string) (content : pydict) : res string :=
  v ← dict_item k content;
  match v with PStr s => Ok s | _ => unmodelled "an identifier that is not a string" end.

Definition signature_algorithm (s : PolicySigner) : res string :=
  let a := default POLICY_SIGNATURE_ALGORITHM (psg_algorithm s) in
  fail_if (negb (String.eqb a POLICY_SIGNATURE_ALGORITHM))
    (PolicySignatureError ("unsupported policy signature algorithm: " +:+ py_repr_str a)) ;;
  Ok a.

Definition unsigned_record (policy : pyval) : res StoredPolicy :=
  content ← canonical_policy policy;
  id ← content_str "id" content;
  version ← content_str "version" content;
  hash ← policy_hash (PDict content);
  Ok {| sp_id := id; sp_version := version; sp_content_hash := PStr hash;
        sp_policy := PDict content; sp_schema_version := PStr POLICY_RECORD_SCHEMA_VERSION;
        sp_signature := None |}.

Definition with_signature (g : PolicySignature) (s : StoredPolicy) : StoredPolicy :=
  {| sp_id := sp_id s; sp_version := sp_version s; sp_content_hash := sp_content_hash s;
     sp_policy := sp_policy s; sp_schema_version := sp_schema_version s; sp_signature := Some g |}.

(** [_new_stored] with a signer; [now] is the reading of the clock. *)
Definition signed_record (policy : pyval) (signer : PolicySigner) (signed_at : option string)
    (now : string) : res StoredPolicy :=
  unsigned ← unsigned_record policy;
  let timestamp := match signed_at with
    | Some s => if String.eqb s "" then now else s
    | None => now
    end in
  offset ← match iso_offset timestamp with
           | Some o => Ok o
           | None => Raise (PolicySignatureError "signed_at must be an ISO-8601 UTC timestamp")
           end;
  fail_if (match offset with Some z => negb (z =? 0) | None => true end)
    (PolicySignatureError "signed_at must use the UTC timezone") ;;
  let key_id := signer_key_id (psg_signer signer) in
  fail_if (String.eqb key_id "") (PolicySignatureError "policy signer identity must not be empty") ;;
  algorithm ← signature_algorithm signer;
  let signature s := {| sg_signer_id := PStr key_id; sg_algorithm := PStr algorithm;
                        sg_signature := PStr s; sg_signed_at := PStr timestamp |} in
  payload ← signed_payload (with_signature (signature "") unsigned);
  s ← signer_sign (psg_signer signer) payload;
  Ok (with_signature (signature s) unsigned).

(** ** Verification *)

Definition digest_matches (s : StoredPolicy) : res bool :=
  match policy_hash (sp_policy s) with
  | Ok h => Ok (py_eqb (sp_content_hash s) (PStr h) &&
                py_eqb (sp_schema_version s) (PStr POLICY_RECORD_SCHEMA_VERSION))
  | Raise e => if is_TypeError e || is_ValueError e then Ok false else Raise e
  end.

Definition signature_check (verifier : option PolicyVerifier) (s : StoredPolicy)
    : res (bool * list string) :=
  match sp_signature s, verifier with
  | None, _ => Ok (false, ["missing_signature"])
  | Some _, None => Ok (false, ["no_signature_verifier_configured"])
  | Some g, Some verify =>
      if negb (py_eqb (sg_algorithm g) (PStr POLICY_SIGNATURE_ALGORITHM))
      then Ok (false, ["unsupported_signature_algorithm"])
      else
        match (payload ← signed_payload s;
               verify (sg_signer_id g) (sg_algorithm g) payload (sg_signature g)) with
        | Ok true => Ok (true, [])
        | Ok false => Ok (false, ["signature_invalid"])
        | Raise e =>
            if is_TypeError e || is_ValueError e then Ok (false, ["signature_invalid"]) else Raise e
        end
  end.

Definition verification (verifier : option PolicyVerifier) (s : StoredPolicy)
    : res PolicyVerificationResult :=
  let schema_errors :=
    if py_eqb (sp_schema_version s) (PStr POLICY_RECORD_SCHEMA_VERSION) then []
    else ["unsupported_record_schema_version"] in
  digest_valid ← digest_matches s;
  let digest_errors := if digest_valid : bool then [] else ["content_digest_mismatch"] in
  check ← signature_check verifier s;
  let '(signature_valid, signature_errors) := check : bool * list string in
  Ok {| vr_policy_id := sp_id s; vr_version := sp_version s;
        vr_valid := digest_valid && signature_valid; vr_digest_valid := digest_valid;
        vr_signature_valid := signature_valid;
        vr_errors := schema_errors ++ digest_errors ++ signature_errors |}.

Definition invalid_signature (v : PolicyVerificationResult) : exn :=
  PolicySignatureError (join "; " (vr_errors v)).

(** ** Operations *)

Definition name_of (id version : string) : string := id +:+ "@" +:+ version.

Definition set_lifecycle (id version : string) (l : PolicyLifecycle) : M VersionedPolicyRegistry unit :=
  modify (λ r, with_states (<[(id, version) := l]> (vp_states r)) r).

Definition vreg_register (policy : pyval) : M VersionedPolicyRegistry StoredPolicy :=
  stored ← lift_res (unsigned_record policy);
  r ← get_state;
  existing ← lift_res (storage_get (vp_storage r) (sp_id stored) (sp_version stored));
  match existing with
  | Some e =>
      raise_if (negb (py_eqb (sp_content_hash e) (sp_content_hash stored)))
        (PolicyImmutabilityError
          ("policy " +:+ name_of (sp_id stored) (sp_version stored) +:+
           " already exists with different content")) ;;
      mret e
  | None =>
      on_storage (storage_put stored) ;;
      set_lifecycle (sp_id stored) (sp_version stored) PUBLISHED ;;
      save_state ;;
      mret stored
  end.

Definition vreg_publish (verifier : option PolicyVerifier) (policy : pyval) (signer : PolicySigner)
    (signed_at : option string) (now : string) : M VersionedPolicyRegistry StoredPolicy :=
  stored ← lift_res (signed_record policy signer signed_at now);
  r ← get_state;
  existing ← lift_res (storage_get (vp_storage r) (sp_id stored) (sp_version stored));
  raise_if (match existing with Some _ => true | None => false end)
    (PolicyImmutabilityError
      ("policy " +:+ name_of (sp_id stored) (sp_version stored) +:+ " is already published")) ;;
  v ← lift_res (verification verifier stored);
  raise_if (negb (vr_valid v)) (invalid_signature v) ;;
  on_storage (storage_put stored) ;;
  set_lifecycle (sp_id stored) (sp_version stored) PUBLISHED ;;
  save_state ;;
  mret stored.

Definition find_stored r (id version : string) : res StoredPolicy :=
  found ← storage_get (vp_storage r) id version;
  match found with Some s => Ok s | None => Raise (policy_not_found id version) end.

Definition vreg_get (verifier : option PolicyVerifier) r (id version : string) : res StoredPolicy :=
  stored ← find_stored r id version;
  v ← verification verifier stored;
  fail_if (negb (vr_digest_valid v)) (PolicyIntegrityError (join "; " (vr_errors v))) ;;
  Ok stored.

Definition vreg_verify (verifier : option PolicyVerifier) r (id version : string)
    : res PolicyVerificationResult :=
  stored ← find_stored r id version;
  verification verifier stored.

Definition list_versions r (id : string) : res (list string) :=
  sort_versions (storage_versions (vp_storage r) id).

Definition vreg_latest (verifier : option PolicyVerifier) r (id : string) : res StoredPolicy :=
  versions ← list_versions r id;
  match last versions with
  | None => Raise (PolicyNotFoundError id)
  | Some v => vreg_get verifier r id v
  end.

Definition state_of r (id version : string) : PolicyLifecycle :=
  default PUBLISHED (vp_states r !! (id, version)).

Definition lifecycle (verifier : option PolicyVerifier) r (id version : string) : res PolicyLifecycle :=
  vreg_get verifier r id version ;;
  Ok (state_of r id version).

Definition list_lifecycle (verifier : option PolicyVerifier) r (id : string)
    : res (list (string * PolicyLifecycle)) :=
  versions ← list_versions r id;
  items ← mapM_res (λ v, l ← lifecycle verifier r id v; Ok (v, l)) versions;
  Ok (fold_left (λ d kv, assoc_set kv.1 kv.2 d) items []).

Definition get_active (verifier : option PolicyVerifier) r (id : string) : res StoredPolicy :=
  match assoc_get id (vp_active r) with
  | None => Raise (PolicyNotFoundError ("no active policy version for " +:+ id))
  | Some (version, _) =>
      l ← lifecycle verifier r id version;
      fail_if (bool_decide (l ≠ ACTIVE))
        (PolicyLifecycleError ("active policy " +:+ name_of id version +:+ " is not usable")) ;;
      v ← vreg_verify verifier r id version;
      fail_if (negb (vr_valid v)) (invalid_signature v) ;;
      vreg_get verifier r id version
  end.

Definition active_revision r (id : string) : Z :=
  match assoc_get id (vp_active r) with Some (_, n) => n | None => 0 end.

(** [require_roles(identity, (Role.POLICY_ADMIN,))], when an identity is given *)
Definition require_policy_admin (identity : option ClaimsIdentity) : res unit :=
  match identity with Some i => require_roles i [POLICY_ADMIN] | None => Ok tt end.

(** The assignments of [activate], after its checks. *)
Definition apply_activation (event : PolicyActivationEvent) r : VersionedPolicyRegistry :=
  let id := ae_policy_id event in
  let states := match ae_previous_version event with
    | Some p => <[(id, p) := PUBLISHED]> (vp_states r)
    | None => vp_states r
    end in
  {| vp_storage := vp_storage r;
     vp_states := <[(id, ae_selected_version event) := ACTIVE]> states;
     vp_active := assoc_set id (ae_selected_version event, ae_revision event) (vp_active r);
     vp_history := assoc_set id (default [] (assoc_get id (vp_history r)) ++ [event]) (vp_history r) |}.

Definition vreg_activate (verifier : option PolicyVerifier) (id version requested_by reason : string)
    (expected_revision : option Z) (identity : option ClaimsIdentity) (operation now : string)
    : M VersionedPolicyRegistry PolicyActivationEvent :=
  lift_res (require_policy_admin identity) ;;
  raise_if (String.eqb requested_by "" || String.eqb reason "")
    (PolicyLifecycleError "requested_by and reason are required") ;;
  r ← get_state;
  stored ← lift_res (vreg_get verifier r id version);
  v ← lift_res (verification verifier stored);
  raise_if (negb (vr_valid v)) (invalid_signature v) ;;
  let state := state_of r id version in
  raise_if (negb (bool_decide (state = PUBLISHED) || bool_decide (state = ACTIVE)))
    (PolicyLifecycleError ("policy " +:+ name_of id version +:+ " cannot be activated from " +:+
                           lifecycle_value state)) ;;
  let current := assoc_get id (vp_active r) in
  let revision := active_revision r id in
  raise_if (match expected_revision with Some n => negb (n =? revision) | None => false end)
    (PolicyActivationConflictError
      ("expected revision " +:+ string_of_Z (default 0 expected_revision) +:+
       ", current revision is " +:+ string_of_Z revision)) ;;
  let previous := fst <$> current in
  raise_if (bool_decide (previous = Some version))
    (PolicyLifecycleError ("policy " +:+ name_of id version +:+ " is already active")) ;;
  let event := {| ae_policy_id := id; ae_previous_version := previous;
                  ae_selected_version := version; ae_requested_by := requested_by;
                  ae_reason := reason; ae_timestamp := now; ae_revision := revision + 1;
                  ae_operation := operation |} in
  modify (apply_activation event) ;;
  save_state ;;
  mret event.

Definition vreg_rollback (verifier : option PolicyVerifier) (id version requested_by reason : string)
    (expected_revision : option Z) (identity : option ClaimsIdentity) (now : string)
    : M VersionedPolicyRegistry PolicyActivationEvent :=
  vreg_activate verifier id version requested_by reason expected_revision identity "rollback" now.

Definition vreg_deprecate (verifier : option PolicyVerifier) (id version : string)
    (identity : option ClaimsIdentity) : M VersionedPolicyRegistry unit :=
  lift_res (require_policy_admin identity) ;;
  r ← get_state;
  state ← lift_res (lifecycle verifier r id version);
  raise_if (bool_decide (state = ACTIVE))
    (PolicyLifecycleError "an active policy version cannot be deprecated") ;;
  raise_if (bool_decide (state = REVOKED))
    (PolicyLifecycleError "a revoked policy version cannot be deprecated") ;;
  set_lifecycle id version DEPRECATED ;;
  save_state.

Definition vreg_revoke (verifier : option PolicyVerifier) (id version : string)
    (identity : option ClaimsIdentity) : M VersionedPolicyRegistry unit :=
  lift_res (require_policy_admin identity) ;;
  r ← get_state;
  lift_res (vreg_get verifier r id version) ;;
  set_lifecycle id version REVOKED ;;
  modify (λ r, match assoc_get id (vp_active r) with
               | Some (v, n) =>
                   if String.eqb v version then with_active (assoc_set id ("", n + 1) (vp_active r)) r
                   else r
               | None => r
               end) ;;
  save_state.

Definition activation_history r (id : string) : list PolicyActivationEvent :=
  default [] (assoc_get id (vp_history r)).
End Registry.
#[global] Arguments VersionedPolicyRegistry : clear implicits.

(** * The abstract lifecycle

    What a call may do to the content, the lifecycle states and the active
    pointers, without signatures, storage formats and saved state. *)

Section Lifecycle.
Context `{SCH : PolicySchema} `{ISO : IsoTime} {T : Type} `{PSL : PolicyStorageLaws T}.
Implicit Types r : VersionedPolicyRegistry T.

Definition content_of r (i v : string) : res (option StoredPolicy) := storage_get (vp_storage r) i v.

(** Only the content under [(id, version)] may differ, and only if there was none. *)
Definition content_adds r r' (id version : string) : Prop :=
  content_of r id version = Ok None ∧
  ∀ i v, (i, v) ≠ (id, version) → content_of r' i v = content_of r i v.
Definition content_same r r' : Prop := ∀ i v, content_of r' i v = content_of r i v.

Inductive lifecycle_step r r' : Prop :=
| StepStay :
    content_same r r' ∨ (∃ id v, content_adds r r' id v) →
    vp_states r' = vp_states r → vp_active r' = vp_active r → lifecycle_step r r'
| StepPublish (id v : string) :
    content_adds r r' id v → vp_states r' = <[(id, v) := PUBLISHED]> (vp_states r) →
    vp_active r' = vp_active r → lifecycle_step r r'
| StepActivate (e : PolicyActivationEvent) (s : StoredPolicy) :
    content_same r r' → content_of r (ae_policy_id e) (ae_selected_version e) = Ok (Some s) →
    state_of r (ae_policy_id e) (ae_selected_version e) ∈ [PUBLISHED; ACTIVE] →
    ae_previous_version e = fst <$> assoc_get (ae_policy_id e) (vp_active r) →
    ae_previous_version e ≠ Some (ae_selected_version e) →
    ae_revision e = active_revision r (ae_policy_id e) + 1 →
    vp_states r' = vp_states (apply_activation e r) → vp_active r' = vp_active (apply_activation e r) →
    lifecycle_step r r'
| StepDeprecate (id v : string) (s : StoredPolicy) :
    content_same r r' → content_of r id v = Ok (Some s) → state_of r id v ∉ [ACTIVE; REVOKED] →
    vp_states r' = <[(id, v) := DEPRECATED]> (vp_states r) → vp_active r' = vp_active r →
    lifecycle_step r r'
| StepRevoke (id v : string) (s : StoredPolicy) :
    content_same r r' → content_of r id v = Ok (Some s) →
    vp_states r' = <[(id, v) := REVOKED]> (vp_states r) →
    vp_active r' = match assoc_get id (vp_active r) with
                   | Some (w, n) => if String.eqb w v then assoc_set id ("", n + 1) (vp_active r)
                                    else vp_active r
                   | None => vp_active r
                   end → lifecycle_step r r'.

(** ** The calls that change the registry *)

Inductive vreg_call :=
| CallRegister (policy : pyval)
| CallPublish (verifier : option PolicyVerifier) (policy : pyval) (signer : PolicySigner)
    (signed_at : option string) (now : string)
| CallActivate (verifier : option PolicyVerifier) (id version requested_by reason : string)
    (expected : option Z) (identity : option ClaimsIdentity) (operation now : string)
| CallDeprecate (verifier : option PolicyVerifier) (id version : string) (identity : option ClaimsIdentity)
| CallRevoke (verifier : option PolicyVerifier) (id version : string) (identity : option ClaimsIdentity).

Definition vreg_run r (c : vreg_call) : VersionedPolicyRegistry T :=
  match c with
  | CallRegister p => (vreg_register p r).2
  | CallPublish ver p s at_ now => (vreg_publish ver p s at_ now r).2
  | CallActivate ver id v by_ why exp who op now => (vreg_activate ver id v by_ why exp who op now r).2
  | CallDeprecate ver id v who => (vreg_deprecate ver id v who r).2
  | CallRevoke ver id v who => (vreg_revoke ver id v who r).2
  end.

(** ** Each call is one step *)

(** Saving changes no content, state or pointer. *)
Record saved_from r r' : Prop := {
  saved_content : content_same r r';
  saved_states : vp_states r' = vp_states r;
  saved_active : vp_active r' = vp_active r;
  saved_history : vp_history r' = vp_history r
}.

Lemma save_state_saved r : saved_from r (save_state r).2.
Proof.
  unfold save_state. destruct storage_save_state as [f|] eqn:Hf; [|by split].
  unfold mbind, M_bind, get_state, on_storage, zoom.
  pose proof (λ i v, save_get f (state_payload r) (vp_storage r) i v Hf) as Hg.
  destruct (f _ (vp_storage r)) as [u t]. by split.
Qed.

Lemma content_adds_same r r1 r2 id v : content_adds r r1 id v → content_same r1 r2 → content_adds r r2 id v.
Proof. intros [H1 H2] H3. split; [done|]. intros i w Hne. rewrite H3. by apply H2. Qed.

Lemma content_same_trans r r1 r2 : content_same r r1 → content_same r1 r2 → content_same r r2.
Proof. intros H1 H2 i v. by rewrite H2. Qed.

Lemma put_content s r :
  storage_get (vp_storage r) (sp_id s) (sp_version s) = Ok None →
  let r' := (on_storage (storage_put s) r).2 in
  content_adds r r' (sp_id s) (sp_version s) ∧ vp_states r' = vp_states r ∧ vp_active r' = vp_active r.
Proof.
  intros Hn. unfold on_storage, zoom. pose proof (put_other s (vp_storage r)) as Ho.
  destruct (storage_put s (vp_storage r)) as [u t]. cbn [snd] in *.
  by split_and!.
Qed.

(** The common end of [register] and [publish]. *)
Lemma store_step s r :
  storage_get (vp_storage r) (sp_id s) (sp_version s) = Ok None →
  lifecycle_step r
    ((on_storage (storage_put s) ;; set_lifecycle (sp_id s) (sp_version s) PUBLISHED ;;
      save_state ;; mret s) r).2.
Proof.
  intros Hn. pose proof (put_content s r Hn) as Hp. unfold mbind, M_bind, set_lifecycle, modify.
  destruct (on_storage (storage_put s) r) as [[u|e] r1]; cbn [snd] in *; destruct Hp as (Hc & Hs & Ha).
  2: { apply StepStay; eauto. }
  set (r2 := with_states _ r1). pose proof (save_state_saved r2) as [H1 H2 H3 _].
  assert (lifecycle_step r (save_state r2).2) as Hstep.
  { apply (StepPublish _ _ (sp_id s) (sp_version s)).
    - by eapply content_adds_same.
    - rewrite H2. unfold r2. cbn [vp_states with_states]. by rewrite Hs.
    - by rewrite H3. }
  by destruct (save_state r2) as [[u2|e] r3].
Qed.

Lemma same_refl r : content_same r r.
Proof. done. Qed.

Lemma vreg_register_step p r : lifecycle_step r (vreg_register p r).2.
Proof.
  unfold vreg_register. unfold mbind at 1, M_bind at 1, lift_res at 1.
  destruct (unsigned_record p) as [s|e]; [|by apply StepStay; [left| |]].
  unfold mbind at 1, M_bind at 1, get_state at 1. unfold mbind at 1, M_bind at 1, lift_res at 1.
  destruct (storage_get _ _ _) as [[e|]|e] eqn:Hg; [| |by apply StepStay; [left| |]].
  - unfold mbind, M_bind, raise_if, mret, M_ret. destruct (negb _); by apply StepStay; [left| |].
  - by apply store_step.
Qed.

Lemma vreg_publish_step ver p sg at_ now r : lifecycle_step r (vreg_publish ver p sg at_ now r).2.
Proof.
  unfold vreg_publish. unfold mbind at 1, M_bind at 1, lift_res at 1.
  destruct (signed_record _ _ _ _) as [s|e]; [|by apply StepStay; [left| |]].
  unfold mbind at 1, M_bind at 1, get_state at 1. unfold mbind at 1, M_bind at 1, lift_res at 1.
  destruct (storage_get _ _ _) as [[e|]|e] eqn:Hg; [by apply StepStay; [left| |]| |by apply StepStay; [left| |]].
  unfold mbind at 1, M_bind at 1, raise_if at 1. unfold mbind at 1, M_bind at 1, lift_res at 1.
  destruct (verification ver s) as [v|e]; [|by apply StepStay; [left| |]].
  unfold mbind at 1, M_bind at 1, raise_if at 1.
  destruct (negb (vr_valid v)); [by apply StepStay; [left| |]|]. by apply store_step.
Qed.

Lemma vreg_get_ok ver r id v s :
  vreg_get ver r id v = Ok s → content_of r id v = Ok (Some s) ∧
  ∃ w, verification ver s = Ok w ∧ vr_digest_valid w = true.
Proof.
  unfold vreg_get. intros H. apply res_bind_ok in H as (s' & Hs & H).
  apply res_bind_ok in H as (w & Hw & H). inv_bind. breflect.
  unfold find_stored in Hs. apply res_bind_ok in Hs as ([s'|] & Hs & [= <-]). eauto.
Qed.

(** What a successful activation checked and did. *)
Record activated (ver : option PolicyVerifier) (id v : string) (expected : option Z) (op : string)
    r (e : PolicyActivationEvent) r' : Prop := {
  activated_state : state_of r id v = PUBLISHED ∨ state_of r id v = ACTIVE;
  activated_valid : ∃ s w, content_of r id v = Ok (Some s) ∧ verification ver s = Ok w ∧ vr_valid w = true;
  activated_expected : ∀ n, expected = Some n → n = active_revision r id;
  activated_previous : fst <$> assoc_get id (vp_active r) ≠ Some v;
  activated_event : ae_policy_id e = id ∧ ae_selected_version e = v ∧
    ae_previous_version e = fst <$> assoc_get id (vp_active r) ∧
    ae_revision e = active_revision r id + 1 ∧ ae_operation e = op;
  activated_result : r' = (save_state (apply_activation e r)).2
}.

Lemma vreg_activate_cases ver id v by_ why exp who op now r :
  (∃ err, vreg_activate ver id v by_ why exp who op now r = (Raise err, r)) ∨
  ∃ e, activated ver id v exp op r e (vreg_activate ver id v by_ why exp who op now r).2 ∧
       ∀ x, (vreg_activate ver id v by_ why exp who op now r).1 = Ok x → x = e.
Proof.
  unfold vreg_activate, mbind, M_bind, lift_res, raise_if, get_state, modify, mret, M_ret.
  destruct (require_policy_admin who); [|eauto]. destruct (_ || _); [eauto|].
  destruct (vreg_get ver r id v) as [s|] eqn:Hg; [|eauto].
  destruct (verification ver s) as [w|] eqn:Hv; [|eauto].
  destruct (negb (vr_valid w)) eqn:Hvalid; [eauto|]. destruct (negb (_ || _)) eqn:Hst; [eauto|].
  destruct (match exp with Some n => _ | None => _ end) eqn:Hexp; [eauto|].
  destruct (bool_decide (_ = Some v)) eqn:Hprev; [eauto|]. right.
  apply vreg_get_ok in Hg as [Hc _]. breflect. apply bool_decide_eq_false in Hprev.
  match goal with |- context [apply_activation ?ev r] => exists ev end. split.
  - split; try done.
    + apply orb_true_iff in Hst as [H|H]; apply bool_decide_eq_true in H; auto.
    + eauto.
    + intros n ->. breflect. done.
    + by destruct (save_state _) as [[u|e] r2].
  - by destruct (save_state _) as [[u|err] r2]; intros ? [= <-].
Qed.

Lemma vreg_activate_step ver id v by_ why exp who op now r :
  lifecycle_step r (vreg_activate ver id v by_ why exp who op now r).2.
Proof.
  destruct (vreg_activate_cases ver id v by_ why exp who op now r)
    as [[err ->]|(e & [Hst (s & w & Hc & _) _ Hp (<- & <- & He & Hr & _) Hres] & _)];
    [by apply StepStay; [left| |]|].
  rewrite Hres. destruct (save_state_saved (apply_activation e r)) as [H1 H2 H3 _].
  eapply (StepActivate _ _ e s); try done.
  - set_solver.
  - by rewrite He.
Qed.

Lemma set_lifecycle_saved r id v l :
  let r' := ((set_lifecycle id v l ;; save_state) r).2 in
  content_same r r' ∧ vp_states r' = <[(id, v) := l]> (vp_states r) ∧ vp_active r' = vp_active r.
Proof.
  unfold set_lifecycle, mbind, M_bind, modify.
  destruct (save_state_saved (with_states (<[(id, v):=l]> (vp_states r)) r)) as [H1 H2 H3 _]. done.
Qed.

Lemma vreg_deprecate_step ver id v who r : lifecycle_step r (vreg_deprecate ver id v who r).2.
Proof.
  unfold vreg_deprecate. unfold mbind at 1, M_bind at 1, lift_res at 1.
  destruct (require_policy_admin who); [|by apply StepStay; [left| |]].
  unfold mbind at 1, M_bind at 1, get_state at 1. unfold mbind at 1, M_bind at 1, lift_res at 1.
  destruct (lifecycle ver r id v) as [l|e] eqn:Hl; [|by apply StepStay; [left| |]].
  unfold lifecycle in Hl. apply res_bind_ok in Hl as (s & [Hs _]%vreg_get_ok & [= <-]).
  unfold mbind at 1, M_bind at 1, raise_if at 1.
  destruct (bool_decide (_ = ACTIVE)) eqn:H1; [by apply StepStay; [left| |]|].
  unfold mbind at 1, M_bind at 1, raise_if at 1.
  destruct (bool_decide (_ = REVOKED)) eqn:H2; [by apply StepStay; [left| |]|].
  apply bool_decide_eq_false in H1, H2. destruct (set_lifecycle_saved r id v DEPRECATED) as (Hc & Hst & Ha).
  eapply (StepDeprecate _ _ id v s); try done. set_solver.
Qed.

Lemma vreg_revoke_step ver id v who r : lifecycle_step r (vreg_revoke ver id v who r).2.
Proof.
  unfold vreg_revoke. unfold mbind at 1, M_bind at 1, lift_res at 1.
  destruct (require_policy_admin who); [|by apply StepStay; [left| |]].
  unfold mbind at 1, M_bind at 1, get_state at 1. unfold mbind at 1, M_bind at 1, lift_res at 1.
  destruct (vreg_get ver r id v) as [s|e] eqn:Hl; [|by apply StepStay; [left| |]].
  apply vreg_get_ok in Hl as [Hs _].
  unfold mbind, M_bind, set_lifecycle, modify.
  match goal with |- context [save_state ?x] => destruct (save_state_saved x) as [H1 H2 H3 _] end.
  eapply (StepRevoke _ _ id v s); try done.
  - intros i w. rewrite H1. cbn [vp_active with_states]. by repeat case_match.
  - rewrite H2. cbn [vp_active with_states]. by repeat case_match.
  - rewrite H3. cbn [vp_active with_states]. by repeat case_match.
Qed.

Lemma vreg_run_step r c : lifecycle_step r (vreg_run r c).
Proof.
  destruct c; cbn [vreg_run]; auto using vreg_register_step, vreg_publish_step, vreg_activate_step,
    vreg_deprecate_step, vreg_revoke_step.
Qed.

(** ** Invariant of the lifecycle *)

Record lifecycle_inv r : Prop := {
  (** the active pointer names an active version, or none after a revocation *)
  inv_active : ∀ id v n, assoc_get id (vp_active r) = Some (v, n) →
    0 ≤ n ∧ (v = "" ∨ vp_states r !! (id, v) = Some ACTIVE);
  (** an active version is the one the pointer names *)
  inv_unique : ∀ id v, vp_states r !! (id, v) = Some ACTIVE →
    ∃ n, assoc_get id (vp_active r) = Some (v, n);
  (** a version that left the published state has content *)
  inv_content : ∀ id v l, vp_states r !! (id, v) = Some l → l ≠ PUBLISHED →
    ∃ s, content_of r id v = Ok (Some s)
}.

(** What every step keeps. *)
Record lifecycle_kept r r' : Prop := {
  kept_content : ∀ id v s, content_of r id v = Ok (Some s) → content_of r' id v = Ok (Some s);
  kept_revoked : ∀ id v, v ≠ "" → vp_states r !! (id, v) = Some REVOKED →
    vp_states r' !! (id, v) = Some REVOKED;
  kept_revision : ∀ id, active_revision r id ≤ active_revision r' id
}.

#[export] Instance lifecycle_kept_preorder : PreOrder lifecycle_kept.
Proof.
  split; [by split|]. intros r1 r2 r3 [] []. split; eauto.
  intros id. etransitivity; eauto.
Qed.

Lemma content_adds_kept r r' id v i w s :
  content_adds r r' id v → content_of r i w = Ok (Some s) → content_of r' i w = Ok (Some s).
Proof.
  intros [Hn Ho] H. rewrite Ho; [done|]. intros [= -> ->]. congruence.
Qed.

Lemma fresh_state r id v : lifecycle_inv r → content_of r id v = Ok None →
  vp_states r !! (id, v) = None ∨ vp_states r !! (id, v) = Some PUBLISHED.
Proof.
  intros Hi Hn. destruct (vp_states r !! (id, v)) as [l|] eqn:E; [right|by left].
  destruct (decide (l = PUBLISHED)) as [->|Hl]; [done|].
  destruct (inv_content r Hi id v l E Hl) as [s Hs]. congruence.
Qed.

(** Looking at one key of the updated states. *)
Ltac lookup_states :=
  repeat match goal with
    | H : <[_ := _]> _ !! _ = Some _ |- _ =>
        apply lookup_insert_Some in H as [[? ?]|[? H]]; simplify_eq
    end.

Lemma step_publish_inv r r' id v :
  lifecycle_inv r → content_adds r r' id v → vp_states r' = <[(id, v) := PUBLISHED]> (vp_states r) →
  vp_active r' = vp_active r → lifecycle_inv r' ∧ lifecycle_kept r r'.
Proof.
  intros Hi Hc Hs Ha. pose proof (fresh_state r id v Hi (proj1 Hc)) as Hfresh. split; split.
  - intros i w n. rewrite Ha, Hs. intros H. destruct (inv_active r Hi _ _ _ H) as [? Hw].
    split; [done|]. destruct Hw as [->|Hw]; [by left|right].
    rewrite lookup_insert_ne; [done|]. intros [= -> ->]. destruct Hfresh; congruence.
  - intros i w. rewrite Ha, Hs. intros H. lookup_states. by apply (inv_unique r Hi).
  - intros i w l. rewrite Hs. intros H Hl. lookup_states.
    destruct (inv_content r Hi _ _ _ H Hl) as [s Hx]. exists s. by eapply content_adds_kept.
  - intros i w s. by eapply content_adds_kept.
  - intros i w _ H. rewrite Hs, lookup_insert_ne; [done|]. intros [= -> ->]. destruct Hfresh; congruence.
  - intros i. unfold active_revision. by rewrite Ha.
Qed.

Lemma step_activate_inv r r' e s :
  lifecycle_inv r → content_same r r' →
  content_of r (ae_policy_id e) (ae_selected_version e) = Ok (Some s) →
  state_of r (ae_policy_id e) (ae_selected_version e) ∈ [PUBLISHED; ACTIVE] →
  ae_previous_version e = fst <$> assoc_get (ae_policy_id e) (vp_active r) →
  ae_revision e = active_revision r (ae_policy_id e) + 1 →
  vp_states r' = vp_states (apply_activation e r) → vp_active r' = vp_active (apply_activation e r) →
  lifecycle_inv r' ∧ lifecycle_kept r r'.
Proof.
  intros Hi Hc Hsel Hst Hprev Hrev Hs Ha.
  set (id := ae_policy_id e) in *. set (v := ae_selected_version e) in *.
  assert (∀ i w, content_of r' i w = content_of r i w) as Hc' by done.
  set (base := match ae_previous_version e with
               | Some p => <[(id, p) := PUBLISHED]> (vp_states r) | None => vp_states r end).
  assert (vp_states r' = <[(id, v) := ACTIVE]> base) as Hs' by done.
  assert (vp_active r' = assoc_set id (v, ae_revision e) (vp_active r)) as Ha' by done.
  assert (0 ≤ active_revision r id) as Hnn.
  { unfold active_revision. destruct (assoc_get id (vp_active r)) as [[w n]|] eqn:E; [|done].
    by destruct (inv_active r Hi _ _ _ E). }
  (* no other version of this policy stays active *)
  assert (∀ w, base !! (id, w) = Some ACTIVE → False) as Hnone.
  { intros w Hw. unfold base in Hw. rewrite Hprev in Hw.
    destruct (assoc_get id (vp_active r)) as [[p n]|] eqn:E; cbn in Hw.
    - lookup_states. destruct (inv_unique r Hi _ _ Hw) as [m Hm]. congruence.
    - destruct (inv_unique r Hi _ _ Hw) as [m Hm]. congruence. }
  assert (∀ i w l, i ≠ id ∨ l ≠ PUBLISHED → base !! (i, w) = Some l → vp_states r !! (i, w) = Some l) as Hbase.
  { intros i w l Hor Hw. unfold base in Hw. destruct (ae_previous_version e) as [p|]; [|done].
    lookup_states; [by destruct Hor|done]. }
  split; split.
  - intros i w n. rewrite Ha', Hs'. destruct (decide (i = id)) as [->|Hne].
    + rewrite assoc_get_set_eq. intros [= <- <-]. split; [lia|]. right. by rewrite lookup_insert_eq.
    + rewrite assoc_get_set_ne by done. intros H. destruct (inv_active r Hi _ _ _ H) as [? Hw].
      split; [done|]. destruct Hw as [->|Hw]; [by left|right].
      rewrite lookup_insert_ne by congruence. unfold base.
      destruct (ae_previous_version e); [rewrite lookup_insert_ne by congruence|]; done.
  - intros i w. rewrite Ha', Hs'. intros H. lookup_states.
    + rewrite assoc_get_set_eq. eauto.
    + destruct (decide (i = id)) as [->|Hne]; [by apply Hnone in H|].
      rewrite assoc_get_set_ne by done. apply (inv_unique r Hi). apply Hbase; auto.
  - intros i w l. rewrite Hs'. intros H Hl. rewrite Hc'. lookup_states; [eauto|].
    apply (inv_content r Hi _ _ l); [|done]. apply Hbase; auto.
  - intros i w x. by rewrite Hc'.
  - intros i w Hw H. rewrite Hs'.
    assert ((i, w) ≠ (id, v)) as Hne.
    { intros [= -> ->]. unfold state_of in Hst. rewrite H in Hst. set_solver. }
    rewrite lookup_insert_ne by done. unfold base.
    rewrite Hprev. destruct (assoc_get id (vp_active r)) as [[p n]|] eqn:E; cbn; [|done].
    rewrite lookup_insert_ne; [done|]. intros [= -> ->].
    destruct (inv_active r Hi _ _ _ E) as [_ [->|Hp]]; [done|congruence].
  - intros i. unfold active_revision at 2. rewrite Ha'. destruct (decide (i = id)) as [->|Hne].
    + rewrite assoc_get_set_eq. lia.
    + by rewrite assoc_get_set_ne.
Qed.

Lemma step_deprecate_inv r r' id v s :
  lifecycle_inv r → content_same r r' → content_of r id v = Ok (Some s) →
  state_of r id v ∉ [ACTIVE; REVOKED] → vp_states r' = <[(id, v) := DEPRECATED]> (vp_states r) →
  vp_active r' = vp_active r → lifecycle_inv r' ∧ lifecycle_kept r r'.
Proof.
  intros Hi Hc Hsel Hst Hs Ha. assert (∀ i w, content_of r' i w = content_of r i w) as Hc' by done.
  unfold state_of in Hst. split; split.
  - intros i w n. rewrite Ha, Hs. intros H. destruct (inv_active r Hi _ _ _ H) as [? Hw].
    split; [done|]. destruct Hw as [->|Hw]; [by left|right].
    rewrite lookup_insert_ne; [done|]. intros [= -> ->]. rewrite Hw in Hst. set_solver.
  - intros i w. rewrite Ha, Hs. intros H. lookup_states. by apply (inv_unique r Hi).
  - intros i w l. rewrite Hs, Hc'. intros H Hl. lookup_states; [eauto|by apply (inv_content r Hi _ _ l)].
  - intros i w x. by rewrite Hc'.
  - intros i w _ H. rewrite Hs, lookup_insert_ne; [done|]. intros [= -> ->]. rewrite H in Hst. set_solver.
  - intros i. unfold active_revision. by rewrite Ha.
Qed.

Lemma step_revoke_inv r r' id v s :
  lifecycle_inv r → content_same r r' → content_of r id v = Ok (Some s) →
  vp_states r' = <[(id, v) := REVOKED]> (vp_states r) →
  vp_active r' = match assoc_get id (vp_active r) with
                 | Some (w, n) => if String.eqb w v then assoc_set id ("", n + 1) (vp_active r)
                                  else vp_active r
                 | None => vp_active r
                 end →
  lifecycle_inv r' ∧ lifecycle_kept r r'.
Proof.
  intros Hi Hc Hsel Hs Ha. assert (∀ i w, content_of r' i w = content_of r i w) as Hc' by done.
  assert (∀ i, i ≠ id → assoc_get i (vp_active r') = assoc_get i (vp_active r)) as Hother.
  { intros i Hne. rewrite Ha. repeat case_match; try done. by rewrite assoc_get_set_ne. }
  assert (∀ w n, assoc_get id (vp_active r) = Some (w, n) →
    assoc_get id (vp_active r') = if String.eqb w v then Some ("", n + 1) else Some (w, n)) as Hsame.
  { intros w n E. rewrite Ha, E. destruct (String.eqb w v); [apply assoc_get_set_eq|done]. }
  assert (assoc_get id (vp_active r) = None → assoc_get id (vp_active r') = None) as Hnone
    by (intros E; by rewrite Ha, E).
  split; split.
  - intros i w n H. rewrite Hs. destruct (decide (i = id)) as [->|Hne].
    + destruct (assoc_get id (vp_active r)) as [[p m]|] eqn:E; [|by rewrite Hnone in H].
      rewrite (Hsame _ _ eq_refl) in H. destruct (inv_active r Hi _ _ _ E) as [Hm Hp].
      destruct (String.eqb_spec p v) as [->|Hpv]; injection H as <- <-; [split; [lia|by left]|].
      split; [done|]. destruct Hp as [->|Hp]; [by left|right]. by rewrite lookup_insert_ne by congruence.
    + rewrite Hother in H by done. destruct (inv_active r Hi _ _ _ H) as [? Hw].
      split; [done|]. destruct Hw as [->|Hw]; [by left|right]. by rewrite lookup_insert_ne by congruence.
  - intros i w. rewrite Hs. intros H. lookup_states. destruct (inv_unique r Hi _ _ H) as [m Hm].
    destruct (decide (i = id)) as [->|Hne]; [|rewrite Hother; eauto].
    rewrite (Hsame _ _ Hm). destruct (String.eqb_spec w v) as [->|]; [done|eauto].
  - intros i w l. rewrite Hs, Hc'. intros H Hl. lookup_states; [eauto|by apply (inv_content r Hi _ _ l)].
  - intros i w x. by rewrite Hc'.
  - intros i w _ H. rewrite Hs. destruct (decide ((i, w) = (id, v))) as [[= -> ->]|Hne].
    + by rewrite lookup_insert_eq.
    + by rewrite lookup_insert_ne.
  - intros i. unfold active_revision. destruct (decide (i = id)) as [->|Hne]; [|by rewrite Hother].
    destruct (assoc_get id (vp_active r)) as [[p m]|] eqn:E; [|by rewrite Hnone].
    rewrite (Hsame _ _ eq_refl). destruct (String.eqb p v); lia.
Qed.

Lemma lifecycle_step_inv r r' : lifecycle_inv r → lifecycle_step r r' → lifecycle_inv r' ∧ lifecycle_kept r r'.
Proof.
  intros Hi [Hc Hs Ha|id v Hc Hs Ha|e s ? ? ? ? _ ? ? ?|id v s ? ? ? ? ?|id v s ? ? ? ?].
  - assert (∀ id v s, content_of r id v = Ok (Some s) → content_of r' id v = Ok (Some s)) as Hk.
    { intros id v s H. destruct Hc as [Hc|(i & w & Hc)]; [by rewrite Hc|by eapply content_adds_kept]. }
    split; split; rewrite ?Hs, ?Ha; try done; try by destruct Hi.
    + intros id v l Hl Hp. destruct (inv_content r Hi id v l Hl Hp) as [s Hx]. eauto.
    + intros id. unfold active_revision. by rewrite Ha.
  - by eapply step_publish_inv.
  - by eapply step_activate_inv.
  - by eapply step_deprecate_inv.
  - by eapply step_revoke_inv.
Qed.

Lemma vreg_runs_inv calls r :
  lifecycle_inv r → lifecycle_inv (fold_left vreg_run calls r) ∧
                    lifecycle_kept r (fold_left vreg_run calls r).
Proof.
  revert r. induction calls as [|c calls IH]; intros r Hi; simpl; [by split|].
  destruct (lifecycle_step_inv _ _ Hi (vreg_run_step r c)) as [Hi' Hk].
  destruct (IH _ Hi') as [Hi2 Hk2]. split; [done|by etransitivity].
Qed.

Lemma vreg_revoke_ok ver id v who r r' :
  vreg_revoke ver id v who r = (Ok tt, r') →
  vp_states r' !! (id, v) = Some REVOKED ∧ ∃ s, content_of r id v = Ok (Some s).
Proof.
  unfold vreg_revoke. intros H. inv_bind.
  match goal with H : vreg_get _ _ _ _ = Ok ?s |- _ => apply vreg_get_ok in H as [Hs _] end.
  unfold set_lifecycle in *. inv_bind.
  match goal with H : save_state ?x = _ |- _ =>
    pose proof (save_state_saved x) as [_ H2 _ _]; rewrite H in H2 end.
  cbn [snd] in H2. rewrite H2. split; [|eauto].
  cbn [vp_active with_states]. repeat case_match; cbn; by rewrite lookup_insert_eq.
Qed.

Lemma get_active_ok ver r id s :
  get_active ver r id = Ok s →
  ∃ w n x, assoc_get id (vp_active r) = Some (w, n) ∧ state_of r id w = ACTIVE ∧
    content_of r id w = Ok (Some s) ∧ verification ver s = Ok x ∧ vr_valid x = true.
Proof.
  unfold get_active. destruct (assoc_get id (vp_active r)) as [[w n]|]; [|done]. intros H. inv_bind.
  apply vreg_get_ok in H as (Hc & _).
  unfold lifecycle in *. inv_bind. apply bool_decide_eq_false, dec_stable in Hx0.
  unfold vreg_verify, find_stored in *. inv_bind.
  match goal with H : storage_get _ _ _ = Ok _ |- _ => unfold content_of in Hc; rewrite Hc in H end.
  simplify_eq. inv_bind. breflect. eauto 10.
Qed.

Lemma verification_valid ver s w :
  verification ver s = Ok w → vr_valid w = true → vr_digest_valid w = true ∧ vr_signature_valid w = true.
Proof.
  unfold verification. intros H Hv. apply res_bind_ok in H as (dv & _ & H).
  apply res_bind_ok in H as ([sv es] & _ & [= <-]). cbn in *. by breflect.
Qed.

Definition fresh_registry (t : T) : VersionedPolicyRegistry T :=
  {| vp_storage := t; vp_states := ∅; vp_active := []; vp_history := [] |}.

Lemma fresh_registry_inv t : lifecycle_inv (fresh_registry t).
Proof. split; done. Qed.
End Lifecycle.

(** * Properties *)

(** C22. The registry refines the abstract lifecycle: whatever the policy,
    signer, verifier and storage, each call is one step of it, so after any
    calls on a new registry the pointer of a policy names an active version or
    none, no other version of the policy is active, and every version that
    left the published state still has its content. *)
Theorem vreg_refines_lifecycle `{SCH : PolicySchema} `{ISO : IsoTime} {T} `{PSL : PolicyStorageLaws T}
    (t : T) (calls : list vreg_call) :
  (∀ c r, lifecycle_step r (vreg_run r c)) ∧ lifecycle_inv (fold_left vreg_run calls (fresh_registry t)).
Proof.
  split; [intros; apply vreg_run_step|]. by apply vreg_runs_inv, fresh_registry_inv.
Qed.

(** Revocation is final: after a version is revoked, whatever calls follow,
    its state is REVOKED, its content is what it was, and the active policy, if
    there is one, is another version, in state ACTIVE, whose digest and
    signature verify. *)
Lemma vreg_revocation_final `{SCH : PolicySchema} `{ISO : IsoTime} {T} `{PSL : PolicyStorageLaws T}
    (t : T) (before after : list vreg_call) (ver : option PolicyVerifier) (id v : string)
    (who : option ClaimsIdentity) (r1 : VersionedPolicyRegistry T) :
  v ≠ "" →
  vreg_revoke ver id v who (fold_left vreg_run before (fresh_registry t)) = (Ok tt, r1) →
  let r := fold_left vreg_run after r1 in
  state_of r id v = REVOKED ∧
  (∃ s, content_of (fold_left vreg_run before (fresh_registry t)) id v = Ok (Some s) ∧
        content_of r id v = Ok (Some s)) ∧
  ∀ ver' s, get_active ver' r id = Ok s →
    ∃ w n x, assoc_get id (vp_active r) = Some (w, n) ∧ w ≠ v ∧ state_of r id w = ACTIVE ∧
      content_of r id w = Ok (Some s) ∧ verification ver' s = Ok x ∧ vr_valid x = true.
Proof.
  intros Hv Hrev r. set (r0 := fold_left vreg_run before (fresh_registry t)) in *.
  destruct (vreg_runs_inv before _ (fresh_registry_inv t)) as [Hi0 _]. fold r0 in Hi0.
  pose proof (vreg_run_step r0 (CallRevoke ver id v who)) as Hstep. cbn [vreg_run] in Hstep.
  rewrite Hrev in Hstep. destruct (lifecycle_step_inv _ _ Hi0 Hstep) as [Hi1 Hk1].
  destruct (vreg_runs_inv after _ Hi1) as [Hi2 Hk2]. fold r in Hi2, Hk2.
  destruct (vreg_revoke_ok _ _ _ _ _ _ Hrev) as (Hst1 & s & Hs).
  assert (vp_states r !! (id, v) = Some REVOKED) as Hst by (by apply (kept_revoked _ _ Hk2)).
  split; [unfold state_of; by rewrite Hst|]. split.
  { exists s. split; [done|]. by apply (kept_content _ _ Hk2), (kept_content _ _ Hk1). }
  intros ver' s' Ha. destruct (get_active_ok _ _ _ _ Ha) as (w & n & x & Hp & Hw & Hc & Hx & Hval).
  exists w, n, x. split_and!; try done. intros ->. unfold state_of in Hw. by rewrite Hst in Hw.
Qed.

(** Activation is a compare-and-swap: an activation that states revision [n]
    succeeds only when [n] is the current revision, of a version whose digest
    and signature verify and that is published; it makes that version the
    active one at revision [n + 1] and records the event; and no later
    activation that states the same revision can succeed, whatever happens in
    between. *)
Lemma vreg_activation_cas `{SCH : PolicySchema} `{ISO : IsoTime} {T} `{PSL : PolicyStorageLaws T}
    (ver ver' : option PolicyVerifier) (id v v' by_ by' why why' op op' now now' : string) (n : Z)
    (who who' : option ClaimsIdentity) (r r1 : VersionedPolicyRegistry T) (e : PolicyActivationEvent)
    (calls : list vreg_call) :
  lifecycle_inv r →
  vreg_activate ver id v by_ why (Some n) who op now r = (Ok e, r1) →
  n = active_revision r id ∧ state_of r id v = PUBLISHED ∧
  (∃ s x, content_of r id v = Ok (Some s) ∧ verification ver s = Ok x ∧ vr_valid x = true) ∧
  assoc_get id (vp_active r1) = Some (v, n + 1) ∧ state_of r1 id v = ACTIVE ∧
  activation_history r1 id = activation_history r id ++ [e] ∧
  ∃ err, (vreg_activate ver' id v' by' why' (Some n) who' op' now' (fold_left vreg_run calls r1)).1 =
         Raise err.
Proof.
  intros Hi H. destruct (vreg_activate_cases ver id v by_ why (Some n) who op now r)
    as [[err He]|(e' & Hact & Hx)]; [congruence|].
  rewrite H in Hact, Hx. cbn [fst snd] in *. rewrite <-(Hx e eq_refl) in *. clear Hx.
  pose proof (vreg_run_step r (CallActivate ver id v by_ why (Some n) who op now)) as Hstep.
  cbn [vreg_run] in Hstep. rewrite H in Hstep. cbn [snd] in Hstep.
  destruct (lifecycle_step_inv _ _ Hi Hstep) as [Hi1 _].
  destruct Hact as [Hst Hval Hexp Hprev (Hid & Hsel & Hpv & Hrev & _) Hres].
  pose proof (Hexp n eq_refl) as Hn. clear Hstep.
  pose proof (save_state_saved (apply_activation e r)) as [_ H2 H3 H4]. rewrite <-Hres in H2, H3, H4.
  assert (assoc_get id (vp_active r1) = Some (v, n + 1)) as Hact1.
  { rewrite H3. unfold apply_activation. cbn [vp_active].
    by rewrite Hid, Hsel, Hrev, assoc_get_set_eq, Hn. }
  split; [done|]. split.
  { destruct Hst as [Hst|Hst]; [done|]. exfalso. unfold state_of in Hst.
    destruct (vp_states r !! (id, v)) as [l|] eqn:E; [|done]. cbn in Hst. subst l.
    destruct (inv_unique r Hi _ _ E) as [m Hm]. by rewrite Hm in Hprev. }
  split; [done|]. split; [done|]. split.
  { unfold state_of. rewrite H2. unfold apply_activation. cbn [vp_states].
    by rewrite Hid, Hsel, lookup_insert_eq. }
  split.
  { unfold activation_history. rewrite H4. unfold apply_activation. cbn [vp_history].
    by rewrite Hid, assoc_get_set_eq. }
  destruct (vreg_runs_inv calls _ Hi1) as [_ Hk].
  pose proof (kept_revision _ _ Hk id) as Hge.
  assert (active_revision r1 id = n + 1) as Hr1 by (unfold active_revision; by rewrite Hact1).
  destruct (vreg_activate_cases ver' id v' by' why' (Some n) who' op' now' (fold_left vreg_run calls r1))
    as [[err He]|(e2 & Hact2 & _)]; [exists err; by rewrite He|].
  pose proof (activated_expected _ _ _ _ _ _ _ _ Hact2 n eq_refl). lia.
Qed.

(** The latest version is the greatest: [latest] returns a stored version
    with a valid digest, and every stored version of the policy precedes it or
    is equal to it in SemVer precedence. *)
Lemma vreg_latest_greatest `{SCH : PolicySchema} `{ISO : IsoTime} {T} `{PS : PolicyStorage T}
    (ver : option PolicyVerifier) (r : VersionedPolicyRegistry T) (id : string) (s : StoredPolicy) :
  vreg_latest ver r id = Ok s →
  ∃ v kv, v ∈ storage_versions (vp_storage r) id ∧ content_of r id v = Ok (Some s) ∧
    semver_key v = Ok kv ∧
    ∀ w, w ∈ storage_versions (vp_storage r) id →
      ∃ kw, semver_key w = Ok kw ∧ semver_leb kw kv = true.
Proof.
  unfold vreg_latest. intros H. apply res_bind_ok in H as (vs & Hvs & H).
  destruct (last vs) as [v|] eqn:Hl; [|done]. apply vreg_get_ok in H as [Hc _].
  destruct (sort_versions_last _ _ _ Hvs Hl) as (Hin & kv & Hk & Hmax). by exists v, kv.
Qed.

(** Publication is signed and write-once: a publication that succeeds stored
    a record whose digest and signature the configured verifier accepts, under
    a name that had no content, in state PUBLISHED, and the storage gives the
    record back; under a name that has content every publication, the same one
    included, is rejected and changes nothing. *)
Lemma vreg_publish_once `{SCH : PolicySchema} `{ISO : IsoTime} {T} `{PSL : PolicyStorageLaws T}
    (ver : option PolicyVerifier) (policy : pyval) (signer : PolicySigner) (signed_at : option string)
    (now : string) (r : VersionedPolicyRegistry T) :
  (∀ s r', vreg_publish ver policy signer signed_at now r = (Ok s, r') →
     content_of r (sp_id s) (sp_version s) = Ok None ∧
     (∃ x, verification ver s = Ok x ∧ vr_digest_valid x = true ∧ vr_signature_valid x = true) ∧
     state_of r' (sp_id s) (sp_version s) = PUBLISHED ∧
     (record_ok s → content_of r' (sp_id s) (sp_version s) = Ok (Some s))) ∧
  (∀ s x, signed_record policy signer signed_at now = Ok s →
     content_of r (sp_id s) (sp_version s) = Ok (Some x) →
     vreg_publish ver policy signer signed_at now r =
       (Raise (PolicyImmutabilityError ("policy " +:+ name_of (sp_id s) (sp_version s) +:+
                                        " is already published")), r)).
Proof.
  split.
  - intros s r' H. unfold vreg_publish in H. apply M_bind_ok in H as (s0 & ? & [Hs ->]%lift_res_ok & H).
    inv_bind. breflect.
    match goal with H : set_lifecycle _ _ _ _ = _ |- _ => unfold set_lifecycle in H; injection H as <- end.
    match goal with H : verification ver _ = Ok ?w |- _ => rename H into Hver; rename w into w0 end.
    match goal with H : save_state ?z = _ |- _ => pose proof (save_state_saved z) as [H1 H2 _ _];
      rewrite H in H1, H2; cbn [snd] in H1, H2 end.
    match goal with H : match ?o with Some _ => true | None => false end = false |- _ =>
      destruct o; [done|] end.
    split; [done|]. split.
    { exists w0. split; [done|]. by eapply verification_valid. }
    split; [unfold state_of; rewrite H2; cbn; by rewrite lookup_insert_eq|].
    intros Hok. rewrite H1. unfold content_of. cbn [vp_storage with_states].
    match goal with H : on_storage _ ?z = _ |- _ =>
      destruct (put_new _ (vp_storage z) Hok) as (t' & Hp & Hg); [done|];
      unfold on_storage, zoom in H; rewrite Hp in H; by injection H as <- end.
  - intros s x Hs Hc. unfold vreg_publish, mbind, M_bind, lift_res, get_state, raise_if.
    rewrite Hs. unfold content_of in Hc. by rewrite Hc.
Qed.

(** ** Witnesses *)

(** A validator that asks for what the schema requires of [id] and [version]. *)
Definition toy_schema_errors (v : pyval) : list (list string * string) :=
  match v with
  | PDict d =>
      match assoc_get "id" d, assoc_get "version" d with
      | Some (PStr i), Some (PStr v) =>
          if id_match i && match semver_match v with Some _ => true | None => false end
          then [] else [(["id"], "does not match")]
      | _, _ => [([], "'id' is a required property")]
      end
  | _ => [([], "is not of type 'object'")]
  end.

#[export] Instance toy_schema : PolicySchema := {| schema_errors := toy_schema_errors |}.

#[export] Instance toy_schema_laws : PolicySchemaLaws toy_schema.
Proof.
  split. intros v. cbn. unfold toy_schema_errors. destruct v as [| | | | | |d|]; try done.
  destruct (assoc_get "id" d) as [[| | | |i| | |]|] eqn:Hi; try done.
  destruct (assoc_get "version" d) as [[| | | |v| | |]|] eqn:Hv; try done.
  destruct (id_match i) eqn:E; [|done]. destruct (semver_match v) eqn:E2; [|done].
  intros _. exists d, i, v. split_and!; try done.
Qed.

(** Every timestamp is read as UTC. *)
#[export] Instance toy_iso : IsoTime := {| iso_offset := λ _, Some (Some 0) |}.

Definition policy_content (version : string) : pyval :=
  PDict [("id", PStr "payments"); ("name", PStr "Payments"); ("version", PStr version);
         ("description", PStr "limits")].

Definition example_signer : PolicySigner :=
  {| psg_signer := LocalEd25519Signer (C := toy_crypto) "pub" "pub-key"; psg_algorithm := Some "ed25519" |}.

Definition example_verifier : option PolicyVerifier :=
  Some (StaticPolicyVerifier (C := toy_crypto) [("pub", "pub-key")]).

Definition publish_call (version : string) : vreg_call :=
  CallPublish example_verifier (policy_content version) example_signer None "2026-01-01T00:00:00+00:00".
Definition activate_call (version : string) (expected : option Z) : vreg_call :=
  CallActivate example_verifier "payments" version "alice" "rollout" expected None "activate" "now".

Definition vreg_before : list vreg_call :=
  [publish_call "1.9.0"; publish_call "1.10.0"; activate_call "1.10.0" None].

Definition empty_files : FilePolicyStorage := {| fp_files := []; fp_state := None |}.

Definition example_vreg : VersionedPolicyRegistry FilePolicyStorage :=
  Eval vm_compute in fold_left vreg_run vreg_before (fresh_registry empty_files).

Lemma example_vreg_run : fold_left vreg_run vreg_before (fresh_registry empty_files) = example_vreg.
Proof. vm_compute. reflexivity. Qed.

Lemma example_vreg_inv : lifecycle_inv example_vreg.
Proof. rewrite <-example_vreg_run. by apply vreg_runs_inv, fresh_registry_inv. Qed.

Lemma vreg_refines_lifecycle_witness : lifecycle_inv example_vreg.
Proof.
  rewrite <-example_vreg_run.
  exact (proj2 (vreg_refines_lifecycle empty_files vreg_before)).
Defined.

Lemma vreg_revocation_final_witness :
  let r1 := (vreg_revoke example_verifier "payments" "1.10.0" None example_vreg).2 in
  let r := fold_left vreg_run [activate_call "1.9.0" (Some 2); activate_call "1.10.0" None] r1 in
  state_of r "payments" "1.10.0" = REVOKED.
Proof.
  intros r1 r.
  assert (vreg_revoke example_verifier "payments" "1.10.0" None
            (fold_left vreg_run vreg_before (fresh_registry empty_files)) = (Ok tt, r1)) as H
    by (rewrite example_vreg_run; vm_compute; reflexivity).
  pose proof (vreg_revocation_final empty_files vreg_before
    [activate_call "1.9.0" (Some 2); activate_call "1.10.0" None] example_verifier "payments" "1.10.0"
    None r1 ltac:(discriminate) H) as Hf.
  exact (proj1 Hf).
Defined.

Lemma vreg_activation_cas_witness :
  ∃ e r1, vreg_activate example_verifier "payments" "1.9.0" "bob" "rollback" (Some 1) None "rollback"
            "now" example_vreg = (Ok e, r1) ∧ assoc_get "payments" (vp_active r1) = Some ("1.9.0", 2).
Proof.
  destruct (vreg_activate example_verifier "payments" "1.9.0" "bob" "rollback" (Some 1) None "rollback"
    "now" example_vreg) as [[e|err] r1] eqn:H; [|vm_compute in H; discriminate H].
  exists e, r1. split; [reflexivity|].
  pose proof (vreg_activation_cas example_verifier example_verifier "payments" "1.9.0" "1.9.0" "bob" "bob"
    "rollback" "rollback" "rollback" "rollback" "now" "now" 1 None None example_vreg r1 e []
    example_vreg_inv H) as (_ & _ & _ & Ha & _).
  exact Ha.
Defined.

Lemma vreg_latest_greatest_witness :
  ∃ s, vreg_latest example_verifier example_vreg "payments" = Ok s ∧ sp_version s = "1.10.0" ∧
       ∃ v kv, content_of example_vreg "payments" v = Ok (Some s) ∧ semver_key v = Ok kv.
Proof.
  destruct (vreg_latest example_verifier example_vreg "payments") as [s|e] eqn:H;
    [|vm_compute in H; discriminate H].
  exists s. split; [reflexivity|]. split.
  - vm_compute in H. injection H as <-. reflexivity.
  - destruct (vreg_latest_greatest example_verifier example_vreg "payments" s H)
      as (v & kv & _ & Hc & Hk & _).
    exact (ex_intro _ v (ex_intro _ kv (conj Hc Hk))).
Defined.

(** The same publication twice. *)
Lemma vreg_publish_once_witness :
  ∃ e, vreg_publish example_verifier (policy_content "1.9.0") example_signer None
         "2026-01-01T00:00:00+00:00" example_vreg = (Raise e, example_vreg).
Proof.
  destruct (signed_record (policy_content "1.9.0") example_signer None "2026-01-01T00:00:00+00:00")
    as [s|e] eqn:Hs; [|vm_compute in Hs; discriminate Hs].
  eexists.
  refine (proj2 (vreg_publish_once example_verifier (policy_content "1.9.0") example_signer None
    "2026-01-01T00:00:00+00:00" example_vreg) s s Hs _).
  vm_compute in Hs. injection Hs as <-. vm_compute. reflexivity.
Defined.
