(* ===== verification/Jobs.v ===== *)
(** jobs.py: durable job state with bounded retries and dead letters.

    The [jobs] table is the list of its rows with the constraints its schema
    declares.  The time of day, delays and new identifiers are arguments.
    [run_once] is written against the interface [JobStore]; the SQLite store
    and (file JobsPostgres) the PostgreSQL store implement it. *)

From S2P Require Import Prelude PyFloat PyVal Json Models Policy Orders.

(** * Rows and jobs *)

(** A row of the table; the payload column is JSON text. *)
Record JobRow := {
  jr_id : string;
  jr_key : string;
  jr_payload : string;
  jr_status : string;
  jr_attempts : Z;
  jr_max : Z;
  jr_available : spec_float;
  jr_error : option string
}.

Record Job := {
  job_id : string;
  job_key : string;
  job_payload : pyval;
  job_status : string;
  job_attempts : Z;
  job_max : Z;
  job_available : spec_float;
  job_error : option string
}.

Definition job_of_row (r : JobRow) : res Job :=
  payload ← json_loads (jr_payload r);
  Ok {| job_id := jr_id r; job_key := jr_key r; job_payload := payload;
        job_status := jr_status r; job_attempts := jr_attempts r; job_max := jr_max r;
        job_available := jr_available r; job_error := jr_error r |}.

(** ** Time *)

Definition float_add : spec_float → spec_float → spec_float := SFadd 53 1024.
Definition float_leb (x y : spec_float) : bool := SFleb x y.
Definition is_nan (x : spec_float) : bool := match x with S754_nan => true | _ => false end.

(** The order of the column [available_at], which is never NaN: a triple of
    integers that compares as the floats do. *)
Definition float_rank (x : spec_float) : Z * (Z * Z) :=
  match x with
  | S754_infinity true => (-2, (0, 0))
  | S754_finite true m e => (-1, (- e, - Z.pos m))
  | S754_zero _ | S754_nan => (0, (0, 0))
  | S754_finite false m e => (1, (e, Z.pos m))
  | S754_infinity false => (2, (0, 0))
  end.

Definition rank_leb : Z * (Z * Z) → Z * (Z * Z) → bool := pair_leb Z.leb (pair_leb Z.leb Z.leb).

(** The rank orders the values as IEEE comparison does. *)
Lemma float_rank_leb x y :
  is_nan x = false → is_nan y = false → rank_leb (float_rank x) (float_rank y) = float_leb x y.
Proof.
  unfold rank_leb, pair_leb, float_leb, SFleb, SFcompare, float_rank.
  destruct x as [sx|[]| |[] m e], y as [sy|[]| |[] n f]; try done; intros _ _; cbn [fst snd];
    change (-1 <=? -1) with true; change (1 <=? 1) with true; cbn [negb orb andb];
    change (Pos.compare_cont Eq m n) with (Pos.compare m n);
    destruct (Z.compare_spec e f), (Pos.compare_spec m n); cbn [CompOpp]; subst;
    rewrite ?Z.leb_refl; cbn [negb orb andb];
    repeat match goal with |- context [?a <=? ?b] => destruct (Z.leb_spec a b) end;
    cbn [negb orb andb]; try done; lia.
Qed.

Definition row_order : (Z * (Z * Z)) * string → (Z * (Z * Z)) * string → bool :=
  pair_leb rank_leb String.leb.
Definition row_key (r : JobRow) : (Z * (Z * Z)) * string := (float_rank (jr_available r), jr_id r).

#[export] Instance rank_leb_order : LebOrder rank_leb.
Proof. unfold rank_leb. apply _. Qed.
#[export] Instance row_order_order : LebOrder row_order.
Proof. unfold row_order. apply _. Qed.

(** * The SQLite store *)

Definition is_queued (r : JobRow) : bool := String.eqb (jr_status r) "queued".
Definition is_running (r : JobRow) : bool := String.eqb (jr_status r) "running".

Definition has_id (id : string) (r : JobRow) : bool := String.eqb (jr_id r) id.
Definition has_key (key : string) (r : JobRow) : bool := String.eqb (jr_key r) key.

(** [SELECT * FROM jobs WHERE ...] of a column with unique values *)
Definition row_where (p : JobRow → bool) (rows : list JobRow) : option JobRow := List.find p rows.

(** [UPDATE jobs SET ... WHERE ...] *)
Definition update_where (p : JobRow → bool) (f : JobRow → JobRow) (rows : list JobRow) : list JobRow :=
  map (λ r, if p r then f r else r) rows.

Definition set_running (r : JobRow) : JobRow :=
  {| jr_id := jr_id r; jr_key := jr_key r; jr_payload := jr_payload r; jr_status := "running";
     jr_attempts := jr_attempts r + 1; jr_max := jr_max r; jr_available := jr_available r;
     jr_error := jr_error r |}.
Definition set_succeeded (r : JobRow) : JobRow :=
  {| jr_id := jr_id r; jr_key := jr_key r; jr_payload := jr_payload r; jr_status := "succeeded";
     jr_attempts := jr_attempts r; jr_max := jr_max r; jr_available := jr_available r;
     jr_error := jr_error r |}.
Definition failed_status (r : JobRow) : string :=
  if jr_attempts r <? jr_max r then "queued" else "dead_letter".
Definition set_failed (error : string) (available : spec_float) (r : JobRow) : JobRow :=
  {| jr_id := jr_id r; jr_key := jr_key r; jr_payload := jr_payload r; jr_status := failed_status r;
     jr_attempts := jr_attempts r; jr_max := jr_max r; jr_available := available;
     jr_error := Some (py_take 512 error) |}.

Definition IntegrityError (msg : string) : exn := OtherError "IntegrityError" msg.

(** A Python [int] bound to an [INTEGER] column has 64 bits. *)
Definition sqlite_integer (z : Z) : res Z :=
  if (- 2 ^ 63 <=? z) && (z <? 2 ^ 63) then Ok z
  else Raise (OverflowError "Python int too large to convert to SQLite INTEGER").

(** [REAL NOT NULL]: a NaN is stored as NULL. *)
Definition real_not_null (x : spec_float) : res unit :=
  fail_if (is_nan x) (IntegrityError "NOT NULL constraint failed: jobs.available_at").

Definition store_get_job (id : string) : M (list JobRow) Job :=
  rows ← get_state;
  match row_where (has_id id) rows with
  | None => raise (KeyError "unknown job")
  | Some r => lift_res (job_of_row r)
  end.

Definition insert_row (r : JobRow) : M (list JobRow) unit :=
  rows ← get_state;
  lift_res (real_not_null (jr_available r)) ;;
  raise_if (existsb (has_id (jr_id r)) rows) (IntegrityError "UNIQUE constraint failed: jobs.job_id") ;;
  put_state (rows ++ [r]).

Definition new_row (id key payload : string) (max : Z) (available : spec_float) : JobRow :=
  {| jr_id := id; jr_key := key; jr_payload := payload; jr_status := "queued"; jr_attempts := 0;
     jr_max := max; jr_available := available; jr_error := None |}.

Definition enqueue_invalid (key : string) (max : Z) : bool := String.eqb key "" || (max <=? 0).
Definition enqueue_error : exn := ValueError "idempotency_key and positive max_attempts are required".

(** [new_id] is [uuid.uuid4().hex] and [now] is [time.time()]. *)
Definition sqlite_enqueue (new_id : string) (now delay : spec_float)
    (payload : pydict) (key : string) (max : Z) : M (list JobRow) Job :=
  raise_if (enqueue_invalid key max) enqueue_error ;;
  rows ← get_state;
  match row_where (has_key key) rows with
  | Some existing => lift_res (job_of_row existing)
  | None =>
      text ← lift_res (json_dumps default_style (PDict payload));
      max ← lift_res (sqlite_integer max);
      insert_row (new_row new_id key text max (float_add now delay)) ;;
      store_get_job new_id
  end.

Definition due (now : spec_float) (r : JobRow) : bool := is_queued r && float_leb (jr_available r) now.

(** The [SELECT ... ORDER BY available_at, job_id LIMIT 1] of [claim]. *)
Definition claim_select (now : spec_float) (rows : list JobRow) : option JobRow :=
  head (sort_leb row_key row_order (List.filter (due now) rows)).
Definition claim_update (id : string) (rows : list JobRow) : list JobRow :=
  update_where (λ r, has_id id r && is_queued r) set_running rows.

(** The rest of [claim] after its [SELECT]. *)
Definition claim_found (id : string) : M (list JobRow) (option Job) :=
  modify (claim_update id) ;;
  job ← store_get_job id;
  mret (Some job).

Definition sqlite_claim (now : spec_float) : M (list JobRow) (option Job) :=
  rows ← get_state;
  match claim_select now rows with
  | None => mret None
  | Some r => claim_found (jr_id r)
  end.

Definition sqlite_complete (id : string) : M (list JobRow) unit :=
  modify (update_where (λ r, has_id id r && is_running r) set_succeeded).

Definition sqlite_fail (now : spec_float) (id error : string) (delay : spec_float)
    : M (list JobRow) unit :=
  job ← store_get_job id;
  let available := float_add now delay in
  let status := if job_attempts job <? job_max job then "queued" else "dead_letter" in
  lift_res (real_not_null available) ;;
  modify (update_where (has_id id) (λ r,
    {| jr_id := jr_id r; jr_key := jr_key r; jr_payload := jr_payload r; jr_status := status;
       jr_attempts := jr_attempts r; jr_max := jr_max r; jr_available := available;
       jr_error := Some (py_take 512 error) |})).

(** * [run_once] *)

(** The protocol [JobStore]; clocks are arguments. *)
Class JobStore (S : Type) := {
  js_claim : spec_float → M S (option Job);
  js_complete : string → M S unit;
  js_fail : spec_float → string → string → spec_float → M S unit;
  js_get : string → M S Job
}.

#[export] Instance sqlite_job_store : JobStore (list JobRow) := {|
  js_claim := sqlite_claim;
  js_complete := sqlite_complete;
  js_fail := sqlite_fail;
  js_get := store_get_job
|}.

(** [except (ValueError, RuntimeError, TimeoutError, OSError)] *)
Definition job_caught (e : exn) : bool := is_ValueError e || is_RuntimeError e || is_OSError e.

Section RunOnce.
Context {S W : Type} `{JobStore S}.

Definition in_store {A} (m : M S A) : M (S * W) A := zoom fst (λ s sw, (s, sw.2)) m.
Definition in_world {A} (m : M W A) : M (S * W) A := zoom snd (λ w sw, (sw.1, w)) m.

(** [try: m except E as exc: ... else: ...] where the branches return: the
    outcome of [m] as a value. *)
Definition attempt {T A} (m : M T A) : M T (res A) := λ t, let '(r, t') := m t in (Ok r, t').

(** The state is the store and the world that the handler and the
    compensation act on. *)
Definition run_once (now_claim now_fail : spec_float) (handler : pyval → M W unit)
    (compensation : option (Job → exn → M W unit)) (retry_delay : spec_float)
    : M (S * W) (option Job) :=
  claimed ← in_store (js_claim now_claim);
  match claimed with
  | None => mret None
  | Some job =>
      outcome ← attempt (in_world (handler (job_payload job)));
      match outcome with
      | Raise e =>
          raise_if (negb (job_caught e)) e ;;
          in_store (js_fail now_fail (job_id job) (exn_name e) retry_delay) ;;
          current ← in_store (js_get (job_id job));
          match compensation with
          | Some c =>
              if String.eqb (job_status current) "dead_letter" then in_world (c job e) else mret tt
          | None => mret tt
          end
      | Ok _ => in_store (js_complete (job_id job))
      end ;;
      final ← in_store (js_get (job_id job));
      mret (Some final)
  end.
End RunOnce.

(** * The table by identifier *)

Definition row_at (rows : list JobRow) (id : string) : option JobRow := row_where (has_id id) rows.

Lemma row_where_Some p rows r : row_where p rows = Some r → r ∈ rows ∧ p r = true.
Proof. intros H. apply find_some in H as [H ?]. split; [by apply list_elem_of_In|done]. Qed.

Lemma row_at_Some rows id r : row_at rows id = Some r → r ∈ rows ∧ jr_id r = id.
Proof. intros (H & Hid)%row_where_Some. split; [done|by apply String.eqb_eq]. Qed.

Lemma row_at_None rows id : row_at rows id = None ↔ id ∉ map jr_id rows.
Proof.
  unfold row_at, row_where. split.
  - intros H (r & -> & Hr)%list_elem_of_fmap. apply list_elem_of_In in Hr.
    pose proof (find_none _ _ H r Hr) as E. unfold has_id in E. by rewrite String.eqb_refl in E.
  - intros H. destruct (find _ rows) as [r|] eqn:E; [|done]. apply find_some in E as [Hr Hid].
    apply String.eqb_eq in Hid as <-. contradict H. apply list_elem_of_In in Hr.
    by apply (list_elem_of_fmap_2 jr_id).
Qed.

Lemma row_at_elem rows r : NoDup (map jr_id rows) → r ∈ rows → row_at rows (jr_id r) = Some r.
Proof.
  unfold row_at, row_where. induction rows as [|q rows IH]; [by intros _ ?%not_elem_of_nil|].
  cbn [map find]. intros [Hq Hn]%NoDup_cons [->|Hr]%elem_of_cons; unfold has_id at 1.
  - by rewrite String.eqb_refl.
  - destruct (String.eqb_spec (jr_id q) (jr_id r)) as [E|_]; [|by apply IH].
    contradict Hq. rewrite E. by apply (list_elem_of_fmap_2 jr_id).
Qed.

Lemma row_at_app rows r id :
  row_at (rows ++ [r]) id =
  match row_at rows id with Some q => Some q | None => if String.eqb (jr_id r) id then Some r else None end.
Proof.
  unfold row_at, row_where. induction rows as [|q rows IH]; cbn [app find]; [done|].
  by destruct (has_id id q).
Qed.

Lemma update_where_map {A} (g : JobRow → A) p f rows :
  (∀ r, g (f r) = g r) → map g (update_where p f rows) = map g rows.
Proof.
  intros H. unfold update_where. rewrite List.map_map. apply map_ext. intros r. by destruct (p r).
Qed.

Lemma update_where_elem p f rows r :
  r ∈ update_where p f rows → ∃ q, q ∈ rows ∧ r = if p q then f q else q.
Proof. intros (q & -> & Hq)%list_elem_of_fmap. eauto. Qed.

Lemma row_where_update q p f rows :
  (∀ r, q (f r) = q r) →
  row_where q (update_where p f rows) = option_map (λ r, if p r then f r else r) (row_where q rows).
Proof.
  intros Hf. unfold row_where, update_where. induction rows as [|r rows IH]; simpl; [done|].
  assert (q (if p r then f r else r) = q r) as -> by (destruct (p r); auto).
  destruct (q r); [done|exact IH].
Qed.

Lemma row_at_update p f rows id :
  (∀ r, jr_id (f r) = jr_id r) →
  row_at (update_where p f rows) id = option_map (λ r, if p r then f r else r) (row_at rows id).
Proof. intros Hf. apply row_where_update. intros r. unfold has_id. by rewrite Hf. Qed.

(** ** The calls, spelled out *)

Lemma store_get_job_spec id rows :
  store_get_job id rows =
  (match row_at rows id with Some r => job_of_row r | None => Raise (KeyError "unknown job") end, rows).
Proof.
  unfold store_get_job, mbind, M_bind, get_state, row_at. by destruct (row_where _ rows).
Qed.

Lemma job_of_row_fields r j :
  job_of_row r = Ok j →
  job_id j = jr_id r ∧ job_key j = jr_key r ∧ job_status j = jr_status r ∧
  job_attempts j = jr_attempts r ∧ job_max j = jr_max r.
Proof. unfold job_of_row. intros H. apply res_bind_ok in H as (v & _ & [= <-]). done. Qed.

Lemma due_queued now r : due now r = true → is_queued r = true.
Proof. unfold due. by intros [? _]%andb_true_iff. Qed.

(** [claim] takes the due job that comes first by availability and identifier. *)
Lemma claim_select_first now rows r :
  claim_select now rows = Some r →
  r ∈ rows ∧ due now r = true ∧
  ∀ q, q ∈ rows → due now q = true → row_order (row_key r) (row_key q) = true.
Proof.
  intros H. pose proof (sort_leb_head_elem _ _ _ _ H) as Hr.
  apply list_elem_of_In, filter_In in Hr as [Hr Hd]. split_and!; [by apply list_elem_of_In|done|].
  intros q Hq Hdq. apply (sort_leb_head _ _ _ _ _ H). apply list_elem_of_In, filter_In.
  by apply list_elem_of_In in Hq.
Qed.

Lemma claim_select_none now rows :
  claim_select now rows = None → ∀ r, r ∈ rows → due now r = false.
Proof.
  intros H r Hr. apply sort_leb_head_None in H. destruct (due now r) eqn:E; [|done].
  assert (In r (List.filter (due now) rows)) as Hin by (apply filter_In; by apply list_elem_of_In in Hr).
  by rewrite H in Hin.
Qed.

Definition row_claimed (id : string) (r : JobRow) : JobRow :=
  if has_id id r && is_queued r then set_running r else r.

Lemma row_at_claim id rows k :
  row_at (claim_update id rows) k = option_map (row_claimed id) (row_at rows k).
Proof. by apply row_at_update. Qed.

Lemma sqlite_claim_cases now rows :
  (claim_select now rows = None ∧ sqlite_claim now rows = (Ok None, rows)) ∨
  ∃ r, claim_select now rows = Some r ∧
    sqlite_claim now rows =
    (j ← match row_at (claim_update (jr_id r) rows) (jr_id r) with
         | Some q => job_of_row q
         | None => Raise (KeyError "unknown job") end; Ok (Some j), claim_update (jr_id r) rows).
Proof.
  unfold sqlite_claim, claim_found, mbind, M_bind, get_state, modify, mret, M_ret.
  destruct (claim_select now rows) as [r|]; [right|by left]. exists r. split; [done|].
  rewrite store_get_job_spec. unfold res_bind. by destruct (row_at _ _) as [q|]; [destruct (job_of_row q)|].
Qed.

(** [fail] writes the status computed from the row it read. *)
Lemma sqlite_fail_spec now id error delay rows :
  NoDup (map jr_id rows) →
  sqlite_fail now id error delay rows =
  match row_at rows id with
  | None => (Raise (KeyError "unknown job"), rows)
  | Some r =>
      match job_of_row r with
      | Raise e => (Raise e, rows)
      | Ok _ =>
          match real_not_null (float_add now delay) with
          | Raise e => (Raise e, rows)
          | Ok _ => (Ok tt, update_where (has_id id) (set_failed error (float_add now delay)) rows)
          end
      end
  end.
Proof.
  intros Hn. unfold sqlite_fail, mbind, M_bind, lift_res, modify. rewrite store_get_job_spec.
  destruct (row_at rows id) as [r|] eqn:Hr; [|done].
  destruct (job_of_row r) as [j|e] eqn:Hj; [|done].
  destruct (real_not_null _); [|done]. f_equal. unfold update_where. apply map_ext_in.
  intros q Hq. unfold has_id. destruct (String.eqb_spec (jr_id q) id) as [Hid|]; [|done].
  apply list_elem_of_In in Hq. pose proof (row_at_elem _ _ Hn Hq) as E. rewrite Hid, Hr in E.
  injection E as <-. apply job_of_row_fields in Hj as (_ & _ & _ & -> & ->). reflexivity.
Qed.

(** * Invariant *)

Inductive status_ok (r : JobRow) : Prop :=
| StatusQueued : jr_status r = "queued" → jr_attempts r < jr_max r → status_ok r
| StatusRunning : jr_status r = "running" → 0 < jr_attempts r → status_ok r
| StatusSucceeded : jr_status r = "succeeded" → 0 < jr_attempts r → status_ok r
| StatusDead : jr_status r = "dead_letter" → jr_attempts r = jr_max r → status_ok r.

Record row_wf (r : JobRow) : Prop := {
  wf_key : jr_key r ≠ "";
  wf_attempts : 0 <= jr_attempts r <= jr_max r;
  wf_max : 0 < jr_max r < 2 ^ 63;
  wf_available : is_nan (jr_available r) = false;
  wf_status : status_ok r
}.

Record jobs_inv (rows : list JobRow) : Prop := {
  ji_ids : NoDup (map jr_id rows);
  ji_keys : NoDup (map jr_key rows);
  ji_rows : Forall row_wf rows
}.

Lemma jobs_inv_nil : jobs_inv [].
Proof. split; constructor. Qed.

Lemma is_queued_true r : is_queued r = true ↔ jr_status r = "queued".
Proof. apply String.eqb_eq. Qed.
Lemma is_running_true r : is_running r = true ↔ jr_status r = "running".
Proof. apply String.eqb_eq. Qed.

Lemma set_running_wf r : row_wf r → is_queued r = true → row_wf (set_running r).
Proof.
  intros [Hk Ha Hm Hv Hs] Hq%is_queued_true. split; cbn; try done.
  - destruct Hs; try congruence; lia.
  - by apply StatusRunning; cbn; [|lia].
Qed.

Lemma set_succeeded_wf r : row_wf r → is_running r = true → row_wf (set_succeeded r).
Proof.
  intros [Hk Ha Hm Hv Hs] Hq%is_running_true. split; cbn; try done.
  apply StatusSucceeded; cbn; [done|]. destruct Hs; congruence.
Qed.

Lemma set_failed_wf error available r :
  row_wf r → is_nan available = false → row_wf (set_failed error available r).
Proof.
  intros [Hk Ha Hm Hv Hs] Hn. split; cbn; try done.
  destruct (Z.ltb_spec (jr_attempts r) (jr_max r)) as [H|H].
  - apply StatusQueued; cbn; [|done]. unfold failed_status. by rewrite (proj2 (Z.ltb_lt _ _) H).
  - apply StatusDead; cbn; [|lia]. unfold failed_status. by rewrite (proj2 (Z.ltb_ge _ _) H).
Qed.

Lemma update_where_inv p f rows :
  (∀ r, jr_id (f r) = jr_id r) → (∀ r, jr_key (f r) = jr_key r) →
  (∀ r, row_wf r → p r = true → row_wf (f r)) →
  jobs_inv rows → jobs_inv (update_where p f rows).
Proof.
  intros Hid Hkey Hwf [Hi Hk Hr]. split.
  - by rewrite update_where_map.
  - by rewrite update_where_map.
  - apply Forall_forall. intros r (q & Hq & ->)%update_where_elem.
    pose proof (proj1 (Forall_forall _ _) Hr q Hq). destruct (p q) eqn:E; auto.
Qed.

Lemma claim_update_inv id rows : jobs_inv rows → jobs_inv (claim_update id rows).
Proof. apply update_where_inv; try done. intros r Hr [_ Hq]%andb_true_iff. by apply set_running_wf. Qed.

Lemma sqlite_claim_inv now rows : jobs_inv rows → jobs_inv (sqlite_claim now rows).2.
Proof.
  intros H. destruct (sqlite_claim_cases now rows) as [[_ ->]|(r & _ & ->)]; [done|].
  by apply claim_update_inv.
Qed.

Lemma sqlite_complete_inv id rows : jobs_inv rows → jobs_inv (sqlite_complete id rows).2.
Proof. apply update_where_inv; try done. intros r Hr [_ Hq]%andb_true_iff. by apply set_succeeded_wf. Qed.

Lemma real_not_null_ok x u : real_not_null x = Ok u ↔ is_nan x = false.
Proof. apply fail_if_ok. Qed.

Lemma sqlite_fail_inv now id error delay rows :
  jobs_inv rows → jobs_inv (sqlite_fail now id error delay rows).2.
Proof.
  intros H. rewrite (sqlite_fail_spec _ _ _ _ _ (ji_ids _ H)).
  destruct (row_at rows id) as [r|]; [|done]. destruct (job_of_row r); [|done].
  destruct (real_not_null _) as [u|] eqn:Hn; [|done]. apply real_not_null_ok in Hn.
  apply update_where_inv; try done. intros q Hq _. by apply set_failed_wf.
Qed.

(** What a successful or failed submission leaves: the table as it was, or one
    new row. *)
Lemma sqlite_enqueue_effect new_id now delay payload key max rows :
  let rows' := (sqlite_enqueue new_id now delay payload key max rows).2 in
  rows' = rows ∨
  ∃ text, json_dumps default_style (PDict payload) = Ok text ∧
    rows' = rows ++ [new_row new_id key text max (float_add now delay)] ∧
    key ≠ "" ∧ 0 < max < 2 ^ 63 ∧ is_nan (float_add now delay) = false ∧
    row_at rows new_id = None ∧ row_where (has_key key) rows = None.
Proof.
  unfold sqlite_enqueue, insert_row, mbind, M_bind, raise_if, get_state, lift_res, put_state.
  destruct (enqueue_invalid key max) eqn:Hv; [by left|].
  destruct (row_where (has_key key) rows) as [r|] eqn:Hk; [by left|].
  destruct (json_dumps _ _) as [text|] eqn:Ht; [|by left].
  unfold sqlite_integer. destruct ((_ <=? max) && (max <? _)) eqn:Hm; [|by left].
  cbn [jr_available jr_id new_row].
  destruct (real_not_null _) as [u|] eqn:Hn; [|by left].
  destruct (existsb _ rows) eqn:He; [by left|]. right. exists text.
  unfold enqueue_invalid in Hv. breflect. apply real_not_null_ok in Hn.
  rewrite store_get_job_spec. cbn [snd]. split_and!; try done; try lia.
  apply row_at_None. intros (r & -> & Hr)%list_elem_of_fmap.
  apply not_true_iff_false in He. apply He, existsb_exists. exists r. apply list_elem_of_In in Hr.
  split; [done|]. apply String.eqb_refl.
Qed.

Lemma row_where_key_None key rows : row_where (has_key key) rows = None → key ∉ map jr_key rows.
Proof.
  intros H (r & -> & Hr)%list_elem_of_fmap. apply list_elem_of_In in Hr.
  pose proof (find_none _ _ H r Hr) as E. unfold has_key in E. by rewrite String.eqb_refl in E.
Qed.

Lemma NoDup_snoc {A} (l : list A) x : NoDup l → x ∉ l → NoDup (l ++ [x]).
Proof.
  intros Hl Hx. apply NoDup_app. split_and!; [done| |apply NoDup_singleton].
  intros y Hy ->%list_elem_of_singleton. done.
Qed.

Lemma sqlite_enqueue_inv new_id now delay payload key max rows :
  jobs_inv rows → jobs_inv (sqlite_enqueue new_id now delay payload key max rows).2.
Proof.
  intros [Hi Hk Hr].
  destruct (sqlite_enqueue_effect new_id now delay payload key max rows)
    as [->|(text & _ & -> & Hkey & Hm & Hn & Hid & Hw)]; [done|].
  apply row_at_None in Hid. apply row_where_key_None in Hw.
  split; rewrite ?map_app; [by apply NoDup_snoc|by apply NoDup_snoc|].
  apply Forall_app. split; [done|]. apply Forall_singleton.
  split; cbn; try done; [lia|]. apply StatusQueued; cbn; [done|lia].
Qed.

(** ** Histories *)

Inductive job_call :=
| CallEnqueue (new_id : string) (now delay : spec_float) (payload : pydict) (key : string) (max : Z)
| CallClaim (now : spec_float)
| CallComplete (id : string)
| CallFail (now : spec_float) (id error : string) (delay : spec_float).

(** The table and the identifiers of the jobs that [claim] handed out. *)
Record job_history := { jh_rows : list JobRow; jh_claimed : list string }.

Definition job_run (h : job_history) (c : job_call) : job_history :=
  match c with
  | CallEnqueue new_id now delay payload key max =>
      {| jh_rows := (sqlite_enqueue new_id now delay payload key max (jh_rows h)).2;
         jh_claimed := jh_claimed h |}
  | CallClaim now =>
      {| jh_rows := (sqlite_claim now (jh_rows h)).2;
         jh_claimed := match (sqlite_claim now (jh_rows h)).1 with
                       | Ok (Some j) => jh_claimed h ++ [job_id j]
                       | _ => jh_claimed h
                       end |}
  | CallComplete id =>
      {| jh_rows := (sqlite_complete id (jh_rows h)).2; jh_claimed := jh_claimed h |}
  | CallFail now id error delay =>
      {| jh_rows := (sqlite_fail now id error delay (jh_rows h)).2; jh_claimed := jh_claimed h |}
  end.

Definition jobs_new : job_history := {| jh_rows := []; jh_claimed := [] |}.

Definition attempts_at (rows : list JobRow) (id : string) : Z :=
  match row_at rows id with Some r => jr_attempts r | None => 0 end.

Definition claims_of (id : string) (h : job_history) : Z :=
  Z.of_nat (length (List.filter (String.eqb id) (jh_claimed h))).

Lemma job_run_inv h c : jobs_inv (jh_rows h) → jobs_inv (jh_rows (job_run h c)).
Proof.
  destruct c; cbn [job_run jh_rows].
  - apply sqlite_enqueue_inv.
  - apply sqlite_claim_inv.
  - apply sqlite_complete_inv.
  - apply sqlite_fail_inv.
Qed.

(** Attempts only grow, and by one at a claim. *)
Lemma attempts_at_update p f rows id n :
  (∀ r, jr_id (f r) = jr_id r) → (∀ r, p r = true → jr_attempts (f r) = jr_attempts r) →
  attempts_at rows id = n → attempts_at (update_where p f rows) id = n.
Proof.
  intros Hid Ha <-. unfold attempts_at. rewrite row_at_update by done.
  destruct (row_at rows id) as [r|]; [|done]. simpl. destruct (p r) eqn:E; auto.
Qed.

Lemma attempts_at_claim id rows k :
  attempts_at (claim_update id rows) k =
  attempts_at rows k + match row_at rows k with
                       | Some r => if has_id id r && is_queued r then 1 else 0 | None => 0 end.
Proof.
  unfold attempts_at. rewrite row_at_claim. destruct (row_at rows k) as [r|]; [|done].
  simpl. unfold row_claimed. destruct (has_id id r && is_queued r); simpl; lia.
Qed.

Lemma claims_of_snoc id k rows claimed :
  claims_of id {| jh_rows := rows; jh_claimed := claimed ++ [k] |} =
  claims_of id {| jh_rows := rows; jh_claimed := claimed |} + (if String.eqb id k then 1 else 0).
Proof.
  unfold claims_of. cbn [jh_claimed]. rewrite List.filter_app, length_app. simpl.
  destruct (String.eqb id k); simpl; lia.
Qed.

Lemma job_run_claims h c id :
  jobs_inv (jh_rows h) → claims_of id h <= attempts_at (jh_rows h) id →
  claims_of id (job_run h c) <= attempts_at (jh_rows (job_run h c)) id.
Proof.
  intros Hi Hc. destruct c as [new_id now delay payload key max|now|k|now k error delay].
  - unfold claims_of in *. cbn [job_run jh_rows jh_claimed].
    destruct (sqlite_enqueue_effect new_id now delay payload key max (jh_rows h))
      as [->|(text & _ & -> & _)]; [done|].
    unfold attempts_at in *. rewrite row_at_app. destruct (row_at (jh_rows h) id); [done|].
    by destruct (String.eqb _ _).
  - cbn [job_run jh_rows].
    destruct (sqlite_claim_cases now (jh_rows h)) as [[_ ->]|(r & Hs & ->)]; [done|].
    apply claim_select_first in Hs as (Hr & Hd & _). cbn [fst snd].
    pose proof (row_at_elem _ _ (ji_ids _ Hi) Hr) as Hat.
    rewrite attempts_at_claim.
    destruct (row_at (claim_update _ _) _) as [q|] eqn:Hq.
    + unfold mbind, res_bind. destruct (job_of_row q) as [j|e] eqn:Hj.
      * apply job_of_row_fields in Hj as (-> & _). apply row_at_Some in Hq as [_ ->].
        rewrite claims_of_snoc. destruct (String.eqb_spec id (jr_id r)) as [->|Hne].
        -- rewrite Hat. unfold has_id. rewrite String.eqb_refl, (due_queued _ _ Hd). simpl.
           unfold claims_of in *. cbn [jh_claimed]. lia.
        -- unfold claims_of in *. cbn [jh_claimed]. destruct (row_at _ id); [case_match|]; lia.
      * unfold claims_of in *. cbn [jh_claimed]. destruct (row_at _ id); [case_match|]; lia.
    + unfold claims_of in *. cbn [jh_claimed mbind res_bind]. destruct (row_at _ id); [case_match|]; lia.
  - unfold claims_of in *. cbn [job_run jh_rows jh_claimed sqlite_complete modify snd].
    by erewrite attempts_at_update.
  - unfold claims_of in *. cbn [job_run jh_rows jh_claimed].
    rewrite (sqlite_fail_spec _ _ _ _ _ (ji_ids _ Hi)).
    destruct (row_at (jh_rows h) k) as [r|]; [|done]. destruct (job_of_row r); [|done].
    destruct (real_not_null _); [|done]. cbn [snd]. by erewrite attempts_at_update.
Qed.

Lemma job_runs_inv calls h :
  jobs_inv (jh_rows h) → (∀ id, claims_of id h <= attempts_at (jh_rows h) id) →
  jobs_inv (jh_rows (fold_left job_run calls h)) ∧
  ∀ id, claims_of id (fold_left job_run calls h) <= attempts_at (jh_rows (fold_left job_run calls h)) id.
Proof.
  revert h. induction calls as [|c calls IH]; intros h Hi Hc; [done|]. cbn [fold_left].
  apply IH; [by apply job_run_inv|]. intros id. by apply job_run_claims.
Qed.

(** * The contract of a job store *)

(** [js_row] is the row a store keeps under an identifier. *)
Class JobStoreView (S : Type) := { js_row : S → string → option JobRow; js_inv : S → Prop }.

Class JobStoreLaws (S : Type) `{JobStore S, JobStoreView S} : Prop := {
  js_get_spec : ∀ id s, js_get id s =
    (match js_row s id with Some r => job_of_row r | None => Raise (KeyError "unknown job") end, s);
  js_claim_spec : ∀ now s j s', js_inv s → js_claim now s = (Ok (Some j), s') →
    js_inv s' ∧ ∃ r, js_row s (job_id j) = Some r ∧ job_of_row (set_running r) = Ok j ∧
    ∀ k, js_row s' k = if String.eqb k (job_id j) then Some (set_running r) else js_row s k;
  js_complete_spec : ∀ id s r, js_inv s → js_row s id = Some r → is_running r = true →
    ∃ s', js_complete id s = (Ok tt, s') ∧ js_inv s' ∧
    ∀ k, js_row s' k = if String.eqb k id then Some (set_succeeded r) else js_row s k;
  js_fail_spec : ∀ now id error delay s r j, js_inv s → js_row s id = Some r →
    job_of_row r = Ok j → is_nan (float_add now delay) = false →
    ∃ s', js_fail now id error delay s = (Ok tt, s') ∧ js_inv s' ∧
    ∀ k, js_row s' k =
      if String.eqb k id then Some (set_failed error (float_add now delay) r) else js_row s k
}.

#[export] Instance sqlite_job_view : JobStoreView (list JobRow) :=
  {| js_row := row_at; js_inv := jobs_inv |}.

(** An update of the row named [id]. *)
Lemma row_at_update_id p f rows id r k :
  (∀ q, jr_id (f q) = jr_id q) → row_at rows id = Some r → p r = true →
  (∀ q, p q = true → jr_id q = id) →
  row_at (update_where p f rows) k = if String.eqb k id then Some (f r) else row_at rows k.
Proof.
  intros Hf Hr Hp Hid. rewrite row_at_update by done. destruct (String.eqb_spec k id) as [->|Hne].
  - rewrite Hr. simpl. by rewrite Hp.
  - destruct (row_at rows k) as [q|] eqn:Hq; [|done]. simpl.
    destruct (p q) eqn:E; [|done]. apply row_at_Some in Hq as [_ Hq]. apply Hid in E. congruence.
Qed.

Lemma has_id_eq id r : has_id id r = true ↔ jr_id r = id.
Proof. apply String.eqb_eq. Qed.

#[export] Instance sqlite_job_store_laws : JobStoreLaws (list JobRow).
Proof.
  split; cbn [js_get js_claim js_complete js_fail js_row js_inv sqlite_job_store sqlite_job_view].
  - apply store_get_job_spec.
  - intros now rows j rows' Hi H. pose proof (sqlite_claim_inv now rows Hi) as Hi'.
    rewrite H in Hi'. split; [done|].
    destruct (sqlite_claim_cases now rows) as [[_ E]|(r & Hs & E)]; rewrite E in H; [done|].
    injection H as H <-. apply claim_select_first in Hs as (Hr & Hd & _).
    pose proof (row_at_elem _ _ (ji_ids _ Hi) Hr) as Hat.
    assert (∀ k, row_at (claim_update (jr_id r) rows) k =
                 if String.eqb k (jr_id r) then Some (set_running r) else row_at rows k) as Hk.
    { intros k. apply row_at_update_id; try done.
      - by rewrite (proj2 (has_id_eq _ _) eq_refl), (due_queued _ _ Hd).
      - by intros q [?%has_id_eq _]%andb_true_iff. }
    rewrite Hk, String.eqb_refl in H. apply res_bind_ok in H as (j' & Hj & [= <-]).
    pose proof (job_of_row_fields _ _ Hj) as (Hid & _). cbn in Hid. rewrite Hid. eauto.
  - intros id rows r Hi Hr Hq. eexists. split; [done|]. split; [by apply sqlite_complete_inv|].
    pose proof (row_at_Some _ _ _ Hr) as [_ Hid].
    intros k. apply row_at_update_id; try done.
    + by rewrite (proj2 (has_id_eq _ _) Hid), Hq.
    + by intros q [?%has_id_eq _]%andb_true_iff.
  - intros now id error delay rows r j Hi Hr Hj Hn. pose proof (sqlite_fail_inv now id error delay rows Hi).
    rewrite (sqlite_fail_spec _ _ _ _ _ (ji_ids _ Hi)), Hr, Hj in *.
    destruct (real_not_null _) as [u|e] eqn:E; [|by apply (real_not_null_ok _ tt) in Hn; rewrite E in Hn].
    eexists. split; [done|]. split; [done|].
    pose proof (row_at_Some _ _ _ Hr) as [_ Hid]. intros k. apply row_at_update_id; try done.
    + by apply has_id_eq.
    + by intros q ?%has_id_eq.
Qed.

(** ** [run_once] against the contract *)

Section RunOnceSpec.
Context {S W : Type} `{JobStoreLaws S}.

(** The store [s'] is [s] with the row [r] under [id]. *)
Definition with_row (s s' : S) (id : string) (r : JobRow) : Prop :=
  ∀ k, js_row s' k = if String.eqb k id then Some r else js_row s k.

Lemma with_row_trans s s1 s2 id r r' : with_row s s1 id r → with_row s1 s2 id r' → with_row s s2 id r'.
Proof. intros Ha Hb k. rewrite Hb, Ha. by destruct (String.eqb k id). Qed.

Lemma with_row_at s s' id r : with_row s s' id r → js_row s' id = Some r.
Proof. intros Hw. by rewrite Hw, String.eqb_refl. Qed.

(** The payload of a row decides whether it reads as a job. *)
Lemma job_of_row_total r q j :
  jr_payload q = jr_payload r → job_of_row r = Ok j → ∃ j', job_of_row q = Ok j'.
Proof.
  unfold job_of_row. intros -> Hj. apply res_bind_ok in Hj as (v & -> & _). eexists. reflexivity.
Qed.

Lemma in_store_ok {A} (m : M S A) s s' w x : m s = (Ok x, s') → in_store (W := W) m (s, w) = (Ok x, (s', w)).
Proof. unfold in_store, zoom. cbn. by intros ->. Qed.
End RunOnceSpec.

(** ** Submissions *)

(** What never changes about a stored job. *)
Definition same_job (r q : JobRow) : Prop :=
  jr_id q = jr_id r ∧ jr_key q = jr_key r ∧ jr_payload q = jr_payload r ∧ jr_max q = jr_max r.

Lemma same_job_refl r : same_job r r.
Proof. done. Qed.

Lemma update_keeps key p f rows r :
  (∀ q, same_job q (f q)) → row_where (has_key key) rows = Some r →
  ∃ q, row_where (has_key key) (update_where p f rows) = Some q ∧ same_job r q.
Proof.
  intros Hf Hr. rewrite row_where_update.
  - rewrite Hr. simpl. eexists. split; [done|]. destruct (p r); [apply Hf|done].
  - intros q. unfold has_key. by destruct (Hf q) as (_ & -> & _).
Qed.

(** A stored job stays stored, whatever happens to it. *)
Lemma job_run_keeps key h c r :
  jobs_inv (jh_rows h) → row_where (has_key key) (jh_rows h) = Some r →
  ∃ q, row_where (has_key key) (jh_rows (job_run h c)) = Some q ∧ same_job r q.
Proof.
  intros Hi Hr. destruct c as [new_id now delay payload k max|now|id|now id error delay];
    cbn [job_run jh_rows].
  - destruct (sqlite_enqueue_effect new_id now delay payload k max (jh_rows h))
      as [->|(text & _ & -> & _)]; [by exists r|].
    exists r. split; [|done]. clear Hi. unfold row_where in *. revert Hr.
    induction (jh_rows h) as [|q rows IH]; simpl; [done|]. destruct (has_key key q); [done|auto].
  - destruct (sqlite_claim_cases now (jh_rows h)) as [[_ ->]|(q & _ & ->)]; [by exists r|].
    by apply update_keeps.
  - by apply update_keeps.
  - rewrite (sqlite_fail_spec _ _ _ _ _ (ji_ids _ Hi)).
    destruct (row_at _ id) as [q|]; [|by exists r]. destruct (job_of_row q); [|by exists r].
    destruct (real_not_null _); [|by exists r]. by apply update_keeps.
Qed.

Lemma job_runs_keep key calls h r :
  jobs_inv (jh_rows h) → row_where (has_key key) (jh_rows h) = Some r →
  ∃ q, row_where (has_key key) (jh_rows (fold_left job_run calls h)) = Some q ∧ same_job r q.
Proof.
  revert h r. induction calls as [|c calls IH]; intros h r Hi Hr; [by exists r|]. cbn [fold_left].
  destruct (job_run_keeps key h c r Hi Hr) as (q & Hq & H1).
  destruct (IH _ q (job_run_inv _ _ Hi) Hq) as (q' & Hq' & H2). exists q'. split; [done|].
  unfold same_job in *. intuition congruence.
Qed.

(** A successful submission answers with the row stored under its key. *)
Lemma sqlite_enqueue_ok new_id now delay payload key max rows j rows' :
  sqlite_enqueue new_id now delay payload key max rows = (Ok j, rows') →
  enqueue_invalid key max = false ∧
  ∃ r, row_where (has_key key) rows' = Some r ∧ job_of_row r = Ok j.
Proof.
  unfold sqlite_enqueue. intros H. apply M_bind_ok in H as ([] & st & [Hv ->]%raise_if_ok & H).
  split; [done|]. apply M_bind_ok in H as (rows0 & st & [= <- <-] & H).
  destruct (row_where (has_key key) rows) as [r|] eqn:Hk.
  - apply lift_res_ok in H as [Hj ->]. eauto.
  - apply M_bind_ok in H as (text & st & [_ ->]%lift_res_ok & H).
    apply M_bind_ok in H as (m & st & [_ ->]%lift_res_ok & H).
    apply M_bind_ok in H as ([] & st & Hins & H). rewrite store_get_job_spec in H.
    unfold insert_row in Hins. apply M_bind_ok in Hins as (rows0 & st1 & [= <- <-] & Hins).
    apply M_bind_ok in Hins as (u & st1 & [_ ->]%lift_res_ok & Hins).
    apply M_bind_ok in Hins as ([] & st1 & [He ->]%raise_if_ok & [= <-]).
    injection H as H <-. rewrite row_at_app in H. cbn [jr_id new_row] in *.
    assert (row_at rows new_id = None) as Hn.
    { apply row_at_None. intros (q & Hq & Hin)%list_elem_of_fmap. apply not_true_iff_false in He.
      apply He, existsb_exists. exists q. apply list_elem_of_In in Hin. split; [done|]. by apply has_id_eq. }
    rewrite Hn, String.eqb_refl in H. eexists. split; [|exact H].
    unfold row_where in *. clear -Hk. induction rows as [|q rows IH]; simpl in *.
    + unfold has_key. cbn [jr_key new_row]. by rewrite String.eqb_refl.
    + destruct (has_key key q); [done|auto].
Qed.

(** * Properties *)

(** C29. Retries are bounded.  Whatever calls are made on a new SQLite store, in
    any order and with any outcome, identifiers and idempotency keys stay
    unique, a job has between 0 and [max_attempts] attempts, which fit the
    64-bit column, it was handed to a worker at most that many times, its
    status is one of the four, it is queued only with attempts left and dead
    only with none. *)
Theorem jobs_attempts_bounded (calls : list job_call) :
  let h := fold_left job_run calls jobs_new in
  NoDup (map jr_id (jh_rows h)) ∧ NoDup (map jr_key (jh_rows h)) ∧
  ∀ r, r ∈ jh_rows h →
    claims_of (jr_id r) h <= jr_attempts r ∧ 0 <= jr_attempts r <= jr_max r ∧ jr_max r < 2 ^ 63 ∧
    jr_status r ∈ ["queued"; "running"; "succeeded"; "dead_letter"] ∧
    (jr_status r = "queued" → jr_attempts r < jr_max r) ∧
    (jr_status r = "dead_letter" → jr_attempts r = jr_max r).
Proof.
  intros h. destruct (job_runs_inv calls jobs_new jobs_inv_nil) as [[Hi Hk Hr] Hc]; [done|].
  fold h in Hi, Hk, Hr, Hc. split_and!; [done|done|]. intros r Hin.
  pose proof (proj1 (Forall_forall _ _) Hr r Hin) as [_ Ha Hm _ Hs].
  specialize (Hc (jr_id r)). unfold attempts_at in Hc. rewrite (row_at_elem _ _ Hi Hin) in Hc.
  split_and!; try lia; destruct Hs as [E|E|E|E]; rewrite E; try done; set_solver.
Qed.

(** [run_once] on any store that keeps the contract.  It runs the handler
    of the claimed job once, on its payload.  A handler that returns leaves the
    job succeeded.  One that raises a caught exception leaves the job queued
    again, or dead when its attempts are used up, with the exception's class
    name as its error, and the compensation runs exactly when the job died.
    Any other exception goes to the caller and leaves the job running.  No
    other job changes. *)
Lemma run_once_outcome {S W} `{JobStoreLaws S} (s s1 : S) (w : W) now_claim now_fail delay
    (j : Job) (handler : pyval → M W unit) (compensation : Job → exn → M W unit) :
  js_inv s → js_claim now_claim s = (Ok (Some j), s1) → is_nan (float_add now_fail delay) = false →
  let run := run_once now_claim now_fail handler (Some compensation) delay (s, w) in
  let w1 := (handler (job_payload j) w).2 in
  ∃ r, js_row s (job_id j) = Some r ∧
    match (handler (job_payload j) w).1 with
    | Ok _ =>
        ∃ s' j', run = (Ok (Some j'), (s', w1)) ∧ job_status j' = "succeeded" ∧
          job_attempts j' = jr_attempts r + 1 ∧ with_row s s' (job_id j) (set_succeeded (set_running r))
    | Raise e =>
        if job_caught e then
          let r' := set_failed (exn_name e) (float_add now_fail delay) (set_running r) in
          ∃ s' j', with_row s s' (job_id j) r' ∧ job_of_row r' = Ok j' ∧
            run = if jr_attempts r + 1 <? jr_max r then (Ok (Some j'), (s', w1))
                  else match compensation j e w1 with
                       | (Ok _, w2) => (Ok (Some j'), (s', w2))
                       | (Raise e', w2) => (Raise e', (s', w2))
                       end
        else run = (Raise e, (s1, w1)) ∧ with_row s s1 (job_id j) (set_running r)
    end.
Proof.
  intros Hi Hc Hn run w1. destruct (js_claim_spec _ _ _ _ Hi Hc) as (Hi1 & r & Hr & Hj & Hk).
  exists r. split; [done|]. fold (with_row s s1 (job_id j) (set_running r)) in Hk.
  pose proof (with_row_at _ _ _ _ Hk) as Hr1. subst run w1.
  unfold run_once, mbind, M_bind, attempt, in_world.
  rewrite (in_store_ok _ _ _ w _ Hc). unfold zoom. cbn [fst snd].
  destruct (handler (job_payload j) w) as [[[]|e] w1]; cbn [fst snd].
  - destruct (js_complete_spec (job_id j) s1 _ Hi1 Hr1 eq_refl) as (s2 & Hcomp & _ & Hk2).
    fold (with_row s1 s2 (job_id j) (set_succeeded (set_running r))) in Hk2.
    rewrite (in_store_ok _ _ _ w1 _ Hcomp). unfold in_store, zoom. cbn [fst snd].
    rewrite js_get_spec, (with_row_at _ _ _ _ Hk2).
    destruct (job_of_row_total (set_running r) (set_succeeded (set_running r)) j eq_refl Hj) as [j' Hj'].
    rewrite Hj'. exists s2, j'. apply job_of_row_fields in Hj' as (_ & _ & Hs & Ha & _).
    split_and!; [done|done|done|]. by eapply with_row_trans.
  - unfold raise_if. destruct (job_caught e); [|done]. cbn [negb].
    destruct (js_fail_spec now_fail (job_id j) (exn_name e) delay s1 _ j Hi1 Hr1 Hj Hn)
      as (s2 & Hf & _ & Hk2).
    fold (with_row s1 s2 (job_id j) (set_failed (exn_name e) (float_add now_fail delay) (set_running r))) in Hk2.
    rewrite (in_store_ok _ _ _ w1 _ Hf). unfold in_store, zoom. cbn [fst snd].
    rewrite js_get_spec, (with_row_at _ _ _ _ Hk2).
    destruct (job_of_row_total (set_running r)
      (set_failed (exn_name e) (float_add now_fail delay) (set_running r)) j eq_refl Hj) as [j' Hj'].
    exists s2, j'. split; [by eapply with_row_trans|]. split; [done|]. rewrite Hj'.
    pose proof (job_of_row_fields _ _ Hj') as (_ & _ & -> & _). cbn [jr_status set_failed].
    unfold failed_status. cbn [jr_attempts jr_max set_running].
    destruct (jr_attempts r + 1 <? jr_max r); cbn [String.eqb Ascii.eqb Bool.eqb].
    + cbv beta iota zeta. unfold mret, M_ret. cbn [fst snd]. rewrite js_get_spec, (with_row_at _ _ _ _ Hk2), Hj'. done.
    + cbv beta iota zeta. cbn [fst snd]. destruct (compensation j e w1) as [[[]|e2] w2]; cbn [fst snd]; [|done].
      rewrite js_get_spec, (with_row_at _ _ _ _ Hk2), Hj'. done.
Qed.

(** A job that fails twice: the second attempt is its last. *)
Definition time_at (z : Z) : spec_float := float_of_decimal false z 0.
Definition failing_calls : list job_call :=
  [CallEnqueue "id-1" (time_at 100) (time_at 0) [("artifact", PStr "{}")] "key-1" 2;
   CallEnqueue "id-2" (time_at 101) (time_at 0) [] "key-1" 9;
   CallClaim (time_at 102); CallFail (time_at 103) "id-1" "ValueError" (time_at 1);
   CallClaim (time_at 104)].

(** Submission is idempotent.  Once a submission under a key succeeded,
    after any further calls another submission under that key, with whatever
    payload, limit, identifier or time, changes nothing and answers with the
    same job: its identifier, payload and limit. *)
Lemma enqueue_once (before after : list job_call) new_id now delay payload key max (j : Job) rows
    new_id' now' delay' payload' max' :
  sqlite_enqueue new_id now delay payload key max (jh_rows (fold_left job_run before jobs_new)) =
    (Ok j, rows) →
  0 < max' →
  let rows' := jh_rows (fold_left job_run after {| jh_rows := rows; jh_claimed := [] |}) in
  ∃ j', sqlite_enqueue new_id' now' delay' payload' key max' rows' = (Ok j', rows') ∧
    job_id j' = job_id j ∧ job_key j' = key ∧ job_payload j' = job_payload j ∧ job_max j' = job_max j.
Proof.
  intros H Hm rows'.
  destruct (job_runs_inv before jobs_new jobs_inv_nil) as [Hi _]; [done|].
  apply (sqlite_enqueue_inv new_id now delay payload key max) in Hi. rewrite H in Hi. cbn [snd] in Hi.
  apply sqlite_enqueue_ok in H as (Hv & r & Hr & Hj).
  destruct (job_runs_keep key after {| jh_rows := rows; jh_claimed := [] |} r Hi Hr)
    as (q & Hq & Hid & Hkey & Hpay & Hmax).
  fold rows' in Hq. destruct (job_of_row_total _ _ _ Hpay Hj) as [j' Hj']. exists j'.
  assert (enqueue_invalid key max' = false) as Hv'.
  { unfold enqueue_invalid in *. apply orb_false_iff in Hv as [-> _]. by apply Z.leb_gt. }
  unfold sqlite_enqueue, mbind, M_bind, raise_if, get_state. rewrite Hv', Hq. unfold lift_res.
  rewrite Hj'. split; [done|]. pose proof (job_of_row_fields _ _ Hj') as (-> & -> & _ & _ & ->).
  pose proof (job_of_row_fields _ _ Hj) as (-> & _ & _ & _ & ->).
  apply row_where_Some in Hr as [_ Hk]. apply String.eqb_eq in Hk.
  split_and!; try congruence. unfold job_of_row in Hj, Hj'. rewrite Hpay in Hj'.
  apply res_bind_ok in Hj as (v & Hv1 & [= <-]). apply res_bind_ok in Hj' as (v' & Hv2 & [= <-]).
  cbn. congruence.
Qed.

Definition first_job : Job :=
  {| job_id := "id-1"; job_key := "key-1"; job_payload := PDict [("artifact", PStr "{}")];
     job_status := "queued"; job_attempts := 0; job_max := 2; job_available := time_at 100;
     job_error := None |}.

Lemma enqueue_once_witness :
  let first := sqlite_enqueue "id-1" (time_at 100) (time_at 0) [("artifact", PStr "{}")] "key-1" 2 [] in
  let rows' := jh_rows (fold_left job_run failing_calls {| jh_rows := first.2; jh_claimed := [] |}) in
  ∃ j', sqlite_enqueue "id-9" (time_at 200) (time_at 0) [] "key-1" 7 rows' = (Ok j', rows') ∧
    job_id j' = "id-1" ∧ job_key j' = "key-1" ∧
    job_payload j' = PDict [("artifact", PStr "{}")] ∧ job_max j' = 2.
Proof.
  refine (enqueue_once [] failing_calls "id-1" (time_at 100) (time_at 0) [("artifact", PStr "{}")]
    "key-1" 2 first_job _ "id-9" (time_at 200) (time_at 0) [] 7 _ _).
  - vm_compute. reflexivity.
  - lia.
Defined.

(** A handler and a compensation over a log of what they saw. *)
Definition example_handler (v : pyval) : M (list string) unit :=
  modify (λ w, w ++ ["handler"]) ;; raise (ValueError "bad job").
Definition example_compensation (j : Job) (e : exn) : M (list string) unit :=
  modify (λ w, w ++ ["compensation " +:+ job_id j +:+ " " +:+ exn_name e]).

Definition rows_queued_last : list JobRow :=
  [{| jr_id := "id-1"; jr_key := "key-1"; jr_payload := "{}"; jr_status := "queued"; jr_attempts := 1;
      jr_max := 2; jr_available := time_at 100; jr_error := Some "ValueError" |}].

Lemma rows_queued_last_inv : jobs_inv rows_queued_last.
Proof.
  split; try (apply NoDup_singleton). apply Forall_singleton. split; cbn; try done; try lia.
  apply StatusQueued; cbn; [done|lia].
Qed.

Definition job_last : Job :=
  {| job_id := "id-1"; job_key := "key-1"; job_payload := PDict []; job_status := "running";
     job_attempts := 2; job_max := 2; job_available := time_at 100; job_error := Some "ValueError" |}.

(** The last attempt of a job fails: it is dead and compensated. *)
Lemma run_once_outcome_witness :
  let rows := [{| jr_id := "id-1"; jr_key := "key-1"; jr_payload := "{}"; jr_status := "dead_letter";
                  jr_attempts := 2; jr_max := 2; jr_available := time_at 104;
                  jr_error := Some "ValueError" |}] in
  ∃ j', run_once (time_at 102) (time_at 103) example_handler (Some example_compensation) (time_at 1)
          (rows_queued_last, []) = (Ok (Some j'), (rows, ["handler"; "compensation id-1 ValueError"])) ∧
        job_of_row (set_failed "ValueError" (time_at 104)
          (set_running (hd (new_row "" "" "" 0 S754_nan) rows_queued_last))) = Ok j'.
Proof.
  assert (js_claim (time_at 102) rows_queued_last =
    (Ok (Some job_last), (sqlite_claim (time_at 102) rows_queued_last).2)) as Hc by (by vm_compute).
  assert (is_nan (float_add (time_at 103) (time_at 1)) = false) as Hn by (by vm_compute).
  pose proof (run_once_outcome rows_queued_last _ [] (time_at 102) (time_at 103) (time_at 1) job_last
    example_handler example_compensation rows_queued_last_inv Hc Hn) as (r & Hr & Hrun).
  vm_compute in Hr. injection Hr as <-. destruct Hrun as (s' & j' & _ & Hj & Hrun). exists j'.
  split; [|exact Hj]. cbn [hd rows_queued_last] in *. clear -Hrun Hj. vm_compute in Hj. injection Hj as <-.
  vm_compute. reflexivity.
Defined.

(** ** Two remarks on the SQLite store

    Its [claim] reads and then updates.  A second process that reads before
    the first one's update gets the same job: the guard of the update keeps the
    attempt count, but the job is returned all the same. *)
Lemma claim_race now rows r j rows1 :
  jobs_inv rows → claim_select now rows = Some r →
  claim_found (jr_id r) rows = (Ok (Some j), rows1) →
  claim_found (jr_id r) rows1 = (Ok (Some j), rows1).
Proof.
  intros Hi (Hr & Hd & _)%claim_select_first H.
  pose proof (row_at_elem _ _ (ji_ids _ Hi) Hr) as Hat.
  unfold claim_found, mbind, M_bind, modify, mret, M_ret in *. rewrite store_get_job_spec in *.
  assert (claim_update (jr_id r) (claim_update (jr_id r) rows) = claim_update (jr_id r) rows) as E.
  { unfold claim_update, update_where. rewrite List.map_map. apply map_ext. intros q.
    destruct (has_id (jr_id r) q && is_queued q) eqn:Eq; [|by rewrite Eq].
    cbn. by rewrite andb_false_r. }
  rewrite row_at_claim, Hat in H. cbn [option_map] in H.
  destruct (job_of_row (row_claimed (jr_id r) r)) as [j'|] eqn:Hj; [|done]. injection H as <- <-.
  rewrite E, row_at_claim, Hat. cbn [option_map]. by rewrite Hj.
Qed.

(** [fail] does not ask whether the job is running: it queues a succeeded job
    again when attempts are left. *)
Lemma fail_requeues_succeeded now id error delay rows r j :
  jobs_inv rows → row_at rows id = Some r → jr_status r = "succeeded" → job_of_row r = Ok j →
  jr_attempts r < jr_max r → is_nan (float_add now delay) = false →
  ∃ rows', sqlite_fail now id error delay rows = (Ok tt, rows') ∧
    row_at rows' id = Some (set_failed error (float_add now delay) r) ∧
    jr_status (set_failed error (float_add now delay) r) = "queued".
Proof.
  intros Hi Hr _ Hj Ha Hn. pose proof (js_fail_spec (S := list JobRow)) as H.
  destruct (H now id error delay rows r j Hi Hr Hj Hn) as (rows' & Hf & _ & Hk).
  exists rows'. split; [done|]. split.
  - specialize (Hk id). rewrite String.eqb_refl in Hk. exact Hk.
  - cbn. unfold failed_status. by rewrite (proj2 (Z.ltb_lt _ _) Ha).
Qed.
