(* ===== verification/JobsPostgres.v ===== *)
(** jobs_postgres.py: the job store shared by many workers.

    Each method is one or two transactions; a transaction is a step on the
    table, so that interleavings of workers are sequences of steps.  What the
    server decides is an argument: whether the transaction is applied, aborted,
    or applied without its acknowledgement reaching the client, and which rows
    other transactions hold locked.  The [jsonb] column keeps a normalized text
    of the payload, a parameter of the model.  Identifiers, which are hexadecimal
    digits, are ordered by their bytes. *)

From S2P Require Import Prelude PyFloat PyVal Json Models Policy Orders Jobs.

(** [%s::jsonb] and back by [payload::text]; [None] for a text the server rejects. *)
Class Jsonb := { jsonb_text : string → option string }.

Record PgRow := { pg_row : JobRow; pg_lease : option spec_float }.

Abbreviation pg_table := (list PgRow).

(** ** Transactions *)

Inductive pg_outcome := PgApplied | PgAborted | PgUnacknowledged.

Definition pg_error : exn := JobStoreError "PostgreSQL job store operation failed".

(** [_run] *)
Definition pg_run {A} (o : pg_outcome) (stmt : M pg_table A) : M pg_table A :=
  λ t, match o, stmt t with
       | PgApplied, (Ok x, t') => (Ok x, t')
       | PgUnacknowledged, (Ok _, t') => (Raise pg_error, t')
       | _, _ => (Raise pg_error, t)
       end.

(** Errors of the server; [_run] turns them all into [JobStoreError]. *)
Definition pg_reject {A} : M pg_table A := raise (OtherError "psycopg.Error" "").

(** The range of [INTEGER]. *)
Definition int4 (z : Z) : bool := (- 2 ^ 31 <=? z) && (z <? 2 ^ 31).

(** [<=] of [DOUBLE PRECISION]: NaN is the greatest value. *)
Definition pg_leb (x y : spec_float) : bool :=
  if is_nan y then true else if is_nan x then false else float_leb x y.
Definition pg_rank (x : spec_float) : Z * (Z * Z) := if is_nan x then (3, (0, 0)) else float_rank x.

(** ** The store *)

Section Pg.
Context `{J : Jsonb}.

Definition pg_job (row : option PgRow) : res Job :=
  match row with
  | Some r => job_of_row (pg_row r)
  | None => Raise (TypeError "'NoneType' object is not subscriptable")
  end.

Definition pg_where (p : JobRow → bool) (t : pg_table) : option PgRow := List.find (λ r, p (pg_row r)) t.

Definition pg_select (p : JobRow → bool) : M pg_table (option PgRow) := t ← get_state; mret (pg_where p t).

(** The [INSERT ... ON CONFLICT (idempotency_key) DO NOTHING]. *)
Definition pg_insert (new_id key text : string) (max : Z) (available : spec_float) : M pg_table unit :=
  match jsonb_text text with
  | None => pg_reject
  | Some stored =>
      t ← get_state;
      if negb (int4 max) then pg_reject
      else if existsb (λ r, has_key key (pg_row r)) t then mret tt
      else if existsb (λ r, has_id new_id (pg_row r)) t then pg_reject
      else put_state (t ++ [{| pg_row := new_row new_id key stored max available; pg_lease := None |}])
  end.

Definition pg_enqueue (o1 o2 : pg_outcome) (new_id : string) (now delay : spec_float)
    (payload : pydict) (key : string) (max : Z) : M pg_table Job :=
  raise_if (enqueue_invalid key max) enqueue_error ;;
  text ← lift_res (json_dumps default_style (PDict payload));
  pg_run o1 (pg_insert new_id key text max (float_add now delay)) ;;
  row ← pg_run o2 (pg_select (has_key key));
  lift_res (pg_job row).

Definition pg_get (o : pg_outcome) (id : string) : M pg_table Job :=
  row ← pg_run o (pg_select (has_id id));
  match row with
  | None => raise (KeyError "unknown job")
  | Some r => lift_res (job_of_row (pg_row r))
  end.

Definition pg_claimable (moment : spec_float) (r : PgRow) : bool :=
  (is_queued (pg_row r) && pg_leb (jr_available (pg_row r)) moment) ||
  (is_running (pg_row r) && match pg_lease r with Some l => pg_leb l moment | None => false end).

Definition pg_key (r : PgRow) : (Z * (Z * Z)) * string := (pg_rank (jr_available (pg_row r)), jr_id (pg_row r)).

(** The subquery of [claim]; [locked] are the rows it skips. *)
Definition pg_candidate (locked : list string) (moment : spec_float) (t : pg_table) : option PgRow :=
  head (sort_leb pg_key row_order
    (List.filter (λ r, pg_claimable moment r && negb (str_in (jr_id (pg_row r)) locked)) t)).

Definition pg_set (f : JobRow → JobRow) (lease : option spec_float) (r : PgRow) : PgRow :=
  {| pg_row := f (pg_row r); pg_lease := lease |}.
Definition pg_update (p : JobRow → bool) (f : PgRow → PgRow) (t : pg_table) : pg_table :=
  map (λ r, if p (pg_row r) then f r else r) t.

Definition pg_claim_stmt (locked : list string) (moment lease : spec_float) : M pg_table (option PgRow) :=
  t ← get_state;
  match pg_candidate locked moment t with
  | None => mret None
  | Some r =>
      if negb (int4 (jr_attempts (pg_row r) + 1)) then pg_reject else
      put_state (pg_update (has_id (jr_id (pg_row r))) (pg_set set_running (Some lease)) t) ;;
      mret (Some (pg_set set_running (Some lease) r))
  end.

Definition pg_claim (o : pg_outcome) (locked : list string) (lease_seconds moment : spec_float)
    : M pg_table (option Job) :=
  row ← pg_run o (pg_claim_stmt locked moment (float_add moment lease_seconds));
  match row with
  | None => mret None
  | Some r => job ← lift_res (job_of_row (pg_row r)); mret (Some job)
  end.

Definition pg_complete (o : pg_outcome) (id : string) : M pg_table unit :=
  pg_run o (modify (pg_update (λ r, has_id id r && is_running r) (pg_set set_succeeded None))).

Definition pg_fail (o : pg_outcome) (now : spec_float) (id error : string) (delay : spec_float)
    : M pg_table unit :=
  pg_run o (modify (pg_update (has_id id) (pg_set (set_failed error (float_add now delay)) None))).
End Pg.

(** [PostgresJobStore(connection, lease_seconds=...)] *)
Definition pg_init (lease_seconds : spec_float) : res spec_float :=
  fail_if (float_leb lease_seconds (S754_zero false)) (ValueError "lease_seconds must be positive") ;;
  Ok lease_seconds.

(** The store as [run_once] uses it, when the server answers. *)
#[export] Instance pg_job_store (lease_seconds : spec_float) : JobStore pg_table | 10 := {|
  js_claim := pg_claim PgApplied [] lease_seconds;
  js_complete := pg_complete PgApplied;
  js_fail := pg_fail PgApplied;
  js_get := pg_get PgApplied
|}.

(** * The table by identifier *)

Section PgLemmas.
Context `{J : Jsonb}.

Definition pg_at (t : pg_table) (id : string) : option PgRow := pg_where (has_id id) t.

Definition pg_id (r : PgRow) : string := jr_id (pg_row r).

Lemma pg_at_Some t id r : pg_at t id = Some r → r ∈ t ∧ pg_id r = id.
Proof. intros [H E]%find_some. split; [by apply list_elem_of_In|by apply String.eqb_eq]. Qed.

Lemma pg_at_elem t r : NoDup (map pg_id t) → r ∈ t → pg_at t (pg_id r) = Some r.
Proof.
  unfold pg_at, pg_where. induction t as [|q t IH]; [by intros _ ?%not_elem_of_nil|].
  cbn [map find]. intros [Hq Hn]%NoDup_cons [->|Hr]%elem_of_cons; unfold has_id at 1; fold (pg_id q).
  - by rewrite String.eqb_refl.
  - destruct (String.eqb_spec (pg_id q) (pg_id r)) as [E|_]; [|by apply IH].
    contradict Hq. rewrite E. by apply (list_elem_of_fmap_2 pg_id).
Qed.

Lemma pg_at_update p f t id :
  (∀ r, pg_id (f r) = pg_id r) →
  pg_at (pg_update p f t) id = option_map (λ r, if p (pg_row r) then f r else r) (pg_at t id).
Proof.
  intros Hf. unfold pg_at, pg_where, pg_update, has_id. fold pg_id.
  induction t as [|r t IH]; simpl; [done|]. change (jr_id (pg_row ?x)) with (pg_id x).
  assert (pg_id (if p (pg_row r) then f r else r) = pg_id r) as -> by (destruct (p (pg_row r)); auto).
  by destruct (String.eqb (pg_id r) id).
Qed.

Lemma pg_update_ids p f t : (∀ r, pg_id (f r) = pg_id r) → map pg_id (pg_update p f t) = map pg_id t.
Proof.
  intros H. unfold pg_update. rewrite List.map_map. apply map_ext. intros r. by destruct (p (pg_row r)).
Qed.

Lemma pg_update_row p f t id r k :
  (∀ q, pg_id (f q) = pg_id q) → pg_at t id = Some r → p (pg_row r) = true →
  (∀ q, p q = true → jr_id q = id) →
  pg_at (pg_update p f t) k = if String.eqb k id then Some (f r) else pg_at t k.
Proof.
  intros Hf Hr Hp Hid. rewrite pg_at_update by done. destruct (String.eqb_spec k id) as [->|Hne].
  - rewrite Hr. simpl. by rewrite Hp.
  - destruct (pg_at t k) as [q|] eqn:Hq; [|done]. simpl.
    destruct (p (pg_row q)) eqn:E; [|done]. apply pg_at_Some in Hq as [_ Hq]. apply Hid in E.
    unfold pg_id in Hq. congruence.
Qed.

Lemma pg_candidate_spec locked moment t r :
  pg_candidate locked moment t = Some r →
  r ∈ t ∧ pg_claimable moment r = true ∧ (pg_id r ∉ locked) ∧
  ∀ q, q ∈ t → pg_claimable moment q = true → pg_id q ∉ locked → row_order (pg_key r) (pg_key q) = true.
Proof.
  intros H. pose proof (sort_leb_head_elem _ _ _ _ H) as Hr.
  apply list_elem_of_In, filter_In in Hr as [Hr [Hc Hl]%andb_true_iff].
  apply negb_true_iff, not_true_iff_false in Hl.
  split_and!; [by apply list_elem_of_In|done| |].
  - intros E. apply Hl. by apply str_in_spec.
  - intros q Hq Hcq Hlq. apply (sort_leb_head _ _ _ _ _ H). apply list_elem_of_In, filter_In.
    apply list_elem_of_In in Hq. split; [done|]. rewrite Hcq. simpl. apply negb_true_iff, not_true_iff_false.
    by rewrite str_in_spec.
Qed.

(** The outcomes of a transaction. *)
Lemma pg_run_cases {A} o (stmt : M pg_table A) t :
  pg_run o stmt t = (Raise pg_error, t) ∨
  ∃ x t', stmt t = (Ok x, t') ∧ (pg_run o stmt t = (Ok x, t') ∨ pg_run o stmt t = (Raise pg_error, t')).
Proof.
  unfold pg_run. destruct o; destruct (stmt t) as [[x|e] t']; try (by left); right; eauto.
Qed.

(** A claim takes its candidate, or changes nothing and hands out no job. *)
Definition pg_take (lease : spec_float) (r : PgRow) (t : pg_table) : pg_table :=
  pg_update (has_id (pg_id r)) (pg_set set_running (Some lease)) t.

Lemma pg_claim_cases o locked lease_seconds moment t :
  let c := pg_claim o locked lease_seconds moment t in
  (c.2 = t ∧ ∀ j, c.1 ≠ Ok (Some j)) ∨
  ∃ r, pg_candidate locked moment t = Some r ∧ int4 (jr_attempts (pg_row r) + 1) = true ∧
    c.2 = pg_take (float_add moment lease_seconds) r t ∧
    ∀ j, c.1 = Ok (Some j) → job_of_row (set_running (pg_row r)) = Ok j.
Proof.
  unfold pg_claim, mbind, M_bind. cbv zeta.
  destruct (pg_run_cases o (pg_claim_stmt locked moment (float_add moment lease_seconds)) t)
    as [->|(x & t' & Hs & Hrun)]; [by left|].
  unfold pg_claim_stmt, mbind, M_bind, get_state in Hs.
  destruct (pg_candidate locked moment t) as [r|] eqn:Hc.
  - destruct (int4 _) eqn:Hi; [|done]. cbn in Hs. injection Hs as <- <-. right. exists r.
    split; [done|]. split; [done|]. destruct Hrun as [->| ->]; cbn [fst snd]; [|done].
    unfold lift_res. cbn [pg_row pg_set].
    destruct (job_of_row _) as [j|e] eqn:Hj; cbn [fst snd]; (split; [done|]); [|done].
    intros j' [= <-]. done.
  - injection Hs as <- <-. left. by destruct Hrun as [->| ->].
Qed.

(** ** Invariant *)

Definition lease_ok (r : PgRow) : Prop := is_running (pg_row r) = true ↔ is_Some (pg_lease r).

Record pg_inv (t : pg_table) : Prop := {
  pi_ids : NoDup (map pg_id t);
  pi_keys : NoDup (map (λ r, jr_key (pg_row r)) t);
  pi_lease : Forall lease_ok t
}.

Lemma pg_update_inv p f t :
  (∀ r, pg_id (f r) = pg_id r) → (∀ r, jr_key (pg_row (f r)) = jr_key (pg_row r)) →
  (∀ r, lease_ok (f r)) → pg_inv t → pg_inv (pg_update p f t).
Proof.
  intros Hid Hkey Hl [Hi Hk Ho]. split.
  - by rewrite pg_update_ids.
  - unfold pg_update. rewrite List.map_map. erewrite map_ext; [exact Hk|].
    intros r. cbn. by destruct (p (pg_row r)).
  - apply Forall_forall. intros r (q & -> & Hq)%list_elem_of_fmap.
    destruct (p (pg_row q)); [apply Hl|]. by apply (proj1 (Forall_forall _ _) Ho).
Qed.

Lemma pg_take_inv lease r t : pg_inv t → pg_inv (pg_take lease r t).
Proof. apply pg_update_inv; try done. Qed.

Lemma pg_claim_inv o locked lease_seconds moment t :
  pg_inv t → pg_inv (pg_claim o locked lease_seconds moment t).2.
Proof.
  intros H. destruct (pg_claim_cases o locked lease_seconds moment t) as [[-> _]|(r & _ & _ & -> & _)];
    [done|by apply pg_take_inv].
Qed.

Lemma pg_run_modify_inv o f t : pg_inv t → pg_inv (f t) → pg_inv (pg_run o (modify f) t).2.
Proof. intros H Hf. by destruct o. Qed.

Lemma pg_complete_inv o id t : pg_inv t → pg_inv (pg_complete o id t).2.
Proof.
  intros H. apply pg_run_modify_inv; [done|]. apply pg_update_inv; try done.
  intros q. split; [intros [=]|intros [? [=]]].
Qed.

Lemma pg_fail_inv o now id error delay t : pg_inv t → pg_inv (pg_fail o now id error delay t).2.
Proof.
  intros H. apply pg_run_modify_inv; [done|]. apply pg_update_inv; try done.
  intros q. unfold lease_ok, is_running. cbn. unfold failed_status.
  destruct (_ <? _); (split; [intros [=]|intros [? [=]]]).
Qed.

Lemma pg_select_table o p t : (pg_run o (pg_select p) t).2 = t.
Proof. by destruct o. Qed.

(** Only the first transaction of a submission writes. *)
Lemma pg_enqueue_table o1 o2 new_id now delay payload key max t :
  (pg_enqueue o1 o2 new_id now delay payload key max t).2 = t ∨
  ∃ text, pg_insert new_id key text max (float_add now delay) t =
    (Ok tt, (pg_enqueue o1 o2 new_id now delay payload key max t).2).
Proof.
  unfold pg_enqueue, mbind, M_bind, raise_if, lift_res.
  destruct (enqueue_invalid key max); [by left|]. destruct (json_dumps _ _) as [text|]; [|by left].
  destruct (pg_run_cases o1 (pg_insert new_id key text max (float_add now delay)) t)
    as [->|([] & t' & Hs & [->| ->])]; [by left| |right; by exists text].
  right. exists text. pose proof (pg_select_table o2 (has_key key) t') as Hsel.
  destruct (pg_run o2 _ t') as [[x|e] u]; cbn [snd] in *; by subst.
Qed.

(** A submission leaves the table as it was, or with one more queued row. *)
Lemma pg_enqueue_effect o1 o2 new_id now delay payload key max t :
  let t' := (pg_enqueue o1 o2 new_id now delay payload key max t).2 in
  t' = t ∨
  ∃ stored, t' = t ++ [{| pg_row := new_row new_id key stored max (float_add now delay); pg_lease := None |}] ∧
    (new_id ∉ map pg_id t) ∧ key ∉ map (λ r, jr_key (pg_row r)) t.
Proof.
  cbv zeta. destruct (pg_enqueue_table o1 o2 new_id now delay payload key max t) as [->|[text Hs]]; [by left|].
  destruct (pg_enqueue _ _ _ _ _ _ _ _ t) as [res t']. cbn [snd] in *.
  unfold pg_insert in Hs. destruct (jsonb_text text) as [stored|]; [|done].
  unfold mbind, M_bind, get_state in Hs. destruct (negb (int4 max)); [done|].
  destruct (existsb _ t) eqn:Hk in Hs; [injection Hs as <-; by left|].
  destruct (existsb _ t) eqn:Hi in Hs; [by inversion Hs|]. injection Hs as <-. right. exists stored.
  split; [done|].
  split; intros (r & -> & Hr)%list_elem_of_fmap; apply list_elem_of_In in Hr.
  - apply not_true_iff_false in Hi. apply Hi, existsb_exists. exists r. split; [done|apply String.eqb_refl].
  - apply not_true_iff_false in Hk. apply Hk, existsb_exists. exists r. split; [done|apply String.eqb_refl].
Qed.

Lemma pg_enqueue_inv o1 o2 new_id now delay payload key max t :
  pg_inv t → pg_inv (pg_enqueue o1 o2 new_id now delay payload key max t).2.
Proof.
  intros [Hi Hk Hl].
  destruct (pg_enqueue_effect o1 o2 new_id now delay payload key max t)
    as [->|(stored & -> & Hid & Hkey)]; [done|].
  split; rewrite ?map_app; [by apply NoDup_snoc|by apply NoDup_snoc|].
  apply Forall_app. split; [done|]. apply Forall_singleton. split; [done|by intros [? ?]].
Qed.
End PgLemmas.

(** * The contract of a job store *)

#[export] Instance pg_job_view : JobStoreView pg_table :=
  {| js_row := λ t id, pg_row <$> pg_at t id; js_inv := λ t, NoDup (map pg_id t) |}.

Lemma pg_with_row p f t id r :
  (∀ q, pg_id (f q) = pg_id q) → pg_at t id = Some r → p (pg_row r) = true →
  (∀ q, p q = true → jr_id q = id) →
  ∀ k, pg_row <$> pg_at (pg_update p f t) k =
       if String.eqb k id then Some (pg_row (f r)) else pg_row <$> pg_at t k.
Proof.
  intros Hf Hr Hp Hid k. rewrite (pg_update_row p f t id r k Hf Hr Hp Hid). by destruct (String.eqb k id).
Qed.

#[export] Instance pg_job_store_laws `{J : Jsonb} lease_seconds :
  JobStoreLaws pg_table (H := pg_job_store lease_seconds).
Proof.
  split; cbn [js_get js_claim js_complete js_fail js_row js_inv pg_job_store pg_job_view].
  - intros id t. unfold pg_get, pg_run, pg_select, mbind, M_bind, get_state, mret, M_ret, lift_res, pg_at.
    by destruct (pg_where _ t).
  - intros now t j t' Hi H.
    pose proof (pg_claim_cases PgApplied [] lease_seconds now t) as Hc. cbv zeta in Hc. rewrite H in Hc.
    cbn [fst snd] in Hc. destruct Hc as [[-> Hno]|(r & Hr & _ & -> & Hj)]; [by destruct (Hno j)|].
    apply pg_candidate_spec in Hr as (Hr & _ & _ & _). specialize (Hj j eq_refl).
    split; [unfold pg_take; by rewrite pg_update_ids|].
    pose proof (job_of_row_fields _ _ Hj) as (Hid & _). cbn in Hid. fold (pg_id r) in Hid.
    pose proof (pg_at_elem _ _ Hi Hr) as Hat. exists (pg_row r). rewrite Hid, Hat.
    split; [done|]. split; [done|]. apply (pg_with_row _ (pg_set set_running _)); try done.
    + apply String.eqb_refl.
    + by intros q ?%has_id_eq.
  - intros id t r Hi Hr Hq. destruct (pg_at t id) as [q|] eqn:Hat; [|done]. injection Hr as <-.
    eexists. split; [done|]. split; [by rewrite pg_update_ids|].
    pose proof (pg_at_Some _ _ _ Hat) as [_ Hid]. unfold pg_id in Hid.
    apply (pg_with_row _ (pg_set set_succeeded None)); try done.
    + by rewrite (proj2 (has_id_eq _ _) Hid), Hq.
    + by intros k [?%has_id_eq _]%andb_true_iff.
  - intros now id error delay t r j Hi Hr Hj Hn. destruct (pg_at t id) as [q|] eqn:Hat; [|done].
    injection Hr as <-. eexists. split; [done|]. split; [by rewrite pg_update_ids|].
    pose proof (pg_at_Some _ _ _ Hat) as [_ Hid].
    apply (pg_with_row _ (pg_set (set_failed error (float_add now delay)) None)); try done.
    + by apply has_id_eq.
    + by intros k ?%has_id_eq.
Qed.

(** * Many workers *)

(** The transactions of the workers and submitters, in the order in which the
    server applies them. *)
Inductive pg_call :=
| PgEnqueue (o1 o2 : pg_outcome) (new_id : string) (now delay : spec_float) (payload : pydict)
    (key : string) (max : Z)
| PgClaim (o : pg_outcome) (locked : list string) (moment : spec_float)
| PgComplete (o : pg_outcome) (id : string)
| PgFail (o : pg_outcome) (now : spec_float) (id error : string) (delay : spec_float).

Record pg_history := { ph_table : pg_table; ph_claimed : list string }.

Section Workers.
Context `{J : Jsonb} (lease_seconds : spec_float).

Definition pg_step (h : pg_history) (c : pg_call) : pg_history :=
  match c with
  | PgEnqueue o1 o2 new_id now delay payload key max =>
      {| ph_table := (pg_enqueue o1 o2 new_id now delay payload key max (ph_table h)).2;
         ph_claimed := ph_claimed h |}
  | PgClaim o locked moment =>
      let '(r, t) := pg_claim o locked lease_seconds moment (ph_table h) in
      {| ph_table := t;
         ph_claimed := match r with Ok (Some j) => ph_claimed h ++ [job_id j] | _ => ph_claimed h end |}
  | PgComplete o id => {| ph_table := (pg_complete o id (ph_table h)).2; ph_claimed := ph_claimed h |}
  | PgFail o now id error delay =>
      {| ph_table := (pg_fail o now id error delay (ph_table h)).2; ph_claimed := ph_claimed h |}
  end.

Lemma pg_step_inv h c : pg_inv (ph_table h) → pg_inv (ph_table (pg_step h c)).
Proof.
  destruct c; cbn [pg_step ph_table].
  - apply pg_enqueue_inv.
  - intros H. apply (pg_claim_inv o locked lease_seconds moment) in H.
    by destruct (pg_claim o locked lease_seconds moment (ph_table h)).
  - apply pg_complete_inv.
  - apply pg_fail_inv.
Qed.

(** Calls that neither report on the job nor come after its lease. *)
Definition leaves_alone (id : string) (lease : spec_float) (c : pg_call) : Prop :=
  match c with
  | PgEnqueue _ _ _ _ _ _ _ _ => True
  | PgClaim _ _ moment => pg_leb lease moment = false
  | PgComplete _ id' | PgFail _ _ id' _ _ => id' ≠ id
  end.

(** [id] is being run under the lease [lease]. *)
Definition held (id : string) (lease : spec_float) (row : JobRow) (t : pg_table) : Prop :=
  pg_at t id = Some {| pg_row := row; pg_lease := Some lease |} ∧ is_running row = true.

Lemma held_update p f t id lease row :
  (∀ q, pg_id (f q) = pg_id q) → held id lease row t → p row = false → held id lease row (pg_update p f t).
Proof. intros Hf [Hat Hr] Hp. split; [|done]. rewrite pg_at_update by done. rewrite Hat. simpl. by rewrite Hp. Qed.

Lemma held_id id lease row t : held id lease row t → jr_id row = id.
Proof. intros [Hat _]. by apply pg_at_Some in Hat as [_ ?]. Qed.

Lemma pg_step_held h c id lease row :
  pg_inv (ph_table h) → held id lease row (ph_table h) → leaves_alone id lease c →
  held id lease row (ph_table (pg_step h c)) ∧
  (id ∈ ph_claimed (pg_step h c) → id ∈ ph_claimed h).
Proof.
  intros Hi Hh Hc. pose proof (held_id _ _ _ _ Hh) as Hid.
  destruct c as [o1 o2 new_id now delay payload key max|o locked moment|o k|o now k error delay];
    cbn [pg_step ph_table ph_claimed leaves_alone] in *.
  - split; [|done].
    destruct (pg_enqueue_effect o1 o2 new_id now delay payload key max (ph_table h))
      as [->|(stored & -> & _)]; [done|]. destruct Hh as [Hat Hr]. split; [|done].
    unfold pg_at, pg_where in *. revert Hat. generalize (ph_table h) as t.
    induction t as [|q t IH]; simpl; [done|]. by destruct (has_id id (pg_row q)).
  - pose proof (pg_claim_cases o locked lease_seconds moment (ph_table h)) as Hcase. cbv zeta in Hcase.
    destruct (pg_claim _ _ _ _ _) as [x t]; cbn [fst snd ph_table ph_claimed] in *.
    destruct Hcase as [[-> Hno]|(r & Hr & _ & -> & Hj)].
    { split; [done|]. destruct x as [[j|]|]; [by destruct (Hno j)|done|done]. }
    apply pg_candidate_spec in Hr as (Hr & Hcl & _ & _).
    assert (pg_id r ≠ id) as Hne.
    { intros E. pose proof (pg_at_elem _ _ (pi_ids _ Hi) Hr) as Hat. rewrite E in Hat.
      destruct Hh as [Hh Hrun]. rewrite Hh in Hat. injection Hat as <-.
      unfold pg_claimable in Hcl. cbn [pg_row pg_lease] in Hcl. rewrite Hc, andb_false_r, orb_false_r in Hcl.
      apply andb_true_iff in Hcl as [Hq _]. apply is_queued_true in Hq. apply is_running_true in Hrun. congruence. }
    split.
    + apply held_update; [done|done|]. unfold has_id. rewrite Hid. by apply String.eqb_neq.
    + destruct x as [[j|]|]; try done. specialize (Hj j eq_refl). apply job_of_row_fields in Hj as (Hj & _).
      intros [H|E%list_elem_of_singleton]%elem_of_app; [done|]. cbn in Hj. unfold pg_id in Hne. congruence.
  - split; [|done]. unfold pg_complete, pg_run, modify. destruct o; cbn [snd]; try done; apply held_update; try done;
      unfold has_id; rewrite Hid; by rewrite (proj2 (String.eqb_neq _ _)).
  - split; [|done]. unfold pg_fail, pg_run, modify. destruct o; cbn [snd]; try done; apply held_update; try done;
      unfold has_id; rewrite Hid; by apply String.eqb_neq.
Qed.

Lemma pg_steps_held calls h id lease row :
  pg_inv (ph_table h) → held id lease row (ph_table h) → Forall (leaves_alone id lease) calls →
  held id lease row (ph_table (fold_left pg_step calls h)) ∧
  (id ∈ ph_claimed (fold_left pg_step calls h) → id ∈ ph_claimed h).
Proof.
  intros Hi Hh Hc. revert h Hi Hh. induction Hc as [|c calls Hc _ IH]; intros h Hi Hh; [done|].
  cbn [fold_left]. destruct (pg_step_held h c id lease row Hi Hh Hc) as [H1 H2].
  destruct (IH _ (pg_step_inv _ _ Hi) H1) as [H3 H4]. split; [done|auto].
Qed.

Lemma pg_steps_inv calls h : pg_inv (ph_table h) → pg_inv (ph_table (fold_left pg_step calls h)).
Proof. revert h. induction calls as [|c calls IH]; intros h Hi; [done|]. by apply IH, pg_step_inv. Qed.
End Workers.

(** * Properties *)

Definition pg_new : pg_history := {| ph_table := []; ph_claimed := [] |}.

Lemma pg_new_inv : pg_inv (ph_table pg_new).
Proof. split; constructor. Qed.

(** A job over a table of the JSON texts that the client sends. *)
#[local] Instance plain_jsonb : Jsonb := {| jsonb_text := Some |}.

Definition two_workers : list pg_call :=
  [PgClaim PgApplied [] (time_at 130); PgClaim PgApplied [] (time_at 150);
   PgFail PgApplied (time_at 160) "id-2" "OSError" (time_at 1); PgClaim PgUnacknowledged [] (time_at 170)].
Definition submissions : list pg_call :=
  [PgEnqueue PgApplied PgApplied "id-1" (time_at 100) (time_at 0) [] "key-1" 1;
   PgEnqueue PgApplied PgApplied "id-2" (time_at 110) (time_at 0) [] "key-2" 2;
   PgEnqueue PgUnacknowledged PgApplied "id-3" (time_at 115) (time_at 0) [] "key-2" 2].
Definition leased_job : Job :=
  {| job_id := "id-1"; job_key := "key-1"; job_payload := PDict []; job_status := "running";
     job_attempts := 1; job_max := 1; job_available := time_at 100; job_error := None |}.

(** C28. A claim is exclusive while its lease lasts.  When a claim hands out a
    job after any history of submissions, claims, reports and failed
    transactions, the job was queued and due or its lease had run out; and
    whatever transactions any workers make from then on, up to the end of the
    lease, the job is handed to nobody else and keeps its lease, as long as
    nobody reports on it. *)
Theorem pg_claim_exclusive `{J : Jsonb} (lease_seconds : spec_float) (before after : list pg_call)
    locked moment (j : Job) (t : pg_table) :
  let h := fold_left (pg_step lease_seconds) before pg_new in
  let lease := float_add moment lease_seconds in
  pg_claim PgApplied locked lease_seconds moment (ph_table h) = (Ok (Some j), t) →
  Forall (leaves_alone (job_id j) lease) after →
  let h' := fold_left (pg_step lease_seconds) after {| ph_table := t; ph_claimed := [] |} in
  (∃ r, pg_at (ph_table h) (job_id j) = Some r ∧ pg_claimable moment r = true ∧
        job_attempts j = jr_attempts (pg_row r) + 1) ∧
  (job_id j ∉ ph_claimed h') ∧
  ∃ row, held (job_id j) lease row (ph_table h') ∧ job_of_row row = Ok j.
Proof.
  cbv zeta. intros H Ha.
  pose proof (pg_steps_inv lease_seconds before pg_new pg_new_inv) as Hi.
  pose proof (pg_claim_inv PgApplied locked lease_seconds moment _ Hi) as Hi'. rewrite H in Hi'. cbn [snd] in Hi'.
  pose proof (pg_claim_cases PgApplied locked lease_seconds moment
    (ph_table (fold_left (pg_step lease_seconds) before pg_new))) as Hc. cbv zeta in Hc. rewrite H in Hc.
  cbn [fst snd] in Hc. destruct Hc as [[_ Hno]|(r & Hr & _ & -> & Hj)]; [by destruct (Hno j)|].
  specialize (Hj j eq_refl). pose proof (job_of_row_fields _ _ Hj) as (Hid & _ & _ & Hat & _). cbn in Hid, Hat.
  apply pg_candidate_spec in Hr as (Hr & Hcl & _ & _).
  pose proof (pg_at_elem _ _ (pi_ids _ Hi) Hr) as Hrow. fold (pg_id r) in Hid.
  assert (held (job_id j) (float_add moment lease_seconds) (set_running (pg_row r))
    (pg_take (float_add moment lease_seconds) r (ph_table (fold_left (pg_step lease_seconds) before pg_new)))) as Hh.
  { split; [|done]. unfold pg_take. rewrite pg_at_update by done. rewrite Hid, Hrow. simpl.
    by rewrite (proj2 (has_id_eq (pg_id r) (pg_row r)) eq_refl). }
  destruct (pg_steps_held lease_seconds after {| ph_table := _; ph_claimed := [] |} _ _ _ Hi' Hh Ha) as [H1 H2].
  split; [exists r; rewrite Hid; done|]. split; [|by eexists].
  intros Hin. apply H2 in Hin. by apply not_elem_of_nil in Hin.
Qed.

Lemma pg_claim_exclusive_witness :
  let h := fold_left (pg_step (time_at 300)) submissions pg_new in
  let t := (pg_claim PgApplied [] (time_at 300) (time_at 120) (ph_table h)).2 in
  let h' := fold_left (pg_step (time_at 300)) two_workers {| ph_table := t; ph_claimed := [] |} in
  (∃ r, pg_at (ph_table h) "id-1" = Some r ∧ pg_claimable (time_at 120) r = true ∧
        1 = jr_attempts (pg_row r) + 1) ∧
  ("id-1" ∉ ph_claimed h') ∧
  ∃ row, held "id-1" (float_add (time_at 120) (time_at 300)) row (ph_table h') ∧
         job_of_row row = Ok leased_job.
Proof.
  cbv zeta. apply (pg_claim_exclusive (time_at 300) submissions two_workers [] (time_at 120) leased_job).
  - vm_compute. reflexivity.
  - unfold two_workers. repeat constructor; try (vm_compute; reflexivity). discriminate.
Defined.

(** Leases do not count against [max_attempts]: the job of a worker that dies
    again and again is handed out past its limit and never becomes a dead
    letter.  Here a job limited to one attempt is on its third. *)
Lemma pg_crash_exceeds_max :
  let h := fold_left (pg_step (time_at 300))
    (submissions ++ [PgClaim PgApplied ["id-2"] (time_at 120); PgClaim PgApplied ["id-2"] (time_at 500);
                     PgClaim PgApplied ["id-2"] (time_at 900)]) pg_new in
  ph_claimed h = ["id-1"; "id-1"; "id-1"] ∧
  ∃ r, pg_at (ph_table h) "id-1" = Some r ∧ jr_max (pg_row r) = 1 ∧ jr_attempts (pg_row r) = 3 ∧
       jr_status (pg_row r) = "running".
Proof. split; [by vm_compute|]. eexists. split; [by vm_compute|]. done. Qed.
