(* ===== verification/Federation.v ===== *)
(** federation.py: signed synchronization of policy registries between
    organizations.

    A snapshot and its event come off the wire, so the fields the parser does
    not check keep whatever JSON value they had.  The reconciler holds the local
    registry and the nonces it has seen; the trust store is shared with the rest
    of the program and is an argument, as is the clock. *)

From stdpp Require Import gmap.
From S2P Require Import Prelude PyFloat PyVal Json Sha256 Base64 Crypto Trust Models Policy PolicyRegistry.

Definition federation_error (msg : string) : exn := FederationError msg.

Section Federation.
Context `{C : Crypto}.

(** * Events *)

Record SignedSyncEvent := {
  se_event_type : string;
  se_source_org : string;
  se_target_org : string;
  se_snapshot_digest : string;
  se_policy_digests : list (string * string);
  se_issued_at : Z;
  se_nonce : string;
  se_signer_key_id : string;
  se_signature : string
}.

Definition str_dict (d : list (string * string)) : pyval := PDict (map (λ kv, (kv.1, PStr kv.2)) d).

Definition event_unsigned_dict (e : SignedSyncEvent) : pydict :=
  [("event_type", PStr (se_event_type e)); ("source_org", PStr (se_source_org e));
   ("target_org", PStr (se_target_org e)); ("snapshot_digest", PStr (se_snapshot_digest e));
   ("policy_digests", str_dict (sort_by fst (se_policy_digests e)));
   ("issued_at", PInt (se_issued_at e)); ("nonce", PStr (se_nonce e));
   ("signer_key_id", PStr (se_signer_key_id e))].

Definition event_unsigned_payload (e : SignedSyncEvent) : res string :=
  canonical_json (PDict (event_unsigned_dict e)).

Definition event_to_dict (e : SignedSyncEvent) : pydict :=
  event_unsigned_dict e ++ [("signature", PStr (se_signature e))].

Definition event_with_signature (e : SignedSyncEvent) (s : string) : SignedSyncEvent :=
  {| se_event_type := se_event_type e; se_source_org := se_source_org e;
     se_target_org := se_target_org e; se_snapshot_digest := se_snapshot_digest e;
     se_policy_digests := se_policy_digests e; se_issued_at := se_issued_at e;
     se_nonce := se_nonce e; se_signer_key_id := se_signer_key_id e; se_signature := s |}.

(** [SignedSyncEvent.issue]; [issued_at] is the argument or the clock. *)
Definition event_issue (event_type source_org target_org snapshot_digest : string)
    (policy_digests : list (string * string)) (nonce : string) (signer : KeyPair) (issued_at : Z)
    : res SignedSyncEvent :=
  fail_if (existsb (String.eqb "") [event_type; source_org; target_org; snapshot_digest; nonce])
    (ValueError "event type, organizations, snapshot digest, and nonce are required") ;;
  let unsigned :=
    {| se_event_type := event_type; se_source_org := source_org; se_target_org := target_org;
       se_snapshot_digest := snapshot_digest; se_policy_digests := sort_by fst policy_digests;
       se_issued_at := issued_at; se_nonce := nonce; se_signer_key_id := kp_key_id signer;
       se_signature := "" |} in
  payload ← event_unsigned_payload unsigned;
  Ok (event_with_signature unsigned (keypair_sign signer payload)).

Definition event_strings : list string :=
  ["event_type"; "source_org"; "target_org"; "snapshot_digest"; "nonce"; "signer_key_id"; "signature"].

Definition event_from_dict (value : pyval) : res SignedSyncEvent :=
  let schema := federation_error "sync event has an invalid schema" in
  match value with
  | PDict d =>
      fail_if (negb (keys_equal d (event_strings ++ ["policy_digests"; "issued_at"]))) schema ;;
      fail_if (negb (forallb (λ k, nonempty_str (dict_get k d)) event_strings))
        (federation_error "sync event contains invalid string fields") ;;
      issued_at ← match strict_int (dict_get "issued_at" d) with
                  | Some z => Ok z
                  | None => Raise (federation_error "sync event issued_at must be an integer")
                  end;
      digests ← match dict_get "policy_digests" d with
                | PDict kvs =>
                    fail_if (negb (forallb (λ kv, is_str kv.2) kvs))
                      (federation_error "sync event policy digests are invalid") ;;
                    Ok (map (λ kv, (kv.1, py_str kv.2)) kvs)
                | _ => Raise (federation_error "sync event policy digests are invalid")
                end;
      let str k := py_str (dict_get k d) in
      Ok {| se_event_type := str "event_type"; se_source_org := str "source_org";
            se_target_org := str "target_org"; se_snapshot_digest := str "snapshot_digest";
            se_policy_digests := sort_by fst digests; se_issued_at := issued_at;
            se_nonce := str "nonce"; se_signer_key_id := str "signer_key_id";
            se_signature := str "signature" |}
  | _ => Raise schema
  end.

(** [now] is [None] when the caller leaves it out. *)
Definition event_verify (e : SignedSyncEvent) (trust : TrustStore) (now : option Z) (max_age : Z)
    : res unit :=
  let untrusted := federation_error "sync event signature is invalid or untrusted" in
  fail_if (negb (str_in (se_event_type e) ["policy_update"; "registry_update"]))
    (federation_error "unsupported sync event type") ;;
  fail_if ((se_issued_at e <=? 0) || match now with Some n => n + 30 <? se_issued_at e | None => false end)
    (federation_error "sync event timestamp is invalid") ;;
  fail_if (match now with Some n => max_age <? n - se_issued_at e | None => false end)
    (federation_error "sync event is stale") ;;
  match trust_resolve trust (se_signer_key_id e) with
  | None => Raise untrusted
  | Some key =>
      payload ← event_unsigned_payload e;
      fail_if (negb (verify_signature key payload (se_signature e))) untrusted
  end.

(** * Snapshots *)

Record RegistrySnapshot := {
  rs_source_org : pyval;
  rs_version : pyval;
  rs_policies : pydict;
  rs_policy_digests : pydict;
  rs_snapshot_digest : pyval
}.

Definition snapshot_unsigned_dict (s : RegistrySnapshot) : pydict :=
  [("source_org", rs_source_org s); ("version", rs_version s);
   ("policies", PDict (sort_by fst (rs_policies s)));
   ("policy_digests", PDict (sort_by fst (rs_policy_digests s)))].

Definition snapshot_to_dict (s : RegistrySnapshot) : pydict :=
  snapshot_unsigned_dict s ++ [("snapshot_digest", rs_snapshot_digest s)].

(** [entry["policy"]["policy_id"]] *)
Definition entry_policy_id (entry : pyval) : res string :=
  match entry with
  | PDict d =>
      match dict_get "policy" d with
      | PDict p => match dict_get "policy_id" p with PStr k => Ok k | _ => unmodelled "entry" end
      | _ => unmodelled "entry"
      end
  | _ => unmodelled "entry"
  end.

(** What [from_registry] digests: not the organization. *)
Definition registry_content (version : pyval) (policies digests : pydict) : pydict :=
  [("version", version); ("policies", PDict (sort_by fst policies));
   ("policy_digests", PDict (sort_by fst digests))].

Definition snapshot_from_registry (r : PolicyRegistry) (source_org : string) (version : pyval)
    : res RegistrySnapshot :=
  entries ← py_tuple (dict_get "policies" (registry_to_dict r));
  named ← mapM_res (λ e, k ← entry_policy_id e; Ok (k, e)) entries;
  let policies := assoc_update [] named in
  digests ← registry_digests r;
  let digests := map (λ kv, (kv.1, PStr kv.2)) digests in
  digest ← canonical_digest (PDict (registry_content version policies digests));
  Ok {| rs_source_org := PStr source_org; rs_version := version; rs_policies := policies;
        rs_policy_digests := digests; rs_snapshot_digest := PStr digest |}.

(** [isinstance(entry, dict) and entry.get("policy", {}).get("policy_id") == policy_id] *)
Definition stable_entry (kv : string * pyval) : res bool :=
  match kv.2 with
  | PDict d =>
      match dict_get_or "policy" (PDict []) d with
      | PDict p => Ok (py_eqb (dict_get "policy_id" p) (PStr kv.1))
      | _ => Raise (AttributeError "get")
      end
  | _ => Ok false
  end.

Definition snapshot_from_dict (value : pyval) : res RegistrySnapshot :=
  let schema := federation_error "registry snapshot has an invalid schema" in
  match value with
  | PDict d =>
      fail_if (negb (keys_equal d
        ["source_org"; "version"; "policies"; "policy_digests"; "snapshot_digest"])) schema ;;
      match dict_get "policies" d, dict_get "policy_digests" d with
      | PDict policies, PDict digests =>
          let candidate :=
            {| rs_source_org := dict_get "source_org" d; rs_version := dict_get "version" d;
               rs_policies := policies; rs_policy_digests := digests;
               rs_snapshot_digest := dict_get "snapshot_digest" d |} in
          expected ← canonical_digest (PDict (snapshot_unsigned_dict candidate));
          fail_if (negb (py_eqb (PStr expected) (rs_snapshot_digest candidate)))
            (federation_error "registry snapshot digest does not match contents") ;;
          fail_if (negb (keys_equal policies (map fst digests)))
            (federation_error "registry snapshot policy IDs and digests differ") ;;
          for_res policies (λ kv,
            stable ← stable_entry kv;
            fail_if (negb stable) (federation_error "registry snapshot contains an unstable policy ID")) ;;
          Ok candidate
      | _, _ => Raise schema
      end
  | _ => Raise schema
  end.

(** * Envelopes *)

Record GovernanceSyncEnvelope := {
  env_event : SignedSyncEvent;
  env_snapshot : RegistrySnapshot;
  env_signature : string
}.

Definition envelope_unsigned_payload (v : GovernanceSyncEnvelope) : res string :=
  canonical_json (PDict [("event", PDict (event_to_dict (env_event v)));
                         ("snapshot", PDict (snapshot_to_dict (env_snapshot v)))]).

Definition envelope_to_dict (v : GovernanceSyncEnvelope) : pydict :=
  [("event", PDict (event_to_dict (env_event v)));
   ("snapshot", PDict (snapshot_to_dict (env_snapshot v)));
   ("signature", PStr (env_signature v))].

Definition envelope_issue (e : SignedSyncEvent) (s : RegistrySnapshot) (signer : KeyPair)
    : res GovernanceSyncEnvelope :=
  payload ← envelope_unsigned_payload {| env_event := e; env_snapshot := s; env_signature := "" |};
  Ok {| env_event := e; env_snapshot := s; env_signature := keypair_sign signer payload |}.

Definition envelope_from_dict (value : pyval) : res GovernanceSyncEnvelope :=
  let schema := federation_error "sync envelope has an invalid schema" in
  match value with
  | PDict d =>
      fail_if (negb (keys_equal d ["event"; "snapshot"; "signature"])) schema ;;
      s ← read_str (federation_error "sync envelope signature is required") (dict_get "signature" d);
      event ← event_from_dict (dict_get "event" d);
      snapshot ← snapshot_from_dict (dict_get "snapshot" d);
      Ok {| env_event := event; env_snapshot := snapshot; env_signature := s |}
  | _ => Raise schema
  end.

Definition envelope_verify (v : GovernanceSyncEnvelope) (trust : TrustStore) (now : option Z)
    (max_age : Z) : res unit :=
  let untrusted := federation_error "sync envelope signature is invalid or untrusted" in
  event_verify (env_event v) trust now max_age ;;
  fail_if (negb (py_eqb (PStr (se_source_org (env_event v))) (rs_source_org (env_snapshot v))) ||
           negb (py_eqb (PStr (se_snapshot_digest (env_event v))) (rs_snapshot_digest (env_snapshot v))))
    (federation_error "sync event does not bind the supplied snapshot") ;;
  match trust_resolve trust (se_signer_key_id (env_event v)) with
  | None => Raise untrusted
  | Some key =>
      payload ← envelope_unsigned_payload v;
      fail_if (negb (verify_signature key payload (env_signature v))) untrusted
  end.

(** * Reconciliation *)

Record ReconciliationResult := {
  rr_status : string;
  rr_imported : list string;
  rr_conflicts : list pydict;
  rr_metadata : option pydict
}.

(** The fields of [GovernanceReconciler] that do not change. *)
Record ReconcilerConfig := {
  rc_local_org : string;
  rc_organization_keys : list (string * string);
  rc_max_event_age : Z
}.

Record Reconciler := {
  rc_registry : PolicyRegistry;
  rc_seen : gset (string * string)
}.

Definition in_registry {A} (m : M PolicyRegistry A) : M Reconciler A :=
  zoom rc_registry (λ r s, {| rc_registry := r; rc_seen := rc_seen s |}) m.

(** The body of the loop over the snapshot's policies: what it adds to the
    imports and to the conflicts. *)
Definition reconcile_entry (trust : TrustStore) (digests : pydict) (kv : string * pyval)
    : M Reconciler (list string * list pydict) :=
  let '(policy_id, entry) := kv in
  remote_digest ← match assoc_get policy_id digests with
                  | Some d => mret d
                  | None => raise (KeyError policy_id)
                  end;
  fields ← match entry with PDict d => mret d | _ => raise (AttributeError "get") end;
  raise_if (negb (is_dict (dict_get "policy" fields)))
    (federation_error "remote policy entry is invalid") ;;
  parsed ← lift_res (policy_from_dict (dict_get "policy" fields));
  digest ← lift_res (policy_digest parsed);
  raise_if (negb (py_eqb (PStr digest) remote_digest))
    (federation_error ("remote policy digest mismatch: " +:+ policy_id)) ;;
  s ← get_state;
  match registry_get (rc_registry s) policy_id with
  | Some existing =>
      local ← lift_res (policy_digest existing);
      mret ([], if py_eqb (PStr local) remote_digest then [] else
        [[("policy_id", PStr policy_id); ("local_digest", PStr local); ("remote_digest", remote_digest)]])
  | None =>
      raise_if (negb (assoc_has "signature" fields))
        (federation_error ("unknown policy " +:+ policy_id +:+ " is not signed")) ;;
      manifest ← lift_res (signed_policy_manifest_from_dict entry);
      digest ← lift_res (policy_digest (pm_policy manifest));
      verified ← lift_res (if py_eqb (PStr digest) remote_digest then manifest_verify manifest trust
                           else Ok false);
      raise_if (negb verified)
        (federation_error ("unknown policy " +:+ policy_id +:+ " has invalid manifest signature")) ;;
      in_registry (registry_register_signed manifest (Some trust)) ;;
      mret ([policy_id], [])
  end.

Fixpoint reconcile_entries (trust : TrustStore) (digests policies : pydict)
    : M Reconciler (list string * list pydict) :=
  match policies with
  | [] => mret ([], [])
  | kv :: policies =>
      one ← reconcile_entry trust digests kv;
      rest ← reconcile_entries trust digests policies;
      mret (one.1 ++ rest.1, one.2 ++ rest.2)
  end.

Definition replay_key (v : GovernanceSyncEnvelope) : string * string :=
  (se_source_org (env_event v), se_nonce (env_event v)).

(** The checks before the nonce is consumed. *)
Definition reconcile_accepts (K : ReconcilerConfig) (trust : TrustStore) (now : Z)
    (v : GovernanceSyncEnvelope) (seen : gset (string * string)) : res unit :=
  fail_if (match assoc_get (se_source_org (env_event v)) (rc_organization_keys K) with
           | Some k => negb (String.eqb k (se_signer_key_id (env_event v)))
           | None => true
           end)
    (federation_error "sync event source organization is unknown or signer is not registered") ;;
  fail_if (negb (String.eqb (se_target_org (env_event v)) (rc_local_org K)))
    (federation_error "sync event target organization does not match local organization") ;;
  fail_if (bool_decide (replay_key v ∈ seen))
    (federation_error "sync event nonce has already been consumed") ;;
  envelope_verify v trust (Some now) (rc_max_event_age K) ;;
  fail_if (negb (py_eqb (str_dict (se_policy_digests (env_event v))) (PDict (rs_policy_digests (env_snapshot v)))))
    (federation_error "sync event policy digests do not match snapshot").

Definition consume_nonce (v : GovernanceSyncEnvelope) (s : Reconciler) : Reconciler :=
  {| rc_registry := rc_registry s; rc_seen := rc_seen s ∪ {[replay_key v]} |}.

Definition reconcile (K : ReconcilerConfig) (trust : TrustStore) (now : Z) (v : GovernanceSyncEnvelope)
    : M Reconciler ReconciliationResult :=
  s ← get_state;
  lift_res (reconcile_accepts K trust now v (rc_seen s)) ;;
  modify (consume_nonce v) ;;
  let remote := env_snapshot v in
  local ← lift_res (snapshot_from_registry (rc_registry s) (rc_local_org K) (rs_version remote));
  if py_eqb (rs_snapshot_digest local) (rs_snapshot_digest remote) then
    mret {| rr_status := "identical"; rr_imported := []; rr_conflicts := [];
            rr_metadata := Some [("snapshot_digest", rs_snapshot_digest local)] |}
  else
    found ← reconcile_entries trust (rs_policy_digests remote) (rs_policies remote);
    let '(imports, conflicts) := found in
    match conflicts with
    | _ :: _ =>
        mret {| rr_status := "conflict"; rr_imported := imports; rr_conflicts := conflicts;
                rr_metadata := Some [("source_org", PStr (se_source_org (env_event v)))] |}
    | [] =>
        in_registry registry_save ;;
        mret {| rr_status := "adopted"; rr_imported := sort_strings imports; rr_conflicts := [];
                rr_metadata := Some [("source_org", PStr (se_source_org (env_event v)));
                                     ("snapshot_digest", rs_snapshot_digest remote)] |}
    end.
End Federation.

(** * Lemmas *)

Lemma py_eqb_str_l s v : py_eqb (PStr s) v = true → v = PStr s.
Proof. destruct v; try done. simpl. by intros ->%String.eqb_eq. Qed.

Section FederationLemmas.
Context `{C : Crypto}.
Implicit Types (r : PolicyRegistry) (s : Reconciler) (v : GovernanceSyncEnvelope).

(** What an accepted envelope went through. *)
Record accepted (K : ReconcilerConfig) (trust : TrustStore) (now : Z) v (seen : gset (string * string))
    : Prop := {
  acc_organization : assoc_get (se_source_org (env_event v)) (rc_organization_keys K) =
    Some (se_signer_key_id (env_event v));
  acc_target : se_target_org (env_event v) = rc_local_org K;
  acc_fresh : replay_key v ∉ seen;
  acc_type : se_event_type (env_event v) ∈ ["policy_update"; "registry_update"];
  acc_age : 0 < se_issued_at (env_event v) <= now + 30 ∧
    now - se_issued_at (env_event v) <= rc_max_event_age K;
  acc_signed : ∃ key event_bytes bytes,
    trust_resolve trust (se_signer_key_id (env_event v)) = Some key ∧
    event_unsigned_payload (env_event v) = Ok event_bytes ∧
    verify_signature key event_bytes (se_signature (env_event v)) = true ∧
    envelope_unsigned_payload v = Ok bytes ∧ verify_signature key bytes (env_signature v) = true;
  acc_bound : rs_source_org (env_snapshot v) = PStr (se_source_org (env_event v)) ∧
    rs_snapshot_digest (env_snapshot v) = PStr (se_snapshot_digest (env_event v));
  acc_digests : py_eqb (str_dict (se_policy_digests (env_event v)))
    (PDict (rs_policy_digests (env_snapshot v))) = true
}.

Lemma event_verify_ok e trust now max_age :
  event_verify e trust (Some now) max_age = Ok tt →
  se_event_type e ∈ ["policy_update"; "registry_update"] ∧
  (0 < se_issued_at e <= now + 30 ∧ now - se_issued_at e <= max_age) ∧
  ∃ key bytes, trust_resolve trust (se_signer_key_id e) = Some key ∧
    event_unsigned_payload e = Ok bytes ∧ verify_signature key bytes (se_signature e) = true.
Proof.
  unfold event_verify. intros H.
  apply res_bind_ok in H as ([] & Hty & H). apply res_bind_ok in H as ([] & Hts & H).
  apply res_bind_ok in H as ([] & Hage & H). apply fail_if_ok in Hty, Hts, Hage.
  destruct (trust_resolve _ _) as [key|]; [|done]. apply res_bind_ok in H as (bytes & Hb & H).
  apply fail_if_ok in H. breflect. split; [by apply str_in_spec|]. split; [lia|]. eauto 6.
Qed.

Lemma reconcile_accepts_ok K trust now v seen :
  reconcile_accepts K trust now v seen = Ok tt → accepted K trust now v seen.
Proof.
  unfold reconcile_accepts, envelope_verify. intros H.
  apply res_bind_ok in H as ([] & Horg & H). apply res_bind_ok in H as ([] & Htgt & H).
  apply res_bind_ok in H as ([] & Hseen & H). apply res_bind_ok in H as ([] & Hv & Hd).
  apply res_bind_ok in Hv as ([] & Hev & Hv). apply res_bind_ok in Hv as ([] & Hb & Hv).
  apply fail_if_ok in Horg, Htgt, Hseen, Hb, Hd. apply event_verify_ok in Hev as (Hty & Hage & key & eb & Hk & Heb & Hes).
  rewrite Hk in Hv. apply res_bind_ok in Hv as (bytes & Hbytes & Hsig). apply fail_if_ok in Hsig.
  breflect. apply bool_decide_eq_false in Hseen. split; try done.
  - destruct (assoc_get _ _) as [k|]; [|done]. breflect. by subst.
  - eauto 8.
  - split; by apply py_eqb_str_l.
Qed.

(** A refused envelope changes nothing. *)
Lemma reconcile_refused K trust now v s e :
  reconcile_accepts K trust now v (rc_seen s) = Raise e → reconcile K trust now v s = (Raise e, s).
Proof. intros H. unfold reconcile, mbind, M_bind, get_state, lift_res. by rewrite H. Qed.

(** ** The effect on the local registry *)

(** Local policies keep their digests, and whatever is new came as a manifest
    that a live policy authority signed. *)
Record sync_effect (trust : TrustStore) r r' : Prop := {
  sy_inv : registry_inv r';
  sy_extends : registry_extends r r';
  sy_new : ∀ k p, registry_get r' k = Some p → registry_get r k = None →
    ∃ m, manifest_verify m trust = Ok true ∧ policy_id (pm_policy m) = k ∧
         policy_digest (pm_policy m) = policy_digest p
}.

Lemma sync_effect_refl trust r : registry_inv r → sync_effect trust r r.
Proof. intros H. split; [done|reflexivity|congruence]. Qed.

Lemma sync_effect_trans trust r1 r2 r3 :
  sync_effect trust r1 r2 → sync_effect trust r2 r3 → sync_effect trust r1 r3.
Proof.
  intros [Hi1 He1 Hn1] [Hi2 He2 Hn2]. split; [done|by etransitivity|].
  intros k p Hp Hk. destruct (registry_get r2 k) as [q|] eqn:Hq; [|eauto].
  destruct (Hn1 k q Hq Hk) as (m & Hm & Hid & Hd). exists m. split; [done|]. split; [done|].
  destruct He2 as [He2 _]. destruct (He2 k q Hq) as (p' & Hp' & Hd'). congruence.
Qed.

(** A signed registration, whatever its outcome. *)
Lemma register_signed_effect m trust r :
  registry_inv r → sync_effect trust r (registry_register_signed m (Some trust) r).2.
Proof.
  intros Hi. destruct (registry_run_extends (CallRegisterSigned m (Some trust)) r Hi) as [Hi' He'].
  cbn [registry_run] in *. pose proof (registry_register_signed_cases m trust r) as Hc.
  destruct (registry_register_signed m (Some trust) r) as [x r']. cbn [snd] in *.
  destruct Hc as [[-> _]|(Hv & _ & r1 & Hr & Hp & _)]; [by apply sync_effect_refl|].
  split; [done|done|]. intros k p Hk Hn.
  unfold registry_get in Hk. rewrite Hp in Hk. cbn [registry_set_signed pr_policies] in Hk.
  rewrite registry_register_spec in Hr.
  assert (r1 = registry_put (pm_policy m) r) as -> by (repeat case_match; by simplify_eq).
  cbn [registry_put pr_policies] in Hk. destruct (String.eqb_spec (policy_id (pm_policy m)) k) as [<-|Hne].
  - rewrite assoc_get_set_eq in Hk. injection Hk as <-. eauto.
  - rewrite assoc_get_set_ne in Hk by done. unfold registry_get in Hn. congruence.
Qed.

Lemma register_signed_get m trust r r' :
  registry_register_signed m (Some trust) r = (Ok tt, r') →
  registry_get r (policy_id (pm_policy m)) = None →
  registry_get r' (policy_id (pm_policy m)) = Some (pm_policy m).
Proof.
  intros H Hn. pose proof (registry_register_signed_cases m trust r) as Hc. rewrite H in Hc.
  destruct Hc as [[-> Hs]|(_ & _ & r1 & Hr & Hp & _)].
  - destruct (Hs eq_refl) as [_ Hst]. unfold registry_stale in Hst. by rewrite Hn in Hst.
  - unfold registry_get. rewrite Hp. cbn [registry_set_signed pr_policies].
    by apply registry_register_get in Hr as [Hr _].
Qed.

Lemma registry_save_effect trust r : registry_inv r → sync_effect trust r (registry_save r).2.
Proof.
  intros Hi. destruct (registry_save_state r) as [Hp Hv].
  destruct (registry_same_extends r (registry_save r).2 Hp Hv Hi) as [Hi' He]. split; [done|done|].
  intros k p Hk Hn. unfold registry_get in *. congruence.
Qed.

(** ** One policy of the snapshot *)

(** The outcome of an entry that was taken over or was there already. *)
Definition entry_settled (digests : pydict) (k : string) r (conflicts : list pydict) : Prop :=
  ∃ d, assoc_get k digests = Some (PStr d) ∧
    ((∃ p, registry_get r k = Some p ∧ policy_digest p = Ok d) ∨
     ∃ local, [("policy_id", PStr k); ("local_digest", PStr local); ("remote_digest", PStr d)] ∈ conflicts).

Lemma stable_entry_true k d :
  stable_entry (k, PDict d) = Ok true →
  ∃ p, dict_get "policy" d = PDict p ∧ dict_get "policy_id" p = PStr k.
Proof.
  unfold stable_entry. cbn [snd fst]. unfold dict_get_or.
  destruct (assoc_get "policy" d) as [v|] eqn:Hv; [|done].
  destruct v as [| | | | | |p|]; try done. intros [= E%py_eqb_str]. exists p. split; [|done].
  unfold dict_get. by rewrite Hv.
Qed.

Lemma policy_from_dict_id p q k :
  policy_from_dict (PDict p) = Ok q → dict_get "policy_id" p = PStr k → policy_id q = k.
Proof.
  unfold policy_from_dict. intros H Hk. do 8 (apply res_bind_ok in H as (? & _ & H)).
  unfold policy_post_init in H. cbn [pa_policy_id] in H. rewrite Hk in H.
  apply res_bind_ok in H as (pid & Hpid & H). repeat (apply res_bind_ok in H as (? & _ & H)).
  injection H as <-. cbn [policy_id]. destruct (truthy _); [|done]. by injection Hpid as <-.
Qed.

Lemma manifest_from_dict_policy d m :
  signed_policy_manifest_from_dict (PDict d) = Ok m →
  policy_from_dict (dict_get "policy" d) = Ok (pm_policy m).
Proof.
  unfold signed_policy_manifest_from_dict. intros H.
  repeat (apply res_bind_ok in H as (? & ? & H)). by injection H as <-.
Qed.

(** A computation of the reconciler whose effect on the registry is one of
    synchronization, whatever its outcome, and which leaves the nonces alone. *)
Definition syncs {A} (trust : TrustStore) (m : M Reconciler A) : Prop :=
  ∀ s, registry_inv (rc_registry s) →
    sync_effect trust (rc_registry s) (rc_registry (m s).2) ∧ rc_seen (m s).2 = rc_seen s.

Lemma syncs_pure {A} trust (m : M Reconciler A) : (∀ s, (m s).2 = s) → syncs trust m.
Proof. intros H s Hi. rewrite H. split; [by apply sync_effect_refl|done]. Qed.

Lemma syncs_bind {A B} trust (m : M Reconciler A) (f : A → M Reconciler B) :
  syncs trust m → (∀ x, syncs trust (f x)) → syncs trust (m ≫= f).
Proof.
  intros Hm Hf s Hi. destruct (Hm s Hi) as [He Hs]. unfold mbind, M_bind.
  destruct (m s) as [[x|e] s1]; [|done]. cbn [snd] in *.
  destruct (Hf x s1 (sy_inv _ _ _ He)) as [He2 Hs2]. split; [by eapply sync_effect_trans|congruence].
Qed.

Lemma syncs_registry {A} trust (m : M PolicyRegistry A) :
  (∀ r, registry_inv r → sync_effect trust r (m r).2) → syncs trust (in_registry m).
Proof.
  intros H s Hi. specialize (H _ Hi). unfold in_registry, zoom. by destruct (m (rc_registry s)).
Qed.

Ltac syncs_step :=
  first [ apply syncs_bind; [|intros ?]
        | apply syncs_registry; intros ? ?
        | match goal with |- syncs _ (match ?x with _ => _ end) => destruct x end
        | by (apply syncs_pure; intros ?; repeat case_match) ].

Lemma reconcile_entry_syncs trust digests kv : syncs trust (reconcile_entry trust digests kv).
Proof.
  destruct kv as [k entry]. unfold reconcile_entry. repeat syncs_step. by apply register_signed_effect.
Qed.

Lemma reconcile_entries_syncs trust digests policies : syncs trust (reconcile_entries trust digests policies).
Proof.
  induction policies as [|kv policies IH]; cbn [reconcile_entries]; [repeat syncs_step|].
  apply syncs_bind; [apply reconcile_entry_syncs|intros one].
  apply syncs_bind; [exact IH|intros rest]. repeat syncs_step.
Qed.

(** An entry that went through is settled. *)
Lemma reconcile_entry_ok trust digests k entry s x s' :
  stable_entry (k, entry) = Ok true →
  reconcile_entry trust digests (k, entry) s = (Ok x, s') →
  entry_settled digests k (rc_registry s') x.2.
Proof.
  unfold reconcile_entry. intros Hst H.
  apply M_bind_ok in H as (remote & st & Hrem & H).
  destruct (assoc_get k digests) as [rd|] eqn:Hd; [|done]. apply mret_M_ok in Hrem as [-> ->].
  apply M_bind_ok in H as (fields & st & Hf & H).
  destruct entry as [| | | | | |d|]; try done. apply mret_M_ok in Hf as [-> ->].
  apply M_bind_ok in H as ([] & st & [_ ->]%raise_if_ok & H).
  apply M_bind_ok in H as (parsed & st & [Hp ->]%lift_res_ok & H).
  apply M_bind_ok in H as (digest & st & [Hg ->]%lift_res_ok & H).
  apply M_bind_ok in H as ([] & st & [Heq ->]%raise_if_ok & H).
  apply negb_false_iff, py_eqb_str_l in Heq as ->.
  apply M_bind_ok in H as (s0 & st & [= <- <-] & H). exists digest. split; [done|].
  destruct (registry_get (rc_registry s) k) as [existing|] eqn:Hex.
  - apply M_bind_ok in H as (local & st & [Hl ->]%lift_res_ok & H). apply mret_M_ok in H as [-> ->].
    cbn [snd]. destruct (py_eqb (PStr local) (PStr digest)) eqn:E; [left|right; exists local; by left].
    exists existing. split; [done|]. apply py_eqb_str_l in E. by injection E as ->.
  - apply M_bind_ok in H as ([] & st & [_ ->]%raise_if_ok & H).
    apply M_bind_ok in H as (m & st & [Hm ->]%lift_res_ok & H).
    apply M_bind_ok in H as (digest2 & st & [Hg2 ->]%lift_res_ok & H).
    apply M_bind_ok in H as (verified & st & [_ ->]%lift_res_ok & H).
    apply M_bind_ok in H as ([] & st & [_ ->]%raise_if_ok & H).
    apply M_bind_ok in H as ([] & st & Hreg & H). apply mret_M_ok in H as [-> ->].
    apply manifest_from_dict_policy in Hm. rewrite Hp in Hm. injection Hm as ->.
    apply stable_entry_true in Hst as (p & Hpol & Hid). rewrite Hpol in Hp.
    pose proof (policy_from_dict_id _ _ _ Hp Hid) as Hk.
    unfold in_registry, zoom in Hreg.
    destruct (registry_register_signed m (Some trust) (rc_registry s)) as [y r'] eqn:Hr.
    injection Hreg as -> <-. cbn [rc_registry]. left. exists (pm_policy m).
    rewrite <-Hk in Hex |- *. split; [by eapply register_signed_get|done].
Qed.

Lemma entry_settled_mono digests k r r' conflicts more :
  registry_extends r r' → entry_settled digests k r conflicts →
  entry_settled digests k r' (conflicts ++ more).
Proof.
  intros [He _] (d & Hd & H). exists d. split; [done|]. destruct H as [(p & Hp & Hg)|(l & Hl)].
  - left. destruct (He k p Hp) as (p' & Hp' & Hg'). exists p'. split; [done|congruence].
  - right. exists l. apply elem_of_app. by left.
Qed.

Lemma reconcile_entries_ok trust digests policies s x s' :
  registry_inv (rc_registry s) → Forall (λ kv, stable_entry kv = Ok true) policies →
  reconcile_entries trust digests policies s = (Ok x, s') →
  Forall (λ kv, entry_settled digests kv.1 (rc_registry s') x.2) policies.
Proof.
  intros Hi Hst. revert s x Hi. induction Hst as [|[k entry] policies Hk Hst IH]; intros s x Hi H; [constructor|].
  cbn [reconcile_entries] in H. apply M_bind_ok in H as (one & s1 & H1 & H).
  apply M_bind_ok in H as (rest & s2 & H2 & H). apply mret_M_ok in H as [-> ->].
  destruct (reconcile_entry_syncs trust digests (k, entry) s Hi) as [He1 _]. rewrite H1 in He1.
  pose proof (sy_inv _ _ _ He1) as Hi1.
  destruct (reconcile_entries_syncs trust digests policies s1 Hi1) as [He2 _]. rewrite H2 in He2.
  cbn [snd] in *. constructor; cbn [fst snd].
  - apply (entry_settled_mono _ _ (rc_registry s1)); [by destruct He2|]. by eapply reconcile_entry_ok.
  - eapply Forall_impl; [by eapply (IH s1 rest)|]. intros [k' e'] (d & Hd & H). exists d. split; [done|].
    destruct H as [H|(l & Hl)]; [by left|]. right. exists l. apply elem_of_app. by right.
Qed.

(** ** Reconciliation *)

Lemma M_bind_step {T A B} (m : M T A) (f : A → M T B) (s : T) x (s1 : T) :
  m s = (Ok x, s1) → (m ≫= f) s = f x s1.
Proof. unfold mbind, M_bind. by intros ->. Qed.

(** An envelope that passes the checks consumes its nonce, whatever follows. *)
Lemma reconcile_accepted K trust now v s :
  registry_inv (rc_registry s) → reconcile_accepts K trust now v (rc_seen s) = Ok tt →
  sync_effect trust (rc_registry s) (rc_registry (reconcile K trust now v s).2) ∧
  rc_seen (reconcile K trust now v s).2 = rc_seen s ∪ {[replay_key v]}.
Proof.
  intros Hi Ha. unfold reconcile. rewrite (M_bind_step get_state _ s s s eq_refl).
  assert (lift_res (reconcile_accepts K trust now v (rc_seen s)) s = (Ok tt, s)) as Hl
    by (unfold lift_res; by rewrite Ha).
  rewrite (M_bind_step _ _ _ _ _ Hl), (M_bind_step (modify (consume_nonce v)) _ s tt (consume_nonce v s) eq_refl).
  match goal with |- context [?m (consume_nonce v s)] => assert (syncs trust m) as Hm end.
  { repeat first [apply reconcile_entries_syncs | syncs_step]. by apply registry_save_effect. }
  destruct (Hm (consume_nonce v s) Hi) as [He Hs]. split; [exact He|exact Hs].
Qed.

Lemma reconcile_seen K trust now v s :
  registry_inv (rc_registry s) →
  registry_inv (rc_registry (reconcile K trust now v s).2) ∧
  rc_seen s ⊆ rc_seen (reconcile K trust now v s).2.
Proof.
  intros Hi. destruct (reconcile_accepts K trust now v (rc_seen s)) as [[]|e] eqn:Ha.
  - destruct (reconcile_accepted K trust now v s Hi Ha) as [[Hi' _ _] ->]. split; [done|set_solver].
  - by rewrite (reconcile_refused _ _ _ _ _ _ Ha).
Qed.

(** What a status tells about the snapshot's policies. *)
Lemma reconcile_ok K trust now v s x s' :
  registry_inv (rc_registry s) → Forall (λ kv, stable_entry kv = Ok true) (rs_policies (env_snapshot v)) →
  reconcile K trust now v s = (Ok x, s') →
  reconcile_accepts K trust now v (rc_seen s) = Ok tt ∧
  (rr_status x = "identical" ∧ rc_registry s' = rc_registry s ∨
   rr_status x = "adopted" ∧ rr_conflicts x = [] ∨ rr_status x = "conflict" ∧ rr_conflicts x ≠ []) ∧
  (rr_status x ≠ "identical" →
   Forall (λ kv, entry_settled (rs_policy_digests (env_snapshot v)) kv.1 (rc_registry s') (rr_conflicts x))
     (rs_policies (env_snapshot v))).
Proof.
  intros Hi Hst H. unfold reconcile in H.
  apply M_bind_ok in H as (s0 & st & [= <- <-] & H).
  apply M_bind_ok in H as ([] & st & [Ha ->]%lift_res_ok & H). split; [done|].
  apply M_bind_ok in H as ([] & st & [= <-] & H).
  apply M_bind_ok in H as (local & st & [_ ->]%lift_res_ok & H).
  destruct (py_eqb _ _).
  { apply mret_M_ok in H as [-> ->]. split; [by left|done]. }
  apply M_bind_ok in H as ([imports conflicts] & s1 & Hent & H).
  pose proof (reconcile_entries_ok _ _ _ (consume_nonce v s) _ _ Hi Hst Hent) as Hset. cbn [snd] in Hset.
  destruct (reconcile_entries_syncs trust (rs_policy_digests (env_snapshot v)) (rs_policies (env_snapshot v))
    (consume_nonce v s) Hi) as [[Hi1 _ _] _]. rewrite Hent in Hi1. cbn [snd] in Hi1.
  destruct conflicts as [|c conflicts].
  - apply M_bind_ok in H as ([] & s2 & Hsave & H). apply mret_M_ok in H as [-> ->]. cbn [rr_status rr_conflicts].
    split; [right; by left|]. intros _. eapply Forall_impl; [exact Hset|].
    intros kv Hkv. rewrite <-(app_nil_r []). apply (entry_settled_mono _ _ (rc_registry s1)); [|exact Hkv].
    destruct (syncs_registry trust registry_save (registry_save_effect trust) s1 Hi1) as [[_ He _] _].
    by rewrite Hsave in He.
  - apply mret_M_ok in H as [-> ->]. cbn [rr_status rr_conflicts]. split; [right; by right|]. by intros _.
Qed.
End FederationLemmas.

(** * Exported snapshots

    [from_registry] digests the content without the organization; [from_dict]
    recomputes the digest with it.  A snapshot that was exported is therefore
    rejected by the parser, unless the two texts collide. *)
Lemma append_cancel (a b c : string) : a +:+ b = a +:+ c → b = c.
Proof. induction a as [|x a IH]; [done|]. cbn. intros [= H]. auto. Qed.

Lemma content_text_differs (version policies digests org : pyval) :
  json_text canonical_style (PDict [("version", version); ("policies", policies); ("policy_digests", digests)]) ≠
  json_text canonical_style (PDict [("source_org", org); ("version", version); ("policies", policies);
                                    ("policy_digests", digests)]).
Proof.
  rewrite !json_text_dict.
  change (sort_by fst [("version", version); ("policies", policies); ("policy_digests", digests)])
    with [("policies", policies); ("policy_digests", digests); ("version", version)].
  change (sort_by fst [("source_org", org); ("version", version); ("policies", policies);
                       ("policy_digests", digests)])
    with [("policies", policies); ("policy_digests", digests); ("source_org", org); ("version", version)].
  cbn [map]. rewrite !join_cons2, !join_one, !string_app_assoc. intros H.
  do 5 apply append_cancel in H. unfold member_text, json_item in H. cbn in H. discriminate H.
Qed.

Lemma snapshot_export_rejected `{C : Crypto} (r : PolicyRegistry) (org : string) (version : pyval)
    (s : RegistrySnapshot) :
  snapshot_from_registry r org version = Ok s →
  collision_free [canonical_text (PDict (registry_content (rs_version s) (rs_policies s) (rs_policy_digests s)));
                  canonical_text (PDict (snapshot_unsigned_dict s))] →
  snapshot_from_dict (PDict (snapshot_to_dict s)) =
    Raise (federation_error "registry snapshot digest does not match contents").
Proof.
  intros H Hfree. unfold snapshot_from_registry in H.
  apply res_bind_ok in H as (entries & _ & H). apply res_bind_ok in H as (named & _ & H).
  apply res_bind_ok in H as (digests & _ & H). apply res_bind_ok in H as (digest & Hd & H).
  injection H as <-. unfold canonical_digest in Hd. apply res_bind_ok in Hd as (bytes & Hb & [= <-]).
  apply canonical_json_ok in Hb as [Hser ->].
  set (policies := assoc_update [] named) in *. set (ds := map (λ kv, (kv.1, PStr kv.2)) digests) in *.
  set (full := [("source_org", PStr org); ("version", version); ("policies", PDict (sort_by fst policies));
                ("policy_digests", PDict (sort_by fst ds))]).
  assert (canonical_digest (PDict full) = Ok (sha256_hex (json_text canonical_style (PDict full)))) as Hdig.
  { unfold canonical_digest, canonical_json, json_dumps.
    change (serializable (PDict full)) with (serializable (PDict (registry_content version policies ds))).
    by rewrite Hser. }
  assert (sha256_hex (json_text canonical_style (PDict full)) ≠
    sha256_hex (json_text canonical_style (PDict (registry_content version policies ds)))) as E.
  { intros E. apply (content_text_differs version (PDict (sort_by fst policies)) (PDict (sort_by fst ds)) (PStr org)).
    apply Hfree; [by left|by right; left|by symmetry]. }
  unfold snapshot_from_dict, snapshot_to_dict, snapshot_unsigned_dict.
  cbn [rs_source_org rs_version rs_policies rs_policy_digests rs_snapshot_digest app].
  set (d := ("source_org", PStr org) :: _).
  change (keys_equal d _) with true.
  change (dict_get "policies" d) with (PDict (sort_by fst policies)).
  change (dict_get "policy_digests" d) with (PDict (sort_by fst ds)).
  cbn [negb fail_if]. unfold mbind at 1, res_bind at 1.
  cbn [rs_source_org rs_version rs_policies rs_policy_digests rs_snapshot_digest].
  rewrite !sort_by_idemp. change (PDict [_; _; _; _]) with (PDict full). rewrite Hdig.
  unfold mbind at 1, res_bind at 1.
  change (dict_get "snapshot_digest" d) with
    (PStr (sha256_hex (json_text canonical_style (PDict (registry_content version policies ds))))).
  cbn [py_eqb]. by rewrite (proj2 (String.eqb_neq _ _) E).
Qed.

(** * Properties *)

(** C30. Reconciliation trusts nothing it did not verify.  When it returns, the
    envelope came from the key registered for its organization, alive in the
    trust store, was addressed to this organization, was fresh and unexpired,
    and event and envelope carry that key's signatures over the snapshot's
    organization and digest.  No local policy changed its digest or lowered
    its version, every policy that is new was signed by a live policy authority,
    and after ["adopted"] every policy of the snapshot is registered with the
    digest the snapshot states, while ["conflict"] names each one that is not. *)
Theorem reconcile_sound `{C : Crypto} (K : ReconcilerConfig) (trust : TrustStore) (now : Z)
    (v : GovernanceSyncEnvelope) (s s' : Reconciler) (x : ReconciliationResult) :
  registry_inv (rc_registry s) →
  Forall (λ kv, stable_entry kv = Ok true) (rs_policies (env_snapshot v)) →
  reconcile K trust now v s = (Ok x, s') →
  accepted K trust now v (rc_seen s) ∧ sync_effect trust (rc_registry s) (rc_registry s') ∧
  (rr_status x = "identical" ∧ rc_registry s' = rc_registry s ∨
   (rr_status x = "adopted" ∨ rr_status x = "conflict") ∧
   ∀ k entry, (k, entry) ∈ rs_policies (env_snapshot v) →
     ∃ d, assoc_get k (rs_policy_digests (env_snapshot v)) = Some (PStr d) ∧
       ((∃ p, registry_get (rc_registry s') k = Some p ∧ policy_digest p = Ok d) ∨
        rr_status x = "conflict" ∧ ∃ local,
          [("policy_id", PStr k); ("local_digest", PStr local); ("remote_digest", PStr d)] ∈ rr_conflicts x)).
Proof.
  intros Hi Hst H. destruct (reconcile_ok K trust now v s x s' Hi Hst H) as (Ha & Hstatus & Hset).
  destruct (reconcile_accepted K trust now v s Hi Ha) as [He _]. rewrite H in He.
  split; [by apply reconcile_accepts_ok|]. split; [done|].
  destruct Hstatus as [Hid|Hst']; [by left|right].
  assert (rr_status x ≠ "identical") as Hne by (destruct Hst' as [[-> _]|[-> _]]; done).
  split; [destruct Hst' as [[? _]|[? _]]; auto|]. intros k entry Hk.
  destruct (proj1 (Forall_forall _ _) (Hset Hne) _ Hk) as (d & Hd & Hset'). exists d. split; [done|].
  destruct Hset' as [Hp|[local Hl]]; [by left|right]. split; [|by exists local].
  destruct Hst' as [[_ E]|[E _]]; [|done]. rewrite E in Hl. by apply not_elem_of_nil in Hl.
Qed.

(** An organization "beta" that offers its policy to "alpha". *)
Definition beta_key : @KeyPair toy_crypto := {| kp_private_key := "k2"; kp_key_id := "issuer-2" |}.
Definition beta_digest : string := Eval vm_compute in
  match policy_digest conflicting_policy with Ok d => d | Raise _ => "" end.
Definition beta_snapshot : RegistrySnapshot :=
  {| rs_source_org := PStr "beta"; rs_version := PInt 1;
     rs_policies := [("deploy", PDict (manifest_to_dict signed_example))];
     rs_policy_digests := [("deploy", PStr beta_digest)]; rs_snapshot_digest := PStr "content-1" |}.
Definition beta_envelope : GovernanceSyncEnvelope := Eval vm_compute in
  match (e ← event_issue "policy_update" "beta" "alpha" "content-1" [("deploy", beta_digest)] "n-1" beta_key 1000;
         envelope_issue e beta_snapshot beta_key) with
  | Ok v => v
  | Raise _ => {| env_event := {| se_event_type := ""; se_source_org := ""; se_target_org := "";
      se_snapshot_digest := ""; se_policy_digests := []; se_issued_at := 0; se_nonce := "";
      se_signer_key_id := ""; se_signature := "" |}; env_snapshot := beta_snapshot; env_signature := "" |}
  end.
Definition alpha_config : ReconcilerConfig :=
  {| rc_local_org := "alpha"; rc_organization_keys := [("beta", "issuer-2")]; rc_max_event_age := 3600 |}.
Definition alpha_state : Reconciler := {| rc_registry := registry_empty; rc_seen := ∅ |}.

Lemma reconcile_sound_witness :
  let s' := (reconcile alpha_config trust_example 1010 beta_envelope alpha_state).2 in
  accepted alpha_config trust_example 1010 beta_envelope ∅ ∧
  sync_effect trust_example registry_empty (rc_registry s') ∧
  ∃ p, registry_get (rc_registry s') "deploy" = Some p ∧ policy_digest p = Ok beta_digest.
Proof.
  assert (reconcile alpha_config trust_example 1010 beta_envelope alpha_state =
    (Ok {| rr_status := "adopted"; rr_imported := ["deploy"]; rr_conflicts := [];
           rr_metadata := Some [("source_org", PStr "beta"); ("snapshot_digest", PStr "content-1")] |},
     (reconcile alpha_config trust_example 1010 beta_envelope alpha_state).2)) as H
    by (vm_compute; reflexivity).
  assert (Forall (λ kv, stable_entry kv = Ok true) (rs_policies (env_snapshot beta_envelope))) as Hst
    by (repeat constructor).
  destruct (reconcile_sound alpha_config trust_example 1010 beta_envelope alpha_state _ _
    registry_empty_inv Hst H) as (Ha & He & [[E _]|[_ Hp]]); [discriminate E|].
  split; [exact Ha|]. split; [exact He|].
  destruct (Hp "deploy" _ (list_elem_of_here _ _)) as (d & Hd & [Hk|[E _]]); [|discriminate E].
  injection Hd as <-. exact Hk.
Defined.

(** One reconciliation with its trust store and clock. *)
Record sync_call `{C : Crypto} := {
  sc_trust : TrustStore; sc_now : Z; sc_envelope : GovernanceSyncEnvelope }.

Definition sync_run `{C : Crypto} (K : ReconcilerConfig) (s : Reconciler) (c : sync_call) : Reconciler :=
  (reconcile K (sc_trust c) (sc_now c) (sc_envelope c) s).2.

Lemma sync_runs_seen `{C : Crypto} K calls s :
  registry_inv (rc_registry s) → rc_seen s ⊆ rc_seen (fold_left (sync_run K) calls s).
Proof.
  revert s. induction calls as [|c calls IH]; intros s Hi; [done|]. cbn [fold_left].
  destruct (reconcile_seen K (sc_trust c) (sc_now c) (sc_envelope c) s Hi) as [Hi' Hs].
  etransitivity; [exact Hs|]. by apply IH.
Qed.

(** A synchronization message takes effect at most once.  Once an envelope
    passed the checks, whether its reconciliation then succeeded or not, and
    whatever other envelopes came in between, any envelope of the same
    organization with the same nonce is refused and changes nothing. *)
Lemma reconcile_once `{C : Crypto} (K : ReconcilerConfig) (trust trust' : TrustStore) (now now' : Z)
    (v v' : GovernanceSyncEnvelope) (s : Reconciler) (between : list sync_call) :
  registry_inv (rc_registry s) →
  reconcile_accepts K trust now v (rc_seen s) = Ok tt → replay_key v' = replay_key v →
  let s2 := fold_left (sync_run K) between (reconcile K trust now v s).2 in
  ∃ e, reconcile K trust' now' v' s2 = (Raise e, s2).
Proof.
  intros Hi Ha Hk s2. destruct (reconcile_accepted K trust now v s Hi Ha) as [[Hi1 _ _] Hs1].
  pose proof (sync_runs_seen K between _ Hi1) as Hsub. fold s2 in Hsub. rewrite Hs1 in Hsub.
  destruct (reconcile_accepts K trust' now' v' (rc_seen s2)) as [[]|e] eqn:E.
  - apply reconcile_accepts_ok, acc_fresh in E. exfalso. apply E, Hsub. rewrite Hk. set_solver.
  - exists e. by apply reconcile_refused.
Qed.

Lemma reconcile_once_witness :
  let s2 := (reconcile alpha_config trust_example 1010 beta_envelope alpha_state).2 in
  ∃ e, reconcile alpha_config trust_example 1020 beta_envelope s2 = (Raise e, s2).
Proof.
  apply (reconcile_once alpha_config trust_example trust_example 1010 1020 beta_envelope beta_envelope
    alpha_state []); [exact registry_empty_inv| |exact eq_refl].
  vm_compute. reflexivity.
Defined.
