(* ===== verification/KeyLifecycle.v ===== *)
(** key_lifecycle.py: signing keys from ACTIVE through ROTATED to REVOKED,
    kept in step with the trust store.

    The manager owns its table and drives the trust store it was given; both
    are its state here.  The clock is an argument.  The file shows that as long
    as keys go through the manager, its table and the trust store agree. *)

From stdpp Require Import gmap.
From S2P Require Import Prelude PyFloat PyVal Json Sha256 Base64 Crypto Trust Orders Jobs.

Definition ACTIVE : string := "ACTIVE".
Definition ROTATED : string := "ROTATED".
Definition REVOKED : string := "REVOKED".

Record KeyRecord := {
  kr_key_id : string;
  kr_provider : string;
  kr_status : string;
  kr_created_at : spec_float;
  kr_revoked_at : option spec_float
}.

Section KeyLifecycle.
Context `{C : Crypto}.

Record KeyLifecycleManager := {
  km_trust : TrustStore;
  km_rows : list KeyRecord   (** the table [key_lifecycle], by [rowid] *)
}.

Definition in_trust {A} (m : M TrustStore A) : M KeyLifecycleManager A :=
  zoom km_trust (λ t s, {| km_trust := t; km_rows := km_rows s |}) m.

Definition set_rows (f : list KeyRecord → list KeyRecord) : M KeyLifecycleManager unit :=
  modify (λ s, {| km_trust := km_trust s; km_rows := f (km_rows s) |}).

Definition key_row (key_id : string) (rows : list KeyRecord) : option KeyRecord :=
  List.find (λ r, String.eqb (kr_key_id r) key_id) rows.

Definition key_get (key_id : string) : M KeyLifecycleManager KeyRecord :=
  s ← get_state;
  match key_row key_id (km_rows s) with
  | None => raise (KeyError ("unknown key: " +:+ key_id))
  | Some r => mret r
  end.

Definition new_key (key_id provider : string) (now : spec_float) : KeyRecord :=
  {| kr_key_id := key_id; kr_provider := provider; kr_status := ACTIVE; kr_created_at := now;
     kr_revoked_at := None |}.

(** [public_key] is the raw bytes; [now] is [time.time()]. *)
Definition key_register (key_id provider public_key : string) (now : spec_float)
    : M KeyLifecycleManager KeyRecord :=
  raise_if (String.eqb key_id "" || String.eqb provider "")
    (ValueError "key_id and provider are required") ;;
  s ← get_state;
  raise_if (match key_row key_id (km_rows s) with Some _ => true | None => false end)
    (ValueError ("key already registered: " +:+ key_id)) ;;
  key ← match from_public_bytes public_key with
        | Some k => mret k
        | None => raise (ValueError "An Ed25519 public key is 32 bytes long")
        end;
  in_trust (trust_add key_id key) ;;
  set_rows (λ rows, rows ++ [new_key key_id provider now]) ;;
  key_get key_id.

Definition with_status (key_id status : string) (revoked_at : option spec_float) (r : KeyRecord) : KeyRecord :=
  if String.eqb (kr_key_id r) key_id then
    {| kr_key_id := kr_key_id r; kr_provider := kr_provider r; kr_status := status;
       kr_created_at := kr_created_at r;
       kr_revoked_at := match revoked_at with Some t => Some t | None => kr_revoked_at r end |}
  else r.

Definition key_rotate (old_key_id new_key_id provider new_public_key : string) (now : spec_float)
    : M KeyLifecycleManager KeyRecord :=
  old ← key_get old_key_id;
  raise_if (negb (String.eqb (kr_status old) ACTIVE)) (ValueError "only an ACTIVE key can be rotated") ;;
  new ← key_register new_key_id provider new_public_key now;
  set_rows (map (with_status old_key_id ROTATED None)) ;;
  mret new.

Definition key_revoke (key_id : string) (now : spec_float) : M KeyLifecycleManager KeyRecord :=
  key_get key_id ;;
  in_trust (trust_revoke key_id) ;;
  set_rows (map (with_status key_id REVOKED (Some now))) ;;
  key_get key_id.

(** [ORDER BY created_at]; rows with equal times keep their order. *)
Definition trust_list (s : KeyLifecycleManager) : list KeyRecord :=
  sort_leb (λ r, float_rank (kr_created_at r)) rank_leb
    (List.filter (λ r, negb (String.eqb (kr_status r) REVOKED)) (km_rows s)).

(** [ORDER BY created_at DESC LIMIT 1] *)
Definition active_key (s : KeyLifecycleManager) : option KeyRecord :=
  head (sort_leb (λ r, float_rank (kr_created_at r)) (λ x y, rank_leb y x)
    (List.filter (λ r, String.eqb (kr_status r) ACTIVE) (km_rows s))).

Inductive key_call :=
| KeyRegister (key_id provider public_key : string) (now : spec_float)
| KeyRotate (old_key_id new_key_id provider public_key : string) (now : spec_float)
| KeyRevoke (key_id : string) (now : spec_float).

Definition key_run (s : KeyLifecycleManager) (c : key_call) : KeyLifecycleManager :=
  match c with
  | KeyRegister k p b now => (key_register k p b now s).2
  | KeyRotate o k p b now => (key_rotate o k p b now s).2
  | KeyRevoke k now => (key_revoke k now s).2
  end.

(** ** The state machine of one key *)

Inductive status_step : string → string → Prop :=
| StatusSame st : status_step st st
| StatusRotate : status_step ACTIVE ROTATED
| StatusRevoke st : status_step st REVOKED.

#[export] Instance status_step_refl : Reflexive status_step := StatusSame.

(** Every key of the table that is not revoked resolves, and a revoked one
    does not. *)
Record key_inv (s : KeyLifecycleManager) : Prop := {
  ki_trust : trust_inv (km_trust s);
  ki_ids : NoDup (map kr_key_id (km_rows s));
  ki_agree : ∀ r, r ∈ km_rows s →
    kr_status r ∈ [ACTIVE; ROTATED; REVOKED] ∧
    (kr_status r = REVOKED ↔ trust_resolve (km_trust s) (kr_key_id r) = None)
}.

(** Rows are only added, and statuses only move forward. *)
Definition rows_forward (rows rows' : list KeyRecord) : Prop :=
  ∀ r, r ∈ rows → ∃ r', r' ∈ rows' ∧ kr_key_id r' = kr_key_id r ∧ status_step (kr_status r) (kr_status r').

Lemma key_row_Some k rows r : key_row k rows = Some r → r ∈ rows ∧ kr_key_id r = k.
Proof. intros [H E]%find_some. split; [by apply list_elem_of_In|by apply String.eqb_eq]. Qed.

Lemma key_row_None k rows r : key_row k rows = None → r ∈ rows → kr_key_id r ≠ k.
Proof. intros H Hr%list_elem_of_In E. pose proof (find_none _ _ H r Hr) as E'. apply String.eqb_neq in E'. done. Qed.

Lemma key_row_elem rows r : NoDup (map kr_key_id rows) → r ∈ rows → key_row (kr_key_id r) rows = Some r.
Proof.
  unfold key_row. induction rows as [|q rows IH]; [by intros _ ?%not_elem_of_nil|].
  cbn [map find]. intros [Hq Hn]%NoDup_cons [->|Hr]%elem_of_cons; [by rewrite String.eqb_refl|].
  destruct (String.eqb_spec (kr_key_id q) (kr_key_id r)) as [E|]; [|by apply IH].
  contradict Hq. rewrite E. by apply (list_elem_of_fmap_2 kr_key_id).
Qed.

Lemma key_get_state k s : (key_get k s).2 = s.
Proof. unfold key_get, mbind, M_bind, get_state, raise, mret, M_ret. by destruct (key_row _ _). Qed.

Lemma trust_resolve_added k pk t t' j :
  trust_add k pk t = (Ok tt, t') →
  trust_resolve t' j = if String.eqb j k then Some pk else trust_resolve t j.
Proof.
  intros (_ & _ & H)%trust_add_ok. rewrite trust_save_spec in H. injection H as <-.
  unfold trust_resolve, trust_saved, trust_added. cbn [ts_revoked ts_keys].
  destruct (String.eqb_spec j k) as [->|Hne].
  - rewrite bool_decide_eq_false_2 by set_solver. by rewrite assoc_get_set_eq.
  - rewrite assoc_get_set_ne by congruence. f_equal. by rewrite (bool_decide_ext _ (j ∈ ts_revoked t)) by set_solver.
Qed.

Lemma trust_resolve_after_revoke k t t' j :
  trust_revoke k t = (Ok tt, t') →
  trust_resolve t' j = if String.eqb j k then None else trust_resolve t j.
Proof.
  intros (_ & H)%trust_revoke_ok. rewrite trust_save_spec in H. injection H as <-.
  unfold trust_resolve, trust_saved, trust_revoked. cbn [ts_revoked ts_keys].
  destruct (String.eqb_spec j k) as [->|Hne].
  - by rewrite bool_decide_eq_true_2 by set_solver.
  - f_equal. by rewrite (bool_decide_ext _ (j ∈ ts_revoked t)) by set_solver.
Qed.

(** A call of the trust store that raises leaves it as it was. *)
Lemma trust_add_cases k pk t : (∃ e, trust_add k pk t = (Raise e, t)) ∨ ∃ t', trust_add k pk t = (Ok tt, t').
Proof.
  unfold trust_add, mbind, M_bind, get_state, raise_if, put_state.
  destruct (String.eqb k ""); [left; eauto|]. destruct (_ && _); [left; eauto|]. right.
  rewrite trust_save_spec. eauto.
Qed.

Lemma trust_revoke_cases k t : (∃ e, trust_revoke k t = (Raise e, t)) ∨ ∃ t', trust_revoke k t = (Ok tt, t').
Proof.
  unfold trust_revoke, mbind, M_bind, get_state, raise_if, put_state.
  destruct (negb _); [left; eauto|]. right. rewrite trust_save_spec. eauto.
Qed.

Lemma with_status_id k st at' r : kr_key_id (with_status k st at' r) = kr_key_id r.
Proof. unfold with_status. by destruct (String.eqb _ _). Qed.

(** ** What a registration does *)

Lemma key_register_cases k p b now s :
  (∃ e, key_register k p b now s = (Raise e, s)) ∨
  ∃ pk t', from_public_bytes b = Some pk ∧ trust_add k pk (km_trust s) = (Ok tt, t') ∧
    key_row k (km_rows s) = None ∧
    key_register k p b now s =
      (Ok (new_key k p now), {| km_trust := t'; km_rows := km_rows s ++ [new_key k p now] |}).
Proof.
  unfold key_register, mbind, M_bind, raise_if, get_state.
  destruct (String.eqb k "" || String.eqb p ""); [left; eauto|].
  destruct (key_row k (km_rows s)) as [r|] eqn:Hr; [left; eauto|].
  destruct (from_public_bytes b) as [pk|]; [|left; eauto]. unfold mret, M_ret, in_trust, zoom.
  destruct (trust_add_cases k pk (km_trust s)) as [[e ->]|[t' Ht]].
  { left. exists e. by destruct s. }
  right. exists pk, t'. split_and!; [done|done|done|]. rewrite Ht. unfold set_rows, modify, key_get.
  unfold mbind, M_bind, get_state. cbn [km_trust km_rows].
  assert (key_row k (km_rows s ++ [new_key k p now]) = Some (new_key k p now)) as ->; [|done].
  unfold key_row in *. clear -Hr. induction (km_rows s) as [|r rows IH]; simpl in *.
  - by rewrite String.eqb_refl.
  - destruct (String.eqb (kr_key_id r) k); [done|auto].
Qed.

Lemma key_register_inv k p b now s :
  key_inv s → key_inv (key_register k p b now s).2 ∧
  rows_forward (km_rows s) (km_rows (key_register k p b now s).2).
Proof.
  intros Hi. destruct (key_register_cases k p b now s) as [[e ->]|(pk & t' & _ & Ht & Hn & ->)].
  { split; [done|]. intros r Hr. exists r. done. }
  cbn [snd km_rows]. destruct Hi as [Hti Hid Ha]. split.
  - split; cbn [km_trust km_rows].
    + eapply trust_ops_inv; [exact Hti|]. left. exact Ht.
    + rewrite map_app. apply NoDup_snoc; [done|]. intros (r & E & Hr)%list_elem_of_fmap.
      by apply (key_row_None _ _ _ Hn Hr).
    + intros r [Hr|E%list_elem_of_singleton]%elem_of_app.
      * destruct (Ha r Hr) as [H1 H2]. split; [done|]. rewrite (trust_resolve_added _ _ _ _ _ Ht).
        pose proof (key_row_None _ _ _ Hn Hr) as Hne. by rewrite (proj2 (String.eqb_neq _ _) Hne).
      * subst r. cbn. split; [set_solver|]. rewrite (trust_resolve_added _ _ _ _ _ Ht), String.eqb_refl. done.
  - intros r Hr. exists r. split; [apply elem_of_app; by left|]. done.
Qed.

Lemma key_update_inv k st at' s t' :
  key_inv s → trust_inv t' → st ∈ [ROTATED; REVOKED] →
  (∀ j, trust_resolve t' j = if String.eqb j k && String.eqb st REVOKED then None
                             else trust_resolve (km_trust s) j) →
  (∀ r, key_row k (km_rows s) = Some r → st = ROTATED → kr_status r = ACTIVE) →
  let s' := {| km_trust := t'; km_rows := map (with_status k st at') (km_rows s) |} in
  key_inv s' ∧ rows_forward (km_rows s) (km_rows s').
Proof.
  intros [Hti Hid Ha] Ht Hst Hres Hact. split.
  - split; cbn [km_trust km_rows]; [done| |].
    + rewrite List.map_map. by rewrite (map_ext _ kr_key_id) by apply with_status_id.
    + intros r (q & -> & Hq)%list_elem_of_fmap. rewrite with_status_id, Hres.
      destruct (Ha q Hq) as [H1 H2]. unfold with_status.
      destruct (String.eqb_spec (kr_key_id q) k) as [Hk|Hne]; cbn [kr_status andb]; [|done].
      assert (st = ROTATED ∨ st = REVOKED) as [-> | ->] by set_solver.
      * split; [set_solver|]. cbn. split; [done|]. rewrite <-H2. intros E.
        enough (kr_status q = ACTIVE) as E' by (rewrite E in E'; done).
        apply Hact; [|done]. subst k. by apply key_row_elem.
      * split; [set_solver|done].
  - intros r Hr. exists (with_status k st at' r). split; [by apply list_elem_of_fmap_2|].
    split; [apply with_status_id|]. unfold with_status.
    destruct (String.eqb_spec (kr_key_id r) k) as [Hk|]; [|done]. cbn.
    assert (st = ROTATED ∨ st = REVOKED) as [-> | ->] by set_solver; [|constructor].
    assert (kr_status r = ACTIVE) as ->; [|constructor].
    apply Hact; [|done]. subst k. by apply key_row_elem.
Qed.

Lemma rows_forward_refl rows : rows_forward rows rows.
Proof. intros r Hr. by exists r. Qed.

Lemma status_step_trans a b c : status_step a b → status_step b c → status_step a c.
Proof. intros H1 H2. destruct H2; [done| |constructor]. inversion H1; subst; constructor. Qed.

Lemma rows_forward_trans rows1 rows2 rows3 :
  rows_forward rows1 rows2 → rows_forward rows2 rows3 → rows_forward rows1 rows3.
Proof.
  intros H1 H2 r Hr. destruct (H1 r Hr) as (r2 & Hr2 & E2 & S2). destruct (H2 r2 Hr2) as (r3 & Hr3 & E3 & S3).
  exists r3. split; [done|]. split; [congruence|]. by eapply status_step_trans.
Qed.

Lemma key_get_cases k s :
  (key_row k (km_rows s) = None ∧ ∃ e, key_get k s = (Raise e, s)) ∨
  ∃ r, key_row k (km_rows s) = Some r ∧ key_get k s = (Ok r, s).
Proof.
  unfold key_get, mbind, M_bind, get_state, raise, mret, M_ret. destruct (key_row k (km_rows s)); eauto.
Qed.

(** A rotation that succeeds registers the new key and rotates the old one. *)
Lemma key_rotate_inv o k p b now s :
  key_inv s → key_inv (key_rotate o k p b now s).2 ∧
  rows_forward (km_rows s) (km_rows (key_rotate o k p b now s).2).
Proof.
  intros Hi. unfold key_rotate, mbind, M_bind, raise_if, set_rows, modify, mret, M_ret.
  destruct (key_get_cases o s) as [[_ [e ->]]|(r & Hr & ->)]; [by split; [|apply rows_forward_refl]|].
  destruct (String.eqb_spec (kr_status r) ACTIVE) as [Hact|]; [|by split; [|apply rows_forward_refl]].
  cbn [negb]. destruct (key_register_inv k p b now s Hi) as [Hi1 Hf1].
  destruct (key_register_cases k p b now s) as [[e E]|(pk & t' & _ & Ht & Hn & E)]; rewrite E in *;
    [by split; [|apply rows_forward_refl]|].
  cbn [snd] in *. eapply key_update_inv with (k := o) (st := ROTATED) (at' := None) in Hi1 as [Hi2 Hf2].
  - split; [exact Hi2|]. by eapply rows_forward_trans.
  - apply Hi1.
  - set_solver.
  - intros j. cbn. by rewrite andb_false_r.
  - intros q Hq _. cbn [km_rows] in Hq. pose proof (key_row_Some _ _ _ Hr) as [Hin Hid].
    pose proof (key_row_elem _ r (ki_ids _ Hi1)) as Hrow. cbn [km_rows] in Hrow.
    rewrite Hid in Hrow. rewrite Hrow in Hq; [by injection Hq as <-|]. apply elem_of_app. by left.
Qed.

Lemma key_revoke_inv k now s :
  key_inv s → key_inv (key_revoke k now s).2 ∧ rows_forward (km_rows s) (km_rows (key_revoke k now s).2).
Proof.
  intros Hi. unfold key_revoke, mbind, M_bind, in_trust, zoom, set_rows, modify.
  destruct (key_get_cases k s) as [[_ [e ->]]|(r & Hr & ->)]; [by split; [|apply rows_forward_refl]|].
  destruct (trust_revoke_cases k (km_trust s)) as [[e ->]|[t' Ht]].
  { destruct s. by split; [|apply rows_forward_refl]. }
  rewrite Ht, key_get_state. cbn [km_trust km_rows]. apply key_update_inv.
  - done.
  - destruct (trust_revoke_ok _ _ _ Ht) as [Hk Hs]. eapply trust_save_inv; [|exact Hs].
    apply trust_revoked_inv; [done|apply Hi].
  - set_solver.
  - intros j. rewrite (trust_resolve_after_revoke _ _ _ _ Ht). by rewrite andb_true_r.
  - done.
Qed.

Lemma key_run_inv s c :
  key_inv s → key_inv (key_run s c) ∧ rows_forward (km_rows s) (km_rows (key_run s c)).
Proof.
  destruct c; cbn [key_run]; [apply key_register_inv|apply key_rotate_inv|apply key_revoke_inv].
Qed.

Lemma key_runs_inv calls s :
  key_inv s → key_inv (fold_left key_run calls s) ∧
  rows_forward (km_rows s) (km_rows (fold_left key_run calls s)).
Proof.
  revert s. induction calls as [|c calls IH]; intros s Hi; [by split; [|apply rows_forward_refl]|].
  cbn [fold_left]. destruct (key_run_inv s c Hi) as [Hi1 Hf1]. destruct (IH _ Hi1) as [Hi2 Hf2].
  split; [done|]. by eapply rows_forward_trans.
Qed.
End KeyLifecycle.

(** * Properties *)

(** C31. The key table and the trust store agree.  While keys go through the
    manager, whatever calls succeed or fail, a key of the table verifies
    signatures exactly when it is not REVOKED; every key of [trust_list] and
    the [active_key] are live; a status only moves from ACTIVE to ROTATED and
    from either to REVOKED; and a revoked key never verifies again. *)
Theorem key_lifecycle_trust `{C : Crypto} (s : KeyLifecycleManager) (before after : list key_call)
    (r : KeyRecord) :
  key_inv s →
  let s1 := fold_left key_run before s in
  let s2 := fold_left key_run after s1 in
  r ∈ km_rows s1 →
  kr_status r ∈ [ACTIVE; ROTATED; REVOKED] ∧
  (kr_status r = REVOKED ↔ trust_resolve (km_trust s1) (kr_key_id r) = None) ∧
  (∀ q, q ∈ trust_list s1 ∨ active_key s1 = Some q → is_Some (trust_resolve (km_trust s1) (kr_key_id q))) ∧
  ∃ r', r' ∈ km_rows s2 ∧ kr_key_id r' = kr_key_id r ∧ status_step (kr_status r) (kr_status r') ∧
    (kr_status r = REVOKED → trust_resolve (km_trust s2) (kr_key_id r) = None).
Proof.
  intros Hi s1 s2 Hr. destruct (key_runs_inv before s Hi) as [Hi1 _]. fold s1 in Hi1.
  destruct (key_runs_inv after s1 Hi1) as [Hi2 Hf]. fold s2 in Hi2, Hf.
  destruct (ki_agree _ Hi1 r Hr) as [H1 H2]. split; [done|]. split; [done|]. split.
  - intros q Hq. assert (q ∈ km_rows s1 ∧ kr_status q ≠ REVOKED) as [Hin Hne].
    { destruct Hq as [Hq|Hq].
      - unfold trust_list in Hq. rewrite sort_leb_perm in Hq. apply list_elem_of_In, filter_In in Hq as [Hq E].
        split; [by apply list_elem_of_In|]. by apply negb_true_iff, String.eqb_neq in E.
      - apply sort_leb_head_elem in Hq. apply list_elem_of_In, filter_In in Hq as [Hq E].
        split; [by apply list_elem_of_In|]. apply String.eqb_eq in E as ->. done. }
    destruct (ki_agree _ Hi1 q Hin) as [_ Hq2]. apply not_eq_None_Some. intros E. by apply Hne, Hq2.
  - destruct (Hf r Hr) as (r' & Hr' & Hid & Hst). exists r'. split_and!; [done|done|done|].
    intros E. rewrite E in Hst. rewrite <-Hid. apply (ki_agree _ Hi2 r' Hr'). by inversion Hst.
Qed.

Definition keys_empty : @KeyLifecycleManager toy_crypto :=
  {| km_trust := {| ts_path := false; ts_keys := []; ts_revoked := ∅; ts_file := None |}; km_rows := [] |}.

Lemma keys_empty_inv : key_inv keys_empty.
Proof.
  split; [split; cbn; [constructor|constructor|set_solver]|constructor|].
  intros r Hr. by apply not_elem_of_nil in Hr.
Qed.

Definition example_rotation : list key_call :=
  [KeyRegister "key-1" "local" "k1" (time_at 10); KeyRotate "key-1" "key-2" "local" "k2" (time_at 20);
   KeyRevoke "key-1" (time_at 30)].

Definition rotated_out : KeyRecord :=
  {| kr_key_id := "key-1"; kr_provider := "local"; kr_status := REVOKED; kr_created_at := time_at 10;
     kr_revoked_at := Some (time_at 30) |}.

(** A revoked key that is offered for registration again stays out. *)
Lemma key_lifecycle_trust_witness :
  let s1 := fold_left key_run example_rotation keys_empty in
  let s2 := fold_left key_run [KeyRegister "key-1" "local" "k1" (time_at 40)] s1 in
  rotated_out ∈ km_rows s1 ∧ active_key s1 = Some (new_key "key-2" "local" (time_at 20)) ∧
  is_Some (trust_resolve (km_trust s1) "key-2") ∧ trust_resolve (km_trust s2) "key-1" = None.
Proof.
  assert (rotated_out ∈ km_rows (fold_left key_run example_rotation keys_empty)) as Hin
    by (vm_compute; left).
  destruct (key_lifecycle_trust keys_empty example_rotation [KeyRegister "key-1" "local" "k1" (time_at 40)]
    rotated_out keys_empty_inv Hin) as (_ & _ & Hlive & r' & _ & _ & _ & Hdead).
  split; [exact Hin|].
  assert (active_key (fold_left key_run example_rotation keys_empty) =
    Some (new_key "key-2" "local" (time_at 20))) as Ha by (vm_compute; reflexivity).
  split; [exact Ha|]. split; [exact (Hlive _ (or_intror Ha))|exact (Hdead eq_refl)].
Defined.
