(* ===== verification/OperatorAuth.v ===== *)
(** operator_auth.py: API credentials of operators, stored as token hashes.

    The table is the list of its rows.  Identifiers, secrets and times are
    arguments.  The file shows that a token authenticates exactly while it is
    issued and its key is not revoked. *)

From S2P Require Import Prelude PyFloat PyVal Json Sha256 Base64 Crypto Models Rbac Orders SemVer PyText Jobs.

Record OperatorAPIKey := {
  ok_key_id : string;
  ok_operator_id : string;
  ok_token_hash : string;
  ok_created_at : string;
  ok_revoked : bool
}.

Definition public_dict (k : OperatorAPIKey) : pydict :=
  [("key_id", PStr (ok_key_id k)); ("operator_id", PStr (ok_operator_id k));
   ("created_at", PStr (ok_created_at k)); ("revoked", PBool (ok_revoked k))].

(** [c.isprintable()] of a character outside ASCII *)
Class PrintableData := { uni_printable : string → bool }.

Section OperatorAuth.
Context `{U : UnicodeData} `{P : PrintableData}.

Definition char_printable (c : string) : bool :=
  match c with
  | String a "" =>
      let n := N_of_ascii a in
      if (n <? 128)%N then ascii_between 32 126 n else uni_printable c
  | _ => uni_printable c
  end.

Definition operator_text (operator_id : pyval) : res string :=
  let invalid := ValueError "operator_id must contain 1-256 printable characters" in
  match operator_id with
  | PStr s =>
      let cs := strip_chars s in
      fail_if ((length cs =? 0)%nat || (256 <? length cs)%nat || negb (forallb char_printable cs)) invalid ;;
      Ok (join "" cs)
  | _ => Raise invalid
  end.

Definition operator_row (key_id : string) (rows : list OperatorAPIKey) : option OperatorAPIKey :=
  List.find (λ r, String.eqb (ok_key_id r) key_id) rows.

Definition make_token (key_id secret : string) : string := "gasop_" +:+ key_id +:+ "." +:+ secret.

(** [create]; [key_id] is [uuid.uuid4().hex], [secret] is [secrets.token_urlsafe(32)]. *)
Definition operator_create (operator_id : pyval) (key_id secret created_at : string)
    : M (list OperatorAPIKey) pydict :=
  operator_id ← lift_res (operator_text operator_id);
  let token := make_token key_id secret in
  raise_if (negb (ascii_str token)) (ValueError "'ascii' codec can't encode character") ;;
  rows ← get_state;
  raise_if (match operator_row key_id rows with Some _ => true | None => false end)
    (IntegrityError "UNIQUE constraint failed: operator_api_keys.key_id") ;;
  put_state (rows ++ [{| ok_key_id := key_id; ok_operator_id := operator_id;
                         ok_token_hash := sha256_hex token; ok_created_at := created_at;
                         ok_revoked := false |}]) ;;
  mret [("key_id", PStr key_id); ("operator_id", PStr operator_id); ("token", PStr token)].
End OperatorAuth.

(** [s.split(".", 1)] into two parts *)
Fixpoint split_dot (s : string) : option (string * string) :=
  match s with
  | EmptyString => None
  | String c r =>
      if Ascii.eqb c "." then Some ("", r)
      else match split_dot r with Some (a, b) => Some (String c a, b) | None => None end
  end.

Definition authenticate (token : pyval) (rows : list OperatorAPIKey) : option OperatorAPIKey :=
  match token with
  | PStr t =>
      if negb (String.prefix "gasop_" t) then None else
      match split_dot (String.substring 6 (String.length t - 6) t) with
      | None => None
      | Some (key_id, secret) =>
          if negb (ascii_str t) || String.eqb key_id "" || String.eqb secret "" then None else
          match operator_row key_id rows with
          | None => None
          | Some r =>
              if ok_revoked r || negb (String.eqb (sha256_hex t) (ok_token_hash r)) then None
              else Some {| ok_key_id := key_id; ok_operator_id := ok_operator_id r;
                           ok_token_hash := ok_token_hash r; ok_created_at := ok_created_at r;
                           ok_revoked := ok_revoked r |}
          end
      end
  | _ => None
  end.

Definition set_revoked (key_id : string) (r : OperatorAPIKey) : OperatorAPIKey :=
  if String.eqb (ok_key_id r) key_id then
    {| ok_key_id := ok_key_id r; ok_operator_id := ok_operator_id r; ok_token_hash := ok_token_hash r;
       ok_created_at := ok_created_at r; ok_revoked := true |}
  else r.

Definition operator_revoke (key_id : string) : M (list OperatorAPIKey) unit :=
  rows ← get_state;
  match operator_row key_id rows with
  | None => raise (KeyError ("unknown operator key: " +:+ key_id))
  | Some r =>
      raise_if (ok_revoked r) (ValueError ("operator key is already revoked: " +:+ key_id)) ;;
      put_state (map (set_revoked key_id) rows)
  end.

(** [list_keys] *)
Definition list_keys (rows : list OperatorAPIKey) : list pydict :=
  map public_dict (sort_by ok_key_id rows).

(** * Histories *)

Inductive operator_call :=
| OpCreate (operator_id : pyval) (key_id secret created_at : string)
| OpRevoke (key_id : string).

(** The table and the tokens handed out, each with its key. *)
Record operator_history := { oh_rows : list OperatorAPIKey; oh_issued : list (string * string) }.

Section Histories.
Context `{U : UnicodeData} `{P : PrintableData}.

Definition operator_run (h : operator_history) (c : operator_call) : operator_history :=
  match c with
  | OpCreate operator_id key_id secret created_at =>
      let '(r, rows) := operator_create operator_id key_id secret created_at (oh_rows h) in
      {| oh_rows := rows;
         oh_issued := match r with Ok _ => oh_issued h ++ [(key_id, make_token key_id secret)]
                                 | Raise _ => oh_issued h end |}
  | OpRevoke key_id => {| oh_rows := (operator_revoke key_id (oh_rows h)).2; oh_issued := oh_issued h |}
  end.

Lemma operator_row_Some k rows r : operator_row k rows = Some r → r ∈ rows ∧ ok_key_id r = k.
Proof. intros [H E]%find_some. split; [by apply list_elem_of_In|by apply String.eqb_eq]. Qed.

Lemma operator_row_app k rows r :
  operator_row k (rows ++ [r]) =
  match operator_row k rows with Some q => Some q | None => if String.eqb (ok_key_id r) k then Some r else None end.
Proof.
  unfold operator_row. induction rows as [|q rows IH]; cbn [app find]; [done|].
  by destruct (String.eqb (ok_key_id q) k).
Qed.

Lemma operator_row_revoked k j rows :
  operator_row j (map (set_revoked k) rows) = set_revoked k <$> operator_row j rows.
Proof.
  unfold operator_row. induction rows as [|q rows IH]; simpl; [done|].
  assert (ok_key_id (set_revoked k q) = ok_key_id q) as ->
    by (unfold set_revoked; by destruct (String.eqb _ _)).
  by destruct (String.eqb (ok_key_id q) j).
Qed.

Lemma operator_create_cases operator_id key_id secret created_at rows :
  (∃ e, operator_create operator_id key_id secret created_at rows = (Raise e, rows)) ∨
  ∃ name d, operator_text operator_id = Ok name ∧ operator_row key_id rows = None ∧
    ascii_str (make_token key_id secret) = true ∧
    operator_create operator_id key_id secret created_at rows =
      (Ok d, rows ++ [{| ok_key_id := key_id; ok_operator_id := name;
                         ok_token_hash := sha256_hex (make_token key_id secret);
                         ok_created_at := created_at; ok_revoked := false |}]).
Proof.
  unfold operator_create, mbind, M_bind, lift_res, raise_if, get_state, put_state, mret, M_ret. cbv zeta.
  destruct (operator_text operator_id) as [name|e]; [|left; eauto].
  destruct (ascii_str _) eqn:Ha; [|left; eauto]. cbn [negb].
  destruct (operator_row key_id rows) eqn:Hr; [left; eauto|]. right. eexists name, _. done.
Qed.

Lemma operator_revoke_cases key_id rows :
  (∃ e, operator_revoke key_id rows = (Raise e, rows)) ∨
  operator_revoke key_id rows = (Ok tt, map (set_revoked key_id) rows).
Proof.
  unfold operator_revoke, mbind, M_bind, get_state, raise_if, raise, put_state.
  destruct (operator_row key_id rows) as [r|]; [|left; eauto]. destruct (ok_revoked r); [left; eauto|by right].
Qed.

(** Every row has its one token, and every token its row. *)
Record operator_inv (h : operator_history) : Prop := {
  oi_row : ∀ k r, operator_row k (oh_rows h) = Some r →
    ∃ t, (k, t) ∈ oh_issued h ∧ ok_token_hash r = sha256_hex t;
  oi_issued : ∀ k t, (k, t) ∈ oh_issued h →
    ∃ r, operator_row k (oh_rows h) = Some r ∧ ok_token_hash r = sha256_hex t ∧ ascii_str t = true
}.

Lemma set_revoked_hash k r : ok_token_hash (set_revoked k r) = ok_token_hash r.
Proof. unfold set_revoked. by destruct (String.eqb _ _). Qed.

Lemma operator_run_inv h c : operator_inv h → operator_inv (operator_run h c).
Proof.
  intros [Hrow Hiss]. destruct c as [who k secret at'|k]; cbn [operator_run].
  - destruct (operator_create_cases who k secret at' (oh_rows h)) as [[e ->]|(name & d & _ & Hn & Ha & ->)]; [done|].
    split; cbn [oh_rows oh_issued].
    + intros j r. rewrite operator_row_app. destruct (operator_row j (oh_rows h)) as [q|] eqn:Hq.
      * intros [= <-]. destruct (Hrow j q Hq) as (t & Ht & Hh). exists t. split; [apply elem_of_app; by left|done].
      * cbn. destruct (String.eqb_spec k j) as [->|]; [|done]. intros [= <-].
        exists (make_token j secret). split; [apply elem_of_app; right; by left|done].
    + intros j t [Ht|E%list_elem_of_singleton]%elem_of_app.
      * destruct (Hiss j t Ht) as (r & Hr & Hh). exists r. by rewrite operator_row_app, Hr.
      * injection E as -> ->. rewrite operator_row_app, Hn. cbn. rewrite String.eqb_refl. by eexists.
  - destruct (operator_revoke_cases k (oh_rows h)) as [[e ->]| ->]; [done|].
    split; cbn [oh_rows oh_issued snd].
    + intros j r. rewrite operator_row_revoked. destruct (operator_row j (oh_rows h)) as [q|] eqn:Hq; [|done].
      intros [= <-]. rewrite set_revoked_hash. by apply Hrow.
    + intros j t Ht. destruct (Hiss j t Ht) as (r & Hr & Hh & Ha). exists (set_revoked k r).
      rewrite operator_row_revoked, Hr, set_revoked_hash. done.
Qed.

Lemma operator_runs_inv calls h : operator_inv h → operator_inv (fold_left operator_run calls h).
Proof. revert h. induction calls as [|c calls IH]; intros h Hi; [done|]. by apply IH, operator_run_inv. Qed.

(** A revoked row stays revoked. *)
Lemma operator_run_revoked h c k r :
  operator_row k (oh_rows h) = Some r → ok_revoked r = true →
  ∃ r', operator_row k (oh_rows (operator_run h c)) = Some r' ∧ ok_revoked r' = true.
Proof.
  intros Hr Hk. destruct c as [who j secret at'|j]; cbn [operator_run].
  - destruct (operator_create_cases who j secret at' (oh_rows h)) as [[e ->]|(name & d & _ & _ & _ & ->)];
      cbn [oh_rows]; [by exists r|]. exists r. by rewrite operator_row_app, Hr.
  - destruct (operator_revoke_cases j (oh_rows h)) as [[e ->]| ->]; cbn [oh_rows snd]; [by exists r|].
    exists (set_revoked j r). rewrite operator_row_revoked, Hr. split; [done|].
    unfold set_revoked. by destruct (String.eqb _ _).
Qed.

Lemma operator_runs_revoked calls h k r :
  operator_row k (oh_rows h) = Some r → ok_revoked r = true →
  ∃ r', operator_row k (oh_rows (fold_left operator_run calls h)) = Some r' ∧ ok_revoked r' = true.
Proof.
  revert h r. induction calls as [|c calls IH]; intros h r Hr Hk; [by exists r|].
  destruct (operator_run_revoked h c k r Hr Hk) as (r' & Hr' & Hk'). by apply (IH _ r').
Qed.
End Histories.

(** ** The parts of a token *)

Fixpoint no_dot (s : string) : bool :=
  match s with EmptyString => true | String c r => negb (Ascii.eqb c ".") && no_dot r end.

Lemma split_dot_app k secret : no_dot k = true → split_dot (k +:+ String "." secret) = Some (k, secret).
Proof.
  induction k as [|c k IH]; [done|]. cbn. intros [Hc Hk]%andb_true_iff. apply negb_true_iff in Hc.
  rewrite Hc. by rewrite (IH Hk).
Qed.

Lemma substring_full s : String.substring 0 (String.length s) s = s.
Proof. induction s as [|c s IH]; cbn; [done|by rewrite IH]. Qed.

Lemma token_parts k secret :
  no_dot k = true →
  String.prefix "gasop_" (make_token k secret) = true ∧
  split_dot (String.substring 6 (String.length (make_token k secret) - 6) (make_token k secret)) = Some (k, secret).
Proof.
  intros Hk. unfold make_token. simpl. split; [by destruct (k +:+ String "." secret)|].
  rewrite Nat.sub_0_r. rewrite substring_full. by apply split_dot_app.
Qed.

Lemma authenticate_spec k secret rows r :
  no_dot k = true → k ≠ "" → secret ≠ "" → ascii_str (make_token k secret) = true →
  operator_row k rows = Some r → ok_token_hash r = sha256_hex (make_token k secret) →
  authenticate (PStr (make_token k secret)) rows = if ok_revoked r then None else Some r.
Proof.
  intros Hd Hk Hs Ha Hr Hh. destruct (token_parts k secret Hd) as [Hp Hsp]. unfold authenticate.
  rewrite Hp, Hsp, Ha, (proj2 (String.eqb_neq _ _) Hk), (proj2 (String.eqb_neq _ _) Hs), Hr, Hh, String.eqb_refl.
  cbn. apply operator_row_Some in Hr as [_ <-]. destruct r as [k' o h c []]; cbn in *; [done|]. by rewrite Hh.
Qed.

Lemma authenticate_some token rows k :
  authenticate token rows = Some k →
  ∃ t, token = PStr t ∧ operator_row (ok_key_id k) rows = Some k ∧ ok_revoked k = false ∧
       ok_token_hash k = sha256_hex t.
Proof.
  unfold authenticate. destruct token as [| | | |t| | |]; try done. intros H. exists t. split; [done|].
  destruct (negb _); [done|]. destruct (split_dot _) as [[key secret]|]; [|done].
  destruct (negb _ || _ || _); [done|]. destruct (operator_row key rows) as [r|] eqn:Hr; [|done].
  destruct (ok_revoked r) eqn:Hrev; [done|]. cbn [orb] in H.
  destruct (String.eqb_spec (sha256_hex t) (ok_token_hash r)) as [Hh|]; [|done]. cbn in H.
  injection H as <-. cbn [ok_key_id ok_revoked ok_token_hash]. split; [|done].
  rewrite Hr. f_equal. apply operator_row_Some in Hr as [_ <-]. destruct r; cbn in *. by rewrite Hrev.
Qed.

(** * Properties *)

Definition operators_new : operator_history := {| oh_rows := []; oh_issued := [] |}.

Lemma operators_new_inv : operator_inv operators_new.
Proof. split; cbn; [done|]. intros k t Ht. by apply not_elem_of_nil in Ht. Qed.

(** A token authenticates exactly while its key is live.  After any calls,
    what authenticates is a token that was handed out for the key it names
    (or has the digest of one that was), and the key is not revoked.  A token that was
    handed out authenticates as its operator's key until that key is revoked.
    Once a key is revoked, no token authenticates as it after any further
    calls. *)
Lemma operator_tokens `{U : UnicodeData} `{P : PrintableData} (before after : list operator_call)
    (k secret : string) :
  let h := fold_left operator_run before operators_new in
  no_dot k = true → k ≠ "" → secret ≠ "" → (k, make_token k secret) ∈ oh_issued h →
  (∀ token q, authenticate token (oh_rows h) = Some q →
     ok_revoked q = false ∧
     ∃ t t', token = PStr t ∧ (ok_key_id q, t') ∈ oh_issued h ∧ sha256_hex t' = sha256_hex t) ∧
  (∃ r, operator_row k (oh_rows h) = Some r ∧
     authenticate (PStr (make_token k secret)) (oh_rows h) = (if ok_revoked r then None else Some r)) ∧
  (∀ rows, operator_revoke k (oh_rows h) = (Ok tt, rows) →
     ∀ token q, authenticate token
       (oh_rows (fold_left operator_run after {| oh_rows := rows; oh_issued := oh_issued h |})) = Some q →
     ok_key_id q ≠ k).
Proof.
  intros h Hd Hk Hs Hin. pose proof (operator_runs_inv before _ operators_new_inv) as Hi. fold h in Hi.
  split; [|split].
  - intros token q H. apply authenticate_some in H as (t & -> & Hr & Hrev & Hh). split; [done|].
    destruct (oi_row _ Hi _ _ Hr) as (t' & Ht' & Hh'). exists t, t'. split_and!; [done..|congruence].
  - destruct (oi_issued _ Hi _ _ Hin) as (r & Hr & Hh & Ha). exists r. split; [done|].
    by apply authenticate_spec.
  - intros rows Hrev token q H E. apply authenticate_some in H as (t & _ & Hr & Hq & _). subst k.
    destruct (operator_revoke_cases (ok_key_id q) (oh_rows h)) as [[e E]|E]; rewrite E in Hrev; [done|].
    injection Hrev as <-. destruct (oi_issued _ Hi _ _ Hin) as (r & Hrow & _ & _).
    destruct (operator_runs_revoked after
      {| oh_rows := map (set_revoked (ok_key_id q)) (oh_rows h); oh_issued := oh_issued h |}
      (ok_key_id q) (set_revoked (ok_key_id q) r)) as (r' & Hr' & Hrev').
    + cbn [oh_rows]. by rewrite operator_row_revoked, Hrow.
    + unfold set_revoked. apply operator_row_Some in Hrow as [_ ->]. by rewrite String.eqb_refl.
    + rewrite Hr in Hr'. injection Hr' as ->. congruence.
Qed.

#[local] Instance nothing_printable : PrintableData := {| uni_printable := λ _, false |}.

Definition operator_calls : list operator_call :=
  [OpCreate (PStr " alice ") "0a1b" "s3cret" "2026-01-01T00:00:00+00:00"; OpCreate (PStr "") "0a1c" "x" ""].

Lemma operator_tokens_witness :
  let h := fold_left operator_run operator_calls operators_new in
  (∃ r, operator_row "0a1b" (oh_rows h) = Some r ∧
     authenticate (PStr "gasop_0a1b.s3cret") (oh_rows h) = (if ok_revoked r then None else Some r)) ∧
  ∀ token q, authenticate token
    (oh_rows (fold_left operator_run operator_calls
       {| oh_rows := (operator_revoke "0a1b" (oh_rows h)).2; oh_issued := oh_issued h |})) = Some q →
  ok_key_id q ≠ "0a1b".
Proof.
  assert (("0a1b", make_token "0a1b" "s3cret") ∈ oh_issued (fold_left operator_run operator_calls operators_new))
    as Hin by (vm_compute; left).
  destruct (operator_tokens operator_calls operator_calls "0a1b" "s3cret" eq_refl ltac:(discriminate)
    ltac:(discriminate) Hin) as (_ & Hauth & Hrev).
  split; [exact Hauth|]. apply Hrev. vm_compute. reflexivity.
Defined.
