(* ===== verification/Deployment.v ===== *)
(** deployment.py and health.py: the in-process rate limiter, correlation
    identifiers, security headers, deploy-time checks and the health report.

    The limiter's clock is an argument.  [PostgresRateLimiter] runs inside the
    database server and is not modelled. *)

From S2P Require Import Prelude PyFloat PyVal Json Crypto Trust Policy PolicyRegistry Orders SemVer Jobs Replay Mesh.

(** * [BoundedRateLimiter] *)

Record BoundedRateLimiter := {
  rl_limit : Z;
  rl_window : spec_float;
  rl_max_clients : Z;
  rl_hits : list (string * list spec_float)
}.

Definition zero : spec_float := S754_zero false.

Definition limiter_init (limit : Z) (window_seconds : spec_float) (max_clients : Z)
    : res BoundedRateLimiter :=
  fail_if ((limit <=? 0) || float_leb window_seconds zero || (max_clients <=? 0))
    (ValueError "rate limiter bounds must be positive") ;;
  Ok {| rl_limit := limit; rl_window := window_seconds; rl_max_clients := max_clients; rl_hits := [] |}.

Definition float_sub : spec_float → spec_float → spec_float := SFsub 53 1024.
Definition float_ltb (x y : spec_float) : bool := SFltb x y.

Definition limiter_put (client : string) (hits : list spec_float) (l : BoundedRateLimiter) : BoundedRateLimiter :=
  {| rl_limit := rl_limit l; rl_window := rl_window l; rl_max_clients := rl_max_clients l;
     rl_hits := assoc_set client hits (rl_hits l) |}.

(** The stamps of a client that are still inside the window. *)
Definition recent (l : BoundedRateLimiter) (client : string) (now : spec_float) : list spec_float :=
  List.filter (λ stamp, float_ltb (float_sub now stamp) (rl_window l))
    (default [] (assoc_get client (rl_hits l))).

(** [allow]; [now] is [time.monotonic()]. *)
Definition allow (client : string) (now : spec_float) (l : BoundedRateLimiter) : bool * BoundedRateLimiter :=
  if negb (assoc_has client (rl_hits l)) && (rl_max_clients l <=? Z.of_nat (length (rl_hits l)))
  then (false, l)
  else
    let hits := recent l client now in
    if rl_limit l <=? Z.of_nat (length hits) then (false, limiter_put client hits l)
    else (true, limiter_put client (hits ++ [now]) l).

Definition limiter_run (l : BoundedRateLimiter) (c : string * spec_float) : BoundedRateLimiter :=
  (allow c.1 c.2 l).2.

(** ** Bounds *)

Record limiter_inv (l : BoundedRateLimiter) : Prop := {
  li_limit : 0 < rl_limit l;
  li_clients : Z.of_nat (length (rl_hits l)) <= rl_max_clients l;
  li_hits : Forall (λ kv, Z.of_nat (length kv.2) <= rl_limit l) (rl_hits l)
}.

Lemma assoc_set_length {A} k (v : A) d :
  length (assoc_set k v d) = if assoc_has k d then length d else S (length d).
Proof.
  rewrite <-(length_map fst), assoc_set_keys. unfold assoc_has.
  destruct (assoc_get k d); rewrite ?length_app, ?length_map; simpl; lia.
Qed.

Lemma recent_le l client now :
  limiter_inv l → Z.of_nat (length (recent l client now)) <= rl_limit l.
Proof.
  intros [Hl _ Hh]. unfold recent. destruct (assoc_get client (rl_hits l)) as [h|] eqn:E; [|simpl; lia].
  apply assoc_get_In, list_elem_of_In in E. pose proof (proj1 (Forall_forall _ _) Hh _ E) as H. simpl in H.
  pose proof (List.filter_length_le (λ stamp, float_ltb (float_sub now stamp) (rl_window l)) h). simpl. lia.
Qed.

Lemma limiter_put_inv client hits l :
  limiter_inv l → Z.of_nat (length hits) <= rl_limit l →
  (assoc_has client (rl_hits l) = true ∨ Z.of_nat (length (rl_hits l)) < rl_max_clients l) →
  limiter_inv (limiter_put client hits l).
Proof.
  intros [Hl Hc Hh] Hn Hroom. split; cbn; [done| |].
  - rewrite assoc_set_length. destruct (assoc_has client (rl_hits l)); [done|].
    destruct Hroom as [|Hroom]; [done|lia].
  - by apply (assoc_set_Forall (λ _ h, Z.of_nat (length h) <= rl_limit l)).
Qed.

Lemma allow_inv client now l : limiter_inv l → limiter_inv (allow client now l).2.
Proof.
  intros Hi. unfold allow. destruct (negb _ && _) eqn:E; [done|].
  assert (assoc_has client (rl_hits l) = true ∨ Z.of_nat (length (rl_hits l)) < rl_max_clients l) as Hroom.
  { apply andb_false_iff in E as [E|E]; breflect; auto. }
  pose proof (recent_le l client now Hi) as Hr.
  destruct (rl_limit l <=? _) eqn:Hlim; breflect; cbn [snd]; apply limiter_put_inv; try done.
  rewrite length_app. simpl. lia.
Qed.

Lemma limiter_runs_inv calls l : limiter_inv l → limiter_inv (fold_left limiter_run calls l).
Proof. revert l. induction calls as [|c calls IH]; intros l Hi; [done|]. by apply IH, allow_inv. Qed.

Definition saturated (client : string) (l : BoundedRateLimiter) : Prop :=
  rl_max_clients l <= Z.of_nat (length (rl_hits l)) ∧ assoc_has client (rl_hits l) = false.

Lemma limiter_put_saturated client k h l :
  saturated client l → assoc_has k (rl_hits l) = true → saturated client (limiter_put k h l).
Proof.
  intros [Hf Hc] Hk. assert (k ≠ client) as Hne by (intros ->; congruence).
  unfold saturated. cbn. rewrite assoc_set_length, Hk. split; [done|].
  unfold assoc_has in *. by rewrite assoc_get_set_ne.
Qed.

Lemma limiter_run_saturated client l c : saturated client l → saturated client (limiter_run l c).
Proof.
  intros Hs. unfold limiter_run, allow. destruct (assoc_has c.1 (rl_hits l)) eqn:Hk; cbn [negb andb].
  - destruct (rl_limit l <=? _); by apply limiter_put_saturated.
  - destruct Hs as [Hf Hc]. by rewrite (proj2 (Z.leb_le _ _) Hf).
Qed.

(** Clients are never forgotten: once [max_clients] distinct clients called,
    every other client is refused from then on, however long it waits. *)
Lemma limiter_saturates calls l client now :
  saturated client l → (allow client now (fold_left limiter_run calls l)).1 = false.
Proof.
  revert l. induction calls as [|c calls IH]; intros l Hs.
  - destruct Hs as [Hf Hc]. unfold allow. cbn [fold_left]. by rewrite Hc, (proj2 (Z.leb_le _ _) Hf).
  - apply IH. by apply limiter_run_saturated.
Qed.

(** * Requests and server settings *)

(** [correlation_id]; [fresh] is [uuid.uuid4().hex]. *)
Definition correlation_char (c : ascii) : bool :=
  ascii_lower c || ascii_upper c || ascii_digit c ||
  Ascii.eqb c "." || Ascii.eqb c "_" || Ascii.eqb c "-".

Definition correlation_id (value : option string) (fresh : string) : string :=
  match value with
  | Some v => if negb (String.eqb v "") && all_chars correlation_char v && (String.length v <=? 128)%nat
              then v else fresh
  | None => fresh
  end.

Definition security_headers : list (string * string) :=
  [("X-Content-Type-Options", "nosniff"); ("X-Frame-Options", "DENY"); ("Referrer-Policy", "no-referrer");
   ("Content-Security-Policy", "default-src 'none'; frame-ancestors 'none'"); ("Cache-Control", "no-store")].

Record TLSConfig := { tls_certfile : string; tls_keyfile : string; tls_min_version : string }.

Definition validate_server_config (bearer_token : option string) (max_body_bytes rate_limit : Z)
    (require_tls : bool) (tls : option TLSConfig) : res unit :=
  fail_if (match bearer_token with Some t => String.eqb t "" | None => true end)
    (ValueError "an explicit bearer token or OIDC integration is required") ;;
  fail_if ((max_body_bytes <=? 0) || (rate_limit <=? 0)) (ValueError "body and rate limits must be positive") ;;
  fail_if (require_tls && match tls with None => true | Some _ => false end)
    (ValueError "TLS configuration is required").

(** * health.py *)

Section Health.
Context `{C : Crypto}.

Record health_check := { hc_ok : bool; hc_fields : list (string * Z) }.

Definition health_checks (log : ReplayLog) (trust : option TrustStore) (registry : option PolicyRegistry)
    (sources : option GovernanceSourceRegistry) : res (list (string * health_check)) :=
  chain ← verify_chain log;
  Ok ([("replay_chain", {| hc_ok := chain; hc_fields := [("frames", Z.of_nat (length (rl_frames log)))] |})] ++
      match trust with Some _ => [("trust_store", {| hc_ok := true; hc_fields := [] |})] | None => [] end ++
      match registry with
      | Some r => [("policy_registry",
          {| hc_ok := true; hc_fields := [("policies", Z.of_nat (length (registry_policies r)))] |})]
      | None => []
      end ++
      match sources with
      | Some m => [("mesh_source_registry",
          {| hc_ok := true; hc_fields := [("sources", Z.of_nat (length (sr_keys m)));
                                           ("revoked", Z.of_nat (size (sr_revoked m)))] |})]
      | None => []
      end).

Definition health_report (log : ReplayLog) (trust : option TrustStore) (registry : option PolicyRegistry)
    (sources : option GovernanceSourceRegistry) : res (bool * list (string * health_check)) :=
  checks ← health_checks log trust registry sources;
  Ok (forallb (λ kv, hc_ok kv.2) checks, checks).

(** The report is healthy exactly when the replay chain verifies. *)
Lemma health_report_ok log trust registry sources :
  match health_report log trust registry sources with
  | Ok (ok, _) => verify_chain log = Ok ok
  | Raise e => verify_chain log = Raise e
  end.
Proof.
  unfold health_report, health_checks, mbind, res_bind. destruct (verify_chain log) as [ok|e]; [|done].
  f_equal. destruct trust, registry, sources; cbn; by rewrite andb_true_r.
Qed.
End Health.
