(* ===== verification/PlatformAdmin.v ===== *)
(** platform_admin.py: policy changes under review and signed trust changes.

    The two managers share the trust store, so one state holds the registry,
    the trust store, the proposals and what the audit hooks were called with.
    A hook is code of the embedding program: it returns or raises after its
    call is noted. *)

From stdpp Require Import gmap.
From S2P Require Import Prelude PyFloat PyVal Json Sha256 Base64 Crypto Trust Models Policy PolicyRegistry.

Section PlatformAdmin.
Context `{C : Crypto}.

(** * Approvals *)

Record PolicyApproval := {
  pa_proposal_id : string;
  pa_policy_id : string;
  pa_policy_digest : string;
  pa_approver_key_id : string;
  pa_signature : string
}.

Definition pa_unsigned_payload (a : PolicyApproval) : res string :=
  canonical_json (PDict [("proposal_id", PStr (pa_proposal_id a)); ("policy_id", PStr (pa_policy_id a));
    ("policy_digest", PStr (pa_policy_digest a)); ("approver_key_id", PStr (pa_approver_key_id a))]).

Definition pa_issue (proposal_id policy_id digest : string) (approver : KeyPair) : res PolicyApproval :=
  let draft := {| pa_proposal_id := proposal_id; pa_policy_id := policy_id; pa_policy_digest := digest;
                  pa_approver_key_id := kp_key_id approver; pa_signature := "" |} in
  payload ← pa_unsigned_payload draft;
  Ok {| pa_proposal_id := proposal_id; pa_policy_id := policy_id; pa_policy_digest := digest;
        pa_approver_key_id := kp_key_id approver; pa_signature := keypair_sign approver payload |}.

(** [key is not None and verify_signature(key, payload, signature)] *)
Definition verified_by (trust : TrustStore) (key_id : string) (payload : res string) (signature : string)
    : res bool :=
  match trust_resolve trust key_id with
  | None => Ok false
  | Some key => bytes ← payload; Ok (verify_signature key bytes signature)
  end.

Definition pa_verify (a : PolicyApproval) (trust : TrustStore) : res bool :=
  verified_by trust (pa_approver_key_id a) (pa_unsigned_payload a) (pa_signature a).

(** * Proposals *)

Record PolicyChangeProposal := {
  pp_proposal_id : string;
  pp_policy_id : string;
  pp_current_digest : string;
  pp_policy : Policy;
  pp_proposed_by : string;
  pp_rationale : string;
  pp_status : string;
  pp_signature : string;
  pp_approvals : list PolicyApproval
}.

Definition pp_unsigned_payload (p : PolicyChangeProposal) : res string :=
  canonical_json (PDict [("proposal_id", PStr (pp_proposal_id p)); ("policy_id", PStr (pp_policy_id p));
    ("current_policy_digest", PStr (pp_current_digest p));
    ("proposed_policy", PDict (policy_to_dict (pp_policy p)));
    ("proposed_by_key_id", PStr (pp_proposed_by p)); ("rationale", PStr (pp_rationale p));
    ("status", PStr (pp_status p))]).

Definition new_proposal (proposal_id : string) (policy : Policy) (proposer_key_id rationale current signature : string)
    : PolicyChangeProposal :=
  {| pp_proposal_id := proposal_id; pp_policy_id := policy_id policy; pp_current_digest := current;
     pp_policy := policy; pp_proposed_by := proposer_key_id; pp_rationale := rationale;
     pp_status := "pending"; pp_signature := signature; pp_approvals := [] |}.

Definition pp_propose (proposal_id : string) (policy : Policy) (proposer : KeyPair) (rationale current : string)
    : res PolicyChangeProposal :=
  payload ← pp_unsigned_payload (new_proposal proposal_id policy (kp_key_id proposer) rationale current "");
  Ok (new_proposal proposal_id policy (kp_key_id proposer) rationale current (keypair_sign proposer payload)).

Definition pp_verify (p : PolicyChangeProposal) (trust : TrustStore) : res bool :=
  verified_by trust (pp_proposed_by p) (pp_unsigned_payload p) (pp_signature p).

(** [len({approval.approver_key_id for approval in self.approvals})] *)
Definition pp_approval_count (p : PolicyChangeProposal) : Z :=
  Z.of_nat (length (dedup (map pa_approver_key_id (pp_approvals p)))).

Definition pp_with_approvals (p : PolicyChangeProposal) (l : list PolicyApproval) : PolicyChangeProposal :=
  {| pp_proposal_id := pp_proposal_id p; pp_policy_id := pp_policy_id p;
     pp_current_digest := pp_current_digest p; pp_policy := pp_policy p;
     pp_proposed_by := pp_proposed_by p; pp_rationale := pp_rationale p; pp_status := pp_status p;
     pp_signature := pp_signature p; pp_approvals := l |}.
Definition pp_activated (p : PolicyChangeProposal) : PolicyChangeProposal :=
  {| pp_proposal_id := pp_proposal_id p; pp_policy_id := pp_policy_id p;
     pp_current_digest := pp_current_digest p; pp_policy := pp_policy p;
     pp_proposed_by := pp_proposed_by p; pp_rationale := pp_rationale p; pp_status := "activated";
     pp_signature := pp_signature p; pp_approvals := pp_approvals p |}.

Definition to_summary_dict (p : PolicyChangeProposal) : res pydict :=
  digest ← policy_digest (pp_policy p);
  Ok [("proposal_id", PStr (pp_proposal_id p)); ("policy_id", PStr (pp_policy_id p));
      ("current_policy_digest", PStr (pp_current_digest p));
      ("proposed_policy", PDict (policy_to_dict (pp_policy p))); ("proposed_policy_digest", PStr digest);
      ("proposed_by_key_id", PStr (pp_proposed_by p)); ("rationale", PStr (pp_rationale p));
      ("status", PStr (pp_status p)); ("approval_count", PInt (pp_approval_count p));
      ("approvals", PList (map (λ a, PDict [("approver_key_id", PStr (pa_approver_key_id a))])
                               (sort_by pa_approver_key_id (pp_approvals p))))].

(** * State *)

Record AdminConfig := {
  ac_required_approvals : Z;
  ac_separation : bool;
  ac_hook : string → string → string → res unit   (** the audit hooks *)
}.

Definition admin_config (required_approvals : Z) (separation : bool) (hook : string → string → string → res unit)
    : res AdminConfig :=
  fail_if (required_approvals <=? 0) (ValueError "required_approvals must be positive") ;;
  Ok {| ac_required_approvals := required_approvals; ac_separation := separation; ac_hook := hook |}.

Record AdminState := {
  as_registry : PolicyRegistry;
  as_trust : TrustStore;
  as_proposals : list (string * PolicyChangeProposal);
  as_audit : list (string * string * string)
}.

Definition admin_registry {A} (m : M PolicyRegistry A) : M AdminState A :=
  zoom as_registry (λ r s, {| as_registry := r; as_trust := as_trust s; as_proposals := as_proposals s;
                              as_audit := as_audit s |}) m.
Definition admin_trust {A} (m : M TrustStore A) : M AdminState A :=
  zoom as_trust (λ t s, {| as_registry := as_registry s; as_trust := t; as_proposals := as_proposals s;
                           as_audit := as_audit s |}) m.
Definition put_proposal (proposal_id : string) (p : PolicyChangeProposal) : M AdminState unit :=
  modify (λ s, {| as_registry := as_registry s; as_trust := as_trust s;
                  as_proposals := assoc_set proposal_id p (as_proposals s); as_audit := as_audit s |}).

Section Operations.
Context (K : AdminConfig).

Definition admin_audit (event subject actor : string) : M AdminState unit :=
  modify (λ s, {| as_registry := as_registry s; as_trust := as_trust s; as_proposals := as_proposals s;
                  as_audit := as_audit s ++ [(event, subject, actor)] |}) ;;
  lift_res (ac_hook K event subject actor).

(** * [PolicyChangeManager] *)

Definition proposal_id_and_digest (r : PolicyRegistry) (policy : Policy) (proposal_id : option string)
    : res (string * string) :=
  current ← match registry_get r (policy_id policy) with
            | Some existing => policy_digest existing
            | None => Ok ""
            end;
  let generated := "policy-proposal:" +:+ policy_id policy +:+ ":" +:+
                   (if String.eqb current "" then "new" else current) in
  Ok (match proposal_id with Some i => if String.eqb i "" then generated else i | None => generated end, current).

Definition register_new_proposal (p : PolicyChangeProposal) (actor : string) : M AdminState unit :=
  s ← get_state;
  raise_if (assoc_has (pp_proposal_id p) (as_proposals s))
    (ValueError ("proposal already exists: " +:+ pp_proposal_id p)) ;;
  put_proposal (pp_proposal_id p) p ;;
  admin_audit "policy.proposed" (pp_proposal_id p) actor.

Definition require_trusted (key_id : string) (msg : string) : M AdminState unit :=
  s ← get_state;
  raise_if (match trust_resolve (as_trust s) key_id with Some _ => false | None => true end) (ValueError msg).

(** The common end of [propose] and [propose_signed]. *)
Definition submit_proposal (p : PolicyChangeProposal) (actor : string) : M AdminState PolicyChangeProposal :=
  s ← get_state;
  verified ← lift_res (pp_verify p (as_trust s));
  raise_if (negb verified) (ValueError "proposal signature is invalid") ;;
  register_new_proposal p actor ;;
  mret p.

Definition admin_propose (policy : Policy) (proposer : KeyPair) (rationale : string)
    (proposal_id : option string) (actor : string) : M AdminState PolicyChangeProposal :=
  require_trusted (kp_key_id proposer) "proposer key is not trusted" ;;
  s ← get_state;
  ids ← lift_res (proposal_id_and_digest (as_registry s) policy proposal_id);
  proposal ← lift_res (pp_propose ids.1 policy proposer rationale ids.2);
  submit_proposal proposal actor.

Definition prepare_proposal (r : PolicyRegistry) (policy : Policy) (proposer_key_id rationale : string)
    (proposal_id : option string) : res (string * string * string) :=
  ids ← proposal_id_and_digest r policy proposal_id;
  payload ← pp_unsigned_payload (new_proposal ids.1 policy proposer_key_id rationale ids.2 "");
  Ok (ids.1, ids.2, payload).

Definition propose_signed (policy : Policy) (proposer_key_id signature rationale : string)
    (proposal_id : option string) (actor : string) : M AdminState PolicyChangeProposal :=
  require_trusted proposer_key_id "proposer key is not trusted" ;;
  s ← get_state;
  ids ← lift_res (proposal_id_and_digest (as_registry s) policy proposal_id);
  submit_proposal (new_proposal ids.1 policy proposer_key_id rationale ids.2 signature) actor.

Definition pending_proposal (proposal_id msg : string) : M AdminState PolicyChangeProposal :=
  s ← get_state;
  match assoc_get proposal_id (as_proposals s) with
  | None => raise (KeyError ("unknown policy proposal: " +:+ proposal_id))
  | Some p =>
      raise_if (negb (String.eqb (pp_status p) "pending")) (ValueError msg) ;;
      mret p
  end.

Definition check_separation (p : PolicyChangeProposal) (approver : string) : M AdminState unit :=
  raise_if (ac_separation K && String.eqb approver (pp_proposed_by p))
    (ValueError "proposer cannot approve the same policy change").

(** The common end of [approve] and [approve_signed]. *)
Definition record_approval (proposal_id : string) (p : PolicyChangeProposal) (a : PolicyApproval) (actor : string)
    : M AdminState PolicyChangeProposal :=
  s ← get_state;
  verified ← lift_res (pa_verify a (as_trust s));
  raise_if (negb verified) (ValueError "approval signature is invalid") ;;
  let updated := pp_with_approvals p (sort_by pa_approver_key_id (pp_approvals p ++ [a])) in
  put_proposal proposal_id updated ;;
  admin_audit "policy.approved" proposal_id actor ;;
  mret updated.

Definition admin_approve (proposal_id : string) (approver : KeyPair) (actor : string)
    : M AdminState PolicyChangeProposal :=
  p ← pending_proposal proposal_id "proposal is no longer pending";
  check_separation p (kp_key_id approver) ;;
  require_trusted (kp_key_id approver) "approver key is not trusted" ;;
  digest ← lift_res (policy_digest (pp_policy p));
  approval ← lift_res (pa_issue (pp_proposal_id p) (pp_policy_id p) digest approver);
  record_approval proposal_id p approval actor.

Definition prepare_approval (proposal_id approver_key_id : string) : M AdminState (string * string) :=
  p ← pending_proposal proposal_id "proposal is no longer pending";
  digest ← lift_res (policy_digest (pp_policy p));
  payload ← lift_res (pa_unsigned_payload
    {| pa_proposal_id := pp_proposal_id p; pa_policy_id := pp_policy_id p; pa_policy_digest := digest;
       pa_approver_key_id := approver_key_id; pa_signature := "" |});
  mret (digest, payload).

Definition approve_signed (proposal_id approver_key_id signature actor : string)
    : M AdminState PolicyChangeProposal :=
  p ← pending_proposal proposal_id "proposal is no longer pending";
  check_separation p approver_key_id ;;
  raise_if (str_in approver_key_id (map pa_approver_key_id (pp_approvals p)))
    (ValueError "this key has already approved the proposal") ;;
  require_trusted approver_key_id "approver key is not trusted" ;;
  digest ← lift_res (policy_digest (pp_policy p));
  record_approval proposal_id p
    {| pa_proposal_id := pp_proposal_id p; pa_policy_id := pp_policy_id p; pa_policy_digest := digest;
       pa_approver_key_id := approver_key_id; pa_signature := signature |} actor.

Definition admin_activate (proposal_id actor : string) : M AdminState Policy :=
  p ← pending_proposal proposal_id "proposal is not pending";
  s ← get_state;
  verified ← lift_res (pp_verify p (as_trust s));
  raise_if (negb verified) (ValueError "proposal signature is invalid") ;;
  raise_if (pp_approval_count p <? ac_required_approvals K) (ValueError "approval quorum not met") ;;
  admin_registry (registry_register (pp_policy p)) ;;
  put_proposal proposal_id (pp_activated p) ;;
  admin_audit "policy.activated" proposal_id actor ;;
  mret (pp_policy p).

Definition admin_proposals (s : AdminState) : list PolicyChangeProposal :=
  map snd (sort_by fst (as_proposals s)).

(** * [TrustChangeManager] *)

Record TrustChangeRequest := {
  tc_action : string;
  tc_key_id : string;
  tc_public_key_b64 : string;
  tc_requested_by : string;
  tc_signature : string
}.

Definition trust_change (action key_id public_key_b64 requested_by signature : string) : res TrustChangeRequest :=
  fail_if (negb (str_in action ["add"; "revoke"])) (ValueError "action must be 'add' or 'revoke'") ;;
  Ok {| tc_action := action; tc_key_id := key_id; tc_public_key_b64 := public_key_b64;
        tc_requested_by := requested_by; tc_signature := signature |}.

Definition tc_unsigned_payload (r : TrustChangeRequest) : res string :=
  canonical_json (PDict [("action", PStr (tc_action r)); ("key_id", PStr (tc_key_id r));
    ("public_key_b64", PStr (tc_public_key_b64 r)); ("requested_by_key_id", PStr (tc_requested_by r))]).

Definition tc_verify (r : TrustChangeRequest) (trust : TrustStore) : res bool :=
  verified_by trust (tc_requested_by r) (tc_unsigned_payload r) (tc_signature r).

Definition prepare_add (key_id public_key_b64 requested_by : string) : res string :=
  r ← trust_change "add" key_id public_key_b64 requested_by ""; tc_unsigned_payload r.
Definition prepare_revoke (key_id requested_by : string) : res string :=
  r ← trust_change "revoke" key_id "" requested_by ""; tc_unsigned_payload r.

Definition require_change (r : TrustChangeRequest) : M AdminState unit :=
  s ← get_state;
  verified ← lift_res (tc_verify r (as_trust s));
  raise_if (negb verified) (ValueError "trust change signature is invalid").

Definition submit_add (key_id public_key_b64 requested_by signature actor : string) : M AdminState pydict :=
  request ← lift_res (trust_change "add" key_id public_key_b64 requested_by signature);
  require_change request ;;
  let invalid := ValueError "public_key_b64 is not a valid Ed25519 public key" in
  raw ← lift_res (res_except (b64decode public_key_b64)
    (λ e, if is_ValueError e || is_TypeError e then Some invalid else None));
  key ← match from_public_bytes raw with Some k => mret k | None => raise invalid end;
  admin_trust (trust_add key_id key) ;;
  admin_audit "trust.key_added" key_id actor ;;
  s ← get_state;
  mret (trust_to_dict (as_trust s)).

Definition submit_revoke (key_id requested_by signature actor : string) : M AdminState pydict :=
  request ← lift_res (trust_change "revoke" key_id "" requested_by signature);
  require_change request ;;
  admin_trust (trust_revoke key_id) ;;
  admin_audit "trust.key_revoked" key_id actor ;;
  s ← get_state;
  mret (trust_to_dict (as_trust s)).

(** * Calls in sequence *)

Inductive admin_call :=
| AdminPropose (policy : Policy) (proposer : KeyPair) (rationale : string) (proposal_id : option string) (actor : string)
| AdminProposeSigned (policy : Policy) (proposer_key_id signature rationale : string)
    (proposal_id : option string) (actor : string)
| AdminApprove (proposal_id : string) (approver : KeyPair) (actor : string)
| AdminApproveSigned (proposal_id approver_key_id signature actor : string)
| AdminActivate (proposal_id actor : string)
| AdminAddKey (key_id public_key_b64 requested_by signature actor : string)
| AdminRevokeKey (key_id requested_by signature actor : string).

Definition admin_run (s : AdminState) (c : admin_call) : AdminState :=
  match c with
  | AdminPropose policy proposer rationale i actor => (admin_propose policy proposer rationale i actor s).2
  | AdminProposeSigned policy k sig rationale i actor => (propose_signed policy k sig rationale i actor s).2
  | AdminApprove i approver actor => (admin_approve i approver actor s).2
  | AdminApproveSigned i k sig actor => (approve_signed i k sig actor s).2
  | AdminActivate i actor => (admin_activate i actor s).2
  | AdminAddKey k b64 by_key sig actor => (submit_add k b64 by_key sig actor s).2
  | AdminRevokeKey k by_key sig actor => (submit_revoke k by_key sig actor s).2
  end.

(** ** Invariant *)

(** The proposal that a call approves, and the key it is approved with. *)
Definition call_approves (c : admin_call) : option (string * string) :=
  match c with
  | AdminApprove i approver _ => Some (i, kp_key_id approver)
  | AdminApproveSigned i k _ _ => Some (i, k)
  | _ => None
  end.

Section Invariant.
Context (start : AdminState).

(** The state after the calls [l]. *)
Abbreviation after l := (fold_left admin_run l start).

(** The approval [a] was given in one of the calls [l], in which it verified
    under the key alive just then, for this proposal and the digest of its
    policy, and by somebody else than the proposer where duties are separated. *)
Record approval_good (l : list admin_call) (p : PolicyChangeProposal) (a : PolicyApproval) : Prop := {
  ag_given : ∃ before c rest, l = before ++ c :: rest ∧
    call_approves c = Some (pp_proposal_id p, pa_approver_key_id a) ∧
    pa_verify a (as_trust (after before)) = Ok true;
  ag_proposal : pa_proposal_id a = pp_proposal_id p;
  ag_policy : pa_policy_id a = policy_id (pp_policy p);
  ag_digest : policy_digest (pp_policy p) = Ok (pa_policy_digest a);
  ag_separate : ac_separation K = true → pa_approver_key_id a ≠ pp_proposed_by p
}.

(** The proposal was activated in one of the calls [l], with the quorum of
    approvals given before and the proposer's signature verified under the key
    alive just then. *)
Definition activated_in (l : list admin_call) (p : PolicyChangeProposal) : Prop :=
  ∃ before actor rest, l = before ++ AdminActivate (pp_proposal_id p) actor :: rest ∧
    ac_required_approvals K <= pp_approval_count p ∧ Forall (approval_good before p) (pp_approvals p) ∧
    ∃ key payload, trust_resolve (as_trust (after before)) (pp_proposed_by p) = Some key ∧
      pp_unsigned_payload (new_proposal (pp_proposal_id p) (pp_policy p) (pp_proposed_by p) (pp_rationale p)
        (pp_current_digest p) "") = Ok payload ∧
      verify_signature key payload (pp_signature p) = true.

Record proposal_good (l : list admin_call) (p : PolicyChangeProposal) : Prop := {
  pg_policy : pp_policy_id p = policy_id (pp_policy p);
  pg_status : pp_status p = "pending" ∨ pp_status p = "activated";
  pg_approvals : Forall (approval_good l p) (pp_approvals p);
  pg_signed : pp_status p = "activated" → activated_in l p
}.

Record admin_inv (l : list admin_call) (s : AdminState) : Prop := {
  ai_proposals : ∀ i p, assoc_get i (as_proposals s) = Some p → pp_proposal_id p = i ∧ proposal_good l p;
  ai_registry : ∀ k q, registry_get (as_registry s) k = Some q →
    ∃ i p, assoc_get i (as_proposals s) = Some p ∧ pp_status p = "activated" ∧ pp_policy p = q
}.

Lemma approval_good_more c l p a : approval_good l p a → approval_good (l ++ [c]) p a.
Proof.
  intros [(b & d & r & -> & H) ? ? ? ?]. split; try done. exists b, d, (r ++ [c]). by rewrite <-app_assoc.
Qed.

Lemma activated_in_more c l p : activated_in l p → activated_in (l ++ [c]) p.
Proof. intros (b & a & r & -> & H). exists b, a, (r ++ [c]). by rewrite <-app_assoc. Qed.

Lemma proposal_good_more c l p : proposal_good l p → proposal_good (l ++ [c]) p.
Proof.
  intros [Hp Hs Ha Hsig]. split; try done; [|auto using activated_in_more].
  eapply Forall_impl; [exact Ha|]. intros a. apply approval_good_more.
Qed.

Lemma admin_inv_more c l s : admin_inv l s → admin_inv (l ++ [c]) s.
Proof.
  intros [Hp Hr]. split; [|done]. intros i p Hi. destruct (Hp i p Hi) as [Hid Hg].
  split; [done|]. by apply proposal_good_more.
Qed.

(** The audit trail does not matter to the invariant. *)
Lemma admin_audit_inv ts e sub actor s : admin_inv ts s → admin_inv ts (admin_audit e sub actor s).2.
Proof. intros [Hp Hr]. unfold admin_audit, mbind, M_bind, modify, lift_res. by split. Qed.

Lemma put_proposal_inv ts i p s :
  admin_inv ts s → pp_proposal_id p = i → proposal_good ts p →
  (∀ q, assoc_get i (as_proposals s) = Some q → pp_status q = "activated" →
        pp_status p = "activated" ∧ pp_policy p = pp_policy q) →
  admin_inv ts (put_proposal i p s).2.
Proof.
  intros [Hp Hr] Hid Hg Hact. split; cbn.
  - intros j q. destruct (decide (i = j)) as [->|Hne].
    + rewrite assoc_get_set_eq. by intros [= <-].
    + rewrite assoc_get_set_ne by done. apply Hp.
  - intros k q Hk. destruct (Hr k q Hk) as (j & o & Hj & Hs & Hq).
    destruct (decide (i = j)) as [->|Hne].
    + destruct (Hact o Hj Hs) as [H1 H2]. exists j, p. rewrite assoc_get_set_eq. split_and!; congruence.
    + exists j, o. by rewrite assoc_get_set_ne.
Qed.

(** A step that only looks at the state. *)
Lemma guard_bind {A B} (P : AdminState → Prop) (m : M AdminState A) (f : A → M AdminState B) s :
  P s → (m s).2 = s → (∀ x, m s = (Ok x, s) → P (f x s).2) → P ((m ≫= f) s).2.
Proof.
  intros Hs Hm Hf. unfold mbind, M_bind. destruct (m s) as [[x|e] s1]; cbn [snd] in *; subst; auto.
Qed.

Lemma step_bind {A B} (P : AdminState → Prop) (m : M AdminState A) (f : A → M AdminState B) s :
  P (m s).2 → (∀ x s1, P s1 → m s = (Ok x, s1) → P (f x s1).2) → P ((m ≫= f) s).2.
Proof. intros Hm Hf. unfold mbind, M_bind. destruct (m s) as [[x|e] s1]; cbn [snd] in *; auto. Qed.

Lemma mret_state {A} (P : AdminState → Prop) (x : A) s : P s → P ((mret x : M AdminState A) s).2.
Proof. done. Qed.

Lemma lift_res_state {A} (r : res A) (s : AdminState) : (lift_res r s).2 = s.
Proof. done. Qed.
Lemma raise_if_state b e (s : AdminState) : (raise_if b e s).2 = s.
Proof. done. Qed.
Lemma require_trusted_state k msg s : (require_trusted k msg s).2 = s.
Proof. unfold require_trusted, mbind, M_bind, get_state. apply raise_if_state. Qed.
Lemma check_separation_state p k s : (check_separation p k s).2 = s.
Proof. done. Qed.
Lemma require_change_state r s : (require_change r s).2 = s.
Proof. unfold require_change, mbind, M_bind, get_state, lift_res. by destruct (tc_verify _ _). Qed.
Lemma pending_proposal_state i msg s : (pending_proposal i msg s).2 = s.
Proof.
  unfold pending_proposal, mbind, M_bind, get_state, raise, raise_if, mret, M_ret.
  destruct (assoc_get _ _) as [p|]; [|done]. by destruct (negb _).
Qed.

Lemma pending_proposal_ok i msg s p s' :
  pending_proposal i msg s = (Ok p, s') →
  s' = s ∧ assoc_get i (as_proposals s) = Some p ∧ pp_status p = "pending".
Proof.
  unfold pending_proposal, mbind, M_bind, get_state, raise, raise_if, mret, M_ret.
  destruct (assoc_get _ _) as [q|]; [|done]. destruct (String.eqb_spec (pp_status q) "pending"); [|done].
  by intros [= -> ->].
Qed.

Ltac look := apply guard_bind; [assumption|
  first [apply lift_res_state | apply raise_if_state | apply require_trusted_state | apply check_separation_state
        | apply require_change_state | apply pending_proposal_state | reflexivity]|].

Lemma submit_proposal_inv ts p actor s :
  admin_inv ts s → proposal_good ts p → pp_approvals p = [] → pp_status p = "pending" →
  admin_inv ts (submit_proposal p actor s).2.
Proof.
  intros Hi Hg Hap Hst. unfold submit_proposal, register_new_proposal.
  look. intros s0 [= <-]. look. intros v _. look. intros _ _.
  apply step_bind; [|intros; by apply mret_state].
  look. intros s0 [= <-]. look. intros [] [Hf _]%raise_if_ok.
  apply step_bind; [|intros; by apply admin_audit_inv].
  apply put_proposal_inv; try done. intros q Hq. unfold assoc_has in Hf. by rewrite Hq in Hf.
Qed.

Lemma new_proposal_good ts i policy k rationale current sig :
  proposal_good ts (new_proposal i policy k rationale current sig).
Proof. split; cbn; [done|by left|constructor|done]. Qed.

Lemma admin_propose_inv ts policy proposer rationale i actor s :
  admin_inv ts s → admin_inv ts (admin_propose policy proposer rationale i actor s).2.
Proof.
  intros Hi. unfold admin_propose. look. intros _ _. look. intros s0 [= <-]. look. intros ids _.
  look. intros p [Hp _]%lift_res_ok. unfold pp_propose in Hp. apply res_bind_ok in Hp as (payload & _ & [= <-]).
  apply submit_proposal_inv; try done. apply new_proposal_good.
Qed.

Lemma propose_signed_inv ts policy k sig rationale i actor s :
  admin_inv ts s → admin_inv ts (propose_signed policy k sig rationale i actor s).2.
Proof.
  intros Hi. unfold propose_signed. look. intros _ _. look. intros s0 [= <-]. look. intros ids _.
  apply submit_proposal_inv; try done. apply new_proposal_good.
Qed.

(** A recorded approval is good. *)
Lemma record_approval_inv ts i p a actor s :
  admin_inv ts s → (∃ before c rest, ts = before ++ c :: rest ∧ call_approves c = Some (i, pa_approver_key_id a) ∧
    as_trust (after before) = as_trust s) → assoc_get i (as_proposals s) = Some p → pp_status p = "pending" →
  pa_proposal_id a = pp_proposal_id p → pa_policy_id a = pp_policy_id p →
  policy_digest (pp_policy p) = Ok (pa_policy_digest a) →
  (ac_separation K = true → pa_approver_key_id a ≠ pp_proposed_by p) →
  admin_inv ts (record_approval i p a actor s).2.
Proof.
  intros Hi (before & c & rest & Hts & Hc & Htr) Hp Hst Hpid Hpol Hdig Hsep. unfold record_approval.
  look. intros s0 [= <-]. look. intros v [Hv _]%lift_res_ok. look. intros [] [Hf _]%raise_if_ok.
  apply negb_false_iff in Hf as ->.
  destruct (ai_proposals _ _ Hi i p Hp) as [Hid Hg].
  apply step_bind; [|intros; apply step_bind; [by apply admin_audit_inv|intros; by apply mret_state]].
  apply put_proposal_inv; [done|done| |intros q Hq E; congruence].
  destruct Hg as [Hg1 Hg2 Hg3 Hg4]. split; cbn; [done|done| |congruence].
  apply (Forall_impl (approval_good ts p)); [|intros b [H1 H2 H3 H4 H5]; by split].
  rewrite sort_by_Permutation. apply Forall_app. split; [exact Hg3|].
  apply Forall_singleton. split; [|done|congruence|done|done].
  exists before, c, rest. rewrite Htr. cbn. by rewrite Hid.
Qed.

Lemma check_separation_ok p k s u s' :
  check_separation p k s = (Ok u, s') → ac_separation K = true → k ≠ pp_proposed_by p.
Proof.
  intros [H _]%raise_if_ok Hs. rewrite Hs in H. by apply String.eqb_neq in H.
Qed.

Lemma admin_approve_inv l i approver actor :
  admin_inv l (after l) →
  admin_inv (l ++ [AdminApprove i approver actor]) (admin_approve i approver actor (after l)).2.
Proof.
  intros Hi%(admin_inv_more (AdminApprove i approver actor)). unfold admin_approve. look. intros p (_ & Hp & Hst)%pending_proposal_ok.
  look. intros u Hsep. look. intros _ _. look. intros d [Hd _]%lift_res_ok.
  look. intros a [Ha _]%lift_res_ok. unfold pa_issue in Ha. apply res_bind_ok in Ha as (payload & _ & [= <-]).
  apply record_approval_inv; try done; [by eexists l, _, []|]. cbn. by apply (check_separation_ok _ _ _ _ _ Hsep).
Qed.

Lemma approve_signed_inv l i k sig actor :
  admin_inv l (after l) →
  admin_inv (l ++ [AdminApproveSigned i k sig actor]) (approve_signed i k sig actor (after l)).2.
Proof.
  intros Hi%(admin_inv_more (AdminApproveSigned i k sig actor)). unfold approve_signed. look. intros p (_ & Hp & Hst)%pending_proposal_ok.
  look. intros u Hsep. look. intros _ _. look. intros _ _. look. intros d [Hd _]%lift_res_ok.
  apply record_approval_inv; try done; [by eexists l, _, []|]. cbn. by apply (check_separation_ok _ _ _ _ _ Hsep).
Qed.

Lemma pp_verify_true p t :
  pp_verify p t = Ok true → pp_status p = "pending" → pp_policy_id p = policy_id (pp_policy p) →
  ∃ key payload, trust_resolve t (pp_proposed_by p) = Some key ∧
    pp_unsigned_payload (new_proposal (pp_proposal_id p) (pp_policy p) (pp_proposed_by p) (pp_rationale p)
      (pp_current_digest p) "") = Ok payload ∧
    verify_signature key payload (pp_signature p) = true.
Proof.
  unfold pp_verify, verified_by. intros H Hs Hp. destruct (trust_resolve _ _) as [key|]; [|done].
  apply res_bind_ok in H as (payload & Hpay & [= H]). exists key, payload. split; [done|]. split; [|done].
  rewrite <-Hpay. unfold pp_unsigned_payload. cbn. by rewrite Hs, Hp.
Qed.

Lemma pa_verify_true a t :
  pa_verify a t = Ok true → ∃ key payload, trust_resolve t (pa_approver_key_id a) = Some key ∧
    pa_unsigned_payload a = Ok payload ∧ verify_signature key payload (pa_signature a) = true.
Proof.
  unfold pa_verify, verified_by. destruct (trust_resolve _ _) as [key|]; [|done].
  intros (payload & Hpay & [= H])%res_bind_ok. by exists key, payload.
Qed.

Lemma admin_activate_inv l i actor :
  admin_inv l (after l) →
  admin_inv (l ++ [AdminActivate i actor]) (admin_activate i actor (after l)).2.
Proof.
  intros Hl. pose proof (admin_inv_more (AdminActivate i actor) l _ Hl) as Hi.
  set (ts := l ++ [AdminActivate i actor]) in *. set (s := after l) in *.
  unfold admin_activate. look. intros p (_ & Hp & Hst)%pending_proposal_ok.
  look. intros s0 [= <-]. look. intros v [Hv _]%lift_res_ok. look. intros [] [Hf _]%raise_if_ok.
  apply negb_false_iff in Hf as ->. look. intros [] [Hq _]%raise_if_ok. apply Z.ltb_ge in Hq.
  destruct (ai_proposals _ _ Hi i p Hp) as [Hid Hg].
  assert (proposal_good ts (pp_activated p)) as Hg'.
  { destruct Hg as [Hg1 Hg2 Hg3 Hg4]. split; cbn; [done|by right| |].
    - eapply Forall_impl; [exact Hg3|]. intros b [H1 H2 H3 H4 H5]. by split.
    - intros _. destruct (pp_verify_true p _ Hv Hst Hg1) as (key & payload & Hk).
      exists l, actor, []. split; [subst ts; cbn; by rewrite Hid|]. split; [done|].
      split; [|exists key, payload; exact Hk].
      destruct (ai_proposals _ _ Hl i p Hp) as [_ [_ _ Hal _]].
      eapply Forall_impl; [exact Hal|]. intros b [H1 H2 H3 H4 H5]. by split. }
  unfold admin_registry, zoom. unfold mbind at 1, M_bind at 1.
  pose proof (registry_register_spec (pp_policy p) (as_registry s)) as Hspec.
  destruct (registry_register (pp_policy p) (as_registry s)) as [[[]|e] r] eqn:Hr.
  2: { assert (r = as_registry s) as -> by (repeat case_match; by simplify_eq). by destruct s. }
  assert (r = registry_put (pp_policy p) (as_registry s)) as -> by (repeat case_match; by simplify_eq).
  unfold put_proposal. unfold mbind at 1, M_bind at 1, modify at 1. cbn [as_registry as_trust as_proposals as_audit].
  match goal with |- admin_inv ts (snd (_ ?st)) => assert (admin_inv ts st) as Hst' end.
  { destruct Hi as [Hpr Hreg]. split; cbn.
    - intros j q. destruct (decide (i = j)) as [->|Hne].
      + rewrite assoc_get_set_eq. by intros [= <-].
      + rewrite assoc_get_set_ne by done. apply Hpr.
    - intros k q Hk. unfold registry_get, registry_put in Hk. cbn in Hk.
      destruct (decide (policy_id (pp_policy p) = k)) as [<-|Hne].
      + rewrite assoc_get_set_eq in Hk. injection Hk as <-. exists i, (pp_activated p).
        by rewrite assoc_get_set_eq.
      + rewrite assoc_get_set_ne in Hk by done. destruct (Hreg k q Hk) as (j & o & Hj & Hs & Ho).
        exists j, o. destruct (decide (i = j)) as [->|Hij]; [congruence|]. by rewrite assoc_get_set_ne. }
  apply step_bind; [by apply admin_audit_inv|]. intros. by apply mret_state.
Qed.

(** Trust changes leave the registry and the proposals alone. *)
Lemma admin_trust_inv {A} ts (m : M TrustStore A) (f : A → M AdminState pydict) s :
  admin_inv ts s → (∀ x s1, (f x s1).2 = s1 ∨ ∃ e k a, (f x s1).2 = (admin_audit e k a s1).2) →
  admin_inv ts ((admin_trust m ≫= f) s).2.
Proof.
  intros [Hp Hr] Hf. unfold mbind, M_bind, admin_trust, zoom. destruct (m (as_trust s)) as [[x|e] t]; [|by split].
  destruct (Hf x {| as_registry := as_registry s; as_trust := t; as_proposals := as_proposals s;
    as_audit := as_audit s |}) as [->|(e & k & a & ->)]; [by split|].
  apply admin_audit_inv. by split.
Qed.

Lemma audit_tail_state e k a s :
  ((admin_audit e k a ;; s' ← get_state; mret (trust_to_dict (as_trust s'))) s : res pydict * AdminState).2 =
  (admin_audit e k a s).2.
Proof.
  unfold admin_audit, mbind, M_bind, modify, lift_res, get_state, mret, M_ret. by destruct (ac_hook K e k a).
Qed.

Lemma submit_add_inv ts k b64 by_key sig actor s :
  admin_inv ts s → admin_inv ts (submit_add k b64 by_key sig actor s).2.
Proof.
  intros Hs. unfold submit_add. look. intros r _. look. intros _ _. look. intros raw _.
  apply guard_bind; [done|by destruct (from_public_bytes raw)|]. intros key _.
  apply admin_trust_inv; [done|]. intros x s1. right. eexists _, _, _. apply audit_tail_state.
Qed.

Lemma submit_revoke_inv ts k by_key sig actor s :
  admin_inv ts s → admin_inv ts (submit_revoke k by_key sig actor s).2.
Proof.
  intros Hs. unfold submit_revoke. look. intros r _. look. intros _ _.
  apply admin_trust_inv; [done|]. intros x s1. right. eexists _, _, _. apply audit_tail_state.
Qed.

Lemma admin_run_inv l c : admin_inv l (after l) → admin_inv (l ++ [c]) (admin_run (after l) c).
Proof.
  intros Hi. destruct c; cbn [admin_run].
  3: by apply admin_approve_inv.
  3: by apply approve_signed_inv.
  3: by apply admin_activate_inv.
  all: apply admin_inv_more.
  - by apply admin_propose_inv.
  - by apply propose_signed_inv.
  - by apply submit_add_inv.
  - by apply submit_revoke_inv.
Qed.

Lemma admin_runs_inv l : admin_inv [] start → admin_inv l (after l).
Proof.
  intros H0. induction l as [|c l IH] using rev_ind; [done|]. rewrite fold_left_app. by apply admin_run_inv.
Qed.
End Invariant.
End Operations.
End PlatformAdmin.

(** The managers at the start: no policies, no proposals. *)
Definition admin_new `{C : Crypto} (trust : TrustStore) : AdminState :=
  {| as_registry := registry_empty; as_trust := trust; as_proposals := []; as_audit := [] |}.

(** ** What the managers do not do *)

(** A change to a registered policy cannot be activated: identifiers are
    immutable in the registry the manager writes to. *)
Lemma activate_change_fails `{C : Crypto} K i actor s p q d :
  assoc_get i (as_proposals s) = Some p → pp_status p = "pending" → pp_verify p (as_trust s) = Ok true →
  ac_required_approvals K <= pp_approval_count p →
  registry_get (as_registry s) (policy_id (pp_policy p)) = Some q →
  policy_digest q = Ok d → policy_digest (pp_policy p) ≠ Ok d → (∃ d', policy_digest (pp_policy p) = Ok d') →
  admin_activate K i actor s =
    (Raise (ValueError ("policy ID is already registered: " +:+ policy_id (pp_policy p))), s).
Proof.
  intros Hp Hst Hv Hq Hreg Hd Hne [d' Hd'].
  unfold admin_activate, pending_proposal, mbind, M_bind, get_state, raise_if, mret, M_ret, lift_res.
  rewrite Hp, Hst, String.eqb_refl. cbn [negb]. rewrite Hv. cbn [negb].
  rewrite (proj2 (Z.ltb_ge _ _) Hq). unfold admin_registry, zoom. rewrite registry_register_spec, Hreg, Hd, Hd'.
  destruct (String.eqb_spec d d') as [->|]; [congruence|]. by destruct s.
Qed.

(** A trust change carries no nonce and no time: the request that added a key
    adds it again after its revocation, whoever submits it. *)
Lemma add_request_replays `{C : Crypto} K k b64 by_key sig actor s raw key r :
  trust_change "add" k b64 by_key sig = Ok r → tc_verify r (as_trust s) = Ok true →
  b64decode b64 = Ok raw → from_public_bytes raw = Some key → k ≠ "" →
  trust_resolve (as_trust s) k = None →
  trust_resolve (as_trust (submit_add K k b64 by_key sig actor s).2) k = Some key.
Proof.
  intros Hr Hv Hb Hk Hne Hres.
  unfold submit_add, require_change, mbind, M_bind, lift_res, get_state, raise_if. rewrite Hr, Hv, Hb. cbn [negb res_except].
  rewrite Hk. unfold mret, M_ret, admin_trust, zoom.
  pose proof (trust_add_live_key (as_trust s) k key Hne) as Hadd. rewrite Hres in Hadd.
  destruct Hadd as (t' & Ht & Hl & _). rewrite Ht.
  unfold admin_audit, mbind, M_bind, modify, lift_res.
  by destruct (ac_hook K _ _ _).
Qed.

(** * Properties *)

(** C17. Policies enter the registry only by quorum.  Whatever proposals,
    approvals, activations and trust changes are submitted, in any order and
    with any outcome, every policy of the registry is the policy of an activated
    proposal.  A call activated it when its proposer's key was alive and the
    proposer's signature over the proposal verified under that key; before that,
    at least the required number of distinct keys had approved it, each in a call
    of its own in which that key was alive and the signature over this proposal
    and the digest of this policy verified under it.  Where duties are separated,
    none of these keys is the proposer's. *)
Theorem policy_quorum `{C : Crypto} (K : AdminConfig) (trust : TrustStore) (calls : list admin_call)
    (k : string) (q : Policy) :
  let after l := fold_left (admin_run K) l (admin_new trust) in
  registry_get (as_registry (after calls)) k = Some q →
  ∃ p before actor rest, calls = before ++ AdminActivate (pp_proposal_id p) actor :: rest ∧
    assoc_get (pp_proposal_id p) (as_proposals (after calls)) = Some p ∧
    pp_policy p = q ∧ pp_status p = "activated" ∧
    (∃ key payload, trust_resolve (as_trust (after before)) (pp_proposed_by p) = Some key ∧
       pp_unsigned_payload (new_proposal (pp_proposal_id p) q (pp_proposed_by p) (pp_rationale p)
         (pp_current_digest p) "") = Ok payload ∧
       verify_signature key payload (pp_signature p) = true) ∧
    ac_required_approvals K <= Z.of_nat (length (dedup (map pa_approver_key_id (pp_approvals p)))) ∧
    ∀ a, a ∈ pp_approvals p →
      (∃ earlier c later, before = earlier ++ c :: later ∧
         call_approves c = Some (pp_proposal_id p, pa_approver_key_id a) ∧
         ∃ key digest payload, trust_resolve (as_trust (after earlier)) (pa_approver_key_id a) = Some key ∧
           policy_digest q = Ok digest ∧
           canonical_json (PDict [("proposal_id", PStr (pp_proposal_id p)); ("policy_id", PStr (policy_id q));
             ("policy_digest", PStr digest); ("approver_key_id", PStr (pa_approver_key_id a))]) = Ok payload ∧
           verify_signature key payload (pa_signature a) = true) ∧
      (ac_separation K = true → pa_approver_key_id a ≠ pp_proposed_by p).
Proof.
  intros after Hq. destruct (admin_runs_inv K (admin_new trust) calls) as [Hp Hr]; [by split|].
  destruct (Hr k q Hq) as (i & p & Hi & Hs & <-).
  destruct (Hp i p Hi) as [<- [_ _ _ Hsig]]. destruct (Hsig Hs) as (before & actor & rest & -> & Hn & Ha & Hk).
  exists p, before, actor, rest. split_and!; try done.
  intros a [(earlier & c & later & -> & Hc & Hv) H1 H2 H3 H4]%(proj1 (Forall_forall _ _) Ha).
  split; [|done]. exists earlier, c, later. split_and!; [done..|].
  destruct (pa_verify_true _ _ Hv) as (key & payload & Hkey & Hpay & Hver).
  exists key, (pa_policy_digest a), payload. split_and!; try done. by rewrite <-Hpay, <-H1, <-H2.
Qed.

Definition admin_example : AdminConfig :=
  {| ac_required_approvals := 1; ac_separation := true; ac_hook := λ _ _ _, Ok tt |}.

Definition admin_calls : list (@admin_call toy_crypto) :=
  [AdminPropose conflicting_policy {| kp_private_key := "k1" : @PrivateKey toy_crypto; kp_key_id := "issuer-1" |}
     "first" (Some "p-1") "alice";
   AdminActivate "p-1" "alice";
   AdminApprove "p-1" {| kp_private_key := "k1" : @PrivateKey toy_crypto; kp_key_id := "issuer-1" |} "alice";
   AdminApprove "p-1" {| kp_private_key := "k2" : @PrivateKey toy_crypto; kp_key_id := "issuer-2" |} "bob";
   AdminActivate "p-1" "bob"].

Lemma policy_quorum_witness :
  let after l := fold_left (admin_run admin_example) l (admin_new trust_example) in
  ∃ p before actor rest, admin_calls = before ++ AdminActivate (pp_proposal_id p) actor :: rest ∧
    assoc_get (pp_proposal_id p) (as_proposals (after admin_calls)) = Some p ∧
    pp_policy p = conflicting_policy ∧ pp_status p = "activated" ∧
    1 <= Z.of_nat (length (dedup (map pa_approver_key_id (pp_approvals p)))).
Proof.
  destruct (policy_quorum admin_example trust_example admin_calls "deploy" conflicting_policy)
    as (p & before & actor & rest & H1 & H2 & H3 & H4 & _ & H5 & _); [vm_compute; reflexivity|].
  exists p, before, actor, rest. exact (conj H1 (conj H2 (conj H3 (conj H4 H5)))).
Defined.
