(* ===== verification/Service.v ===== *)
(** service.py: the application facade.  A policy is named by its identifier,
    an action by the request's [action] field; the issuer and the boundary work
    on one replay log, as bootstrap.py composes them, and governance events are
    frames of the same log.

    A facade is given as its objects are at the time of a call, so policies,
    keys and actions may change from call to call.  The file shows what holds
    in every history of such calls. *)

From S2P Require Import Prelude PyFloat PyVal Json Sha256 Base64 Crypto Trust Models Policy Arbiter PolicyRegistry Replay ReplayStore Mesh Issuer Engine Jobs Deployment.

(** [events(event_type)] of any log, for a non-empty type. *)
Definition store_events {L} `{RS : ReplayStore L} (l : L) (event_type : string) : list pydict :=
  List.filter (λ e, py_eqb (dict_get "type" e) (PStr event_type)) (map rf_event (store_frames l)).

Section Service.
Context `{C : Crypto} {L : Type} `{RS : ReplayStore L}.

(** [sv_sources] is the mesh source registry with its trust store. *)
Record GovernedService := {
  sv_issuer : AuthorizationIssuer;
  sv_boundary : ExecutionBoundary;
  sv_policies : PolicyRegistry;
  sv_actions : list (string * (pydict → res pyval));
  sv_sources : option (GovernanceSourceRegistry * option TrustStore)
}.

(** [policies if isinstance(...) else PolicyRegistry(tuple(policies.values()))] *)
Definition service_policies (policies : PolicyRegistry + list (string * Policy)) : res PolicyRegistry :=
  match policies with
  | inl r => Ok r
  | inr d => let '(u, r) := forM_ (map snd d) registry_register registry_empty in u ;; Ok r
  end.

Definition service_init (issuer : AuthorizationIssuer) (boundary : ExecutionBoundary)
    (policies : PolicyRegistry + list (string * Policy))
    (actions : list (string * (pydict → res pyval)))
    (sources : option (GovernanceSourceRegistry * option TrustStore)) : res GovernedService :=
  r ← service_policies policies;
  Ok {| sv_issuer := issuer; sv_boundary := boundary; sv_policies := r; sv_actions := actions;
        sv_sources := sources |}.

Record service_state := {
  ss_log : L;               (** the replay log of issuer and boundary *)
  ss_mesh_log : option L;   (** the log of a configured mesh, if it has its own *)
  ss_invoked : list gaa     (** the artifacts whose action was called *)
}.

Definition as_issuer {A} (m : M (issuer_state L) A) : M service_state A :=
  zoom (λ s, {| is_log := ss_log s; is_mesh_log := ss_mesh_log s |})
       (λ i s, {| ss_log := is_log i; ss_mesh_log := is_mesh_log i; ss_invoked := ss_invoked s |}) m.

Definition as_engine {A} (m : M (engine_state L) A) : M service_state A :=
  zoom (λ s, {| es_log := ss_log s; es_invoked := ss_invoked s |})
       (λ e s, {| ss_log := es_log e; ss_mesh_log := ss_mesh_log s; ss_invoked := es_invoked e |}) m.

Definition on_service_log {A} (m : M L A) : M service_state A :=
  zoom ss_log (λ l s, {| ss_log := l; ss_mesh_log := ss_mesh_log s; ss_invoked := ss_invoked s |}) m.

(** An issuer without a mesh source registry gets the service's. *)
Definition bound_issuer (V : GovernedService) : AuthorizationIssuer :=
  let I := sv_issuer V in
  match sv_sources V, ai_registry I with
  | Some r, None =>
      {| ai_issuer := ai_issuer I; ai_arbiter := ai_arbiter I; ai_mesh := ai_mesh I;
         ai_registry := Some r |}
  | _, _ => I
  end.

Definition service_authorize (V : GovernedService) (now : Z) (nonce : string) (request : pydict)
    (policy_id : string) (ttl_seconds : Z) (approvals : option (list approval_arg))
    (mesh_inputs : list GovernanceInput) : M service_state gaa :=
  match registry_get (sv_policies V) policy_id with
  | None => raise (AuthorizationError ("unknown policy: " +:+ policy_id))
  | Some policy =>
      as_issuer (authorize (bound_issuer V) now nonce request policy ttl_seconds approvals mesh_inputs)
  end.

Definition service_execute (V : GovernedService) (now : Z) (artifact : gaa) : M service_state pyval :=
  match dict_get "action" (gaa_action_request artifact) with
  | PStr action_name =>
      match assoc_get action_name (sv_actions V) with
      | None => raise (AuthorizationError ("unknown executable action: " +:+ action_name))
      | Some action => as_engine (execute (sv_boundary V) now action artifact)
      end
  | _ => raise (AuthorizationError "unknown executable action: None")
  end.

Definition execute_dict (V : GovernedService) (now : Z) (value : pyval) : M service_state pyval :=
  artifact ← lift_res (gaa_from_dict value); service_execute V now artifact.

Definition execute_json (V : GovernedService) (now : Z) (value : pyval) : M service_state pyval :=
  artifact ← lift_res (gaa_from_json value); service_execute V now artifact.

(** ** Governance events *)

Definition governance_event (event subject_id actor_id recorded_at : string) : pydict :=
  [("type", PStr "governance"); ("event", PStr event); ("subject_id", PStr subject_id);
   ("actor_id", PStr actor_id); ("recorded_at", PStr recorded_at)].

(** The hook; [hex] is the fresh identifier, [recorded_at] the time. *)
Definition record_governance_event (hex recorded_at event subject_id actor_id : string)
    : M service_state unit :=
  on_service_log (store_append ("governance:" +:+ hex)
    (governance_event event subject_id actor_id recorded_at)) ;;
  mret tt.

Definition governance_log (s : service_state) : list pydict := store_events (ss_log s) "governance".
End Service.
#[global] Arguments service_state : clear implicits.

(** ** Reports, over the log in memory *)

(** The dictionary of [health_report]. *)
Definition health_to_dict (report : bool * list (string * health_check)) : pydict :=
  [("ok", PBool report.1);
   ("checks", PDict (map (λ kc, (kc.1, PDict (("ok", PBool (hc_ok kc.2)) ::
                                            map (λ f, (f.1, PInt f.2)) (hc_fields kc.2)))) report.2))].

Definition engine_trust `{C : Crypto} (B : ExecutionBoundary) : option TrustStore :=
  match eb_keys B with EngineTrust t => Some t | EngineIssuers _ => None end.

Definition service_health `{C : Crypto} (V : GovernedService) (log : ReplayLog) : res pydict :=
  report ← health_report log (engine_trust (sv_boundary V)) (Some (sv_policies V))
             (fst <$> sv_sources V);
  Ok (health_to_dict report).

Definition audit_report `{C : Crypto} (V : GovernedService) (log : ReplayLog) : res pydict :=
  digests ← registry_digests (sv_policies V);
  health ← service_health V log;
  Ok [("actions", of_strs (sort_strings (map fst (sv_actions V))));
      ("policy_ids", of_strs (sort_strings (map fst (registry_versions (sv_policies V)))));
      ("policy_digests", PDict (map (λ kd, (kd.1, PStr kd.2)) digests));
      ("audit_summary", PDict (audit_summary log));
      ("health", PDict health)].

(** * Lemmas *)

Section ServiceLemmas.
Context `{C : Crypto} {L : Type} `{LL : ReplayStoreLaws L}.
Implicit Types (s : service_state L) (V : GovernedService).

(** What an issuer does inside the facade only adds frames, and calls nothing. *)
Lemma as_issuer_extends {A} (m : M (issuer_state L) A) s :
  appends_only m →
  log_extends (ss_log s) (ss_log (as_issuer m s).2) ∧ ss_invoked (as_issuer m s).2 = ss_invoked s.
Proof.
  intros Hm. unfold as_issuer, zoom.
  specialize (Hm {| is_log := ss_log s; is_mesh_log := ss_mesh_log s |}).
  by destruct (m _) as [r i].
Qed.

Lemma service_authorize_extends V now nonce request pid ttl approvals inputs s :
  let s' := (service_authorize V now nonce request pid ttl approvals inputs s).2 in
  log_extends (ss_log s) (ss_log s') ∧ ss_invoked s' = ss_invoked s.
Proof.
  unfold service_authorize. destruct (registry_get _ _); [|by split].
  apply as_issuer_extends, appends_authorize.
Qed.

Lemma record_governance_extends hex at_ event subject actor s :
  let s' := (record_governance_event hex at_ event subject actor s).2 in
  log_extends (ss_log s) (ss_log s') ∧ ss_invoked s' = ss_invoked s.
Proof.
  unfold record_governance_event, on_service_log, zoom, mbind, M_bind, mret, M_ret.
  match goal with |- context [store_append ?fid ?ev (ss_log s)] =>
    pose proof (append_extends fid ev (ss_log s)) as Hx;
    destruct (store_append fid ev (ss_log s)) as [[f|e] l'] end; by split.
Qed.

(** A recorded governance event is the last one of the governance log. *)
Lemma record_governance_ok hex at_ event subject actor s s' :
  record_governance_event hex at_ event subject actor s = (Ok tt, s') →
  governance_log s' = governance_log s ++ [governance_event event subject actor at_].
Proof.
  unfold record_governance_event, on_service_log, zoom. intros H. inv_bind.
  destruct (store_append _ _ (ss_log s)) as [r l'] eqn:Happ. injection Hx as -> <-.
  apply append_ok in Happ as (Hf & Hfs & _). apply frame_create_ok in Hf as (_ & _ & Hev & _).
  unfold governance_log, store_events. cbn [ss_log].
  rewrite Hfs, map_app, List.filter_app. cbn [map]. by rewrite Hev.
Qed.

(** An execution is refused and changes nothing, or calls the action that is
    registered under the name in the signed request, for a validated artifact. *)
Lemma service_execute_cases V now a s :
  store_inv (ss_log s) →
  let r := service_execute V now a s in
  (r.2 = s ∧ ∃ e, r.1 = Raise e) ∨
  (ss_invoked r.2 = ss_invoked s ++ [a] ∧ store_inv (ss_log r.2) ∧
   store_frames (ss_log s) `prefix_of` store_frames (ss_log r.2) ∧
   (∀ m, store_used (ss_log r.2) m = String.eqb m (gaa_nonce a) || store_used (ss_log s) m) ∧
   (∃ name action, dict_get "action" (gaa_action_request a) = PStr name ∧
      assoc_get name (sv_actions V) = Some action) ∧
   ∃ key frame, validated (sv_boundary V) now (ss_log s) a key frame).
Proof.
  intros Hi r. subst r. unfold service_execute.
  destruct (dict_get "action" (gaa_action_request a)) as [| | | |name| | |] eqn:Ha;
    try (left; by eauto).
  destruct (assoc_get name (sv_actions V)) as [action|] eqn:Hact; [|left; by eauto].
  unfold as_engine, zoom.
  destruct (execute_cases (sv_boundary V) now action a
    {| es_log := ss_log s; es_invoked := ss_invoked s |} Hi)
    as [(e & _ & ->)|(Hv & Hinv & Hi' & Hf & Hu)].
  - left. split; [by destruct s|eauto].
  - right. apply validate_ok in Hv.
    destruct (execute _ _ _ _ _) as [r e]. cbn [snd es_log es_invoked ss_log ss_invoked] in *.
    split_and!; try done. by exists name, action.
Qed.
End ServiceLemmas.

(** * Properties *)

(** Calls on the facade, each with the facade as it is at that time. *)
Inductive service_call `{C : Crypto} :=
| ServiceAuthorize (V : GovernedService) (now : Z) (nonce : string) (request : pydict)
    (policy_id : string) (ttl : Z) (approvals : option (list approval_arg))
    (inputs : list GovernanceInput)
| ServiceExecute (V : GovernedService) (now : Z) (artifact : gaa)
| ServiceGovern (hex recorded_at event subject actor : string).

Definition service_run `{C : Crypto} {L} `{RS : ReplayStore L} (s : service_state L)
    (c : service_call) : service_state L :=
  match c with
  | ServiceAuthorize V now nonce request pid ttl approvals inputs =>
      (service_authorize V now nonce request pid ttl approvals inputs s).2
  | ServiceExecute V now a => (service_execute V now a s).2
  | ServiceGovern hex recorded_at event subject actor =>
      (record_governance_event hex recorded_at event subject actor s).2
  end.

(** The call that had the action of [a] called, and what it found in the log. *)
Record justified `{C : Crypto} {L} `{RS : ReplayStore L} (calls : list service_call) (log : L)
    (a : gaa) : Prop := {
  justified_nonce : store_used log (gaa_nonce a) = true;
  justified_call : ∃ V now key name action, ServiceExecute V now a ∈ calls ∧
    engine_resolve (eb_keys (sv_boundary V)) (gaa_issuer_key_id a) = Some key ∧
    gaa_verify_artifact key a = Ok true ∧ now < gaa_expires_at a ∧
    registry_satisfied (sv_boundary V) a ∧
    dict_get "action" (gaa_action_request a) = PStr name ∧
    assoc_get name (sv_actions V) = Some action;
  justified_frame : ∃ frame payload, frame ∈ store_frames log ∧
    rf_frame_id frame = gaa_replay_frame_ref a ∧
    dict_get "type" (rf_event frame) = PStr "authorization" ∧
    gaa_unsigned_payload a = Ok payload ∧
    dict_get "artifact_payload" (rf_event frame) = PStr payload
}.

Record service_inv `{C : Crypto} {L} `{RS : ReplayStore L} (calls : list service_call) (log0 : L)
    (s : service_state L) : Prop := {
  service_log : store_inv (ss_log s);
  service_grows : store_frames log0 `prefix_of` store_frames (ss_log s);
  service_once : NoDup (map gaa_nonce (ss_invoked s));
  service_justified : ∀ a, a ∈ ss_invoked s → justified calls (ss_log s) a
}.

Section History.
Context `{C : Crypto} {L : Type} `{LL : ReplayStoreLaws L}.
Implicit Types (s : service_state L) (calls : list service_call).

(** A justification survives further calls and a growing log. *)
Lemma justified_mono calls calls' (l l' : L) a :
  calls ⊆ calls' → store_frames l `prefix_of` store_frames l' →
  (store_used l (gaa_nonce a) = true → store_used l' (gaa_nonce a) = true) →
  justified calls l a → justified calls' l' a.
Proof.
  intros Hc [fs Hf] Hu [Hn (V & now & key & name & action & Hin & Hj) (f & p & Hfr & Hp)].
  split; [by auto| |].
  - exists V, now, key, name, action. split; [by apply Hc|done].
  - exists f, p. split; [|done]. rewrite Hf. apply elem_of_app. by left.
Qed.

Lemma service_inv_grow calls c log0 s s' :
  service_inv calls log0 s →
  log_extends (ss_log s) (ss_log s') → ss_invoked s' = ss_invoked s →
  service_inv (calls ++ [c]) log0 s'.
Proof.
  intros [Hi Hg Ho Hj] [Hf Hu Hinv] Hs. split; [by apply Hinv|by etransitivity|by rewrite Hs|].
  rewrite Hs. intros a Ha. eapply justified_mono; [|done| |by apply Hj]; [set_solver|by rewrite Hu].
Qed.

Lemma store_get_elem (l : L) id frame : store_get l id = Some frame →
  frame ∈ store_frames l ∧ rf_frame_id frame = id.
Proof.
  intros [Hin Hid]%List.find_some. split; [by apply list_elem_of_In|by apply String.eqb_eq].
Qed.

Lemma validated_justified calls V now s a key frame name action (l' : L) :
  validated (sv_boundary V) now (ss_log s) a key frame →
  ServiceExecute V now a ∈ calls → dict_get "action" (gaa_action_request a) = PStr name →
  assoc_get name (sv_actions V) = Some action →
  store_frames (ss_log s) `prefix_of` store_frames l' → store_used l' (gaa_nonce a) = true →
  justified calls l' a.
Proof.
  intros Hv Hin Hname Hact Hpre Hu. pose proof Hv as [Hk Hs Ht _ Hg Hty _ (p & Hp & Hpl) _ _ Hpol _].
  apply store_get_elem in Hg as [Hfr Hid]. destruct Hpre as [fs Hpre].
  split; [done| |].
  - exists V, now, key, name, action. split_and!; try done. by apply validate_policy_ok.
  - exists frame, p. split_and!; try done. rewrite Hpre. apply elem_of_app. by left.
Qed.

Lemma service_run_inv calls c log0 s :
  service_inv calls log0 s → service_inv (calls ++ [c]) log0 (service_run s c).
Proof.
  intros Hs. pose proof Hs as [Hi Hg Ho Hj].
  destruct c as [V now nonce request pid ttl approvals inputs|V now a|hex at_ event subject actor];
    cbn [service_run].
  - pose proof (service_authorize_extends V now nonce request pid ttl approvals inputs s) as [Hx Hinv].
    by eapply service_inv_grow.
  - destruct (service_execute_cases V now a s Hi)
      as [[-> _]|(Hinv & Hi' & Hf & Hu & (name & action & Hn & Hact) & key & frame & Hv)].
    + by eapply service_inv_grow.
    + assert (∀ b, b ∈ ss_invoked s → gaa_nonce b ≠ gaa_nonce a) as Hne.
      { intros b Hb Heq. pose proof (validated_fresh _ _ _ _ _ _ Hv) as Hfr.
        rewrite <-Heq, (justified_nonce _ _ _ (Hj b Hb)) in Hfr. done. }
      split; [done|by etransitivity| |].
      * rewrite Hinv, map_app. apply NoDup_app. split; [done|]. split; [|apply NoDup_singleton].
        intros m (b & -> & Hb)%list_elem_of_fmap Heq%list_elem_of_singleton. by apply (Hne b).
      * rewrite Hinv. intros b [Hb| ->%list_elem_of_singleton]%elem_of_app.
        -- eapply justified_mono; [|done| |by apply Hj]; [set_solver|].
           intros Hb'. by rewrite Hu, Hb', orb_true_r.
        -- eapply validated_justified; try done; [set_solver|]. by rewrite Hu, String.eqb_refl.
  - pose proof (record_governance_extends hex at_ event subject actor s) as [Hx Hinv].
    by eapply service_inv_grow.
Qed.

Lemma service_runs_inv calls done_ log0 s :
  service_inv done_ log0 s → service_inv (done_ ++ calls) log0 (fold_left service_run calls s).
Proof.
  revert done_ s. induction calls as [|c calls IH]; intros done_ s Hs; cbn [fold_left].
  - by rewrite app_nil_r.
  - replace (done_ ++ c :: calls) with ((done_ ++ [c]) ++ calls) by by rewrite <-app_assoc.
    by apply IH, service_run_inv.
Qed.
End History.

(** C3. The facade is a barrier: in any history of authorizations, executions and
    governance events, with whatever policies, keys, actions and clocks at each
    call, frames are only added to the log, no nonce has its action called
    twice, and every call of an action goes back to an execution call with an
    unexpired artifact whose signature verified under a key its boundary
    resolved, whose request satisfied the registered policy, whose action was
    registered under the name in the request, and whose signed bytes still are
    in an authorization frame of the log. *)
Theorem service_barrier `{C : Crypto} {L} `{LL : ReplayStoreLaws L} (log : L) (mesh_log : option L)
    (calls : list service_call) :
  store_inv log →
  let s := fold_left service_run calls
             {| ss_log := log; ss_mesh_log := mesh_log; ss_invoked := [] |} in
  store_frames log `prefix_of` store_frames (ss_log s) ∧
  NoDup (map gaa_nonce (ss_invoked s)) ∧
  ∀ a, a ∈ ss_invoked s → justified calls (ss_log s) a.
Proof.
  intros Hi s.
  pose proof (service_runs_inv calls [] log
    {| ss_log := log; ss_mesh_log := mesh_log; ss_invoked := [] |}) as [_ Hg Ho Hj]; [|done].
  split; [done|done|constructor|]. intros a Ha. by apply not_elem_of_nil in Ha.
Qed.

Definition example_service : @GovernedService toy_crypto :=
  {| sv_issuer := example_issuer; sv_boundary := example_boundary;
     sv_policies := registry_put example_policy registry_empty;
     sv_actions := [("payments.transfer", example_action)]; sv_sources := None |}.

Definition service_calls : list (@service_call toy_crypto) :=
  [ServiceGovern "e1" "2026-01-01T00:00:00+00:00" "policy_activated" "payments" "alice";
   ServiceAuthorize example_service 1000 "n1" (example_request 100) "payments" 300 None [];
   ServiceExecute example_service 1100 example_gaa; ServiceExecute example_service 1101 example_gaa].

Abbreviation service_example :=
  (fold_left service_run service_calls
     {| ss_log := replay_new false; ss_mesh_log := None; ss_invoked := [] |}).

(** The artifact executes once, and its second presentation is refused. *)
Lemma service_barrier_witness :
  ss_invoked service_example = [example_gaa] ∧
  justified service_calls (ss_log service_example) example_gaa.
Proof.
  assert (ss_invoked service_example = [example_gaa]) as Hs by (vm_compute; reflexivity).
  assert (store_inv (replay_new false)) as Hi by exact Logic.I.
  split; [exact Hs|].
  apply (proj2 (proj2 (service_barrier (L := ReplayLog) (replay_new false) None service_calls Hi))).
  change (example_gaa ∈ ss_invoked service_example). rewrite Hs. left.
Defined.
