(* ===== verification/Observability.v ===== *)
(** observability.py: W3C trace contexts, runtime counters and their reports.
    The time of a record is an argument. *)

From S2P Require Import Prelude PyFloat PyVal Json Sha256 Base64 Crypto Trust Models Policy Arbiter PolicyRegistry Lines Replay ReplayStore Mesh Issuer Engine SemVer Deployment Service.

(** * Trace contexts *)

Record TraceContext := { tc_trace_id : string; tc_parent_id : string; tc_trace_flags : string }.

Definition trace_char (c : ascii) : bool := has_char c "0123456789abcdef".

(** [set(s) == {"0"}] *)
Definition all_zero (s : string) : bool :=
  negb (String.eqb s "") && all_chars (λ c, Ascii.eqb c "0") s.

Definition from_traceparent (value : option string) : option TraceContext :=
  value ← value;
  match split_on "-" value with
  | [version; trace; parent; flags] =>
      if negb (String.eqb version "00") || negb (py_len trace =? 32) || negb (py_len parent =? 16)
         || negb (py_len flags =? 2)
         || existsb (λ part, negb (all_chars trace_char part)) [trace; parent; flags]
         || all_zero trace || all_zero parent
      then None
      else Some {| tc_trace_id := trace; tc_parent_id := parent; tc_trace_flags := flags |}
  | _ => None
  end.

Definition traceparent (c : TraceContext) : string :=
  "00-" +:+ tc_trace_id c +:+ "-" +:+ tc_parent_id c +:+ "-" +:+ tc_trace_flags c.

(** [InMemoryTraceRecorder.record]; the state is [events]. *)
Definition record_trace (name : string) (attributes : pydict) (context : option TraceContext)
    : M (list pydict) unit :=
  modify (λ events, events ++
    [[("name", PStr name); ("attributes", PDict attributes);
      ("traceparent", opt_str (traceparent <$> context))]]).

(** * Counters *)

Record RuntimeMetrics := {
  rm_service : string;
  rm_environment : string;
  rm_authorizations : Z;
  rm_authorized : Z;
  rm_denied : Z;
  rm_executions : Z;
  rm_succeeded : Z;
  rm_failed : Z;
  rm_last_updated_at : Z
}.

Definition metrics_new (service environment : string) (now : Z) : RuntimeMetrics :=
  {| rm_service := service; rm_environment := environment; rm_authorizations := 0;
     rm_authorized := 0; rm_denied := 0; rm_executions := 0; rm_succeeded := 0; rm_failed := 0;
     rm_last_updated_at := now |}.

Definition record_authorized (now : Z) (m : RuntimeMetrics) : RuntimeMetrics :=
  {| rm_service := rm_service m; rm_environment := rm_environment m;
     rm_authorizations := rm_authorizations m + 1; rm_authorized := rm_authorized m + 1;
     rm_denied := rm_denied m; rm_executions := rm_executions m; rm_succeeded := rm_succeeded m;
     rm_failed := rm_failed m; rm_last_updated_at := now |}.

Definition record_denied (now : Z) (m : RuntimeMetrics) : RuntimeMetrics :=
  {| rm_service := rm_service m; rm_environment := rm_environment m;
     rm_authorizations := rm_authorizations m + 1; rm_authorized := rm_authorized m;
     rm_denied := rm_denied m + 1; rm_executions := rm_executions m; rm_succeeded := rm_succeeded m;
     rm_failed := rm_failed m; rm_last_updated_at := now |}.

Definition record_execution (ok : bool) (now : Z) (m : RuntimeMetrics) : RuntimeMetrics :=
  {| rm_service := rm_service m; rm_environment := rm_environment m;
     rm_authorizations := rm_authorizations m; rm_authorized := rm_authorized m;
     rm_denied := rm_denied m; rm_executions := rm_executions m + 1;
     rm_succeeded := if ok then rm_succeeded m + 1 else rm_succeeded m;
     rm_failed := if ok then rm_failed m else rm_failed m + 1; rm_last_updated_at := now |}.

(** The counters that [prometheus] prints, in its order. *)
Definition counters (m : RuntimeMetrics) : list (string * Z) :=
  [("total_authorizations", rm_authorizations m); ("successful_authorizations", rm_authorized m);
   ("denied_authorizations", rm_denied m); ("total_executions", rm_executions m);
   ("successful_executions", rm_succeeded m); ("failed_executions", rm_failed m)].

Definition metrics_to_dict (m : RuntimeMetrics) : pydict :=
  [("service", PStr (rm_service m)); ("environment", PStr (rm_environment m))] ++
  map (λ kv, (kv.1, PInt kv.2)) (counters m) ++
  [("last_updated_at", PInt (rm_last_updated_at m))].

Definition newline : string := chr 10.

Definition prometheus (m : RuntimeMetrics) : string :=
  join newline (map (λ kv,
    "governed_autonomy_" +:+ kv.1 +:+ "{service=" +:+ dquote +:+ rm_service m +:+ dquote +:+
    ",environment=" +:+ dquote +:+ rm_environment m +:+ dquote +:+ "} " +:+ string_of_Z kv.2)
    (counters m)) +:+ newline.

(** [snapshot] and [export_audit_bundle] of the facade over a log in memory. *)
Definition snapshot `{C : Crypto} (V : GovernedService) (log : ReplayLog) (m : RuntimeMetrics) : res pydict :=
  report ← audit_report V log;
  Ok [("metrics", PDict (metrics_to_dict m)); ("health", dict_get "health" report);
      ("actions", of_strs (sort_strings (map fst (sv_actions V))));
      ("policy_ids", of_strs (sort_strings (map fst (registry_versions (sv_policies V)))))].

Definition export_audit_bundle `{C : Crypto} (V : GovernedService) (log : ReplayLog)
    (m : RuntimeMetrics) (now : Z) : res pydict :=
  report ← audit_report V log;
  Ok [("service", PStr (rm_service m)); ("environment", PStr (rm_environment m));
      ("metrics", PDict (metrics_to_dict m)); ("audit", PDict report); ("generated_at", PInt now)].

(** [trace_hook] with an in-memory tracer, if there is one. *)
Definition trace_hook (tracer : bool) (event : string) (attributes : pyval)
    (context : option TraceContext) : M (list pydict) unit :=
  match attributes with
  | PDict d =>
      raise_if (String.eqb event "") (ValueError "event and attributes are required") ;;
      if tracer then record_trace event d context else mret tt
  | _ => raise (ValueError "event and attributes are required")
  end.

(** * Lemmas *)

(** Every authorization was granted or denied, every execution succeeded or failed. *)
Record metrics_inv (m : RuntimeMetrics) : Prop := {
  mi_authorizations : rm_authorizations m = rm_authorized m + rm_denied m;
  mi_executions : rm_executions m = rm_succeeded m + rm_failed m
}.

Lemma metrics_new_inv service environment now : metrics_inv (metrics_new service environment now).
Proof. by split. Qed.

Lemma record_authorized_inv now m : metrics_inv m → metrics_inv (record_authorized now m).
Proof. intros [? ?]. split; cbn; lia. Qed.
Lemma record_denied_inv now m : metrics_inv m → metrics_inv (record_denied now m).
Proof. intros [? ?]. split; cbn; lia. Qed.
Lemma record_execution_inv ok now m : metrics_inv m → metrics_inv (record_execution ok now m).
Proof. intros [? ?]. destruct ok; split; cbn; lia. Qed.

#[export] Hint Resolve metrics_new_inv record_authorized_inv record_denied_inv record_execution_inv : gas.

Lemma split_from_cons c cur s : split_from c cur s ≠ [].
Proof. revert cur. induction s as [|d s IH]; intros cur; simpl; [done|]. by case_match. Qed.

Lemma join_split_from c cur s : join (String c "") (split_from c cur s) = cur +:+ s.
Proof.
  revert cur. induction s as [|d s IH]; intros cur; cbn [split_from].
  - cbn [join String.concat]. by rewrite string_app_nil_r.
  - destruct (Ascii.eqb_spec d c) as [->|].
    + specialize (IH ""). destruct (split_from c "" s) as [|w l] eqn:E; [by destruct (split_from_cons c "" s)|].
      change (join (String c "") (cur :: w :: l)) with
        (cur +:+ String c "" +:+ join (String c "") (w :: l)). by rewrite IH.
    + by rewrite IH, string_app_assoc.
Qed.

(** A trace context that was accepted prints as the header it came from. *)
Lemma traceparent_roundtrip s c : from_traceparent (Some s) = Some c → traceparent c = s.
Proof.
  unfold from_traceparent. cbn [mbind option_bind]. intros H.
  pose proof (join_split_from "-" "" s) as Hj. change (split_from "-" "" s) with (split_on "-" s) in Hj.
  destruct (split_on "-" s) as [|v [|t [|p [|f []]]]]; try done.
  destruct (negb (String.eqb v "00")) eqn:Hv; [done|]. cbn [orb] in H.
  destruct (_ || _); [done|]. injection H as <-. breflect. subst v. exact Hj.
Qed.
