(* ===== verification/Platform.v ===== *)
(** platform.py: the platform layer.  A runtime identity, a registry of service
    principals and the deployment guardrails stand in front of the service
    facade; the identity's claims replace what a request says about itself.

    The file shows that an artifact issued through the platform carries the
    identity's claims, whatever the caller put into the request, and that every
    guardrail held for it. *)

From stdpp Require Import gmap.
From S2P Require Import Prelude PyFloat PyVal Json Sha256 Base64 Crypto Trust Models Policy Arbiter PolicyRegistry Replay ReplayStore Mesh Issuer Engine Rbac SemVer Deployment Service Observability.

(** ** Runtime identities *)

Record RuntimeIdentity := {
  ri_service : string;
  ri_environment : string;
  ri_tenant_id : option string;
  ri_actor_id : option string;
  ri_request_id : option string;
  ri_source : option string;
  ri_principal_id : option string;
  ri_roles : list string;
  ri_scope : pydict;
  ri_subject : option string;
  ri_name : option string;
  ri_email : option string;
  ri_groups : list string;
  ri_issuer : option string;
  ri_identity_source : option string;
  ri_service_principal : bool;
  ri_identity_type : string
}.

(** [RuntimeIdentity(service=..., environment=..., tenant_id=..., actor_id=...)] *)
Definition deployed_identity (service environment_ : string) (tenant_id actor_id : option string) : RuntimeIdentity :=
  {| ri_service := service; ri_environment := environment_; ri_tenant_id := tenant_id; ri_actor_id := actor_id;
     ri_request_id := None; ri_source := None; ri_principal_id := None; ri_roles := []; ri_scope := [];
     ri_subject := None; ri_name := None; ri_email := None; ri_groups := []; ri_issuer := None;
     ri_identity_source := None; ri_service_principal := false; ri_identity_type := "human" |}.

(** [identity.ExternalIdentity] *)
Record ExternalIdentity := { ei_subject : string; ei_issuer : string; ei_claims : pydict }.

Definition identity_types : list string :=
  ["human"; "service_principal"; "managed_identity"; "workload_identity"; "machine"].

Definition external_identity_type (claims : pydict) (service_principal : bool) : res string :=
  let stated := dict_get "identity_type" claims in
  fail_if (negb (hashable stated)) (TypeError "unhashable type") ;;
  let derived :=
    if truthy (dict_get "xms_mirid" claims) then "managed_identity"
    else if truthy (dict_get "workload_identity" claims) || truthy (dict_get "workload" claims)
    then "workload_identity"
    else if service_principal then "service_principal"
    else if truthy (dict_get "machine_identity" claims) then "machine" else "human" in
  Ok match stated with PStr t => if str_in t identity_types then t else derived | _ => derived end.

Definition from_external_identity `{U : UnicodeData} (identity : ExternalIdentity)
    (service environment : string) (request_id : option string) (source legacy_admin_role : string)
    : res RuntimeIdentity :=
  let claims := assoc_set "sub" (PStr (ei_subject identity)) (ei_claims identity) in
  mapped ← map_to_identity (claims_mapper [] legacy_admin_role "gas.admin") claims;
  let email := py_or (py_or (dict_get "email" claims) (dict_get "preferred_username" claims))
                     (dict_get "upn" claims) in
  identity_type ← external_identity_type claims (ci_service_principal mapped);
  Ok {| ri_service := service; ri_environment := environment; ri_tenant_id := ci_tenant_id mapped;
        ri_actor_id := Some ("oidc:" +:+ ei_issuer identity +:+ ":" +:+ ci_subject mapped);
        ri_request_id := request_id; ri_source := Some source;
        ri_principal_id := if ci_service_principal mapped then ci_service_id mapped else None;
        ri_roles := sort_strings (map role_value (elements (ci_roles mapped)));
        ri_scope := []; ri_subject := Some (ci_subject mapped);
        ri_name := str_or_none (dict_get "name" claims); ri_email := str_or_none email;
        ri_groups := ci_groups mapped; ri_issuer := Some (ei_issuer identity);
        ri_identity_source :=
          Some (if String.prefix "https://login.microsoftonline.com/" (ei_issuer identity)
                then "entra" else "oidc");
        ri_service_principal := ci_service_principal mapped; ri_identity_type := identity_type |}.

(** [if v is not None: context[k] = v] *)
Definition set_some (k : string) (v : option string) (d : pydict) : pydict :=
  match v with Some s => assoc_set k (PStr s) d | None => d end.
(** [if b: context[k] = v] *)
Definition set_if (b : bool) (k : string) (v : pyval) (d : pydict) : pydict :=
  if b then assoc_set k v d else d.

Definition nonempty {A} (l : list A) : bool := match l with [] => false | _ => true end.

(** [RuntimeIdentity.context] *)
Definition identity_context (i : RuntimeIdentity) : pydict :=
  let c := ri_scope i in
  let c := set_some "tenant_id" (ri_tenant_id i) c in
  let c := set_some "actor_id" (ri_actor_id i) c in
  let c := assoc_set "environment" (PStr (ri_environment i)) c in
  let c := set_some "request_id" (ri_request_id i) c in
  let c := set_some "source" (ri_source i) c in
  let c := set_some "principal_id" (ri_principal_id i) c in
  let c := set_if (nonempty (ri_roles i)) "roles" (of_strs (ri_roles i)) c in
  let c := set_some "subject" (ri_subject i) c in
  let c := set_some "name" (ri_name i) c in
  let c := set_some "email" (ri_email i) c in
  let c := set_if (nonempty (ri_groups i)) "groups" (of_strs (ri_groups i)) c in
  let c := set_some "issuer" (ri_issuer i) c in
  let c := set_some "identity_source" (ri_identity_source i) c in
  let c := set_if (ri_service_principal i) "service_principal" (PBool true) c in
  set_if (negb (String.eqb (ri_identity_type i) "human")) "identity_type"
    (PStr (ri_identity_type i)) c.

Definition to_identity_dict (i : RuntimeIdentity) : pydict :=
  [("subject", PStr (default "" (ri_subject i))); ("tenant", PStr (default "" (ri_tenant_id i)));
   ("groups", of_strs (ri_groups i)); ("roles", of_strs (ri_roles i));
   ("issuer", PStr (default "" (ri_issuer i)));
   ("service_principal", PBool (ri_service_principal i));
   ("identity_type", PStr (ri_identity_type i))].

(** ** Service principals *)

Record ServicePrincipal := {
  sp_principal_id : string;
  sp_tenant_id : option string;
  sp_roles : list string;
  sp_allowed_actions : list string;
  sp_allowed_environments : list string;
  sp_allowed_sources : list string;
  sp_scope : pydict
}.

Definition ServicePrincipalRegistry := list (string * ServicePrincipal).

Definition principal_register (p : ServicePrincipal) : M ServicePrincipalRegistry unit :=
  modify (assoc_set (sp_principal_id p) p).

Definition principal_get (r : ServicePrincipalRegistry) (principal_id : string) : res ServicePrincipal :=
  match assoc_get principal_id r with
  | Some p => Ok p
  | None => Raise (ValueError ("unknown service principal: " +:+ py_repr_str principal_id))
  end.

(** [v in names], for a value of any type *)
Definition value_in (v : pyval) (names : list string) : bool := existsb (λ n, py_eqb v (PStr n)) names.

(** [names and v not in names] *)
Definition outside (v : pyval) (names : list string) : bool := nonempty names && negb (value_in v names).

Definition tenant_mismatch (p : ServicePrincipal) (i : RuntimeIdentity) : res unit :=
  match sp_tenant_id p, ri_tenant_id i with
  | Some expected, Some tenant =>
      fail_if (negb (String.eqb expected tenant))
        (ValueError ("principal tenant mismatch for principal " +:+
           name_repr (ri_principal_id i) +:+ ": " +:+ py_repr_str expected +:+ " != " +:+ py_repr_str tenant))
  | Some _, None =>
      Raise (ValueError "runtime identity is missing tenant_id for this service principal")
  | None, _ => Ok tt
  end.

Definition missing_keys (scope context : pydict) : list string :=
  List.filter (λ k, negb (assoc_has k context)) (map fst scope).

Definition principal_validate (r : ServicePrincipalRegistry) (i : RuntimeIdentity) (action : pyval)
    (context : pydict) : res unit :=
  match ri_principal_id i with
  | None =>
      Raise (ValueError "principal_id is required when a service-principal registry is configured")
  | Some id =>
      p ← principal_get r id;
      let for_principal := " for principal " +:+ py_repr_str id in
      tenant_mismatch p i ;;
      fail_if (negb (is_none action) && outside action (sp_allowed_actions p))
        (ValueError ("action " +:+ py_repr action +:+ " is not allowed" +:+ for_principal)) ;;
      let environment := dict_get_or "environment" (PStr (ri_environment i)) context in
      fail_if (outside environment (sp_allowed_environments p))
        (ValueError ("environment " +:+ py_repr environment +:+ " is not permitted" +:+ for_principal)) ;;
      let source := dict_get_or "source" (opt_str (ri_source i)) context in
      fail_if (negb (is_none source) && outside source (sp_allowed_sources p))
        (ValueError ("source " +:+ py_repr source +:+ " is not permitted" +:+ for_principal)) ;;
      let missing := missing_keys (sp_scope p) context in
      fail_if (nonempty missing)
        (ValueError ("service principal requires scope keys: " +:+ py_repr (of_strs missing)))
  end.

(** ** Deployment guardrails *)

Record PlatformDeploymentPolicy := {
  dp_allowed_environments : list string;
  dp_allowed_sources : list string;
  dp_require_request_id : bool;
  dp_require_actor_id : bool;
  dp_require_tenant : bool;
  dp_required_roles : list string;
  dp_max_context_entries : Z;
  dp_mesh_required_actions : list string;
  dp_mesh_required_environments : list string;
  dp_mesh_required_sources : list string;
  dp_min_mesh_inputs : Z
}.

Definition default_deployment : PlatformDeploymentPolicy :=
  {| dp_allowed_environments := ["dev"; "staging"; "prod"];
     dp_allowed_sources := ["internal"; "api"; "worker"; "scheduled"; "manual"];
     dp_require_request_id := true; dp_require_actor_id := false; dp_require_tenant := false;
     dp_required_roles := []; dp_max_context_entries := 32; dp_mesh_required_actions := [];
     dp_mesh_required_environments := []; dp_mesh_required_sources := []; dp_min_mesh_inputs := 0 |}.

(** [source == allowed or source.startswith(f"{allowed}-")] for some allowed one *)
Definition source_matches (s : string) (allowed : list string) : bool :=
  existsb (λ a, String.eqb s a || String.prefix (a +:+ "-") s) allowed.

Definition source_allowed (source : pyval) (allowed : list string) : res bool :=
  match source, allowed with
  | PStr s, _ => Ok (source_matches s allowed)
  | _, [] => Ok false
  | _, _ => Raise (OtherError "AttributeError" "object has no attribute 'startswith'")
  end.

Definition check_source (D : PlatformDeploymentPolicy) (source : pyval) : res unit :=
  if is_none source then Ok tt else
  allowed ← source_allowed source (dp_allowed_sources D);
  fail_if (negb allowed)
    (ValueError ("source is not allowed for this runtime: " +:+ py_repr source)).

Definition few_mesh_inputs (D : PlatformDeploymentPolicy) (inputs : list GovernanceInput) : bool :=
  Z.of_nat (length inputs) <? Z.max 1 (dp_min_mesh_inputs D).

Definition missing_sources (D : PlatformDeploymentPolicy) (inputs : list GovernanceInput) : list string :=
  List.filter (λ s, negb (str_in s (map gi_source_id inputs))) (dp_mesh_required_sources D).

Definition deployment_validate (D : PlatformDeploymentPolicy) (i : RuntimeIdentity) (context : pydict)
    (action : pyval) (inputs : list GovernanceInput) : res unit :=
  let value k default := dict_get_or k (opt_str default) context in
  let environment := dict_get_or "environment" (PStr (ri_environment i)) context in
  fail_if (negb (value_in environment (dp_allowed_environments D)))
    (ValueError ("environment is not allowed for this runtime: " +:+ py_repr environment)) ;;
  fail_if (dp_require_tenant D && negb (truthy (value "tenant_id" (ri_tenant_id i))))
    (ValueError "tenant_id is required for this runtime configuration") ;;
  fail_if (dp_require_actor_id D && negb (truthy (value "actor_id" (ri_actor_id i))))
    (ValueError "actor_id is required for this runtime configuration") ;;
  fail_if (dp_require_request_id D && negb (truthy (value "request_id" (ri_request_id i))))
    (ValueError "request_id is required for this runtime configuration") ;;
  check_source D (value "source" (ri_source i)) ;;
  let missing_roles := List.filter (λ r, negb (str_in r (ri_roles i))) (dp_required_roles D) in
  fail_if (nonempty missing_roles)
    (ValueError ("identity is missing required roles: " +:+ py_repr (of_strs missing_roles))) ;;
  fail_if (value_in action (dp_mesh_required_actions D) && few_mesh_inputs D inputs)
    (ValueError ("mesh_inputs are required for action " +:+ py_repr action)) ;;
  fail_if (value_in environment (dp_mesh_required_environments D) && few_mesh_inputs D inputs)
    (ValueError ("mesh_inputs are required in environment " +:+ py_repr environment)) ;;
  fail_if (nonempty (missing_sources D inputs))
    (ValueError ("mesh source requirements are not satisfied: " +:+ join ", " (missing_sources D inputs))) ;;
  fail_if (dp_max_context_entries D <? Z.of_nat (length context))
    (ValueError "runtime context exceeds the allowed size").

(** [PlatformDeploymentPolicy.to_dict] *)
Definition deployment_to_dict (D : PlatformDeploymentPolicy) : pydict :=
  let listed k l (d : pydict) := set_if (nonempty l) k (of_strs l) d in
  set_if (negb (dp_min_mesh_inputs D =? 0)) "min_mesh_inputs" (PInt (dp_min_mesh_inputs D))
   (listed "mesh_required_sources" (dp_mesh_required_sources D)
    (listed "mesh_required_environments" (dp_mesh_required_environments D)
     (listed "mesh_required_actions" (dp_mesh_required_actions D)
      [("allowed_environments", of_strs (dp_allowed_environments D));
       ("allowed_sources", of_strs (dp_allowed_sources D));
       ("require_request_id", PBool (dp_require_request_id D));
       ("require_actor_id", PBool (dp_require_actor_id D));
       ("require_tenant", PBool (dp_require_tenant D));
       ("required_roles", of_strs (dp_required_roles D));
       ("max_context_entries", PInt (dp_max_context_entries D))]))).

(** ** The platform *)

Section Platform.
Context `{C : Crypto} {L : Type} `{RS : ReplayStore L}.

Record GovernancePlatform := {
  gp_service : GovernedService;
  gp_identity : RuntimeIdentity;
  gp_deployment : PlatformDeploymentPolicy;
  gp_principals : option ServicePrincipalRegistry;
  gp_sources : option (GovernanceSourceRegistry * option TrustStore)
}.

(** [GovernancePlatform.__init__]: a source registry of the platform becomes the
    service's, and the issuer's when it has none. *)
Definition platform_init (service : GovernedService) (identity : RuntimeIdentity)
    (deployment : option PlatformDeploymentPolicy) (principals : option ServicePrincipalRegistry)
    (sources : option (GovernanceSourceRegistry * option TrustStore)) : GovernancePlatform :=
  let service' :=
    match sources with
    | None => service
    | Some _ =>
        let V := {| sv_issuer := sv_issuer service; sv_boundary := sv_boundary service;
                    sv_policies := sv_policies service; sv_actions := sv_actions service;
                    sv_sources := sources |} in
        {| sv_issuer := bound_issuer V; sv_boundary := sv_boundary V; sv_policies := sv_policies V;
           sv_actions := sv_actions V; sv_sources := sources |}
    end in
  {| gp_service := service'; gp_identity := identity;
     gp_deployment := default default_deployment deployment; gp_principals := principals;
     gp_sources := sources |}.

Record platform_state := { pt_service : service_state L; pt_metrics : RuntimeMetrics }.

Definition on_service {A} (m : M (service_state L) A) : M platform_state A :=
  zoom pt_service (λ v s, {| pt_service := v; pt_metrics := pt_metrics s |}) m.

Definition on_metrics (f : RuntimeMetrics → RuntimeMetrics) : M platform_state unit :=
  modify (λ s, {| pt_service := pt_service s; pt_metrics := f (pt_metrics s) |}).

(** The request's context, then the caller's, then the identity's. *)
Definition effective_context (i : RuntimeIdentity) (request context : pydict) : res pydict :=
  match dict_get_or "context" (PDict []) request with
  | PDict requested => Ok (assoc_update (assoc_update requested context) (identity_context i))
  | _ => Raise (TypeError "request context must be an object")
  end.

(** The checks in front of the service. *)
Definition platform_guards (P : GovernancePlatform) (request context : pydict)
    (inputs : list GovernanceInput) : res unit :=
  let action := dict_get "action" request in
  match gp_principals P with
  | Some r => principal_validate r (gp_identity P) action context
  | None => Ok tt
  end ;;
  deployment_validate (gp_deployment P) (gp_identity P) context action inputs.

(** [GovernancePlatform.authorize]; [stamp] is the time the metrics record. *)
Definition platform_authorize (P : GovernancePlatform) (now : Z) (nonce : string) (stamp : Z)
    (request : pydict) (policy_id : string) (ttl_seconds : Z)
    (approvals : option (list approval_arg)) (context : pydict) (inputs : list GovernanceInput)
    : M platform_state gaa :=
  ctx ← lift_res (effective_context (gp_identity P) request context);
  let request := assoc_set "context" (PDict ctx) request in
  lift_res (platform_guards P request ctx inputs) ;;
  try_except
    (artifact ← on_service
       (service_authorize (gp_service P) now nonce request policy_id ttl_seconds approvals inputs);
     on_metrics (record_authorized stamp) ;;
     mret artifact)
    (λ e, Some (on_metrics (record_denied stamp) ;; raise e)).

Definition platform_execute (P : GovernancePlatform) (now stamp : Z) (artifact : gaa)
    : M platform_state pyval :=
  try_except
    (result ← on_service (service_execute (gp_service P) now artifact);
     on_metrics (record_execution true stamp) ;;
     mret result)
    (λ e, Some (on_metrics (record_execution false stamp) ;; raise e)).
End Platform.
#[global] Arguments platform_state : clear implicits.

(** [platform_report], over the log in memory. *)
Definition platform_report `{C : Crypto} (P : GovernancePlatform) (log : ReplayLog) (m : RuntimeMetrics)
    : res pydict :=
  let i := gp_identity P in
  let V := gp_service P in
  report ← audit_report V log;
  snap ← snapshot V log m;
  Ok ([("service", PStr (ri_service i)); ("environment", PStr (ri_environment i));
       ("tenant_id", opt_str (ri_tenant_id i)); ("actor_id", opt_str (ri_actor_id i));
       ("request_id", opt_str (ri_request_id i)); ("principal_id", opt_str (ri_principal_id i));
       ("roles", of_strs (ri_roles i)); ("subject", opt_str (ri_subject i));
       ("name", opt_str (ri_name i)); ("email", opt_str (ri_email i));
       ("groups", of_strs (ri_groups i)); ("health", dict_get "health" report);
       ("policy_ids", of_strs (sort_strings (map fst (registry_versions (sv_policies V)))));
       ("actions", of_strs (sort_strings (map fst (sv_actions V))));
       ("metrics", dict_get "metrics" snap);
       ("deployment", PDict (deployment_to_dict (gp_deployment P)))] ++
      match gp_sources P with
      | Some (r, _) =>
          [("mesh_source_registry",
            PDict [("sources", PInt (Z.of_nat (length (sr_keys r))));
                   ("revoked", PInt (Z.of_nat (size (sr_revoked r))))])]
      | None => []
      end).

(** * Lemmas *)

(** ** The identity's claims *)

Lemma set_some_get_ne k k' v d : k ≠ k' → assoc_get k' (set_some k v d) = assoc_get k' d.
Proof. intros Hne. destruct v; [by apply assoc_get_set_ne|done]. Qed.
Lemma set_if_get_ne b k k' v d : k ≠ k' → assoc_get k' (set_if b k v d) = assoc_get k' d.
Proof. intros Hne. destruct b; [by apply assoc_get_set_ne|done]. Qed.
Lemma set_some_get k s d : assoc_get k (set_some k (Some s) d) = Some (PStr s).
Proof. apply assoc_get_set_eq. Qed.
Lemma set_some_NoDup k v d : List.NoDup (map fst d) → List.NoDup (map fst (set_some k v d)).
Proof. destruct v; [apply assoc_set_NoDup|done]. Qed.
Lemma set_if_NoDup b k v d : List.NoDup (map fst d) → List.NoDup (map fst (set_if b k v d)).
Proof. destruct b; [apply assoc_set_NoDup|done]. Qed.
#[export] Hint Resolve set_some_NoDup set_if_NoDup : gas.

Lemma identity_context_NoDup i :
  List.NoDup (map fst (ri_scope i)) → List.NoDup (map fst (identity_context i)).
Proof. unfold identity_context. auto 20 with gas. Qed.

(** Look a claim up behind the assignments of other keys. *)
Ltac claim_get :=
  unfold identity_context; cbv zeta;
  repeat first [rewrite set_if_get_ne by done | rewrite set_some_get_ne by done
               | rewrite assoc_get_set_ne by done].

(** The claims that tell tenants, subjects and environments apart. *)
Record carries (i : RuntimeIdentity) (ctx : pydict) : Prop := {
  carries_environment : assoc_get "environment" ctx = Some (PStr (ri_environment i));
  carries_tenant : ∀ t, ri_tenant_id i = Some t → assoc_get "tenant_id" ctx = Some (PStr t);
  carries_actor : ∀ t, ri_actor_id i = Some t → assoc_get "actor_id" ctx = Some (PStr t);
  carries_principal : ∀ t, ri_principal_id i = Some t → assoc_get "principal_id" ctx = Some (PStr t);
  carries_subject : ∀ t, ri_subject i = Some t → assoc_get "subject" ctx = Some (PStr t);
  carries_issuer : ∀ t, ri_issuer i = Some t → assoc_get "issuer" ctx = Some (PStr t)
}.

Lemma identity_context_carries i : carries i (identity_context i).
Proof.
  split; [by claim_get; apply assoc_get_set_eq|intros t Ht; claim_get; rewrite Ht; apply set_some_get..].
Qed.

Lemma carries_agree i ctx ctx' :
  (∀ k v, assoc_get k ctx = Some v → assoc_get k ctx' = Some v) → carries i ctx → carries i ctx'.
Proof. intros H []. split; eauto. Qed.

(** Identity first, then the caller's context, then the request's own. *)
Lemma effective_context_get i request context requested ctx k :
  List.NoDup (map fst (ri_scope i)) → List.NoDup (map fst context) →
  dict_get_or "context" (PDict []) request = PDict requested →
  effective_context i request context = Ok ctx →
  assoc_get k ctx =
    match assoc_get k (identity_context i) with
    | Some v => Some v
    | None => match assoc_get k context with Some v => Some v | None => assoc_get k requested end
    end.
Proof.
  intros Hi Hc Hr H. unfold effective_context in H. rewrite Hr in H. injection H as <-.
  rewrite assoc_get_update by by apply identity_context_NoDup. by rewrite assoc_get_update.
Qed.

(** ** What the guards accept *)

Lemma nonempty_filter {A} (f : A → bool) l :
  nonempty (List.filter f l) = false ↔ ∀ x, x ∈ l → f x = false.
Proof.
  setoid_rewrite list_elem_of_In. split.
  - intros H x Hx. destruct (f x) eqn:E; [|done].
    assert (In x (List.filter f l)) as Hin by (by apply filter_In).
    by destruct (List.filter f l).
  - intros H. destruct (List.filter f l) as [|x m] eqn:E; [done|].
    assert (In x (List.filter f l)) as [Hx Hf]%filter_In by (rewrite E; by left).
    by rewrite H in Hf.
Qed.

Lemma value_in_spec v names : value_in v names = true ↔ ∃ n, n ∈ names ∧ v = PStr n.
Proof.
  unfold value_in. rewrite existsb_exists. setoid_rewrite list_elem_of_In.
  by setoid_rewrite py_eqb_str.
Qed.

Lemma outside_false v names : outside v names = false ↔ names = [] ∨ ∃ n, n ∈ names ∧ v = PStr n.
Proof.
  unfold outside. rewrite <-value_in_spec. destruct names as [|n names]; cbn [nonempty andb].
  - split; [by left|done].
  - rewrite negb_false_iff. split; [by right|]. by intros [|].
Qed.

Record principal_ok (r : ServicePrincipalRegistry) (i : RuntimeIdentity) (action : pyval)
    (context : pydict) (id : string) (p : ServicePrincipal) : Prop := {
  principal_id_ok : ri_principal_id i = Some id ∧ assoc_get id r = Some p;
  principal_tenant : ∀ t, sp_tenant_id p = Some t → ri_tenant_id i = Some t;
  principal_action : action = PNone ∨ outside action (sp_allowed_actions p) = false;
  principal_environment :
    outside (dict_get_or "environment" (PStr (ri_environment i)) context)
      (sp_allowed_environments p) = false;
  principal_source : let source := dict_get_or "source" (opt_str (ri_source i)) context in
    source = PNone ∨ outside source (sp_allowed_sources p) = false;
  principal_scope : ∀ k, k ∈ map fst (sp_scope p) → assoc_has k context = true
}.

Lemma is_none_true v : is_none v = true ↔ v = PNone.
Proof. by destruct v. Qed.

Lemma tenant_mismatch_ok p i :
  tenant_mismatch p i = Ok tt ↔ ∀ t, sp_tenant_id p = Some t → ri_tenant_id i = Some t.
Proof.
  unfold tenant_mismatch. destruct (sp_tenant_id p) as [e|], (ri_tenant_id i) as [t|];
    rewrite ?fail_if_ok, ?negb_false_iff, ?String.eqb_eq; naive_solver.
Qed.

Lemma fail_bind b e (m : res unit) : (fail_if b e ;; m) = Ok tt ↔ b = false ∧ m = Ok tt.
Proof.
  rewrite res_bind_ok. setoid_rewrite fail_if_ok. split; [by intros (_ & ? & ?)|].
  intros [? ?]. by exists tt.
Qed.

Lemma unit_bind (m k : res unit) : (m ;; k) = Ok tt ↔ m = Ok tt ∧ k = Ok tt.
Proof. rewrite res_bind_ok. split; [by intros ([] & ? & ?)|]. intros [? ?]. by exists tt. Qed.

Lemma none_or b v : negb (is_none v) && b = false ↔ v = PNone ∨ b = false.
Proof. rewrite andb_false_iff, negb_false_iff. by rewrite is_none_true. Qed.

Lemma principal_validate_ok r i action context :
  principal_validate r i action context = Ok tt ↔ ∃ id p, principal_ok r i action context id p.
Proof.
  unfold principal_validate. destruct (ri_principal_id i) as [id|] eqn:Hid.
  2: { split; [done|]. by intros (id & p & [[? _] _ _ _ _ _]); congruence. }
  unfold principal_get. split.
  - intros H. apply res_bind_ok in H as (p & Hp & H). destruct (assoc_get id r) as [q|] eqn:Hr; [|done].
    injection Hp as <-. cbv zeta in H.
    rewrite unit_bind, !fail_bind, fail_if_ok, !none_or, tenant_mismatch_ok in H.
    destruct H as (Ht & Ha & He & Hs & Hk). exists id, q. split; try done.
    intros k Hin. unfold missing_keys in Hk. rewrite nonempty_filter in Hk.
    by apply negb_false_iff, Hk.
  - intros (id' & p & [[Hi Hp] Ht Ha He Hs Hk]). assert (id' = id) as -> by congruence.
    rewrite Hp. cbv zeta. change (Ok p ≫= ?f) with (f p). cbv beta.
    rewrite unit_bind, !fail_bind, fail_if_ok, !none_or, tenant_mismatch_ok.
    split_and!; try done. unfold missing_keys. rewrite nonempty_filter.
    intros k Hin. by apply negb_false_iff, Hk.
Qed.

(** The guardrails of a deployment. *)
Record deployment_ok (D : PlatformDeploymentPolicy) (i : RuntimeIdentity) (context : pydict)
    (action : pyval) (inputs : list GovernanceInput) : Prop := {
  deployed_environment : ∃ e, e ∈ dp_allowed_environments D ∧
    dict_get_or "environment" (PStr (ri_environment i)) context = PStr e;
  deployed_tenant : dp_require_tenant D = true →
    truthy (dict_get_or "tenant_id" (opt_str (ri_tenant_id i)) context) = true;
  deployed_actor : dp_require_actor_id D = true →
    truthy (dict_get_or "actor_id" (opt_str (ri_actor_id i)) context) = true;
  deployed_request : dp_require_request_id D = true →
    truthy (dict_get_or "request_id" (opt_str (ri_request_id i)) context) = true;
  deployed_source : let source := dict_get_or "source" (opt_str (ri_source i)) context in
    source = PNone ∨ ∃ s a, source = PStr s ∧ a ∈ dp_allowed_sources D ∧
      (s = a ∨ String.prefix (a +:+ "-") s = true);
  deployed_roles : dp_required_roles D ⊆ ri_roles i;
  deployed_mesh : value_in action (dp_mesh_required_actions D) = true ∨
    value_in (dict_get_or "environment" (PStr (ri_environment i)) context)
      (dp_mesh_required_environments D) = true →
    Z.max 1 (dp_min_mesh_inputs D) ≤ Z.of_nat (length inputs);
  deployed_sources : dp_mesh_required_sources D ⊆ map gi_source_id inputs;
  deployed_size : Z.of_nat (length context) ≤ dp_max_context_entries D
}.

Lemma check_source_ok D source :
  check_source D source = Ok tt ↔
  source = PNone ∨ ∃ s a, source = PStr s ∧ a ∈ dp_allowed_sources D ∧
    (s = a ∨ String.prefix (a +:+ "-") s = true).
Proof.
  unfold check_source. rewrite <-is_none_true. destruct (is_none source) eqn:Hn; [by split; [left|]|].
  rewrite res_bind_ok. setoid_rewrite fail_if_ok. setoid_rewrite negb_false_iff. split.
  - intros (b & Hb & ->). right. unfold source_allowed in Hb.
    destruct source as [| | | |s| | |]; try by destruct (dp_allowed_sources D).
    injection Hb as Hb. unfold source_matches in Hb. apply existsb_exists in Hb as (a & Ha & Hm).
    exists s, a. split; [done|]. split; [by apply list_elem_of_In|].
    apply orb_true_iff in Hm as [Hm|Hm]; [left; by apply String.eqb_eq|by right].
  - intros [|(s & a & -> & Ha & Hm)]; [done|]. exists true. split; [|done].
    cbn [source_allowed]. f_equal. unfold source_matches. apply existsb_exists. exists a.
    split; [by apply list_elem_of_In|]. apply orb_true_iff. rewrite String.eqb_eq. done.
Qed.

Lemma required_and b c : b && negb c = false ↔ (b = true → c = true).
Proof. destruct b, c; naive_solver. Qed.

Lemma filter_subset (ks l : list string) :
  nonempty (List.filter (λ k, negb (str_in k l)) ks) = false ↔ ks ⊆ l.
Proof.
  rewrite nonempty_filter. split; intros H k Hk; specialize (H k Hk).
  - by apply str_in_spec, negb_false_iff.
  - by apply negb_false_iff, str_in_spec.
Qed.

Lemma few_mesh_ok b D inputs :
  b && few_mesh_inputs D inputs = false ↔
  (b = true → Z.max 1 (dp_min_mesh_inputs D) ≤ Z.of_nat (length inputs)).
Proof. unfold few_mesh_inputs. rewrite andb_false_iff, Z.ltb_ge. destruct b; naive_solver. Qed.

Lemma deployment_validate_ok D i context action inputs :
  deployment_validate D i context action inputs = Ok tt ↔ deployment_ok D i context action inputs.
Proof.
  unfold deployment_validate. cbv zeta.
  rewrite !fail_bind, unit_bind, !fail_bind, fail_if_ok, negb_false_iff, value_in_spec,
    !required_and, check_source_ok, !few_mesh_ok, Z.ltb_ge.
  unfold missing_sources. rewrite !filter_subset. split.
  - intros (? & ? & ? & ? & ? & ? & Ha & He & ? & ?). split; try done. by intros [Hm|Hm]; [apply Ha|apply He].
  - intros [? ? ? ? ? ? Hm ? ?]. split_and!; auto.
Qed.

(** ** What a call of the platform does *)

Section PlatformLemmas.
Context `{C : Crypto} {L : Type} `{LL : ReplayStoreLaws L}.
Implicit Types (s : platform_state L) (P : GovernancePlatform).

(** A failed check changes nothing; otherwise the service decides and the
    outcome is counted. *)
Lemma platform_authorize_spec P now nonce stamp request pid ttl approvals context inputs s :
  platform_authorize P now nonce stamp request pid ttl approvals context inputs s =
  match effective_context (gp_identity P) request context with
  | Raise e => (Raise e, s)
  | Ok ctx =>
      let request := assoc_set "context" (PDict ctx) request in
      match platform_guards P request ctx inputs with
      | Raise e => (Raise e, s)
      | Ok _ =>
          let '(r, v) := service_authorize (gp_service P) now nonce request pid ttl approvals inputs
                           (pt_service s) in
          (r, {| pt_service := v;
                 pt_metrics := match r with
                               | Ok _ => record_authorized stamp (pt_metrics s)
                               | Raise _ => record_denied stamp (pt_metrics s)
                               end |})
      end
  end.
Proof.
  unfold platform_authorize, mbind, M_bind, lift_res.
  destruct (effective_context _ _ _) as [ctx|e]; [|done]. cbv zeta.
  destruct (platform_guards _ _ _ _) as [[]|e]; [|done]. unfold try_except, on_service, zoom.
  by destruct (service_authorize _ _ _ _ _ _ _ _ _) as [[a|e] v].
Qed.

Lemma platform_execute_spec P now stamp a s :
  platform_execute P now stamp a s =
  let '(r, v) := service_execute (gp_service P) now a (pt_service s) in
  (r, {| pt_service := v;
         pt_metrics := record_execution (match r with Ok _ => true | Raise _ => false end) stamp
                         (pt_metrics s) |}).
Proof.
  unfold platform_execute, try_except, on_service, zoom, mbind, M_bind.
  by destruct (service_execute _ _ _ _) as [[r|e] v].
Qed.

Lemma platform_guards_ok P request context inputs :
  platform_guards P request context inputs = Ok tt ↔
  (∀ r, gp_principals P = Some r →
     ∃ id p, principal_ok r (gp_identity P) (dict_get "action" request) context id p) ∧
  deployment_ok (gp_deployment P) (gp_identity P) context (dict_get "action" request) inputs.
Proof.
  unfold platform_guards. cbv zeta. rewrite unit_bind, deployment_validate_ok.
  destruct (gp_principals P) as [r|]; [rewrite principal_validate_ok|]; naive_solver.
Qed.

(** The signed request differs from the caller's in the approvals only. *)
Lemma service_authorize_request V now nonce request pid ttl approvals inputs (v v' : service_state L) a k :
  service_authorize V now nonce request pid ttl approvals inputs v = (Ok a, v') →
  k ≠ "approvals" → assoc_get k (gaa_action_request a) = assoc_get k request.
Proof.
  unfold service_authorize, as_issuer, zoom. intros H Hk. destruct (registry_get _ _); [|done].
  destruct (authorize _ _ _ _ _ _ _ _ _) as [r i] eqn:Ha. injection H as -> _.
  apply authorize_ok in Ha as (request' & Heff & decided & decision & mesh & payload & evidence &
    frame & s1 & Hi).
  pose proof (gaa_issue_ok_fields _ _ _ _ _ _ _ (issued_artifact _ _ _ _ _ _ _ _ _ _ _ _ _ _ _ _ _ Hi))
    as (-> & _).
  unfold effective_request in Heff. destruct approvals as [l|]; [|congruence].
  apply res_bind_ok in Heff as (ds & _ & Heff).
  destruct (dict_get "approvals" request); try done; injection Heff as <-;
    by rewrite assoc_get_set_ne.
Qed.
End PlatformLemmas.

(** ** Histories *)

Inductive platform_call `{C : Crypto} :=
| PlatformAuthorize (P : GovernancePlatform) (now : Z) (nonce : string) (stamp : Z)
    (request : pydict) (policy_id : string) (ttl : Z) (approvals : option (list approval_arg))
    (context : pydict) (inputs : list GovernanceInput)
| PlatformExecute (P : GovernancePlatform) (now stamp : Z) (artifact : gaa).

Definition platform_run `{C : Crypto} {L} `{RS : ReplayStore L} (s : platform_state L)
    (c : platform_call) : platform_state L :=
  match c with
  | PlatformAuthorize P now nonce stamp request pid ttl approvals context inputs =>
      (platform_authorize P now nonce stamp request pid ttl approvals context inputs s).2
  | PlatformExecute P now stamp a => (platform_execute P now stamp a s).2
  end.

(** The call of the service behind a call of the platform. *)
Definition service_calls_of `{C : Crypto} (c : platform_call) : list service_call :=
  match c with
  | PlatformAuthorize P now nonce _ request pid ttl approvals context inputs =>
      match effective_context (gp_identity P) request context with
      | Raise _ => []
      | Ok ctx =>
          let request := assoc_set "context" (PDict ctx) request in
          match platform_guards P request ctx inputs with
          | Raise _ => []
          | Ok _ => [ServiceAuthorize (gp_service P) now nonce request pid ttl approvals inputs]
          end
      end
  | PlatformExecute P now _ a => [ServiceExecute (gp_service P) now a]
  end.

Lemma platform_run_service `{C : Crypto} {L} `{LL : ReplayStoreLaws L} (s : platform_state L) c :
  pt_service (platform_run s c) = fold_left service_run (service_calls_of c) (pt_service s) ∧
  (metrics_inv (pt_metrics s) → metrics_inv (pt_metrics (platform_run s c))).
Proof.
  destruct c as [P now nonce stamp request pid ttl approvals context inputs|P now stamp a];
    cbn [platform_run service_calls_of].
  - rewrite platform_authorize_spec. destruct (effective_context _ _ _) as [ctx|e]; [|done]. cbv zeta.
    destruct (platform_guards _ _ _ _) as [[]|e]; [|done]. cbn [fold_left service_run].
    destruct (service_authorize _ _ _ _ _ _ _ _ _) as [[a|e] v]; cbn; auto with gas.
  - rewrite platform_execute_spec. cbn [fold_left service_run].
    destruct (service_execute _ _ _ _) as [r v]; cbn; auto with gas.
Qed.

(** The platform refines the service: every history of calls on the platform
    is, for the log and the called actions, a history of calls on the service,
    and the counters add up. *)
Lemma platform_refines_service `{C : Crypto} {L} `{LL : ReplayStoreLaws L} (calls : list platform_call)
    (s : platform_state L) :
  let s' := fold_left platform_run calls s in
  pt_service s' = fold_left service_run (flat_map service_calls_of calls) (pt_service s) ∧
  (metrics_inv (pt_metrics s) → metrics_inv (pt_metrics s')).
Proof.
  revert s. induction calls as [|c calls IH]; intros s; [done|]. cbn [fold_left flat_map].
  destruct (platform_run_service s c) as [Hs Hm]. destruct (IH (platform_run s c)) as [Hs' Hm'].
  rewrite fold_left_app, <-Hs. split; [done|auto].
Qed.

(** * Properties *)

(** C21. A request cannot speak for another identity: an artifact issued through
    the platform signs a context in which every claim of the runtime identity
    (tenant, actor, principal, environment, subject, issuer and the rest) has
    the identity's value, whatever the request and the caller's context said;
    the other entries come from the caller's context and then from the request,
    and the rest of the request is unchanged but for its approvals.  The
    principal's bounds and every guardrail of the deployment held for that
    context, the policy is a registered one, and the outcome was counted. *)
Theorem platform_binds_identity `{C : Crypto} {L} `{LL : ReplayStoreLaws L} (P : GovernancePlatform)
    (now : Z) (nonce : string) (stamp : Z) (request context requested : pydict) (pid : string)
    (ttl : Z) (approvals : option (list approval_arg)) (inputs : list GovernanceInput)
    (s s' : platform_state L) (a : gaa) :
  let i := gp_identity P in
  List.NoDup (map fst (ri_scope i)) → List.NoDup (map fst context) →
  dict_get_or "context" (PDict []) request = PDict requested →
  platform_authorize P now nonce stamp request pid ttl approvals context inputs s = (Ok a, s') →
  ∃ ctx, dict_get "context" (gaa_action_request a) = PDict ctx ∧ carries i ctx ∧
    (∀ k, assoc_get k ctx =
       match assoc_get k (identity_context i) with
       | Some v => Some v
       | None => match assoc_get k context with Some v => Some v | None => assoc_get k requested end
       end) ∧
    (∀ k, k ≠ "context" → k ≠ "approvals" → assoc_get k (gaa_action_request a) = assoc_get k request) ∧
    (∀ r, gp_principals P = Some r →
       ∃ id p, principal_ok r i (dict_get "action" request) ctx id p) ∧
    deployment_ok (gp_deployment P) i ctx (dict_get "action" request) inputs ∧
    is_Some (registry_get (sv_policies (gp_service P)) pid) ∧
    pt_metrics s' = record_authorized stamp (pt_metrics s).
Proof.
  intros i Hi Hc Hr H. rewrite platform_authorize_spec in H.
  destruct (effective_context _ request context) as [ctx|e] eqn:Hctx; [|done]. cbv zeta in H.
  destruct (platform_guards _ _ _ _) as [[]|e] eqn:Hg; [|done].
  destruct (service_authorize _ _ _ _ _ _ _ _ _) as [r v] eqn:Hs. injection H as -> <-.
  pose proof (service_authorize_request _ _ _ _ _ _ _ _ _ _ _ "context" Hs ltac:(done)) as Hcx.
  apply platform_guards_ok in Hg as [Hp Hd].
  assert (dict_get "action" (assoc_set "context" (PDict ctx) request) = dict_get "action" request)
    as Hact by (unfold dict_get; by rewrite assoc_get_set_ne).
  rewrite Hact in Hp, Hd.
  pose proof (effective_context_get i request context requested ctx) as Hget.
  exists ctx. split_and!; try done.
  - unfold dict_get. by rewrite Hcx, assoc_get_set_eq.
  - eapply carries_agree; [|apply identity_context_carries]. intros k w Hk.
    by rewrite Hget, Hk.
  - by intros k; apply Hget.
  - intros k Hk Hk'. rewrite (service_authorize_request _ _ _ _ _ _ _ _ _ _ _ k Hs Hk').
    by rewrite assoc_get_set_ne.
  - unfold service_authorize in Hs. destruct (registry_get _ pid); [by eexists|done].
Qed.

Definition example_identity : RuntimeIdentity :=
  {| ri_service := "payments-api"; ri_environment := "prod"; ri_tenant_id := Some "tenant-a";
     ri_actor_id := Some "alice"; ri_request_id := Some "r1"; ri_source := Some "api-eu";
     ri_principal_id := Some "svc"; ri_roles := []; ri_scope := []; ri_subject := None;
     ri_name := None; ri_email := None; ri_groups := []; ri_issuer := None;
     ri_identity_source := None; ri_service_principal := false; ri_identity_type := "human" |}.

Definition example_principal : ServicePrincipal :=
  {| sp_principal_id := "svc"; sp_tenant_id := Some "tenant-a"; sp_roles := [];
     sp_allowed_actions := ["payments.transfer"]; sp_allowed_environments := ["prod"];
     sp_allowed_sources := []; sp_scope := [] |}.

Definition example_platform : @GovernancePlatform toy_crypto :=
  platform_init
    {| sv_issuer := example_issuer; sv_boundary := example_boundary;
       sv_policies := registry_put open_policy registry_empty;
       sv_actions := [("payments.transfer", example_action)]; sv_sources := None |}
    example_identity None (Some [("svc", example_principal)]) None.

(** A request that claims another tenant. *)
Definition crossing_request : pydict :=
  assoc_set "context" (PDict [("tenant_id", PStr "tenant-b")]) (example_unapproved 100).

Definition example_platform_state : platform_state ReplayLog :=
  {| pt_service := {| ss_log := replay_new false; ss_mesh_log := None; ss_invoked := [] |};
     pt_metrics := metrics_new "payments-api" "prod" 0 |}.

Abbreviation crossing_attempt :=
  (platform_authorize (L := ReplayLog) example_platform 1000 "n1" 1000 crossing_request "payments" 300
     None [] [] example_platform_state).

Definition crossing_gaa : gaa := Eval vm_compute in gaa_of crossing_attempt.1.

Lemma platform_binds_identity_witness :
  ∃ ctx, dict_get "context" (gaa_action_request crossing_gaa) = PDict ctx ∧
         assoc_get "tenant_id" ctx = Some (PStr "tenant-a").
Proof.
  assert (crossing_attempt = (Ok crossing_gaa, crossing_attempt.2)) as H by (vm_compute; reflexivity).
  set (s' := crossing_attempt.2) in H.
  destruct (platform_binds_identity (L := ReplayLog) example_platform 1000 "n1" 1000 crossing_request
    [] [("tenant_id", PStr "tenant-b")] "payments" 300 None [] example_platform_state s' crossing_gaa
    (List.NoDup_nil _) (List.NoDup_nil _) eq_refl H) as (ctx & Hctx & Hcarry & _).
  exists ctx. exact (conj Hctx (carries_tenant _ _ Hcarry "tenant-a" eq_refl)).
Defined.
