(* ===== verification/ControlPlane.v ===== *)
(** control_plane.py: one facade over trust store, policy registry, review of
    policy changes, mesh sources, service principals and the platforms
    registered by name.

    The facade and the registered services work on shared objects.  The control
    plane's own objects ([shared]) are fields of its state; a service object is
    kept under an object name and is a function of the shared objects, so that a
    service built over the control plane's trust store sees every change of it,
    and one built over objects of its own is a constant.  Two platforms may hold
    the same service object: registering it again changes both. *)

From S2P Require Import Prelude PyFloat PyVal Moves Json Sha256 Base64 Crypto Trust Models Policy Arbiter PolicyRegistry Replay ReplayStore Mesh Issuer Engine Rbac SemVer Deployment PlatformAdmin Service Observability Platform.

Section ControlPlane.
Context `{C : Crypto}.

(** A source registry with the trust store it resolves keys from. *)
Definition mesh_sources : Type := GovernanceSourceRegistry * option TrustStore.

(** The objects of the control plane that services may hold. *)
Record shared := {
  sh_trust : TrustStore;
  sh_registry : PolicyRegistry;
  sh_sources : mesh_sources;
  sh_principals : ServicePrincipalRegistry
}.

(** A service object, and a platform object that holds one by name. *)
Definition service_object : Type := shared → GovernedService.

Record platform_object := {
  po_service : string;
  po_identity : RuntimeIdentity;
  po_deployment : PlatformDeploymentPolicy;
  po_principals : option (shared → ServicePrincipalRegistry);
  po_sources : option (shared → mesh_sources)
}.

Record ControlPlane := {
  cp_admin : AdminState;     (** trust store, policy registry and proposals *)
  cp_sources : GovernanceSourceRegistry;
  cp_source_trust : TrustStore → option TrustStore;  (** the store [cp_sources] resolves from *)
  cp_deployment : PlatformDeploymentPolicy;
  cp_principals : ServicePrincipalRegistry;
  cp_objects : list (string * service_object);
  cp_services : list (string * platform_object)
}.

Definition cp_shared (s : ControlPlane) : shared :=
  {| sh_trust := as_trust (cp_admin s); sh_registry := as_registry (cp_admin s);
     sh_sources := (cp_sources s, cp_source_trust s (as_trust (cp_admin s)));
     sh_principals := cp_principals s |}.

(** [PolicyChangeManager(required_approvals=1)], without audit hooks. *)
Definition cp_config : AdminConfig :=
  {| ac_required_approvals := 1; ac_separation := true; ac_hook := λ _ _ _, Ok tt |}.

Definition on_admin {A} (m : M AdminState A) : M ControlPlane A :=
  zoom cp_admin (λ a s, {| cp_admin := a; cp_sources := cp_sources s; cp_source_trust := cp_source_trust s;
                           cp_deployment := cp_deployment s; cp_principals := cp_principals s;
                           cp_objects := cp_objects s; cp_services := cp_services s |}) m.

Definition on_sources {A} (m : M GovernanceSourceRegistry A) : M ControlPlane A :=
  zoom cp_sources (λ r s, {| cp_admin := cp_admin s; cp_sources := r; cp_source_trust := cp_source_trust s;
                             cp_deployment := cp_deployment s; cp_principals := cp_principals s;
                             cp_objects := cp_objects s; cp_services := cp_services s |}) m.

Definition on_principals {A} (m : M ServicePrincipalRegistry A) : M ControlPlane A :=
  zoom cp_principals (λ r s, {| cp_admin := cp_admin s; cp_sources := cp_sources s;
                                cp_source_trust := cp_source_trust s; cp_deployment := cp_deployment s;
                                cp_principals := r; cp_objects := cp_objects s; cp_services := cp_services s |}) m.

Definition put_object (o : string) (V : service_object) : M ControlPlane unit :=
  modify (λ s, {| cp_admin := cp_admin s; cp_sources := cp_sources s; cp_source_trust := cp_source_trust s;
                  cp_deployment := cp_deployment s; cp_principals := cp_principals s;
                  cp_objects := assoc_set o V (cp_objects s); cp_services := cp_services s |}).

Definition put_service (name : string) (P : platform_object) : M ControlPlane unit :=
  modify (λ s, {| cp_admin := cp_admin s; cp_sources := cp_sources s; cp_source_trust := cp_source_trust s;
                  cp_deployment := cp_deployment s; cp_principals := cp_principals s;
                  cp_objects := cp_objects s; cp_services := assoc_set name P (cp_services s) |}).

(** ** [register_service] *)

Inductive candidate :=
| GovernedServiceObject (o : string)
| GovernancePlatformObject (P : platform_object)
| OtherObject.

(** [RuntimeIdentity(service=name)] *)
Definition default_identity (name : string) : RuntimeIdentity := deployed_identity name "dev" None None.

(** [if service.mesh_source_registry is None: service.mesh_source_registry = r],
    and the same for its issuer. *)
Definition fill_sources (r : mesh_sources) (V : GovernedService) : GovernedService :=
  let I := sv_issuer V in
  {| sv_issuer := match Issuer.ai_registry I with
                  | Some _ => I
                  | None => {| Issuer.ai_issuer := Issuer.ai_issuer I; Issuer.ai_arbiter := Issuer.ai_arbiter I;
                               Issuer.ai_mesh := Issuer.ai_mesh I;
                               Issuer.ai_registry := Some r |}
                  end;
     sv_boundary := sv_boundary V; sv_policies := sv_policies V; sv_actions := sv_actions V;
     sv_sources := match sv_sources V with Some r' => Some r' | None => Some r end |}.

Record service_options := {
  so_identity : option RuntimeIdentity;
  so_deployment : option PlatformDeploymentPolicy;
  so_principals : option ServicePrincipalRegistry;
  so_sources : option mesh_sources
}.
Definition no_options : service_options :=
  {| so_identity := None; so_deployment := None; so_principals := None; so_sources := None |}.

(** [x or self.x] *)
Definition own_or {A} (x : option A) (get : shared → A) : shared → A :=
  match x with Some a => λ _, a | None => get end.

(** [GovernancePlatform(service=..., mesh_source_registry=r)] changes the service it is given. *)
Definition platform_service (V : service_object) (r : shared → mesh_sources) : service_object :=
  λ h, gp_service (platform_init (V h) (default_identity "") None None (Some (r h))).

Definition register_service (name : string) (c : candidate) (o : service_options) : M ControlPlane platform_object :=
  raise_if (String.eqb name "") (ValueError "service name must not be empty") ;;
  s ← get_state;
  let sources := own_or (so_sources o) sh_sources in
  platform ←
    match c with
    | GovernancePlatformObject P => mret P
    | GovernedServiceObject n =>
        match assoc_get n (cp_objects s) with
        | None => lift_res (unmodelled "an object that does not exist")
        | Some V =>
            put_object n (platform_service V sources) ;;
            mret {| po_service := n; po_identity := default (default_identity name) (so_identity o);
                    po_deployment := default (cp_deployment s) (so_deployment o);
                    po_principals := Some (own_or (so_principals o) sh_principals);
                    po_sources := Some sources |}
        end
    | OtherObject =>
        raise (TypeError "service must be a GovernedService or GovernancePlatform instance")
    end;
  s ← get_state;
  match assoc_get (po_service platform) (cp_objects s) with
  | None => lift_res (unmodelled "an object that does not exist")
  | Some V => put_object (po_service platform) (λ h, fill_sources (sources h) (V h))
  end ;;
  put_service name platform ;;
  mret platform.

Fixpoint register_services (services : list (string * candidate)) : M ControlPlane unit :=
  match services with
  | [] => mret tt
  | (name, c) :: services => register_service name c no_options ;; register_services services
  end.

(** ** The constructor *)

(** A policy registry that is given comes with its own trust store, which stands
    in when none is given; without either there is no trust store to work with. *)
Definition control_plane_init (trust : option TrustStore) (registry : option (PolicyRegistry * option TrustStore))
    (sources : option (GovernanceSourceRegistry * (TrustStore → option TrustStore)))
    (deployment : option PlatformDeploymentPolicy) (principals : option ServicePrincipalRegistry)
    (objects : list (string * service_object)) (services : list (string * candidate)) : res ControlPlane :=
  store ← match trust, registry with
          | Some t, _ => Ok t
          | None, Some (_, Some t) => Ok t
          | None, Some (_, None) => unmodelled "a control plane without a trust store"
          | None, None => Ok {| ts_path := false; ts_keys := []; ts_revoked := ∅; ts_file := None |}
          end;
  let empty_sources := {| sr_path := false; sr_keys := []; sr_metadata := []; sr_revoked := ∅; sr_file := None |} in
  let '(source_registry, source_trust) := default (empty_sources, λ _, None) sources in
  let '(result, s) := register_services services
    {| cp_admin := {| as_registry := match registry with Some (r, _) => r | None => registry_empty end;
                      as_trust := store; as_proposals := []; as_audit := [] |};
       cp_sources := source_registry; cp_source_trust := source_trust;
       cp_deployment := default default_deployment deployment; cp_principals := default [] principals;
       cp_objects := objects; cp_services := [] |} in
  result ;; Ok s.

Definition build_control_plane := control_plane_init.

(** ** Operations *)

Definition register_trusted_key (key_id : string) (public_key : PublicKey) : M ControlPlane pydict :=
  on_admin (admin_trust (trust_add key_id public_key)) ;;
  s ← get_state; mret (trust_to_dict (as_trust (cp_admin s))).

Definition revoke_trusted_key (key_id : string) : M ControlPlane pydict :=
  on_admin (admin_trust (trust_revoke key_id)) ;;
  s ← get_state; mret (trust_to_dict (as_trust (cp_admin s))).

Definition register_policy (policy : Policy) : M ControlPlane Policy :=
  on_admin (admin_registry (registry_register policy)) ;; mret policy.

Definition propose_policy (policy : Policy) (proposer : KeyPair) (rationale : string)
    (proposal_id : option string) (actor : string) : M ControlPlane PolicyChangeProposal :=
  on_admin (admin_propose cp_config policy proposer rationale proposal_id actor).

Definition approve_policy (proposal_id : string) (approver : KeyPair) (actor : string)
    : M ControlPlane PolicyChangeProposal :=
  on_admin (admin_approve cp_config proposal_id approver actor).

Definition activate_policy (proposal_id actor : string) : M ControlPlane Policy :=
  on_admin (admin_activate cp_config proposal_id actor).

Definition register_service_principal (p : ServicePrincipal) : M ControlPlane ServicePrincipal :=
  on_principals (principal_register p) ;; mret p.

Definition register_mesh_source (source_id : string) (public_key : option key_arg)
    : M ControlPlane GovernanceSourceRegistry :=
  on_sources (source_register source_id public_key None) ;; s ← get_state; mret (cp_sources s).

(** ** What the registered platforms are now *)

Definition platform_of (s : ControlPlane) (P : platform_object) : option GovernancePlatform :=
  V ← assoc_get (po_service P) (cp_objects s);
  let h := cp_shared s in
  Some {| gp_service := V h; gp_identity := po_identity P; gp_deployment := po_deployment P;
          gp_principals := (λ f, f h) <$> po_principals P; gp_sources := (λ f, f h) <$> po_sources P |}.

(** The log and the counters of a platform are those of its time. *)
Definition service_view : Type := string → ReplayLog * RuntimeMetrics.

Definition report_of (s : ControlPlane) (view : service_view) (np : string * platform_object) : res (string * pyval) :=
  match platform_of s np.2 with
  | Some P => report ← platform_report P (view np.1).1 (view np.1).2; Ok (np.1, PDict report)
  | None => unmodelled "an object that does not exist"
  end.

Definition common_health (s : ControlPlane) : res pydict :=
  digests ← registry_digests (as_registry (cp_admin s));
  Ok [("trust_store", PDict (trust_to_dict (as_trust (cp_admin s))));
      ("policies", PDict (map (λ kd, (kd.1, PStr kd.2)) digests));
      ("mesh_sources", PDict (sources_to_dict (cp_sources s)))].

Definition cp_health (s : ControlPlane) (view : service_view) (service_name : option string) : res pydict :=
  match service_name with
  | Some name =>
      match assoc_get name (cp_services s) with
      | None => Raise (KeyError name)
      | Some P =>
          report ← report_of s view (name, P);
          common ← common_health s;
          Ok ([("service", PStr name); ("platform", report.2)] ++ common)
      end
  | None =>
      reports ← mapM_res (report_of s view) (sort_by fst (cp_services s));
      common ← common_health s;
      Ok ([("service_count", PInt (Z.of_nat (length reports))); ("services", PDict reports)] ++ common)
  end.

Definition cp_snapshot (s : ControlPlane) (view : service_view) : res pydict :=
  reports ← mapM_res (report_of s view) (sort_by fst (cp_services s));
  proposals ← mapM_res to_summary_dict (admin_proposals (cp_admin s));
  Ok [("trust_store", PDict (trust_to_dict (as_trust (cp_admin s))));
      ("policies", PDict (map (λ kp, (kp.1, PDict (policy_to_dict kp.2)))
                             (sort_by fst (pr_policies (as_registry (cp_admin s))))));
      ("mesh_sources", PDict (sources_to_dict (cp_sources s)));
      ("services", PDict reports);
      ("proposals", PList (map PDict proposals))].
End ControlPlane.

(** * Lemmas *)

(** ** What an administration call leaves alone *)

Section AdminKeeps.
Context `{C : Crypto}.
Implicit Types K : AdminConfig.

Lemma admin_audit_trust K e k a : keeps as_trust (admin_audit K e k a).
Proof. unfold admin_audit. keep. by intros s. Qed.
Lemma put_proposal_trust i p : keeps as_trust (put_proposal i p).
Proof. by intros s. Qed.
Lemma admin_registry_trust {A} (m : M PolicyRegistry A) : keeps as_trust (admin_registry m).
Proof. by apply moves_zoom. Qed.
#[local] Hint Resolve admin_audit_trust put_proposal_trust admin_registry_trust : keeps.

Lemma pending_proposal_trust i msg : keeps as_trust (pending_proposal i msg).
Proof. intros s. by rewrite pending_proposal_state. Qed.
Lemma require_trusted_trust k msg : keeps as_trust (require_trusted k msg).
Proof. intros s. by rewrite require_trusted_state. Qed.
#[local] Hint Resolve pending_proposal_trust require_trusted_trust : keeps.

Lemma admin_propose_trust K p k r i a : keeps as_trust (admin_propose K p k r i a).
Proof. unfold admin_propose, submit_proposal, register_new_proposal. keep. Qed.
Lemma admin_approve_trust K i k a : keeps as_trust (admin_approve K i k a).
Proof. unfold admin_approve, check_separation, record_approval. keep. Qed.
Lemma admin_activate_trust K i a : keeps as_trust (admin_activate K i a).
Proof. unfold admin_activate. keep. Qed.
End AdminKeeps.
#[export] Hint Resolve admin_registry_trust admin_propose_trust admin_approve_trust admin_activate_trust : keeps.

(** ** Calls in sequence *)

Inductive cp_call `{C : Crypto} :=
| CpRegisterService (name : string) (c : candidate) (o : service_options)
| CpTrustKey (key_id : string) (public_key : PublicKey)
| CpRevokeKey (key_id : string)
| CpRegisterPolicy (policy : Policy)
| CpPropose (policy : Policy) (proposer : KeyPair) (rationale : string) (proposal_id : option string) (actor : string)
| CpApprove (proposal_id : string) (approver : KeyPair) (actor : string)
| CpActivate (proposal_id actor : string)
| CpRegisterPrincipal (p : ServicePrincipal)
| CpRegisterSource (source_id : string) (public_key : option key_arg).

Definition cp_run `{C : Crypto} (s : ControlPlane) (c : cp_call) : ControlPlane :=
  match c with
  | CpRegisterService name c o => (register_service name c o s).2
  | CpTrustKey k pk => (register_trusted_key k pk s).2
  | CpRevokeKey k => (revoke_trusted_key k s).2
  | CpRegisterPolicy p => (register_policy p s).2
  | CpPropose p proposer rationale i actor => (propose_policy p proposer rationale i actor s).2
  | CpApprove i approver actor => (approve_policy i approver actor s).2
  | CpActivate i actor => (activate_policy i actor s).2
  | CpRegisterPrincipal p => (register_service_principal p s).2
  | CpRegisterSource i k => (register_mesh_source i k s).2
  end.

(** The call does not trust the key again. *)
Definition leaves_revoked `{C : Crypto} (key_id : string) (c : cp_call) : bool :=
  match c with CpTrustKey k _ => negb (String.eqb k key_id) | _ => true end.

Section ControlPlaneLemmas.
Context `{C : Crypto}.
Implicit Types (s : ControlPlane) (V : service_object).

Lemma trust_add_stays k k' pk : k' ≠ k → moves (stays (λ t, k ∈ ts_revoked t)) (trust_add k' pk).
Proof.
  intros Hne t Hk. unfold trust_add. rewrite M_bind_run. unfold get_state, raise_if.
  rewrite M_bind_run. destruct (String.eqb k' ""); [done|].
  rewrite M_bind_run. destruct (_ && _); [done|].
  rewrite M_bind_run. unfold put_state; cbn beta iota; rewrite ?M_bind_run; rewrite trust_save_spec; cbn; set_solver.
Qed.

Lemma trust_revoke_stays k k' : moves (stays (λ t, k ∈ ts_revoked t)) (trust_revoke k').
Proof.
  intros t Hk. unfold trust_revoke. rewrite !M_bind_run. unfold get_state, raise_if.
  destruct (negb _); [done|]. rewrite M_bind_run. unfold put_state; cbn beta iota; rewrite ?M_bind_run; rewrite trust_save_spec; cbn; set_solver.
Qed.

(** The services in place: an object keeps its boundary, its policies and its
    actions, whatever sources it is given. *)
Definition services_kept s s' : Prop :=
  ∀ o V, assoc_get o (cp_objects s) = Some V →
    ∃ V', assoc_get o (cp_objects s') = Some V' ∧
      ∀ h, sv_boundary (V' h) = sv_boundary (V h) ∧ sv_policies (V' h) = sv_policies (V h) ∧
           sv_actions (V' h) = sv_actions (V h).
#[local] Instance services_kept_preorder : PreOrder services_kept.
Proof.
  split; [intros s o V Hv; eauto|]. intros s1 s2 s3 H1 H2 o V Hv.
  destruct (H1 o V Hv) as (V2 & Hv2 & E1). destruct (H2 o V2 Hv2) as (V3 & Hv3 & E2).
  exists V3. split; [done|]. intros h. destruct (E2 h) as (-> & -> & ->). apply E1.
Qed.

Lemma services_kept_same s s' : cp_objects s' = cp_objects s → services_kept s s'.
Proof. intros He o V Hv. rewrite He. eauto. Qed.

(** An object is replaced by one with the same boundary, policies and actions. *)
Lemma put_object_kept o V V' s :
  assoc_get o (cp_objects s) = Some V →
  (∀ h, sv_boundary (V' h) = sv_boundary (V h) ∧ sv_policies (V' h) = sv_policies (V h) ∧
        sv_actions (V' h) = sv_actions (V h)) →
  services_kept s (put_object o V' s).2.
Proof.
  intros Hv He o' W Hw. cbn. destruct (String.eqb_spec o o') as [->|Hne].
  - rewrite assoc_get_set_eq. exists V'. split; [done|]. by simplify_eq.
  - rewrite assoc_get_set_ne by done. eauto.
Qed.
End ControlPlaneLemmas.

Section Registration.
Context `{C : Crypto}.
Implicit Types (s : ControlPlane) (V : service_object).
#[local] Existing Instance services_kept_preorder.

Lemma register_service_kept name c o : moves services_kept (register_service name c o).
Proof.
  unfold register_service. apply moves_bind; [typeclasses eauto|by apply moves_raise_if; typeclasses eauto|intros _].
  apply moves_read. intros s. apply moves_bind_at; [typeclasses eauto| |intros P].
  - destruct c as [n|P|]; [|reflexivity|reflexivity].
    destruct (assoc_get n (cp_objects s)) as [V|] eqn:Hn; [|reflexivity].
    apply moves_bind_at; [typeclasses eauto| |intros _; by apply moves_mret; typeclasses eauto].
    by apply (put_object_kept _ V).
  - apply moves_read. intros s1. apply moves_bind_at; [typeclasses eauto| |].
    + destruct (assoc_get _ (cp_objects s1)) as [V|] eqn:Hn; [|reflexivity]. by apply (put_object_kept _ V).
    + intros _. apply moves_bind; [typeclasses eauto| |intros _; by apply moves_mret; typeclasses eauto].
      intros s2. by apply services_kept_same.
Qed.

Lemma register_service_admin name c o : keeps cp_admin (register_service name c o).
Proof.
  unfold register_service. keep; by intros ?.
Qed.

Lemma on_admin_kept {A} (m : M AdminState A) : moves services_kept (on_admin m).
Proof. apply moves_zoom. intros a s. by apply services_kept_same. Qed.

Lemma on_admin_stays {A} (P : AdminState → Prop) (m : M AdminState A) :
  moves (stays P) m → moves (stays (P ∘ cp_admin)) (on_admin m).
Proof. by apply stays_zoom. Qed.

Lemma on_sources_kept {A} (m : M GovernanceSourceRegistry A) : moves services_kept (on_sources m).
Proof. apply moves_zoom. intros r s. by apply services_kept_same. Qed.
Lemma on_principals_kept {A} (m : M ServicePrincipalRegistry A) : moves services_kept (on_principals m).
Proof. apply moves_zoom. intros r s. by apply services_kept_same. Qed.
#[local] Hint Resolve register_service_kept on_admin_kept on_sources_kept on_principals_kept : keeps.

(** Show a property of the state after a call from [moves]. *)
Ltac by_moves R :=
  match goal with
  | |- _ _ (?m _).2 =>
      let Hm := fresh "Hm" in enough (moves R m) as Hm by (exact (Hm _));
      unfold register_trusted_key, revoke_trusted_key, register_policy, propose_policy, approve_policy,
        activate_policy, register_service_principal, register_mesh_source; keep
  end.

Lemma cp_run_kept s c : services_kept s (cp_run s c).
Proof. destruct c; cbn [cp_run]; by_moves services_kept. Qed.

Definition revoked k s : Prop := k ∈ ts_revoked (as_trust (cp_admin s)).

Lemma on_admin_revoked {A} k (m : M AdminState A) : keeps as_trust m → moves (stays (revoked k)) (on_admin m).
Proof.
  intros Hm. apply (stays_zoom _ (λ a, k ∈ ts_revoked (as_trust a))); [done|done|].
  intros a Ha. specialize (Hm a). unfold same in Hm. by rewrite Hm.
Qed.
Lemma on_trust_revoked {A} k (m : M TrustStore A) :
  moves (stays (λ t, k ∈ ts_revoked t)) m → moves (stays (revoked k)) (on_admin (admin_trust m)).
Proof.
  intros Hm. apply (stays_zoom _ (λ a, k ∈ ts_revoked (as_trust a))); [done|done|]. by apply (stays_zoom _ (λ t, k ∈ ts_revoked t)).
Qed.
Lemma on_sources_revoked {A} k (m : M GovernanceSourceRegistry A) : moves (stays (revoked k)) (on_sources m).
Proof. apply moves_zoom. intros r s Hs. exact Hs. Qed.
Lemma on_principals_revoked {A} k (m : M ServicePrincipalRegistry A) : moves (stays (revoked k)) (on_principals m).
Proof. apply moves_zoom. intros r s Hs. exact Hs. Qed.
Lemma register_service_revoked k name c o : moves (stays (revoked k)) (register_service name c o).
Proof. intros s Hs. unfold revoked. by rewrite (register_service_admin name c o s). Qed.
#[local] Hint Resolve on_admin_revoked on_trust_revoked trust_add_stays trust_revoke_stays on_sources_revoked
  on_principals_revoked register_service_revoked : keeps.

Lemma cp_run_revoked k s c : leaves_revoked k c = true → revoked k s → revoked k (cp_run s c).
Proof.
  intros Hc. change (stays (revoked k) s (cp_run s c)).
  destruct c; cbn [cp_run leaves_revoked] in *; try apply negb_true_iff, String.eqb_neq in Hc; by_moves (stays (revoked k)).
Qed.

Lemma cp_runs k calls s :
  forallb (leaves_revoked k) calls = true → revoked k s →
  revoked k (fold_left cp_run calls s) ∧ services_kept s (fold_left cp_run calls s).
Proof.
  revert s. induction calls as [|c calls IH]; intros s Hc Hs; cbn in *; [split; [done|reflexivity]|].
  apply andb_true_iff in Hc as [Hc Hcs]. destruct (IH (cp_run s c) Hcs (cp_run_revoked k s c Hc Hs)) as [H1 H2].
  split; [done|]. etransitivity; [apply cp_run_kept|exact H2].
Qed.
End Registration.

(** ** What the facade promises *)

(** A service object over the control plane's own trust store. *)
Definition uses_trust `{C : Crypto} (V : service_object) : Prop :=
  ∀ h, eb_keys (sv_boundary (V h)) = EngineTrust (sh_trust h).

(** One revocation reaches every service: once the control plane has revoked a
    key, whatever is registered, proposed or activated afterwards, as long as
    the key is not trusted again, every service object over the control plane's
    trust store refuses the artifacts of that key with nothing changed, under
    every name it is registered. *)
Lemma revocation_reaches_services `{C : Crypto} {L} `{RS : ReplayStore L} (s s1 : ControlPlane) (key_id : string)
    (report : pydict) (calls : list cp_call) (o : string) (V : service_object) :
  revoke_trusted_key key_id s = (Ok report, s1) →
  forallb (leaves_revoked key_id) calls = true →
  assoc_get o (cp_objects s) = Some V → uses_trust V →
  let s2 := fold_left cp_run calls s1 in
  trust_resolve (as_trust (cp_admin s2)) key_id = None ∧
  ∀ P, po_service P = o → ∃ G, platform_of s2 P = Some G ∧
    ∀ now action (a : gaa) (e : engine_state L), gaa_issuer_key_id a = key_id →
      execute (sv_boundary (gp_service G)) now action a e =
        (Raise (AuthorizationError "GAA signature is invalid or issuer is unknown"), e).
Proof.
  intros Hr Hc Ho HV s2. assert (revoked key_id s1 ∧ cp_objects s1 = cp_objects s) as [Hk He].
  { unfold revoke_trusted_key in Hr. apply M_bind_ok in Hr as ([] & t & Ht & Hr). injection Hr as _ <-.
    unfold on_admin, admin_trust, zoom in Ht. destruct (trust_revoke _ _) as [r t'] eqn:E.
    injection Ht as -> <-. split; [|done]. apply trust_revoke_ok in E as [_ E].
    rewrite trust_save_spec in E. injection E as <-. unfold revoked. cbn. set_solver. }
  destruct (cp_runs key_id calls s1 Hc Hk) as [Hk2 Hs2]. fold s2 in Hk2, Hs2.
  assert (trust_resolve (as_trust (cp_admin s2)) key_id = None) as Hn.
  { unfold trust_resolve. by rewrite bool_decide_eq_true_2. }
  split; [done|]. intros P <-. rewrite <- He in Ho. destruct (Hs2 _ _ Ho) as (V' & HV' & Hb).
  unfold platform_of. rewrite HV'. eexists. split; [done|]. intros now action a e Ha.
  cbn [gp_service]. destruct (Hb (cp_shared s2)) as (-> & _). apply execute_rejected.
  unfold validate. rewrite HV. cbn [engine_resolve cp_shared sh_trust]. by rewrite Ha, Hn.
Qed.

(** A registered service reads its sources from the control plane, or from the
    registry the registration names: the service always, its issuer unless it
    has sources of its own.  The platform is found under its name. *)
Lemma register_service_spec `{C : Crypto} (s : ControlPlane) (name n : string) (V : service_object)
    (opts : service_options) :
  name ≠ "" → assoc_get n (cp_objects s) = Some V →
  let r := register_service name (GovernedServiceObject n) opts s in
  let sources := own_or (so_sources opts) sh_sources in
  ∃ P V', r.1 = Ok P ∧ po_service P = n ∧ assoc_get name (cp_services r.2) = Some P ∧
    assoc_get n (cp_objects r.2) = Some V' ∧
    (∀ h, sv_sources (V' h) = Some (sources h) ∧
       Issuer.ai_registry (sv_issuer (V' h)) =
         Some (default (sources h) (Issuer.ai_registry (sv_issuer (V h))))) ∧
    po_principals P = Some (own_or (so_principals opts) sh_principals) ∧
    po_deployment P = default (cp_deployment s) (so_deployment opts).
Proof.
  intros Hne%String.eqb_neq Hn r sources.
  assert (∃ P V', r = (Ok P, {| cp_admin := cp_admin s; cp_sources := cp_sources s;
    cp_source_trust := cp_source_trust s; cp_deployment := cp_deployment s; cp_principals := cp_principals s;
    cp_objects := assoc_set n V' (assoc_set n (platform_service V sources) (cp_objects s));
    cp_services := assoc_set name P (cp_services s) |}) ∧
    P = {| po_service := n; po_identity := default (default_identity name) (so_identity opts);
           po_deployment := default (cp_deployment s) (so_deployment opts);
           po_principals := Some (own_or (so_principals opts) sh_principals); po_sources := Some sources |} ∧
    V' = λ h, fill_sources (sources h) (platform_service V sources h)) as (P & V' & Hr & HP & HV').
  { subst r. unfold register_service, put_object, put_service, modify, mret, M_ret, get_state, mbind, M_bind, raise_if.
    rewrite Hne, Hn. cbn [assoc_get cp_objects po_service]. rewrite assoc_get_set_eq. do 2 eexists. by split_and!. }
  exists P, V'. rewrite Hr, HP, HV'. cbn. rewrite !assoc_get_set_eq. split_and!; try done.
  intros h. unfold fill_sources, platform_service, platform_init, bound_issuer. cbn.
  destruct (sv_issuer (V h)) as [i arb mesh [reg|]]; done.
Qed.

(** ** Witness *)

Definition example_object : @service_object toy_crypto := λ h,
  {| sv_issuer := example_issuer;
     sv_boundary := {| eb_keys := EngineTrust (sh_trust h); eb_registry := Some example_registry;
                       eb_arbiter := example_arbiter |};
     sv_policies := example_registry; sv_actions := [("payments.transfer", example_action)]; sv_sources := None |}.

Abbreviation example_plane :=
  (match control_plane_init (Some example_trust) None None None None [("payments", example_object)]
           [("payments-api", GovernedServiceObject "payments")] with
   | Ok s => s
   | Raise _ => {| cp_admin := admin_new example_trust; cp_sources := sources_empty false None;
                   cp_source_trust := λ _, None; cp_deployment := default_deployment; cp_principals := [];
                   cp_objects := []; cp_services := [] |}
   end).

Definition example_plane_calls : list (@cp_call toy_crypto) :=
  [CpRegisterPolicy conflicting_policy; CpRegisterService "payments-2" (GovernedServiceObject "payments") no_options;
   CpTrustKey "other" "k2"; CpRegisterSource "org" None].

Definition example_report : pydict := Eval vm_compute in
  match (revoke_trusted_key "issuer" example_plane).1 with Ok report => report | Raise _ => [] end.

(** The object as its registration left it. *)
Definition example_registered : service_object := λ h,
  fill_sources (sh_sources h) (platform_service example_object sh_sources h).

(** The service executed before the revocation, and refuses after it. *)
Lemma revocation_reaches_services_witness :
  (execute (sv_boundary (example_object (cp_shared example_plane))) 1100 example_action example_gaa
     example_engine_state).1 = Ok (PStr "transferred") ∧
  trust_resolve (as_trust (cp_admin
    (fold_left cp_run example_plane_calls (revoke_trusted_key "issuer" example_plane).2))) "issuer" = None.
Proof.
  split; [vm_compute; reflexivity|].
  assert ((revoke_trusted_key "issuer" example_plane).1 = Ok example_report) as Hr by (vm_compute; reflexivity).
  assert (assoc_get "payments" (cp_objects example_plane) = Some example_registered) as HV by reflexivity.
  assert (uses_trust example_registered) as Hu by (intros h; reflexivity).
  destruct (revoke_trusted_key "issuer" example_plane) as [r s1] eqn:E. cbn [fst snd] in *. subst r.
  exact (proj1 (revocation_reaches_services (L := ReplayLog) example_plane s1 "issuer" example_report
    example_plane_calls "payments" example_registered E eq_refl HV Hu)).
Defined.
