(* ===== verification/Storage.v ===== *)
(** storage.py: PostgreSQL and SQLite storage shared by processes.

    A table is the list of its rows under the constraints of its schema, and a
    transaction is one step; several processes, each with its own copy of the
    log, work on the same tables.  The advisory lock that orders the appends is
    part of the state, because a failed append leaves it held.  Failures of the
    connection are not modelled; text with a NUL is refused by the server.  The
    text that [jsonb] gives back is the parameter [Jsonb]. *)

From stdpp Require Import gmap.
From S2P Require Import Prelude PyFloat PyVal Json Sha256 Base64 Crypto Trust Models Policy Anchors Replay Jobs JobsPostgres.

(** What psycopg raises. *)
Definition psycopg_error : exn := OtherError "psycopg.Error" "".

(** A [TEXT] value the server takes. *)
Definition pg_text (s : string) : bool := negb (has_char (ascii_of_N 0) s).

(** * Nonce repositories: the table [consumed_nonces] *)

Definition nonce_repo_claim (nonce : string) : M (gset string) unit :=
  raise_if (String.eqb nonce "") (ValueError "nonce must not be empty") ;;
  rows ← get_state;
  raise_if (bool_decide (nonce ∈ rows)) (ValueError ("nonce already consumed: " +:+ nonce)) ;;
  put_state (rows ∪ {[nonce]}).

Definition nonce_repo_contains (rows : gset string) (nonce : string) : bool := bool_decide (nonce ∈ rows).

Definition pg_repo_claim (nonce : string) : M (gset string) unit :=
  raise_if (String.eqb nonce "") (ValueError "nonce must not be empty") ;;
  rows ← get_state;
  raise_if (negb (pg_text nonce) || bool_decide (nonce ∈ rows))
    (ValueError "nonce already consumed or database unavailable") ;;
  put_state (rows ∪ {[nonce]}).

Definition pg_repo_contains (rows : gset string) (nonce : string) : res bool :=
  fail_if (negb (pg_text nonce)) psycopg_error ;; Ok (bool_decide (nonce ∈ rows)).

(** * [PostgresTrustStore]: the table [trust_keys] *)

Section PgTrust.
Context `{C : Crypto}.

(** [key_id], [public_key] and [revoked] *)
Abbreviation trust_rows := (list (string * (string * bool))).

Definition pg_trust_add (key_id : string) (public_key : PublicKey) : M trust_rows unit :=
  raise_if (String.eqb key_id "") (ValueError "key_id must not be empty") ;;
  raise_if (negb (pg_text key_id)) psycopg_error ;;
  rows ← get_state;
  raise_if (match assoc_get key_id rows with Some (_, revoked) => negb revoked | None => false end)
    (ValueError ("issuer key already exists: " +:+ key_id)) ;;
  put_state (assoc_set key_id (b64encode (public_bytes_raw public_key), false) rows).

Definition pg_trust_revoke (key_id : string) : M trust_rows unit :=
  raise_if (negb (pg_text key_id)) psycopg_error ;;
  rows ← get_state;
  match assoc_get key_id rows with
  | Some (key, _) => put_state (assoc_set key_id (key, true) rows)
  | None => raise (KeyError ("unknown issuer key: " +:+ key_id))
  end.

Definition pg_trust_resolve (rows : trust_rows) (key_id : string) : res (option PublicKey) :=
  fail_if (negb (pg_text key_id)) psycopg_error ;;
  match assoc_get key_id rows with
  | Some (encoded, false) =>
      raw ← b64decode encoded;
      match from_public_bytes raw with
      | Some key => Ok (Some key)
      | None => Raise (ValueError "An Ed25519 public key is 32 bytes long")
      end
  | _ => Ok None
  end.

(** [ORDER BY key_id], with the C collation. *)
Definition pg_trust_to_dict (rows : trust_rows) : pydict :=
  let rows := sort_by fst rows in
  [("keys", PDict (map (λ r, (r.1, PStr r.2.1)) rows));
   ("revoked", of_strs (map fst (List.filter (λ r, r.2.2) rows)))].
End PgTrust.

(** * [PostgresReplayLog] *)

(** A row of [replay_frames], in the order of [sequence]. *)
Record PgFrame := {
  pf_frame_id : string;
  pf_nonce : option string;
  pf_event : string;        (** [frame_json::text] *)
  pf_frame_hash : string;
  pf_previous_hash : string
}.

(** The tables, and the process whose transaction holds the append lock. *)
Record ReplayDb := {
  db_frames : list PgFrame;
  db_nonces : gset string;
  db_lock : option nat
}.

(** What a process keeps in memory. *)
Record PgReplayLog := { pg_frames : list ReplayFrame; pg_used : gset string }.

Definition pg_row_frame (r : PgFrame) : res ReplayFrame :=
  event ← json_loads (pf_event r);
  match event with
  | PDict ev =>
      Ok {| rf_frame_id := pf_frame_id r; rf_previous_hash := pf_previous_hash r;
            rf_event := ev; rf_frame_hash := pf_frame_hash r |}
  | _ => unmodelled "an event that is not an object"
  end.

Definition pg_load (d : ReplayDb) : res PgReplayLog :=
  frames ← mapM_res pg_row_frame (db_frames d);
  Ok {| pg_frames := frames; pg_used := db_nonces d |}.

(** [PostgresReplayLog(connection)] *)
Definition pg_open (d : ReplayDb) : res PgReplayLog :=
  log ← pg_load d;
  valid ← verify_chain_from "" (pg_frames log);
  fail_if (negb valid) (ValueError "PostgreSQL replay log contains an invalid hash chain") ;;
  Ok log.

(** A process with the tables. *)
Abbreviation pg_process := (ReplayDb * PgReplayLog)%type.

(** [_refresh] *)
Definition pg_refresh : M pg_process unit :=
  s ← get_state; log ← lift_res (pg_load s.1); put_state (s.1, log).

(** The methods of [ReplayLog] on the copy in memory. *)
Definition pg_view (log : PgReplayLog) : ReplayLog :=
  {| rl_path := false; rl_frames := pg_frames log; rl_nonces := pg_used log; rl_file := None |}.

Definition pg_get (frame_id : string) : M pg_process (option ReplayFrame) :=
  pg_refresh ;; s ← get_state; mret (replay_get (pg_view s.2) frame_id).
Definition pg_nonce_used (nonce : string) : M pg_process bool :=
  pg_refresh ;; s ← get_state; mret (replay_nonce_used (pg_view s.2) nonce).
Definition pg_audit_summary : M pg_process pydict :=
  pg_refresh ;; s ← get_state; mret (audit_summary (pg_view s.2)).
Definition pg_verify_integrity : M pg_process ReplayIntegrity :=
  pg_refresh ;; s ← get_state; lift_res (verify_integrity (pg_view s.2)).

(** The end of a transaction of [me] releases its lock. *)
Definition pg_release (me : nat) (d : ReplayDb) : ReplayDb :=
  {| db_frames := db_frames d; db_nonces := db_nonces d;
     db_lock := match db_lock d with Some q => if (q =? me)%nat then None else Some q | None => None end |}.

Definition on_db (f : ReplayDb → ReplayDb) : M pg_process unit := modify (λ s, (f s.1, s.2)).

(** [BEGIN; stmt; COMMIT], or [ROLLBACK] and the exception. *)
Definition pg_transact {A} (me : nat) (stmt : M ReplayDb A) : M pg_process A :=
  λ s, match stmt s.1 with
       | (Ok x, d) => (Ok x, (pg_release me d, s.2))
       | (Raise e, _) => (Raise e, (pg_release me s.1, s.2))
       end.

(** The value of the [nonce] column. *)
Definition nonce_param (v : pyval) : res (option string) :=
  match v with
  | PNone => Ok None
  | PStr n => if pg_text n then Ok (Some n) else Raise psycopg_error
  | _ => Raise psycopg_error
  end.

Section PgLog.
Context `{J : Jsonb}.

Definition pg_insert (frame : ReplayFrame) (event : pydict) : M ReplayDb unit :=
  nonce ← lift_res (nonce_param (dict_get "nonce" event));
  text ← lift_res (json_dumps compact_style (PDict event));
  stored ← lift_res match jsonb_text text with Some t => Ok t | None => Raise psycopg_error end;
  d ← get_state;
  raise_if (negb (pg_text (rf_frame_id frame)) ||
            existsb (λ r, String.eqb (pf_frame_id r) (rf_frame_id frame)) (db_frames d))
    psycopg_error ;;
  put_state {| db_frames := db_frames d ++
                 [{| pf_frame_id := rf_frame_id frame; pf_nonce := nonce; pf_event := stored;
                     pf_frame_hash := rf_frame_hash frame;
                     pf_previous_hash := rf_previous_hash frame |}];
               db_nonces := db_nonces d; db_lock := db_lock d |}.

(** [append], once the process [me] got the lock. *)
Definition pg_append (me : nat) (frame_id : string) (event : pydict) : M pg_process ReplayFrame :=
  on_db (λ d, {| db_frames := db_frames d; db_nonces := db_nonces d; db_lock := Some me |}) ;;
  pg_refresh ;;
  s ← get_state;
  frame ← lift_res (frame_create frame_id (head_hash (pg_frames s.2)) event);
  pg_transact me (pg_insert frame event) ;;
  modify (λ s, (s.1, {| pg_frames := pg_frames s.2 ++ [frame]; pg_used := pg_used s.2 |})) ;;
  mret frame.

Definition pg_claim_nonce (me : nat) (nonce : string) : M pg_process unit :=
  raise_if (String.eqb nonce "") (ValueError "nonce must not be empty") ;;
  pg_transact me
    (d ← get_state;
     raise_if (negb (pg_text nonce) || bool_decide (nonce ∈ db_nonces d))
       (ValueError ("nonce already consumed: " +:+ nonce)) ;;
     put_state {| db_frames := db_frames d; db_nonces := db_nonces d ∪ {[nonce]}; db_lock := db_lock d |}) ;;
  modify (λ s, (s.1, {| pg_frames := pg_frames s.2; pg_used := pg_used s.2 ∪ {[nonce]} |})).

(** ** Many processes *)

Record PgSystem := { sys_db : ReplayDb; sys_logs : gmap nat PgReplayLog }.

Inductive pg_log_call :=
| PgOpen
| PgAppend (frame_id : string) (event : pydict)
| PgClaim (nonce : string)
| PgRefresh.

(** The append lock is free or the process's own. *)
Definition pg_enabled (me : nat) (d : ReplayDb) : bool :=
  match db_lock d with Some q => (q =? me)%nat | None => true end.

(** A call of process [me]; an append that waits for the lock is no step. *)
Definition pg_log_run (sys : PgSystem) (c : nat * pg_log_call) : PgSystem :=
  let '(me, call) := c in
  let run {A} (m : M pg_process A) :=
    match sys_logs sys !! me with
    | None => sys
    | Some log =>
        let '(_, (d, log')) := m (sys_db sys, log) in
        {| sys_db := d; sys_logs := <[me := log']> (sys_logs sys) |}
    end in
  match call with
  | PgOpen =>
      let d := pg_release me (sys_db sys) in
      match pg_open d with
      | Ok log => {| sys_db := d; sys_logs := <[me := log]> (sys_logs sys) |}
      | Raise _ => {| sys_db := d; sys_logs := sys_logs sys |}
      end
  | PgAppend fid ev => if pg_enabled me (sys_db sys) then run (pg_append me fid ev) else sys
  | PgClaim n => run (pg_claim_nonce me n)
  | PgRefresh => run pg_refresh
  end.
End PgLog.

(** * Lemmas *)

(** ** The trust table *)

Section TrustRefinement.
Context `{C : Crypto}.

(** The row of a key says what the store in memory says. *)
Definition trust_related (t : TrustStore) (rows : list (string * (string * bool))) : Prop :=
  ∀ k, assoc_get k rows =
       (pk ← assoc_get k (ts_keys t);
        Some (b64encode (public_bytes_raw pk), bool_decide (k ∈ ts_revoked t))).

Inductive trust_call :=
| TrustAdd (key_id : string) (public_key : PublicKey)
| TrustRevoke (key_id : string).

Definition trust_call_key (c : trust_call) : string :=
  match c with TrustAdd k _ | TrustRevoke k => k end.

Definition trust_do (c : trust_call) : M TrustStore unit :=
  match c with TrustAdd k pk => trust_add k pk | TrustRevoke k => trust_revoke k end.
Definition pg_trust_do (c : trust_call) : M (list (string * (string * bool))) unit :=
  match c with TrustAdd k pk => pg_trust_add k pk | TrustRevoke k => pg_trust_revoke k end.

(** The outcomes of calls, one after the other. *)
Fixpoint outcomes {S} (run : trust_call → M S unit) (calls : list trust_call) (s : S)
    : list (res unit) * S :=
  match calls with
  | [] => ([], s)
  | c :: calls =>
      let '(r, s1) := run c s in let '(rs, s2) := outcomes run calls s1 in (r :: rs, s2)
  end.

Lemma related_added t rows k pk :
  trust_related t rows →
  trust_related (trust_saved (trust_added k pk t))
    (assoc_set k (b64encode (public_bytes_raw pk), false) rows).
Proof.
  intros H q. unfold trust_saved, trust_added. cbn [ts_keys ts_revoked].
  destruct (String.eqb_spec k q) as [<-|Hne].
  - rewrite !assoc_get_set_eq. cbn. by rewrite bool_decide_eq_false_2 by set_solver.
  - rewrite !assoc_get_set_ne, H by done. destruct (assoc_get q (ts_keys t)); [|done]. cbn.
    by rewrite (bool_decide_ext (q ∈ _ ∖ _) (q ∈ ts_revoked t)) by set_solver.
Qed.

Lemma related_revoked t rows k pk :
  trust_related t rows → assoc_get k (ts_keys t) = Some pk →
  trust_related (trust_saved (trust_revoked k t))
    (assoc_set k (b64encode (public_bytes_raw pk), true) rows).
Proof.
  intros H Hk q. unfold trust_saved, trust_revoked. cbn [ts_keys ts_revoked].
  destruct (String.eqb_spec k q) as [<-|Hne].
  - rewrite assoc_get_set_eq, Hk. cbn. by rewrite bool_decide_eq_true_2 by set_solver.
  - rewrite assoc_get_set_ne, H by done. destruct (assoc_get q (ts_keys t)); [|done]. cbn.
    by rewrite (bool_decide_ext (q ∈ _ ∪ _) (q ∈ ts_revoked t)) by set_solver.
Qed.

Lemma trust_step_related c t rows :
  trust_related t rows → pg_text (trust_call_key c) = true →
  (pg_trust_do c rows).1 = (trust_do c t).1 ∧
  trust_related (trust_do c t).2 (pg_trust_do c rows).2.
Proof.
  intros H Hk. destruct c as [k pk|k]; cbn [trust_call_key trust_do pg_trust_do] in *.
  - unfold trust_add, pg_trust_add, mbind, M_bind, get_state, put_state, raise_if.
    rewrite Hk. cbn [negb]. destruct (String.eqb k ""); [done|].
    rewrite H. unfold assoc_has.
    destruct (assoc_get k (ts_keys t)) as [pk'|]; cbn [mbind option_bind andb].
    + destruct (bool_decide (k ∈ ts_revoked t)); cbn [negb]; [|done].
      rewrite trust_save_spec. split; [done|]. by apply related_added.
    + rewrite trust_save_spec. split; [done|]. by apply related_added.
  - unfold trust_revoke, pg_trust_revoke, mbind, M_bind, get_state, put_state, raise_if, raise.
    rewrite Hk. cbn [negb]. rewrite H. unfold assoc_has.
    destruct (assoc_get k (ts_keys t)) as [pk|] eqn:Hpk; cbn; [|done].
    rewrite trust_save_spec. split; [done|]. by eapply related_revoked.
Qed.

Lemma trust_resolve_related `{!CryptoLaws C} t rows k :
  trust_related t rows → pg_text k = true → pg_trust_resolve rows k = Ok (trust_resolve t k).
Proof.
  intros H Hk. unfold pg_trust_resolve, trust_resolve, mbind, res_bind. rewrite Hk, H. cbn.
  destruct (assoc_get k (ts_keys t)) as [pk|]; cbn; [|by destruct (bool_decide _)].
  destruct (bool_decide _); [done|]. by rewrite b64decode_encode, from_public_bytes_raw.
Qed.

Lemma outcomes_related calls t rows :
  trust_related t rows → Forall (λ c, pg_text (trust_call_key c) = true) calls →
  (outcomes pg_trust_do calls rows).1 = (outcomes trust_do calls t).1 ∧
  trust_related (outcomes trust_do calls t).2 (outcomes pg_trust_do calls rows).2.
Proof.
  intros H Hc. revert t rows H. induction Hc as [|c calls Hk _ IH]; intros t rows H; [done|].
  cbn [outcomes]. destruct (trust_step_related c t rows H Hk) as [Hr Hrel].
  destruct (trust_do c t) as [r t1], (pg_trust_do c rows) as [r' rows1]. cbn in Hr, Hrel. subst r'.
  destruct (IH t1 rows1 Hrel) as [Ho Hrel'].
  destruct (outcomes trust_do calls t1), (outcomes pg_trust_do calls rows1). cbn in *. by subst.
Qed.
End TrustRefinement.

(** ** The shared log *)

(** What [jsonb] gives back for an event is the event, up to the order of its
    entries; numbers may break this (PostgreSQL prints 1e+16 without exponent). *)
Definition jsonb_keeps `{J : Jsonb} (ev : pydict) : Prop :=
  ∀ t, jsonb_text (json_text compact_style (PDict ev)) = Some t →
    ∃ ev', json_loads t = Ok (PDict ev') ∧ norm (PDict ev') = norm (PDict ev).

(** The rows load, form a chain and name each frame once. *)
Definition db_inv (d : ReplayDb) : Prop :=
  ∃ frames, mapM_res pg_row_frame (db_frames d) = Ok frames ∧ linked "" frames ∧
            NoDup (map rf_frame_id frames).

(** The tables after a step: frames are only added, nonces never freed. *)
Record db_grows (d d' : ReplayDb) : Prop := {
  grows_frames : db_frames d `prefix_of` db_frames d';
  grows_nonces : db_nonces d ⊆ db_nonces d'
}.

#[export] Instance db_grows_preorder : PreOrder db_grows.
Proof.
  split; [by split|]. intros d1 d2 d3 [Hf Hn] [Hf' Hn']. split; [by etransitivity|set_solver].
Qed.

Lemma norm_frame_body fid prev v :
  norm (frame_body (PStr fid) (PStr prev) v) =
    PDict [("event", norm v); ("frame_id", PStr fid); ("previous_hash", PStr prev)].
Proof. reflexivity. Qed.

Lemma frame_create_same fid prev ev ev' f :
  frame_create fid prev ev = Ok f → norm (PDict ev') = norm (PDict ev) →
  frame_create fid prev ev' =
    Ok {| rf_frame_id := fid; rf_previous_hash := prev; rf_event := ev'; rf_frame_hash := rf_frame_hash f |}.
Proof.
  intros H Hn. apply frame_create_ok in H as (_ & _ & _ & H). unfold frame_create.
  rewrite <-(canonical_digest_norm (frame_body _ _ _)).
  rewrite <-(canonical_digest_norm (frame_body _ _ _)) in H.
  rewrite !norm_frame_body, Hn, H in *. done.
Qed.

Section SharedLog.
Context `{J : Jsonb}.
Implicit Types (d : ReplayDb) (log : PgReplayLog) (sys : PgSystem).

Definition pg_locked (me : nat) d : ReplayDb :=
  {| db_frames := db_frames d; db_nonces := db_nonces d; db_lock := Some me |}.

Lemma db_inv_frames d d' : db_frames d' = db_frames d → db_inv d → db_inv d'.
Proof. intros H (fs & Hl & Hfs). exists fs. by rewrite H. Qed.

Lemma pg_load_ok d frames :
  mapM_res pg_row_frame (db_frames d) = Ok frames →
  pg_load d = Ok {| pg_frames := frames; pg_used := db_nonces d |}.
Proof. unfold pg_load. by intros ->. Qed.

Lemma pg_insert_ok f ev d d' :
  pg_insert f ev d = (Ok tt, d') →
  ∃ row, db_frames d' = db_frames d ++ [row] ∧ db_nonces d' = db_nonces d ∧ db_lock d' = db_lock d ∧
    pf_frame_id row = rf_frame_id f ∧ pf_frame_hash row = rf_frame_hash f ∧
    pf_previous_hash row = rf_previous_hash f ∧
    jsonb_text (json_text compact_style (PDict ev)) = Some (pf_event row) ∧
    rf_frame_id f ∉ map pf_frame_id (db_frames d).
Proof.
  unfold pg_insert. intros H. inv_bind. destruct (jsonb_text x0) as [t|] eqn:Ht; [|done].
  inv_bind. apply json_dumps_ok in Hx0 as ->. breflect.
  eexists. cbn [db_frames db_nonces db_lock]. split_and!; try done.
  intros (r & Hr & Hin)%list_elem_of_fmap. apply list_elem_of_In in Hin.
  match goal with H : existsb _ _ = false |- _ => apply not_true_iff_false in H; apply H end.
  apply existsb_exists. exists r. split; [done|]. by apply String.eqb_eq.
Qed.

(** An append under the lock, on tables that load. *)
Lemma pg_append_spec me fid ev d log frames :
  mapM_res pg_row_frame (db_frames d) = Ok frames →
  pg_append me fid ev (d, log) =
  match frame_create fid (head_hash frames) ev with
  | Raise e => (Raise e, (pg_locked me d, {| pg_frames := frames; pg_used := db_nonces d |}))
  | Ok f =>
      match pg_insert f ev (pg_locked me d) with
      | (Ok _, d') => (Ok f, (pg_release me d', {| pg_frames := frames ++ [f]; pg_used := db_nonces d |}))
      | (Raise e, _) =>
          (Raise e, (pg_release me (pg_locked me d), {| pg_frames := frames; pg_used := db_nonces d |}))
      end
  end.
Proof.
  intros Hf. unfold pg_append, pg_refresh, on_db, modify, get_state, put_state, lift_res, mbind, M_bind.
  cbn [fst snd]. fold (pg_locked me d). rewrite (pg_load_ok (pg_locked me d) frames Hf).
  cbn [fst snd pg_frames]. destruct (frame_create _ _ _) as [f|e]; [|done].
  unfold pg_transact. cbn [fst snd]. by destruct (pg_insert f ev (pg_locked me d)) as [[[]|e] d'].
Qed.

(** The stored row of a created frame loads as that frame. *)
Lemma db_inv_insert d d' f ev frames :
  jsonb_keeps ev → mapM_res pg_row_frame (db_frames d) = Ok frames → linked "" frames →
  NoDup (map rf_frame_id frames) → frame_create (rf_frame_id f) (head_hash frames) ev = Ok f →
  pg_insert f ev d = (Ok tt, d') → db_inv d'.
Proof.
  intros Hj Hl Hlink Hnd Hf (row & Hrows & _ & _ & Hid & Hh & Hp & Ht & Hnew)%pg_insert_ok.
  destruct (Hj _ Ht) as (ev' & Hev & Hn). pose proof (frame_create_ok _ _ _ _ Hf) as (_ & Hprev & _).
  pose proof (frame_create_same _ _ _ ev' _ Hf Hn) as Hf'.
  set (f' := {| rf_frame_id := _ |}) in Hf'. exists (frames ++ [f']).
  split; [|split].
  - rewrite Hrows. apply mapM_res_ok, Forall2_app; [by apply mapM_res_ok|].
    constructor; [|constructor]. unfold pg_row_frame. rewrite Hev, Hid, Hh, Hp, Hprev. done.
  - apply linked_app. split; [done|]. split; [|done]. exact Hf'.
  - rewrite map_app. apply NoDup_app. split; [done|]. split; [|apply NoDup_singleton].
    intros k Hk ->%list_elem_of_singleton. apply Hnew.
    assert (map pf_frame_id (db_frames d) = map rf_frame_id frames) as ->; [|done].
    apply mapM_res_ok in Hl. clear -Hl. induction Hl as [|r g rows fs Hr _ IH]; [done|].
    cbn [map]. rewrite IH. f_equal. unfold pg_row_frame in Hr. inv_bind. by destruct x; inv_bind.
Qed.

(** Whatever the event, an append only adds. *)
Lemma pg_append_grows me fid ev d log : db_grows d (pg_append me fid ev (d, log)).2.1.
Proof.
  destruct (mapM_res pg_row_frame (db_frames d)) as [frames|e] eqn:Hl; cycle 1.
  { unfold pg_append, pg_refresh, on_db, modify, get_state, lift_res, mbind, M_bind, pg_load. cbn [fst snd db_frames].
    rewrite Hl. by split. }
  rewrite (pg_append_spec _ _ _ _ _ _ Hl). destruct (frame_create _ _ _) as [f|e]; [|by split].
  destruct (pg_insert f ev (pg_locked me d)) as [[[]|e] d'] eqn:Hins; [|by split].
  apply pg_insert_ok in Hins as (row & Hr & Hn & _). split; cbn [pg_release db_frames db_nonces fst snd].
  - rewrite Hr. by apply prefix_app_r.
  - by rewrite Hn.
Qed.

Lemma pg_append_step me fid ev d log :
  db_inv d → jsonb_keeps ev →
  db_inv (pg_append me fid ev (d, log)).2.1.
Proof.
  intros (frames & Hl & Hlink & Hnd) Hj. rewrite (pg_append_spec _ _ _ _ _ _ Hl).
  assert (db_inv d) as Hi by by exists frames.
  destruct (frame_create _ _ _) as [f|e] eqn:Hf; [|by apply (db_inv_frames d)].
  pose proof (frame_create_ok _ _ _ _ Hf) as (Hid & _). rewrite <-Hid in Hf.
  destruct (pg_insert f ev (pg_locked me d)) as [[[]|e] d'] eqn:Hins; cbn [fst snd];
    [|by apply (db_inv_frames d)].
  eapply (db_inv_frames d'); [done|]. exact (db_inv_insert (pg_locked me d) d' f ev frames Hj Hl Hlink Hnd Hf Hins).
Qed.

(** A claim succeeds exactly when the nonce is free, whatever the process remembers. *)
Lemma pg_claim_spec me n d log :
  pg_claim_nonce me n (d, log) =
  if String.eqb n "" then (Raise (ValueError "nonce must not be empty"), (d, log))
  else if negb (pg_text n) || bool_decide (n ∈ db_nonces d)
  then (Raise (ValueError ("nonce already consumed: " +:+ n)), (pg_release me d, log))
  else (Ok tt, (pg_release me {| db_frames := db_frames d; db_nonces := db_nonces d ∪ {[n]};
                                 db_lock := db_lock d |},
                {| pg_frames := pg_frames log; pg_used := pg_used log ∪ {[n]} |})).
Proof.
  unfold pg_claim_nonce, pg_transact, mbind, M_bind, raise_if, get_state, put_state, modify.
  destruct (String.eqb n ""); [done|]. cbn [fst snd]. by destruct (_ || _).
Qed.

Lemma pg_claim_grows me n d log : db_grows d (pg_claim_nonce me n (d, log)).2.1.
Proof.
  rewrite pg_claim_spec. destruct (String.eqb n ""); [|destruct (_ || _)]; cbn [fst snd];
    (split; [done|cbn; set_solver]).
Qed.

Lemma pg_claim_step me n d log : db_inv d → db_inv (pg_claim_nonce me n (d, log)).2.1.
Proof.
  intros Hi. rewrite pg_claim_spec.
  destruct (String.eqb n ""); [|destruct (_ || _)]; cbn [fst snd]; by apply (db_inv_frames d).
Qed.

Lemma pg_open_ok d : db_inv d → ∃ log, pg_open d = Ok log ∧ pg_load d = Ok log ∧
  verify_chain_from "" (pg_frames log) = Ok true.
Proof.
  intros (frames & Hl & Hlink & _). unfold pg_open. rewrite (pg_load_ok _ _ Hl). unfold mbind, res_bind.
  cbn [pg_frames]. apply verify_chain_linked in Hlink. rewrite Hlink. eauto.
Qed.

Lemma pg_refresh_step d log : db_inv d → ∃ log', pg_refresh (d, log) = (Ok tt, (d, log')) ∧
  pg_load d = Ok log'.
Proof.
  intros Hi. destruct (pg_open_ok d Hi) as (log' & _ & Hl & _). exists log'. split; [|done].
  unfold pg_refresh, mbind, M_bind, get_state, lift_res, put_state. cbn [fst]. by rewrite Hl.
Qed.

Lemma pg_refresh_db s : (pg_refresh s).2.1 = s.1.
Proof. unfold pg_refresh, mbind, M_bind, get_state, lift_res, put_state. by destruct (pg_load s.1). Qed.

(** Whatever is called, frames are only added and nonces never freed. *)
Lemma pg_log_run_grows sys c : db_grows (sys_db sys) (sys_db (pg_log_run sys c)).
Proof.
  destruct c as [me [|fid ev|n|]]; cbn [pg_log_run].
  - cbv zeta. by destruct (pg_open _).
  - destruct (pg_enabled _ _); [|done]. destruct (sys_logs sys !! me) as [log|]; [|done].
    pose proof (pg_append_grows me fid ev (sys_db sys) log) as H. by destruct (pg_append _ _ _ _) as [r [d' log']].
  - destruct (sys_logs sys !! me) as [log|]; [|done].
    pose proof (pg_claim_grows me n (sys_db sys) log) as H. by destruct (pg_claim_nonce _ _ _) as [r [d' log']].
  - destruct (sys_logs sys !! me) as [log|]; [|done].
    pose proof (pg_refresh_db (sys_db sys, log)) as H. destruct (pg_refresh _) as [r [d' log']]. cbn in *. by subst.
Qed.

Lemma pg_log_runs_grow calls sys : db_grows (sys_db sys) (sys_db (fold_left pg_log_run calls sys)).
Proof.
  revert sys. induction calls as [|c calls IH]; intros sys; [done|]. cbn [fold_left].
  etransitivity; [apply pg_log_run_grows|apply IH].
Qed.

(** [jsonb] gives back every event that the calls append. *)
Definition events_kept (calls : list (nat * pg_log_call)) : Prop :=
  ∀ me fid ev, (me, PgAppend fid ev) ∈ calls → jsonb_keeps ev.

Lemma pg_log_run_step sys c : db_inv (sys_db sys) → events_kept [c] → db_inv (sys_db (pg_log_run sys c)).
Proof.
  intros Hi Hc. destruct c as [me [|fid ev|n|]]; cbn [pg_log_run].
  - cbv zeta. destruct (pg_open _); by apply (db_inv_frames (sys_db sys)).
  - destruct (pg_enabled _ _); [|done]. destruct (sys_logs sys !! me) as [log|]; [|done].
    pose proof (pg_append_step me fid ev (sys_db sys) log Hi (Hc me fid ev ltac:(by left))) as H.
    by destruct (pg_append _ _ _ _) as [r [d' log']].
  - destruct (sys_logs sys !! me) as [log|]; [|done].
    pose proof (pg_claim_step me n (sys_db sys) log Hi) as H.
    by destruct (pg_claim_nonce _ _ _) as [r [d' log']].
  - destruct (sys_logs sys !! me) as [log|]; [|done].
    destruct (pg_refresh_step (sys_db sys) log Hi) as (log' & -> & _). done.
Qed.

Lemma pg_log_runs calls sys :
  db_inv (sys_db sys) → events_kept calls → db_inv (sys_db (fold_left pg_log_run calls sys)).
Proof.
  revert sys. induction calls as [|c calls IH]; intros sys Hi Hc; [done|]. cbn [fold_left].
  apply IH; [apply pg_log_run_step; [done|]|]; intros me fid ev Hin; eapply (Hc me fid ev); set_solver.
Qed.

(** [nonce_used] reads the table. *)
Lemma nonce_used_db n d log used :
  (pg_nonce_used n (d, log)).1 = Ok used → used = bool_decide (n ∈ db_nonces d).
Proof.
  unfold pg_nonce_used, pg_refresh, mbind, M_bind, get_state, lift_res, put_state, mret, M_ret, pg_load. cbn [fst snd].
  destruct (mapM_res pg_row_frame (db_frames d)); [|done]. by intros [= <-].
Qed.

Lemma nonce_used_inv n d log : db_inv d → n ∈ db_nonces d → (pg_nonce_used n (d, log)).1 = Ok true.
Proof.
  intros Hid Hin. unfold pg_nonce_used. destruct (pg_refresh_step d log Hid) as (l & Hr & Hl).
  unfold mbind at 1, M_bind at 1. rewrite Hr. cbn.
  destruct Hid as (frames & Hm & _). rewrite (pg_load_ok _ _ Hm) in Hl. injection Hl as <-.
  change (Ok (bool_decide (n ∈ db_nonces d)) = Ok true). by rewrite bool_decide_eq_true_2.
Qed.

(** A process that waits forever: an event that is not JSON raises after the
    append lock was taken and outside the block that rolls back, so the lock
    stays with the process, and no other process appends until it ends its
    transaction. *)
Lemma append_lock_leaks me fid ev d log frames :
  mapM_res pg_row_frame (db_frames d) = Ok frames → serializable (PDict ev) = false →
  let r := pg_append me fid ev (d, log) in
  (∃ e, r.1 = Raise e) ∧ r.2.1 = pg_locked me d ∧
  ∀ calls sys, sys_db sys = pg_locked me d → Forall (λ c, c.1 ≠ me) calls →
    let d' := sys_db (fold_left pg_log_run calls sys) in
    db_frames d' = db_frames d ∧ db_lock d' = Some me.
Proof.
  intros Hl Hs r. subst r. rewrite (pg_append_spec _ _ _ _ _ _ Hl).
  assert (∃ e, frame_create fid (head_hash frames) ev = Raise e) as [e ->].
  { unfold frame_create, canonical_digest, canonical_json, json_dumps, frame_body.
    cbn [serializable forallb snd] in Hs |- *. rewrite Hs. cbn [andb mbind res_bind]. eauto. }
  split; [by exists e|]. split; [done|]. intros calls sys Hd Hc.
  assert (db_frames (sys_db sys) = db_frames d ∧ db_lock (sys_db sys) = Some me) as H by by rewrite Hd.
  clear Hd. revert sys H. induction Hc as [|[q c] calls Hq _ IH]; intros sys [Hf Hk]; [done|].
  apply IH. cbn [fst] in Hq. apply Nat.eqb_neq in Hq.
  assert (∀ d0, db_lock d0 = Some me → db_lock (pg_release q d0) = Some me) as Hrel.
  { intros d0 Hd0. unfold pg_release. cbn [db_lock]. rewrite Hd0, Nat.eqb_sym. by rewrite Hq. }
  destruct c as [|fid' ev'|n|]; cbn [pg_log_run].
  - cbv zeta. by destruct (pg_open _); cbn [sys_db]; auto.
  - unfold pg_enabled. rewrite Hk, Nat.eqb_sym, Hq. done.
  - destruct (sys_logs sys !! q) as [log'|]; [|done]. rewrite pg_claim_spec.
    destruct (String.eqb n ""); [|destruct (_ || _)]; cbn [sys_db]; auto.
  - destruct (sys_logs sys !! q) as [log'|]; [|done].
    unfold pg_refresh, mbind, M_bind, get_state, lift_res, put_state. cbn [fst].
    by destruct (pg_load _).
Qed.
End SharedLog.

(** * Properties *)

(** The table is the trust store: whatever keys are added and revoked, the
    PostgreSQL store answers every call as the store in memory does, with the
    same exceptions, and afterwards resolves the same keys. *)
Lemma pg_trust_refines `{!CryptoLaws C} (calls : list trust_call) (t : TrustStore)
    (rows : list (string * (string * bool))) :
  trust_related t rows → Forall (λ c, pg_text (trust_call_key c) = true) calls →
  let memory := outcomes trust_do calls t in
  let table := outcomes pg_trust_do calls rows in
  table.1 = memory.1 ∧ trust_related memory.2 table.2 ∧
  ∀ k, pg_text k = true → pg_trust_resolve table.2 k = Ok (trust_resolve memory.2 k).
Proof.
  intros H Hc memory table. destruct (outcomes_related calls t rows H Hc) as [Ho Hr].
  split; [done|]. split; [done|]. intros k Hk. by apply trust_resolve_related.
Qed.

Definition trust_calls : list (@trust_call toy_crypto) :=
  [TrustAdd "a" "k1"; TrustAdd "a" "k2"; TrustRevoke "a"; TrustRevoke "b"; TrustAdd "a" "k3"].

Definition trust_empty : @TrustStore toy_crypto :=
  {| ts_path := false; ts_keys := []; ts_revoked := ∅; ts_file := None |}.

Lemma pg_trust_refines_witness :
  (outcomes pg_trust_do trust_calls []).1 = (outcomes trust_do trust_calls trust_empty).1 ∧
  pg_trust_resolve (C := toy_crypto) (outcomes pg_trust_do trust_calls []).2 "a" = Ok (Some "k3").
Proof.
  assert (Forall (λ c, pg_text (trust_call_key c) = true) trust_calls) as Hc by repeat constructor.
  destruct (pg_trust_refines trust_calls trust_empty [] (λ k, eq_refl) Hc) as (Ho & _ & Hr).
  split; [exact Ho|]. rewrite (Hr "a" eq_refl). vm_compute. reflexivity.
Defined.

Definition db_empty : ReplayDb := {| db_frames := []; db_nonces := ∅; db_lock := None |}.
Definition system_empty : PgSystem := {| sys_db := db_empty; sys_logs := ∅ |}.

(** C27. One log for all processes, whatever processes open the log, append, claim
    and refresh, in any order.  Once a process has claimed a nonce, the earlier
    rows stay and no process, whatever it has in memory, can claim that nonce
    again: the claim raises, and where a process can read the tables, the nonce
    shows as used.  And when [jsonb] gives back the events that were appended (up
    to the order of their entries), the tables open again, with a chain that
    verifies and no repeated frame; [float_event_breaks_log] shows an event that
    it does not give back. *)
Theorem pg_log_shared `{J : Jsonb} (calls : list (nat * pg_log_call)) :
  let sys := fold_left pg_log_run calls system_empty in
  (events_kept calls →
   ∃ log, pg_open (sys_db sys) = Ok log ∧ verify_chain (pg_view log) = Ok true ∧
     NoDup (map rf_frame_id (pg_frames log)) ∧ pg_used log = db_nonces (sys_db sys)) ∧
  ∀ me n log s', pg_claim_nonce me n (sys_db sys, log) = (Ok tt, s') →
    (n ∉ db_nonces (sys_db sys)) ∧
    ∀ more logs q log',
      let d := sys_db (fold_left pg_log_run more {| sys_db := s'.1; sys_logs := logs |}) in
      (db_frames (sys_db sys)) `prefix_of` (db_frames d) ∧
      (pg_claim_nonce q n (d, log')).1 = Raise (ValueError ("nonce already consumed: " +:+ n)) ∧
      (∀ used, (pg_nonce_used n (d, log')).1 = Ok used → used = true) ∧
      (events_kept calls → events_kept more → (pg_nonce_used n (d, log')).1 = Ok true).
Proof.
  intros sys.
  assert (events_kept calls → db_inv (sys_db sys)) as Hi.
  { apply pg_log_runs. exists []. split; [done|]. split; [done|constructor]. }
  split.
  - intros Hk. specialize (Hi Hk). destruct (pg_open_ok _ Hi) as (log & Ho & Hl & Hv). exists log.
    split; [done|]. split; [done|].
    destruct Hi as (frames & Hm & _ & Hnd). rewrite (pg_load_ok _ _ Hm) in Hl. by injection Hl as <-.
  - intros me n log s' Hcl. pose proof (pg_claim_grows me n (sys_db sys) log) as Hg'.
    pose proof (pg_claim_step me n (sys_db sys) log) as Hi'.
    rewrite Hcl in Hg', Hi'. cbn [snd] in Hg', Hi'. rewrite pg_claim_spec in Hcl.
    destruct (String.eqb n "") eqn:Hn; [done|]. destruct (_ || _) eqn:Hu; [done|].
    apply orb_false_iff in Hu as [_ Hu]. apply bool_decide_eq_false in Hu. split; [done|].
    intros more logs q log' d.
    pose proof (pg_log_runs_grow more {| sys_db := s'.1; sys_logs := logs |}) as [Hf Hno].
    fold d in Hf, Hno. cbn [sys_db] in Hf, Hno.
    assert (n ∈ db_nonces d) as Hin by (apply Hno; injection Hcl as <-; cbn; set_solver).
    split; [etransitivity; [apply Hg'|done]|]. split; [|split].
    + rewrite pg_claim_spec, Hn, bool_decide_eq_true_2, orb_true_r by done. done.
    + intros used ->%nonce_used_db. by apply bool_decide_eq_true_2.
    + intros Hk Hk'. apply nonce_used_inv; [|done].
      exact (pg_log_runs more {| sys_db := s'.1; sys_logs := logs |} (Hi' (Hi Hk)) Hk').
Qed.

(** A server that keeps the text of JSON values as it is. *)
Definition jsonb_plain : Jsonb := {| jsonb_text := Some |}.

Definition shared_calls : list (nat * pg_log_call) :=
  [(1%nat, PgOpen); (2%nat, PgOpen);
   (1%nat, PgAppend "a" [("type", PStr "authorization"); ("nonce", PStr "n0")]);
   (2%nat, PgAppend "b" [("type", PStr "governance")]); (2%nat, PgClaim "n0")].

Lemma shared_calls_kept : events_kept (J := jsonb_plain) shared_calls.
Proof.
  intros me fid ev Hin t [= <-]. unfold shared_calls in Hin. rewrite !elem_of_cons in Hin.
  destruct Hin as [[=]|[[=]|[[= -> -> ->]|[[= -> -> ->]|[[=]|Hin]]]]];
    [vm_compute; eexists; split; reflexivity..|by apply elem_of_nil in Hin].
Qed.

(** The log of the calls opens again; process 1, whose memory does not know of
    it, cannot claim what process 2 claimed. *)
Lemma pg_log_shared_witness :
  let sys := fold_left (pg_log_run (J := jsonb_plain)) shared_calls system_empty in
  (∃ log, pg_open (sys_db sys) = Ok log ∧ verify_chain (pg_view log) = Ok true) ∧
  ∃ s', pg_claim_nonce 1 "n1" (sys_db sys, {| pg_frames := []; pg_used := ∅ |}) = (Ok tt, s') ∧
        (pg_claim_nonce 2 "n1" (s'.1, {| pg_frames := []; pg_used := ∅ |})).1 =
          Raise (ValueError "nonce already consumed: n1") ∧
        (pg_nonce_used "n1" (s'.1, {| pg_frames := []; pg_used := ∅ |})).1 = Ok true.
Proof.
  destruct (pg_log_shared (J := jsonb_plain) shared_calls) as [Ho H].
  destruct (Ho shared_calls_kept) as (log & Hlog & Hv & _).
  set (sys := fold_left (pg_log_run (J := jsonb_plain)) shared_calls system_empty) in *.
  set (m := {| pg_frames := []; pg_used := ∅ |}) in *.
  set (r := pg_claim_nonce 1 "n1" (sys_db sys, m)).
  assert (r = (Ok tt, r.2)) as Hr by (vm_compute; reflexivity).
  destruct (H 1%nat "n1" m r.2 Hr) as [_ Hx]. destruct (Hx [] ∅ 2%nat m) as (_ & Hc & _ & Hu).
  split; [exact (ex_intro _ log (conj Hlog Hv))|]. exists r.2. split; [exact Hr|]. split; [exact Hc|].
  apply Hu; [exact shared_calls_kept|]. intros me fid ev Hin. exfalso. exact (not_elem_of_nil _ Hin).
Defined.

(** ** What the code gets wrong *)

(** A server that prints numbers as PostgreSQL does, without an exponent: for
    the event below, the float [1e16] comes back as an integer. *)
Definition jsonb_numeric : Jsonb :=
  {| jsonb_text t := Some (if String.eqb t (json_text compact_style (PDict [("amount", PFloat (float_of_decimal false 1 16))]))
                           then json_text compact_style (PDict [("amount", PInt (10 ^ 16))]) else t) |}.

(** An action that reports such a number makes the log unreadable: the append
    succeeds, and the tables never open again. *)
Lemma float_event_breaks_log :
  let amount := PFloat (float_of_decimal false 1 16) in
  json_text compact_style (PDict [("amount", amount)]) = "{" +:+ dquote +:+ "amount" +:+ dquote +:+ ":1e+16}" ∧
  let r := pg_append (J := jsonb_numeric) 1 "a" [("amount", amount)]
             (db_empty, {| pg_frames := []; pg_used := ∅ |}) in
  (∃ f, r.1 = Ok f) ∧
  pg_open r.2.1 = Raise (ValueError "PostgreSQL replay log contains an invalid hash chain").
Proof. split; [vm_compute; reflexivity|]. split; [eexists|]; vm_compute; reflexivity. Qed.
