(* ===== verification/Kms.v ===== *)
(** kms_backends.py: the AWS backend behind a [KMSSigner].

    The client of the cloud SDK and the parser of DER keys are parameters.  The
    file shows that the backend only fails with its own error, and that a signer
    over it is as good as the signatures the service returns. *)

From S2P Require Import Prelude PyFloat PyVal Sha256 Base64 Crypto.

Definition AWS_ED25519_ALGORITHM : string := "ED25519_SHA_512".

(** A value of a response: [bytes] or [bytearray], or anything else. *)
Inductive aws_value := AwsBytes (raw : string) | AwsOther.

(** A response that is no dictionary is [None]. *)
Definition aws_response : Type := option (list (string * aws_value)).

(** The arguments of a sign call. *)
Record sign_request := {
  sq_KeyId : string;
  sq_Message : string;
  sq_MessageType : string;
  sq_SigningAlgorithm : string
}.

(** The client of the SDK. *)
Record kms_client := {
  client_sign : sign_request → res aws_response;
  client_get_public_key : string → res aws_response
}.

(** [load_der_public_key]: [None] is a key of another kind. *)
Class DerKeys `{C : Crypto} := { load_der_public_key : string → res (option PublicKey) }.

Section Kms.
Context `{D : DerKeys}.

(** [AwsKmsBackend(client, region_name=...)]; the import of the SDK gives the
    function that makes clients, or fails with [ImportError]. *)
Definition aws_client (client : option kms_client) (boto3 : option (option string → res kms_client))
    (region_name : option string) : res kms_client :=
  match client, boto3 with
  | Some c, _ => Ok c
  | None, Some make => make region_name
  | None, None => Raise (KMSBackendError "boto3 is required: pip install .[aws]")
  end.

(** [response.get(key) if isinstance(response, dict) else None], as bytes. *)
Definition response_bytes (key : string) (response : aws_response) (e : exn) : res string :=
  match response ≫= assoc_get key with Some (AwsBytes raw) => Ok raw | _ => Raise e end.

Definition aws_sign (c : kms_client) (key_id payload : string) : res string :=
  response ← res_except
    (client_sign c {| sq_KeyId := key_id; sq_Message := payload; sq_MessageType := "RAW";
                      sq_SigningAlgorithm := AWS_ED25519_ALGORITHM |})
    (λ e, Some (KMSBackendError ("KMS sign failed: " +:+ exn_name e)));
  response_bytes "Signature" response (KMSBackendError "KMS sign returned no signature").

Definition aws_public_key_bytes (c : kms_client) (key_id : string) : res string :=
  response ← res_except (client_get_public_key c key_id)
    (λ e, Some (KMSBackendError ("KMS get_public_key failed: " +:+ exn_name e)));
  der ← response_bytes "PublicKey" response (KMSBackendError "KMS get_public_key returned no key");
  key ← load_der_public_key der;
  match key with
  | Some key => Ok (public_bytes_raw key)
  | None => Raise (KMSBackendError "KMS key is not Ed25519")
  end.

(** The backend as [KMSSigner] takes it. *)
Definition AwsKmsBackend (c : kms_client) : KMSBackend :=
  {| kms_sign := Some (λ key_id payload, raw ← aws_sign c key_id payload; Ok (Some raw));
     kms_public_key_bytes := Some (aws_public_key_bytes c) |}.
End Kms.

(** * Lemmas *)

(** A signature that the backend returns is the one of the service for this very
    message under the RAW mode; whatever else happens is a [KMSBackendError]. *)
Lemma aws_sign_spec (c : kms_client) (key_id payload : string) :
  match aws_sign c key_id payload with
  | Ok raw => ∃ d, client_sign c {| sq_KeyId := key_id; sq_Message := payload; sq_MessageType := "RAW";
                                    sq_SigningAlgorithm := AWS_ED25519_ALGORITHM |} = Ok (Some d) ∧
                   assoc_get "Signature" d = Some (AwsBytes raw)
  | Raise e => ∃ msg, e = KMSBackendError msg
  end.
Proof.
  unfold aws_sign, res_except, response_bytes. destruct (client_sign c _) as [[d|]|e]; cbn; [|eauto..].
  destruct (assoc_get _ d) as [[raw|]|] eqn:Hd; eauto.
Qed.

(** A signer over the backend signs for the key when the service does. *)
Lemma aws_signer_for `{C : Crypto} `{D : !DerKeys} (c : kms_client) (key_id : string) (public_key : option string)
    (sg : Signer) (pk : PublicKey) :
  KMSSigner key_id (AwsKmsBackend c) public_key = Ok sg →
  (∀ payload, ∃ d raw,
     client_sign c {| sq_KeyId := key_id; sq_Message := payload; sq_MessageType := "RAW";
                      sq_SigningAlgorithm := AWS_ED25519_ALGORITHM |} = Ok (Some d) ∧
     assoc_get "Signature" d = Some (AwsBytes raw) ∧ ed25519_verify pk raw payload = true) →
  SignerFor sg pk.
Proof.
  intros H Hc. unfold KMSSigner in H. inv_ok.
  assert (∀ payload, ∃ raw, aws_sign c key_id payload = Ok raw ∧ ed25519_verify pk raw payload = true) as Hs.
  { intros payload. destruct (Hc payload) as (d & raw & Hd & Hr & Hv). exists raw. split; [|done].
    unfold aws_sign, response_bytes, res_except, mbind, res_bind, option_bind. by rewrite Hd, Hr. }
  split; cbn; intros payload; destruct (Hs payload) as (raw & -> & Hv); cbn; [eauto|].
  intros s [= <-]. by rewrite verify_signature_b64.
Qed.

(** A service that holds the private key of the toy package. *)
Definition toy_kms : kms_client :=
  {| client_sign := λ q, Ok (Some [("Signature", AwsBytes (ed25519_sign (Crypto := toy_crypto) "k1" (sq_Message q)))]);
     client_get_public_key := λ _, Ok None |}.
#[export] Instance toy_der : DerKeys := {| load_der_public_key := λ s, Ok (Some s) |}.

Lemma aws_signer_for_witness :
  ∃ sg, KMSSigner "kms" (AwsKmsBackend toy_kms) None = Ok sg ∧ SignerFor sg "k1" ∧
        signer_public_key_bytes sg = Raise (KMSBackendError "KMS get_public_key returned no key").
Proof.
  eexists. split; [reflexivity|]. split; [|reflexivity].
  eapply (aws_signer_for toy_kms "kms" None); [reflexivity|].
  intros payload. do 2 eexists. split; [reflexivity|]. split; [reflexivity|].
  apply (verify_sign (CryptoLaws := toy_crypto_laws)).
Defined.
