(* ===== verification/Bootstrap.v ===== *)
(** bootstrap.py: the compositions of the demonstration and of the server, built
    from the environment.

    The environment is an association list; the key of a demonstration, the
    client of the key service and the database are arguments.  The service in
    front of a database is a function of the trust store that the table
    [trust_keys] stands for (Storage relates the two).  The file shows what the
    demonstration allows, that a server only starts with a complete
    configuration, and what its start does to the table of keys. *)

From stdpp Require Import gmap.
From S2P Require Import Prelude PyFloat PyVal Json Sha256 Base64 Crypto Trust Models Policy Arbiter PolicyRegistry Anchors Replay ReplayStore Mesh Issuer Engine Rbac SemVer PyText Deployment Service Observability Platform Jobs JobsPostgres Storage Kms.

Section Bootstrap.
Context `{D : DerKeys}.

(** ** The environment *)

Abbreviation environment := (list (string * string)).

(** [os.environ.get(name, default).lower()], compared with ASCII words *)
Definition env_lower (env : environment) (name default_ : string) : res string :=
  let value := default default_ (assoc_get name env) in
  if ascii_str value then Ok (str_lower value) else unmodelled "a setting outside ASCII".

(** A value that is set and not empty. *)
Definition env_set (env : environment) (name : string) : option string :=
  match assoc_get name env with Some v => if String.eqb v "" then None else Some v | None => None end.

(** ** [_runtime_signer] *)

(** [boto3] is the SDK's function that makes clients, if it is installed. *)
Definition runtime_signer (env : environment) (boto3 : option (option string → res kms_client))
    (signer : option Signer) : res Signer :=
  match signer with
  | Some sg => Ok sg
  | None =>
      backend ← env_lower env "GAS_ISSUER_SIGNER" "local";
      if String.eqb backend "aws-kms" then
        match env_set env "GAS_ISSUER_KMS_KEY_ID" with
        | None => Raise (RuntimeError "GAS_ISSUER_KMS_KEY_ID is required for the aws-kms signer")
        | Some key_id =>
            client ← res_except (aws_client None boto3 (assoc_get "AWS_REGION" env))
                       (λ _, Some (RuntimeError "unable to initialize the AWS KMS signer"));
            KMSSigner key_id (AwsKmsBackend client) None
        end
      else
        fail_if (negb (String.eqb backend "local")) (ValueError "GAS_ISSUER_SIGNER must be local or aws-kms") ;;
        match env_set env "GAS_ISSUER_KEY_ID", env_set env "GAS_ISSUER_PRIVATE_KEY" with
        | Some key_id, Some private_key =>
            k ← keypair_from_private_key_b64 key_id private_key; Ok (keypair_signer k)
        | _, _ => Raise (RuntimeError
            "GAS_ISSUER_KEY_ID and GAS_ISSUER_PRIVATE_KEY are required for the local signer")
        end
  end.

(** ** The policies and the actions of both compositions *)

Definition simple_policy (id action : string) (fields : list string) (exact : list (string * pydict)) : Policy := {|
  policy_id := id; allowed_actions := [action]; required_fields := [(action, fields)]; exact_fields := exact;
  required_context := []; exact_context := []; max_request_bytes := 65536; max_ttl_seconds := 300;
  required_approvals := []; max_numeric_fields := []; required_mesh_inputs := []; required_mesh_sources := [];
  mesh_required_actions := []; mesh_required_environments := [] |}.

Definition demo_policies : list Policy :=
  [simple_policy "demo-files-v1" "write_file" ["path"; "content"]
     [("write_file", [("path", PStr "out.txt")])];
   simple_policy "demo-jobs-v1" "run_job" ["image"; "command"] []].

(** [request[k]] *)
Definition request_item (k : string) (request : pydict) : res pyval :=
  match assoc_get k request with Some v => Ok v | None => Raise (KeyError k) end.

Definition demo_actions : list (string * (pydict → res pyval)) :=
  [("write_file", request_item "content");
   ("run_job", λ request, image ← request_item "image" request; command ← request_item "command" request;
                          Ok (PDict [("image", image); ("command", command)]))].

Definition no_keys_arbiter : DeterministicArbiter := {| arb_issuer_keys := []; arb_trust_store := None |}.

Definition composed_service (sg : Signer) (trust : TrustStore)
    (sources : option (GovernanceSourceRegistry * option TrustStore)) : res GovernedService :=
  let '(registered, registry) := forM_ demo_policies registry_register registry_empty in
  registered ;;
  boundary ← boundary_init None (Some trust) (Some registry) no_keys_arbiter;
  service_init {| ai_issuer := sg; ai_arbiter := no_keys_arbiter; ai_mesh := None; ai_registry := sources |}
    boundary (inl registry) demo_actions sources.

(** ** [build_demo_service]; [private_key] is the generated key *)

Definition build_demo_service (private_key : PrivateKey) (sources : option (GovernanceSourceRegistry * option TrustStore))
    : res (GovernedService * KeyPair * ReplayLog) :=
  let issuer := {| kp_private_key := private_key; kp_key_id := "demo-issuer" |} in
  let '(added, trust) := trust_add (kp_key_id issuer) (keypair_public_key issuer)
    {| ts_path := false; ts_keys := []; ts_revoked := ∅; ts_file := None |} in
  added ;;
  service ← composed_service (keypair_signer issuer) trust sources;
  Ok (service, issuer, replay_new false).

(** ** [build_runtime_service] *)

Abbreviation trust_table := (list (string * (string * bool))).

(** The issuer's key is added when the table does not give one for its identifier. *)
Definition enroll_issuer (sg : Signer) : M trust_table unit :=
  rows ← get_state;
  found ← lift_res (pg_trust_resolve rows (signer_key_id sg));
  match found with
  | Some _ => mret tt
  | None =>
      raw ← lift_res (signer_public_key_bytes sg);
      match from_public_bytes raw with
      | Some key => pg_trust_add (signer_key_id sg) key
      | None => raise (ValueError "An Ed25519 public key is 32 bytes long")
      end
  end.

Inductive runtime_service :=
| MemoryRuntime (service : GovernedService) (issuer : KeyPair) (log : ReplayLog)
| PostgresRuntime (service : TrustStore → res GovernedService) (issuer : Signer) (log : PgReplayLog).

(** [psycopg] says that the driver is installed; the state is the trust table of
    the database that [database] gives for its URL, next to the log's tables. *)
Definition build_runtime_service (env : environment) (boto3 : option (option string → res kms_client))
    (signer : option Signer) (psycopg : bool) (connect : string → res ReplayDb) (demo_key : PrivateKey)
    : M trust_table runtime_service :=
  mode ← lift_res (env_lower env "GAS_RUNTIME_MODE" "postgres");
  if String.eqb mode "memory" then
    demo ← lift_res (build_demo_service demo_key None);
    mret (MemoryRuntime demo.1.1 demo.1.2 demo.2)
  else
    raise_if (negb (String.eqb mode "postgres")) (ValueError "GAS_RUNTIME_MODE must be postgres or memory") ;;
    match env_set env "DATABASE_URL" with
    | None => raise (RuntimeError "DATABASE_URL is required in postgres runtime mode")
    | Some database_url =>
        sg ← lift_res (runtime_signer env boto3 signer);
        raise_if (negb psycopg) (RuntimeError "install the postgres extra to use postgres runtime mode") ;;
        tables ← lift_res (connect database_url);
        log ← lift_res (pg_open tables);
        enroll_issuer sg ;;
        mret (PostgresRuntime (λ trust, composed_service sg trust None) sg log)
    end.

(** ** [build_platform_demo] *)

Definition build_platform_demo (private_key : PrivateKey) (service_name environment_ : string)
    (tenant_id actor_id : option string) (sources : option (GovernanceSourceRegistry * option TrustStore))
    : res (GovernancePlatform * GovernedService * KeyPair * ReplayLog) :=
  demo ← build_demo_service private_key sources;
  let identity := deployed_identity service_name environment_ tenant_id actor_id in
  let platform := platform_init demo.1.1 identity None None sources in
  Ok (platform, gp_service platform, demo.1.2, demo.2).
End Bootstrap.

(** * Lemmas *)

(** ** The start of a server and the table of keys *)

(** The key that the signer stands for. *)
Definition signer_stands_for `{C : Crypto} (sg : Signer) (pk : PublicKey) : Prop :=
  signer_public_key_bytes sg = Ok (public_bytes_raw pk).

Lemma pg_trust_resolve_put `{!CryptoLaws C} key_id pk rows :
  pg_text key_id = true →
  pg_trust_resolve (assoc_set key_id (b64encode (public_bytes_raw pk), false) rows) key_id = Ok (Some pk).
Proof.
  intros Hk. unfold pg_trust_resolve, mbind, res_bind. rewrite Hk, assoc_get_set_eq. cbn.
  by rewrite b64decode_encode, from_public_bytes_raw.
Qed.

(** A key that resolves stays as it is, whether or not it is the signer's. *)
Lemma enroll_keeps `{C : Crypto} (sg : Signer) (rows : list (string * (string * bool))) (key : PublicKey) :
  pg_trust_resolve rows (signer_key_id sg) = Ok (Some key) → enroll_issuer sg rows = (Ok tt, rows).
Proof. intros H. unfold enroll_issuer, mbind, M_bind, get_state, lift_res. by rewrite H. Qed.

(** The start of a server undoes a revocation: when the issuer's key was revoked,
    enrolling the same signer again makes the key resolve. *)
Lemma restart_restores_revoked `{!CryptoLaws C} (sg : Signer) (pk : PublicKey)
    (rows revoked : list (string * (string * bool))) :
  signer_stands_for sg pk → signer_key_id sg ≠ "" →
  pg_trust_revoke (signer_key_id sg) rows = (Ok tt, revoked) →
  pg_trust_resolve revoked (signer_key_id sg) = Ok None ∧
  ∃ rows', enroll_issuer sg revoked = (Ok tt, rows') ∧
    pg_trust_resolve rows' (signer_key_id sg) = Ok (Some pk).
Proof.
  intros Hs Hne%String.eqb_neq Hr. unfold pg_trust_revoke, mbind, M_bind, raise_if, raise, get_state, put_state in Hr.
  destruct (pg_text (signer_key_id sg)) eqn:Ht; [|done]. cbn [negb] in Hr.
  destruct (assoc_get _ rows) as [[key b]|]; [|done]. injection Hr as <-.
  assert (pg_trust_resolve (assoc_set (signer_key_id sg) (key, true) rows) (signer_key_id sg) = Ok None) as Hn.
  { unfold pg_trust_resolve, mbind, res_bind. by rewrite Ht, assoc_get_set_eq. }
  split; [done|]. eexists. split.
  - unfold enroll_issuer, mbind, M_bind, get_state, lift_res. rewrite Hn, Hs, from_public_bytes_raw.
    unfold pg_trust_add, mbind, M_bind, raise_if, get_state, put_state. by rewrite Hne, Ht, assoc_get_set_eq.
  - by apply pg_trust_resolve_put.
Qed.

Lemma restart_restores_revoked_witness :
  let sg := LocalEd25519Signer (C := toy_crypto) "issuer" "k1" in
  ∃ rows', enroll_issuer sg (pg_trust_revoke "issuer" [("issuer", (b64encode "k1", false))]).2 = (Ok tt, rows') ∧
           pg_trust_resolve (C := toy_crypto) rows' "issuer" = Ok (Some "k1").
Proof.
  intros sg. destruct (restart_restores_revoked (C := toy_crypto) sg "k1" [("issuer", (b64encode "k1", false))]
    (pg_trust_revoke "issuer" [("issuer", (b64encode "k1", false))]).2) as [_ H];
    [reflexivity|discriminate|vm_compute; reflexivity|exact H].
Defined.

Lemma pg_trust_add_ok `{C : Crypto} key_id pk rows rows' :
  pg_trust_add key_id pk rows = (Ok tt, rows') →
  pg_text key_id = true ∧ rows' = assoc_set key_id (b64encode (public_bytes_raw pk), false) rows.
Proof. unfold pg_trust_add. intros H. inv_ok. breflect. by destruct (pg_text key_id). Qed.

(** A server in front of a database starts only with its URL, the driver, a
    signer and a log whose chain verifies, and then the table gives a key for the
    signer's identifier. *)
Lemma runtime_configured `{D : DerKeys} `{!CryptoLaws C} env boto3 signer psycopg connect demo_key rows rows' f sg log :
  build_runtime_service env boto3 signer psycopg connect demo_key rows = (Ok (PostgresRuntime f sg log), rows') →
  psycopg = true ∧ runtime_signer env boto3 signer = Ok sg ∧
  (∃ url d, env_set env "DATABASE_URL" = Some url ∧ url ≠ "" ∧ connect url = Ok d ∧ pg_open d = Ok log) ∧
  ∃ key, pg_trust_resolve rows' (signer_key_id sg) = Ok (Some key).
Proof.
  unfold build_runtime_service. intros H. apply M_bind_ok in H as (mode & s1 & [_ ->]%lift_res_ok & H).
  destruct (String.eqb mode "memory").
  { apply M_bind_ok in H as (demo & s2 & _ & H). done. }
  apply M_bind_ok in H as ([] & s2 & [_ ->]%raise_if_ok & H).
  destruct (env_set env "DATABASE_URL") as [url|] eqn:Hu; [|done].
  apply M_bind_ok in H as (sg' & s3 & [Hsg ->]%lift_res_ok & H).
  apply M_bind_ok in H as ([] & s4 & [Hp%negb_false_iff ->]%raise_if_ok & H).
  apply M_bind_ok in H as (d & s5 & [Hd ->]%lift_res_ok & H).
  apply M_bind_ok in H as (log' & s6 & [Hl ->]%lift_res_ok & H).
  apply M_bind_ok in H as ([] & s7 & He & H). injection H as <- <- <- <-.
  split_and!; [done|done| |].
  - exists url, d. split_and!; try done. unfold env_set in Hu. destruct (assoc_get _ env) as [v|]; [|done].
    destruct (String.eqb_spec v ""); congruence.
  - unfold enroll_issuer in He. apply M_bind_ok in He as (r & s8 & [= <- <-] & He).
    apply M_bind_ok in He as (found & s9 & [Hf ->]%lift_res_ok & He). destruct found as [key|].
    + injection He as <-. eauto.
    + apply M_bind_ok in He as (raw & s10 & [_ ->]%lift_res_ok & He).
      destruct (from_public_bytes raw) as [key|]; [|done]. apply pg_trust_add_ok in He as [Ht ->].
      exists key. by apply pg_trust_resolve_put.
Qed.

(** The settings of a server with a local key. *)
Definition server_env : list (string * string) :=
  [("DATABASE_URL", "postgres://db"); ("GAS_ISSUER_KEY_ID", "issuer"); ("GAS_ISSUER_PRIVATE_KEY", b64encode "k1")].

Definition empty_tables : ReplayDb := {| db_frames := []; db_nonces := ∅; db_lock := None |}.

Abbreviation server_start :=
  (build_runtime_service (D := toy_der) server_env None None true (λ _, Ok empty_tables) "k1" []).

Lemma runtime_configured_witness :
  ∃ key, pg_trust_resolve (C := toy_crypto) server_start.2 "issuer" = Ok (Some key).
Proof.
  assert (match server_start.1 with Ok (PostgresRuntime _ sg _) => signer_key_id sg | _ => "" end = "issuer") as Hi
    by (vm_compute; reflexivity).
  destruct server_start as [[[V k l|f sg log]|e] rows'] eqn:E; cbn [fst snd] in *; [discriminate Hi| |discriminate Hi].
  pose proof (runtime_configured (D := toy_der) _ _ _ _ _ _ _ _ _ _ _ E) as (_ & _ & _ & H).
  rewrite <-Hi. exact H.
Defined.

(** ** What the compositions allow *)

Lemma registered_demo_policies : forM_ demo_policies registry_register registry_empty =
  (Ok tt, (forM_ demo_policies registry_register registry_empty).2).
Proof. vm_compute. reflexivity. Qed.

Lemma composed_service_ok `{C : Crypto} sg trust sources :
  composed_service sg trust sources = Ok
    {| sv_issuer := {| ai_issuer := sg; ai_arbiter := no_keys_arbiter; ai_mesh := None; ai_registry := sources |};
       sv_boundary := {| eb_keys := EngineTrust trust;
         eb_registry := Some (forM_ demo_policies registry_register registry_empty).2; eb_arbiter := no_keys_arbiter |};
       sv_policies := (forM_ demo_policies registry_register registry_empty).2;
       sv_actions := demo_actions; sv_sources := sources |}.
Proof. unfold composed_service. rewrite registered_demo_policies. reflexivity. Qed.

Lemma demo_policy_found k p :
  registry_get (forM_ demo_policies registry_register registry_empty).2 k = Some p → p ∈ demo_policies.
Proof.
  assert (pr_policies (forM_ demo_policies registry_register registry_empty).2 =
          map (λ p, (policy_id p, p)) demo_policies) as E by (vm_compute; reflexivity).
  unfold registry_get. rewrite E. cbn.
  repeat (destruct (String.eqb _ _); [intros [= <-]; set_solver|]). done.
Qed.

Lemma request_item_ok k request v : request_item k request = Ok v ↔ assoc_get k request = Some v.
Proof. unfold request_item. destruct (assoc_get k request); naive_solver. Qed.

(** A service of either composition writes only to [out.txt]: an execution that
    returns was for the one file and answers with its content, or was for a job
    and answers with its image and command. *)
Lemma composed_service_executes `{C : Crypto} {L} `{LL : ReplayStoreLaws L} (sg : Signer) (trust : TrustStore)
    (sources : option (GovernanceSourceRegistry * option TrustStore)) (V : GovernedService) (now : Z) (a : gaa)
    (s s' : service_state L) (v : pyval) :
  store_inv (ss_log s) →
  composed_service sg trust sources = Ok V → service_execute V now a s = (Ok v, s') →
  let request := gaa_action_request a in
  (dict_get "action" request = PStr "write_file" ∧ dict_get "path" request = PStr "out.txt" ∧
   assoc_get "content" request = Some v) ∨
  (dict_get "action" request = PStr "run_job" ∧ ∃ image command, assoc_get "image" request = Some image ∧
   assoc_get "command" request = Some command ∧ v = PDict [("image", image); ("command", command)]).
Proof.
  rewrite composed_service_ok. intros Hi [= <-] H request. unfold service_execute in H. fold request in H.
  destruct (dict_get "action" request) as [| | | |name| | |] eqn:Hn; try done. cbn [sv_actions sv_boundary] in H.
  destruct (assoc_get name demo_actions) as [action|] eqn:Ha; [|done].
  unfold as_engine, zoom in H. destruct (execute _ _ _ _ _) as [r e] eqn:He. injection H as -> <-.
  pose proof (execute_value _ _ _ _ _ _ _ He) as Hv. fold request in Hv.
  match type of He with execute ?B _ _ _ ?st = _ =>
    assert (registry_satisfied B a) as Hs;
    [destruct (execute_cases B now action a st Hi) as [(e' & _ & E)|[E _]]; [congruence|]|] end.
  { apply validate_ok in E as (key & frame & Hval). apply validate_policy_ok.
    exact (validated_policy _ _ _ _ _ _ Hval). }
  destruct (Hs _ eq_refl) as (k & p & act & ctx & bytes & _ & Hp & _ & _ & Hsat). fold request in Hsat.
  apply demo_policy_found in Hp.
  assert (act = name) as -> by (pose proof (sat_action _ _ _ _ _ _ Hsat); congruence).
  pose proof (sat_allowed _ _ _ _ _ _ Hsat) as Hal. pose proof (sat_exact _ _ _ _ _ _ Hsat) as Hex.
  unfold demo_policies in Hp. apply elem_of_cons in Hp as [->|Hp]; [|apply list_elem_of_singleton in Hp as ->];
    apply list_elem_of_singleton in Hal as ->.
  - left. injection Ha as <-. apply request_item_ok in Hv. split_and!; [done| |done].
    apply py_eqb_str. apply (Hex ("path", PStr "out.txt")). by apply list_elem_of_singleton.
  - right. injection Ha as <-. inv_bind. rewrite !request_item_ok in *. eauto 6.
Qed.

(** ** The demonstration *)

Abbreviation demo := (build_demo_service (C := toy_crypto) "k1" None).

Definition demo_service : @GovernedService toy_crypto :=
  match demo with Ok (V, _, _) => V | Raise _ => example_service end.

Definition demo_request (path : string) : pydict :=
  [("action", PStr "write_file"); ("path", PStr path); ("content", PStr "hello")].

Definition demo_start : service_state ReplayLog :=
  {| ss_log := replay_new false; ss_mesh_log := None; ss_invoked := [] |}.

Abbreviation demo_authorize path :=
  (service_authorize (L := ReplayLog) demo_service 1000 "n1" (demo_request path) "demo-files-v1" 300 None [] demo_start).

Definition demo_gaa : gaa := Eval vm_compute in match (demo_authorize "out.txt").1 with Ok a => a | Raise _ => example_gaa end.

(** The one file is written, another is refused. *)
Lemma composed_service_executes_witness :
  (service_execute demo_service 1100 demo_gaa (demo_authorize "out.txt").2).1 = Ok (PStr "hello") ∧
  match (demo_authorize "other.txt").1 with Raise (PolicyDeniedError _) => True | _ => False end ∧
  dict_get "path" (gaa_action_request demo_gaa) = PStr "out.txt".
Proof.
  assert ((service_execute demo_service 1100 demo_gaa (demo_authorize "out.txt").2).1 = Ok (PStr "hello")) as Hv
    by (vm_compute; reflexivity).
  split; [exact Hv|]. split; [vm_compute; exact I|].
  destruct (service_execute demo_service 1100 demo_gaa (demo_authorize "out.txt").2) as [r s'] eqn:E.
  cbn [fst] in Hv. subst r.
  assert (store_inv (L := ReplayLog) (ss_log (demo_authorize "out.txt").2)) as Hi
    by (apply verify_chain_linked; vm_compute; reflexivity).
  pose proof (composed_service_executes (L := ReplayLog)
    (keypair_signer {| kp_private_key := "k1" : @PrivateKey toy_crypto; kp_key_id := "demo-issuer" |})
    (trust_add "demo-issuer" ("k1" : @PublicKey toy_crypto)
      {| ts_path := false; ts_keys := []; ts_revoked := ∅; ts_file := None |}).2 None demo_service 1100 demo_gaa
    _ s' (PStr "hello") Hi eq_refl E) as [(_ & H & _)|(H & _)]; [exact H|].
  vm_compute in H. discriminate H.
Defined.
