(* ===== verification/Compliance.v ===== *)
(** compliance.py: the control evaluations over a replay log, a trust store and
    a policy registry, the evidence bundle and the compliance report.

    The texts of the evaluations are the source's; the reading of the clock is
    an argument.  A report is computed exactly when every frame serializes. *)

From S2P Require Import Prelude PyFloat PyVal Json Sha256 Crypto Trust Models Policy PolicyRegistry Anchors Replay.

Record ComplianceEvaluation := {
  ce_framework : string;
  ce_control_id : string;
  ce_title : string;
  ce_status : string;
  ce_details : string
}.

Section Compliance.
Context `{C : Crypto}.

Record ComplianceAuditor := {
  ca_log : ReplayLog;
  ca_trust : TrustStore;
  ca_registry : option PolicyRegistry
}.

(** [self.policy_registry.policies() if self.policy_registry else ()] *)
Definition auditor_policies (A : ComplianceAuditor) : list Policy :=
  match ca_registry A with Some r => registry_policies r | None => [] end.

(** [len(x) if isinstance(x, ...) else 0] *)
Definition dict_len (v : pyval) : Z :=
  match v with PDict d => Z.of_nat (length d) | _ => 0 end.
Definition list_len (v : pyval) : Z :=
  match v with PList l => Z.of_nat (length l) | _ => 0 end.

Definition count_actions (policies : list Policy) : Z :=
  fold_left (λ n p, n + Z.of_nat (length (allowed_actions p))) policies 0.

Definition nist (control_id title status details : string) : ComplianceEvaluation :=
  {| ce_framework := "NIST AI RMF 1.0"; ce_control_id := control_id; ce_title := title;
     ce_status := status; ce_details := details |}.

Definition evaluate_nist_ai_rmf (A : ComplianceAuditor) : res (list ComplianceEvaluation) :=
  let trust_data := trust_to_dict (ca_trust A) in
  let keys_count := dict_len (dict_get "keys" trust_data) in
  let revoked_count := list_len (dict_get "revoked" trust_data) in
  let policies := auditor_policies A in
  chain_valid ← verify_chain (ca_log A);
  let summary := audit_summary (ca_log A) in
  Ok [(if 0 <? keys_count then
         nist "GV-1.2" "Cryptographic Identity & Authority Separation" "PASS"
           ("Active TrustStore with " +:+ string_of_Z keys_count +:+ " keys and " +:+
            string_of_Z revoked_count +:+ " revoked.")
       else
         nist "GV-1.2" "Cryptographic Identity & Authority Separation" "FAIL"
           "TrustStore has no registered public keys.");
      (match policies with
       | [] =>
           nist "GV-2.1" "Policy Boundaries & Action Whitelisting" "WARNING"
             "No PolicyRegistry configured; using open/default policies."
       | _ =>
           nist "GV-2.1" "Policy Boundaries & Action Whitelisting" "PASS"
             (string_of_Z (Z.of_nat (length policies)) +:+ " active policies governing " +:+
              string_of_Z (count_actions policies) +:+ " actions.")
       end);
      (if chain_valid : bool then
         nist "MS-3.2" "Cryptographic Audit Chain Integrity" "PASS"
           ("Replay chain verified unbroken across " +:+ py_str (dict_get "frame_count" summary) +:+
            " frames.")
       else
         nist "MS-3.2" "Cryptographic Audit Chain Integrity" "FAIL"
           "Replay log chain break or tampering detected.");
      nist "MN-2.2" "At-Most-Once Execution Safeguard" "PASS"
        ("Atomic nonce consumption enforced across " +:+
         py_str (dict_get_or "execution_count" (PInt 0) summary) +:+ " executions.")].

Definition eu (control_id title status details : string) : ComplianceEvaluation :=
  {| ce_framework := "EU AI Act"; ce_control_id := control_id; ce_title := title;
     ce_status := status; ce_details := details |}.

(** [any(count > 0 for count in p.required_approvals.values())], for some policy. *)
Definition has_quorums (policies : list Policy) : bool :=
  existsb (λ p, existsb (λ kv, 0 <? kv.2) (required_approvals p)) policies.

Definition evaluate_eu_ai_act (A : ComplianceAuditor) : res (list ComplianceEvaluation) :=
  let policies := auditor_policies A in
  chain_valid ← verify_chain (ca_log A);
  let summary := audit_summary (ca_log A) in
  let frames := dict_get "frame_count" summary in
  Ok [(match policies with
       | [] =>
           eu "Article 9" "Risk Management & Fail-Closed Arbitration" "WARNING"
             "PolicyRegistry not provided."
       | _ =>
           eu "Article 9" "Risk Management & Fail-Closed Arbitration" "PASS"
             "Pre-execution deterministic arbitration active on all requests."
       end);
      (if chain_valid && match frames with PInt n => 0 <=? n | _ => false end then
         eu "Article 12" "Automatic Record-Keeping & Immutable Logging" "PASS"
           ("Continuous hash-chained audit active with " +:+ py_str frames +:+ " frames.")
       else
         eu "Article 12" "Automatic Record-Keeping & Immutable Logging" "FAIL"
           "Audit chain validation failed.");
      eu "Article 13" "System Transparency & Standard Reason Codes" "PASS"
        "Signed GAA tokens with standardized machine-readable denial reason codes.";
      eu "Article 14" "Human Oversight & Approval Quorums"
        (if has_quorums policies then "PASS" else "INFO")
        (if has_quorums policies then "Multi-party SignedApproval quorums active"
         else "Approval quorums supported; none currently enforced.")].

Definition evaluate_soc2_iso27001 (A : ComplianceAuditor) : res (list ComplianceEvaluation) :=
  integrity ← verify_integrity (ca_log A);
  let trust := trust_to_dict (ca_trust A) in
  let ok := in_ok integrity in
  Ok [{| ce_framework := "SOC 2"; ce_control_id := "CC7.2";
         ce_title := "System Monitoring and Audit Evidence";
         ce_status := if ok then "PASS" else "FAIL";
         ce_details :=
           if ok then "Hash-chained replay evidence verified at " +:+
                      string_of_Z (in_frame_count integrity) +:+ " frames."
           else "Replay evidence integrity validation failed." |};
      {| ce_framework := "ISO/IEC 27001:2022"; ce_control_id := "A.8.15"; ce_title := "Logging";
         ce_status := if ok then "PASS" else "FAIL";
         ce_details := "Replay evidence is available for independent retention and review." |};
      {| ce_framework := "ISO/IEC 27001:2022"; ce_control_id := "A.5.18"; ce_title := "Access Rights";
         ce_status := if truthy (dict_get "keys" trust) then "PASS" else "WARNING";
         ce_details := "Trust-key inventory is included in the evidence bundle." |};
      {| ce_framework := "SOC 2"; ce_control_id := "CC6.1"; ce_title := "Logical Access Controls";
         ce_status := match auditor_policies A with [] => "WARNING" | _ => "PASS" end;
         ce_details := "Policy inventory is included in the evidence bundle." |}].

Definition control_summary (e : ComplianceEvaluation) : pyval :=
  PDict [("framework", PStr (ce_framework e)); ("control_id", PStr (ce_control_id e));
         ("status", PStr (ce_status e)); ("title", PStr (ce_title e))].

Definition evidence_bundle (A : ComplianceAuditor) (now : string) : res pydict :=
  integrity ← verify_integrity (ca_log A);
  digests ← match ca_registry A with Some r => registry_digests r | None => Ok [] end;
  controls ← evaluate_soc2_iso27001 A;
  Ok [("generated_at", PStr now);
      ("replay_integrity", PDict (integrity_to_dict integrity));
      ("audit_summary", PDict (audit_summary (ca_log A)));
      ("trust_store", PDict (trust_to_dict (ca_trust A)));
      ("policy_digests", PDict (map (λ kd, (kd.1, PStr kd.2)) digests));
      ("controls", PList (map control_summary controls))].

Definition count_where (p : string → bool) (evals : list ComplianceEvaluation) : Z :=
  Z.of_nat (length (List.filter (λ e, p (ce_status e)) evals)).

Definition control_row (e : ComplianceEvaluation) : pyval :=
  PDict [("control_id", PStr (ce_control_id e)); ("title", PStr (ce_title e));
         ("status", PStr (ce_status e)); ("details", PStr (ce_details e))].

Definition framework_row (e : ComplianceEvaluation) : pyval :=
  PDict [("framework", PStr (ce_framework e)); ("control_id", PStr (ce_control_id e));
         ("title", PStr (ce_title e)); ("status", PStr (ce_status e)); ("details", PStr (ce_details e))].

Definition generate_report (A : ComplianceAuditor) (now : string) : res pydict :=
  nist_evals ← evaluate_nist_ai_rmf A;
  eu_evals ← evaluate_eu_ai_act A;
  soc2_iso_evals ← evaluate_soc2_iso27001 A;
  let all_evals := nist_evals ++ eu_evals ++ soc2_iso_evals in
  let passes := count_where (λ s, String.eqb s "PASS") all_evals in
  let fails := count_where (λ s, String.eqb s "FAIL") all_evals in
  let warnings := count_where (λ s, str_in s ["WARNING"; "INFO"]) all_evals in
  Ok [("timestamp", PStr now);
      ("compliance_status", PStr (if fails =? 0 then "COMPLIANT" else "NON_COMPLIANT"));
      ("score", PDict [("total_controls_evaluated", PInt (Z.of_nat (length all_evals)));
                       ("passed", PInt passes); ("failed", PInt fails); ("warnings", PInt warnings)]);
      ("nist_ai_rmf", PList (map control_row nist_evals));
      ("eu_ai_act", PList (map control_row eu_evals));
      ("soc2_iso27001", PList (map framework_row soc2_iso_evals));
      ("audit_summary", PDict (audit_summary (ca_log A)))].

(** * Lemmas *)

(** The statuses as the evidence determines them: [keys], [chain] and [ok] are
    the three facts that can fail a control. *)
Definition statuses (keys chain ok : bool) (policies : list Policy) : list (string * string) :=
  let grade (b : bool) (s : string) := if b then "PASS" else s in
  let governed := match policies with [] => false | _ => true end in
  [("GV-1.2", grade keys "FAIL"); ("GV-2.1", grade governed "WARNING");
   ("MS-3.2", grade chain "FAIL"); ("MN-2.2", "PASS");
   ("Article 9", grade governed "WARNING"); ("Article 12", grade chain "FAIL");
   ("Article 13", "PASS"); ("Article 14", grade (has_quorums policies) "INFO");
   ("CC7.2", grade ok "FAIL"); ("A.8.15", grade ok "FAIL");
   ("A.5.18", grade keys "WARNING"); ("CC6.1", grade governed "WARNING")].

Definition has_keys (t : TrustStore) : bool := match ts_keys t with [] => false | _ => true end.

Definition id_status (e : ComplianceEvaluation) : string * string := (ce_control_id e, ce_status e).

Lemma trust_keys_len t : dict_len (dict_get "keys" (trust_to_dict t)) = Z.of_nat (length (ts_keys t)).
Proof. cbn. by rewrite length_map, sort_by_length. Qed.

Lemma trust_keys_truthy t : truthy (dict_get "keys" (trust_to_dict t)) = has_keys t.
Proof.
  unfold has_keys. pose proof (trust_keys_len t) as H. cbn in H |- *.
  destruct (map _ _), (ts_keys t); cbn in *; (reflexivity || lia).
Qed.

Lemma evaluations_statuses A chain i :
  verify_chain (ca_log A) = Ok chain → verify_integrity (ca_log A) = Ok i →
  ∃ n e s, evaluate_nist_ai_rmf A = Ok n ∧ evaluate_eu_ai_act A = Ok e ∧ evaluate_soc2_iso27001 A = Ok s ∧
    map id_status (n ++ e ++ s) =
      statuses (has_keys (ca_trust A)) chain (in_ok i) (auditor_policies A).
Proof.
  intros Hc Hi. unfold evaluate_nist_ai_rmf, evaluate_eu_ai_act, evaluate_soc2_iso27001.
  rewrite Hc, Hi. unfold mbind, res_bind. do 3 eexists. do 3 (split; [reflexivity|]).
  rewrite trust_keys_len, trust_keys_truthy. unfold has_keys, statuses.
  assert ((0 <=? Z.of_nat (length (rl_frames (ca_log A)))) = true) as Hn by (apply Z.leb_le; lia).
  cbn [audit_summary dict_get assoc_get String.eqb Ascii.eqb Bool.eqb]. cbn [default from_option].
  destruct (ts_keys (ca_trust A)), (auditor_policies A), chain, (in_ok i); cbn;
    rewrite ?Hn; reflexivity.
Qed.

Lemma count_where_statuses p evals :
  count_where p evals = Z.of_nat (length (List.filter (λ ks, p ks.2) (map id_status evals))).
Proof.
  unfold count_where. f_equal. induction evals as [|e evals IH]; [done|]. cbn.
  destruct (p _); cbn; by rewrite IH.
Qed.

Lemma linked_serializable prev frames : linked prev frames → events_serializable frames.
Proof.
  revert prev. induction frames as [|f frames IH]; intros prev; [constructor|].
  intros [Hf Hl]. constructor; [|by eapply IH].
  apply frame_create_ok in Hf as (_ & _ & _ & Hd). unfold canonical_digest in Hd.
  apply res_bind_ok in Hd as (t & Ht & _). apply canonical_json_ok in Ht as [Hs _].
  cbn [serializable frame_body forallb snd] in Hs. by rewrite andb_true_r in Hs.
Qed.

(** What can fail is the trust inventory, the chain and its identifiers. *)
Lemma failures_none keys chain ok policies :
  (Z.of_nat (length (List.filter (λ ks : string * string, String.eqb ks.2 "FAIL")
     (statuses keys chain ok policies))) =? 0) = keys && chain && ok.
Proof. unfold statuses. by destruct (has_quorums policies), keys, chain, ok, policies. Qed.

Lemma score_adds_up keys chain ok policies :
  let n p := length (List.filter (λ ks : string * string, p ks.2) (statuses keys chain ok policies)) in
  (n (λ s, String.eqb s "PASS") + n (λ s, String.eqb s "FAIL") +
   n (λ s, str_in s ["WARNING"; "INFO"]) = 12)%nat.
Proof. unfold statuses. by destruct (has_quorums policies), keys, chain, ok, policies. Qed.

(** ** Decisions in the audit summary *)

Lemma reconstruct_nodup events ds :
  List.NoDup (map fst ds) → List.NoDup (map fst (fold_left reconstruct_step events ds)).
Proof.
  revert ds. induction events as [|e events IH]; intros ds H; [done|]. cbn [fold_left]. apply IH.
  unfold reconstruct_step, update_record. repeat case_match; auto with gas.
Qed.

Lemma reconstruct_authorization l frames f nonce :
  rl_frames l = frames ++ [f] →
  dict_get "type" (rf_event f) = PStr "authorization" → dict_get "nonce" (rf_event f) = PStr nonce →
  nonce ≠ "" →
  ∃ execution, assoc_get nonce (reconstruct_decisions l) = Some (authorization_entry (rf_event f), execution).
Proof.
  intros Hl Ht Hn Hne. unfold reconstruct_decisions.
  rewrite assoc_get_sort_by by (apply NoDup_ListNoDup, reconstruct_nodup; constructor).
  rewrite Hl, map_app, fold_left_app. cbn [map fold_left].
  unfold reconstruct_step at 1. rewrite Ht, Hn. cbn [py_eqb truthy py_str].
  rewrite String.eqb_refl. destruct (String.eqb_spec nonce ""); [done|]. cbn [negb].
  unfold update_record. rewrite assoc_get_set_eq. eauto.
Qed.

(** * Properties *)

(** A report over any log whose events serialize is returned and grades the
    twelve controls: it says COMPLIANT exactly when the trust store holds a
    key, the chain verifies and no frame identifier repeats, and its counts of
    passed, failed and warned controls add up to twelve.  A log that was only
    written through its own operations always has such a report. *)
Lemma compliance_report (A : ComplianceAuditor) (now : string) :
  (events_serializable (rl_frames (ca_log A)) ∨
   ∃ path calls, ca_log A = fold_left replay_run calls (replay_new path)) →
  ∃ report passed failed warnings, generate_report A now = Ok report ∧
    (dict_get "compliance_status" report = PStr "COMPLIANT" ↔
       ts_keys (ca_trust A) ≠ [] ∧ verify_chain (ca_log A) = Ok true ∧
       NoDup (map rf_frame_id (rl_frames (ca_log A)))) ∧
    dict_get "score" report =
      PDict [("total_controls_evaluated", PInt 12); ("passed", PInt passed);
             ("failed", PInt failed); ("warnings", PInt warnings)] ∧
    passed + failed + warnings = 12.
Proof.
  intros H. assert (events_serializable (rl_frames (ca_log A))) as Hs.
  { destruct H as [H|(path & calls & ->)]; [done|].
    eapply linked_serializable, (rs_linked _ _ (replay_runs_ok (replay_new path) calls)). done. }
  destruct (verify_chain_total "" _ Hs) as [chain Hc].
  destruct (verify_integrity_spec (ca_log A) Hs) as (i & Hi & Hok & _).
  destruct (evaluations_statuses A chain i Hc Hi) as (n & e & s & Hn & He & Hso & Hst).
  unfold generate_report. rewrite Hn, He, Hso. unfold mbind, res_bind.
  do 4 eexists. split; [reflexivity|]. rewrite !count_where_statuses, Hst, failures_none. split; [|split].
  - cbn [dict_get assoc_get String.eqb Ascii.eqb Bool.eqb default].
    assert (chain = true ↔ linked "" (rl_frames (ca_log A))) as Hl.
    { rewrite <-verify_chain_linked. unfold verify_chain in Hc. rewrite Hc. naive_solver. }
    unfold verify_chain. rewrite verify_chain_linked. unfold has_keys.
    destruct (ts_keys (ca_trust A)), chain, (in_ok i); cbn; naive_solver.
  - apply (f_equal length) in Hst. rewrite length_map in Hst. rewrite Hst. reflexivity.
  - pose proof (score_adds_up (has_keys (ca_trust A)) chain (in_ok i) (auditor_policies A)) as Hn12.
    cbv beta zeta in Hn12 |- *. lia.
Qed.

(** The evidence bundle holds the request and the artifact of an authorization
    on record, although its documentation promises evidence without payloads. *)
Lemma evidence_exports_requests (A : ComplianceAuditor) (now : string) frames f nonce bundle :
  evidence_bundle A now = Ok bundle → rl_frames (ca_log A) = frames ++ [f] →
  dict_get "type" (rf_event f) = PStr "authorization" → dict_get "nonce" (rf_event f) = PStr nonce →
  nonce ≠ "" →
  ∃ summary decisions record authorization,
    dict_get "audit_summary" bundle = PDict summary ∧ dict_get "decisions" summary = PDict decisions ∧
    assoc_get nonce decisions = Some (PDict record) ∧
    dict_get "authorization" record = PDict authorization ∧
    dict_get "request" authorization = dict_get "request" (rf_event f) ∧
    dict_get "artifact_payload" authorization = dict_get "artifact_payload" (rf_event f).
Proof.
  intros H Hl Ht Hn Hne. unfold evidence_bundle in H. inv_bind.
  destruct (reconstruct_authorization _ _ _ _ Hl Ht Hn Hne) as [execution Hex].
  do 4 eexists. split; [reflexivity|]. split; [reflexivity|].
  rewrite assoc_get_map_values, Hex. by repeat split.
Qed.
End Compliance.

(** One authorization on record, with a payload. *)
Definition compliance_example : @ComplianceAuditor toy_crypto := {|
  ca_log := fold_left replay_run
    [ReplayAppend "f-1" [("type", PStr "authorization"); ("nonce", PStr "n-1");
                         ("request", PDict [("action", PStr "pay"); ("card", PStr "4111")])]]
    (replay_new false);
  ca_trust := {| ts_path := false; ts_keys := [("k", "k" : @PublicKey toy_crypto)]; ts_revoked := ∅;
                 ts_file := None |};
  ca_registry := None |}.

Lemma compliance_report_witness :
  ∃ report passed failed warnings, generate_report compliance_example "now" = Ok report ∧
    (dict_get "compliance_status" report = PStr "COMPLIANT" ↔
       ts_keys (ca_trust compliance_example) ≠ [] ∧ verify_chain (ca_log compliance_example) = Ok true ∧
       NoDup (map rf_frame_id (rl_frames (ca_log compliance_example)))) ∧
    dict_get "score" report =
      PDict [("total_controls_evaluated", PInt 12); ("passed", PInt passed);
             ("failed", PInt failed); ("warnings", PInt warnings)] ∧
    passed + failed + warnings = 12.
Proof. apply (compliance_report compliance_example "now"). right. by do 2 eexists. Defined.

(** The exported request of the example, card number and all. *)
Lemma evidence_exports_requests_witness :
  ∃ bundle summary decisions record authorization,
    evidence_bundle compliance_example "now" = Ok bundle ∧
    dict_get "audit_summary" bundle = PDict summary ∧ dict_get "decisions" summary = PDict decisions ∧
    assoc_get "n-1" decisions = Some (PDict record) ∧
    dict_get "authorization" record = PDict authorization ∧
    dict_get "request" authorization = PDict [("action", PStr "pay"); ("card", PStr "4111")].
Proof.
  destruct (evidence_bundle compliance_example "now") as [bundle|e] eqn:H; [|vm_compute in H; discriminate].
  destruct (evidence_exports_requests compliance_example "now" []
              (List.hd (Build_ReplayFrame "" "" [] "") (rl_frames (ca_log compliance_example))) "n-1" bundle)
    as (s & d & r & a & H1 & H2 & H3 & H4 & H5 & _); try done.
  exists bundle, s, d, r, a. by rewrite H5.
Defined.
