(* ===== verification/A2A.v ===== *)
(** a2a.py: the delegation of a task from one agent to another.  The delegator
    signs an envelope that names the recipient, the task and the nonce of an
    authorization artifact; the recipient's guard checks the envelope and hands
    the artifact to its execution boundary.

    The file shows when exactly a handler runs, that the envelope parses back
    from its dictionary, and that its signed bytes fix its fields. *)

From S2P Require Import Prelude PyFloat PyVal Json Sha256 Base64 Crypto Trust Models Policy Arbiter PolicyRegistry Replay ReplayStore Mesh Issuer Engine.

(** ** [dict(v)] *)

(** One element of the argument, a pair. *)
Definition py_pair (v : pyval) : res (string * pyval) :=
  match py_tuple v with
  | Ok [PStr k; x] => Ok (k, x)
  | Ok [k; _] =>
      if hashable k then unmodelled "a dictionary key is not a string"
      else Raise (TypeError "unhashable type")
  | Ok _ => Raise (ValueError "dictionary update sequence element has the wrong length; 2 is required")
  | Raise _ => Raise (TypeError "cannot convert dictionary update sequence element to a sequence")
  end.

Definition py_dict (v : pyval) : res pydict :=
  match v with
  | PDict d => Ok d
  | _ => items ← py_tuple v; pairs ← mapM_res py_pair items; Ok (assoc_update [] pairs)
  end.

(** ** [A2ATaskDelegation] *)

Record A2ATaskDelegation := {
  ad_delegator_id : string;
  ad_recipient_id : string;
  ad_task_id : string;
  ad_action : string;
  ad_payload : pydict;
  ad_gaa : gaa;
  ad_signature : string
}.

Definition delegation_unsigned_dict (d : A2ATaskDelegation) : pydict :=
  [("action", PStr (ad_action d)); ("delegator_id", PStr (ad_delegator_id d));
   ("gaa_nonce", PStr (gaa_nonce (ad_gaa d))); ("payload", PDict (ad_payload d));
   ("recipient_id", PStr (ad_recipient_id d)); ("task_id", PStr (ad_task_id d))].

Definition delegation_unsigned_payload (d : A2ATaskDelegation) : res string :=
  canonical_json (PDict (delegation_unsigned_dict d)).

Definition delegation_sign_with (d : A2ATaskDelegation) (signature : string) : A2ATaskDelegation :=
  {| ad_delegator_id := ad_delegator_id d; ad_recipient_id := ad_recipient_id d;
     ad_task_id := ad_task_id d; ad_action := ad_action d; ad_payload := ad_payload d;
     ad_gaa := ad_gaa d; ad_signature := signature |}.

Definition delegation_to_dict (d : A2ATaskDelegation) : pydict :=
  [("delegator_id", PStr (ad_delegator_id d)); ("recipient_id", PStr (ad_recipient_id d));
   ("task_id", PStr (ad_task_id d)); ("action", PStr (ad_action d));
   ("payload", PDict (ad_payload d)); ("gaa", PDict (gaa_to_dict (ad_gaa d)));
   ("signature", PStr (ad_signature d))].

Definition delegation_required : list string :=
  ["delegator_id"; "recipient_id"; "task_id"; "action"; "payload"; "gaa"; "signature"].

Definition delegation_from_dict (data : pyval) : res A2ATaskDelegation :=
  match data with
  | PDict d =>
      fail_if (negb (keys_equal d delegation_required))
        (ValueError "invalid A2ATaskDelegation dictionary") ;;
      payload ← py_dict (dict_get "payload" d);
      artifact ← gaa_from_dict (dict_get "gaa" d);
      Ok {| ad_delegator_id := py_str (dict_get "delegator_id" d);
            ad_recipient_id := py_str (dict_get "recipient_id" d);
            ad_task_id := py_str (dict_get "task_id" d);
            ad_action := py_str (dict_get "action" d);
            ad_payload := payload; ad_gaa := artifact;
            ad_signature := py_str (dict_get "signature" d) |}
  | _ => Raise (ValueError "invalid A2ATaskDelegation dictionary")
  end.

Section A2A.
Context `{C : Crypto} {L : Type} `{RS : ReplayStore L}.

Definition delegation_create (delegator : KeyPair) (recipient_id task_id action : string)
    (payload : pydict) (artifact : gaa) : res A2ATaskDelegation :=
  fail_if (String.eqb recipient_id "") (ValueError "recipient_id must be a non-empty string") ;;
  fail_if (String.eqb task_id "") (ValueError "task_id must be a non-empty string") ;;
  fail_if (String.eqb action "") (ValueError "action must be a non-empty string") ;;
  let unsigned :=
    {| ad_delegator_id := kp_key_id delegator; ad_recipient_id := recipient_id;
       ad_task_id := task_id; ad_action := action; ad_payload := payload; ad_gaa := artifact;
       ad_signature := "" |} in
  bytes ← delegation_unsigned_payload unsigned;
  Ok (delegation_sign_with unsigned (keypair_sign delegator bytes)).

Definition delegation_verify (d : A2ATaskDelegation) (delegator_public_key : PublicKey) : res bool :=
  payload ← delegation_unsigned_payload d;
  Ok (verify_signature delegator_public_key payload (ad_signature d)).

(** ** [A2AGuard] *)

Record A2AGuard := {
  ag_recipient_id : string;
  ag_trust_store : TrustStore;
  ag_boundary : ExecutionBoundary
}.

Definition receive_and_execute (G : A2AGuard) (now : Z) (d : A2ATaskDelegation)
    (handler : pydict → res pyval) : M (engine_state L) pyval :=
  raise_if (negb (String.eqb (ad_recipient_id d) (ag_recipient_id G)))
    (AuthorizationError ("delegation recipient mismatch: intended for " +:+
       py_repr_str (ad_recipient_id d) +:+ ", received by " +:+ py_repr_str (ag_recipient_id G))) ;;
  match trust_resolve (ag_trust_store G) (ad_delegator_id d) with
  | None =>
      raise (AuthorizationError ("unknown or revoked delegator key: " +:+
        py_repr_str (ad_delegator_id d)))
  | Some delegator_key =>
      verified ← lift_res (delegation_verify d delegator_key);
      raise_if (negb verified)
        (AuthorizationError "invalid delegator signature on A2A delegation envelope") ;;
      let gaa_action := dict_get "action" (gaa_action_request (ad_gaa d)) in
      raise_if (negb (py_eqb gaa_action (PStr (ad_action d))))
        (AuthorizationError ("action mismatch between delegation (" +:+ py_repr_str (ad_action d) +:+
           ") and GAA (" +:+ py_repr gaa_action +:+ ")")) ;;
      execute (ag_boundary G) now handler (ad_gaa d)
  end.
End A2A.

(** * Lemmas *)

Section A2ALemmas.
Context `{C : Crypto} {L : Type} `{LL : ReplayStoreLaws L}.
Implicit Types (s : engine_state L) (d : A2ATaskDelegation) (G : A2AGuard).

(** What an accepted envelope went through before the boundary. *)
Record delegated G d (key : PublicKey) : Prop := {
  delegated_recipient : ad_recipient_id d = ag_recipient_id G;
  delegated_key : trust_resolve (ag_trust_store G) (ad_delegator_id d) = Some key;
  delegated_signature : delegation_verify d key = Ok true;
  delegated_action : dict_get "action" (gaa_action_request (ad_gaa d)) = PStr (ad_action d)
}.

(** The guard is the boundary behind the envelope checks. *)
Lemma receive_delegated G now d handler s key :
  delegated G d key →
  receive_and_execute G now d handler s = execute (ag_boundary G) now handler (ad_gaa d) s.
Proof.
  intros [Hr Hk Hs Ha]. unfold receive_and_execute, mbind, M_bind, raise_if, lift_res.
  by rewrite Hr, String.eqb_refl, Hk, Hs, Ha, (proj2 (py_eqb_str _ _) eq_refl).
Qed.

Lemma receive_cases G now d handler s :
  (∃ key, delegated G d key) ∨ (∃ e, receive_and_execute G now d handler s = (Raise e, s)) ∧
                               ¬ ∃ key, delegated G d key.
Proof.
  unfold receive_and_execute, mbind, M_bind, raise_if, lift_res, raise.
  destruct (String.eqb_spec (ad_recipient_id d) (ag_recipient_id G)) as [Hr|Hr]; cbn [negb].
  2: { right. split; [by eauto|]. by intros [? []]. }
  destruct (trust_resolve _ _) as [key|] eqn:Hk.
  2: { right. split; [by eauto|]. intros [? []]. congruence. }
  destruct (delegation_verify d key) as [[]|e] eqn:Hs; cbn [negb].
  - destruct (py_eqb _ _) eqn:Ha; cbn [negb].
    + left. exists key. by split; try apply py_eqb_str.
    + right. split; [by eauto|]. intros [? [_ _ _ Hact]].
      by rewrite Hact, (proj2 (py_eqb_str _ _) eq_refl) in Ha.
  - right. split; [by eauto|]. intros [key' [_ Hk' Hs' _]]. congruence.
  - right. split; [by eauto|]. intros [key' [_ Hk' Hs' _]]. congruence.
Qed.

Lemma delegation_create_verifies `{!CryptoLaws C} delegator recipient task action payload a d :
  delegation_create delegator recipient task action payload a = Ok d →
  delegation_verify d (keypair_public_key delegator) = Ok true ∧
  ad_delegator_id d = kp_key_id delegator ∧ ad_recipient_id d = recipient ∧ ad_action d = action ∧
  ad_payload d = payload ∧ ad_gaa d = a ∧ ad_task_id d = task.
Proof.
  unfold delegation_create. intros H. inv_bind. split; [|done].
  unfold delegation_verify. match goal with H : delegation_unsigned_payload ?u = Ok ?x |- _ =>
    change (delegation_unsigned_payload (delegation_sign_with u _)) with (delegation_unsigned_payload u);
    rewrite H end.
  unfold mbind, res_bind, delegation_sign_with. cbn [ad_signature]. f_equal.
  unfold keypair_sign. rewrite verify_signature_b64. apply verify_sign.
Qed.
End A2ALemmas.

(** An envelope parses back from its dictionary. *)
Lemma delegation_roundtrip d : gaa_valid (ad_gaa d) →
  delegation_from_dict (PDict (delegation_to_dict d)) = Ok d.
Proof.
  intros Hv. unfold delegation_from_dict. cbn [delegation_to_dict].
  change (keys_equal (delegation_to_dict d) delegation_required) with true.
  unfold dict_get. cbn [assoc_get String.eqb Ascii.eqb Bool.eqb delegation_to_dict].
  unfold mbind, res_bind, fail_if. cbn [negb]. simpl default. cbn [py_dict].
  rewrite gaa_from_dict_to_dict by done. by destruct d.
Qed.

(** The signed bytes fix the delegator, the recipient, the task, the action,
    the payload and the nonce of the artifact, but no other field of it. *)
Lemma delegation_payload_binds d e bytes :
  json_safe canonical_style (PDict (delegation_unsigned_dict d)) = true →
  wf (PDict (delegation_unsigned_dict d)) = true →
  json_safe canonical_style (PDict (delegation_unsigned_dict e)) = true →
  wf (PDict (delegation_unsigned_dict e)) = true →
  delegation_unsigned_payload d = Ok bytes → delegation_unsigned_payload e = Ok bytes →
  ad_action d = ad_action e ∧ ad_delegator_id d = ad_delegator_id e ∧
  gaa_nonce (ad_gaa d) = gaa_nonce (ad_gaa e) ∧ ad_recipient_id d = ad_recipient_id e ∧
  ad_task_id d = ad_task_id e ∧ norm (PDict (ad_payload d)) = norm (PDict (ad_payload e)).
Proof.
  intros Hsd Hwd Hse Hwe Hd He.
  apply canonical_json_ok in Hd as [_ ->]. apply canonical_json_ok in He as [_ Heq].
  apply (json_text_inj canonical_style) in Heq; auto.
  assert (∀ k, norm <$> assoc_get k (delegation_unsigned_dict d) =
               norm <$> assoc_get k (delegation_unsigned_dict e)) as Hk
    by (intros k; apply norm_dict_get; by try apply str_nodup_spec).
  pose proof (Hk "action") as H1. pose proof (Hk "delegator_id") as H2.
  pose proof (Hk "gaa_nonce") as H3. pose proof (Hk "payload") as H4.
  pose proof (Hk "recipient_id") as H5. pose proof (Hk "task_id") as H6.
  clear -H1 H2 H3 H4 H5 H6. simpl in *. split_and!; congruence.
Qed.

(** * Properties *)

(** C9. A guard runs a handler exactly for a delegated task: addressed to this
    guard, signed by a delegator whose key its trust store still resolves, over
    the action that the artifact authorizes, with an artifact that the boundary
    validates.  Then the handler is called once, for the request signed in the
    artifact; otherwise the call raises and changes nothing. *)
Theorem a2a_guarded `{C : Crypto} {L} `{LL : ReplayStoreLaws L} (G : A2AGuard) (now : Z)
    (d : A2ATaskDelegation) (handler : pydict → res pyval) (s : engine_state L) :
  store_inv (es_log s) →
  let r := receive_and_execute G now d handler s in
  ((∃ e, r = (Raise e, s)) ∧ ¬ ((∃ key, delegated G d key) ∧
      ∃ key frame, validated (ag_boundary G) now (es_log s) (ad_gaa d) key frame)) ∨
  (es_invoked r.2 = es_invoked s ++ [ad_gaa d] ∧
   (∃ key, delegated G d key) ∧
   (∃ key frame, validated (ag_boundary G) now (es_log s) (ad_gaa d) key frame) ∧
   store_used (es_log r.2) (gaa_nonce (ad_gaa d)) = true).
Proof.
  intros Hi r. subst r.
  destruct (receive_cases G now d handler s) as [[key Hd]|[He Hn]]; [|left; naive_solver].
  rewrite (receive_delegated _ _ _ _ _ _ Hd).
  destruct (execute_cases (ag_boundary G) now handler (ad_gaa d) s Hi)
    as [(e & Hv & ->)|(Hv & Hinv & _ & _ & Hu)].
  - left. split; [by eauto|]. intros [_ Hval]. by rewrite (proj2 (validate_ok _ _ _ _) Hval) in Hv.
  - right. split_and!; [done|by eauto|by apply validate_ok|]. by rewrite Hu, String.eqb_refl.
Qed.

(** ** Witness *)

Definition example_delegator : @KeyPair toy_crypto :=
  {| kp_private_key := "agent-key" : @PrivateKey toy_crypto; kp_key_id := "agent-a" |}.

Definition example_guard : @A2AGuard toy_crypto :=
  {| ag_recipient_id := "agent-b";
     ag_trust_store := {| ts_path := false;
                          ts_keys := [("agent-a", "agent-key" : @PublicKey toy_crypto)];
                          ts_revoked := ∅; ts_file := None |};
     ag_boundary := example_boundary |}.

Definition example_delegation : A2ATaskDelegation :=
  Eval vm_compute in
    match delegation_create example_delegator "agent-b" "task-1" "payments.transfer"
            [("note", PStr "invoice 7")] example_gaa with
    | Ok d => d
    | Raise _ => {| ad_delegator_id := ""; ad_recipient_id := ""; ad_task_id := ""; ad_action := "";
                    ad_payload := []; ad_gaa := no_gaa; ad_signature := "" |}
    end.

Lemma a2a_guarded_witness :
  es_invoked (receive_and_execute example_guard 1100 example_delegation example_action
                example_engine_state).2 = [example_gaa] ∧
  store_used (es_log (receive_and_execute example_guard 1100 example_delegation example_action
                example_engine_state).2) "n1" = true.
Proof.
  destruct (a2a_guarded (L := ReplayLog) example_guard 1100 example_delegation example_action
    example_engine_state example_log_linked) as [[[e He] _]|(Hinv & _ & _ & Hu)].
  - assert ((receive_and_execute example_guard 1100 example_delegation example_action
      example_engine_state).1 = Ok (PStr "transferred")) as H by (vm_compute; reflexivity).
    rewrite He in H. discriminate H.
  - exact (conj Hinv Hu).
Defined.
