(* ===== verification/McpGateway.v ===== *)
(** mcp_gateway.py: governed calls of registered tools.  Registering a tool
    rebuilds the gateway's one policy from the tools' definitions and wires a
    new boundary to it; a call builds a request from the tool's name, the
    caller's arguments and a context, has it authorized and executes it.

    The state of a gateway and that of the log it shares with its issuer and
    boundary ([service_state], as in the facade) are separate.  The adapter to
    the [mcp] package is modelled by its two answers.  The file
    shows what a call guarantees in a gateway built by registrations, and two
    ways in which the code falls short: arguments can name another action, and
    a refused registration leaves its tool behind. *)

From S2P Require Import Prelude PyFloat PyVal Json Sha256 Base64 Crypto Trust Models Policy Arbiter PolicyRegistry Replay ReplayStore Mesh Issuer Engine Service.

Record MCPToolDefinition := {
  td_name : string;
  td_description : string;
  td_input_schema : pydict;
  td_required_fields : list string;
  td_required_approvals : Z
}.

Record MCPToolResult := {
  tr_content : pyval;
  tr_gaa : gaa;
  tr_tool_name : string;
  tr_is_error : bool
}.

Definition text_item (text : string) : pyval := PDict [("type", PStr "text"); ("text", PStr text)].

Definition to_mcp_content (r : MCPToolResult) : list pyval :=
  (if is_none (tr_content r) then [] else [text_item (py_str (tr_content r))]) ++
  [text_item ("[GAS-GAA] nonce=" +:+ gaa_nonce (tr_gaa r) +:+ " policy=" +:+
     py_str (dict_get "policy" (gaa_decision (tr_gaa r))) +:+ " expires=" +:+
     string_of_Z (gaa_expires_at (tr_gaa r)))].

Record MCPGatewayContext := {
  gc_agent_id : pyval;
  gc_tenant_id : pyval;
  gc_session_id : pyval;
  gc_extra : pydict
}.

(** An entry that is left out for [None]. *)
Definition unless_none (k : string) (v : pyval) : pydict := if is_none v then [] else [(k, v)].

Definition gateway_context_to_dict (c : MCPGatewayContext) : pydict :=
  assoc_update (unless_none "agent_id" (gc_agent_id c) ++ unless_none "tenant_id" (gc_tenant_id c) ++
                unless_none "session_id" (gc_session_id c)) (gc_extra c).

(** The [context] argument of a call. *)
Inductive context_arg :=
| ContextObject (c : MCPGatewayContext)
| ContextDict (d : pydict)
| ContextOther.

Definition context_arg_dict (c : context_arg) : pydict :=
  match c with
  | ContextObject c => gateway_context_to_dict c
  | ContextDict d => d
  | ContextOther => []
  end.

(** [{"action": tool_name, **arguments, "context": ctx_dict}] *)
Definition tool_request (tool_name : string) (arguments ctx_dict : pydict) : pydict :=
  assoc_set "context" (PDict ctx_dict) (assoc_update [("action", PStr tool_name)] arguments).

(** ** The gateway's policy *)

Definition GATEWAY_POLICY_ID : string := "gas-mcp-gateway".
Definition DEFAULT_TTL : Z := 60.

(** The constructor's arguments for a policy with the defaults of the other fields. *)
Definition gateway_policy_args (actions : list string) (fields : list (string * list string))
    (approvals : list (string * Z)) (max_bytes max_ttl : Z) : PolicyArgs := {|
  pa_policy_id := PStr GATEWAY_POLICY_ID;
  pa_allowed_actions := map PStr actions;
  pa_required_fields := map (λ kv, (kv.1, map PStr kv.2)) fields;
  pa_exact_fields := PDict [];
  pa_required_context := [];
  pa_exact_context := PNone;
  pa_max_request_bytes := PInt max_bytes;
  pa_max_ttl_seconds := PInt max_ttl;
  pa_required_approvals := PDict (map (λ kv, (kv.1, PInt kv.2)) approvals);
  pa_max_numeric_fields := PDict [];
  pa_required_mesh_inputs := PDict [];
  pa_required_mesh_sources := [];
  pa_mesh_required_actions := [];
  pa_mesh_required_environments := [] |}.

Definition tools_required_fields (tools : list (string * MCPToolDefinition)) : list (string * list string) :=
  flat_map (λ nd : string * MCPToolDefinition,
    match td_required_fields nd.2 with [] => [] | fs => [(nd.1, fs)] end) tools.

Definition tools_required_approvals (tools : list (string * MCPToolDefinition)) : list (string * Z) :=
  flat_map (λ nd : string * MCPToolDefinition,
    if 0 <? td_required_approvals nd.2 then [(nd.1, td_required_approvals nd.2)] else []) tools.

(** [PolicyRegistry((policy,))] *)
Definition registry_of (p : Policy) : res PolicyRegistry :=
  let '(r, registry) := registry_register p registry_empty in r ;; Ok registry.

Section Gateway.
Context `{C : Crypto} {L : Type} `{RS : ReplayStore L}.

Record GASMCPGateway := {
  gw_issuer : AuthorizationIssuer;
  gw_boundary : ExecutionBoundary;
  gw_registry : PolicyRegistry;
  gw_ttl : Z;
  gw_handlers : list (string * (pydict → res pyval));
  gw_tools : list (string * MCPToolDefinition)
}.

Definition gateway_init (issuer : AuthorizationIssuer) (boundary : ExecutionBoundary)
    (registry : PolicyRegistry) (ttl_seconds : Z) : GASMCPGateway :=
  {| gw_issuer := issuer; gw_boundary := boundary; gw_registry := registry; gw_ttl := ttl_seconds;
     gw_handlers := []; gw_tools := [] |}.

Definition gateway_create (issuer_key : KeyPair) (trust_store : TrustStore) (ttl_seconds : Z)
    (extra_allowed_actions : list string) (max_request_bytes max_ttl_seconds : Z)
    : res GASMCPGateway :=
  let arbiter := {| arb_issuer_keys := []; arb_trust_store := Some trust_store |} in
  let issuer := {| ai_issuer := keypair_signer issuer_key; ai_arbiter := arbiter;
                   ai_mesh := None; ai_registry := None |} in
  let allowed := match sort_strings extra_allowed_actions with [] => ["__placeholder__"] | l => l end in
  policy ← policy_post_init (gateway_policy_args allowed [] [] max_request_bytes max_ttl_seconds);
  registry ← registry_of policy;
  boundary ← boundary_init None (Some trust_store) (Some registry) arbiter;
  Ok (gateway_init issuer boundary registry ttl_seconds).

Definition set_tool (name : string) (definition : MCPToolDefinition) (handler : pydict → res pyval)
    (G : GASMCPGateway) : GASMCPGateway :=
  {| gw_issuer := gw_issuer G; gw_boundary := gw_boundary G; gw_registry := gw_registry G;
     gw_ttl := gw_ttl G; gw_handlers := assoc_set name handler (gw_handlers G);
     gw_tools := assoc_set name definition (gw_tools G) |}.

Definition set_registry (r : PolicyRegistry) (G : GASMCPGateway) : GASMCPGateway :=
  {| gw_issuer := gw_issuer G; gw_boundary := gw_boundary G; gw_registry := r; gw_ttl := gw_ttl G;
     gw_handlers := gw_handlers G; gw_tools := gw_tools G |}.

Definition set_boundary (B : ExecutionBoundary) (G : GASMCPGateway) : GASMCPGateway :=
  {| gw_issuer := gw_issuer G; gw_boundary := B; gw_registry := gw_registry G; gw_ttl := gw_ttl G;
     gw_handlers := gw_handlers G; gw_tools := gw_tools G |}.

(** [self._boundary.trust_store] *)
Definition boundary_trust_store (B : ExecutionBoundary) : option TrustStore :=
  match eb_keys B with EngineTrust t => Some t | EngineIssuers _ => None end.

Definition rebuild_policy : M GASMCPGateway unit :=
  G ← get_state;
  match sort_strings (map fst (gw_handlers G)) with
  | [] => mret tt
  | tool_names =>
      let existing := registry_get (gw_registry G) GATEWAY_POLICY_ID in
      let max_bytes := match existing with Some p => max_request_bytes p | None => 64 * 1024 end in
      let max_ttl := match existing with Some p => max_ttl_seconds p | None => 300 end in
      new_policy ← lift_res (policy_post_init (gateway_policy_args tool_names
        (tools_required_fields (gw_tools G)) (tools_required_approvals (gw_tools G)) max_bytes max_ttl));
      registry ← lift_res (registry_of new_policy);
      modify (set_registry registry) ;;
      boundary ← lift_res (boundary_init None (boundary_trust_store (gw_boundary G)) (Some registry)
                             (eb_arbiter (gw_boundary G)));
      modify (set_boundary boundary)
  end.

Definition register_tool (definition : MCPToolDefinition) (handler : pydict → res pyval)
    : M GASMCPGateway unit :=
  G ← get_state;
  raise_if (assoc_has (td_name definition) (gw_handlers G))
    (ValueError ("tool already registered: " +:+ py_repr_str (td_name definition))) ;;
  modify (set_tool (td_name definition) definition handler) ;;
  rebuild_policy.

(** The decorator, for a function of the given name; it returns a function
    that calls [fn]. *)
Definition gateway_tool (description : string) (input_schema : option pydict)
    (required_fields : list string) (required_approvals : Z)
    (fn_name : string) (fn : pydict → res pyval) : M GASMCPGateway (pydict → res pyval) :=
  register_tool {| td_name := fn_name; td_description := description;
                   td_input_schema := default [] input_schema;
                   td_required_fields := required_fields;
                   td_required_approvals := required_approvals |} fn ;;
  mret fn.

(** ** A call *)

Definition gateway_call (G : GASMCPGateway) (now_issue now_execute : Z) (nonce tool_name : string)
    (arguments : pydict) (context : context_arg) (approvals : option (list approval_arg))
    : M (service_state L) MCPToolResult :=
  match assoc_get tool_name (gw_handlers G) with
  | None => raise (KeyError ("unknown tool: " +:+ py_repr_str tool_name))
  | Some handler =>
      let request := tool_request tool_name arguments (context_arg_dict context) in
      match registry_get (gw_registry G) GATEWAY_POLICY_ID with
      | None => raise (AuthorizationError "gateway policy is not configured")
      | Some policy =>
          artifact ← as_issuer (authorize (gw_issuer G) now_issue nonce request policy
                                  (Z.min (gw_ttl G) (max_ttl_seconds policy)) approvals []);
          result ← as_engine (execute (gw_boundary G) now_execute handler artifact);
          mret {| tr_content := result; tr_gaa := artifact; tr_tool_name := tool_name;
                  tr_is_error := false |}
      end
  end.

(** [GASMCPServer]'s answer to a call: the refusals it catches become text. *)
Definition server_call_tool (G : GASMCPGateway) (now_issue now_execute : Z) (nonce name : string)
    (arguments : option pydict) : M (service_state L) (list pyval) :=
  try_except
    (result ← gateway_call G now_issue now_execute nonce name (default [] arguments) ContextOther None;
     mret (to_mcp_content result))
    (λ e, match e with
          | AuthorizationError _ | PolicyDeniedError _ | KeyError _ | PolicyNotFoundError _ =>
              Some (mret [text_item ("[GAS-DENIED] " +:+ exn_name e +:+ ": " +:+ exn_str e)])
          | _ => None
          end).

(** ** Introspection *)

Definition list_tools (G : GASMCPGateway) : list MCPToolDefinition :=
  map snd (sort_by fst (gw_tools G)).

(** [GASMCPServer]'s answer to a listing; a tool without a schema takes any object. *)
Definition server_list_tools (G : GASMCPGateway) : list pyval :=
  map (λ d, PDict [("name", PStr (td_name d)); ("description", PStr (td_description d));
                   ("inputSchema", match td_input_schema d with
                                   | [] => PDict [("type", PStr "object"); ("properties", PDict [])]
                                   | schema => PDict schema
                                   end)]) (list_tools G).

Definition tool_entry (d : MCPToolDefinition) : pyval :=
  PDict [("name", PStr (td_name d)); ("description", PStr (td_description d));
         ("required_fields", of_strs (td_required_fields d));
         ("required_approvals", PInt (td_required_approvals d))].

Definition gateway_audit_report (G : GASMCPGateway) (log : ReplayLog) : res pydict :=
  digests ← registry_digests (gw_registry G);
  Ok [("tools", PList (map tool_entry (list_tools G)));
      ("policy_digest", match assoc_get GATEWAY_POLICY_ID digests with
                        | Some d => PStr d | None => PNone end);
      ("audit_summary", PDict (audit_summary log))].

(** Registrations in order, each of which succeeds. *)
Definition register_tools (tools : list (MCPToolDefinition * (pydict → res pyval)))
    : M GASMCPGateway unit :=
  forM_ tools (λ th, register_tool th.1 th.2).
End Gateway.

(** * Lemmas *)

#[export] Instance PStr_inj : Inj (=) (=) PStr.
Proof. by intros x y [= ->]. Qed.
#[export] Instance PInt_inj : Inj (=) (=) PInt.
Proof. by intros x y [= ->]. Qed.
#[export] Instance map_inj {A B} (f : A → B) : Inj (=) (=) f → Inj (=) (=) (map f).
Proof. intros Hf. apply list_fmap_eq_inj, Hf. Qed.
#[export] Instance entry_inj {A B} (f : A → B) :
  Inj (=) (=) f → Inj (=) (=) (λ kv : string * A, (kv.1, f kv.2)).
Proof. by intros Hf [k x] [k' y] [= -> ->%Hf]. Qed.

Lemma gateway_policy_fields actions fields approvals max_bytes max_ttl p :
  policy_post_init (gateway_policy_args actions fields approvals max_bytes max_ttl) = Ok p →
  policy_id p = GATEWAY_POLICY_ID ∧ allowed_actions p = actions ∧ required_fields p = fields ∧
  required_approvals p = approvals ∧ max_ttl_seconds p = max_ttl.
Proof.
  unfold policy_post_init, gateway_policy_args.
  cbn [pa_policy_id pa_allowed_actions pa_required_fields pa_exact_fields pa_required_context
    pa_exact_context pa_max_request_bytes pa_max_ttl_seconds pa_required_approvals
    pa_max_numeric_fields pa_required_mesh_inputs pa_required_mesh_sources
    pa_mesh_required_actions pa_mesh_required_environments py_items].
  intros H. inv_bind.
  cbn [policy_id allowed_actions required_fields required_approvals max_ttl_seconds].
  repeat match goal with
    | H : positive_int _ _ = Ok _ |- _ => apply positive_int_ok in H as [[= ?] _]
    | H : read_sorted "allowed_actions" _ = Ok _ |- _ => apply read_sorted_ok in H as [H _]
    | H : map PStr _ = map PStr _ |- _ => apply (inj (map PStr)) in H
    | H : mapM_res (read_fields _) _ = Ok _ |- _ =>
        rewrite (mapM_res_Forall _ _ _ _ _ (read_fields_ok _)) in H; destruct H as [H _]
    | H : mapM_res (read_count "required_approvals") _ = Ok _ |- _ =>
        rewrite (mapM_res_Forall _ _ _ _ _ (read_count_ok _)) in H; destruct H as [H _]
    end.
  apply (inj (map (λ kv : string * list string, (kv.1, map PStr kv.2)))) in Hx4.
  apply (inj (map (λ kv : string * Z, (kv.1, PInt kv.2)))) in Hx9.
  simpl in Hx. by simplify_eq.
Qed.

Lemma registry_of_ok p r : registry_of p = Ok r → registry_get r (policy_id p) = Some p.
Proof.
  unfold registry_of. rewrite registry_register_spec. simpl.
  intros [= <-]. unfold registry_get, registry_put. simpl. by rewrite String.eqb_refl.
Qed.

Section GatewayLemmas.
Context `{C : Crypto}.
Implicit Types (G : GASMCPGateway) (tools : list (string * MCPToolDefinition)).

Lemma tools_approvals_get name tools : NoDup (map fst tools) →
  assoc_get name (tools_required_approvals tools) =
  (d ← assoc_get name tools;
   if 0 <? td_required_approvals d then Some (td_required_approvals d) else None).
Proof.
  induction tools as [|[k d] tools IH]; [done|]. intros [Hk Hn]%NoDup_cons.
  change (tools_required_approvals ((k, d) :: tools)) with
    ((if 0 <? td_required_approvals d then [(k, td_required_approvals d)] else []) ++
     tools_required_approvals tools).
  rewrite assoc_get_app, IH by done. cbn [assoc_get].
  destruct (String.eqb_spec name k) as [->|Hne].
  - assert (assoc_get k tools = None) as Hnone
      by (by apply assoc_get_None; rewrite <-list_elem_of_In).
    rewrite Hnone. cbn. destruct (0 <? td_required_approvals d); [|done]. cbn. by rewrite String.eqb_refl.
  - destruct (0 <? td_required_approvals d); [|done]. cbn. by rewrite (proj2 (String.eqb_neq _ _) Hne).
Qed.

Lemma tools_fields_get name tools : NoDup (map fst tools) →
  default [] (assoc_get name (tools_required_fields tools)) =
  default [] (td_required_fields <$> assoc_get name tools).
Proof.
  induction tools as [|[k d] tools IH]; [done|]. intros [Hk Hn]%NoDup_cons.
  change (tools_required_fields ((k, d) :: tools)) with
    (match td_required_fields d with [] => [] | fs => [(k, fs)] end ++ tools_required_fields tools).
  rewrite assoc_get_app. cbn [assoc_get]. destruct (String.eqb_spec name k) as [->|Hne].
  - destruct (td_required_fields d) as [|f fs] eqn:Hd; cbn.
    + rewrite IH by done. rewrite Hd.
      by rewrite (proj2 (assoc_get_None k tools)) by (by rewrite <-list_elem_of_In).
    + by rewrite String.eqb_refl, Hd.
  - rewrite <-IH by done. destruct (td_required_fields d); cbn; [done|].
    by rewrite (proj2 (String.eqb_neq _ _) Hne).
Qed.

(** The policy of a gateway is the one its tools' definitions ask for. *)
Record gateway_inv G : Prop := {
  gwi_keys : map fst (gw_handlers G) = map fst (gw_tools G);
  gwi_nodup : NoDup (map fst (gw_tools G));
  gwi_policy : gw_tools G ≠ [] → ∃ p, registry_get (gw_registry G) GATEWAY_POLICY_ID = Some p ∧
    allowed_actions p = sort_strings (map fst (gw_tools G)) ∧
    required_fields p = tools_required_fields (gw_tools G) ∧
    required_approvals p = tools_required_approvals (gw_tools G)
}.

Lemma rebuild_policy_ok G G' :
  rebuild_policy G = (Ok tt, G') → gw_handlers G ≠ [] →
  gw_handlers G' = gw_handlers G ∧ gw_tools G' = gw_tools G ∧ gw_issuer G' = gw_issuer G ∧
  gw_ttl G' = gw_ttl G ∧
  ∃ p, registry_get (gw_registry G') GATEWAY_POLICY_ID = Some p ∧
    eb_registry (gw_boundary G') = Some (gw_registry G') ∧
    allowed_actions p = sort_strings (map fst (gw_handlers G)) ∧
    required_fields p = tools_required_fields (gw_tools G) ∧
    required_approvals p = tools_required_approvals (gw_tools G).
Proof.
  unfold rebuild_policy. intros H Hne. inv_bind.
  match goal with Hne : gw_handlers ?X ≠ [] |- _ => rename X into G0 end.
  destruct (sort_strings (map fst (gw_handlers G0))) as [|n names] eqn:Hs.
  { pose proof (sort_by_length (λ s : string, s) (map fst (gw_handlers G0))) as Hlen.
    rewrite Hs in Hlen. destruct (gw_handlers G0); [done|discriminate Hlen]. }
  inv_bind. apply gateway_policy_fields in Hx as (Hid & Ha & Hf & Hap & _).
  apply registry_of_ok in Hx0. rewrite Hid in Hx0.
  unfold boundary_init in *. destruct (boundary_trust_store _); inv_bind.
  cbn. split_and!; try done. eexists. split_and!; try done.
Qed.

Lemma register_tool_ok definition handler G G' :
  gateway_inv G → register_tool definition handler G = (Ok tt, G') →
  gateway_inv G' ∧ gw_handlers G' = gw_handlers G ++ [(td_name definition, handler)] ∧
  gw_tools G' = gw_tools G ++ [(td_name definition, definition)] ∧
  gw_issuer G' = gw_issuer G ∧ gw_ttl G' = gw_ttl G.
Proof.
  intros [Hk Hn _]. unfold register_tool. intros H. inv_bind.
  match goal with Hk : map fst (gw_handlers ?X) = _ |- _ => rename X into G0 end.
  assert (∀ A (x : A) (d : list (string * A)), assoc_get (td_name definition) d = None →
    assoc_set (td_name definition) x d = d ++ [(td_name definition, x)]) as Hset.
  { intros A y d. induction d as [|[k v] d IH]; [done|]. simpl.
    destruct (String.eqb _ _); [done|]. intros Hd. by rewrite IH. }
  assert (assoc_get (td_name definition) (gw_handlers G0) = None) as Hg.
  { unfold assoc_has in Hx0. by destruct (assoc_get _ _). }
  assert (assoc_get (td_name definition) (gw_tools G0) = None) as Hg'.
  { apply assoc_get_None. apply assoc_get_None in Hg. by rewrite <-Hk. }
  apply rebuild_policy_ok in H as (Hh & Ht & Hi & Hl & p & Hp & _ & Ha & Hf & Hap).
  2: { unfold set_tool. cbn. rewrite Hset by done. by destruct (gw_handlers G0). }
  unfold set_tool in *. cbn in *. rewrite !Hset in * by done.
  split; [|done]. split.
  - rewrite Hh, Ht, !map_app. by rewrite Hk.
  - rewrite Ht, map_app. apply NoDup_app. split; [done|]. split; [|apply NoDup_singleton].
    intros k Hin ->%list_elem_of_singleton. apply assoc_get_None in Hg'. by rewrite <-list_elem_of_In in Hg'.
  - intros _. exists p. rewrite Hap, Hf, Ha, Ht, !map_app, Hk. done.
Qed.

(** Registrations that all succeed: the tools are those registered, with
    distinct names. *)
Lemma register_tools_ok (regs : list (MCPToolDefinition * (pydict → res pyval))) G G' :
  gateway_inv G → register_tools regs G = (Ok tt, G') →
  gateway_inv G' ∧
  gw_handlers G' = gw_handlers G ++ map (λ th, (td_name th.1, th.2)) regs ∧
  gw_tools G' = gw_tools G ++ map (λ th, (td_name th.1, th.1)) regs ∧
  gw_issuer G' = gw_issuer G ∧ gw_ttl G' = gw_ttl G.
Proof.
  unfold register_tools. revert G. induction regs as [|[d h] regs IH]; intros G Hi; cbn [forM_ map].
  - intros H. inv_bind. by rewrite !app_nil_r.
  - intros H. apply M_bind_ok in H as ([] & G1 & H1 & H).
    apply register_tool_ok in H1 as (Hi1 & Hh1 & Ht1 & Hs1 & Hl1); [|done].
    apply IH in H as (Hi2 & Hh & Ht & Hs & Hl); [|done].
    rewrite Hh, Ht, Hs, Hl, Hh1, Ht1, <-!app_assoc. done.
Qed.

Lemma gateway_create_inv key trust ttl extra max_bytes max_ttl G :
  gateway_create key trust ttl extra max_bytes max_ttl = Ok G →
  gateway_inv G ∧ gw_handlers G = [] ∧ gw_tools G = [] ∧ gw_ttl G = ttl ∧
  arb_trust_store (ai_arbiter (gw_issuer G)) = Some trust.
Proof.
  unfold gateway_create. intros H. inv_bind. split; [|done]. split; [done|constructor|done].
Qed.
End GatewayLemmas.

Lemma effective_request_get request approvals request' k : k ≠ "approvals" →
  effective_request request approvals = Ok request' → dict_get k request' = dict_get k request.
Proof.
  unfold effective_request. intros Hk. destruct approvals as [l|]; [|by intros [= ->]].
  intros H. inv_bind. destruct (dict_get "approvals" request); simplify_eq/=;
    unfold dict_get; by rewrite assoc_get_set_ne.
Qed.

Lemma tool_request_action tool_name arguments ctx : NoDup (map fst arguments) →
  dict_get "action" (tool_request tool_name arguments ctx) =
  default (PStr tool_name) (assoc_get "action" arguments).
Proof.
  intros Hn. unfold dict_get, tool_request. rewrite assoc_get_set_ne by done.
  rewrite assoc_get_update by (by apply NoDup_ListNoDup). by destruct (assoc_get "action" arguments).
Qed.

Section GatewayCall.
Context `{C : Crypto} {L : Type} `{LL : ReplayStoreLaws L}.
Implicit Types (s : service_state L) (G : GASMCPGateway).

(** What an authorization followed by the execution of its artifact does. *)
Record governed I (now_issue now_execute : Z) (nonce : string) (request : pydict) (policy : Policy)
    (ttl : Z) (approvals : option (list approval_arg)) (handler : pydict → res pyval)
    (s s' : service_state L) (a : gaa) : Prop := {
  governed_invoked : ss_invoked s' = ss_invoked s ++ [a];
  governed_request : effective_request request approvals = Ok (gaa_action_request a);
  governed_policy : ∃ action ctx bytes,
    satisfies_with (quorum_met (ai_arbiter I) (gaa_action_request a)) (gaa_action_request a) policy action ctx bytes;
  governed_nonce : gaa_nonce a = nonce;
  governed_expiry : gaa_expires_at a = now_issue + ttl;
  governed_time : now_execute < gaa_expires_at a
}.

Lemma authorize_execute_cases {A} I B now_issue now_execute nonce request policy ttl approvals handler
    (f : gaa → pyval → A) s :
  store_inv (ss_log s) →
  let r := (artifact ← as_issuer (authorize I now_issue nonce request policy ttl approvals []);
            result ← as_engine (execute B now_execute handler artifact);
            mret (f artifact result)) s in
  (ss_invoked r.2 = ss_invoked s ∧ ∃ e, r.1 = Raise e) ∨
  ∃ a, governed I now_issue now_execute nonce request policy ttl approvals handler s r.2 a ∧
       ∀ x, r.1 = Ok x → ∃ v, handler (gaa_action_request a) = Ok v ∧ x = f a v.
Proof.
  intros Hi r. subst r. unfold mbind, M_bind. match goal with |- context [as_issuer ?m s] =>
    pose proof (as_issuer_extends m s (appends_authorize _ _ _ _ _ _ _ _)) as [[Hf Hu Hin] Hinv];
    destruct (as_issuer m s) as [[a|e] s1] eqn:Hiss end; cbn [snd fst] in *;
    [|left; split; [done|by eexists]].
  unfold as_issuer, zoom in Hiss. destruct (authorize _ _ _ _ _ _ _ _ _) as [ra is1] eqn:Hauth.
  injection Hiss as -> <-. cbn [ss_log ss_mesh_log ss_invoked] in *.
  apply authorize_ok in Hauth as (req & Heff & decided & decision & mesh & payload & evidence &
    frame & s2 & [_ _ Hdec Hst Hal _ _ _ Ha]).
  pose proof (gaa_issue_ok_fields _ _ _ _ _ _ _ Ha) as (Hr & _ & Hx & Hn & _).
  destruct (mesh_stage_allows _ _ _ _ _ _ _ _ Hst Hal) as [(_ & _ & -> & _)|(Hne & _)]; [|done].
  apply decide_allow_satisfies in Hdec as (action & ctx & bytes & _ & Hsat); [|done].
  unfold as_engine, zoom. cbn [ss_log ss_mesh_log ss_invoked].
  match goal with |- context [execute ?B ?n ?h a ?st] =>
    destruct (execute_cases B n h a st (Hin Hi)) as [(e & _ & Hex)|(Hv & Hiv & _)];
    [rewrite Hex; left; split; [done|by eexists]|];
    pose proof (execute_value B n h a st) as Hval;
    destruct (execute B n h a st) as [re es] eqn:Hex end.
  right. exists a. apply validate_ok in Hv as (key & fr & Hv).
  pose proof (validated_time _ _ _ _ _ _ Hv) as Ht.
  cbn [snd es_invoked] in Hiv. split.
  - split; rewrite ?Hr; eauto. by destruct re.
  - intros x. destruct re as [v|e]; [|done]. intros [= <-]. exists v. split; [|done].
    by eapply Hval.
Qed.

(** A call runs nothing, or runs the handler of its tool for an artifact that
    was issued for the call's request against the gateway's policy. *)
Lemma gateway_call_cases G now_issue now_execute nonce tool_name arguments context approvals s :
  store_inv (ss_log s) →
  let r := gateway_call G now_issue now_execute nonce tool_name arguments context approvals s in
  (ss_invoked r.2 = ss_invoked s ∧ ∃ e, r.1 = Raise e) ∨
  ∃ handler policy a,
    assoc_get tool_name (gw_handlers G) = Some handler ∧
    registry_get (gw_registry G) GATEWAY_POLICY_ID = Some policy ∧
    governed (gw_issuer G) now_issue now_execute nonce
      (tool_request tool_name arguments (context_arg_dict context)) policy
      (Z.min (gw_ttl G) (max_ttl_seconds policy)) approvals handler s r.2 a ∧
    (∀ v, r.1 = Ok v → handler (gaa_action_request a) = Ok (tr_content v) ∧ tr_gaa v = a).
Proof.
  intros Hi r. subst r. unfold gateway_call.
  destruct (assoc_get tool_name (gw_handlers G)) as [handler|] eqn:Hh; [|left; split; [done|by eexists]].
  destruct (registry_get _ _) as [policy|] eqn:Hp; [|left; split; [done|by eexists]].
  destruct (authorize_execute_cases (gw_issuer G) (gw_boundary G) now_issue now_execute nonce
    (tool_request tool_name arguments (context_arg_dict context)) policy
    (Z.min (gw_ttl G) (max_ttl_seconds policy)) approvals handler
    (λ a v, {| tr_content := v; tr_gaa := a; tr_tool_name := tool_name; tr_is_error := false |}) s Hi)
    as [?|(a & Hg & Hv)]; [by left|right].
  exists handler, policy, a. split_and!; try done. intros v (w & Hw & ->)%Hv. done.
Qed.
End GatewayCall.

(** The called handler is that of a registered tool, and so is every name the
    policy knows. *)
Lemma tool_registered `{C : Crypto} tools (G : GASMCPGateway) handler name :
  gateway_inv G → gw_handlers G = map (λ th, (td_name th.1, th.2)) tools →
  gw_tools G = map (λ th, (td_name th.1, th.1)) tools →
  assoc_get name (gw_handlers G) = Some handler →
  ∃ called, (called, handler) ∈ tools ∧ td_name called = name ∧ assoc_get name (gw_tools G) = Some called.
Proof.
  intros [_ Hnd _] Hh Ht Hhandler. rewrite Hh in Hhandler. apply assoc_get_In, list_elem_of_In in Hhandler.
  apply list_elem_of_fmap in Hhandler as ([d h] & [= -> ->] & Hin). exists d. split_and!; [done..|].
  apply assoc_In_get; [by apply NoDup_ListNoDup|]. apply list_elem_of_In. rewrite Ht.
  apply list_elem_of_fmap. by exists (d, h).
Qed.

Lemma tool_judged `{C : Crypto} (tools : list (MCPToolDefinition * (pydict → res pyval)))
    (G : GASMCPGateway) action :
  gateway_inv G → gw_tools G = map (λ th, (td_name th.1, th.1)) tools →
  action ∈ map fst (gw_tools G) →
  ∃ judged, judged ∈ map fst tools ∧ td_name judged = action ∧ assoc_get action (gw_tools G) = Some judged.
Proof.
  intros [_ Hnd _] Ht Hin. apply list_elem_of_fmap in Hin as ([k d] & -> & Hin). cbn.
  pose proof Hin as Hin'. rewrite Ht in Hin'. apply list_elem_of_fmap in Hin' as ([d' h] & [= -> ->] & Hi).
  exists d'. split_and!; [apply list_elem_of_fmap; by exists (d', h)|done|].
  apply assoc_In_get; [by apply NoDup_ListNoDup|by apply list_elem_of_In].
Qed.

(** * Properties *)

(** C10. In a gateway made by [create] and successful registrations, a call runs
    the handler registered under its name, once, or nothing.  When it runs, the
    artifact was judged by the definition of a registered tool, the one its
    request's action names: it holds all the fields that definition requires and,
    when the definition asks for approvals and the request states no count of
    its own, as many distinct live keys signed an approval of it.  The judged
    tool is the called one unless the arguments name an action.  The artifact
    lives no longer than the gateway's time to live, and the answer is what the
    handler returned. *)
Theorem mcp_tools_governed `{C : Crypto} {L} `{LL : ReplayStoreLaws L}
    (key : KeyPair) (trust : TrustStore) (ttl : Z) (extra : list string) (max_bytes max_ttl : Z)
    (tools : list (MCPToolDefinition * (pydict → res pyval))) (G0 G : GASMCPGateway)
    (now_issue now_execute : Z) (nonce tool_name : string) (arguments : pydict)
    (context : context_arg) (approvals : option (list approval_arg)) (s : service_state L) :
  gateway_create key trust ttl extra max_bytes max_ttl = Ok G0 →
  register_tools tools G0 = (Ok tt, G) →
  store_inv (ss_log s) → NoDup (map fst arguments) →
  let r := gateway_call G now_issue now_execute nonce tool_name arguments context approvals s in
  (ss_invoked r.2 = ss_invoked s ∧ ∃ e, r.1 = Raise e) ∨
  ∃ called handler judged a,
    (called, handler) ∈ tools ∧ td_name called = tool_name ∧
    ss_invoked r.2 = ss_invoked s ++ [a] ∧
    judged ∈ map fst tools ∧ dict_get "action" (gaa_action_request a) = PStr (td_name judged) ∧
    (assoc_get "action" arguments = None → judged = called) ∧
    (∀ f, f ∈ td_required_fields judged → assoc_has f (gaa_action_request a) = true) ∧
    (0 < td_required_approvals judged → no_stated_count (gaa_action_request a) →
       ∃ ctx, request_context (gaa_action_request a) = Some ctx ∧
         signed_quorum (ai_arbiter (gw_issuer G)) (gaa_action_request a) ctx
           (td_required_approvals judged)) ∧
    gaa_nonce a = nonce ∧ now_execute < gaa_expires_at a ≤ now_issue + ttl ∧
    (∀ v, r.1 = Ok v → handler (gaa_action_request a) = Ok (tr_content v) ∧ tr_gaa v = a).
Proof.
  intros (Hi0 & Hh0 & Ht0 & Hl0 & _)%gateway_create_inv (Hi & Hh & Ht & _ & Hl)%register_tools_ok
    Hlog Hn r; [|done].
  destruct (gateway_call_cases G now_issue now_execute nonce tool_name arguments context approvals s Hlog)
    as [?|(handler & policy & a & Hhandler & Hp & [Hinv Heff (action & ctx & bytes & Hsat) Hnon Hx Hnow] & Hv)];
    [by left|right].
  destruct Hsat as [_ Hsc Hsa Hsal Hsf _ _ _ _ Hsq]. rewrite Hh0, Ht0 in *. cbn [app] in *.
  destruct (tool_registered tools G handler tool_name Hi Hh Ht Hhandler) as (called & Hin & Hname & Hcalled).
  destruct (gwi_policy _ Hi) as (p & Hp' & Hpal & Hpf & Hpa); [by intros Hnil; rewrite Hnil in Hcalled|].
  rewrite Hp in Hp'. injection Hp' as <-.
  destruct (tool_judged tools G action Hi Ht) as (judged & Hj & <- & Hjudged).
  { rewrite Hpal, sort_by_Permutation in Hsal. exact Hsal. }
  exists called, handler, judged, a. split_and!; try done.
  - intros Hact. rewrite (effective_request_get _ _ _ "action" ltac:(done) Heff), tool_request_action in Hsa by done.
    rewrite Hact in Hsa. injection Hsa as Hsa. rewrite Hsa in Hcalled. congruence.
  - intros f Hf. apply Hsf. rewrite Hpf, tools_fields_get, Hjudged by apply Hi. done.
  - intros Hq Hno. exists ctx. split; [done|].
    assert (quorum_met (ai_arbiter (gw_issuer G)) (gaa_action_request a) ctx (td_required_approvals judged)) as Hm.
    { apply Hsq; [|done]. rewrite Hpa, tools_approvals_get, Hjudged by apply Hi. cbn. by apply Z.ltb_lt in Hq as ->. }
    destruct Hno as [Hr Hc]. unfold quorum_met, stated_in in Hm. by rewrite Hr, (Hc _ Hsc) in Hm.
  - rewrite Hx, Hl, Hl0. lia.
Qed.

(** ** Witness *)

Definition example_tools : list (MCPToolDefinition * (pydict → res pyval)) :=
  [({| td_name := "transfer"; td_description := "moves money"; td_input_schema := [];
       td_required_fields := ["amount"]; td_required_approvals := 1 |}, λ _, Ok (PStr "moved"));
   ({| td_name := "read"; td_description := "reads the balance"; td_input_schema := [];
       td_required_fields := []; td_required_approvals := 0 |}, λ _, Ok (PInt 7))].

Definition gateway_trust : @TrustStore toy_crypto :=
  {| ts_path := false; ts_keys := [("gw", "gwkey" : @PublicKey toy_crypto); ("ops", "opskey")];
     ts_revoked := ∅; ts_file := None |}.

Definition gateway_key : @KeyPair toy_crypto :=
  {| kp_private_key := "gwkey" : @PrivateKey toy_crypto; kp_key_id := "gw" |}.

Definition no_gateway : @GASMCPGateway toy_crypto :=
  gateway_init example_issuer example_boundary registry_empty 0.

Definition example_gateway0 : @GASMCPGateway toy_crypto :=
  match gateway_create gateway_key gateway_trust 60 [] 65536 300 with Ok G => G | _ => no_gateway end.
Definition example_gateway : @GASMCPGateway toy_crypto :=
  (register_tools example_tools example_gateway0).2.

Definition transfer_approvals : option (list approval_arg) :=
  match approval_from_request (tool_request "transfer" [("amount", PInt 5)] []) []
          (LocalEd25519Signer "ops" "opskey") None None with
  | Ok a => Some [ApprovalObject a]
  | Raise _ => None
  end.

Definition gateway_state : service_state ReplayLog :=
  {| ss_log := replay_new false; ss_mesh_log := None; ss_invoked := [] |}.

Abbreviation example_transfer arguments approvals :=
  (gateway_call (L := ReplayLog) example_gateway 1000 1001 "n1" "transfer" arguments ContextOther
     approvals gateway_state).

Lemma mcp_tools_governed_witness :
  ∃ a ctx, ss_invoked (example_transfer [("amount", PInt 5)] transfer_approvals).2 = [a] ∧
    request_context (gaa_action_request a) = Some ctx ∧
    signed_quorum (ai_arbiter (gw_issuer example_gateway)) (gaa_action_request a) ctx 1.
Proof.
  assert (gateway_create gateway_key gateway_trust 60 [] 65536 300 = Ok example_gateway0) as H0
    by (vm_compute; reflexivity).
  assert (register_tools example_tools example_gateway0 = (Ok tt, example_gateway)) as H1
    by (vm_compute; reflexivity).
  assert (store_inv (replay_new false)) as Hi by exact Logic.I.
  assert (∃ a0, ss_invoked (example_transfer [("amount", PInt 5)] transfer_approvals).2 = [a0] ∧
            stated_count (gaa_action_request a0) = None ∧ request_context (gaa_action_request a0) = Some [])
    as (a0 & Hrun & Hs & Hc).
  { exists (match (example_transfer [("amount", PInt 5)] transfer_approvals).1 with
            | Ok v => tr_gaa v | Raise _ => example_gaa end).
    repeat split; vm_compute; reflexivity. }
  destruct (mcp_tools_governed (L := ReplayLog) gateway_key gateway_trust 60 [] 65536 300 example_tools
    example_gateway0 example_gateway 1000 1001 "n1" "transfer" [("amount", PInt 5)] ContextOther
    transfer_approvals gateway_state H0 H1 Hi (proj1 (str_nodup_spec ["amount"]) eq_refl))
    as [[Hno _]|(d & h & j & a & Hin & Hname & Hinv & _ & _ & Hj & _ & Hq & _)].
  { rewrite Hrun in Hno. discriminate Hno. }
  rewrite (Hj eq_refl) in Hq.
  assert (td_required_approvals d = 1) as Hd.
  { apply elem_of_cons in Hin as [Hin|Hin%list_elem_of_singleton].
    - injection Hin as -> _. reflexivity.
    - injection Hin as -> _. discriminate Hname. }
  rewrite Hd in Hq. rewrite Hrun in Hinv. cbn [app] in Hinv.
  injection Hinv as <-.
  destruct (Hq ltac:(lia)) as (ctx & Hctx & Hsq).
  { split; [exact Hs|]. intros c Hc'. rewrite Hc in Hc'. injection Hc' as <-. reflexivity. }
  exists a0, ctx. exact (conj Hrun (conj Hctx Hsq)).
Defined.

(** ** What the code gets wrong *)

(** Arguments that name another action: the request is judged as a [read],
    which needs no approval, and the handler of [transfer] runs. *)
Lemma mcp_action_override :
  (example_transfer [("amount", PInt 5)] None).1 =
    Raise (PolicyDeniedError match (example_transfer [("amount", PInt 5)] None).1 with
                             | Raise (PolicyDeniedError d) => d | _ => [] end) ∧
  ∃ a, (example_transfer [("action", PStr "read"); ("amount", PInt 5)] None).1 =
    Ok {| tr_content := PStr "moved"; tr_gaa := a; tr_tool_name := "transfer"; tr_is_error := false |}.
Proof. split; [vm_compute; reflexivity|]. eexists. vm_compute. reflexivity. Qed.

(** So does a bare count among the arguments (policy.py takes it as the quorum). *)
Lemma mcp_stated_count :
  ∃ a, (example_transfer [("amount", PInt 5); ("approval_count", PInt 1)] None).1 =
    Ok {| tr_content := PStr "moved"; tr_gaa := a; tr_tool_name := "transfer"; tr_is_error := false |}.
Proof. eexists. vm_compute. reflexivity. Qed.

(** A refused registration stays: the tool is listed, the policy does not know
    it, and every later registration is refused for its definition. *)
Lemma mcp_failed_registration_stays :
  let bad := {| td_name := "bad"; td_description := ""; td_input_schema := [];
                td_required_fields := [""]; td_required_approvals := 0 |} in
  let good := {| td_name := "good"; td_description := ""; td_input_schema := [];
                 td_required_fields := []; td_required_approvals := 0 |} in
  let after := (register_tool bad (λ _, Ok PNone) example_gateway).2 in
  (register_tool bad (λ _, Ok PNone) example_gateway).1 =
    Raise (ValueError "required_fields must contain non-empty strings") ∧
  map td_name (list_tools after) = ["bad"; "read"; "transfer"] ∧
  (register_tool good (λ _, Ok PNone) after).1 =
    Raise (ValueError "required_fields must contain non-empty strings").
Proof. vm_compute. done. Qed.
