(* ===== verification/LangChain.v ===== *)
(** langchain_adapter.py: a governed tool for LangChain agents, and the
    callback handler that records the tools' activity in the replay log.

    A wrapped Python callable is a function of the way it is called: with the
    input's entries as keyword arguments, with the whole request, or with
    nothing.  The file shows what a governed run guarantees, what the callbacks
    add to the log, and that a [TypeError] from inside a tool makes the tool
    run again under the same artifact. *)

From S2P Require Import Prelude PyFloat PyVal Json Sha256 Base64 Crypto Trust Models Policy Arbiter PolicyRegistry Replay ReplayStore Mesh Issuer Engine Service McpGateway.

(** How the wrapped function is called. *)
Inductive call_args :=
| CallKwargs (kwargs : pydict)
| CallRequest (request : pydict)
| CallEmpty.

Record GASToolOutput := { to_content : pyval; to_gaa : gaa; to_tool_name : string }.

(** [_normalize_input]; a text that is not a JSON object is the [input]. *)
Definition normalize_input (tool_input : pyval) : res pydict :=
  match tool_input with
  | PDict d => Ok d
  | PStr s =>
      match json_loads s with
      | Ok (PDict d) => Ok d
      | Ok _ => Ok [("input", tool_input)]
      | Raise e => if is_ValueError e then Ok [("input", tool_input)] else Raise e
      end
  | _ => Ok [("input", tool_input)]
  end.

(** The callable handed to the boundary: the calls of the function it makes and
    the outcome. *)
Definition barrier_callable (func : call_args → res pyval) (args_dict req : pydict)
    : list call_args * res pyval :=
  match args_dict with
  | [] => ([CallEmpty], func CallEmpty)
  | _ =>
      match func (CallKwargs args_dict) with
      | Raise e =>
          if is_TypeError e then ([CallKwargs args_dict; CallRequest req], func (CallRequest req))
          else ([CallKwargs args_dict], Raise e)
      | r => ([CallKwargs args_dict], r)
      end
  end.

Section LangChain.
Context `{C : Crypto} {L : Type} `{RS : ReplayStore L}.

Record GASExecutionBarrierTool := {
  bt_func : call_args → res pyval;
  bt_name : string;
  bt_description : string;
  bt_issuer : AuthorizationIssuer;
  bt_boundary : ExecutionBoundary;
  bt_policy : Policy;
  bt_context : pydict;
  bt_ttl_seconds : Z
}.

Definition barrier_request (T : GASExecutionBarrierTool) (args_dict : pydict)
    (context : option pydict) : pydict :=
  tool_request (bt_name T) args_dict (assoc_update (bt_context T) (default [] context)).

Definition barrier_run (T : GASExecutionBarrierTool) (now_issue now_execute : Z) (nonce : string)
    (tool_input : pyval) (context : option pydict) (approvals : option (list approval_arg))
    : M (service_state L) GASToolOutput :=
  args_dict ← lift_res (normalize_input tool_input);
  artifact ← as_issuer (authorize (bt_issuer T) now_issue nonce (barrier_request T args_dict context)
    (bt_policy T) (Z.min (bt_ttl_seconds T) (max_ttl_seconds (bt_policy T))) approvals []);
  raw_result ← as_engine (execute (bt_boundary T) now_execute
    (λ req, (barrier_callable (bt_func T) args_dict req).2) artifact);
  mret {| to_content := raw_result; to_gaa := artifact; to_tool_name := bt_name T |}.

Definition barrier_invoke (T : GASExecutionBarrierTool) (now_issue now_execute : Z) (nonce : string)
    (tool_input : pyval) : M (service_state L) GASToolOutput :=
  barrier_run T now_issue now_execute nonce tool_input None None.

(** [__call__] *)
Definition barrier_call (T : GASExecutionBarrierTool) (now_issue now_execute : Z) (nonce : string)
    (args : list pyval) (kwargs : pydict) : M (service_state L) GASToolOutput :=
  barrier_run T now_issue now_execute nonce
    (match args, kwargs with a :: _, [] => a | _, _ => PDict kwargs end) None None.

(** ** [GASCallbackHandler] *)

Record callback_state := {
  cb_log : L;
  cb_active_spans : list (string * pydict)
}.

Definition on_cb_log {A} (m : M L A) : M callback_state A :=
  zoom cb_log (λ l s, {| cb_log := l; cb_active_spans := cb_active_spans s |}) m.

Definition set_spans (f : list (string * pydict) → list (string * pydict)) : M callback_state unit :=
  modify (λ s, {| cb_log := cb_log s; cb_active_spans := f (cb_active_spans s) |}).

(** [str(run_id or other)] *)
Definition span_key (run_id other : pyval) : string := py_str (if truthy run_id then run_id else other).

Definition tool_start_event (tool_name input session_id : pyval) : pydict :=
  [("type", PStr "langchain_tool_start"); ("tool_name", tool_name); ("input", input);
   ("session_id", session_id)].

Definition on_tool_start (session_id : pyval) (serialized : pydict) (input run_id : pyval)
    : M callback_state unit :=
  let tool_name := default (PStr "unknown_tool") (assoc_get "name" serialized) in
  let key := span_key run_id tool_name in
  let event := tool_start_event tool_name input session_id in
  on_cb_log (store_append ("langchain-start-" +:+ py_take 16 key) event) ;;
  set_spans (assoc_set key event).

Definition tool_end_event (key : string) (output session_id : pyval) : pydict :=
  [("type", PStr "langchain_tool_end"); ("run_id", PStr key);
   ("output", PStr (py_take 500 (py_str output))); ("session_id", session_id)].

Definition on_tool_end (session_id output run_id : pyval) : M callback_state unit :=
  let key := span_key run_id (PStr "default") in
  on_cb_log (store_append ("langchain-end-" +:+ py_take 16 key) (tool_end_event key output session_id)) ;;
  set_spans (assoc_remove key).

Definition tool_error_event (key : string) (error : exn) (session_id : pyval) : pydict :=
  [("type", PStr "langchain_tool_error"); ("run_id", PStr key); ("error", PStr (exn_str error));
   ("error_type", PStr (exn_name error)); ("session_id", session_id)].

Definition on_tool_error (session_id : pyval) (error : exn) (run_id : pyval) : M callback_state unit :=
  let key := span_key run_id (PStr "default") in
  on_cb_log (store_append ("langchain-err-" +:+ py_take 16 key) (tool_error_event key error session_id)) ;;
  set_spans (assoc_remove key).
End LangChain.
#[global] Arguments callback_state : clear implicits.

(** * Lemmas *)

Section BarrierLemmas.
Context `{C : Crypto} {L : Type} `{LL : ReplayStoreLaws L}.
Implicit Types (s : service_state L) (T : GASExecutionBarrierTool).

(** A run executes nothing, or one artifact issued for the run's request
    against the tool's policy, and answers what the callable returned. *)
Lemma barrier_run_governed T now_issue now_execute nonce tool_input context approvals s :
  store_inv (ss_log s) →
  let r := barrier_run T now_issue now_execute nonce tool_input context approvals s in
  (ss_invoked r.2 = ss_invoked s ∧ ∃ e, r.1 = Raise e) ∨
  ∃ args a, normalize_input tool_input = Ok args ∧
    governed (bt_issuer T) now_issue now_execute nonce (barrier_request T args context) (bt_policy T)
      (Z.min (bt_ttl_seconds T) (max_ttl_seconds (bt_policy T))) approvals
      (λ req, (barrier_callable (bt_func T) args req).2) s r.2 a ∧
    (∀ v, r.1 = Ok v → (barrier_callable (bt_func T) args (gaa_action_request a)).2 = Ok (to_content v) ∧
                       to_gaa v = a).
Proof.
  intros Hi r. subst r. unfold barrier_run, mbind at 1, M_bind at 1, lift_res.
  destruct (normalize_input tool_input) as [args|e]; [|left; split; [done|by eexists]].
  destruct (authorize_execute_cases (bt_issuer T) (bt_boundary T) now_issue now_execute nonce
    (barrier_request T args context) (bt_policy T)
    (Z.min (bt_ttl_seconds T) (max_ttl_seconds (bt_policy T))) approvals
    (λ req, (barrier_callable (bt_func T) args req).2)
    (λ a v, {| to_content := v; to_gaa := a; to_tool_name := bt_name T |}) s Hi)
    as [?|(a & Hg & Hv)]; [by left|right].
  exists args, a. split_and!; try done. intros v (w & Hw & ->)%Hv. done.
Qed.
End BarrierLemmas.

(** The function is called once unless its first call raises [TypeError]. *)
Lemma barrier_callable_once func args req :
  length (barrier_callable func args req).1 =
  if match args with [] => false
     | _ => match func (CallKwargs args) with Raise e => is_TypeError e | Ok _ => false end end
  then 2%nat else 1%nat.
Proof.
  unfold barrier_callable. destruct args; [done|].
  destruct (func _) as [v|e]; [done|]. by destruct (is_TypeError e).
Qed.

(** A tool that accepts the keyword arguments, does its work and then meets a
    [TypeError] of its own is called a second time. *)
Lemma barrier_reruns_on_type_error :
  let func c := match c with
                | CallKwargs _ => Raise (TypeError "unsupported operand type(s)")
                | CallRequest _ => Ok (PStr "done")
                | CallEmpty => Ok PNone
                end in
  barrier_callable func [("amount", PInt 5)] [("action", PStr "pay")] =
  ([CallKwargs [("amount", PInt 5)]; CallRequest [("action", PStr "pay")]], Ok (PStr "done")).
Proof. done. Qed.

Section CallbackLemmas.
Context {L : Type} `{LL : ReplayStoreLaws L}.
Implicit Types s : callback_state L.

(** A callback that returns appended one frame with its event; one that raises
    changed nothing. *)
Lemma callback_append fid ev f s s' r :
  (on_cb_log (store_append fid ev) ;; set_spans f) s = (r, s') →
  match r with
  | Ok _ => (∃ frame, store_frames (cb_log s') = store_frames (cb_log s) ++ [frame] ∧
              rf_frame_id frame = fid ∧ rf_event frame = ev) ∧
            cb_active_spans s' = f (cb_active_spans s)
  | Raise _ => s' = s
  end.
Proof.
  unfold mbind, M_bind, on_cb_log, zoom, set_spans, modify.
  destruct (store_append fid ev (cb_log s)) as [[frame|e] l'] eqn:Ha; intros [= <- <-].
  - apply append_ok in Ha as (Hf & Hfs & _). apply frame_create_ok in Hf as (Hid & _ & Hev & _).
    split; [by exists frame|done].
  - apply append_raise in Ha as ->. by destruct s.
Qed.

(** The span opened by a start is closed by the end of the same run. *)
Lemma callback_span_closed session serialized input output run_id s s1 s2 :
  truthy run_id = true →
  on_tool_start session serialized input run_id s = (Ok tt, s1) →
  on_tool_end session output run_id s1 = (Ok tt, s2) →
  assoc_get (py_str run_id) (cb_active_spans s1) ≠ None ∧
  assoc_get (py_str run_id) (cb_active_spans s2) = None.
Proof.
  unfold on_tool_start, on_tool_end, span_key. intros -> H1 H2.
  apply callback_append in H1 as [_ H1]. apply callback_append in H2 as [_ H2].
  rewrite H1, H2, assoc_get_set_eq, assoc_get_remove_eq. done.
Qed.

(** Without a run identifier the two use different keys: the span stays. *)
Lemma callback_span_leaks :
  let s0 : callback_state ReplayLog := {| cb_log := replay_new false; cb_active_spans := [] |} in
  let s1 := (on_tool_start PNone [("name", PStr "pay")] (PStr "5") PNone s0).2 in
  let s2 := (on_tool_end PNone (PStr "ok") PNone s1).2 in
  map fst (cb_active_spans s2) = ["pay"].
Proof. vm_compute. done. Qed.
End CallbackLemmas.
