(* ===== verification/Worker.v ===== *)
(** worker.py and worker_main.py: jobs of the queue that run as containers.
    Each job is authorized first; the job specification the authorizer returns,
    not the queued payload, says what runs.  Secrets come from a provider and
    are passed by name on the command line and by value in the environment.

    The process runner, the HTTP client of the Vault provider and the decoding
    of a container's bytes are parameters.  The world of the handler is the
    authorizer's own state, the containers started so far (command line and
    environment), the last output, the flag for a denied job and the counters.
    The file shows what a started container guarantees, that with the facade as
    authorizer every container goes back to an artifact of its own, and that a
    retry of a job whose artifact was consumed is always refused. *)

From S2P Require Import Prelude PyFloat PyVal Json Sha256 Base64 Crypto Trust Models Policy Arbiter PolicyRegistry Replay ReplayStore Mesh Issuer Engine Orders SemVer Jobs Service.

(** ** Text *)

(** [s.replace(old, new)] for a non-empty [old]; [skip] bytes are part of a match. *)
Fixpoint replace_from (old new : string) (skip : nat) (s : string) : string :=
  match s with
  | EmptyString => ""
  | String c r =>
      match skip with
      | S k => replace_from old new k r
      | O => if String.prefix old s then new +:+ replace_from old new (String.length old - 1) r
             else String c (replace_from old new 0 r)
      end
  end.
Definition str_replace (old new s : string) : string := replace_from old new 0 s.

(** [_ENV_NAME.match(name)] *)
Definition env_name_match (name : string) : bool :=
  let start c := ascii_upper c || ascii_lower c || Ascii.eqb c "_" in
  match strip_newline name with
  | EmptyString => false
  | String c r => start c && all_chars (λ c, start c || ascii_digit c) r
  end.

(** [_SAFE_ID.match(s)] *)
Definition safe_id_match (s : string) : bool :=
  let t := strip_newline s in
  negb (String.eqb t "") &&
  all_chars (λ c, ascii_upper c || ascii_lower c || ascii_digit c || Ascii.eqb c "_" ||
                  Ascii.eqb c "." || Ascii.eqb c "-") t.

Definition hex_upper (n : N) : ascii :=
  if (n <? 10)%N then ascii_of_N (48 + n) else ascii_of_N (55 + n).

(** [urllib.parse.quote(s)] *)
Definition url_quote (s : string) : string :=
  concat_map (λ c,
    if ascii_upper c || ascii_lower c || ascii_digit c || Ascii.eqb c "_" || Ascii.eqb c "." ||
       Ascii.eqb c "-" || Ascii.eqb c "~" || Ascii.eqb c "/"
    then String c ""
    else String "%" (String (hex_upper (N_of_ascii c / 16)) (String (hex_upper (N_of_ascii c mod 16)) ""))) s.

(** [s.rstrip("/")] *)
Fixpoint rstrip_slash (s : string) : string :=
  match s with
  | EmptyString => ""
  | String c r =>
      let r' := rstrip_slash r in
      if Ascii.eqb c "/" && String.eqb r' "" then "" else String c r'
  end.

(** ** Secrets *)

(** [SecretProvider]: the policy and the required keys, as the payload has them. *)
Abbreviation SecretProvider := (string → pyval → res (list (string * string))).

Record VaultSecretProvider := {
  vs_addr : string;
  vs_token : string;
  vs_mount : string
}.

Definition vault_init (addr token mount : string) (allow_insecure : bool) : res VaultSecretProvider :=
  fail_if (String.eqb token "") (ValueError "vault token is required") ;;
  fail_if (negb (String.prefix "https://" addr) && negb allow_insecure)
    (ValueError "Vault address must use HTTPS (or set allow_insecure for in-cluster)") ;;
  Ok {| vs_addr := rstrip_slash addr; vs_token := token; vs_mount := mount |}.

Definition vault_url (v : VaultSecretProvider) (policy_id : string) : string :=
  vs_addr v +:+ "/v1/" +:+ url_quote (vs_mount v) +:+ "/data/policies/" +:+ policy_id.

(** The two [get]s on the document. *)
Definition vault_data (document : pyval) : res pyval :=
  match document with
  | PDict d =>
      match default (PDict []) (assoc_get "data" d) with
      | PDict e => Ok (default (PDict []) (assoc_get "data" e))
      | _ => Raise (AttributeError "get")
      end
  | _ => Ok (PDict [])
  end.

(** The required keys that are missing, in order. *)
Fixpoint missing_keys (keys : list pyval) (data : pydict) : res (list pyval) :=
  match keys with
  | [] => Ok []
  | k :: keys =>
      fail_if (negb (hashable k)) (TypeError "unhashable type") ;;
      rest ← missing_keys keys data;
      Ok (match k with PStr s => if assoc_has s data then rest else k :: rest | _ => k :: rest end)
  end.

(** [http_get url token] is the body of the response; it raises what [urlopen] raises. *)
Definition vault_fetch (http_get : string → string → res string) (v : VaultSecretProvider)
    (policy_id : string) (required_keys : pyval) : res (list (string * string)) :=
  fail_if (negb (safe_id_match policy_id)) (ValueError "invalid policy_id") ;;
  document ← res_except (body ← http_get (vault_url v policy_id) (vs_token v); json_loads body)
    (λ e, if is_OSError e || is_ValueError e then Some (RuntimeError "secret retrieval failed") else None);
  data ← vault_data document;
  match data with
  | PDict data =>
      keys ← py_tuple required_keys;
      missing ← missing_keys keys data;
      match missing with
      | [] => Ok (fold_left (λ acc k, assoc_set (py_str k) (py_str (dict_get (py_str k) data)) acc) keys [])
      | _ =>
          if forallb is_str missing
          then Raise (RuntimeError ("required secrets not found: " +:+ join ", " (map py_str missing)))
          else Raise (TypeError "sequence item: expected str instance")
      end
  | _ => unmodelled "the secret document holds no object"
  end.

(** worker_main's provider when none is configured. *)
Definition no_secrets : SecretProvider :=
  λ _ _, Raise (RuntimeError "no secret provider configured (set VAULT_ADDR and VAULT_TOKEN)").

(** ** The sandbox *)

Record SandboxResult := { sr_exit_code : Z; sr_output : string }.
Definition sandbox_ok (r : SandboxResult) : bool := sr_exit_code r =? 0.

(** [CompletedProcess], [None] streams as empty ones. *)
Record Completed := { cp_returncode : Z; cp_stdout : string; cp_stderr : string }.

Definition TimeoutExpired : exn := OtherError "TimeoutExpired" "".

Record ContainerSandbox := {
  cs_allowed_images : list string;
  cs_runtime : string;
  cs_memory : string;
  cs_cpus : string;
  cs_pids_limit : Z;
  cs_runner : list string → list (string * string) → spec_float → res Completed;
  cs_decode : string → string   (** [bytes.decode("utf-8", "replace")] *)
}.

Definition sandbox_init (allowed_images : list string) (runtime memory cpus : string) (pids_limit : Z)
    (runner : list string → list (string * string) → spec_float → res Completed)
    (decode : string → string) : res ContainerSandbox :=
  fail_if (match allowed_images with [] => true | _ => false end)
    (ValueError "at least one allowed image is required") ;;
  Ok {| cs_allowed_images := allowed_images; cs_runtime := runtime; cs_memory := memory;
        cs_cpus := cpus; cs_pids_limit := pids_limit; cs_runner := runner; cs_decode := decode |}.

(** The options every container gets. *)
Definition sandbox_options (cs : ContainerSandbox) : list string :=
  [cs_runtime cs; "run"; "--rm"; "--network=none"; "--read-only"; "--cap-drop=ALL";
   "--security-opt=no-new-privileges:true"; "--memory=" +:+ cs_memory cs;
   "--cpus=" +:+ cs_cpus cs; "--pids-limit=" +:+ string_of_Z (cs_pids_limit cs);
   "--user=10001:10001"; "--tmpfs=/tmp:rw,noexec,nosuid,size=16m"].

Definition build_command (cs : ContainerSandbox) (image : string) (command : list pyval)
    (secret_names : list string) : res (list string) :=
  fail_if (negb (str_in image (cs_allowed_images cs))) (ValueError "image is not allow-listed") ;;
  fail_if (match command with [] => true | _ => false end || negb (forallb is_str command))
    (ValueError "command must be a non-empty list of strings") ;;
  for_res secret_names (λ name, fail_if (negb (env_name_match name)) (ValueError "invalid secret name")) ;;
  Ok (sandbox_options cs ++ flat_map (λ name, ["-e"; name]) secret_names ++ [image] ++ map py_str command).

Definition sandbox_env (secrets : list (string * string)) : list (string * string) :=
  assoc_update [("PATH", "/usr/local/bin:/usr/bin:/bin")] secrets.

(** Each secret value, in order, is blanked out. *)
Definition redact (secrets : list (string * string)) (text : string) : string :=
  fold_left (λ t kv, if String.eqb kv.2 "" then t else str_replace kv.2 "[REDACTED]" t) secrets text.

Definition sandbox_execute (cs : ContainerSandbox) (image : string) (command : list pyval)
    (secrets : list (string * string)) (timeout_seconds : spec_float)
    : M (list (list string * list (string * string))) SandboxResult :=
  argv ← lift_res (build_command cs image command (map fst secrets));
  let env := sandbox_env secrets in
  modify (λ runs, runs ++ [(argv, env)]) ;;
  completed ← lift_res (res_except (cs_runner cs argv env timeout_seconds)
    (λ e, match e with
          | OtherError cls _ => if String.eqb cls "TimeoutExpired"
                                then Some (TimeoutError "sandbox execution timed out") else None
          | _ => None
          end));
  let text := cs_decode cs (cp_stdout completed +:+ cp_stderr completed) in
  mret {| sr_exit_code := cp_returncode completed; sr_output := py_take 4096 (redact secrets text) |}.

(** ** Counters *)

Record WorkerMetrics := { wm_counts : list (string * Z); wm_denied : Z }.

Definition metrics_init : WorkerMetrics :=
  {| wm_counts := [("processed", 0); ("succeeded", 0); ("retried", 0); ("dead_lettered", 0)];
     wm_denied := 0 |}.

Definition outcome_counter (status : string) : string :=
  default "retried" (assoc_get status
    [("succeeded", "succeeded"); ("dead_letter", "dead_lettered"); ("queued", "retried")]).

Definition bump (k : string) (counts : list (string * Z)) : list (string * Z) :=
  assoc_set k (default 0 (assoc_get k counts) + 1) counts.

Definition metrics_record (status : string) (denied : bool) (m : WorkerMetrics) : WorkerMetrics :=
  {| wm_counts := bump (outcome_counter status) (bump "processed" (wm_counts m));
     wm_denied := wm_denied m + (if denied then 1 else 0) |}.

Definition worker_prometheus (m : WorkerMetrics) : string :=
  join (chr 10) (map (λ kv, "governed_autonomy_worker_jobs_" +:+ kv.1 +:+ "_total " +:+ string_of_Z kv.2)
                   (wm_counts m) ++
                 ["governed_autonomy_worker_jobs_denied_total " +:+ string_of_Z (wm_denied m)]) +:+ chr 10.

(** [start_metrics_server]'s answer to a GET: the body, or a 404. *)
Definition metrics_get (path : string) (m : WorkerMetrics) : option string :=
  if String.eqb path "/metrics" then Some (worker_prometheus m) else None.

(** ** The runtime *)

(** What the handler of a job acts on; [ww_auth] is the authorizer's state. *)
Record worker_world (A : Type) := {
  ww_auth : A;
  ww_runs : list (list string * list (string * string));
  ww_last_output : string;
  ww_denied : bool;
  ww_metrics : WorkerMetrics
}.
#[global] Arguments ww_auth {A} _.
#[global] Arguments ww_runs {A} _.
#[global] Arguments ww_last_output {A} _.
#[global] Arguments ww_denied {A} _.
#[global] Arguments ww_metrics {A} _.

Section Runtime.
Context {A : Type}.

Record WorkerRuntime := {
  wr_authorizer : pyval → M A pyval;
  wr_secrets : SecretProvider;
  wr_sandbox : ContainerSandbox;
  wr_timeout_seconds : spec_float;
  wr_retry_delay : spec_float
}.

Definition on_auth {X} (m : M A X) : M (worker_world A) X :=
  zoom ww_auth (λ a w, {| ww_auth := a; ww_runs := ww_runs w; ww_last_output := ww_last_output w;
                          ww_denied := ww_denied w; ww_metrics := ww_metrics w |}) m.

Definition on_runs {X} (m : M (list (list string * list (string * string))) X) : M (worker_world A) X :=
  zoom ww_runs (λ r w, {| ww_auth := ww_auth w; ww_runs := r; ww_last_output := ww_last_output w;
                          ww_denied := ww_denied w; ww_metrics := ww_metrics w |}) m.

Definition set_denied (b : bool) : M (worker_world A) unit :=
  modify (λ w, {| ww_auth := ww_auth w; ww_runs := ww_runs w; ww_last_output := ww_last_output w;
                  ww_denied := b; ww_metrics := ww_metrics w |}).

Definition set_output (s : string) : M (worker_world A) unit :=
  modify (λ w, {| ww_auth := ww_auth w; ww_runs := ww_runs w; ww_last_output := s;
                  ww_denied := ww_denied w; ww_metrics := ww_metrics w |}).

Definition record_job (status : string) : M (worker_world A) unit :=
  modify (λ w, {| ww_auth := ww_auth w; ww_runs := ww_runs w; ww_last_output := ww_last_output w;
                  ww_denied := ww_denied w;
                  ww_metrics := metrics_record status (ww_denied w) (ww_metrics w) |}).

(** The authorization of a queued payload: the specification, or a denial. *)
Definition authorize_job (R : WorkerRuntime) (payload : pyval) : M (worker_world A) pydict :=
  let denied := RuntimeError "job not authorized" in
  spec ← try_except (on_auth (wr_authorizer R payload)) (λ _, Some (set_denied true ;; raise denied));
  match spec with
  | PDict spec => mret spec
  | _ => set_denied true ;; raise denied
  end.

(** The secrets the specification asks for. *)
Definition job_secrets (R : WorkerRuntime) (spec : pydict) : res (list (string * string)) :=
  let required := default (PList []) (assoc_get "required_secrets" spec) in
  if truthy required then
    match dict_get "policy_id" spec with
    | PStr policy_id => wr_secrets R policy_id required
    | _ => Raise (ValueError "policy_id is required when secrets are requested")
    end
  else Ok [].

Definition worker_handle (R : WorkerRuntime) (payload : pyval) : M (worker_world A) unit :=
  spec ← authorize_job R payload;
  match dict_get "image" spec, dict_get "command" spec with
  | PStr image, PList command =>
      secrets ← lift_res (job_secrets R spec);
      result ← on_runs (sandbox_execute (wr_sandbox R) image command secrets (wr_timeout_seconds R));
      set_output (sr_output result) ;;
      raise_if (negb (sandbox_ok result))
        (RuntimeError ("execution failed with exit code " +:+ string_of_Z (sr_exit_code result)))
  | _, _ => raise (ValueError "job requires image and command")
  end.

Context {S : Type} `{JobStore S}.

Definition process_once (R : WorkerRuntime) (now_claim now_fail : spec_float)
    : M (S * worker_world A) (option Job) :=
  in_world (set_denied false) ;;
  job ← run_once now_claim now_fail (worker_handle R) None (wr_retry_delay R);
  match job with
  | Some j => in_world (record_job (job_status j)) ;; mret (Some j)
  | None => mret None
  end.

(** [serve], until [should_stop]: one runtime and two clock readings for each
    turn of the loop; an idle turn sleeps. *)
Fixpoint worker_serve (turns : list (WorkerRuntime * spec_float * spec_float))
    : M (S * worker_world A) Z :=
  match turns with
  | [] => mret 0
  | (R, now_claim, now_fail) :: turns =>
      job ← process_once R now_claim now_fail;
      n ← worker_serve turns;
      mret (match job with Some _ => 1 + n | None => n end)
  end.
End Runtime.
#[global] Arguments WorkerRuntime : clear implicits.

(** ** worker_main: the facade as authorizer *)

Section Main.
Context `{C : Crypto} {L : Type} `{RS : ReplayStore L}.

Definition make_authorizer (V : GovernedService) (now : Z) (payload : pyval)
    : M (service_state L) pyval :=
  match payload with
  | PDict d =>
      match dict_get "artifact" d with
      | PStr artifact =>
          result ← execute_json V now (PStr artifact);
          match result with
          | PDict spec => mret (PDict spec)
          | _ => raise (ValueError "authorized action did not return a job spec")
          end
      | _ => raise (ValueError "job payload must carry a signed artifact")
      end
  | _ => raise (AttributeError "get")
  end.
End Main.

(** * Lemmas *)

(** What a container was started with, for a job specification. *)
Record started {A} (R : WorkerRuntime A) (spec : pydict)
    (run : list string * list (string * string)) : Prop := {
  started_image : ∃ image command secrets,
    dict_get "image" spec = PStr image ∧ dict_get "command" spec = PList (map PStr command) ∧
    image ∈ cs_allowed_images (wr_sandbox R) ∧ command ≠ [] ∧
    job_secrets R spec = Ok secrets ∧
    run = (sandbox_options (wr_sandbox R) ++ flat_map (λ name, ["-e"; name]) (map fst secrets) ++
             [image] ++ command,
           sandbox_env secrets)
}.

Lemma build_command_ok cs image command names argv :
  build_command cs image command names = Ok argv →
  image ∈ cs_allowed_images cs ∧ ∃ words, command = map PStr words ∧ words ≠ [] ∧
  argv = sandbox_options cs ++ flat_map (λ name, ["-e"; name]) names ++ [image] ++ words.
Proof.
  unfold build_command. intros H. inv_bind. breflect.
  match goal with H : str_in _ _ = true |- _ => apply str_in_spec in H end.
  split; [done|].
  assert (∃ words, command = map PStr words) as [words ->].
  { match goal with H : forallb is_str command = true |- _ => revert H end. clear.
    induction command as [|v l IH]; [by exists []|]. simpl. intros [Hv Hl]%andb_true_iff.
    destruct (IH Hl) as [ws ->]. destruct v; try done. by exists (s :: ws). }
  exists words. rewrite map_py_str. split_and!; [done|by destruct words|done].
Qed.

Lemma sandbox_execute_runs cs image command secrets timeout runs :
  let r := sandbox_execute cs image command secrets timeout runs in
  (r.2 = runs ∧ ∃ e, r.1 = Raise e) ∨
  ∃ argv, build_command cs image command (map fst secrets) = Ok argv ∧
          r.2 = runs ++ [(argv, sandbox_env secrets)].
Proof.
  unfold sandbox_execute, mbind, M_bind, lift_res, modify.
  destruct (build_command _ _ _ _) as [argv|e]; [right|left; by eauto].
  exists argv. split; [done|]. by destruct (res_except _ _).
Qed.

Section Handle.
Context {A : Type}.
Implicit Types (R : WorkerRuntime A) (w : worker_world A).

Lemma authorize_job_spec R payload w :
  let r := authorize_job R payload w in
  ww_runs r.2 = ww_runs w ∧ ww_auth r.2 = (wr_authorizer R payload (ww_auth w)).2 ∧
  match r.1 with
  | Ok spec => (wr_authorizer R payload (ww_auth w)).1 = Ok (PDict spec) ∧ ww_denied r.2 = ww_denied w
  | Raise e => e = RuntimeError "job not authorized" ∧ ww_denied r.2 = true
  end.
Proof.
  unfold authorize_job, mbind, M_bind, try_except, on_auth, zoom, set_denied, modify, raise, mret, M_ret.
  destruct (wr_authorizer R payload (ww_auth w)) as [[v|e] a]; [destruct v|]; done.
Qed.

(** The handler raised before it started a container. *)
Ltac refused := cbn; split; [done|left; split; [done|by eexists]].

(** A handler starts no container, or one that its authorized specification
    asks for. *)
Lemma worker_handle_cases R payload w :
  let r := worker_handle R payload w in
  ww_auth r.2 = (wr_authorizer R payload (ww_auth w)).2 ∧
  ((ww_runs r.2 = ww_runs w ∧ ∃ e, r.1 = Raise e) ∨
   ∃ spec run, (wr_authorizer R payload (ww_auth w)).1 = Ok (PDict spec) ∧ started R spec run ∧
               ww_runs r.2 = ww_runs w ++ [run]).
Proof.
  intros r. subst r. unfold worker_handle. rewrite M_bind_run.
  destruct (authorize_job_spec R payload w) as (Hr & Ha & Hs).
  destruct (authorize_job R payload w) as [[spec|e] w1]; cbn [fst snd] in *; [|refused].
  destruct Hs as [Hs _].
  destruct (dict_get "image" spec) as [| | | |image| | |] eqn:Himg; try refused.
  destruct (dict_get "command" spec) as [| | | | |command| |] eqn:Hcmd; try refused.
  unfold mbind, M_bind, lift_res. destruct (job_secrets R spec) as [secrets|e] eqn:Hsec; [|refused].
  unfold on_runs, zoom.
  destruct (sandbox_execute_runs (wr_sandbox R) image command secrets (wr_timeout_seconds R) (ww_runs w1))
    as [[Hruns [e He]]|(argv & Hb & Hruns)];
    destruct (sandbox_execute _ _ _ _ _ _) as [res runs]; cbn [fst snd] in *; subst.
  { refused. }
  apply build_command_ok in Hb as (Hin & words & -> & Hw & ->).
  eassert (started R spec (_, _)) as Hst.
  { constructor. exists image, words, secrets. split_and!; try done. }
  split; [by destruct res|]. right. exists spec. eexists. split; [done|]. split; [exact Hst|].
  destruct res as [result|e]; cbn; by rewrite Hr.
Qed.

Lemma worker_handle_denied R payload w :
  (¬ ∃ spec, (wr_authorizer R payload (ww_auth w)).1 = Ok (PDict spec)) →
  let r := worker_handle R payload w in
  r.1 = Raise (RuntimeError "job not authorized") ∧ ww_denied r.2 = true ∧ ww_runs r.2 = ww_runs w.
Proof.
  intros Hn r. subst r. unfold worker_handle. rewrite M_bind_run.
  destruct (authorize_job_spec R payload w) as (Hr & _ & Hs).
  destruct (authorize_job R payload w) as [[spec|e] w1]; cbn [fst snd] in *.
  - destruct Hn. exists spec. apply Hs.
  - destruct Hs as [-> ->]. done.
Qed.

Context {S : Type} `{JobStore S}.

Lemma in_store_world {X} (m : M S X) (sw : S * worker_world A) : (in_store m sw).2.2 = sw.2.
Proof. unfold in_store, zoom. by destruct (m sw.1). Qed.

(** Only the handler of the claimed job acts on the world. *)
Lemma run_once_world now_claim now_fail handler delay (sw : S * worker_world A) :
  let w' := (run_once now_claim now_fail handler None delay sw).2.2 in
  w' = sw.2 ∨ ∃ payload, w' = (handler payload sw.2).2.
Proof.
  intros w'. subst w'. unfold run_once. rewrite M_bind_run.
  pose proof (in_store_world (js_claim now_claim) sw) as H0.
  destruct (in_store (js_claim now_claim) sw) as [[[j|]|e] sw0]; cbn [snd] in *; [|by left..].
  right. exists (job_payload j). rewrite <-H0. clear H0.
  rewrite M_bind_run. unfold attempt at 1, in_world at 1, zoom at 1.
  destruct (handler (job_payload j) sw0.2) as [o w1]. cbv beta iota zeta. cbn [snd].
  change w1 with (sw0.1, w1).2 at 2. generalize (sw0.1, w1). clear sw sw0 w1. intros sw1.
  assert (∀ X Y (m : M S X) (k : X → M (S * worker_world A) Y) sw,
    (∀ x sw', (k x sw').2.2 = sw'.2) → ((in_store m ≫= k) sw).2.2 = sw.2) as Hbind.
  { intros X Y m k sw Hk. unfold mbind, M_bind. pose proof (in_store_world m sw) as H1.
    destruct (in_store m sw) as [[x|e] sw']; cbn [snd] in *; [|done]. by rewrite Hk. }
  assert (∀ X Y (m : M (S * worker_world A) X) (k : X → M (S * worker_world A) Y) sw,
    (∀ sw', (m sw').2.2 = sw'.2) → (∀ x sw', (k x sw').2.2 = sw'.2) → ((m ≫= k) sw).2.2 = sw.2) as Hseq.
  { intros X Y m k sw Hm Hk. unfold mbind, M_bind. pose proof (Hm sw) as H1.
    destruct (m sw) as [[x|e] sw']; cbn [snd] in *; [|done]. by rewrite Hk. }
  apply Hseq.
  - intros sw'. destruct o as [u|e]; [apply in_store_world|]. apply Hseq; [done|]. intros [] sw2.
    apply Hbind. intros [] sw3. apply Hbind. done.
  - intros [] sw'. apply Hbind. done.
Qed.
End Handle.

(** ** The facade as authorizer *)

(** What the world of a worker with the facade keeps. *)
Record artifact_started `{C : Crypto} {L} `{RS : ReplayStore L} (V : GovernedService)
    (R : WorkerRuntime (service_state L)) (run : list string * list (string * string)) (a : gaa)
    : Prop := {
  as_spec : ∃ name action spec, dict_get "action" (gaa_action_request a) = PStr name ∧
    assoc_get name (sv_actions V) = Some action ∧
    action (gaa_action_request a) = Ok (PDict spec) ∧ started R spec run
}.

(** A turn of the worker's loop with the facade as it is then. *)
Record worker_turn `{C : Crypto} := {
  wt_service : GovernedService;
  wt_now : Z;
  wt_secrets : SecretProvider;
  wt_sandbox : ContainerSandbox;
  wt_timeout : spec_float;
  wt_delay : spec_float;
  wt_claim : spec_float;
  wt_fail : spec_float
}.

Definition turn_runtime `{C : Crypto} {L} `{RS : ReplayStore L} (t : worker_turn)
    : WorkerRuntime (service_state L) :=
  {| wr_authorizer := make_authorizer (wt_service t) (wt_now t); wr_secrets := wt_secrets t;
     wr_sandbox := wt_sandbox t; wr_timeout_seconds := wt_timeout t; wr_retry_delay := wt_delay t |}.

Section ServiceWorker.
Context `{C : Crypto} {L : Type} `{LL : ReplayStoreLaws L}.
Implicit Types (s : service_state L) (V : GovernedService) (w : worker_world (service_state L)).

Lemma service_execute_value V now a s s' v :
  service_execute V now a s = (Ok v, s') →
  ∃ name action, dict_get "action" (gaa_action_request a) = PStr name ∧
    assoc_get name (sv_actions V) = Some action ∧ action (gaa_action_request a) = Ok v.
Proof.
  unfold service_execute. destruct (dict_get "action" (gaa_action_request a)) as [| | | |name| | |]; try done.
  destruct (assoc_get name (sv_actions V)) as [action|] eqn:Ha; [|done].
  unfold as_engine, zoom. destruct (execute _ _ _ _ _) as [r es] eqn:He. intros [= -> _].
  exists name, action. by apply execute_value in He.
Qed.

(** The authorizer refuses and changes nothing, or consumes a fresh artifact;
    a specification it returns is what the artifact's action returned. *)
Lemma make_authorizer_cases V now payload s :
  store_inv (ss_log s) →
  let r := make_authorizer V now payload s in
  (r.2 = s ∧ ∃ e, r.1 = Raise e) ∨
  ∃ a, ss_invoked r.2 = ss_invoked s ++ [a] ∧ store_inv (ss_log r.2) ∧
    store_used (ss_log s) (gaa_nonce a) = false ∧
    (∀ m, store_used (ss_log r.2) m = String.eqb m (gaa_nonce a) || store_used (ss_log s) m) ∧
    (∀ v, r.1 = Ok v → ∃ spec name action, v = PDict spec ∧
       dict_get "action" (gaa_action_request a) = PStr name ∧
       assoc_get name (sv_actions V) = Some action ∧ action (gaa_action_request a) = Ok (PDict spec)).
Proof.
  intros Hi r. subst r. unfold make_authorizer.
  destruct payload as [| | | | | |d|]; try (left; by eauto).
  destruct (dict_get "artifact" d) as [| | | |text| | |]; try (left; by eauto).
  rewrite M_bind_run. unfold execute_json. rewrite M_bind_run. unfold lift_res.
  destruct (gaa_from_json (PStr text)) as [a|e]; [|left; by eauto].
  pose proof (service_execute_value V now a s) as Hval.
  destruct (service_execute_cases V now a s Hi)
    as [[Hs [e He]]|(Hinv & Hi' & _ & Hu & _ & key & frame & Hv)];
    destruct (service_execute V now a s) as [res s'] eqn:Hex; cbn [fst snd] in *.
  - left. subst. by eauto.
  - right. exists a. pose proof (validated_fresh _ _ _ _ _ _ Hv) as Hfr.
    destruct res as [v|e]; [|by split_and!].
    destruct (Hval s' v eq_refl) as (name & action & Hn & Ha & Hact).
    destruct v; split_and!; try done. cbn. intros v [= <-]. by eexists _, name, action.
Qed.

Record worker_inv (turns : list worker_turn) w : Prop := {
  wi_log : store_inv (ss_log (ww_auth w));
  wi_nodup : NoDup (map gaa_nonce (ss_invoked (ww_auth w)));
  wi_used : ∀ a, a ∈ ss_invoked (ww_auth w) → store_used (ss_log (ww_auth w)) (gaa_nonce a) = true;
  wi_runs : ∃ arts, arts `sublist_of` ss_invoked (ww_auth w) ∧
    Forall2 (λ run a, ∃ t, t ∈ turns ∧ artifact_started (wt_service t) (turn_runtime (L := L) t) run a)
      (ww_runs w) arts
}.

Lemma worker_handle_inv turns t payload w : t ∈ turns →
  worker_inv turns w → worker_inv turns (worker_handle (turn_runtime t) payload w).2.
Proof.
  intros Hin [Hi Hn Hu (arts & Hsub & Hruns)].
  destruct (worker_handle_cases (turn_runtime t) payload w) as [Ha Hcases].
  destruct (make_authorizer_cases (wt_service t) (wt_now t) payload (ww_auth w) Hi)
    as [[Hs [e He]]|(a & Hinv & Hi' & Hfr & Hus & Hspec)];
    cbn [wr_authorizer turn_runtime] in *.
  - destruct Hcases as [[Hr _]|(spec & run & Hv & _)]; [|congruence].
    rewrite Hs in Ha. split; rewrite ?Ha, ?Hr; eauto.
  - assert (NoDup (map gaa_nonce (ss_invoked (ww_auth w) ++ [a]))) as Hn'.
    { rewrite map_app. apply NoDup_app. split; [done|]. split; [|apply NoDup_singleton].
      intros m (b & -> & Hb)%list_elem_of_fmap Hm%list_elem_of_singleton.
      specialize (Hu b Hb). rewrite Hm in Hu. congruence. }
    split; rewrite ?Ha, ?Hinv; [done|done| |].
    + intros b [Hb| ->%list_elem_of_singleton]%elem_of_app; rewrite Hus;
        [by rewrite Hu, orb_true_r|by rewrite String.eqb_refl].
    + destruct Hcases as [[Hr _]|(spec & run & Hv & Hst & Hr)]; rewrite Hr.
      * exists arts. split; [by apply sublist_inserts_r|done].
      * destruct (Hspec _ Hv) as (spec' & name & action & [= <-] & Hname & Hact & Hres).
        exists (arts ++ [a]). split; [by apply sublist_app|].
        apply Forall2_app; [done|]. constructor; [|done]. exists t. split; [done|].
        constructor. by exists name, action, spec.
Qed.

Lemma worker_inv_same turns w w' :
  ww_auth w' = ww_auth w → ww_runs w' = ww_runs w → worker_inv turns w → worker_inv turns w'.
Proof. intros Ha Hr [? ? ? ?]. by split; rewrite ?Ha, ?Hr. Qed.

Context {S : Type} `{JobStore S}.

Definition serve_turns (turns : list worker_turn) : M (S * worker_world (service_state L)) Z :=
  worker_serve (map (λ t, (turn_runtime t, wt_claim t, wt_fail t)) turns).

Lemma process_once_inv turns t sw : t ∈ turns → worker_inv turns sw.2 →
  worker_inv turns (process_once (turn_runtime t) (wt_claim t) (wt_fail t) sw).2.2.
Proof.
  intros Hin Hw. unfold process_once. rewrite M_bind_run.
  unfold in_world at 1, zoom at 1, set_denied, modify. cbv beta iota zeta.
  rewrite M_bind_run.
  match goal with |- context [run_once _ _ _ _ _ ?x] => set (sw1 := x) end.
  assert (worker_inv turns sw1.2) as Hw1 by (by eapply worker_inv_same, Hw).
  pose proof (run_once_world (wt_claim t) (wt_fail t) (worker_handle (turn_runtime t))
    (wr_retry_delay (turn_runtime (L := L) t)) sw1) as Hrun.
  destruct (run_once _ _ _ _ _ sw1) as [r sw2]. cbn [snd] in Hrun.
  assert (worker_inv turns sw2.2) as Hw2
    by (destruct Hrun as [->|[payload ->]]; [done|by apply worker_handle_inv]).
  destruct r as [[j|]|e]; cbn; try done. by eapply worker_inv_same, Hw2.
Qed.

Lemma serve_inv all_ turns sw : turns ⊆ all_ → worker_inv all_ sw.2 →
  worker_inv all_ (serve_turns turns sw).2.2.
Proof.
  unfold serve_turns. revert sw. induction turns as [|t turns IH]; intros sw Hsub Hw; cbn [map worker_serve].
  { done. }
  rewrite M_bind_run. pose proof (process_once_inv all_ t sw) as Hp.
  destruct (process_once _ _ _ sw) as [[j|e] sw1]; cbn [snd] in *; [|by apply Hp; [set_solver|]].
  rewrite M_bind_run. specialize (IH sw1). destruct (worker_serve _ sw1) as [[n|e] sw2]; cbn in *;
    (apply IH; [set_solver|]; apply Hp; [set_solver|done]).
Qed.
End ServiceWorker.

(** ** Redaction *)

(** No character of [p] occurs in [q]. *)
Definition chars_apart (p q : string) : bool := all_chars (λ c, negb (has_char c q)) p.

Lemma chars_apart_cons c p q :
  chars_apart (String c p) q = true → has_char c q = false ∧ chars_apart p q = true.
Proof. unfold chars_apart, all_chars. simpl. intros [Hc Hp]%andb_true_iff. by apply negb_true_iff in Hc. Qed.

Lemma prefix_replace_from old c0 new p s :
  chars_apart p (String c0 new) = true →
  String.prefix p (replace_from old (String c0 new) 0 s) = true → String.prefix p s = true.
Proof.
  revert p. induction s as [|c s IH]; intros p Hp; cbn [replace_from]; [done|].
  destruct p as [|d p]; [done|]. destruct (String.prefix old (String c s)).
  - apply chars_apart_cons in Hp as [Hd _]. cbn. destruct (ascii_dec d c0) as [->|]; [|done].
    unfold has_char in Hd. simpl in Hd. by rewrite Ascii.eqb_refl in Hd.
  - cbn. destruct (ascii_dec d c); [|done]. apply IH. by apply chars_apart_cons in Hp as [_ Hp].
Qed.

Lemma contains_skip_new p new s :
  p ≠ "" → chars_apart p new = true → str_contains p (new +:+ s) = str_contains p s.
Proof.
  intros Hne Hp. destruct p as [|d p]; [done|]. apply chars_apart_cons in Hp as [Hd _].
  induction new as [|c new IH]; [done|].
  change (String c new +:+ s) with (String c (new +:+ s)). cbn [str_contains].
  unfold has_char in Hd. simpl in Hd. apply orb_false_iff in Hd as [Hdc Hd].
  rewrite IH by exact Hd. cbn [String.prefix]. destruct (ascii_dec d c) as [->|]; [|done].
  by rewrite Ascii.eqb_refl in Hdc.
Qed.

(** A replacement creates no occurrence of a text apart from the new one... *)
Lemma contains_replace_from old c0 new p skip s :
  p ≠ "" → chars_apart p (String c0 new) = true →
  str_contains p (replace_from old (String c0 new) skip s) = true → str_contains p s = true.
Proof.
  intros Hne Hp. revert skip. induction s as [|c s IH]; intros skip; cbn [replace_from]; [done|].
  destruct skip as [|k].
  - destruct (String.prefix old (String c s)).
    + rewrite contains_skip_new by done. intros H%IH. cbn. by rewrite H, orb_true_r.
    + intros [H|H]%orb_true_iff; cbn [str_contains]; apply orb_true_iff; [left|right; by eapply IH].
      destruct p as [|d p]; [done|]. cbn in H |- *. destruct (ascii_dec d c); [|done].
      eapply prefix_replace_from, H. by apply chars_apart_cons in Hp as [_ Hp].
  - intros H%IH. cbn. by rewrite H, orb_true_r.
Qed.

(** ... and leaves none of the old one. *)
Lemma contains_replaced old c0 new skip s :
  old ≠ "" → chars_apart old (String c0 new) = true →
  str_contains old (replace_from old (String c0 new) skip s) = false.
Proof.
  intros Hne Hp. revert skip. induction s as [|c s IH]; intros skip; cbn [replace_from].
  { by destruct old. }
  destruct skip as [|k]; [|apply IH].
  destruct (String.prefix old (String c s)) eqn:Hpre.
  - by rewrite contains_skip_new, IH.
  - cbn [str_contains]. rewrite IH, orb_false_r. apply not_true_is_false. intros H.
    destruct old as [|d old]; [done|]. cbn in H, Hpre. destruct (ascii_dec d c); [|done].
    apply prefix_replace_from in H; [congruence|]. by apply chars_apart_cons in Hp as [_ Hp].
Qed.

Lemma contains_take p n s : str_contains p (py_take n s) = true → str_contains p s = true.
Proof.
  assert (∀ q n s, String.prefix q (py_take n s) = true → String.prefix q s = true) as Hpre.
  { clear. intros q n s. revert q n. induction s as [|c s IH]; intros q n; [done|].
    destruct q as [|d q]; [done|]. cbn [py_take]. destruct (is_continuation c); [|destruct n as [|n]; [done|]];
      cbn; (destruct (ascii_dec d c); [|done]); apply IH. }
  revert n. induction s as [|c s IH]; intros n H; [done|].
  assert (String.prefix p (String c s) = true ∨ ∃ m, str_contains p (py_take m s) = true) as [Hp|[m Hm]].
  { cbn [py_take] in H. destruct (is_continuation c) eqn:Hc; [|destruct n as [|n]].
    - apply orb_true_iff in H as [H|H]; [left|right; by exists n].
      apply (Hpre p n). cbn [py_take]. by rewrite Hc.
    - left. destruct p; [done|]. discriminate H.
    - apply orb_true_iff in H as [H|H]; [left|right; by exists n].
      apply (Hpre p (S n)). cbn [py_take]. by rewrite Hc. }
  - cbn [str_contains]. by rewrite Hp.
  - cbn [str_contains]. by rewrite (IH m Hm), orb_true_r.
Qed.

Lemma redact_hides secrets v text : v ≠ "" → chars_apart v "[REDACTED]" = true →
  (v ∈ map snd secrets ∨ str_contains v text = false) →
  str_contains v (redact secrets text) = false.
Proof.
  intros Hne Hv. unfold redact. revert text. induction secrets as [|[k u] secrets IH]; intros text;
    cbn [fold_left map snd]; [by intros [?%not_elem_of_nil|]|].
  intros H. apply IH. destruct H as [[->|Hin]%elem_of_cons|H]; [right|by left|right].
  - apply String.eqb_neq in Hne as E. rewrite E. by apply contains_replaced.
  - destruct (String.eqb u ""); [done|]. apply not_true_is_false. intros Hc.
    apply contains_replace_from in Hc; [congruence|done|done].
Qed.

(** * Properties *)

(** A handler starts at most one container, and only after its authorizer
    returned a specification for this payload in this call: the image is
    allow-listed, the command line is the locked-down option list, the names of
    the secrets, the image and the words of the specification, and the
    environment holds nothing but the path and the secrets fetched for it.  A
    refused payload counts as denied and starts nothing. *)
Lemma worker_sandboxed {A} (R : WorkerRuntime A) (payload : pyval) (w : worker_world A) :
  let r := worker_handle R payload w in
  (ww_runs r.2 = ww_runs w ∧ (∃ e, r.1 = Raise e) ∧
   ((¬ ∃ spec, (wr_authorizer R payload (ww_auth w)).1 = Ok (PDict spec)) →
    r.1 = Raise (RuntimeError "job not authorized") ∧ ww_denied r.2 = true)) ∨
  ∃ spec run, (wr_authorizer R payload (ww_auth w)).1 = Ok (PDict spec) ∧ started R spec run ∧
              ww_runs r.2 = ww_runs w ++ [run].
Proof.
  intros r. destruct (worker_handle_cases R payload w) as [_ [[Hr He]|?]]; [left|by right].
  split; [done|]. split; [done|]. intros Hn. by destruct (worker_handle_denied R payload w Hn) as (? & ? & _).
Qed.

(** C38. With the facade as authorizer, every container a worker starts goes back
    to an artifact of its own: whatever turns its loop makes over whatever job
    store, with whatever facade, secrets, sandbox and clocks at each turn, the
    containers pair off in order with executed artifacts of distinct nonces,
    each container being one that the artifact's registered action asked for. *)
Theorem worker_artifacts `{C : Crypto} {L} `{LL : ReplayStoreLaws L} {S} `{JobStore S}
    (turns : list worker_turn) (jobs : S) (log : L) (mesh_log : option L) :
  store_inv log →
  let w0 := {| ww_auth := {| ss_log := log; ss_mesh_log := mesh_log; ss_invoked := [] |};
               ww_runs := []; ww_last_output := ""; ww_denied := false; ww_metrics := metrics_init |} in
  let w := (serve_turns turns (jobs, w0)).2.2 in
  ∃ arts, arts `sublist_of` ss_invoked (ww_auth w) ∧ NoDup (map gaa_nonce arts) ∧
    Forall2 (λ run a, ∃ t, t ∈ turns ∧ artifact_started (wt_service t) (turn_runtime (L := L) t) run a)
      (ww_runs w) arts.
Proof.
  intros Hi w0 w.
  assert (worker_inv turns w) as [_ Hn _ (arts & Hsub & Hruns)].
  { apply serve_inv; [done|]. split; [done|constructor| |].
    - intros a Ha. by apply not_elem_of_nil in Ha.
    - by exists []. }
  exists arts. split; [done|]. split; [|done].
  eapply sublist_NoDup; [exact Hn|]. by apply (fmap_sublist gaa_nonce).
Qed.

(** No secret value of a job shows in its output: a value that shares no
    character with the marker [[REDACTED]] does not occur in the text the worker
    keeps, wherever the container printed it and whatever the other secrets are. *)
Lemma sandbox_output_redacted (cs : ContainerSandbox) (image : string) (command : list pyval)
    (secrets : list (string * string)) (timeout : spec_float)
    (runs runs' : list (list string * list (string * string))) (result : SandboxResult) (v : string) :
  sandbox_execute cs image command secrets timeout runs = (Ok result, runs') →
  v ∈ map snd secrets → v ≠ "" → chars_apart v "[REDACTED]" = true →
  str_contains v (sr_output result) = false.
Proof.
  unfold sandbox_execute. intros H Hin Hne Hv. inv_bind. cbn [sr_output].
  apply not_true_is_false. intros Hc%contains_take.
  rewrite redact_hides in Hc; [done|done|done|by left].
Qed.

(** ** Witnesses *)

Definition worker_spec : pydict :=
  [("image", PStr "tools:1"); ("command", PList [PStr "settle"; PStr "42"]);
   ("policy_id", PStr "payments"); ("required_secrets", PList [PStr "TOKEN"])].

(** A container that fails and prints its secret. *)
Definition example_sandbox : ContainerSandbox :=
  {| cs_allowed_images := ["tools:1"]; cs_runtime := "docker"; cs_memory := "128m"; cs_cpus := "0.5";
     cs_pids_limit := 64;
     cs_runner := λ _ _ _, Ok {| cp_returncode := 1; cp_stdout := "token s3cr3t refused";
                                 cp_stderr := "" |};
     cs_decode := λ s, s |}.

Definition worker_service : @GovernedService toy_crypto :=
  {| sv_issuer := example_issuer; sv_boundary := example_boundary;
     sv_policies := registry_put example_policy registry_empty;
     sv_actions := [("payments.transfer", λ _, Ok (PDict worker_spec))]; sv_sources := None |}.

Definition example_turn (now : Z) : @worker_turn toy_crypto :=
  {| wt_service := worker_service; wt_now := now; wt_secrets := λ _ _, Ok [("TOKEN", "s3cr3t")];
     wt_sandbox := example_sandbox; wt_timeout := time_at 30; wt_delay := time_at 1;
     wt_claim := time_at now; wt_fail := time_at now |}.

Definition worker_payload : pydict :=
  [("artifact", PStr (match gaa_to_json example_gaa with Ok t => t | Raise _ => "" end))].

Definition worker_jobs : list JobRow := Eval vm_compute in
  [new_row "job-1" "key-1" (match json_dumps default_style (PDict worker_payload) with
                            | Ok t => t | Raise _ => "" end) 3 (time_at 1000)].

Definition worker_start : worker_world (service_state ReplayLog) :=
  {| ww_auth := {| ss_log := example_engine_log; ss_mesh_log := None; ss_invoked := [] |};
     ww_runs := []; ww_last_output := ""; ww_denied := false; ww_metrics := metrics_init |}.

Lemma worker_sandboxed_witness :
  ww_runs (worker_handle (turn_runtime (L := ReplayLog) (example_turn 1100)) (PDict worker_payload)
             worker_start).2 =
  [(sandbox_options example_sandbox ++ ["-e"; "TOKEN"; "tools:1"; "settle"; "42"],
    [("PATH", "/usr/local/bin:/usr/bin:/bin"); ("TOKEN", "s3cr3t")])].
Proof.
  destruct (worker_sandboxed (turn_runtime (L := ReplayLog) (example_turn 1100)) (PDict worker_payload)
    worker_start) as [(Hr & _)|(spec & run & Hspec & [(image & command & secrets & Hi & Hc & _ & _ & Hs & ->)] & ->)].
  - vm_compute in Hr. discriminate Hr.
  - vm_compute in Hspec. injection Hspec as <-. vm_compute in Hi. injection Hi as <-.
    vm_compute in Hs. injection Hs as <-. vm_compute in Hc.
    destruct command as [|c1 [|c2 [|]]]; try discriminate Hc. injection Hc as <- <-. reflexivity.
Defined.

(** Two attempts of one job: the first starts a container and fails, the
    second is denied, for the artifact is consumed. *)
Abbreviation worker_served :=
  (serve_turns (L := ReplayLog) [example_turn 1100; example_turn 1200] (worker_jobs, worker_start)).

Lemma worker_artifacts_witness :
  length (ww_runs worker_served.2.2) = 1%nat ∧ wm_denied (ww_metrics worker_served.2.2) = 1 ∧
  ∃ arts, length arts = 1%nat ∧ NoDup (map gaa_nonce arts).
Proof.
  split; [vm_compute; reflexivity|]. split; [vm_compute; reflexivity|].
  destruct (worker_artifacts (L := ReplayLog) [example_turn 1100; example_turn 1200] worker_jobs
    example_engine_log None example_log_linked) as (arts & _ & Hn & Hf).
  exists arts. split; [|exact Hn]. rewrite <-(Forall2_length _ _ _ Hf). vm_compute. reflexivity.
Defined.

Lemma sandbox_output_redacted_witness :
  ∃ result, (sandbox_execute example_sandbox "tools:1" [PStr "settle"] [("TOKEN", "s3cr3t")]
               (time_at 30) []).1 = Ok result ∧
    sr_output result = "token [REDACTED] refused" ∧ str_contains "s3cr3t" (sr_output result) = false.
Proof.
  exists {| sr_exit_code := 1; sr_output := "token [REDACTED] refused" |}.
  split; [vm_compute; reflexivity|]. split; [reflexivity|].
  eapply (sandbox_output_redacted example_sandbox "tools:1" [PStr "settle"] [("TOKEN", "s3cr3t")]
    (time_at 30) []); [vm_compute; reflexivity|left|discriminate|vm_compute; reflexivity].
Defined.

(** ** What the code gets wrong *)

(** A job whose artifact was consumed is refused for ever: the first attempt
    consumed it, so every retry after a failed container ends here. *)
Lemma worker_retry_refused `{C : Crypto} {L} `{LL : ReplayStoreLaws L} (t : worker_turn)
    (d : pydict) (text : string) (a : gaa) (w : worker_world (service_state L)) :
  store_inv (ss_log (ww_auth w)) →
  dict_get "artifact" d = PStr text → gaa_from_json (PStr text) = Ok a →
  store_used (ss_log (ww_auth w)) (gaa_nonce a) = true →
  let r := worker_handle (turn_runtime t) (PDict d) w in
  r.1 = Raise (RuntimeError "job not authorized") ∧ ww_runs r.2 = ww_runs w.
Proof.
  intros Hi Hd Ha Hu r.
  assert (¬ ∃ spec, (wr_authorizer (turn_runtime t) (PDict d) (ww_auth w)).1 = Ok (PDict spec)) as Hn.
  { intros [spec Hs]. cbn [wr_authorizer turn_runtime] in Hs. unfold make_authorizer in Hs.
    rewrite Hd, M_bind_run in Hs. unfold execute_json in Hs. rewrite M_bind_run in Hs.
    unfold lift_res in Hs. rewrite Ha in Hs.
    destruct (service_execute_cases (wt_service t) (wt_now t) a (ww_auth w) Hi)
      as [[_ [e He]]|(_ & _ & _ & _ & _ & key & frame & Hv)].
    - destruct (service_execute _ _ _ _) as [res s']. cbn in He. subst. done.
    - pose proof (validated_fresh _ _ _ _ _ _ Hv). congruence. }
  subst r. by destruct (worker_handle_denied (turn_runtime t) (PDict d) w Hn) as (? & _ & ?).
Qed.

(** A secret that begins with another one keeps its tail: values are blanked
    out in the order of their keys, not by length. *)
Lemma redact_leaves_tail :
  redact [("A", "pass"); ("B", "password123")] "login password123" = "login [REDACTED]word123".
Proof. reflexivity. Qed.
