(* ===== verification/Tokens.v ===== *)
(** identity.py and auth/jwt_validator.py, auth/service_identity.py: OpenID
    Connect tokens.  A token is three base64url parts; its claims are checked,
    its key is looked up in the provider's key set and its signature verified.

    The key constructors and signature checks of the package [cryptography] are
    the class [JWTCrypto], HTTP responses are arguments, and a key provider is
    given by its calls.  The file shows what an accepted token went through,
    that a one-time token is accepted once while it lasts, and that the replay
    cache stays within its bound. *)

From S2P Require Import Prelude PyFloat PyVal Json Sha256 Base64 Crypto Models Policy Rbac Orders SemVer Jobs Trust Arbiter PolicyRegistry Replay ReplayStore Mesh Issuer Engine Deployment Service Observability Platform Lines Worker.

(** ** Bytes *)

(** The text is UTF-8; encoded surrogates pass ([surrogatepass]). *)
Fixpoint utf8_from (pending : nat) (lo hi : N) (s : string) : bool :=
  match s with
  | EmptyString => (pending =? 0)%nat
  | String c r =>
      let n := N_of_ascii c in
      match pending with
      | S k => ((lo <=? n) && (n <=? hi))%N && utf8_from k 128 191 r
      | O =>
          if (n <? 128)%N then utf8_from 0 128 191 r
          else if ((194 <=? n) && (n <=? 223))%N then utf8_from 1 128 191 r
          else if (n =? 224)%N then utf8_from 2 160 191 r
          else if ((225 <=? n) && (n <=? 239))%N then utf8_from 2 128 191 r
          else if (n =? 240)%N then utf8_from 3 144 191 r
          else if ((241 <=? n) && (n <=? 243))%N then utf8_from 3 128 191 r
          else if (n =? 244)%N then utf8_from 3 128 143 r
          else false
      end
  end.

Definition bytes_at (s : string) : list N := map N_of_ascii (String.list_ascii_of_string s).

(** [json.loads(b)]: the encoding is guessed from the first bytes; only UTF-8
    is modelled. *)
Definition json_loads_bytes (b : string) : res pyval :=
  let utf8 b := if utf8_from 0 128 191 b then json_loads b
                else Raise (ValueError "'utf-8' codec can't decode bytes") in
  let other := unmodelled "JSON text in UTF-16 or UTF-32" in
  match bytes_at b with
  | 255 :: 254 :: _ | 254 :: 255 :: _ | 0 :: _ :: _ | _ :: 0 :: _ => other
  | 239 :: 187 :: 191 :: _ => utf8 (String.substring 3 (String.length b - 3) b)
  | _ => utf8 b
  end%N.

(** [int.from_bytes(b, "big")] *)
Definition int_from_bytes (b : string) : Z :=
  fold_left (λ acc n, acc * 256 + Z.of_N n) (bytes_at b) 0.

Definition jwt_error (msg : string) : exn := IdentityValidationError msg.

(** [_b64] *)
Definition jwt_b64 (value : string) : res string :=
  res_except (b64decode value)
    (λ e, if is_ValueError e || is_TypeError e then Some (jwt_error "invalid base64url value") else None).

(** ** Keys *)

(** The package [cryptography]: constructors ([None] is [ValueError]) and
    signature checks, which raise [InvalidSignature] or another exception. *)
Class JWTCrypto := {
  JWTKey : Type;
  rsa_public_key : Z → Z → option JWTKey;
  ec_public_key : string → string → option JWTKey;
  okp_public_key : string → option JWTKey;
  rsa_verify : JWTKey → string → string → string → res unit;
  ecdsa_verify : JWTKey → string → Z → Z → string → res unit;
  eddsa_verify : JWTKey → string → string → res unit
}.

Definition private_jwk_fields : list string := ["d"; "p"; "q"; "dp"; "dq"; "qi"; "oth"; "k"].

(** One entry of the key set: [None] for a key that is not for signatures. *)
Definition signing_key (item : pyval) : res (option (string * pydict)) :=
  match item with
  | PDict d =>
      fail_if (existsb (λ f, assoc_has f d) private_jwk_fields)
        (jwt_error "JWKS must contain public keys only") ;;
      if negb (py_eqb (default (PStr "sig") (assoc_get "use" d)) (PStr "sig")) then Ok None
      else if match dict_get "key_ops" d with
              | PNone => false
              | PList ops => negb (existsb (py_eqb (PStr "verify")) ops)
              | _ => true
              end then Ok None
      else match dict_get "kid" d with
           | PStr kid => if String.eqb kid "" then Raise (jwt_error "JWKS signing key is missing a key id")
                         else Ok (Some (kid, d))
           | _ => Raise (jwt_error "JWKS signing key is missing a key id")
           end
  | _ => Raise (jwt_error "JWKS must contain public keys only")
  end.

Fixpoint signing_keys_from (items : list pyval) (keys : list (string * pydict))
    : res (list (string * pydict)) :=
  match items with
  | [] => Ok keys
  | item :: items =>
      found ← signing_key item;
      match found with
      | None => signing_keys_from items keys
      | Some (kid, d) =>
          fail_if (assoc_has kid keys) (jwt_error "JWKS contains duplicate signing key ids") ;;
          signing_keys_from items (keys ++ [(kid, d)])
      end
  end.

Definition signing_keys_by_id (jwks : pydict) : res (list (string * pydict)) :=
  match dict_get "keys" jwks with
  | PList raw_keys => signing_keys_from raw_keys []
  | _ => Raise (jwt_error "JWKS document is invalid")
  end.

(** [_b64(jwk[k])] inside the [try] of [_jwk_key]. *)
Definition jwk_bytes (jwk : pydict) (k : string) : res string :=
  match assoc_get k jwk with
  | None => Raise (KeyError k)
  | Some (PStr s) => jwt_b64 s
  | Some _ => Raise (jwt_error "invalid base64url value")
  end.

Definition some_key {K} (k : option K) : res K :=
  match k with Some k => Ok k | None => Raise (ValueError "invalid key") end.

(** The constructor for the key type, if there is one. *)
Definition jwk_constructor `{J : JWTCrypto} (jwk : pydict) : option (res JWTKey) :=
  let field k v := py_eqb (dict_get k jwk) (PStr v) in
  if field "kty" "RSA" then
    Some (e ← jwk_bytes jwk "e"; n ← jwk_bytes jwk "n";
          some_key (rsa_public_key (int_from_bytes e) (int_from_bytes n)))
  else if field "kty" "EC" && negb (hashable (dict_get "crv" jwk)) then
    Some (Raise (TypeError "unhashable type"))
  else if field "kty" "EC" && (field "crv" "P-256" || field "crv" "P-384" || field "crv" "P-521") then
    Some (x ← jwk_bytes jwk "x"; y ← jwk_bytes jwk "y";
          some_key (ec_public_key (py_str (dict_get "crv" jwk)) (String (ascii_of_N 4) (x +:+ y))))
  else if field "kty" "OKP" && field "crv" "Ed25519" then
    Some (x ← jwk_bytes jwk "x"; some_key (okp_public_key x))
  else None.

Definition jwk_key `{J : JWTCrypto} (jwk : pydict) : res JWTKey :=
  match jwk_constructor jwk with
  | None => Raise (jwt_error "unsupported JWK key type")
  | Some r =>
      res_except r (λ e, if is_KeyError e || is_ValueError e || is_TypeError e
                         then Some (jwt_error "invalid JWK") else None)
  end.

(** The signature check by algorithm; a key of the wrong kind raises one of
    the exceptions the code turns into an invalid signature. *)
Definition verify_by_alg `{J : JWTCrypto} (key : JWTKey) (alg signature signing_input : string) : res unit :=
  if String.prefix "RS" alg then
    if str_in alg ["RS256"; "RS384"; "RS512"] then rsa_verify key alg signature signing_input
    else Raise (KeyError alg)
  else if String.prefix "ES" alg then
    fail_if (Z.odd (Z.of_nat (String.length signature))) (jwt_error "invalid ECDSA signature") ;;
    let half := (String.length signature / 2)%nat in
    if str_in alg ["ES256"; "ES384"; "ES512"] then
      ecdsa_verify key alg (int_from_bytes (String.substring 0 half signature))
        (int_from_bytes (String.substring half (String.length signature - half) signature)) signing_input
    else Raise (KeyError alg)
  else if String.eqb alg "EdDSA" then eddsa_verify key signature signing_input
  else Raise (jwt_error "unsupported JWT algorithm").

Definition check_signature `{J : JWTCrypto} (key : JWTKey) (alg signature signing_input : string) : res unit :=
  res_except (verify_by_alg key alg signature signing_input)
    (λ e, match e with
          | OtherError cls _ => if String.eqb cls "InvalidSignature"
                                then Some (jwt_error "JWT signature is invalid") else None
          | _ => if is_KeyError e || is_ValueError e || is_TypeError e
                 then Some (jwt_error "JWT signature is invalid") else None
          end).

(** ** Validation *)

(** [isinstance(v, (int, float))], not a [bool], and finite. *)
Definition finite_number (v : pyval) : res (option pynum) :=
  let check n := match pynum_isfinite n with
                 | Some true => Ok (Some n)
                 | Some false => Ok None
                 | None => Raise (OverflowError "int too large to convert to float")
                 end in
  match v with PInt z => check (NInt z) | PFloat f => check (NFloat f) | _ => Ok None end.

Definition pynum_geb (x y : pynum) : bool :=
  match pynum_compare x y with Some Gt | Some Eq => true | _ => false end.

(** A time claim is a finite number that [ok] accepts. *)
Definition time_claim (v : pyval) (ok : pynum → bool) (msg : string) : res unit :=
  n ← finite_number v;
  fail_if (match n with Some n => negb (ok n) | None => true end) (jwt_error msg).

Record OIDCValidator := {
  ov_issuer : string;
  ov_audience : list string;
  ov_algorithms : list string;
  ov_tenant_id : option string
}.

Definition oidc_validator_init (issuer : string) (audience algorithms : list string)
    (tenant_id : option string) : res OIDCValidator :=
  fail_if (String.eqb issuer "" || negb (nonempty algorithms)) (ValueError "issuer and algorithms are required") ;;
  fail_if (negb (nonempty audience)) (ValueError "audience is required") ;;
  Ok {| ov_issuer := issuer; ov_audience := audience; ov_algorithms := algorithms;
        ov_tenant_id := tenant_id |}.

(** A decoded token: header, claims, signing input and signature. *)
Record jwt_parts := {
  jp_header : pyval;
  jp_claims : pyval;
  jp_signing_input : string;
  jp_signature : string
}.

Definition jwt_decode (token : string) : res jwt_parts :=
  res_except
    match split_on "." token with
    | [header_raw; payload_raw; signature_raw] =>
        h ← jwt_b64 header_raw; header ← json_loads_bytes h;
        p ← jwt_b64 payload_raw; claims ← json_loads_bytes p;
        signature ← jwt_b64 signature_raw;
        Ok {| jp_header := header; jp_claims := claims;
              jp_signing_input := header_raw +:+ "." +:+ payload_raw; jp_signature := signature |}
    | _ => Raise (ValueError "not enough values to unpack")
    end
    (λ e, if is_ValueError e || is_TypeError e then Some (jwt_error "malformed JWT") else None).

(** [secrets.compare_digest] of two strings *)
Definition compare_digest (a b : string) : res bool :=
  if ascii_str a && ascii_str b then Ok (String.eqb a b)
  else Raise (TypeError "comparing strings with non-ASCII characters is not supported").

(** The header's algorithm and key identifier. *)
Definition check_header (V : OIDCValidator) (header : pydict) : res (string * string) :=
  match dict_get "alg" header, dict_get "kid" header with
  | PStr alg, PStr kid =>
      fail_if (String.eqb alg "none" || negb (str_in alg (ov_algorithms V)) || String.eqb kid "")
        (jwt_error "JWT algorithm or key id is not trusted") ;;
      Ok (alg, kid)
  | _, _ => Raise (jwt_error "JWT algorithm or key id is not trusted")
  end.

Definition audience_ok (V : OIDCValidator) (aud : pyval) : bool :=
  match aud with
  | PStr a => str_in a (ov_audience V)
  | PList l => existsb (λ x, existsb (λ a, py_eqb x (PStr a)) (ov_audience V)) l
  | _ => false
  end.

(** The checks of the claims, in the code's order; the subject. *)
Definition check_claims (V : OIDCValidator) (now : spec_float) (nonce : option string)
    (claims : pydict) : res string :=
  let invalid := jwt_error "issuer or subject claim is invalid" in
  fail_if (negb (py_eqb (dict_get "iss" claims) (PStr (ov_issuer V)))) invalid ;;
  sub ← match dict_get "sub" claims with
        | PStr s => if String.eqb s "" then Raise invalid else Ok s
        | _ => Raise invalid
        end;
  fail_if (match ov_tenant_id V with
           | Some tid => negb (py_eqb (dict_get "tid" claims) (PStr tid))
           | None => false
           end) (jwt_error "tenant claim is invalid") ;;
  match nonce with
  | None => Ok tt
  | Some n =>
      match dict_get "nonce" claims with
      | PStr m => same ← compare_digest m n; fail_if (negb same) (jwt_error "token nonce is invalid")
      | _ => Raise (jwt_error "token nonce is invalid")
      end
  end ;;
  fail_if (negb (audience_ok V (dict_get "aud" claims))) (jwt_error "audience claim is invalid") ;;
  time_claim (dict_get "exp" claims) (λ exp, negb (pynum_geb (NFloat now) exp))
    "token is expired or has no expiry" ;;
  (if assoc_has "nbf" claims then
     time_claim (dict_get "nbf" claims) (λ nbf, negb (pynum_gtb nbf (NFloat now))) "token is not yet valid"
   else Ok tt) ;;
  (if assoc_has "iat" claims then
     time_claim (dict_get "iat" claims)
       (λ iat, negb (pynum_gtb iat (NFloat (float_add now (float_of_decimal false 30 0)))))
       "token issued-at is invalid"
   else Ok tt) ;;
  Ok sub.

(** A key provider by its calls during one validation: the first reading of
    the key set, the refresh if there is one, and the second reading. *)
Record JWKSProvider (P : Type) := {
  jwks_first : M P pyval;
  jwks_refresh : option (M P unit);
  jwks_second : M P pyval
}.
Arguments jwks_first {P} _.
Arguments jwks_refresh {P} _.
Arguments jwks_second {P} _.

Section Validate.
Context `{J : JWTCrypto} {P : Type}.

Definition read_jwks (get : M P pyval) : M P (list (string * pydict)) :=
  jwks ← get;
  lift_res match jwks with
           | PDict d => signing_keys_by_id d
           | _ => Raise (jwt_error "JWKS document is invalid")
           end.

(** The key of the identifier, after a refresh when the first key set lacks it. *)
Definition find_jwk (provider : JWKSProvider P) (kid : string) : M P (option pydict) :=
  keys ← read_jwks (jwks_first provider);
  match assoc_get kid keys with
  | Some jwk => mret (Some jwk)
  | None =>
      match jwks_refresh provider with Some r => r | None => mret tt end ;;
      keys ← read_jwks (jwks_second provider);
      mret (assoc_get kid keys)
  end.

Definition oidc_validate (V : OIDCValidator) (provider : JWKSProvider P) (now : spec_float)
    (nonce : option string) (token : pyval) : M P ExternalIdentity :=
  match token with
  | PStr token =>
      raise_if (String.eqb token "") (jwt_error "token must be a non-empty string") ;;
      parts ← lift_res (jwt_decode token);
      match jp_header parts, jp_claims parts with
      | PDict header, PDict claims =>
          ak ← lift_res (check_header V header);
          sub ← lift_res (check_claims V now nonce claims);
          jwk ← find_jwk provider ak.2;
          match jwk with
          | Some jwk =>
              raise_if (negb (py_eqb (default (PStr ak.1) (assoc_get "alg" jwk)) (PStr ak.1)))
                (jwt_error "signing key is not trusted") ;;
              key ← lift_res (jwk_key jwk);
              lift_res (check_signature key ak.1 (jp_signature parts) (jp_signing_input parts)) ;;
              mret {| ei_subject := sub; ei_issuer := ov_issuer V; ei_claims := claims |}
          | None => raise (jwt_error "signing key is not trusted")
          end
      | _, _ => raise (jwt_error "JWT objects are invalid")
      end
  | _ => raise (jwt_error "token must be a non-empty string")
  end.
End Validate.

(** ** Key providers *)

Definition static_provider : JWKSProvider pyval :=
  {| jwks_first := λ s, (Ok s, s); jwks_refresh := None; jwks_second := λ s, (Ok s, s) |}.

(** [StaticJWKSProvider.rotate] *)
Definition static_rotate (jwks : pyval) : M pyval unit := put_state jwks.

Definition MAX_DOCUMENT_BYTES : nat := 1024 * 1024.

(** The [try] around a fetch: what the response is, within the size limit, as JSON. *)
Definition fetch_document (too_large unavailable : string) (response : res string) : res pyval :=
  res_except
    (raw ← response;
     fail_if (MAX_DOCUMENT_BYTES <? String.length raw)%nat (jwt_error too_large) ;;
     json_loads_bytes raw)
    (λ e, match e with IdentityValidationError _ => None | _ => Some (jwt_error unavailable) end).

Record UrlJWKSProvider := {
  up_url : string;
  up_cache_seconds : Z;
  up_jwks : option pyval;
  up_expires_at : spec_float;
  up_last_rotated_at : spec_float;
  up_fingerprint : option string
}.

Definition url_provider_init (url : string) (cache_seconds timeout_seconds : Z) : res UrlJWKSProvider :=
  fail_if (negb (String.prefix "https://" url)) (ValueError "JWKS URL must use HTTPS") ;;
  fail_if ((cache_seconds <=? 0) || (timeout_seconds <=? 0))
    (ValueError "JWKS cache and timeout must be positive") ;;
  Ok {| up_url := url; up_cache_seconds := cache_seconds; up_jwks := None;
        up_expires_at := S754_zero false; up_last_rotated_at := S754_zero false;
        up_fingerprint := None |}.

Definition float_of_Z (z : Z) : spec_float := float_of_decimal (z <? 0) (Z.abs z) 0.

(** What a call of the provider meets: the monotonic clock when it looks and
    after a fetch, the time of day, and the endpoint's answer to a URL. *)
Record provider_tick := {
  pt_looked : spec_float;
  pt_fetched : spec_float;
  pt_wall : spec_float;
  pt_response : string → res string
}.

(** [json.dumps(keys, sort_keys=True, separators=(",", ":"))] of the signing keys, hashed *)
Definition key_fingerprint (keys : list (string * pydict)) : res string :=
  text ← json_dumps compact_style (PDict (map (λ kd, (kd.1, PDict kd.2)) keys));
  Ok (sha256_hex text).

Definition url_refresh (t : provider_tick) : M UrlJWKSProvider unit :=
  p ← get_state;
  document ← lift_res (fetch_document "JWKS document exceeds the maximum size"
    "JWKS endpoint is unavailable" (pt_response t (up_url p)));
  match document with
  | PDict d =>
      raise_if (negb (is_list (dict_get "keys" d))) (jwt_error "JWKS document is invalid") ;;
      keys ← lift_res (signing_keys_by_id d);
      fingerprint ← lift_res (key_fingerprint keys);
      let rotated := match up_fingerprint p with
                     | Some old => negb (String.eqb fingerprint old) | None => false end in
      put_state {| up_url := up_url p; up_cache_seconds := up_cache_seconds p;
                   up_jwks := Some document;
                   up_expires_at := float_add (pt_fetched t) (float_of_Z (up_cache_seconds p));
                   up_last_rotated_at := if rotated then pt_wall t else up_last_rotated_at p;
                   up_fingerprint := Some fingerprint |}
  | _ => raise (jwt_error "JWKS document is invalid")
  end.

Definition url_get_jwks (t : provider_tick) : M UrlJWKSProvider pyval :=
  p ← get_state;
  (if match up_jwks p with None => true | Some _ => float_leb (up_expires_at p) (pt_looked t) end
   then url_refresh t else mret tt) ;;
  p ← get_state;
  match up_jwks p with
  | Some jwks => mret jwks
  | None => raise (jwt_error "JWKS document is unavailable")
  end.

Definition url_provider (first refresh second : provider_tick) : JWKSProvider UrlJWKSProvider :=
  {| jwks_first := url_get_jwks first; jwks_refresh := Some (url_refresh refresh);
     jwks_second := url_get_jwks second |}.

(** ** Discovery *)

Record OIDCDiscoveryDocument := {
  od_issuer : string;
  od_jwks_uri : string;
  od_authorization_endpoint : option string;
  od_token_endpoint : option string;
  od_algorithms : list string;
  od_raw : option pydict
}.

(** An endpoint that is absent or an HTTPS URL. *)
Definition discovery_endpoint (name : string) (document : pydict) : res (option string) :=
  match dict_get name document with
  | PNone => Ok None
  | PStr s => if String.prefix "https://" s then Ok (Some s)
              else Raise (jwt_error ("OIDC discovery document has an invalid " +:+ name))
  | _ => Raise (jwt_error ("OIDC discovery document has an invalid " +:+ name))
  end.

Definition discovery_algorithms (document : pydict) : res (list string) :=
  let invalid := jwt_error "OIDC discovery document has an invalid supported signing algorithms list" in
  match dict_get "id_token_signing_alg_values_supported" document with
  | PNone => Ok []
  | PList l =>
      if forallb (λ a, match a with
                       | PStr s => negb (String.eqb s "") && negb (String.eqb s "none")
                       | _ => false end) l
      then fail_if (negb (nonempty l)) (jwt_error "OIDC discovery document has no supported signing algorithms") ;;
           Ok (dedup (map py_str l))
      else Raise invalid
  | _ => Raise invalid
  end.

(** The checks on the fetched document. *)
Definition discovery_document (issuer : string) (document : pyval) : res OIDCDiscoveryDocument :=
  match document with
  | PDict d =>
      fail_if (negb (py_eqb (dict_get "issuer" d) (PStr issuer)))
        (jwt_error "OIDC discovery document issuer mismatch") ;;
      jwks_uri ← match dict_get "jwks_uri" d with
                 | PStr u => if String.prefix "https://" u then Ok u
                             else Raise (jwt_error "OIDC discovery document is missing a valid jwks_uri")
                 | _ => Raise (jwt_error "OIDC discovery document is missing a valid jwks_uri")
                 end;
      authorization ← discovery_endpoint "authorization_endpoint" d;
      token ← discovery_endpoint "token_endpoint" d;
      algorithms ← discovery_algorithms d;
      Ok {| od_issuer := issuer; od_jwks_uri := jwks_uri; od_authorization_endpoint := authorization;
            od_token_endpoint := token; od_algorithms := algorithms; od_raw := Some d |}
  | _ => Raise (jwt_error "OIDC discovery document is invalid")
  end.

Definition discover_oidc_configuration (http_get : string → res string) (issuer : string)
    (timeout_seconds : Z) : res OIDCDiscoveryDocument :=
  fail_if (negb (String.prefix "https://" issuer)) (ValueError "OIDC issuer must use HTTPS") ;;
  fail_if (timeout_seconds <=? 0) (ValueError "timeout_seconds must be positive") ;;
  document ← fetch_document "OIDC discovery document exceeds the maximum size"
    "OIDC discovery endpoint is unavailable"
    (http_get (rstrip_slash issuer +:+ "/.well-known/openid-configuration"));
  discovery_document issuer document.

Definition oidc_validator_from_discovery (issuer : string) (audience : list string)
    (tenant_id : option string) (discovery : OIDCDiscoveryDocument) (algorithms : list string)
    (cache_seconds timeout_seconds : Z) : res (OIDCValidator * UrlJWKSProvider) :=
  accepted ←
    (if nonempty (od_algorithms discovery) then
       let accepted := List.filter (λ a, str_in a (od_algorithms discovery)) algorithms in
       fail_if (negb (nonempty accepted))
         (jwt_error "OIDC provider has no signing algorithm allowed by this validator") ;;
       Ok accepted
     else Ok algorithms);
  provider ← url_provider_init (od_jwks_uri discovery) cache_seconds timeout_seconds;
  validator ← oidc_validator_init issuer audience accepted tenant_id;
  Ok (validator, provider).

(** ** Microsoft Entra *)

(** [str(uuid.UUID(value))]; what [int(text, 16)] also accepts besides digits
    (signs, spaces, underscores, a base prefix, other scripts) is not modelled. *)
Definition drop_sub (sub s : string) : string := str_replace sub "" s.
Definition hex_char (c : ascii) : bool :=
  ascii_digit c || ascii_in 97 102 c || ascii_in 65 70 c.
Definition is_brace (c : ascii) : bool := Ascii.eqb c "{" || Ascii.eqb c "}".
Fixpoint drop_braces (l : list ascii) : list ascii :=
  match l with c :: r => if is_brace c then drop_braces r else l | [] => [] end.
Definition strip_braces (l : list ascii) : list ascii := rev (drop_braces (rev (drop_braces l))).

Definition guid_text (l : list ascii) : string :=
  let part a n := String.string_of_list_ascii (firstn n (skipn a l)) in
  join "-" [part 0 8; part 8 4; part 12 4; part 16 4; part 20 12]%nat.

Definition entra_guid (name value : string) : res string :=
  let invalid := ValueError (name +:+ " must be a Microsoft Entra GUID") in
  let digits := List.filter (λ c, negb (Ascii.eqb c "-"))
    (strip_braces (String.list_ascii_of_string (drop_sub "uuid:" (drop_sub "urn:" value)))) in
  if negb (ascii_str value) then unmodelled "a GUID outside ASCII"
  else if negb (length digits =? 32)%nat then Raise invalid
  else if forallb hex_char digits then Ok (guid_text (map lower_char digits))
  else if forallb (λ c, hex_char c || negb (ascii_in 33 126 c) || Ascii.eqb c "_" || Ascii.eqb c "+" ||
                        Ascii.eqb c "x" || Ascii.eqb c "X") digits
  then unmodelled "a GUID that is not plain hexadecimal"
  else Raise invalid.

Record EntraOIDCConfig := { eo_tenant_id : string; eo_client_id : string }.

Definition entra_config (tenant_id client_id : string) : res EntraOIDCConfig :=
  t ← entra_guid "tenant_id" tenant_id; c ← entra_guid "client_id" client_id;
  Ok {| eo_tenant_id := t; eo_client_id := c |}.

Definition entra_issuer (c : EntraOIDCConfig) : string :=
  "https://login.microsoftonline.com/" +:+ eo_tenant_id c +:+ "/v2.0".

Definition entra_validator_from_discovery (c : EntraOIDCConfig) (discovery : OIDCDiscoveryDocument)
    (algorithms : list string) (cache_seconds timeout_seconds : Z)
    : res (OIDCValidator * UrlJWKSProvider) :=
  oidc_validator_from_discovery (entra_issuer c) [eo_client_id c] (Some (eo_tenant_id c)) discovery
    algorithms cache_seconds timeout_seconds.

(** ** The authorization-code client *)

(** [urllib.parse.quote_plus(s)] *)
Definition quote_plus (s : string) : string :=
  concat_map (λ c,
    if ascii_upper c || ascii_lower c || ascii_digit c || Ascii.eqb c "_" || Ascii.eqb c "." ||
       Ascii.eqb c "-" || Ascii.eqb c "~"
    then String c ""
    else if Ascii.eqb c " " then "+"
    else String "%" (String (hex_upper (N_of_ascii c / 16)) (String (hex_upper (N_of_ascii c mod 16)) ""))) s.

(** [urllib.parse.urlencode(d)] *)
Definition urlencode (d : list (string * string)) : string :=
  join "&" (map (λ kv, quote_plus kv.1 +:+ "=" +:+ quote_plus kv.2) d).

Record OIDCAuthCodeClient := {
  oc_authorization_endpoint : string;
  oc_token_endpoint : string;
  oc_client_id : string;
  oc_redirect_uri : string;
  oc_client_secret : option string
}.

(** [not v] of an optional string *)
Definition falsy_opt (v : option string) : bool :=
  match v with Some s => String.eqb s "" | None => true end.

Definition auth_code_client_init (discovery : OIDCDiscoveryDocument) (client_id redirect_uri : string)
    (client_secret : option string) (timeout_seconds : Z) : res OIDCAuthCodeClient :=
  fail_if (String.eqb client_id "") (ValueError "client_id is required") ;;
  fail_if (negb (String.prefix "https://" redirect_uri)) (ValueError "OIDC redirect URI must use HTTPS") ;;
  fail_if (timeout_seconds <=? 0) (ValueError "timeout_seconds must be positive") ;;
  fail_if (falsy_opt (od_authorization_endpoint discovery) || falsy_opt (od_token_endpoint discovery))
    (jwt_error "OIDC discovery document is missing authorization or token endpoint") ;;
  Ok {| oc_authorization_endpoint := default "" (od_authorization_endpoint discovery);
        oc_token_endpoint := default "" (od_token_endpoint discovery);
        oc_client_id := client_id; oc_redirect_uri := redirect_uri; oc_client_secret := client_secret |}.

Definition authorization_url (c : OIDCAuthCodeClient) (state nonce code_challenge : string) : string :=
  let parameters := urlencode
    [("client_id", oc_client_id c); ("response_type", "code"); ("redirect_uri", oc_redirect_uri c);
     ("response_mode", "query"); ("scope", "openid profile email"); ("state", state);
     ("nonce", nonce); ("code_challenge", code_challenge); ("code_challenge_method", "S256")] in
  oc_authorization_endpoint c +:+
  (if str_contains "?" (oc_authorization_endpoint c) then "&" else "?") +:+ parameters.

(** [http_post url body] is the token endpoint's answer. *)
Definition exchange_code (http_post : string → string → res string) (c : OIDCAuthCodeClient)
    (code code_verifier : string) : res pydict :=
  fail_if (String.eqb code "" || String.eqb code_verifier "")
    (ValueError "authorization code and PKCE verifier are required") ;;
  let parameters :=
    [("client_id", oc_client_id c); ("grant_type", "authorization_code"); ("code", code);
     ("redirect_uri", oc_redirect_uri c); ("code_verifier", code_verifier)] ++
    (if falsy_opt (oc_client_secret c) then []
     else [("client_secret", default "" (oc_client_secret c))]) in
  document ← fetch_document "OIDC token response exceeds the maximum size"
    "OIDC token endpoint is unavailable" (http_post (oc_token_endpoint c) (urlencode parameters));
  match document with
  | PDict d => if nonempty_str (dict_get "id_token" d) then Ok d
               else Raise (jwt_error "OIDC token response is invalid")
  | _ => Raise (jwt_error "OIDC token response is invalid")
  end.

(** ** One-time tokens *)

(** A shared store of consumed identifiers, if there is one; it keeps its own state. *)
Class JWTReplayStore (R : Type) := { jr_consume : string → string → string → spec_float → M R unit }.

Abbreviation replay_entry := ((string * string * string) * spec_float)%type.

Record JWTReplayCache := { jc_max_entries : Z; jc_expires : list replay_entry }.

Definition replay_cache_init (max_entries : Z) : res JWTReplayCache :=
  fail_if (max_entries <=? 0) (ValueError "max_entries must be positive") ;;
  Ok {| jc_max_entries := max_entries; jc_expires := [] |}.

Definition entry_key_eqb (a b : string * string * string) : bool :=
  String.eqb a.1.1 b.1.1 && String.eqb a.1.2 b.1.2 && String.eqb a.2 b.2.

Definition float_ltb (x y : spec_float) : bool := SFltb x y.

(** The entries that have not expired. *)
Definition live_entries (now : spec_float) (entries : list replay_entry) : list replay_entry :=
  List.filter (λ e, float_ltb now e.2) entries.

Definition replay_key (issuer : string) (audience : list string) (jti : string)
    : string * string * string :=
  (issuer, join "|" (sort_strings audience), jti).

(** [consume] without a shared store. *)
Definition cache_consume (now : spec_float) (issuer : string) (audience : list string) (jti : string)
    (expires_at : spec_float) : M JWTReplayCache unit :=
  raise_if (float_leb expires_at now) (jwt_error "replayed token has expired") ;;
  let key := replay_key issuer audience jti in
  modify (λ c, {| jc_max_entries := jc_max_entries c; jc_expires := live_entries now (jc_expires c) |}) ;;
  c ← get_state;
  raise_if (existsb (λ e, entry_key_eqb e.1 key) (jc_expires c)) (jwt_error "JWT token replay detected") ;;
  raise_if (jc_max_entries c <=? Z.of_nat (length (jc_expires c)))
    (jwt_error "JWT replay cache capacity is exhausted") ;;
  put_state {| jc_max_entries := jc_max_entries c; jc_expires := jc_expires c ++ [(key, expires_at)] |}.

(** [consume] with a shared store. *)
Definition shared_consume {R} `{JWTReplayStore R} (now : spec_float) (issuer : string)
    (audience : list string) (jti : string) (expires_at : spec_float) : M R unit :=
  raise_if (float_leb expires_at now) (jwt_error "replayed token has expired") ;;
  let key := replay_key issuer audience jti in
  try_except (jr_consume issuer key.1.2 jti expires_at)
    (λ e, match e with
          | IdentityTokenReplayError _ => Some (raise (jwt_error "JWT token replay detected"))
          | _ => None end).

(** The claims of the payload part, read again. *)
Definition token_claims (token : string) : res pydict :=
  claims ← res_except
    match split_on "." token with
    | _ :: payload :: _ => p ← b64decode payload; json_loads_bytes p
    | _ => Raise (OtherError "IndexError" "list index out of range")
    end
    (λ e, match e with
          | OtherError cls _ => if String.eqb cls "IndexError" then Some (jwt_error "malformed JWT") else None
          | _ => if is_ValueError e || is_TypeError e then Some (jwt_error "malformed JWT") else None
          end);
  match claims with PDict d => Ok d | _ => Raise (AttributeError "get") end.

(** [float(exp)] *)
Definition to_float (n : pynum) : spec_float :=
  match n with NInt z => float_of_Z z | NFloat f => f end.

(** The identifier and expiry of a one-time token. *)
Definition one_time_claims (claims : pydict) : res (string * spec_float) :=
  jti ← match dict_get "jti" claims with
        | PStr s => if String.eqb s "" then Raise (jwt_error "one-time JWT is missing jti") else Ok s
        | _ => Raise (jwt_error "one-time JWT is missing jti")
        end;
  exp ← match dict_get "exp" claims with
        | PInt z => Ok (NInt z)
        | PFloat f => Ok (NFloat f)
        | _ => Raise (jwt_error "one-time JWT is missing expiry")
        end;
  Ok (jti, to_float exp).

Section ValidateOnce.
Context `{J : JWTCrypto} {P R : Type}.

(** [validate_once]: [consume] is the cache's or the shared store's. *)
Definition validate_once (consume : spec_float → string → list string → string → spec_float → M R unit)
    (V : OIDCValidator) (provider : JWKSProvider P) (now now_cache : spec_float)
    (nonce : option string) (token : string) : M (P * R) ExternalIdentity :=
  identity ← zoom fst (λ p s, (p, s.2)) (oidc_validate V provider now nonce (PStr token));
  claims ← lift_res (token_claims token);
  je ← lift_res (one_time_claims claims);
  zoom snd (λ r s, (s.1, r)) (consume now_cache (ov_issuer V) (ov_audience V) je.1 je.2) ;;
  mret identity.
End ValidateOnce.

(** ** Service identities *)

Record ServiceIdentity := {
  si_subject : string;
  si_tenant : option string;
  si_issuer : string;
  si_identity_type : string;
  si_client_id : option string
}.

Definition service_identity (subject : string) (tenant : option string) (issuer identity_type : string)
    (client_id : option string) : res ServiceIdentity :=
  fail_if (String.eqb subject "" || String.eqb issuer "")
    (ValueError "service identity subject and issuer are required") ;;
  fail_if (negb (str_in identity_type ["service_principal"; "managed_identity"; "workload_identity"; "machine"]))
    (ValueError "unsupported service identity type") ;;
  Ok {| si_subject := subject; si_tenant := tenant; si_issuer := issuer;
        si_identity_type := identity_type; si_client_id := client_id |}.

Definition service_identity_from_claims (claims : pydict) (issuer : string) : res ServiceIdentity :=
  let claim k := dict_get k claims in
  let identity_type :=
    if truthy (claim "xms_mirid") then "managed_identity"
    else if truthy (claim "workload_identity") || truthy (claim "workload") then "workload_identity"
    else if py_eqb (claim "idtyp") (PStr "app") then "service_principal" else "machine" in
  match py_or (claim "oid") (claim "sub") with
  | PStr subject =>
      fail_if (String.eqb subject "") (ValueError "service identity claims require oid or sub") ;;
      service_identity subject (str_or_none (claim "tid")) issuer identity_type
        (str_or_none (py_or (py_or (claim "azp") (claim "appid")) (claim "client_id")))
  | _ => Raise (ValueError "service identity claims require oid or sub")
  end.

(** * Lemmas *)

(** ** Signing keys *)

(** A key the provider may offer for signatures under an identifier. *)
Record public_signing_key (kid : string) (jwk : pydict) : Prop := {
  psk_public : ∀ f, f ∈ private_jwk_fields → assoc_has f jwk = false;
  psk_kid : dict_get "kid" jwk = PStr kid;
  psk_named : kid ≠ ""
}.

Lemma signing_key_ok item kid jwk :
  signing_key item = Ok (Some (kid, jwk)) → item = PDict jwk ∧ public_signing_key kid jwk.
Proof.
  unfold signing_key. destruct item as [| | | | | |d|]; try done. intros H. inv_bind.
  destruct (negb (py_eqb _ _)); [done|].
  destruct (match dict_get "key_ops" d with PNone => false | PList ops => _ | _ => true end); [done|].
  destruct (dict_get "kid" d) as [| | | |k| | |] eqn:Hk; try done.
  destruct (String.eqb_spec k ""); [done|]. injection H as -> ->. split; [done|]. split; try done.
  intros f Hf. apply not_true_is_false. intros Hh.
  assert (existsb (λ f, assoc_has f jwk) private_jwk_fields = true) as He; [|congruence].
  apply existsb_exists. exists f. by rewrite <-list_elem_of_In.
Qed.

Lemma signing_keys_public items keys keys' kid jwk :
  signing_keys_from items keys = Ok keys' →
  (∀ k d, assoc_get k keys = Some d → public_signing_key k d) →
  assoc_get kid keys' = Some jwk → public_signing_key kid jwk.
Proof.
  revert keys. induction items as [|item items IH]; intros keys; cbn [signing_keys_from].
  - intros [= <-]. auto.
  - intros H Hk Hg. inv_bind. destruct x as [[k d]|]; [|by eapply IH].
    inv_bind. apply signing_key_ok in Hx as [_ Hp].
    eapply IH; [exact H| |exact Hg]. intros k' d'. rewrite assoc_get_app.
    destruct (assoc_get k' keys) eqn:E; [intros [= <-]; by apply Hk|].
    cbn. destruct (String.eqb_spec k' k) as [->|]; [|done]. by intros [= <-].
Qed.

Section ValidateLemmas.
Context `{J : JWTCrypto} {P : Type}.
Implicit Types (V : OIDCValidator) (provider : JWKSProvider P).

Lemma read_jwks_public (get : M P pyval) p keys p' kid jwk :
  read_jwks get p = (Ok keys, p') → assoc_get kid keys = Some jwk → public_signing_key kid jwk.
Proof.
  unfold read_jwks. intros H Hg. inv_bind. destruct x as [| | | | | |d|]; try done.
  unfold signing_keys_by_id in H. destruct (dict_get "keys" d) as [| | | | |l| |]; try done.
  by eapply signing_keys_public in Hg.
Qed.

Lemma find_jwk_public provider kid p jwk p' :
  find_jwk provider kid p = (Ok (Some jwk), p') → public_signing_key kid jwk.
Proof.
  unfold find_jwk. intros H. apply M_bind_ok in H as (keys & s1 & Hkeys & H).
  destruct (assoc_get kid keys) as [d|] eqn:E.
  - apply mret_M_ok in H as [[= ->] ->]. by eapply read_jwks_public.
  - apply M_bind_ok in H as ([] & s2 & _ & H). apply M_bind_ok in H as (keys' & s3 & Hkeys' & H).
    apply mret_M_ok in H as [H ->]. by eapply read_jwks_public.
Qed.

(** ** Claims *)

(** The claims a validator accepts at a time, for an expected nonce. *)
Record claims_hold V (now : spec_float) (nonce : option string) (claims : pydict) (sub : string) : Prop := {
  ch_issuer : dict_get "iss" claims = PStr (ov_issuer V);
  ch_subject : dict_get "sub" claims = PStr sub ∧ sub ≠ "";
  ch_tenant : ∀ t, ov_tenant_id V = Some t → dict_get "tid" claims = PStr t;
  ch_nonce : ∀ n, nonce = Some n → dict_get "nonce" claims = PStr n;
  ch_audience : ∃ a, a ∈ ov_audience V ∧
    (dict_get "aud" claims = PStr a ∨ ∃ l, dict_get "aud" claims = PList l ∧ PStr a ∈ l);
  ch_expiry : ∃ e, finite_number (dict_get "exp" claims) = Ok (Some e) ∧ pynum_geb (NFloat now) e = false;
  ch_not_before : assoc_has "nbf" claims = true →
    ∃ e, finite_number (dict_get "nbf" claims) = Ok (Some e) ∧ pynum_gtb e (NFloat now) = false;
  ch_issued : assoc_has "iat" claims = true →
    ∃ e, finite_number (dict_get "iat" claims) = Ok (Some e) ∧
         pynum_gtb e (NFloat (float_add now (float_of_decimal false 30 0))) = false
}.

Lemma time_claim_ok v ok msg : time_claim v ok msg = Ok tt →
  ∃ e, finite_number v = Ok (Some e) ∧ ok e = true.
Proof.
  unfold time_claim. intros H. inv_bind. destruct x as [e|]; [|done]. exists e. by breflect.
Qed.

Lemma audience_ok_spec V aud : audience_ok V aud = true → ∃ a, a ∈ ov_audience V ∧
  (aud = PStr a ∨ ∃ l, aud = PList l ∧ PStr a ∈ l).
Proof.
  unfold audience_ok. destruct aud as [| | | |s|l| |]; try done.
  - intros H%str_in_spec. eauto.
  - intros (x & Hx & (a & Ha & Heq%py_eqb_str)%existsb_exists)%existsb_exists. subst.
    exists a. split; [by apply list_elem_of_In|]. right. exists l. split; [done|by apply list_elem_of_In].
Qed.

Lemma check_claims_ok V now nonce claims sub :
  check_claims V now nonce claims = Ok sub → claims_hold V now nonce claims sub.
Proof.
  unfold check_claims. intros H. inv_bind. breflect.
  match goal with H : py_eqb _ _ = true |- _ => apply py_eqb_str in H end.
  match goal with H : audience_ok _ _ = true |- _ => apply audience_ok_spec in H end.
  match goal with H : match dict_get "sub" claims with _ => _ end = Ok ?s |- _ =>
    assert (dict_get "sub" claims = PStr s ∧ s ≠ "") as Hsub
      by (destruct (dict_get "sub" claims) as [| | | |s'| | |]; try done;
          destruct (String.eqb_spec s' ""); [done|]; by injection H as ->) end.
  repeat match goal with H : time_claim _ _ _ = Ok tt |- _ => apply time_claim_ok in H as (? & ? & ?) end.
  split; try done.
  - intros t Ht. rewrite Ht in *. breflect. by apply py_eqb_str.
  - intros n ->. destruct (dict_get "nonce" claims) as [| | | |m| | |] eqn:Hn; try done.
    inv_bind. breflect. unfold compare_digest in *. destruct (_ && _); [|done].
    match goal with H : Ok _ = Ok _ |- _ => injection H as H end. subst.
    match goal with H : String.eqb _ _ = true |- _ => by apply String.eqb_eq in H as -> end.
  - eexists. split; [done|]. by breflect.
  - intros E. rewrite E in *.
    match goal with H : time_claim _ _ "token is not yet valid" = _ |- _ =>
      apply time_claim_ok in H as (e & ? & ?) end. exists e. by breflect.
  - intros E. rewrite E in *.
    match goal with H : time_claim _ _ "token issued-at is invalid" = _ |- _ =>
      apply time_claim_ok in H as (e' & ? & ?) end. exists e'. by breflect.
Qed.
End ValidateLemmas.

(** What an accepted token went through. *)
Record token_accepted `{J : JWTCrypto} {P} (V : OIDCValidator) (provider : JWKSProvider P)
    (now : spec_float) (nonce : option string) (token : string) (p p' : P) (id : ExternalIdentity)
    (parts : jwt_parts) (header claims : pydict) (alg kid : string) (jwk : pydict) (key : JWTKey) : Prop := {
  ta_decoded : jwt_decode token = Ok parts;
  ta_header : jp_header parts = PDict header ∧ dict_get "alg" header = PStr alg ∧
    dict_get "kid" header = PStr kid;
  ta_algorithm : alg ∈ ov_algorithms V ∧ alg ≠ "none";
  ta_claims : jp_claims parts = PDict claims ∧ claims_hold V now nonce claims (ei_subject id);
  ta_jwk : find_jwk provider kid p = (Ok (Some jwk), p') ∧ public_signing_key kid jwk;
  ta_jwk_alg : ∀ v, assoc_get "alg" jwk = Some v → v = PStr alg;
  ta_key : jwk_key jwk = Ok key;
  ta_signature : verify_by_alg key alg (jp_signature parts) (jp_signing_input parts) = Ok tt;
  ta_identity : ei_issuer id = ov_issuer V ∧ ei_claims id = claims
}.

Lemma res_except_ok {A} (m : res A) h x : res_except m h = Ok x → m = Ok x.
Proof. unfold res_except. destruct m; [done|]. by case_match. Qed.

(** ** The replay cache *)

Section Cache.
Implicit Types (c : JWTReplayCache).

Lemma entry_key_eqb_eq a b : entry_key_eqb a b = true ↔ a = b.
Proof.
  unfold entry_key_eqb. destruct a as [[a1 a2] a3], b as [[b1 b2] b3]. cbn.
  rewrite !andb_true_iff, !String.eqb_eq. naive_solver.
Qed.

Lemma float_ltb_spec x y : float_ltb x y = true ↔
  is_nan x = false ∧ is_nan y = false ∧ float_leb y x = false.
Proof.
  unfold float_ltb, SFltb, float_leb, SFleb. destruct x as [sx|sx| |sx m a], y as [sy|sy| |sy n b]; try (naive_solver done);
    cbn [is_nan]; repeat match goal with b : bool |- _ => destruct b end;
    unfold SFcompare; try naive_solver;
    rewrite (Z.compare_antisym a b); change (Pos.compare_cont Eq m n) with (Pos.compare m n);
    change (Pos.compare_cont Eq n m) with (Pos.compare n m); rewrite (Pos.compare_antisym m n);
    destruct (a ?= b), (m ?= n)%positive; cbn; naive_solver.
Qed.

Lemma float_leb_not_nan x y : float_leb x y = true → is_nan x = false ∧ is_nan y = false.
Proof. unfold float_leb, SFleb, SFcompare. by destruct x, y. Qed.

(** What expires after a later time expires after an earlier one. *)
Lemma float_ltb_earlier x y (e : spec_float) : float_leb x y = true → float_ltb y e = true → float_ltb x e = true.
Proof.
  intros Hxy (_ & He & Hn)%float_ltb_spec. destruct (float_leb_not_nan _ _ Hxy) as [Hx Hy].
  apply float_ltb_spec. split_and!; [done|done|]. apply not_true_is_false. intros Hex.
  rewrite <-float_rank_leb in Hxy, Hn, Hex by done. by rewrite (leb_trans _ _ _ Hex Hxy) in Hn.
Qed.

Lemma cache_consume_ok now issuer audience jti e c c' :
  cache_consume now issuer audience jti e c = (Ok tt, c') →
  float_leb e now = false ∧
  (∀ entry, entry ∈ live_entries now (jc_expires c) → entry.1 ≠ replay_key issuer audience jti) ∧
  Z.of_nat (length (live_entries now (jc_expires c))) < jc_max_entries c ∧
  jc_max_entries c' = jc_max_entries c ∧
  jc_expires c' = live_entries now (jc_expires c) ++ [(replay_key issuer audience jti, e)].
Proof.
  unfold cache_consume, mbind, M_bind, raise_if, modify, get_state, put_state.
  destruct (float_leb e now); [done|]. cbn [jc_expires jc_max_entries].
  destruct (existsb _ _) eqn:Hex; [done|].
  destruct (jc_max_entries c <=? _) eqn:Hmax; [done|]. intros [= <-]. breflect.
  split_and!; try done. intros entry Hin Heq.
  assert (existsb (λ e : replay_entry, entry_key_eqb e.1 (replay_key issuer audience jti))
            (live_entries now (jc_expires c)) = true) as Ht; [|congruence].
  apply existsb_exists. exists entry. split; [by apply list_elem_of_In|by apply entry_key_eqb_eq].
Qed.

(** An entry stays in the cache while it lasts, and the bound is kept. *)
Lemma cache_consume_keeps now issuer audience jti e c entry :
  let c' := (cache_consume now issuer audience jti e c).2 in
  (entry ∈ jc_expires c → float_ltb now entry.2 = true → entry ∈ jc_expires c') ∧
  jc_max_entries c' = jc_max_entries c ∧
  (Z.of_nat (length (jc_expires c)) ≤ jc_max_entries c →
   Z.of_nat (length (jc_expires c')) ≤ jc_max_entries c').
Proof.
  intros c'. subst c'. unfold cache_consume, mbind, M_bind, raise_if, modify, get_state, put_state.
  destruct (float_leb e now); [done|]. cbn [jc_expires jc_max_entries].
  assert (entry ∈ jc_expires c → float_ltb now entry.2 = true →
          entry ∈ live_entries now (jc_expires c)) as Hlive.
  { intros Hin Hlt. apply list_elem_of_In. apply filter_In. by rewrite <-list_elem_of_In. }
  assert (Z.of_nat (length (live_entries now (jc_expires c))) ≤ Z.of_nat (length (jc_expires c))) as Hlen.
  { unfold live_entries. pose proof (filter_length_le (λ e, float_ltb now e.2) (jc_expires c)). lia. }
  destruct (existsb _ _); [cbn; split_and!; [done|done|lia]|].
  destruct (jc_max_entries c <=? _) eqn:Hmax; cbn; breflect; split_and!; try done; try lia.
  - intros Hin Hlt. apply elem_of_app. left. auto.
  - intros _. rewrite length_app. cbn. lia.
Qed.
End Cache.

(** A call of [consume]. *)
Record consume_call := {
  cc_now : spec_float;
  cc_issuer : string;
  cc_audience : list string;
  cc_jti : string;
  cc_expires : spec_float
}.

Definition cache_run (c : JWTReplayCache) (k : consume_call) : JWTReplayCache :=
  (cache_consume (cc_now k) (cc_issuer k) (cc_audience k) (cc_jti k) (cc_expires k) c).2.

Lemma cache_run_keeps calls c entry now :
  entry ∈ jc_expires c → float_ltb now entry.2 = true →
  Forall (λ k, float_leb (cc_now k) now = true) calls →
  entry ∈ jc_expires (fold_left cache_run calls c).
Proof.
  revert c. induction calls as [|k calls IH]; intros c Hin Hlt Hnow; [done|].
  apply Forall_cons in Hnow as [Hk Hnow]. cbn [fold_left]. apply IH; [|done|done].
  destruct (cache_consume_keeps (cc_now k) (cc_issuer k) (cc_audience k) (cc_jti k) (cc_expires k) c entry)
    as [H _]. apply H; [done|]. by eapply float_ltb_earlier.
Qed.

Lemma cache_run_bound calls c :
  Z.of_nat (length (jc_expires c)) ≤ jc_max_entries c →
  Z.of_nat (length (jc_expires (fold_left cache_run calls c))) ≤ jc_max_entries c ∧
  jc_max_entries (fold_left cache_run calls c) = jc_max_entries c.
Proof.
  revert c. induction calls as [|k calls IH]; intros c Hc; [done|]. cbn [fold_left].
  destruct (cache_consume_keeps (cc_now k) (cc_issuer k) (cc_audience k) (cc_jti k) (cc_expires k) c
    (replay_key "" [] "", S754_nan)) as (_ & Hm & Hb).
  change (jc_max_entries (cache_run c k) = jc_max_entries c) in Hm.
  destruct (IH (cache_run c k) (Hb Hc)) as [H1 H2]. by rewrite Hm in H1, H2.
Qed.

(** * Properties *)

(** C7. An accepted token is justified: it decodes into header, claims and
    signature; its algorithm is one the validator was configured with and never
    [none]; its issuer, subject, tenant, nonce, audience and times are those
    required at this moment; the provider's key set holds a public signing key
    under its key identifier, for that algorithm, and under this key the
    signature of the signed text verified.  The identity carries these claims. *)
Theorem oidc_validate_sound `{J : JWTCrypto} {P} (V : OIDCValidator) (provider : JWKSProvider P)
    (now : spec_float) (nonce : option string) (token : string) (p p' : P) (id : ExternalIdentity) :
  oidc_validate V provider now nonce (PStr token) p = (Ok id, p') →
  ∃ parts header claims alg kid jwk key,
    token_accepted V provider now nonce token p p' id parts header claims alg kid jwk key.
Proof.
  unfold oidc_validate. intros H.
  apply M_bind_ok in H as ([] & s0 & H0 & H). apply raise_if_ok in H0 as [_ ->].
  apply M_bind_ok in H as (parts & s1 & [Hparts ->]%lift_res_ok & H).
  destruct (jp_header parts) as [| | | | | |header|] eqn:Hh; try done.
  destruct (jp_claims parts) as [| | | | | |claims|] eqn:Hc; try done.
  apply M_bind_ok in H as ([alg kid] & s2 & [Hhead ->]%lift_res_ok & H).
  apply M_bind_ok in H as (sub & s3 & [Hclaims ->]%lift_res_ok & H).
  apply M_bind_ok in H as ([jwk|] & s4 & Hjwk & H); [|done]. cbn [fst snd] in *.
  apply M_bind_ok in H as ([] & s5 & [Halg ->]%raise_if_ok & H).
  apply M_bind_ok in H as (key & s6 & [Hkey ->]%lift_res_ok & H).
  apply M_bind_ok in H as ([] & s7 & [Hsig ->]%lift_res_ok & H).
  apply mret_M_ok in H as [-> ->].
  unfold check_header in Hhead. destruct (dict_get "alg" header) as [| | | |a| | |] eqn:Ha; try done.
  destruct (dict_get "kid" header) as [| | | |k| | |] eqn:Hk; try done. inv_bind.
  match goal with H : (_ || _) || _ = false |- _ => apply orb_false_iff in H as [Hn _] end.
  apply orb_false_iff in Hn as [Hnone%String.eqb_neq Hin%negb_false_iff%str_in_spec].
  exists parts, header, claims, alg, kid, jwk, key. split; try done.
  - split; [done|]. by apply check_claims_ok.
  - split; [done|]. by eapply find_jwk_public.
  - intros v Hv. rewrite Hv in Halg. cbn in Halg. by apply negb_false_iff, py_eqb_str in Halg.
  - unfold check_signature in Hsig. by apply res_except_ok in Hsig.
Qed.

(** A one-time token is consumed once while it lasts: after its identifier
    was accepted with some expiry, every later presentation under the same
    issuer and audience is refused until that expiry, whatever other tokens
    were consumed in between by a clock that stays behind the presentation's.
    The cache never holds more entries than its bound. *)
Lemma jwt_single_use (c c1 : JWTReplayCache) (now1 now2 : spec_float) (issuer : string)
    (audience : list string) (jti : string) (e e2 : spec_float) (calls : list consume_call) :
  Z.of_nat (length (jc_expires c)) ≤ jc_max_entries c →
  cache_consume now1 issuer audience jti e c = (Ok tt, c1) →
  Forall (λ k, float_leb (cc_now k) now2 = true) calls → float_ltb now2 e = true →
  let c2 := fold_left cache_run calls c1 in
  (∃ er, (cache_consume now2 issuer audience jti e2 c2).1 = Raise er) ∧
  Z.of_nat (length (jc_expires c2)) ≤ jc_max_entries c.
Proof.
  intros Hb H Hcalls Hlt c2. pose proof H as (_ & _ & Hlen & Hmax & Hexp)%cache_consume_ok.
  split.
  - assert ((replay_key issuer audience jti, e) ∈ jc_expires c2) as Hin.
    { apply cache_run_keeps with now2; [|done|done]. rewrite Hexp. set_solver. }
    destruct (cache_consume now2 issuer audience jti e2 c2) as [[[]|er] c3] eqn:H2; [|by exists er].
    apply cache_consume_ok in H2 as (_ & Hfresh & _).
    destruct (Hfresh (replay_key issuer audience jti, e)); [|done].
    apply list_elem_of_In, filter_In. split; [by apply list_elem_of_In|done].
  - destruct (cache_run_bound calls c1) as [Hb2 _]; [|by rewrite Hmax in Hb2].
    rewrite Hexp, length_app, Hmax. cbn. lia.
Qed.

(** ** Witnesses *)

(** Keys are their bytes; an EdDSA signature is the key and the text. *)
#[export] Instance toy_jwt_crypto : JWTCrypto := {|
  JWTKey := string;
  rsa_public_key := λ _ _, None;
  ec_public_key := λ _ _, None;
  okp_public_key := λ x, Some x;
  rsa_verify := λ _ _ _ _, Raise (OtherError "InvalidSignature" "");
  ecdsa_verify := λ _ _ _ _ _, Raise (OtherError "InvalidSignature" "");
  eddsa_verify := λ key signature input,
    if String.eqb signature (key +:+ ":" +:+ input) then Ok tt
    else Raise (OtherError "InvalidSignature" "")
|}.

Definition json_of (d : pydict) : string :=
  match json_dumps compact_style (PDict d) with Ok t => t | Raise _ => "" end.

Definition make_jwt (header claims : pydict) (key : string) : string :=
  let input := b64encode (json_of header) +:+ "." +:+ b64encode (json_of claims) in
  input +:+ "." +:+ b64encode (key +:+ ":" +:+ input).

Definition example_validator : OIDCValidator :=
  {| ov_issuer := "https://idp.example"; ov_audience := ["gas"]; ov_algorithms := ["EdDSA"];
     ov_tenant_id := None |}.

Definition example_claims (exp : pyval) : pydict :=
  [("aud", PStr "gas"); ("exp", exp); ("iss", PStr "https://idp.example"); ("sub", PStr "alice")].

Definition example_jwks : pyval :=
  PDict [("keys", PList [PDict [("kty", PStr "OKP"); ("crv", PStr "Ed25519"); ("kid", PStr "k1");
                                ("x", PStr (b64encode "pub"))]])].

Definition example_jwt (exp : pyval) : string :=
  make_jwt [("alg", PStr "EdDSA"); ("kid", PStr "k1")] (example_claims exp) "pub".

Definition example_external : ExternalIdentity :=
  {| ei_subject := "alice"; ei_issuer := "https://idp.example"; ei_claims := example_claims (PInt 2000) |}.

Lemma oidc_validate_sound_witness :
  ∃ claims sub, claims_hold example_validator (time_at 1000) None claims sub ∧ sub = "alice".
Proof.
  destruct (oidc_validate_sound example_validator static_provider (time_at 1000) None
    (example_jwt (PInt 2000)) example_jwks example_jwks example_external)
    as (parts & header & claims & alg & kid & jwk & key & [_ _ _ [_ Hc] _ _ _ _ _]);
    [vm_compute; reflexivity|].
  exists claims, (ei_subject example_external). split; [exact Hc|reflexivity].
Defined.

Definition example_cache : JWTReplayCache := {| jc_max_entries := 2; jc_expires := [] |}.

Definition consume_other : list consume_call :=
  [{| cc_now := time_at 11; cc_issuer := "i"; cc_audience := ["b"; "a"]; cc_jti := "t2";
      cc_expires := time_at 30 |}].

Lemma jwt_single_use_witness :
  ∃ er, (cache_consume (time_at 12) "i" ["a"; "b"] "t1" (time_at 50)
           (fold_left cache_run consume_other
             (cache_consume (time_at 10) "i" ["b"; "a"] "t1" (time_at 20) example_cache).2)).1 = Raise er.
Proof.
  destruct (jwt_single_use example_cache
    (cache_consume (time_at 10) "i" ["b"; "a"] "t1" (time_at 20) example_cache).2 (time_at 10) (time_at 12)
    "i" ["b"; "a"] "t1" (time_at 20) (time_at 50) consume_other) as [[er He] _].
  - cbn. lia.
  - vm_compute. reflexivity.
  - constructor; [vm_compute; reflexivity|constructor].
  - vm_compute. reflexivity.
  - exists er. change ["a"; "b"] with (sort_strings ["b"; "a"]). rewrite <-He. vm_compute. reflexivity.
Defined.

(** ** What the code gets wrong *)

(** Exceptions other than [IdentityValidationError] escape before the signature
    is looked at: an expiry too large for a float, and a nonce outside ASCII. *)
Lemma oidc_validate_leaks_errors :
  (oidc_validate example_validator static_provider (time_at 1000) None
     (PStr (make_jwt [("alg", PStr "EdDSA"); ("kid", PStr "k1")] (example_claims (PInt (10 ^ 400))) "forged"))
     example_jwks).1 = Raise (OverflowError "int too large to convert to float") ∧
  (oidc_validate example_validator static_provider (time_at 1000) (Some "n")
     (PStr (make_jwt [("alg", PStr "EdDSA"); ("kid", PStr "k1")]
              (example_claims (PInt 2000) ++ [("nonce", PStr (chr 195 +:+ chr 169))]) "forged"))
     example_jwks).1 =
    Raise (TypeError "comparing strings with non-ASCII characters is not supported").
Proof. split; vm_compute; reflexivity. Qed.
