(* ===== verification/Entra.v ===== *)
(** auth/entra.py: the sign-in at Microsoft Entra with the device code grant.

    The MSAL client and its packages are parameters: a client is a record of
    computations on a world of its own, and what it is made from is recorded in
    its parameters.  The file shows that a token comes from the client or not at
    all, and that an account in the cache is asked first. *)

From S2P Require Import Prelude PyFloat PyVal Moves Json Crypto Models Policy Rbac Orders SemVer PyText Tokens.

Section Entra.
Context {W : Type}.

(** [msal.PublicClientApplication] *)
Record msal_client := {
  get_accounts : M W (list pyval);
  acquire_token_silent : list string → pyval → M W pyval;
  initiate_device_flow : list string → M W pyval;
  acquire_token_by_device_flow : pyval → M W pyval
}.

Record msal_parameters := {
  mp_client_id : string;
  mp_authority : string;
  mp_token_cache : option string   (** the path of the protected cache *)
}.

(** The packages that are installed: the factory of [msal], and what
    [msal_extensions] does when it opens the cache at a path. *)
Record msal_packages := {
  mk_msal : option (msal_parameters → M W msal_client);
  mk_extensions : option (string → M W unit)
}.

(** ** [EntraDeviceAuthorizationClient] *)

Record EntraDeviceAuthorizationClient := {
  dc_config : EntraOIDCConfig;
  dc_scopes : list string;
  dc_factory : option (msal_parameters → M W msal_client);
  dc_cache_path : option string
}.

(** The elements of the scopes: a text is a sequence of its characters. *)
Definition scope_items (scopes : pyval) : res (list pyval) :=
  match scopes with
  | PList l => Ok l
  | PStr s => Ok (map PStr (split_chars "" s))
  | PDict d => Ok (map (λ kv, PStr kv.1) d)
  | _ => Raise (TypeError "object is not iterable")
  end.

Definition entra_client_init (config : EntraOIDCConfig) (scopes : pyval)
    (factory : option (msal_parameters → M W msal_client)) (cache_path : option string)
    : res EntraDeviceAuthorizationClient :=
  let invalid := ValueError "at least one non-empty Entra scope is required" in
  fail_if (negb (truthy scopes)) invalid ;;
  items ← scope_items scopes;
  fail_if (existsb (λ v, negb (is_str v && truthy v)) items) invalid ;;
  Ok {| dc_config := config; dc_scopes := map py_str items; dc_factory := factory; dc_cache_path := cache_path |}.

(** [isinstance(result, dict) and isinstance(result.get("access_token"), str)] *)
Definition token_result (v : pyval) : bool :=
  match v with PDict d => is_str (dict_get "access_token" d) | _ => false end.

(** [str(error)] of what the provider reports. *)
Definition flow_error (result : pyval) : res string :=
  match result with
  | PDict d =>
      match dict_get_or "error_description" (dict_get_or "error" (PStr "unknown error") d) d with
      | PStr s => Ok s
      | _ => unmodelled "an error that is no text"
      end
  | _ => Ok "invalid token response"
  end.

(** The factory of the client, with the cache when it is the package's. *)
Definition client_factory (P : msal_packages) (c : EntraDeviceAuthorizationClient)
    : M W ((msal_parameters → M W msal_client) * option string) :=
  match dc_factory c with
  | Some factory => mret (factory, None)
  | None =>
      match mk_msal P with
      | None => raise (RuntimeError
          "Entra device login requires MSAL; install governed-autonomy-substrate[entra]")
      | Some factory =>
          match dc_cache_path c with
          | None => mret (factory, None)
          | Some path =>
              match mk_extensions P with
              | None => raise (RuntimeError ("protected Entra token caching requires the entra extra " +:+
                                             "(MSAL and msal-extensions)"))
              | Some open_cache => open_cache path ;; mret (factory, Some path)
              end
          end
      end
  end.

(** The device flow: [output] shows the provider's message. *)
Definition device_flow (client : msal_client) (scopes : list string) (output : string → M W unit) : M W pyval :=
  flow ← initiate_device_flow client scopes;
  raise_if (match flow with
            | PDict d => negb (truthy (dict_get "user_code" d) && truthy (dict_get "device_code" d))
            | _ => true
            end) (RuntimeError "Microsoft Entra did not return a valid device authorization flow") ;;
  match flow with
  | PDict d => match dict_get "message" d with
               | PStr message => if String.eqb message "" then mret tt else output message
               | _ => mret tt
               end
  | _ => mret tt
  end ;;
  result ← acquire_token_by_device_flow client flow;
  if token_result result then mret result
  else
    error ← lift_res (flow_error result);
    raise (RuntimeError ("Microsoft Entra device authorization failed: " +:+ error)).

Definition acquire_token (P : msal_packages) (c : EntraDeviceAuthorizationClient) (output : string → M W unit)
    (interactive : bool) : M W pyval :=
  fc ← client_factory P c;
  client ← fc.1 {| mp_client_id := eo_client_id (dc_config c);
                   mp_authority := "https://login.microsoftonline.com/" +:+ eo_tenant_id (dc_config c);
                   mp_token_cache := fc.2 |};
  accounts ← get_accounts client;
  silent ← match accounts with
           | account :: _ =>
               result ← acquire_token_silent client (dc_scopes c) account;
               mret (if token_result result then Some result else None)
           | [] => mret None
           end;
  match silent with
  | Some result => mret result
  | None => if interactive then device_flow client (dc_scopes c) output else mret (PDict [])
  end.
End Entra.
Arguments msal_client : clear implicits.
Arguments msal_packages : clear implicits.
Arguments EntraDeviceAuthorizationClient : clear implicits.

(** * Lemmas *)

Section EntraLemmas.
Context {W : Type}.
Implicit Types (P : msal_packages W) (c : EntraDeviceAuthorizationClient W) (w : W).

Lemma device_flow_token (client : msal_client W) scopes output w r w' :
  device_flow client scopes output w = (Ok r, w') → token_result r = true.
Proof.
  unfold device_flow. intros H. apply M_bind_ok in H as (flow & w1 & _ & H).
  apply M_bind_ok in H as ([] & w2 & _ & H). apply M_bind_ok in H as ([] & w3 & _ & H).
  apply M_bind_ok in H as (result & w4 & _ & H). destruct (token_result result) eqn:Ht.
  - by injection H as <- <-.
  - by apply M_bind_ok in H as (e & w5 & _ & H).
Qed.

(** A sign-in that returns has an access token; only without interaction it may
    have none. *)
Lemma acquire_token_result P c output interactive w r w' :
  acquire_token P c output interactive w = (Ok r, w') →
  token_result r = true ∨ (interactive = false ∧ r = PDict []).
Proof.
  unfold acquire_token. intros H. do 4 (apply M_bind_ok in H as (? & ? & ? & H)).
  match goal with H : (match ?x with [] => _ | _ :: _ => _ end) _ = (Ok ?o, _) |- _ =>
    assert (match o with Some r => token_result r = true | None => True end) as Hs end.
  { repeat case_match; simplify_eq; try done. inv_ok. by destruct (token_result _) eqn:?; simplify_eq. }
  match goal with _ : match ?o with Some _ => _ | None => True end |- _ => destruct o end.
  - injection H as <- <-. by left.
  - destruct interactive; [left; by eapply device_flow_token|]. injection H as <- <-. by right.
Qed.

(** An account of the cache whose token the client renews in silence ends the
    sign-in: no flow is started and nothing is shown. *)
Lemma cached_account_first P c output interactive w factory client account accounts result w1 w2 w3 w4 :
  client_factory P c w = (Ok factory, w1) →
  factory.1 {| mp_client_id := eo_client_id (dc_config c);
               mp_authority := "https://login.microsoftonline.com/" +:+ eo_tenant_id (dc_config c);
               mp_token_cache := factory.2 |} w1 = (Ok client, w2) →
  get_accounts client w2 = (Ok (account :: accounts), w3) →
  acquire_token_silent client (dc_scopes c) account w3 = (Ok result, w4) → token_result result = true →
  acquire_token P c output interactive w = (Ok result, w4).
Proof.
  intros H1 H2 H3 H4 Ht. unfold acquire_token, mbind, M_bind, mret, M_ret. by rewrite H1, H2, H3, H4, Ht.
Qed.
End EntraLemmas.

(** ** Witnesses: a client that counts its device flows *)

Definition toy_msal (accounts : list pyval) (silent : pyval) : msal_client nat :=
  {| get_accounts := mret accounts;
     acquire_token_silent := λ _ _, mret silent;
     initiate_device_flow := λ _, modify S ;; mret (PDict [("user_code", PStr "U"); ("device_code", PStr "D")]);
     acquire_token_by_device_flow := λ _, mret (PDict [("access_token", PStr "t")]) |}.

Definition toy_device (client : msal_client nat) : EntraDeviceAuthorizationClient nat :=
  {| dc_config := {| eo_tenant_id := "t"; eo_client_id := "c" |}; dc_scopes := ["s"];
     dc_factory := Some (λ _, mret client); dc_cache_path := None |}.

Definition no_packages : msal_packages nat := {| mk_msal := None; mk_extensions := None |}.

Lemma acquire_token_result_witness :
  acquire_token no_packages (toy_device (toy_msal [] PNone)) (λ _, mret tt) true 0%nat =
    (Ok (PDict [("access_token", PStr "t")]), 1%nat) ∧
  token_result (PDict [("access_token", PStr "t")]) = true.
Proof.
  split; [reflexivity|].
  destruct (acquire_token_result no_packages (toy_device (toy_msal [] PNone)) (λ _, mret tt) true 0%nat
    (PDict [("access_token", PStr "t")]) 1%nat eq_refl) as [H|[H _]]; [exact H|discriminate H].
Defined.

Lemma cached_account_first_witness :
  acquire_token no_packages (toy_device (toy_msal [PNone] (PDict [("access_token", PStr "cached")])))
    (λ _, mret tt) true 0%nat = (Ok (PDict [("access_token", PStr "cached")]), 0%nat).
Proof. eapply cached_account_first; reflexivity. Defined.
