(* ===== verification/IdentityStore.v ===== *)
(** auth/store.py: users, service principals, role assignments, identity events
    and consumed token identifiers, in SQLite and in PostgreSQL.

    A table is the list of its rows under the constraints of its schema.  Fresh
    identifiers and times are arguments; a time is ISO text in SQLite and a
    [timestamptz] in PostgreSQL, so the tables are generic in it.  A statement
    block that raises is rolled back.  In PostgreSQL the schema's migration has
    been applied, and what [jsonb] gives back and how psycopg shows a time are
    arguments; text is ordered by its bytes (the C collation), and failures of the
    connection are left out.

    The file shows which calls grant a role and in which tenant, that a token
    identifier is consumed once while it lasts, and that every change leaves
    its event. *)

From S2P Require Import Prelude PyFloat PyVal Json Sha256 Base64 Crypto Models Policy Rbac Orders Jobs JobsPostgres Trust Anchors Replay Storage Arbiter PolicyRegistry ReplayStore Mesh Issuer Engine SemVer Deployment Service Observability Platform Lines Worker Tokens.

(** ** Tables *)

Section Tables.
Context {T : Type}.

Record UserRow := {
  us_id : string;
  us_subject : string;
  us_tenant_id : string;
  us_email : option string;
  us_display_name : option string;
  us_created_at : T
}.

Record PrincipalRow := {
  pr_id : string;
  pr_client_id : string;
  pr_name : string;
  pr_tenant_id : string;
  pr_created_at : T
}.

Record AssignmentRow := {
  ra_id : string;
  ra_principal_id : string;
  ra_tenant_id : string;
  ra_role_id : string;
  ra_assigned_at : T;
  ra_assigned_by : string
}.

Record EventRow := {
  ev_id : string;
  ev_event_type : string;
  ev_principal_id : string;
  ev_details : string;   (** JSON text *)
  ev_timestamp : T
}.

Record IdentityTables := {
  it_users : list UserRow;
  it_principals : list PrincipalRow;
  it_assignments : list AssignmentRow;
  it_events : list EventRow
}.

Definition no_tables : IdentityTables :=
  {| it_users := []; it_principals := []; it_assignments := []; it_events := [] |}.

(** ** Statements *)

(** [BEGIN ... COMMIT], rolled back by an exception. *)
Definition transaction {S A} (m : M S A) : M S A :=
  λ s, match m s with (Raise e, _) => (Raise e, s) | r => r end.

(** A statement on one table. *)
Definition on_users (f : list UserRow → res (list UserRow)) : M IdentityTables unit :=
  t ← get_state; rows ← lift_res (f (it_users t));
  put_state {| it_users := rows; it_principals := it_principals t;
               it_assignments := it_assignments t; it_events := it_events t |}.
Definition on_principals (f : list PrincipalRow → res (list PrincipalRow)) : M IdentityTables unit :=
  t ← get_state; rows ← lift_res (f (it_principals t));
  put_state {| it_users := it_users t; it_principals := rows;
               it_assignments := it_assignments t; it_events := it_events t |}.
Definition on_assignments (f : list AssignmentRow → res (list AssignmentRow)) : M IdentityTables unit :=
  t ← get_state; rows ← lift_res (f (it_assignments t));
  put_state {| it_users := it_users t; it_principals := it_principals t;
               it_assignments := rows; it_events := it_events t |}.
Definition on_events (f : list EventRow → res (list EventRow)) : M IdentityTables unit :=
  t ← get_state; rows ← lift_res (f (it_events t));
  put_state {| it_users := it_users t; it_principals := it_principals t;
               it_assignments := it_assignments t; it_events := rows |}.

Definition same_user (r q : UserRow) : bool :=
  String.eqb (us_subject r) (us_subject q) && String.eqb (us_tenant_id r) (us_tenant_id q).
Definition same_principal (r q : PrincipalRow) : bool :=
  String.eqb (pr_client_id r) (pr_client_id q) && String.eqb (pr_tenant_id r) (pr_tenant_id q).
Definition same_assignment (r q : AssignmentRow) : bool :=
  String.eqb (ra_principal_id r) (ra_principal_id q) && String.eqb (ra_tenant_id r) (ra_tenant_id q) &&
  String.eqb (ra_role_id r) (ra_role_id q).

(** A new row under a primary key that must be free ([duplicate] otherwise). *)
Definition insert_new {R} (id : R → string) (duplicate : exn) (r : R) (rows : list R) : res (list R) :=
  fail_if (existsb (λ q, String.eqb (id q) (id r)) rows) duplicate ;; Ok (rows ++ [r]).

(** [INSERT INTO users ... ON CONFLICT(subject, tenant_id) DO UPDATE] *)
Definition upsert_user (duplicate : exn) (r : UserRow) (rows : list UserRow) : res (list UserRow) :=
  if existsb (same_user r) rows then
    Ok (map (λ q, if same_user r q then
                {| us_id := us_id q; us_subject := us_subject q; us_tenant_id := us_tenant_id q;
                   us_email := us_email r; us_display_name := us_display_name r;
                   us_created_at := us_created_at q |} else q) rows)
  else insert_new us_id duplicate r rows.

(** [INSERT INTO service_principals ... ON CONFLICT(client_id, tenant_id) DO UPDATE] *)
Definition upsert_principal (duplicate : exn) (r : PrincipalRow) (rows : list PrincipalRow)
    : res (list PrincipalRow) :=
  if existsb (same_principal r) rows then
    Ok (map (λ q, if same_principal r q then
                {| pr_id := pr_id q; pr_client_id := pr_client_id q; pr_name := pr_name r;
                   pr_tenant_id := pr_tenant_id r; pr_created_at := pr_created_at q |} else q) rows)
  else insert_new pr_id duplicate r rows.

(** [INSERT INTO role_assignments ... ON CONFLICT DO NOTHING] *)
Definition insert_assignment (duplicate : exn) (r : AssignmentRow) (rows : list AssignmentRow)
    : res (list AssignmentRow) :=
  if existsb (same_assignment r) rows then Ok rows else insert_new ra_id duplicate r rows.

(** ** Calls *)

(** The arguments of [record_authentication]. *)
Record Authentication := {
  au_subject : string;
  au_tenant : string;
  au_email : option string;
  au_display_name : option string;
  au_issuer : string;
  au_roles : list string;
  au_identity_source : string;
  au_service_principal : bool;
  au_client_id : option string
}.

Definition authentication_check (a : Authentication) : res unit :=
  fail_if (String.eqb (au_subject a) "" || String.eqb (au_tenant a) "" || String.eqb (au_issuer a) "" ||
           String.eqb (au_identity_source a) "")
    (ValueError "subject, tenant, issuer, and identity source are required").

Definition authentication_details (a : Authentication) : pydict :=
  [("subject", PStr (au_subject a)); ("tenant", PStr (au_tenant a));
   ("roles", of_strs (sort_strings (dedup (au_roles a))));
   ("identity_source", PStr (au_identity_source a)); ("issuer", PStr (au_issuer a));
   ("service_principal", PBool (au_service_principal a))].

(** [display_name or client_id] *)
Definition principal_name (a : Authentication) (client_id : string) : string :=
  if falsy_opt (au_display_name a) then client_id else default "" (au_display_name a).

(** The user's or the principal's row of an authentication. *)
Definition authenticate_row (duplicate : exn) (new_id : string) (now : T) (a : Authentication)
    : M IdentityTables unit :=
  if au_service_principal a then
    if falsy_opt (au_client_id a) then mret tt
    else let client_id := default "" (au_client_id a) in
         on_principals (upsert_principal duplicate
           {| pr_id := new_id; pr_client_id := client_id; pr_name := principal_name a client_id;
              pr_tenant_id := au_tenant a; pr_created_at := now |})
  else on_users (upsert_user duplicate
         {| us_id := new_id; us_subject := au_subject a; us_tenant_id := au_tenant a;
            us_email := au_email a; us_display_name := au_display_name a; us_created_at := now |}).

(** [Role(role).value] *)
Definition role_of_value (role : string) : option Role :=
  List.find (λ r, String.eqb (role_value r) role) all_roles.

Definition assignment_check (principal_id role assigned_by tenant : string) : res string :=
  fail_if (String.eqb principal_id "" || String.eqb assigned_by "" || String.eqb tenant "")
    (ValueError "principal_id, tenant, and assigned_by are required") ;;
  match role_of_value role with
  | Some r => Ok (role_value r)
  | None => Raise (ValueError ("unknown GAS role: " +:+ role))
  end.

Definition assignment_details (principal_id role_value assigned_by tenant : string) : pydict :=
  [("subject", PStr principal_id); ("tenant", PStr tenant); ("roles", of_strs [role_value]);
   ("identity_source", PStr "role_assignment"); ("assigned_by", PStr assigned_by)].

(** ** Readings *)

Definition assigned_to (principal_id tenant : string) (r : AssignmentRow) : bool :=
  String.eqb (ra_principal_id r) principal_id && String.eqb (ra_tenant_id r) tenant.

Definition roles_for (principal_id tenant : string) (t : IdentityTables) : list string :=
  map ra_role_id (sort_by ra_role_id (List.filter (assigned_to principal_id tenant) (it_assignments t))).

Context (T_leb : T → T → bool) (show : T → pyval).

(** [ORDER BY time, id] *)
Definition time_order : T * string → T * string → bool := pair_leb T_leb String.leb.

Definition role_assignments (t : IdentityTables) : list pydict :=
  map (λ r, [("id", PStr (ra_id r)); ("principal_id", PStr (ra_principal_id r));
             ("tenant", PStr (ra_tenant_id r)); ("role", PStr (ra_role_id r));
             ("assigned_at", show (ra_assigned_at r)); ("assigned_by", PStr (ra_assigned_by r))])
    (sort_leb (λ r, (ra_assigned_at r, ra_id r)) time_order (it_assignments t)).

Definition service_principals (t : IdentityTables) : list pydict :=
  map (λ r, [("id", PStr (pr_id r)); ("client_id", PStr (pr_client_id r)); ("name", PStr (pr_name r));
             ("tenant_id", PStr (pr_tenant_id r)); ("created_at", show (pr_created_at r))])
    (sort_leb (λ r, (pr_tenant_id r, pr_client_id r)) (pair_leb String.leb String.leb) (it_principals t)).

(** [read_details] is the value of the details column. *)
Definition identity_events (read_details : string → res pyval) (limit : Z) (t : IdentityTables)
    : res (list pydict) :=
  fail_if (negb ((1 <=? limit) && (limit <=? 1000))) (ValueError "limit must be between 1 and 1000") ;;
  mapM_res (λ r, details ← read_details (ev_details r);
                 Ok [("id", PStr (ev_id r)); ("event_type", PStr (ev_event_type r));
                     ("principal_id", PStr (ev_principal_id r)); ("details", details);
                     ("timestamp", show (ev_timestamp r))])
    (firstn (Z.to_nat limit)
       (rev (sort_leb (λ r, (ev_timestamp r, ev_id r)) time_order (it_events t)))).
End Tables.
#[global] Arguments IdentityTables : clear implicits.
#[global] Arguments UserRow : clear implicits.
#[global] Arguments PrincipalRow : clear implicits.
#[global] Arguments AssignmentRow : clear implicits.
#[global] Arguments EventRow : clear implicits.

(** ** SQLite *)

Definition UNIQUE_failed (column : string) : exn := IntegrityError ("UNIQUE constraint failed: " +:+ column).

Definition sqlite_event (event_id event_type principal_id : string) (details : pydict) (now : string)
    : M (IdentityTables string) unit :=
  text ← lift_res (json_dumps default_style (PDict details));
  on_events (insert_new ev_id (UNIQUE_failed "identity_events.id")
    {| ev_id := event_id; ev_event_type := event_type; ev_principal_id := principal_id;
       ev_details := text; ev_timestamp := now |}).

Definition sqlite_record_authentication (new_id event_id now : string) (a : Authentication)
    : M (IdentityTables string) unit :=
  lift_res (authentication_check a) ;;
  transaction
    (authenticate_row (UNIQUE_failed "id") new_id now a ;;
     sqlite_event event_id "authenticated" (au_subject a) (authentication_details a) now).

Definition sqlite_assign_role (assignment_id event_id now principal_id role assigned_by tenant : string)
    : M (IdentityTables string) unit :=
  value ← lift_res (assignment_check principal_id role assigned_by tenant);
  transaction
    (on_assignments (insert_assignment (UNIQUE_failed "role_assignments.id")
       {| ra_id := assignment_id; ra_principal_id := principal_id; ra_tenant_id := tenant;
          ra_role_id := value; ra_assigned_at := now; ra_assigned_by := assigned_by |}) ;;
     sqlite_event event_id "role_assigned" principal_id
       (assignment_details principal_id value assigned_by tenant) now).

Definition sqlite_role_assignments : IdentityTables string → list pydict := role_assignments String.leb PStr.
Definition sqlite_service_principals : IdentityTables string → list pydict := service_principals PStr.
Definition sqlite_identity_events : Z → IdentityTables string → res (list pydict) :=
  identity_events String.leb PStr json_loads.

(** [consumed_identity_tokens]; a NaN expiry is stored as NULL and refused. *)
Definition sqlite_consume_token (now : spec_float) (issuer audience jti : string) (expires_at : spec_float)
    : M (list replay_entry) unit :=
  let key := (issuer, audience, jti) in
  transaction
    (modify (List.filter (λ e : replay_entry, negb (float_leb e.2 now))) ;;
     rows ← get_state;
     raise_if (is_nan expires_at || existsb (λ e : replay_entry, entry_key_eqb e.1 key) rows)
       (IdentityTokenReplayError "JWT token replay detected") ;;
     put_state (rows ++ [(key, expires_at)])).

Definition sqlite_replay_store (now : spec_float) : JWTReplayStore (list replay_entry) :=
  {| jr_consume := sqlite_consume_token now |}.

(** ** PostgreSQL *)

Section Postgres.
Context `{J : Jsonb}.

Definition pg_unique : exn := OtherError "psycopg.errors.UniqueViolation" "".

(** The parameters of a statement hold no NUL. *)
Definition pg_params (l : list string) : M (IdentityTables Z) unit :=
  raise_if (negb (forallb pg_text l)) psycopg_error.

Definition opt_list (v : option string) : list string := match v with Some s => [s] | None => [] end.

Definition pg_event (event_id event_type principal_id details : string) (now : Z)
    : M (IdentityTables Z) unit :=
  pg_params [principal_id; details] ;;
  match jsonb_text details with
  | None => raise psycopg_error
  | Some stored =>
      on_events (insert_new ev_id pg_unique
        {| ev_id := event_id; ev_event_type := event_type; ev_principal_id := principal_id;
           ev_details := stored; ev_timestamp := now |})
  end.

(** The parameters of the first statement of [record_authentication]. *)
Definition authentication_params (a : Authentication) : list string :=
  if au_service_principal a then
    if falsy_opt (au_client_id a) then []
    else let c := default "" (au_client_id a) in [c; principal_name a c; au_tenant a]
  else [au_subject a; au_tenant a] ++ opt_list (au_email a) ++ opt_list (au_display_name a).

Definition pg_record_authentication (new_id event_id : string) (now : Z) (a : Authentication)
    : M (IdentityTables Z) unit :=
  lift_res (authentication_check a) ;;
  details ← lift_res (json_dumps default_style (PDict (authentication_details a)));
  transaction
    (pg_params (authentication_params a) ;;
     authenticate_row pg_unique new_id now a ;;
     pg_event event_id "authenticated" (au_subject a) details now).

Definition pg_assign_role (assignment_id event_id : string) (now : Z)
    (principal_id role assigned_by tenant : string) : M (IdentityTables Z) unit :=
  value ← lift_res (assignment_check principal_id role assigned_by tenant);
  details ← lift_res (json_dumps default_style (PDict (assignment_details principal_id value assigned_by tenant)));
  transaction
    (pg_params [principal_id; tenant; value; assigned_by] ;;
     on_assignments (insert_assignment pg_unique
       {| ra_id := assignment_id; ra_principal_id := principal_id; ra_tenant_id := tenant;
          ra_role_id := value; ra_assigned_at := now; ra_assigned_by := assigned_by |}) ;;
     pg_event event_id "role_assigned" principal_id details now).

Definition pg_roles_for (principal_id tenant : string) (t : IdentityTables Z) : res (list string) :=
  fail_if (negb (pg_text principal_id && pg_text tenant)) psycopg_error ;;
  Ok (roles_for principal_id tenant t).

(** psycopg gives a time as a [datetime] object, [repr] is its representation;
    [read_details] is its value of the [jsonb] column, which the code parses
    when it is text. *)
Definition pg_role_assignments (repr : Z → string) : IdentityTables Z → list pydict :=
  role_assignments Z.leb (λ t, PObj (repr t)).
Definition pg_service_principals (repr : Z → string) : IdentityTables Z → list pydict :=
  service_principals (λ t, PObj (repr t)).
Definition pg_identity_events (repr : Z → string) (read_details : string → pyval) (limit : Z)
    (t : IdentityTables Z) : res (list pydict) :=
  identity_events Z.leb (λ t, PObj (repr t))
    (λ text, match read_details text with PStr s => json_loads s | v => Ok v end) limit t.

(** Rows of the token table, with the expiry as a server time; [to_timestamp]
    is the server's conversion, [None] for a value out of its range. *)
Definition pg_consume_token (to_timestamp : spec_float → option Z) (now : Z)
    (issuer audience jti : string) (expires_at : spec_float)
    : M (list ((string * string * string) * Z)) unit :=
  let key := (issuer, audience, jti) in
  let unavailable := IdentityStoreError "JWT replay store is unavailable" in
  transaction
    (modify (List.filter (λ e, negb (e.2 <=? now))) ;;
     rows ← get_state;
     match to_timestamp expires_at with
     | Some expires =>
         raise_if (negb (forallb pg_text [issuer; audience; jti])) unavailable ;;
         raise_if (existsb (λ e, entry_key_eqb e.1 key) rows)
           (IdentityTokenReplayError "JWT token replay detected") ;;
         put_state (rows ++ [(key, expires)])
     | None => raise unavailable
     end).
End Postgres.

(** [ROLE_DESCRIPTIONS], the rows of the table [roles]. *)
Definition ROLE_DESCRIPTIONS : list (string * string) :=
  [(role_value PLATFORM_ADMIN, "Full platform administration");
   (role_value POLICY_ADMIN, "Create and manage governance policies");
   (role_value OPERATOR, "Submit governed operations");
   (role_value AUDITOR, "Read audit evidence");
   (role_value APPROVER, "Approve governed policy changes");
   (role_value SERVICE_PRINCIPAL, "Authenticated non-human principal")].

(** * The contract of the two stores *)

Class IdentityStore (T : Type) := {
  is_record : string → string → T → Authentication → M (IdentityTables T) unit;
  is_assign : string → string → T → string → string → string → string → M (IdentityTables T) unit;
  is_roles_for : string → string → IdentityTables T → res (list string);
  is_role_assignments : IdentityTables T → list pydict;
  is_service_principals : IdentityTables T → list pydict;
  is_identity_events : Z → IdentityTables T → res (list pydict)
}.

(** A call that raises changes nothing; one that returns leaves one event, and
    only [assign] touches the assignments. *)
Class IdentityStoreLaws (T : Type) `{IdentityStore T} : Prop := {
  is_record_ok : ∀ new_id event_id now a t t', is_record new_id event_id now a t = (Ok tt, t') →
    it_assignments t' = it_assignments t ∧
    ∃ ev, it_events t' = it_events t ++ [ev] ∧ ev_event_type ev = "authenticated" ∧
          ev_principal_id ev = au_subject a;
  is_assign_ok : ∀ aid event_id now p role by_ tenant t t',
    is_assign aid event_id now p role by_ tenant t = (Ok tt, t') →
    (∃ r, role = role_value r) ∧
    (∃ row duplicate, ra_principal_id row = p ∧ ra_tenant_id row = tenant ∧ ra_role_id row = role ∧
       ra_assigned_by row = by_ ∧
       insert_assignment duplicate row (it_assignments t) = Ok (it_assignments t')) ∧
    ∃ ev, it_events t' = it_events t ++ [ev] ∧ ev_event_type ev = "role_assigned" ∧
          ev_principal_id ev = p;
  is_record_raise : ∀ new_id event_id now a t e t',
    is_record new_id event_id now a t = (Raise e, t') → t' = t;
  is_assign_raise : ∀ aid event_id now p role by_ tenant t e t',
    is_assign aid event_id now p role by_ tenant t = (Raise e, t') → t' = t;
  is_roles_ok : ∀ p tenant t roles, is_roles_for p tenant t = Ok roles → roles = roles_for p tenant t
}.

#[export] Instance sqlite_identity_store : IdentityStore string :=
  {| is_record := sqlite_record_authentication; is_assign := sqlite_assign_role;
     is_roles_for := λ p tenant t, Ok (roles_for p tenant t);
     is_role_assignments := sqlite_role_assignments; is_service_principals := sqlite_service_principals;
     is_identity_events := sqlite_identity_events |}.
#[export] Instance pg_identity_store `{J : Jsonb} (repr : Z → string) (read_details : string → pyval)
    : IdentityStore Z | 10 :=
  {| is_record := pg_record_authentication; is_assign := pg_assign_role; is_roles_for := pg_roles_for;
     is_role_assignments := pg_role_assignments repr; is_service_principals := pg_service_principals repr;
     is_identity_events := pg_identity_events repr read_details |}.

(** * Lemmas *)

Lemma transaction_ok {S A} (m : M S A) s x s' : transaction m s = (Ok x, s') ↔ m s = (Ok x, s').
Proof. unfold transaction. destruct (m s) as [[y|e] s1]; naive_solver. Qed.

Lemma transaction_raise {S A} (m : M S A) s e s' : transaction m s = (Raise e, s') → s' = s.
Proof. unfold transaction. destruct (m s) as [[y|e'] s1]; naive_solver. Qed.

Lemma role_of_value_ok role r : role_of_value role = Some r → role = role_value r.
Proof. intros [_ H]%List.find_some. by apply String.eqb_eq in H. Qed.

Lemma assignment_check_ok p role by_ tenant v :
  assignment_check p role by_ tenant = Ok v → (∃ r, role = role_value r) ∧ v = role.
Proof.
  unfold assignment_check. intros H. inv_bind. destruct (role_of_value role) as [r|] eqn:Hr; [|done].
  apply role_of_value_ok in Hr. injection H as <-. eauto.
Qed.

Section OnTables.
Context {T : Type}.
Implicit Types t : IdentityTables T.

Lemma insert_new_ok {R} (id : R → string) dup r rows rows' :
  insert_new id dup r rows = Ok rows' → rows' = rows ++ [r] ∧ ∀ q, q ∈ rows → id q ≠ id r.
Proof.
  unfold insert_new. intros H. inv_bind. split; [done|]. intros q Hq Heq.
  assert (existsb (λ q, String.eqb (id q) (id r)) rows = true) as He; [|congruence].
  apply existsb_exists. exists q. by rewrite Heq, String.eqb_refl, <-list_elem_of_In.
Qed.

Lemma authenticate_row_ok dup new_id now a t t' :
  authenticate_row dup new_id now a t = (Ok tt, t') →
  it_assignments t' = it_assignments t ∧ it_events t' = it_events t.
Proof.
  unfold authenticate_row, on_principals, on_users. intros H.
  destruct (au_service_principal a); [destruct (falsy_opt _)|]; inv_bind; done.
Qed.

Lemma on_events_ok dup ev t t' :
  on_events (insert_new ev_id dup ev) t = (Ok tt, t') →
  it_assignments t' = it_assignments t ∧ it_events t' = it_events t ++ [ev].
Proof.
  unfold on_events. intros H. inv_bind. cbn.
  match goal with H : insert_new _ _ _ _ = Ok _ |- _ => by apply insert_new_ok in H as [-> _] end.
Qed.

Lemma on_assignments_ok f t t' :
  on_assignments f t = (Ok tt, t') → f (it_assignments t) = Ok (it_assignments t') ∧ it_events t' = it_events t.
Proof. unfold on_assignments. intros H. inv_bind. done. Qed.
End OnTables.

#[export] Instance sqlite_identity_laws : IdentityStoreLaws string.
Proof.
  split; cbn [is_record is_assign is_roles_for sqlite_identity_store].
  - unfold sqlite_record_authentication, sqlite_event. intros * H.
    apply M_bind_ok in H as ([] & s0 & [_ ->]%lift_res_ok & H). apply (proj1 (transaction_ok _ _ _ _)) in H.
    apply M_bind_ok in H as ([] & s1 & [Ha He]%authenticate_row_ok & H).
    apply M_bind_ok in H as (text & s2 & [_ ->]%lift_res_ok & H).
    apply on_events_ok in H as [Ha' He']. rewrite Ha', He', Ha, He. split; [done|by eexists].
  - unfold sqlite_assign_role, sqlite_event. intros * H.
    apply M_bind_ok in H as (v & s0 & [Hv ->]%lift_res_ok & H).
    apply assignment_check_ok in Hv as [Hr ->]. apply (proj1 (transaction_ok _ _ _ _)) in H.
    apply M_bind_ok in H as ([] & s1 & [Ha He]%on_assignments_ok & H).
    apply M_bind_ok in H as (text & s2 & [_ ->]%lift_res_ok & H).
    apply on_events_ok in H as [Ha' He']. split; [done|]. rewrite Ha', He', He.
    split; [eexists _, _; split_and!; [..|exact Ha]; done|by eexists].
  - unfold sqlite_record_authentication. intros * H. rewrite M_bind_run in H. unfold lift_res in H.
    destruct (authentication_check a); [by apply transaction_raise in H|by injection H].
  - unfold sqlite_assign_role. intros * H. rewrite M_bind_run in H. unfold lift_res in H.
    destruct (assignment_check _ _ _ _); [by apply transaction_raise in H|by injection H].
  - by intros * [= <-].
Qed.

Lemma pg_event_ok `{J : Jsonb} event_id event_type p details now t t' :
  pg_event event_id event_type p details now t = (Ok tt, t') →
  it_assignments t' = it_assignments t ∧
  ∃ ev, it_events t' = it_events t ++ [ev] ∧ ev_event_type ev = event_type ∧ ev_principal_id ev = p.
Proof.
  unfold pg_event, pg_params. intros H. apply M_bind_ok in H as ([] & s0 & [_ ->]%raise_if_ok & H).
  destruct (jsonb_text details); [|done]. apply on_events_ok in H as [-> ->].
  split; [done|]. by eexists.
Qed.

#[export] Instance pg_identity_laws `{J : Jsonb} repr read_details :
  IdentityStoreLaws Z (H := pg_identity_store repr read_details).
Proof.
  split; cbn [is_record is_assign is_roles_for pg_identity_store].
  - unfold pg_record_authentication, pg_params. intros * H.
    apply M_bind_ok in H as ([] & s0 & [_ ->]%lift_res_ok & H).
    apply M_bind_ok in H as (text & s1 & [_ ->]%lift_res_ok & H). apply (proj1 (transaction_ok _ _ _ _)) in H.
    apply M_bind_ok in H as ([] & s2 & [_ ->]%raise_if_ok & H).
    apply M_bind_ok in H as ([] & s3 & [Ha He]%authenticate_row_ok & H).
    apply pg_event_ok in H as (Ha' & ev & He' & Hev). rewrite Ha', He', Ha, He. eauto.
  - unfold pg_assign_role, pg_params. intros * H.
    apply M_bind_ok in H as (v & s0 & [Hv ->]%lift_res_ok & H).
    apply assignment_check_ok in Hv as [Hr ->].
    apply M_bind_ok in H as (text & s1 & [_ ->]%lift_res_ok & H). apply (proj1 (transaction_ok _ _ _ _)) in H.
    apply M_bind_ok in H as ([] & s2 & [_ ->]%raise_if_ok & H).
    apply M_bind_ok in H as ([] & s3 & [Ha He]%on_assignments_ok & H).
    apply pg_event_ok in H as (Ha' & ev & He' & Hev). split; [done|]. rewrite Ha', He', He.
    split; [eexists _, _; split_and!; [..|exact Ha]; done|by eexists].
  - unfold pg_record_authentication. intros * H. rewrite !M_bind_run in H. unfold lift_res in H.
    destruct (authentication_check a); [|by injection H]. rewrite M_bind_run in H.
    destruct (json_dumps _ _); [by apply transaction_raise in H|by injection H].
  - unfold pg_assign_role. intros * H. rewrite !M_bind_run in H. unfold lift_res in H.
    destruct (assignment_check _ _ _ _); [|by injection H]. rewrite M_bind_run in H.
    destruct (json_dumps _ _); [by apply transaction_raise in H|by injection H].
  - intros p tenant t roles. unfold pg_roles_for, fail_if. destruct (negb _); cbn; congruence.
Qed.

(** With PostgreSQL, the listing of any assignment has no JSON. *)
Lemma pg_role_assignments_not_json repr (t : IdentityTables Z) :
  it_assignments t ≠ [] →
  json_dumps default_style (PDict [("assignments", PList (map PDict (pg_role_assignments repr t)))]) =
    Raise (TypeError "Object is not JSON serializable").
Proof.
  intros Hne. unfold json_dumps. cbn [serializable forallb snd]. rewrite andb_true_r.
  destruct (forallb serializable _) eqn:Hs; [|done]. exfalso.
  unfold pg_role_assignments, role_assignments in Hs.
  match type of Hs with context [sort_leb ?k ?o ?l] => pose proof (sort_leb_perm k o l) as Hp;
    destruct (sort_leb k o l) as [|r rs] end.
  - by apply Permutation_nil in Hp.
  - cbn in Hs. done.
Qed.

(** * Histories *)

Inductive identity_call (T : Type) :=
| IdRecord (new_id event_id : string) (now : T) (a : Authentication)
| IdAssign (assignment_id event_id : string) (now : T) (principal_id role assigned_by tenant : string).
Arguments IdRecord {T} _ _ _ _.
Arguments IdAssign {T} _ _ _ _ _ _ _.

(** The tables, the grants made so far and the number of calls that returned. *)
Record identity_history (T : Type) := {
  ih_tables : IdentityTables T;
  ih_granted : list (string * string * string);
  ih_returned : nat
}.
Arguments ih_tables {T} _.
Arguments ih_granted {T} _.
Arguments ih_returned {T} _.

Definition identity_start {T} : identity_history T :=
  {| ih_tables := no_tables; ih_granted := []; ih_returned := 0 |}.

Definition identity_run {T} `{IdentityStore T} (h : identity_history T) (c : identity_call T)
    : identity_history T :=
  match c with
  | IdRecord new_id event_id now a =>
      let '(r, t) := is_record new_id event_id now a (ih_tables h) in
      {| ih_tables := t; ih_granted := ih_granted h;
         ih_returned := match r with Ok _ => S (ih_returned h) | Raise _ => ih_returned h end |}
  | IdAssign aid event_id now p role by_ tenant =>
      let '(r, t) := is_assign aid event_id now p role by_ tenant (ih_tables h) in
      {| ih_tables := t;
         ih_granted := match r with Ok _ => ih_granted h ++ [(p, tenant, role)] | Raise _ => ih_granted h end;
         ih_returned := match r with Ok _ => S (ih_returned h) | Raise _ => ih_returned h end |}
  end.

Definition assignment_key {T} (r : AssignmentRow T) : string * string * string :=
  (ra_principal_id r, ra_tenant_id r, ra_role_id r).

Record identity_inv {T} (h : identity_history T) : Prop := {
  ii_keys : NoDup (map assignment_key (it_assignments (ih_tables h)));
  ii_granted : ∀ k, k ∈ map assignment_key (it_assignments (ih_tables h)) ↔ k ∈ ih_granted h;
  ii_roles : ∀ k, k ∈ ih_granted h → ∃ r, k.2 = role_value r;
  ii_events : length (it_events (ih_tables h)) = ih_returned h
}.

Section IdentityHistory.
Context {T : Type} `{LI : IdentityStoreLaws T}.
Implicit Types h : identity_history T.

Lemma same_assignment_key (r q : AssignmentRow T) :
  same_assignment r q = true ↔ assignment_key r = assignment_key q.
Proof.
  unfold same_assignment, assignment_key. rewrite !andb_true_iff, !String.eqb_eq. split; [by intros [[-> ->] ->]|by intros [= -> -> ->]].
Qed.

(** The keys after an insertion: a repeated grant changes nothing. *)
Lemma insert_assignment_keys dup (r : AssignmentRow T) rows rows' :
  NoDup (map assignment_key rows) → insert_assignment dup r rows = Ok rows' →
  NoDup (map assignment_key rows') ∧
  ∀ k, k ∈ map assignment_key rows' ↔ k ∈ map assignment_key rows ∨ k = assignment_key r.
Proof.
  intros Hn. unfold insert_assignment. destruct (existsb (same_assignment r) rows) eqn:He.
  - intros [= <-]. split; [done|]. intros k. split; [by left|]. intros [?| ->]; [done|].
    apply existsb_exists in He as (q & Hq%list_elem_of_In & ->%same_assignment_key).
    by apply list_elem_of_fmap_2.
  - intros [-> _]%insert_new_ok. rewrite map_app. cbn [map]. split.
    + apply NoDup_app. split; [done|]. split; [|apply NoDup_singleton].
      intros k (q & -> & Hq)%list_elem_of_fmap Heq%list_elem_of_singleton.
      assert (existsb (same_assignment r) rows = true) as Ht; [|congruence].
      apply existsb_exists. exists q. by rewrite <-list_elem_of_In, same_assignment_key.
    + intros k. rewrite elem_of_app, list_elem_of_singleton. done.
Qed.

Lemma identity_run_inv h c : identity_inv h → identity_inv (identity_run h c).
Proof.
  intros [Hk Hg Hr He]. destruct c as [new_id event_id now a|aid event_id now p role by_ tenant];
    cbn [identity_run].
  - destruct (is_record _ _ _ _ _) as [[[]|e] t] eqn:H'.
    + apply is_record_ok in H' as (Ha & ev & Hev & _). split; cbn; rewrite ?Ha, ?Hev; try done.
      rewrite length_app, He. cbn. lia.
    + apply is_record_raise in H' as ->. by split.
  - destruct (is_assign _ _ _ _ _ _ _ _) as [[[]|e] t] eqn:H'.
    + apply is_assign_ok in H' as (Hrole & (row & dup & Hp & Ht & Hro & _ & Hins) & ev & Hev & _).
      apply insert_assignment_keys in Hins as [Hn' Hk']; [|done].
      assert (assignment_key row = (p, tenant, role)) as Hkey by (unfold assignment_key; congruence).
      split; cbn; [done| | |].
      * intros k. rewrite Hk', Hg, elem_of_app, list_elem_of_singleton, Hkey. done.
      * intros k [Hin| ->%list_elem_of_singleton]%elem_of_app; [by apply Hr|done].
      * rewrite Hev, length_app, He. cbn. lia.
    + apply is_assign_raise in H' as ->. by split.
Qed.

Lemma identity_runs_inv calls h : identity_inv h → identity_inv (fold_left identity_run calls h).
Proof. revert h. induction calls as [|c calls IH]; intros h Hi; [done|]. by apply IH, identity_run_inv. Qed.

Lemma identity_start_inv : identity_inv (T := T) identity_start.
Proof. split; cbn; [constructor|done|by intros k ?%not_elem_of_nil|done]. Qed.

Lemma roles_for_spec h p tenant : identity_inv h →
  NoDup (roles_for p tenant (ih_tables h)) ∧
  ∀ r, r ∈ roles_for p tenant (ih_tables h) ↔ (p, tenant, r) ∈ ih_granted h.
Proof.
  intros [Hk Hg _ _]. unfold roles_for.
  set (rows := List.filter (assigned_to p tenant) (it_assignments (ih_tables h))).
  assert (map ra_role_id (sort_by ra_role_id rows) ≡ₚ map ra_role_id rows) as Hperm
    by (apply Permutation_map, sort_by_Permutation).
  assert (∀ row : AssignmentRow T, assigned_to p tenant row = true ↔ assignment_key row = (p, tenant, ra_role_id row)) as Hto.
  { intros row. unfold assigned_to, assignment_key. rewrite andb_true_iff, !String.eqb_eq.
    split; [by intros [-> ->]|intros Heq; split; congruence]. }
  split.
  - rewrite Hperm. revert Hk. subst rows. clear Hperm Hg.
    induction (it_assignments (ih_tables h)) as [|row l IH]; cbn; [constructor|].
    intros [Hnin Hn]%NoDup_cons. destruct (assigned_to p tenant row) eqn:E; [|by apply IH].
    cbn. apply NoDup_cons. split; [|by apply IH]. intros (q & Hq & Hin)%list_elem_of_fmap.
    apply list_elem_of_In, filter_In in Hin as [Hin Hq']. apply Hnin.
    apply Hto in E. apply Hto in Hq'. apply list_elem_of_fmap. exists q.
    split; [by rewrite E, Hq', Hq|by apply list_elem_of_In].
  - intros r. rewrite Hperm, <-Hg, !list_elem_of_fmap. subst rows. split.
    + intros (row & -> & Hin). apply list_elem_of_In, filter_In in Hin as [Hin E%Hto].
      exists row. split; [done|by apply list_elem_of_In].
    + intros (row & Heq & Hin). exists row.
      assert (ra_role_id row = r) as <- by (unfold assignment_key in Heq; congruence).
      split; [done|]. apply list_elem_of_In, filter_In. split; [by apply list_elem_of_In|].
      by apply Hto.
Qed.
End IdentityHistory.

(** ** Consumed tokens *)

Lemma sqlite_consume_ok now issuer audience jti e rows rows' :
  sqlite_consume_token now issuer audience jti e rows = (Ok tt, rows') →
  let live := List.filter (λ x : replay_entry, negb (float_leb x.2 now)) rows in
  rows' = live ++ [((issuer, audience, jti), e)] ∧
  ∀ x, x ∈ live → x.1 ≠ (issuer, audience, jti).
Proof.
  unfold sqlite_consume_token. intros H. apply (proj1 (transaction_ok _ _ _ _)) in H.
  unfold mbind, M_bind, modify, get_state, raise_if, put_state in H.
  destruct (is_nan e || _) eqn:He; [done|]. injection H as <-. apply orb_false_iff in He as [_ He].
  split; [done|]. intros x Hx Heq.
  assert (existsb (λ y : replay_entry, entry_key_eqb y.1 (issuer, audience, jti))
    (List.filter (λ x : replay_entry, negb (float_leb x.2 now)) rows) = true) as Ht; [|congruence].
  apply existsb_exists. exists x. split; [by apply list_elem_of_In|by apply entry_key_eqb_eq].
Qed.

Lemma sqlite_consume_keeps now issuer audience jti e rows x :
  x ∈ rows → float_leb x.2 now = false →
  x ∈ (sqlite_consume_token now issuer audience jti e rows).2.
Proof.
  intros Hin Hlt. unfold sqlite_consume_token, transaction, mbind, M_bind, modify, get_state, raise_if, put_state.
  destruct (is_nan e || _); [done|]. cbn. apply elem_of_app. left.
  apply list_elem_of_In, filter_In. rewrite <-list_elem_of_In. by rewrite Hlt.
Qed.

(** A consumed identifier is refused while it lasts, whatever else is consumed. *)
Lemma sqlite_token_once now1 now2 issuer audience jti e e2 rows rows1 (calls : list consume_call) :
  sqlite_consume_token now1 issuer audience jti e rows = (Ok tt, rows1) →
  Forall (λ k, float_leb (cc_now k) now2 = true) calls → float_leb e now2 = false → is_nan e = false →
  let rows2 := fold_left (λ t k, (sqlite_consume_token (cc_now k) (cc_issuer k)
                 (join "|" (cc_audience k)) (cc_jti k) (cc_expires k) t).2) calls rows1 in
  ∃ er, (sqlite_consume_token now2 issuer audience jti e2 rows2).1 = Raise er.
Proof.
  intros [Hrows _]%sqlite_consume_ok Hcalls He Hnan rows2.
  assert (((issuer, audience, jti), e) ∈ rows1) as Hin by (rewrite Hrows; set_solver).
  assert (((issuer, audience, jti), e) ∈ rows2) as Hin2.
  { subst rows2. clear Hrows. revert rows1 Hin. induction Hcalls as [|k calls Hk Hcalls IH]; intros rows1 Hin; [done|].
    cbn [fold_left]. apply IH. apply sqlite_consume_keeps; [done|]. cbn.
    apply not_true_is_false. intros Hx. destruct (float_leb_not_nan _ _ Hk) as [Hn1 Hn2].
    rewrite <-float_rank_leb in He, Hk, Hx by done. by rewrite (leb_trans _ _ _ Hx Hk) in He. }
  destruct (sqlite_consume_token now2 issuer audience jti e2 rows2) as [[[]|er] rows3] eqn:H2; [|by exists er].
  apply sqlite_consume_ok in H2 as [_ Hfresh]. exfalso. refine (Hfresh ((issuer, audience, jti), e) _ eq_refl).
  apply list_elem_of_In, filter_In. split; [by apply list_elem_of_In|]. cbn. by rewrite He.
Qed.

(** * Properties *)

(** C11. Roles come from explicit assignments only: in any history of calls on
    either store, an identity holds exactly the roles that returned
    [assign_role] calls granted to this principal in this tenant, each once and
    each a role of the program; authentications, whatever roles they claim,
    grant none.  Every call that returned left one event. *)
Theorem identity_roles_granted {T} `{LI : IdentityStoreLaws T} (calls : list (identity_call T))
    (principal tenant : string) :
  let h := fold_left identity_run calls identity_start in
  NoDup (roles_for principal tenant (ih_tables h)) ∧
  (∀ r, r ∈ roles_for principal tenant (ih_tables h) ↔ (principal, tenant, r) ∈ ih_granted h) ∧
  (∀ r, r ∈ roles_for principal tenant (ih_tables h) → ∃ role, r = role_value role) ∧
  length (it_events (ih_tables h)) = ih_returned h.
Proof.
  intros h. assert (identity_inv h) as Hi by apply identity_runs_inv, identity_start_inv.
  destruct (roles_for_spec h principal tenant Hi) as [Hn Hr]. split_and!; try done.
  - intros r Hin%Hr. by apply (ii_roles h Hi) in Hin.
  - apply (ii_events h Hi).
Qed.

(** An authentication that claims a role, an assignment in another tenant, a
    repeated one and an unknown role. *)
Definition identity_example : list (identity_call string) :=
  [IdRecord "u1" "e1" "t1" {| au_subject := "alice"; au_tenant := "acme"; au_email := None;
      au_display_name := None; au_issuer := "idp"; au_roles := ["platform_admin"];
      au_identity_source := "oidc"; au_service_principal := false; au_client_id := None |};
   IdAssign "a1" "e2" "t2" "alice" "auditor" "root" "other";
   IdAssign "a2" "e3" "t3" "alice" "operator" "root" "acme";
   IdAssign "a3" "e4" "t4" "alice" "operator" "root" "acme";
   IdAssign "a4" "e5" "t5" "alice" "emperor" "root" "acme"].

Example identity_roles_granted_witness :
  let h := fold_left identity_run identity_example identity_start in
  (roles_for "alice" "acme" (ih_tables h) = ["operator"] ∧ ih_returned h = 4%nat) ∧
  NoDup (roles_for "alice" "acme" (ih_tables h)) ∧
  (∀ r, r ∈ roles_for "alice" "acme" (ih_tables h) ↔ ("alice", "acme", r) ∈ ih_granted h) ∧
  (∀ r, r ∈ roles_for "alice" "acme" (ih_tables h) → ∃ role, r = role_value role) ∧
  length (it_events (ih_tables h)) = ih_returned h.
Proof. split; [vm_compute; done|]. exact (identity_roles_granted identity_example "alice" "acme"). Defined.
