(* ===== verification/HttpSessions.v ===== *)
(** http_api.py: browser sessions of the OIDC sign-in.  [_OIDCSessionStore]
    keeps one-time login states and sessions in memory, within a bound, or in a
    repository shared by several servers; [PostgresOIDCSessionRepository] is
    that repository.

    Random tokens and the clock are arguments.  In PostgreSQL the tables exist,
    the server's [to_timestamp] and [jsonb] are parameters, and failures of the
    connection are left out.  The file shows that the store stays within its
    bound, that a login state is used once, and which identity a session
    gives. *)

From S2P Require Import Prelude PyFloat PyVal Json Sha256 Base64 Crypto Models Policy Rbac Orders SemVer PyText Jobs JobsPostgres Trust Anchors Replay Storage Arbiter PolicyRegistry ReplayStore Mesh Issuer Engine Deployment Service Observability Platform Lines Worker Tokens IdentityStore.

Definition LOGIN_STATE_TTL_SECONDS : Z := 600.
Definition MAX_BROWSER_SESSION_SECONDS : Z := 8 * 60 * 60.

Record PendingOIDCLogin := {
  pl_nonce : string;
  pl_code_verifier : string;
  pl_expires_at : spec_float;
  pl_next_path : string
}.

Record BrowserSession := { bs_identity : RuntimeIdentity; bs_expires_at : spec_float }.

(** The protocol [OIDCSessionRepository]. *)
Class OIDCSessionRepository (R : Type) := {
  or_save_pending : string → PendingOIDCLogin → M R unit;
  or_consume_pending : string → spec_float → M R (option PendingOIDCLogin);
  or_save_session : string → BrowserSession → M R unit;
  or_get_session : string → spec_float → M R (option BrowserSession);
  or_revoke_session : string → M R unit
}.

Definition session_key (session_token : string) : string := sha256_hex session_token.

(** ** The store *)

Section Store.
Context {R : Type} `{OIDCSessionRepository R}.

Record OIDCSessionStore := {
  st_max_entries : Z;
  st_pending : list (string * PendingOIDCLogin);
  st_sessions : list (string * BrowserSession);
  st_repository : option R
}.

Definition session_store_init (max_entries : Z) (repository : option R) : OIDCSessionStore :=
  {| st_max_entries := max_entries; st_pending := []; st_sessions := []; st_repository := repository |}.

Definition set_pending (p : list (string * PendingOIDCLogin)) (s : OIDCSessionStore) : OIDCSessionStore :=
  {| st_max_entries := st_max_entries s; st_pending := p; st_sessions := st_sessions s;
     st_repository := st_repository s |}.
Definition set_sessions (b : list (string * BrowserSession)) (s : OIDCSessionStore) : OIDCSessionStore :=
  {| st_max_entries := st_max_entries s; st_pending := st_pending s; st_sessions := b;
     st_repository := st_repository s |}.

(** [self._repository.m(...)] when there is a repository, [local] otherwise. *)
Definition with_repository {A} (m : M R A) (local : M OIDCSessionStore A) : M OIDCSessionStore A :=
  λ s, match st_repository s with
       | Some r => let '(x, r') := m r in
                   (x, {| st_max_entries := st_max_entries s; st_pending := st_pending s;
                          st_sessions := st_sessions s; st_repository := Some r' |})
       | None => local s
       end.

(** What [_prune] leaves. *)
Definition pruned (now : spec_float) (s : OIDCSessionStore) : OIDCSessionStore :=
  set_sessions (List.filter (λ kv : string * BrowserSession, float_ltb now (bs_expires_at kv.2)) (st_sessions s))
    (set_pending (List.filter (λ kv : string * PendingOIDCLogin, float_ltb now (pl_expires_at kv.2))
       (st_pending s)) s).
Definition prune (now : spec_float) : M OIDCSessionStore unit := modify (pruned now).

Definition capacity_exhausted (s : OIDCSessionStore) : bool :=
  st_max_entries s <=? Z.of_nat (length (st_pending s)) + Z.of_nat (length (st_sessions s)).

(** The PKCE challenge of a verifier. *)
Definition pkce_challenge (verifier : string) : string :=
  drop_sub "=" (concat_map (λ c, if Ascii.eqb c "+" then "-" else if Ascii.eqb c "/" then "_" else String c "")
    (b64encode (sha256_bytes verifier))).

(** [state], [nonce] and [verifier] are [secrets.token_urlsafe]. *)
Definition begin_login (now : spec_float) (state nonce verifier next_path : string)
    : M OIDCSessionStore (string * string * string) :=
  prune now ;;
  s ← get_state;
  raise_if (capacity_exhausted s) (jwt_error "OIDC session capacity is exhausted") ;;
  let pending := {| pl_nonce := nonce; pl_code_verifier := verifier;
                    pl_expires_at := float_add now (float_of_Z LOGIN_STATE_TTL_SECONDS);
                    pl_next_path := next_path |} in
  modify (λ s, set_pending (assoc_set state pending (st_pending s)) s) ;;
  match st_repository s with
  | Some _ => modify (λ s, set_pending (assoc_remove state (st_pending s)) s)
  | None => mret tt
  end ;;
  with_repository (or_save_pending state pending) (mret tt) ;;
  mret (state, nonce, pkce_challenge verifier).

(** [self._pending.pop(state, None)] *)
Definition pop_pending (state : string) : M OIDCSessionStore (option PendingOIDCLogin) :=
  s ← get_state; put_state (set_pending (assoc_remove state (st_pending s)) s) ;;
  mret (assoc_get state (st_pending s)).

Definition consume_login (now : spec_float) (state : string) : M OIDCSessionStore PendingOIDCLogin :=
  prune now ;;
  pending ← with_repository (or_consume_pending state now) (pop_pending state);
  let invalid := jwt_error "OIDC login state is invalid or expired" in
  match pending with
  | Some p => raise_if (float_leb (pl_expires_at p) now) invalid ;; mret p
  | None => raise invalid
  end.

(** [float(v)] of a number *)
Definition num_float (n : pynum) : res spec_float :=
  match n with
  | NFloat f => Ok f
  | NInt z => match pynum_isfinite n with
              | Some _ => Ok (float_of_Z z)
              | None => Raise (OverflowError "int too large to convert to float")
              end
  end.

(** The number in the claim [exp], which is later than [now]. *)
Definition session_expiry_claim (now : spec_float) (claims : pydict) : res pynum :=
  let invalid := jwt_error "OIDC identity token expiry is invalid" in
  let check n := if pynum_geb (NFloat now) n then Raise invalid else Ok n in
  match dict_get "exp" claims with
  | PInt z => check (NInt z)
  | PFloat f => check (NFloat f)
  | _ => Raise invalid
  end.

(** [min(a, b)] *)
Definition float_min (a b : spec_float) : spec_float := if float_ltb b a then b else a.

Definition create_session `{U : UnicodeData} (now : spec_float) (session_token : string)
    (identity : ExternalIdentity) : M OIDCSessionStore (string * Z) :=
  token_expiry ← lift_res (session_expiry_claim now (ei_claims identity));
  expiry ← lift_res (num_float token_expiry);
  let expires_at := float_min expiry (float_add now (float_of_Z MAX_BROWSER_SESSION_SECONDS)) in
  core_identity ← lift_res (from_external_identity identity "http-api" "dev" None "api" "gas-admin");
  prune now ;;
  s ← get_state;
  raise_if (capacity_exhausted s) (jwt_error "OIDC session capacity is exhausted") ;;
  let session := {| bs_identity := core_identity; bs_expires_at := expires_at |} in
  with_repository (or_save_session session_token session)
    (modify (λ s, set_sessions (assoc_set (session_key session_token) session (st_sessions s)) s)) ;;
  seconds ← lift_res (float_trunc (float_sub expires_at now));
  mret (session_token, Z.max 1 seconds).

(** What [get_session] returns: an identity, or what a repository gave. *)
Inductive session_value := SessionIdentity (i : RuntimeIdentity) | SessionRecord (b : BrowserSession).

Definition get_session (now : spec_float) (session_token : string)
    : M OIDCSessionStore (option session_value) :=
  let key := session_key session_token in
  with_repository (b ← or_get_session session_token now; mret (SessionRecord <$> b))
    (s ← get_state;
     match assoc_get key (st_sessions s) with
     | None => mret None
     | Some session =>
         if float_leb (bs_expires_at session) now then
           put_state (set_sessions (assoc_remove key (st_sessions s)) s) ;; mret None
         else mret (Some (SessionIdentity (bs_identity session)))
     end).

Definition revoke_session (session_token : string) : M OIDCSessionStore unit :=
  with_repository (or_revoke_session session_token)
    (modify (λ s, set_sessions (assoc_remove (session_key session_token) (st_sessions s)) s)).
End Store.
#[global] Arguments OIDCSessionStore : clear implicits.

(** ** PostgreSQL *)

(** [asdict(identity)] *)
Definition identity_asdict (i : RuntimeIdentity) : pydict :=
  [("service", PStr (ri_service i)); ("environment", PStr (ri_environment i));
   ("tenant_id", opt_str (ri_tenant_id i)); ("actor_id", opt_str (ri_actor_id i));
   ("request_id", opt_str (ri_request_id i)); ("source", opt_str (ri_source i));
   ("principal_id", opt_str (ri_principal_id i)); ("roles", of_strs (ri_roles i));
   ("scope", PDict (ri_scope i)); ("subject", opt_str (ri_subject i)); ("name", opt_str (ri_name i));
   ("email", opt_str (ri_email i)); ("groups", of_strs (ri_groups i)); ("issuer", opt_str (ri_issuer i));
   ("identity_source", opt_str (ri_identity_source i));
   ("service_principal", PBool (ri_service_principal i)); ("identity_type", PStr (ri_identity_type i))].

(** The fields of [RuntimeIdentity] in a payload; values of other types than
    the ones saved are not modelled. *)
Definition payload_opt (k : string) (d : pydict) : res (option string) :=
  match dict_get k d with
  | PNone => Ok None
  | PStr s => Ok (Some s)
  | _ => unmodelled "an identity field of another type"
  end.
Definition payload_str (k : string) (d : pydict) : res string :=
  v ← payload_opt k d;
  match v with Some s => Ok s | None => unmodelled "an identity field of another type" end.
Definition payload_strs (k : string) (d : pydict) : res (list string) :=
  match assoc_get k d with
  | None => Ok []
  | Some (PList l) =>
      mapM_res (λ v, match v with PStr s => Ok s | _ => unmodelled "an identity field of another type" end) l
  | Some _ => unmodelled "an identity field of another type"
  end.

Definition identity_of_payload (d : pydict) : res RuntimeIdentity :=
  service ← payload_str "service" d; environment ← payload_str "environment" d;
  tenant ← payload_opt "tenant_id" d; actor ← payload_opt "actor_id" d;
  request ← payload_opt "request_id" d; source ← payload_opt "source" d;
  principal ← payload_opt "principal_id" d; roles ← payload_strs "roles" d;
  scope ← match dict_get "scope" d with
          | PDict scope => Ok scope | _ => unmodelled "an identity field of another type" end;
  subject ← payload_opt "subject" d; name ← payload_opt "name" d; email ← payload_opt "email" d;
  groups ← payload_strs "groups" d; issuer ← payload_opt "issuer" d;
  identity_source ← payload_opt "identity_source" d;
  service_principal ← match dict_get "service_principal" d with
                      | PBool b => Ok b | _ => unmodelled "an identity field of another type" end;
  identity_type ← payload_str "identity_type" d;
  Ok {| ri_service := service; ri_environment := environment; ri_tenant_id := tenant;
        ri_actor_id := actor; ri_request_id := request; ri_source := source;
        ri_principal_id := principal; ri_roles := roles; ri_scope := scope; ri_subject := subject;
        ri_name := name; ri_email := email; ri_groups := groups; ri_issuer := issuer;
        ri_identity_source := identity_source; ri_service_principal := service_principal;
        ri_identity_type := identity_type |}.

(** A row of [gas_oidc_sessions]; the expiry is a time of the server. *)
Record OidcRow := {
  ro_token_hash : string;
  ro_record_type : string;
  ro_payload : string;
  ro_expires_at : Z
}.

Section Postgres.
Context `{J : Jsonb} (to_timestamp : spec_float → option Z).

Definition at_time (t : spec_float) : M (list OidcRow) Z :=
  match to_timestamp t with Some z => mret z | None => raise psycopg_error end.

(** [_save] *)
Definition oidc_save (token record_type : string) (payload : pydict) (expires_at : spec_float)
    : M (list OidcRow) unit :=
  text ← lift_res (json_dumps default_style (PDict payload));
  expires ← at_time expires_at;
  match jsonb_text text with
  | None => raise psycopg_error
  | Some stored =>
      let row := {| ro_token_hash := session_key token; ro_record_type := record_type;
                    ro_payload := stored; ro_expires_at := expires |} in
      modify (λ rows,
        if existsb (λ r, String.eqb (ro_token_hash r) (session_key token)) rows
        then map (λ r, if String.eqb (ro_token_hash r) (session_key token) then row else r) rows
        else rows ++ [row])
  end.

(** [WHERE token_hash=%s AND record_type=%s AND expires_at > to_timestamp(%s)] *)
Definition live_row (token record_type : string) (now : Z) (r : OidcRow) : bool :=
  String.eqb (ro_token_hash r) (session_key token) && String.eqb (ro_record_type r) record_type &&
  (now <? ro_expires_at r).

(** [dict(row[0])] *)
Definition row_payload (r : option OidcRow) : res (option pydict) :=
  match r with
  | None => Ok None
  | Some r => v ← json_loads (ro_payload r);
              match v with PDict d => Ok (Some d) | _ => unmodelled "a payload that is no object" end
  end.

(** [_get] *)
Definition oidc_get (token record_type : string) (now : spec_float) : M (list OidcRow) (option pydict) :=
  at_ ← at_time now; rows ← get_state;
  lift_res (row_payload (List.find (live_row token record_type at_) rows)).

(** [_consume] *)
Definition oidc_consume (token record_type : string) (now : spec_float)
    : M (list OidcRow) (option pydict) :=
  at_ ← at_time now; rows ← get_state;
  put_state (List.filter (λ r, negb (live_row token record_type at_ r)) rows) ;;
  lift_res (row_payload (List.find (live_row token record_type at_) rows)).

Definition oidc_revoke (token : string) : M (list OidcRow) unit :=
  modify (List.filter (λ r, negb (String.eqb (ro_token_hash r) (session_key token) &&
                                  String.eqb (ro_record_type r) "session"))).

Definition oidc_save_pending (state : string) (p : PendingOIDCLogin) : M (list OidcRow) unit :=
  oidc_save state "pending"
    [("nonce", PStr (pl_nonce p)); ("code_verifier", PStr (pl_code_verifier p));
     ("next_path", PStr (pl_next_path p))] (pl_expires_at p).

Definition oidc_consume_pending (state : string) (now : spec_float)
    : M (list OidcRow) (option PendingOIDCLogin) :=
  payload ← oidc_consume state "pending" now;
  match payload with
  | None => mret None
  | Some d =>
      let field k := match assoc_get k d with Some v => Ok (py_str v) | None => Raise (KeyError k) end in
      nonce ← lift_res (field "nonce"); verifier ← lift_res (field "code_verifier");
      next_path ← lift_res (field "next_path");
      mret (Some {| pl_nonce := nonce; pl_code_verifier := verifier;
                    pl_expires_at := float_add now (float_of_Z 1); pl_next_path := next_path |})
  end.

Definition oidc_save_session (token : string) (b : BrowserSession) : M (list OidcRow) unit :=
  oidc_save token "session" (identity_asdict (bs_identity b)) (bs_expires_at b).

Definition oidc_get_session (token : string) (now : spec_float) : M (list OidcRow) (option BrowserSession) :=
  payload ← oidc_get token "session" now;
  match payload with
  | None => mret None
  | Some d => identity ← lift_res (identity_of_payload d);
              mret (Some {| bs_identity := identity; bs_expires_at := float_add now (float_of_Z 1) |})
  end.

#[export] Instance pg_session_repository : OIDCSessionRepository (list OidcRow) :=
  {| or_save_pending := oidc_save_pending; or_consume_pending := oidc_consume_pending;
     or_save_session := oidc_save_session; or_get_session := oidc_get_session;
     or_revoke_session := oidc_revoke |}.
End Postgres.

(** No repository. *)
#[export] Instance no_repository : OIDCSessionRepository Empty_set | 100 :=
  {| or_save_pending := λ _ _ r, match (r : Empty_set) with end; or_consume_pending := λ _ _ r, match (r : Empty_set) with end;
     or_save_session := λ _ _ r, match (r : Empty_set) with end; or_get_session := λ _ _ r, match (r : Empty_set) with end;
     or_revoke_session := λ _ r, match (r : Empty_set) with end |}.

(** * Histories of a store without a repository *)

Inductive session_call :=
| SessionBegin (now : spec_float) (state nonce verifier next_path : string)
| SessionConsume (now : spec_float) (state : string)
| SessionCreate (now : spec_float) (session_token : string) (identity : ExternalIdentity)
| SessionGet (now : spec_float) (session_token : string)
| SessionRevoke (session_token : string).

Section History.
Context `{U : UnicodeData} {R : Type} `{OIDCSessionRepository R}.
Implicit Types (s : OIDCSessionStore R) (calls : list session_call).

Definition session_step s (c : session_call) : OIDCSessionStore R :=
  match c with
  | SessionBegin now state nonce verifier next_path => (begin_login now state nonce verifier next_path s).2
  | SessionConsume now state => (consume_login now state s).2
  | SessionCreate now token identity => (create_session now token identity s).2
  | SessionGet now token => (get_session now token s).2
  | SessionRevoke token => (revoke_session token s).2
  end.

(** The session was made by a creation for a validated identity whose token
    had not expired, lasts no longer than the token and eight hours, and was
    not revoked since. *)
Record session_made calls (key : string) (b : BrowserSession) : Prop := {
  made_call : ∃ before now token identity after expiry limit,
    calls = before ++ SessionCreate now token identity :: after ∧ key = session_key token ∧
    from_external_identity identity "http-api" "dev" None "api" "gas-admin" = Ok (bs_identity b) ∧
    session_expiry_claim now (ei_claims identity) = Ok expiry ∧ num_float expiry = Ok limit ∧
    bs_expires_at b = float_min limit (float_add now (float_of_Z MAX_BROWSER_SESSION_SECONDS)) ∧
    ∀ t, SessionRevoke t ∈ after → session_key t ≠ key
}.

(** The login was begun with this state, and not consumed since. *)
Record login_begun calls (state : string) (p : PendingOIDCLogin) : Prop := {
  begun_call : ∃ before now nonce verifier next_path after,
    calls = before ++ SessionBegin now state nonce verifier next_path :: after ∧
    p = {| pl_nonce := nonce; pl_code_verifier := verifier;
           pl_expires_at := float_add now (float_of_Z LOGIN_STATE_TTL_SECONDS);
           pl_next_path := next_path |} ∧
    ∀ t, SessionConsume t state ∉ after
}.

Record session_inv (max_entries : Z) calls s : Prop := {
  si_local : st_repository s = None;
  si_max : st_max_entries s = max_entries;
  si_bound : Z.of_nat (length (st_pending s)) + Z.of_nat (length (st_sessions s)) ≤ Z.max 0 max_entries;
  si_sessions : ∀ k b, (k, b) ∈ st_sessions s → session_made calls k b;
  si_pending : ∀ k p, (k, p) ∈ st_pending s → login_begun calls k p
}.

Lemma session_made_more calls c k b :
  (∀ t, c = SessionRevoke t → session_key t ≠ k) → session_made calls k b → session_made (calls ++ [c]) k b.
Proof.
  intros Hc [(before & now & token & identity & after & e & l & -> & Hk & Hf & He & Hl & Hb & Hr)].
  split. exists before, now, token, identity, (after ++ [c]), e, l.
  split; [by rewrite <-app_assoc|]. split_and!; try done.
  intros t [Ht|Ht%list_elem_of_singleton]%elem_of_app; eauto.
Qed.

Lemma login_begun_more calls c k p :
  (∀ t, c ≠ SessionConsume t k) → login_begun calls k p → login_begun (calls ++ [c]) k p.
Proof.
  intros Hc [(before & now & nonce & verifier & next & after & -> & Hp & Hr)].
  split. exists before, now, nonce, verifier, next, (after ++ [c]).
  split; [by rewrite <-app_assoc|]. split; [done|].
  intros t [Ht|Ht%list_elem_of_singleton]%elem_of_app; [by eapply Hr|by eapply Hc].
Qed.

(** A state whose entries are among those of another one. *)
Record session_sub s' s : Prop := {
  ss_local : st_repository s' = st_repository s;
  ss_max : st_max_entries s' = st_max_entries s;
  ss_pending_sub : sublist (st_pending s') (st_pending s);
  ss_sessions_sub : sublist (st_sessions s') (st_sessions s)
}.

Lemma filter_sublist' {A} (f : A → bool) (l : list A) : sublist (List.filter f l) l.
Proof. induction l as [|x l IH]; cbn; [constructor|]. destruct (f x); by constructor. Qed.

(** Entries may go; those that stay were not the ones revoked or consumed. *)
Lemma session_sub_inv n calls c s s' :
  (∀ t k b, c = SessionRevoke t → (k, b) ∈ st_sessions s' → session_key t ≠ k) →
  (∀ t k p, c = SessionConsume t k → (k, p) ∉ st_pending s') →
  session_sub s' s → session_inv n calls s → session_inv n (calls ++ [c]) s'.
Proof.
  intros Hr Hc [Hl Hm Hp Hs] [HL HM HB HS HP]. split; [congruence|congruence| | |].
  - apply sublist_length in Hp, Hs. lia.
  - intros k b Hin. apply session_made_more; [by eauto|]. apply HS. by eapply elem_of_sublist.
  - intros k p Hin. apply login_begun_more; [by intros t Ht; eapply Hc|].
    apply HP. by eapply elem_of_sublist.
Qed.

Lemma session_sub_refl s : session_sub s s.
Proof. by split. Qed.

Lemma pruned_sub now s : session_sub (pruned now s) s.
Proof. split; [done|done|apply filter_sublist'|apply filter_sublist']. Qed.

Lemma assoc_set_elem {A} k (v : A) d x : x ∈ assoc_set k v d → x = (k, v) ∨ x ∈ d.
Proof.
  induction d as [|[k' v'] d IH]; cbn; [intros ->%list_elem_of_singleton; by left|].
  destruct (String.eqb_spec k k') as [->|].
  - intros [->|?]%elem_of_cons; [by left|right; by right].
  - intros [->|[->|?]%IH]%elem_of_cons; [right; by left|by left|right; by right].
Qed.

Lemma assoc_remove_elem {A} k (d : list (string * A)) x : x ∈ assoc_remove k d → x ∈ d ∧ x.1 ≠ k.
Proof.
  unfold assoc_remove. rewrite list_elem_of_In, filter_In, <-list_elem_of_In. intros [? Hk]. split; [done|].
  intros Heq. by rewrite Heq, String.eqb_refl in Hk.
Qed.

(** The entries of a map after one was set. *)
Lemma assoc_set_le {A} k (v : A) d : (length (assoc_set k v d) ≤ S (length d))%nat.
Proof. induction d as [|[k' v'] d IH]; cbn; [lia|]. destruct (String.eqb k k'); cbn; lia. Qed.

Lemma begin_login_cases now state nonce verifier next_path s :
  st_repository s = None →
  let s' := (begin_login now state nonce verifier next_path s).2 in
  s' = pruned now s ∨
  (capacity_exhausted (pruned now s) = false ∧
   s' = set_pending (assoc_set state {| pl_nonce := nonce; pl_code_verifier := verifier;
          pl_expires_at := float_add now (float_of_Z LOGIN_STATE_TTL_SECONDS); pl_next_path := next_path |}
          (st_pending (pruned now s))) (pruned now s)).
Proof.
  intros Hl. unfold begin_login, prune, modify, get_state, raise_if, with_repository, mbind, M_bind, mret, M_ret.
  destruct (capacity_exhausted (pruned now s)); [by left|right]. split; [done|]. cbn. rewrite Hl. cbn. by rewrite Hl.
Qed.

Lemma create_session_cases now token identity s :
  st_repository s = None →
  let s' := (create_session now token identity s).2 in
  s' = s ∨ s' = pruned now s ∨
  (capacity_exhausted (pruned now s) = false ∧ ∃ core expiry limit,
   from_external_identity identity "http-api" "dev" None "api" "gas-admin" = Ok core ∧
   session_expiry_claim now (ei_claims identity) = Ok expiry ∧ num_float expiry = Ok limit ∧
   s' = set_sessions (assoc_set (session_key token)
          {| bs_identity := core;
             bs_expires_at := float_min limit (float_add now (float_of_Z MAX_BROWSER_SESSION_SECONDS)) |}
          (st_sessions (pruned now s))) (pruned now s)).
Proof.
  intros Hl. unfold create_session. rewrite M_bind_run. unfold lift_res.
  destruct (session_expiry_claim now (ei_claims identity)) as [expiry|e]; [|by left].
  rewrite M_bind_run. destruct (num_float expiry) as [limit|e] eqn:Hf; [|by left].
  rewrite M_bind_run. destruct (from_external_identity _ _ _ _ _ _) as [core|e]; [|by left].
  right. unfold prune, modify, get_state, raise_if, with_repository, mbind, M_bind, mret, M_ret.
  destruct (capacity_exhausted (pruned now s)); [by left|right]. split; [done|].
  exists core, expiry, limit. cbn. rewrite Hl. cbn. by destruct (float_trunc _).
Qed.

Lemma capacity_left n calls s' s :
  session_inv n calls s → session_sub s' s → capacity_exhausted s' = false →
  Z.of_nat (length (st_pending s')) + Z.of_nat (length (st_sessions s')) < n.
Proof.
  intros [_ HM _ _ _] [_ Hm _ _] Hc. unfold capacity_exhausted in Hc. apply Z.leb_gt in Hc. congruence.
Qed.

Lemma consume_login_state now state s :
  st_repository s = None →
  (consume_login now state s).2 =
    set_pending (assoc_remove state (st_pending (pruned now s))) (pruned now s).
Proof.
  intros Hl. unfold consume_login, prune, modify, raise_if, with_repository, pop_pending, get_state,
    put_state, raise, mbind, M_bind, mret, M_ret. cbn. rewrite Hl. cbn.
  destruct (assoc_get _ _); [|done]. by destruct (float_leb _ _).
Qed.

Lemma get_session_sub now token s :
  st_repository s = None → session_sub (get_session now token s).2 s.
Proof.
  intros Hl. unfold get_session, with_repository, get_state, put_state, mbind, M_bind, mret, M_ret. rewrite Hl.
  destruct (assoc_get _ _) as [b|]; [|done]. destruct (float_leb _ _); [|done].
  split; cbn; [done|done|done|apply filter_sublist'].
Qed.

Lemma revoke_session_state token s :
  st_repository s = None →
  (revoke_session token s).2 = set_sessions (assoc_remove (session_key token) (st_sessions s)) s.
Proof. intros Hl. unfold revoke_session, with_repository, modify. by rewrite Hl. Qed.

Lemma session_step_inv n calls c s :
  session_inv n calls s → session_inv n (calls ++ [c]) (session_step s c).
Proof.
  intros Hi. pose proof Hi as [HL HM HB HS HP].
  assert (∀ c now, (∀ t, c ≠ SessionRevoke t) → (∀ t k, c ≠ SessionConsume t k) →
    session_inv n (calls ++ [c]) (pruned now s)) as Hprune.
  { intros c' now Hr Hc. eapply session_sub_inv; [| |apply pruned_sub|done].
    - intros t k b Heq. by destruct (Hr t).
    - intros t k p Heq. by destruct (Hc t k). }
  destruct c as [now state nonce verifier next|now state|now token identity|now token|token]; cbn [session_step].
  - destruct (Hprune (SessionBegin now state nonce verifier next) now) as [HL' HM' HB' HS' HP']; [done..|].
    destruct (begin_login_cases now state nonce verifier next s HL) as [->|[Hc ->]]; [done|].
    pose proof (capacity_left n calls _ _ Hi (pruned_sub now s) Hc) as Hlt.
    split; cbn; [done|done| |exact HS'|].
    + cbn in Hlt. match goal with |- context [assoc_set state ?v ?d] => pose proof (assoc_set_le state v d) end. lia.
    + intros k p [[= -> ->]|Hin]%assoc_set_elem; [|by apply HP'].
      split. exists calls, now, nonce, verifier, next, []. split_and!; [done|done|]. by intros t ?%not_elem_of_nil.
  - rewrite consume_login_state by done. eapply session_sub_inv; [done| | |done].
    + intros t k p [= <- <-] Hin. apply assoc_remove_elem in Hin as [_ Hk]. done.
    + split; cbn; [done|done| |apply filter_sublist']. etransitivity; apply filter_sublist'.
  - destruct (Hprune (SessionCreate now token identity) now) as [HL' HM' HB' HS' HP']; [done..|].
    destruct (create_session_cases now token identity s HL) as [->|[->|(Hc & core & e & l & Hf & He & Hl & ->)]];
      [by eapply session_sub_inv; [by intros ??? [=]|by intros ??? [=]|apply session_sub_refl|done]|done|].
    pose proof (capacity_left n calls _ _ Hi (pruned_sub now s) Hc) as Hlt.
    split; cbn; [done|done| | |exact HP'].
    + cbn in Hlt. match goal with |- context [assoc_set ?k ?v ?d] => pose proof (assoc_set_le k v d) end. lia.
    + intros k b [[= -> ->]|Hin]%assoc_set_elem; [|by apply HS'].
      split. exists calls, now, token, identity, [], e, l. split_and!; try done. by intros t ?%not_elem_of_nil.
  - eapply session_sub_inv; [done|done|by apply get_session_sub|done].
  - rewrite revoke_session_state by done. eapply session_sub_inv; [|done| |done].
    + intros t k b [= <-] Hin. apply assoc_remove_elem in Hin as [_ Hk]. intros Heq. by apply Hk.
    + split; cbn; [done|done|done|apply filter_sublist'].
Qed.

Lemma session_steps_inv n calls done_ s :
  session_inv n done_ s → session_inv n (done_ ++ calls) (fold_left session_step calls s).
Proof.
  revert done_ s. induction calls as [|c calls IH]; intros done_ s Hi; cbn [fold_left].
  - by rewrite app_nil_r.
  - replace (done_ ++ c :: calls) with ((done_ ++ [c]) ++ calls) by by rewrite <-app_assoc.
    by apply IH, session_step_inv.
Qed.

Lemma session_init_inv n : session_inv n [] (session_store_init n None).
Proof. split; cbn; [done|done|lia|by intros k b ?%not_elem_of_nil|by intros k p ?%not_elem_of_nil]. Qed.
End History.

(** ** The shared table *)

Inductive oidc_call :=
| OidcSave (token record_type : string) (payload : pydict) (expires_at : spec_float)
| OidcConsume (token record_type : string) (now : spec_float)
| OidcRevoke (token : string).

Section Shared.
Context `{J : Jsonb} (to_timestamp : spec_float → option Z).

(** A call of any of the servers that share the table. *)
Definition oidc_run (rows : list OidcRow) (c : oidc_call) : list OidcRow :=
  match c with
  | OidcSave token record_type payload expires_at =>
      (oidc_save to_timestamp token record_type payload expires_at rows).2
  | OidcConsume token record_type now => (oidc_consume to_timestamp token record_type now rows).2
  | OidcRevoke token => (oidc_revoke token rows).2
  end.

Definition saves (key : string) (c : oidc_call) : Prop :=
  match c with OidcSave token _ _ _ => session_key token = key | _ => False end.

Lemma oidc_save_cases token type payload e rows :
  let rows' := (oidc_save to_timestamp token type payload e rows).2 in
  rows' = rows ∨ ∃ row, ro_token_hash row = session_key token ∧
  rows' = if existsb (λ r, String.eqb (ro_token_hash r) (session_key token)) rows
          then map (λ r, if String.eqb (ro_token_hash r) (session_key token) then row else r) rows
          else rows ++ [row].
Proof.
  unfold oidc_save. rewrite M_bind_run. unfold lift_res. destruct (json_dumps _ _) as [text|]; [|by left].
  rewrite M_bind_run. unfold at_time. destruct (to_timestamp e); [|by left]. cbn.
  destruct (jsonb_text text); [right|by left]. eexists. split; [|reflexivity]. done.
Qed.

Lemma oidc_consume_state token type now rows :
  (oidc_consume to_timestamp token type now rows).2 = rows ∨ ∃ at_,
  (oidc_consume to_timestamp token type now rows).2 =
    List.filter (λ r, negb (live_row token type at_ r)) rows.
Proof.
  unfold oidc_consume. rewrite M_bind_run. unfold at_time.
  destruct (to_timestamp now) as [at_|]; [|by left]. right. exists at_. by cbn.
Qed.

Lemma map_filter_sublist {A B} (f : A → B) (g : A → bool) (l : list A) :
  sublist (map f (List.filter g l)) (map f l).
Proof. apply (fmap_sublist f), filter_sublist'. Qed.

(** The key of the table stays unique, and a key only comes back by a save. *)
Lemma oidc_run_keys c rows :
  NoDup (map ro_token_hash rows) →
  NoDup (map ro_token_hash (oidc_run rows c)) ∧
  ∀ k, k ∈ map ro_token_hash (oidc_run rows c) → saves k c ∨ k ∈ map ro_token_hash rows.
Proof.
  intros Hn. destruct c as [token type payload e|token type now|token]; cbn [oidc_run saves].
  - destruct (oidc_save_cases token type payload e rows) as [->|(row & Hrow & ->)]; [auto|].
    destruct (existsb _ rows) eqn:He.
    + assert (map ro_token_hash (map (λ r, if String.eqb (ro_token_hash r) (session_key token) then row else r) rows)
              = map ro_token_hash rows) as ->; [|auto].
      rewrite map_map. apply map_ext. intros r. destruct (String.eqb_spec (ro_token_hash r) (session_key token)); congruence.
    + rewrite map_app. split.
      * apply NoDup_app. split; [done|]. split; [|apply NoDup_singleton].
        intros k (r & -> & Hr)%list_elem_of_fmap Heq%list_elem_of_singleton.
        assert (existsb (λ r, String.eqb (ro_token_hash r) (session_key token)) rows = true) as Ht; [|congruence].
        apply existsb_exists. exists r. rewrite <-list_elem_of_In, Heq, Hrow, String.eqb_refl. done.
      * intros k [?|Hk%list_elem_of_singleton]%elem_of_app; [by right|left; congruence].
  - destruct (oidc_consume_state token type now rows) as [->|[at_ ->]]; [auto|].
    split; [eapply sublist_NoDup; [done|apply map_filter_sublist]|].
    intros k Hk. right. eapply elem_of_sublist; [done|apply map_filter_sublist].
  - split; [eapply sublist_NoDup; [done|apply map_filter_sublist]|].
    intros k Hk. right. eapply elem_of_sublist; [done|apply map_filter_sublist].
Qed.

Lemma oidc_runs_keys calls rows :
  NoDup (map ro_token_hash rows) →
  NoDup (map ro_token_hash (fold_left oidc_run calls rows)) ∧
  ∀ k, k ∉ map ro_token_hash rows → Forall (λ c, ¬ saves k c) calls →
    k ∉ map ro_token_hash (fold_left oidc_run calls rows).
Proof.
  revert rows. induction calls as [|c calls IH]; intros rows Hn; [done|].
  cbn [fold_left]. destruct (oidc_run_keys c rows Hn) as [Hn' Hk]. destruct (IH _ Hn') as [Hn'' Hk''].
  split; [done|]. intros k Hnin [Hc Hcs]%Forall_cons. apply Hk''; [|done]. by intros [?|?]%Hk.
Qed.

Lemma oidc_consume_found token type now rows d rows' :
  NoDup (map ro_token_hash rows) →
  oidc_consume to_timestamp token type now rows = (Ok (Some d), rows') →
  session_key token ∉ map ro_token_hash rows'.
Proof.
  intros Hn H. unfold oidc_consume in H. rewrite M_bind_run in H. unfold at_time in H.
  destruct (to_timestamp now) as [at_|]; [|done]. cbn in H. injection H as Hd <-.
  destruct (List.find (live_row token type at_) rows) as [r|] eqn:Hr; [|done].
  apply List.find_some in Hr as [Hin Hlive]. pose proof Hlive as Hlive'. unfold live_row in Hlive'. breflect.
  intros (q & Hq & [Hqin Hql]%list_elem_of_In%filter_In)%list_elem_of_fmap.
  assert (q = r) as ->; [|by rewrite Hlive in Hql].
  apply list_elem_of_In in Hin, Hqin. clear Hd Hlive Hql. induction rows as [|x rows IH]; [set_solver|].
  cbn in Hn. apply NoDup_cons in Hn as [Hx Hn].
  apply elem_of_cons in Hin as [->|Hin], Hqin as [->|Hqin]; [done| | |by apply IH].
  - destruct Hx. apply list_elem_of_fmap. exists q. split; [congruence|done].
  - destruct Hx. apply list_elem_of_fmap. exists r. split; [congruence|done].
Qed.

Lemma oidc_consume_absent token type now rows d :
  session_key token ∉ map ro_token_hash rows →
  (oidc_consume to_timestamp token type now rows).1 ≠ Ok (Some d).
Proof.
  intros Hnin. unfold oidc_consume, at_time, get_state, put_state, lift_res, mbind, M_bind, mret, M_ret.
  destruct (to_timestamp now) as [at_|]; [|done]. cbn [fst]. unfold raise.
  destruct (List.find (live_row token type at_) rows) as [r|] eqn:Hr; [|done].
  apply List.find_some in Hr as [Hin Hlive].
  unfold live_row in Hlive. breflect. destruct Hnin. apply list_elem_of_fmap. exists r. split; [done|].
  by apply list_elem_of_In.
Qed.

(** A login state or a session consumed by one server is gone for all of them. *)
Lemma oidc_state_once before after token type now now' d d' rows :
  oidc_consume to_timestamp token type now (fold_left oidc_run before []) = (Ok (Some d), rows) →
  Forall (λ c, ¬ saves (session_key token) c) after →
  (oidc_consume to_timestamp token type now' (fold_left oidc_run after rows)).1 ≠ Ok (Some d').
Proof.
  intros H Hafter. destruct (oidc_runs_keys before []) as [Hn _]; [constructor|].
  pose proof (oidc_consume_found _ _ _ _ _ _ Hn H) as Hgone.
  assert (NoDup (map ro_token_hash rows)) as Hn'.
  { destruct (oidc_run_keys (OidcConsume token type now) _ Hn) as [Hx _]. cbn in Hx. by rewrite H in Hx. }
  apply oidc_consume_absent. by apply oidc_runs_keys.
Qed.
End Shared.

(** * Properties *)

(** C8. The sign-in store in memory, that is, without a session repository.
    After any calls, login states and sessions together stay within the bound; a
    login state that is accepted was begun by a call of the history, has not
    expired and was not presented since; and a session that gives an identity
    was created under this token by a call of the history for an external
    identity of which it is the runtime form, was not revoked since, and is used
    before its expiry, which is the earlier of that identity's [exp] claim, still
    ahead at the creation, and eight hours after the creation.  (That the
    identity comes from a validated token is the callback's part, see
    [HttpAuth.login_callback].) *)
Theorem browser_sessions `{U : UnicodeData} {R} `{OIDCSessionRepository R} (max_entries : Z)
    (calls : list session_call) (now : spec_float) (token state : string) :
  0 ≤ max_entries →
  let s := fold_left session_step calls (session_store_init (R := R) max_entries None) in
  Z.of_nat (length (st_pending s)) + Z.of_nat (length (st_sessions s)) ≤ max_entries ∧
  (∀ p, (consume_login now state s).1 = Ok p →
     login_begun calls state p ∧ float_leb (pl_expires_at p) now = false) ∧
  (∀ v, (get_session now token s).1 = Ok (Some v) → ∃ b, v = SessionIdentity (bs_identity b) ∧
     session_made calls (session_key token) b ∧ float_leb (bs_expires_at b) now = false).
Proof.
  intros Hn s. pose proof (session_steps_inv (R := R) max_entries calls [] _ (session_init_inv max_entries)) as Hi.
  cbn [app] in Hi. fold s in Hi. clearbody s. destruct Hi as [HL HM HB HS HP]. split; [lia|]. split.
  - intros p. unfold consume_login, prune, modify, raise_if, with_repository, pop_pending, get_state,
      put_state, raise, mbind, M_bind, mret, M_ret. cbn. rewrite HL. cbn.
    destruct (assoc_get state _) as [q|] eqn:Hq; [|done]. destruct (float_leb _ _) eqn:He; [done|].
    intros [= <-]. split; [|done]. apply HP. apply assoc_get_In, list_elem_of_In in Hq.
    eapply elem_of_sublist; [exact Hq|apply filter_sublist'].
  - intros v. unfold get_session, with_repository, get_state, put_state, mbind, M_bind, mret, M_ret.
    rewrite HL. destruct (assoc_get _ _) as [b|] eqn:Hb; [|done]. destruct (float_leb _ _) eqn:He; [done|].
    intros [= <-]. exists b. split_and!; [done| |done]. by apply HS, list_elem_of_In, assoc_get_In.
Qed.

(** A store of two entries: a sign-in, its callback, and a second one after. *)
Definition sign_in_calls : list session_call :=
  [SessionBegin (time_at 1000) "s1" "n1" "v1" "/admin";
   SessionConsume (time_at 1010) "s1";
   SessionCreate (time_at 1010) "tok" example_external;
   SessionBegin (time_at 1020) "s2" "n2" "v2" "/admin";
   SessionBegin (time_at 1030) "s3" "n3" "v3" "/admin"].

Lemma browser_sessions_witness :
  let s := fold_left (session_step (U := ascii_only)) sign_in_calls
             (session_store_init (R := Empty_set) 2 None) in
  (is_Some (match (get_session (time_at 1100) "tok" s).1 with Ok v => v | Raise _ => None end) ∧
   length (st_pending s) = 1%nat) ∧
  Z.of_nat (length (st_pending s)) + Z.of_nat (length (st_sessions s)) ≤ 2 ∧
  (∀ p, (consume_login (time_at 1100) "s2" s).1 = Ok p →
     login_begun sign_in_calls "s2" p ∧ float_leb (pl_expires_at p) (time_at 1100) = false) ∧
  (∀ v, (get_session (time_at 1100) "tok" s).1 = Ok (Some v) → ∃ b, v = SessionIdentity (bs_identity b) ∧
     session_made sign_in_calls (session_key "tok") b ∧ float_leb (bs_expires_at b) (time_at 1100) = false).
Proof.
  split; [vm_compute; split; [by eexists|done]|].
  apply (browser_sessions (U := ascii_only) (R := Empty_set) 2 sign_in_calls (time_at 1100) "tok" "s2"). lia.
Defined.

(** ** Sessions of a repository *)

(** With a repository, [get_session] hands on the repository's record in place
    of the identity in it. *)
Lemma repository_gives_record {R} `{OIDCSessionRepository R} now token (s : OIDCSessionStore R) r v s' :
  st_repository s = Some r → get_session now token s = (Ok (Some v), s') → ∃ b, v = SessionRecord b.
Proof.
  intros Hr. unfold get_session, with_repository, mbind, M_bind, mret, M_ret. rewrite Hr.
  destruct (or_get_session token now r) as [[[b|]|e] r']; [|done|done]. intros [= <- <-]. by exists b.
Qed.

(** With a repository, nothing is kept in memory, and it is the entries in memory
    that are counted: whatever was saved, the store is never full. *)
Lemma repository_unbounded `{U : UnicodeData} {R} `{OIDCSessionRepository R} n (repository : R) calls now :
  let s := fold_left session_step calls (session_store_init n (Some repository)) in
  0 < n → capacity_exhausted (pruned now s) = false.
Proof.
  intros s Hn.
  assert (st_max_entries s = n ∧ st_pending s = [] ∧ st_sessions s = [] ∧ is_Some (st_repository s))
    as (Hm & Hp & Hs & _); [|unfold capacity_exhausted; cbn; rewrite Hp, Hs, Hm; cbn; by apply Z.leb_gt].
  subst s. induction calls as [|c calls IH] using rev_ind; [by split_and!|]. rewrite fold_left_app. cbn [fold_left].
  destruct (fold_left session_step calls _) as [n' pend sess rep]. cbn in IH. destruct IH as (-> & -> & -> & r & ->).
  destruct c as [t state nonce verifier next|t state|t token identity|t token|token]; cbn [session_step].
  - unfold begin_login, prune, modify, get_state, raise_if, with_repository, mbind, M_bind, mret, M_ret. cbn.
    destruct (capacity_exhausted _); cbn; [by split_and!|]. rewrite String.eqb_refl. cbn.
    destruct (or_save_pending _ _ _) as [[|] ?]; cbn; by split_and!.
  - unfold consume_login, prune, modify, raise_if, with_repository, raise, mbind, M_bind, mret, M_ret. cbn.
    destruct (or_consume_pending _ _ _) as [[[q|]|e] ?]; cbn; [|by split_and!..].
    destruct (float_leb _ _); by split_and!.
  - unfold create_session. rewrite M_bind_run. unfold lift_res. destruct (session_expiry_claim _ _); [|by split_and!].
    rewrite M_bind_run. destruct (num_float _); [|by split_and!].
    rewrite M_bind_run. destruct (from_external_identity _ _ _ _ _ _); [|by split_and!].
    unfold prune, modify, get_state, raise_if, with_repository, mbind, M_bind, mret, M_ret. cbn.
    destruct (capacity_exhausted _); cbn; [by split_and!|].
    destruct (or_save_session _ _ _) as [[|] ?]; cbn; [destruct (float_trunc _)|]; cbn; by split_and!.
  - unfold get_session, with_repository, mbind, M_bind, mret, M_ret. cbn.
    destruct (or_get_session _ _ _) as [[|] ?]; cbn; by split_and!.
  - unfold revoke_session, with_repository. cbn. destruct (or_revoke_session _ _) as [[|] ?]; cbn; by split_and!.
Qed.

(** A saved session is read back as it was, when [jsonb] keeps its payload. *)
Lemma identity_payload_roundtrip i : identity_of_payload (identity_asdict i) = Ok i.
Proof.
  assert (∀ l, mapM_res (λ v, match v with PStr s => Ok s
            | _ => unmodelled "an identity field of another type" end) (map PStr l) = Ok l) as Hl.
  { intros l. induction l as [|x l IH]; [done|]. cbn [map mapM_res]. by rewrite IH. }
  assert (∀ o : option string, (match opt_str o with PNone => Ok None | PStr s => Ok (Some s)
            | _ => unmodelled "an identity field of another type" end) = Ok o) as Ho by by intros [].
  unfold identity_of_payload, payload_str, payload_opt, payload_strs, identity_asdict, of_strs.
  cbn -[mapM_res opt_str]. rewrite !Ho. cbn -[mapM_res opt_str].
  rewrite !Hl. cbn -[mapM_res opt_str]. by destruct i.
Qed.
