(* ===== verification/HttpRequest.v ===== *)
(** http_api.py: requests, responses and the limits in front of the routes, and
    the rate limiter of deployment.py that several servers share.

    A request is what the standard library's server hands to the handler: the
    command, the request target, the headers by their names in lower case and
    the body; the value of a cookie is what [SimpleCookie] finds for it.  A
    response is its status, the headers the program sends and its body.  URLs
    are split as [urlsplit] does; addresses in brackets and host names outside
    ASCII are left out. *)

From S2P Require Import Prelude PyFloat PyVal Json Sha256 Base64 Crypto Models Policy Rbac Orders SemVer PyText Jobs JobsPostgres Trust Anchors Replay Storage Arbiter PolicyRegistry ReplayStore Mesh Issuer Engine Deployment Service Observability Platform Lines OperatorAuth Worker Tokens.

(** ** URLs *)

Record split_url := { su_scheme : string; su_netloc : string; su_path : string; su_query : string }.

(** Control characters and space *)
Definition c0_or_space (c : ascii) : bool := ascii_in 0 32 c.
Fixpoint lstrip_c0 (s : string) : string :=
  match s with String c r => if c0_or_space c then lstrip_c0 r else s | EmptyString => s end.
(** [s.replace] of tab, carriage return and line feed by nothing *)
Definition unsafe_url_char (c : ascii) : bool :=
  Ascii.eqb c (ascii_of_N 9) || Ascii.eqb c (ascii_of_N 10) || Ascii.eqb c (ascii_of_N 13).
Definition drop_unsafe (s : string) : string :=
  concat_map (λ c, if unsafe_url_char c then "" else String c "") s.

Definition ascii_alpha (c : ascii) : bool := ascii_lower c || ascii_upper c.
Definition scheme_char (c : ascii) : bool :=
  ascii_alpha c || ascii_digit c || Ascii.eqb c "+" || Ascii.eqb c "-" || Ascii.eqb c ".".

(** The scheme, when what stands before the first colon is one. *)
Definition split_scheme (url : string) : string * string :=
  match cut ":" url with
  | (String c r, Some rest) =>
      if ascii_alpha c && all_chars scheme_char (String c r) then (str_lower (String c r), rest) else ("", url)
  | _ => ("", url)
  end.

(** [_splitnetloc(url, 2)]: up to the first of [/?#] *)
Fixpoint take_netloc (s : string) : string * string :=
  match s with
  | EmptyString => ("", "")
  | String c r => if Ascii.eqb c "/" || Ascii.eqb c "?" || Ascii.eqb c "#" then ("", s)
                  else let '(a, b) := take_netloc r in (String c a, b)
  end.

Definition check_netloc (netloc : string) : res unit :=
  fail_if (negb (Bool.eqb (has_char "[" netloc) (has_char "]" netloc))) (ValueError "Invalid IPv6 URL") ;;
  if has_char "[" netloc || negb (ascii_str netloc)
  then unmodelled "an address in brackets or outside ASCII" else Ok tt.

(** [urllib.parse.urlsplit(url)] *)
Definition urlsplit (url : string) : res split_url :=
  let url := drop_unsafe (lstrip_c0 url) in
  let '(scheme, url) := split_scheme url in
  let '(netloc, url) :=
    if String.prefix "//" url then take_netloc (String.substring 2 (String.length url - 2) url)
    else ("", url) in
  check_netloc netloc ;;
  let '(url, _) := cut "#" url in
  let '(path, query) := cut "?" url in
  Ok {| su_scheme := scheme; su_netloc := netloc; su_path := path; su_query := default "" query |}.

(** Percent-decoding; bytes that are not UTF-8 are left out of the model. *)
Fixpoint unquote_bytes (s : string) : string :=
  match s with
  | String c (String a (String b r) as rest) =>
      if Ascii.eqb c "%" then
        match hex_value a, hex_value b with
        | Some x, Some y => String (ascii_of_N (x * 16 + y)) (unquote_bytes r)
        | _, _ => String c (unquote_bytes rest)
        end
      else String c (unquote_bytes rest)
  | String c r => String c (unquote_bytes r)
  | EmptyString => ""
  end.
Definition unquote (s : string) : res string :=
  let t := unquote_bytes s in
  if utf8_from 0 128 191 t then Ok t else unmodelled "a query that is not UTF-8".

Definition plus_space (s : string) : string := concat_map (λ c, if Ascii.eqb c "+" then " " else String c "") s.

(** [parse_qs(query, keep_blank_values=True)] *)
Definition parse_qs (query : string) : res (list (string * list string)) :=
  pairs ← mapM_res (λ p, let '(n, v) := cut "=" p in
                         n ← unquote (plus_space n); v ← unquote (plus_space (default "" v)); Ok (n, v))
            (List.filter (λ p, negb (String.eqb p "")) (split_on "&" query));
  Ok (fold_left (λ d kv, assoc_set kv.1 (default [] (assoc_get kv.1 d) ++ [kv.2]) d) pairs []).

(** ** Requests and responses *)

Record http_request := {
  rq_command : string;
  rq_target : string;                      (** [self.path] *)
  rq_headers : list (string * string);
  rq_cookie : string → option string;      (** the cookies that [SimpleCookie] reads *)
  rq_client : string;
  rq_body : string
}.

Definition header (rq : http_request) (name : string) : option string := assoc_get name (rq_headers rq).
Definition header_or (rq : http_request) (name : string) : string := default "" (header rq name).

Record http_response := {
  rs_status : Z;
  rs_headers : list (string * string);
  rs_body : string
}.

(** What the response puts on the connection for one header. *)
Definition CRLF : string := String (ascii_of_N 13) (String (ascii_of_N 10) "").
Definition header_line (kv : string * string) : string := kv.1 +:+ ": " +:+ kv.2 +:+ CRLF.

Definition VERSIONED_GET : list string :=
  ["/health"; "/livez"; "/readyz"; "/startupz"; "/audit"; "/audit/replay"; "/openapi.json"].

Definition unversioned (route : string) : string :=
  match strip_prefix "/api/v1" route with
  | Some stripped => if String.prefix "/" stripped && str_in stripped VERSIONED_GET then stripped else route
  | None => route
  end.

(** [urlsplit(self.path).path] *)
Definition request_path (rq : http_request) : res string := u ← urlsplit (rq_target rq); Ok (su_path u).

Definition request_id (rq : http_request) (fresh : string) : string :=
  correlation_id (header rq "x-request-id") fresh.

(** [_read_json]; the body is read up to the stated length. *)
Definition read_json `{U : UnicodeData} (max_body_bytes : Z) (rq : http_request) : res pydict :=
  match header rq "content-length" with
  | None => Raise (ValueError "Content-Length is required")
  | Some text =>
      match int_text text with
      | None => Raise (ValueError "Content-Length is invalid")
      | Some length =>
          fail_if ((length <? 0) || (max_body_bytes <? length)) (ValueError "request body exceeds size limit") ;;
          payload ← res_except (json_loads_bytes (String.substring 0 (Z.to_nat length) (rq_body rq)))
            (λ e, match e with
                  | ValueError m => if String.prefix "'utf-8' codec" m then None
                                    else Some (ValueError "request JSON is invalid")
                  | _ => None
                  end);
          match payload with
          | PDict d => Ok d
          | _ => Raise (ValueError "request JSON must be an object")
          end
      end
  end.

(** ** Origins and cookies *)

(** [o.rstrip("/")] *)
Definition cors_char (c : ascii) : bool :=
  ascii_alpha c || ascii_digit c || Ascii.eqb c "." || Ascii.eqb c ":" || Ascii.eqb c "/" ||
  Ascii.eqb c "_" || Ascii.eqb c "-".

Definition cors_headers (cors_origins : list string) (rq : http_request) : list (string * string) :=
  let requested := rstrip_slash (header_or rq "origin") in
  if negb (String.eqb requested "") && all_chars cors_char requested && (String.length requested <=? 255)%nat
     && str_in requested cors_origins
  then [("Access-Control-Allow-Origin", requested);
        ("Access-Control-Expose-Headers", "X-Request-ID, traceparent"); ("Vary", "Origin")]
  else [].

Definition session_cookie_name (secure : bool) : string :=
  if secure then "__Host-gas-session" else "gas-session".
Definition state_cookie_name (secure : bool) : string :=
  if secure then "__Host-gas-login" else "gas-login".

Definition cookie_text (secure : bool) (name token : string) (max_age : Z) : string :=
  let cookie := name +:+ "=" +:+ token +:+ "; Path=/; HttpOnly; SameSite=Lax; Max-Age=" +:+ string_of_Z max_age in
  if secure then cookie +:+ "; Secure" else cookie.
Definition session_cookie (secure : bool) (token : string) (max_age : Z) : string :=
  cookie_text secure (session_cookie_name secure) token max_age.
Definition state_cookie (secure : bool) (token : string) (max_age : Z) : string :=
  cookie_text secure (state_cookie_name secure) token max_age.

(** [_cookie_value]: an empty value counts as none. *)
Definition cookie_value (rq : http_request) (name : string) : option string :=
  match rq_cookie rq name with Some v => if String.eqb v "" then None else Some v | None => None end.

(** [scheme, separator, credential = supplied.partition(" ")] and the credential
    of a bearer header *)
Definition bearer_scheme (supplied : string) : bool * string :=
  let '(scheme, rest) := cut " " supplied in
  (match rest with Some _ => true | None => false end && String.eqb (str_lower scheme) "bearer", default "" rest).
Definition bearer_credential `{U : UnicodeData} (supplied : string) : string :=
  let '(bearer, credential) := bearer_scheme supplied in
  if bearer then join "" (strip_chars credential) else "".

(** ** The rate limiter of several servers *)

(** The protocol [RateLimiter]; the clock is an argument. *)
Class RateLimiter (W : Type) := { rl_allow : spec_float → string → M W bool }.

#[export] Instance bounded_limiter : RateLimiter BoundedRateLimiter :=
  {| rl_allow := λ now client l, let '(b, l') := allow client now l in (Ok b, l') |}.

(** A row of [gas_rate_limit_hits]: namespace, client, time of the server. *)
Abbreviation hit_row := (string * string * Z)%type.

Record PostgresRateLimiter := {
  pr_limit : Z;
  pr_window_seconds : Z;
  pr_namespace : string;
  pr_hits : list hit_row
}.

Definition postgres_limiter_init (limit window_seconds : Z) (namespace : string) (hits : list hit_row)
    : res PostgresRateLimiter :=
  fail_if ((limit <=? 0) || (window_seconds <=? 0) || String.eqb namespace "")
    (ValueError "rate limiter bounds and namespace must be positive") ;;
  Ok {| pr_limit := limit; pr_window_seconds := window_seconds; pr_namespace := namespace; pr_hits := hits |}.

Definition client_hit (l : PostgresRateLimiter) (client : string) (r : hit_row) : bool :=
  String.eqb r.1.1 (pr_namespace l) && String.eqb r.1.2 client.

Definition set_hits (l : PostgresRateLimiter) (hits : list hit_row) : PostgresRateLimiter :=
  {| pr_limit := pr_limit l; pr_window_seconds := pr_window_seconds l; pr_namespace := pr_namespace l;
     pr_hits := hits |}.

(** [allow], with the server's time in microseconds and whether its transaction was
    committed; the advisory lock makes the transactions of a client follow each
    other. *)
Definition postgres_allow (committed : bool) (now : Z) (client : string) (l : PostgresRateLimiter)
    : bool * PostgresRateLimiter :=
  if String.eqb client "" || negb committed || negb (pg_text client) then (false, l) else
  let kept := List.filter (λ r : hit_row, negb (r.2 <? now - pr_window_seconds l * 1000000)) (pr_hits l) in
  if Z.of_nat (length (List.filter (client_hit l client) kept)) <? pr_limit l
  then (true, set_hits l (kept ++ [(pr_namespace l, client, now)]))
  else (false, set_hits l kept).

(** Calls of servers that share the table and their settings. *)
Definition postgres_limiter_run (l : PostgresRateLimiter) (c : bool * Z * string) : PostgresRateLimiter :=
  (postgres_allow c.1.1 c.1.2 c.2 l).2.

(** * Lemmas *)

Section PostgresLimiter.
Implicit Types l : PostgresRateLimiter.

Lemma filter_filter_le {A} (f g : A → bool) (xs : list A) :
  (length (List.filter f (List.filter g xs)) ≤ length (List.filter f xs))%nat.
Proof.
  induction xs as [|x xs IH]; cbn; [lia|]. destruct (g x); cbn; destruct (f x); cbn; lia.
Qed.

Lemma postgres_allow_settings c l : pr_limit (postgres_limiter_run l c) = pr_limit l ∧
  pr_namespace (postgres_limiter_run l c) = pr_namespace l.
Proof.
  unfold postgres_limiter_run, postgres_allow. destruct (_ || _); [done|]. by destruct (_ <? _).
Qed.

(** No client ever has more hits in the table than the limit. *)
Lemma postgres_limiter_bound calls l client :
  (∀ client, Z.of_nat (length (List.filter (client_hit l client) (pr_hits l))) ≤ pr_limit l) →
  let l' := fold_left postgres_limiter_run calls l in
  Z.of_nat (length (List.filter (client_hit l' client) (pr_hits l'))) ≤ pr_limit l'.
Proof.
  revert l. induction calls as [|c calls IH]; intros l Hl; [apply Hl|]. cbn [fold_left].
  apply IH. clear IH client. intros client. destruct (postgres_allow_settings c l) as [Hlim Hns].
  rewrite Hlim. unfold client_hit at 1. rewrite Hns. fold (client_hit l client). clear Hlim Hns.
  unfold postgres_limiter_run, postgres_allow. destruct (_ || _); [apply Hl|].
  match goal with |- context [List.filter ?g (pr_hits l)] => set (kept := List.filter g (pr_hits l)) end.
  assert (∀ k, Z.of_nat (length (List.filter (client_hit l k) kept)) ≤ pr_limit l) as Hk.
  { intros k. etransitivity; [apply inj_le, filter_filter_le|apply Hl]. }
  destruct (Z.ltb_spec (Z.of_nat (length (List.filter (client_hit l c.2) kept))) (pr_limit l)) as [Hlt|Hge];
    cbn [snd pr_hits set_hits]; [|apply Hk].
  rewrite List.filter_app, length_app. unfold client_hit at 2. cbn. rewrite String.eqb_refl. cbn.
  destruct (String.eqb_spec c.2 client) as [Heq|]; cbn; [rewrite Heq in Hlt|specialize (Hk client)]; lia.
Qed.
End PostgresLimiter.

(** A refused or failed transaction lets nothing through. *)
Lemma postgres_allow_fails_closed now client l : postgres_allow false now client l = (false, l).
Proof. unfold postgres_allow. by rewrite orb_true_r. Qed.
