(* ===== verification/HttpAuth.v ===== *)
(** http_api.py: who a request comes from and what it may do.  A request is
    authenticated by an operator key, an OpenID Connect token, a browser
    session or a shared token; an identity gets the roles assigned to it in the
    identity store, and the tables of routes say which roles a route needs.
    The browser sign-in is the authorization-code flow.

    Clocks, random tokens, the key provider and the token endpoint are
    arguments.  The file shows what an authenticated request has proved, that
    the tables refuse what they do not name, and what a completed sign-in went
    through. *)

From S2P Require Import Prelude PyFloat PyVal Json Sha256 Base64 Crypto Models Policy Rbac Orders SemVer PyText Jobs JobsPostgres Trust Anchors Replay Storage Arbiter PolicyRegistry ReplayStore Mesh Issuer Engine Deployment Service Observability Platform Lines OperatorAuth Worker Tokens IdentityStore HttpSessions HttpRequest.

(** ** The configuration *)

Record AuthenticatedAPI := {
  ap_bearer_token : option string;
  ap_oidc_validator : option OIDCValidator;
  ap_oidc_only : bool;
  ap_auth_client : option OIDCAuthCodeClient;
  ap_login_validator : option OIDCValidator;
  ap_cookie_secure : bool;
  ap_operator_token : option string;
  ap_operator_role : string;
  ap_max_body_bytes : Z;
  ap_cors_origins : list string
}.

Definition api_init (bearer_token : option string) (oidc_validator : option OIDCValidator) (oidc_only : bool)
    (auth_client : option OIDCAuthCodeClient) (login_validator : option OIDCValidator)
    (cookie_secure : bool) (operator_token : option string) (operator_role : string)
    (max_body_bytes : Z) (cors_origins : list string) : res AuthenticatedAPI :=
  let no_oidc := match oidc_validator with None => true | Some _ => false end in
  fail_if (falsy_opt bearer_token && no_oidc) (ValueError "bearer_token or oidc_validator is required") ;;
  fail_if (oidc_only && no_oidc) (ValueError "oidc_validator is required when oidc_only is enabled") ;;
  fail_if (match auth_client with Some _ => no_oidc | None => false end)
    (ValueError "oidc_validator is required for browser sign-in") ;;
  let login := match auth_client, login_validator with
               | Some _, None => oidc_validator | _, v => v end in
  fail_if (max_body_bytes <=? 0) (ValueError "positive max_body_bytes is required") ;;
  Ok {| ap_bearer_token := bearer_token; ap_oidc_validator := oidc_validator; ap_oidc_only := oidc_only;
        ap_auth_client := auth_client; ap_login_validator := login; ap_cookie_secure := cookie_secure;
        ap_operator_token := operator_token; ap_operator_role := operator_role;
        ap_max_body_bytes := max_body_bytes;
        ap_cors_origins := map rstrip_slash (List.filter (λ o, negb (String.eqb o "")) cors_origins) |}.

(** What [_authenticated] sets on the request. *)
Record request_attributes := {
  at_operator : option (string * string);      (** operator and key *)
  at_roles : list string;
  at_identity : option RuntimeIdentity;
  at_session : bool
}.
Definition no_attributes : request_attributes :=
  {| at_operator := None; at_roles := []; at_identity := None; at_session := false |}.

Section Auth.
Context `{U : UnicodeData} `{JC : JWTCrypto} {T : Type} `{IS : IdentityStore T}
        {R : Type} `{OR : OIDCSessionRepository R} {PV : Type}.

(** The stores that a request meets; [hs_keys] is the key provider's state. *)
Record auth_state := {
  hs_operators : option (list OperatorAPIKey);
  hs_identity : option (IdentityTables T);
  hs_sessions : option (OIDCSessionStore R);
  hs_keys : PV
}.

(** What one request reads from outside. *)
Record auth_env := {
  en_validator_now : spec_float;
  en_session_now : spec_float;
  en_request_id : string;
  en_row_id : string;
  en_event_id : string;
  en_stamp : T;
  en_provider : JWKSProvider PV;
  en_login_provider : JWKSProvider PV;
  en_state_token : string;
  en_nonce_token : string;
  en_verifier_token : string;
  en_session_token : string;
  en_http_post : string → string → res string
}.

Definition on_keys {A} (m : M PV A) : M auth_state A :=
  zoom hs_keys (λ k s, {| hs_operators := hs_operators s; hs_identity := hs_identity s;
                          hs_sessions := hs_sessions s; hs_keys := k |}) m.

Definition set_identity (t : IdentityTables T) (s : auth_state) : auth_state :=
  {| hs_operators := hs_operators s; hs_identity := Some t; hs_sessions := hs_sessions s; hs_keys := hs_keys s |}.
Definition set_session_store (o : OIDCSessionStore R) (s : auth_state) : auth_state :=
  {| hs_operators := hs_operators s; hs_identity := hs_identity s; hs_sessions := Some o; hs_keys := hs_keys s |}.

(** A method of the identity store [t], or of the session store [o]. *)
Definition on_identity {A} (t : IdentityTables T) (m : M (IdentityTables T) A) : M auth_state A :=
  λ s, let '(r, t') := m t in (r, set_identity t' s).
Definition on_sessions {A} (o : OIDCSessionStore R) (m : M (OIDCSessionStore R) A) : M auth_state A :=
  λ s, let '(r, o') := m o in (r, set_session_store o' s).

Section Requests.
Context (A : AuthenticatedAPI) (E : auth_env).

Definition no_oidc : bool := match ap_oidc_validator A with None => true | Some _ => false end.

(** ** Shared tokens *)

(** [a is not None and compare_digest(supplied, f"Bearer {a}")] *)
Definition bearer_matches (token : option string) (supplied : string) : res bool :=
  match token with Some t => compare_digest supplied ("Bearer " +:+ t) | None => Ok false end.

Definition health_routes : list string := ["/health"; "/livez"; "/readyz"; "/startupz"].

Definition health_probe_authorized (command path supplied : string) : res bool :=
  if String.eqb command "GET" && str_in path health_routes
  then bearer_matches (ap_bearer_token A) supplied else Ok false.

(** The end of [_authenticated]. *)
Definition shared_token_authorized (command path supplied : string) : res bool :=
  if ap_oidc_only A then health_probe_authorized command path supplied
  else if falsy_opt (ap_bearer_token A) then bearer_matches (ap_operator_token A) supplied
  else
    by_operator ← bearer_matches (ap_operator_token A) supplied;
    if by_operator : bool then Ok true else
    by_bearer ← bearer_matches (ap_bearer_token A) supplied;
    if by_bearer : bool then Ok true else compare_digest supplied (default "" (ap_bearer_token A)).

Definition by_token (r : res bool) : res (option request_attributes) :=
  b ← r; Ok (if b : bool then Some no_attributes else None).

(** ** Identities *)

(** [replace(identity, ...)] *)
Definition with_roles (roles : list string) (i : RuntimeIdentity) : RuntimeIdentity :=
  {| ri_service := ri_service i; ri_environment := ri_environment i; ri_tenant_id := ri_tenant_id i;
     ri_actor_id := ri_actor_id i; ri_request_id := ri_request_id i; ri_source := ri_source i;
     ri_principal_id := ri_principal_id i; ri_roles := roles; ri_scope := ri_scope i;
     ri_subject := ri_subject i; ri_name := ri_name i; ri_email := ri_email i; ri_groups := ri_groups i;
     ri_issuer := ri_issuer i; ri_identity_source := ri_identity_source i;
     ri_service_principal := ri_service_principal i; ri_identity_type := ri_identity_type i |}.
Definition with_request_id (id : string) (i : RuntimeIdentity) : RuntimeIdentity :=
  {| ri_service := ri_service i; ri_environment := ri_environment i; ri_tenant_id := ri_tenant_id i;
     ri_actor_id := ri_actor_id i; ri_request_id := Some id; ri_source := ri_source i;
     ri_principal_id := ri_principal_id i; ri_roles := ri_roles i; ri_scope := ri_scope i;
     ri_subject := ri_subject i; ri_name := ri_name i; ri_email := ri_email i; ri_groups := ri_groups i;
     ri_issuer := ri_issuer i; ri_identity_source := ri_identity_source i;
     ri_service_principal := ri_service_principal i; ri_identity_type := ri_identity_type i |}.

Definition enrich_identity (i : RuntimeIdentity) : M auth_state (option RuntimeIdentity) :=
  s ← get_state;
  match hs_identity s with
  | None => mret (Some i)
  | Some t =>
      if falsy_opt (ri_subject i) || falsy_opt (ri_tenant_id i) || falsy_opt (ri_issuer i) then mret None
      else
        let subject := default "" (ri_subject i) in
        let tenant := default "" (ri_tenant_id i) in
        assigned ← lift_res (is_roles_for subject tenant t);
        let enriched := with_roles (sort_strings (dedup (ri_roles i ++ assigned))) i in
        on_identity t (is_record (en_row_id E) (en_event_id E) (en_stamp E)
          {| au_subject := subject; au_tenant := tenant; au_email := ri_email enriched;
             au_display_name := ri_name enriched; au_issuer := default "" (ri_issuer i);
             au_roles := ri_roles enriched;
             au_identity_source := if falsy_opt (ri_identity_source i) then "oidc"
                                   else default "" (ri_identity_source i);
             au_service_principal := ri_service_principal i; au_client_id := ri_principal_id i |}) ;;
        mret (Some enriched)
  end.

Definition identity_attributes (session : bool) (i : RuntimeIdentity) : request_attributes :=
  {| at_operator := None; at_roles := []; at_identity := Some i; at_session := session |}.

Definition enriched_attributes (session : bool) (i : RuntimeIdentity)
    : M auth_state (option request_attributes) :=
  enriched ← enrich_identity i; mret (identity_attributes session <$> enriched).

(** A bearer credential when OIDC is configured; [None] for a rejected token. *)
Definition validated_identity (V : OIDCValidator) (rq : http_request) (credential : string)
    : M auth_state (option RuntimeIdentity) :=
  external ← try_except
    (id ← on_keys (oidc_validate V (en_provider E) (en_validator_now E) None (PStr credential)); mret (Some id))
    (λ e, match e with IdentityValidationError _ => Some (mret None) | _ => None end);
  match external with
  | None => mret None
  | Some id =>
      i ← lift_res (from_external_identity id "http-api" "dev" (Some (request_id rq (en_request_id E))) "api"
                      (ap_operator_role A));
      mret (Some i)
  end.

(** [dataclasses.replace] on a record of the repository, which has no field
    [request_id] *)
Definition session_record_error : exn :=
  TypeError "_BrowserSession.__init__() got an unexpected keyword argument 'request_id'".

(** The identity of the session cookie, if there is one. *)
Definition session_identity (rq : http_request) : M auth_state (option RuntimeIdentity) :=
  s ← get_state;
  match hs_sessions s, cookie_value rq (session_cookie_name (ap_cookie_secure A)) with
  | Some o, Some token =>
      v ← on_sessions o (get_session (en_session_now E) token);
      match v with
      | None => mret None
      | Some (SessionRecord _) => raise session_record_error
      | Some (SessionIdentity i) => mret (Some (with_request_id (request_id rq (en_request_id E)) i))
      end
  | _, _ => mret None
  end.

(** The operator key of the credential, where keys are accepted. *)
Definition operator_key (credential : string) (s : auth_state) : option OperatorAPIKey :=
  match hs_operators s with
  | Some rows => if no_oidc && negb (ap_oidc_only A) && negb (String.eqb credential "")
                 then authenticate (PStr credential) rows else None
  | None => None
  end.

Definition operator_attributes (k : OperatorAPIKey) : request_attributes :=
  {| at_operator := Some (ok_operator_id k, ok_key_id k); at_roles := [role_value OPERATOR];
     at_identity := None; at_session := false |}.

(** [_authenticated]; [path] is the path of the request target. *)
Definition authenticated (path : string) (rq : http_request) : M auth_state (option request_attributes) :=
  let supplied := header_or rq "authorization" in
  let credential := bearer_credential supplied in
  s ← get_state;
  match operator_key credential s with
  | Some k => mret (if String.prefix "/admin" path then Some (operator_attributes k) else None)
  | None =>
      let by_session :=
        identity ← session_identity rq;
        match identity with
        | Some i => enriched_attributes true i
        | None => lift_res (by_token (shared_token_authorized (rq_command rq) path supplied))
        end in
      match ap_oidc_validator A with
      | Some V =>
          if String.eqb credential "" then by_session
          else
            identity ← validated_identity V rq credential;
            match identity with
            | Some i => enriched_attributes false i
            | None => lift_res (by_token (health_probe_authorized (rq_command rq) path supplied))
            end
      | None => by_session
      end
  end.

Definition actor_id (a : request_attributes) : string :=
  match at_operator a with
  | Some (operator, key) =>
      if String.eqb key "" then "api-key:" +:+ operator else "api-key:" +:+ operator +:+ ":" +:+ key
  | None =>
      match at_identity a with
      | Some i => if falsy_opt (ri_actor_id i) then "shared-token" else default "" (ri_actor_id i)
      | None => "shared-token"
      end
  end.

(** ** Routes *)

Definition execution_routes : list string :=
  ["/authorize"; "/execute"; "/api/v1/authorize"; "/api/v1/execute"].

Definition api_required_roles (method route : string) : list Role :=
  if String.eqb method "GET" && str_in route ["/audit"; "/api/v1/audit"; "/audit/replay"] then [AUDITOR]
  else if String.eqb method "POST" && String.eqb route "/audit/replay/certify" then [AUDITOR]
  else if String.eqb method "POST" && str_in route execution_routes then [OPERATOR]
  else [].

(** [PLATFORM_ADMIN in roles or roles & required] *)
Definition role_granted (roles : list string) (required : list Role) : bool :=
  str_in (role_value PLATFORM_ADMIN) roles || existsb (λ r, str_in (role_value r) roles) required.

Definition api_authorized (a : request_attributes) (method route : string) : bool :=
  let required := api_required_roles method route in
  if negb (existsb (λ _, true) required) then true else
  match at_identity a with
  | None => no_oidc && negb (ap_oidc_only A)
  | Some i =>
      if String.eqb method "POST" && str_in route execution_routes &&
         (falsy_opt (ri_subject i) || falsy_opt (ri_tenant_id i) || falsy_opt (ri_issuer i) ||
          falsy_opt (ri_identity_source i))
      then false
      else role_granted (ri_roles i) required
  end.

(** [re.fullmatch(prefix + "([^/]+)" + suffix, route)] *)
Definition segment_between (prefix suffix route : string) : bool :=
  match strip_prefix prefix route with
  | None => false
  | Some rest =>
      let '(segment, after) := cut "/" rest in
      negb (String.eqb segment "") && match after with Some a => String.eqb a suffix | None => false end
  end.

Definition admin_required_roles (method route : string) : list Role :=
  if String.eqb method "GET" then
    if str_in route ["/admin"; "/admin/app.js"; "/admin/app.css"] then [POLICY_ADMIN; OPERATOR; AUDITOR; APPROVER]
    else if String.eqb route "/admin/policies" then [POLICY_ADMIN; OPERATOR; AUDITOR]
    else if String.prefix "/admin/policy-registry/" route then [POLICY_ADMIN; AUDITOR]
    else if String.eqb route "/admin/proposals" then [POLICY_ADMIN; APPROVER; AUDITOR]
    else if String.eqb route "/admin/trust" then [PLATFORM_ADMIN; AUDITOR]
    else if String.eqb route "/admin/operator-keys" then [PLATFORM_ADMIN]
    else if String.prefix "/admin/jobs/" route then [OPERATOR; AUDITOR]
    else if str_in route ["/admin/governance-log"; "/admin/metrics"; "/admin/control-room"]
    then [POLICY_ADMIN; OPERATOR; AUDITOR; APPROVER]
    else if str_in route ["/admin/identities/role-assignments"; "/admin/identities/service-principals";
                          "/admin/identities/events"] then [PLATFORM_ADMIN]
    else []
  else if negb (String.eqb method "POST") then []
  else if str_in route ["/admin/proposals/prepare"; "/admin/proposals"] then [POLICY_ADMIN]
  else if str_in route ["/admin/policy-registry/publish"; "/admin/policy-registry/activate";
                        "/admin/policy-registry/rollback"; "/admin/policy-registry/deprecate";
                        "/admin/policy-registry/revoke"] then [POLICY_ADMIN]
  else if segment_between "/admin/proposals/" "activate" route then [POLICY_ADMIN]
  else if segment_between "/admin/proposals/" "prepare-approval" route ||
          segment_between "/admin/proposals/" "approve" route then [APPROVER]
  else if String.prefix "/admin/trust/keys" route then [PLATFORM_ADMIN]
  else if String.eqb route "/admin/operator-keys" || segment_between "/admin/operator-keys/" "revoke" route
  then [PLATFORM_ADMIN]
  else if String.eqb route "/admin/identities/role-assignments" then [PLATFORM_ADMIN]
  else if String.eqb route "/admin/replay/anchor" then [PLATFORM_ADMIN]
  else if String.eqb route "/admin/jobs" then [OPERATOR]
  else [].

Definition admin_authorized (a : request_attributes) (rq : http_request) (method route : string) : res bool :=
  let required := admin_required_roles method route in
  if negb (existsb (λ _, true) required) then Ok false else
  let '(bearer, credential) := bearer_scheme (header_or rq "authorization") in
  by_operator ← match ap_operator_token A with
                | Some t => if no_oidc && negb (ap_oidc_only A) && bearer
                            then compare_digest (join "" (strip_chars credential)) t else Ok false
                | None => Ok false
                end;
  if by_operator : bool then Ok true else
  Ok (role_granted (match at_identity a with Some i => ri_roles i | None => at_roles a end) required).

Definition operator_authorized (a : request_attributes) (rq : http_request) (write : bool) : res bool :=
  match at_operator a, at_identity a with
  | Some _, _ => Ok true
  | None, Some i => Ok (role_granted (ri_roles i) (if write then [OPERATOR] else [OPERATOR; AUDITOR]))
  | None, None => bearer_matches (ap_operator_token A) (header_or rq "authorization")
  end.

(** [_session_origin_allowed] *)
Definition session_origin_allowed (rq : http_request) : res bool :=
  match ap_auth_client A with
  | None => Ok false
  | Some c =>
      expected ← urlsplit (oc_redirect_uri c);
      let origin := header_or rq "origin" in
      if String.eqb origin "" then Ok false
      else compare_digest origin (su_scheme expected +:+ "://" +:+ su_netloc expected)
  end.

(** ** The browser sign-in *)

Definition auth_error (status : Z) (message : string) (cookie : option string) : res http_response :=
  encoded ← json_dumps default_style (PDict [("error", PStr message)]);
  Ok {| rs_status := status;
        rs_headers := [("Content-Type", "application/json");
                       ("Content-Length", string_of_Z (Z.of_nat (String.length encoded)));
                       ("Cache-Control", "no-store")] ++
                      match cookie with Some c => [("Set-Cookie", c)] | None => [] end ++ security_headers;
        rs_body := encoded |}.

Definition request_query (rq : http_request) : res (list (string * list string)) :=
  u ← urlsplit (rq_target rq); parse_qs (su_query u).

Definition query_values (name : string) (query : list (string * list string)) : list string :=
  default [] (assoc_get name query).

(** A path of this site, or the dashboard. *)
Definition safe_next_path (next_path : string) : res string :=
  parsed ← urlsplit next_path;
  Ok (if negb (String.prefix "/" next_path) || String.prefix "//" next_path || has_char "\" next_path ||
         negb (String.eqb (su_scheme parsed) "") || negb (String.eqb (su_netloc parsed) "")
      then "/admin" else next_path).

Definition clear_state_cookie : string := state_cookie (ap_cookie_secure A) "" 0.

Definition handle_oidc_login (rq : http_request) : M auth_state http_response :=
  s ← get_state;
  match ap_auth_client A, hs_sessions s with
  | Some client, Some o =>
      query ← lift_res (request_query rq);
      next_path ← lift_res (safe_next_path
        match assoc_get "next" query with Some (n :: _) => n | _ => "/admin" end);
      started ← try_except
        (login ← on_sessions o (begin_login (en_session_now E) (en_state_token E) (en_nonce_token E)
                                  (en_verifier_token E) next_path);
         mret (Some login))
        (λ e, if is_ValueError e then Some (mret None) else None);
      match started with
      | None => lift_res (auth_error 503 "OIDC sign-in unavailable" None)
      | Some (state, nonce, challenge) =>
          mret {| rs_status := 302;
                  rs_headers := [("Location", authorization_url client state nonce challenge);
                                 ("Cache-Control", "no-store"); ("Pragma", "no-cache");
                                 ("Set-Cookie", state_cookie (ap_cookie_secure A) state LOGIN_STATE_TTL_SECONDS)] ++
                                security_headers;
                  rs_body := "" |}
      end
  | _, _ => lift_res (auth_error 404 "OIDC sign-in is not configured" None)
  end.

(** [consume_login], then the code's token, then the session. *)
Definition complete_login (client : OIDCAuthCodeClient) (V : OIDCValidator) (o : OIDCSessionStore R)
    (state code : string) : M auth_state (PendingOIDCLogin * string * Z) :=
  pending ← on_sessions o (consume_login (en_session_now E) state);
  tokens ← lift_res (exchange_code (en_http_post E) client code (pl_code_verifier pending));
  id ← on_keys (oidc_validate V (en_login_provider E) (en_validator_now E) (Some (pl_nonce pending))
                  (dict_get "id_token" tokens));
  s ← get_state;
  session ← on_sessions (default o (hs_sessions s))
              (create_session (en_session_now E) (en_session_token E) id);
  mret (pending, session.1, session.2).

Definition handle_oidc_callback (rq : http_request) : M auth_state http_response :=
  s ← get_state;
  match ap_auth_client A, ap_login_validator A, hs_sessions s with
  | Some client, Some V, Some o =>
      query ← lift_res (request_query rq);
      let invalid := lift_res (auth_error 400 "invalid OIDC callback" (Some clear_state_cookie)) in
      match query_values "state" query, cookie_value rq (state_cookie_name (ap_cookie_secure A)) with
      | [state], Some cookie =>
          same ← lift_res (compare_digest state cookie);
          if negb same then invalid
          else if existsb (λ _, true) (query_values "error" query) then
            consumed ← try_except (on_sessions o (consume_login (en_session_now E) state) ;; mret true)
              (λ e, match e with IdentityValidationError _ => Some (mret false) | _ => None end);
            if consumed : bool
            then lift_res (auth_error 401 "Entra sign-in was not completed" (Some clear_state_cookie))
            else invalid
          else
            match query_values "code" query with
            | [code] =>
                if String.eqb code "" || (8192 <? py_len code) then invalid else
                completed ← try_except (c ← complete_login client V o state code; mret (Some c))
                  (λ e, if is_ValueError e then Some (mret None) else None);
                match completed with
                | None => lift_res (auth_error 401 "Entra sign-in could not be validated" (Some clear_state_cookie))
                | Some (pending, token, max_age) =>
                    mret {| rs_status := 302;
                            rs_headers := [("Location", pl_next_path pending); ("Cache-Control", "no-store");
                                           ("Set-Cookie", session_cookie (ap_cookie_secure A) token max_age);
                                           ("Set-Cookie", clear_state_cookie)] ++ security_headers;
                            rs_body := "" |}
                end
            | _ => invalid
            end
      | _, _ => invalid
      end
  | _, _, _ => lift_res (auth_error 404 "OIDC sign-in is not configured" None)
  end.

Definition revoke_browser_session (rq : http_request) : M auth_state unit :=
  s ← get_state;
  match hs_sessions s, cookie_value rq (session_cookie_name (ap_cookie_secure A)) with
  | Some o, Some token => on_sessions o (revoke_session token)
  | _, _ => mret tt
  end.
End Requests.
End Auth.

(** * Lemmas *)

Section AuthLemmas.
Context `{U : UnicodeData} `{JC : JWTCrypto} {T : Type} {IS : IdentityStore T} {IL : IdentityStoreLaws T}
        {R : Type} `{OR : OIDCSessionRepository R} {PV : Type}.
Context (A : AuthenticatedAPI) (E : auth_env (T := T) (PV := PV)).
Implicit Types s : auth_state (T := T) (R := R) (PV := PV).

(** The identity behind a request, before the roles of the identity store. *)
Inductive identity_source (rq : http_request) s : RuntimeIdentity → Prop :=
| FromToken V id keys i :
    ap_oidc_validator A = Some V →
    oidc_validate V (en_provider E) (en_validator_now E) None
      (PStr (bearer_credential (header_or rq "authorization"))) (hs_keys s) = (Ok id, keys) →
    from_external_identity id "http-api" "dev" (Some (request_id rq (en_request_id E))) "api"
      (ap_operator_role A) = Ok i →
    identity_source rq s i
| FromSession o token i o' :
    hs_sessions s = Some o → cookie_value rq (session_cookie_name (ap_cookie_secure A)) = Some token →
    get_session (en_session_now E) token o = (Ok (Some (SessionIdentity i)), o') →
    identity_source rq s (with_request_id (request_id rq (en_request_id E)) i).

(** [i] is [base] with the roles assigned to its subject in its tenant. *)
Record enriched_from (tables : option (IdentityTables T)) (base i : RuntimeIdentity) : Prop := {
  ef_same : i = with_roles (ri_roles i) base;
  ef_none : tables = None → i = base;
  ef_roles : ∀ t, tables = Some t →
    ∃ subject tenant, ri_subject base = Some subject ∧ ri_tenant_id base = Some tenant ∧
    subject ≠ "" ∧ tenant ≠ "" ∧
    ∀ r, r ∈ ri_roles i ↔ r ∈ ri_roles base ∨ r ∈ roles_for subject tenant t
}.

Lemma falsy_opt_false v : falsy_opt v = false → ∃ x, v = Some x ∧ x ≠ "".
Proof. destruct v as [x|]; [|done]. cbn. intros Hx. exists x. split; [done|]. by intros ->. Qed.

Lemma enrich_identity_ok base s i s' :
  enrich_identity E base s = (Ok (Some i), s') → enriched_from (hs_identity s) base i.
Proof.
  unfold enrich_identity. rewrite M_bind_run. unfold get_state.
  destruct (hs_identity s) as [t|] eqn:Ht.
  - destruct (falsy_opt (ri_subject base)) eqn:H1; [done|]. destruct (falsy_opt (ri_tenant_id base)) eqn:H2; [done|].
    destruct (falsy_opt (ri_issuer base)) eqn:H3; [done|]. cbn [orb]. intros H.
    apply M_bind_ok in H as (roles & s1 & [Hroles%is_roles_ok ->]%lift_res_ok & H).
    apply M_bind_ok in H as ([] & s2 & _ & H). injection H as <- _.
    apply falsy_opt_false in H1 as (sub & Hsub & Hsub0), H2 as (ten & Hten & Hten0).
    split; [done|congruence|]. intros t' Ht'. assert (t' = t) as -> by congruence. exists sub, ten. split_and!; try done.
    intros r. cbn [ri_roles with_roles]. rewrite elem_of_sorted_dedup, elem_of_app.
    by rewrite Hsub, Hten in Hroles; cbn in Hroles; subst roles.
  - intros [= <- <-]. split; [by destruct base|done|congruence].
Qed.

Lemma enriched_attributes_ok session base s a s' :
  enriched_attributes E session base s = (Ok (Some a), s') →
  ∃ i, a = identity_attributes session i ∧ enriched_from (hs_identity s) base i.
Proof.
  unfold enriched_attributes. intros H. apply M_bind_ok in H as (o & s1 & Ho & H). injection H as H _.
  destruct o as [i|]; [|done]. injection H as <-. exists i. split; [done|]. by apply enrich_identity_ok in Ho.
Qed.

Lemma compare_digest_true a b : compare_digest a b = Ok true → a = b.
Proof. unfold compare_digest. destruct (_ && _); [|done]. intros [= ?%String.eqb_eq]. done. Qed.

(** A shared token the request may state. *)
Inductive shared_token (supplied : string) : Prop :=
| SharedOperator t : ap_operator_token A = Some t → supplied = "Bearer " +:+ t → shared_token supplied
| SharedBearer t : ap_bearer_token A = Some t → supplied = "Bearer " +:+ t ∨ supplied = t → shared_token supplied.

Definition health_probe (rq : http_request) (path : string) : Prop :=
  rq_command rq = "GET" ∧ path ∈ health_routes ∧
  ∃ t, ap_bearer_token A = Some t ∧ header_or rq "authorization" = "Bearer " +:+ t.

Lemma bearer_matches_true token supplied :
  bearer_matches token supplied = Ok true → ∃ t, token = Some t ∧ supplied = "Bearer " +:+ t.
Proof. destruct token as [t|]; [|done]. intros ->%compare_digest_true. by exists t. Qed.

Lemma health_probe_true rq path :
  health_probe_authorized A (rq_command rq) path (header_or rq "authorization") = Ok true → health_probe rq path.
Proof.
  unfold health_probe_authorized. destruct (_ && _) eqn:He; [|done]. breflect.
  intros (t & Ht & Hs)%bearer_matches_true. split_and!; [done|by apply str_in_spec|by exists t].
Qed.

Lemma shared_token_true rq path :
  shared_token_authorized A (rq_command rq) path (header_or rq "authorization") = Ok true →
  if ap_oidc_only A then health_probe rq path else shared_token (header_or rq "authorization").
Proof.
  unfold shared_token_authorized. destruct (ap_oidc_only A); [apply health_probe_true|].
  destruct (falsy_opt (ap_bearer_token A)) eqn:Hb.
  - intros (t & Ht & Hs)%bearer_matches_true. by eapply SharedOperator.
  - apply falsy_opt_false in Hb as (b & Hb & _). intros H.
    destruct (bearer_matches (ap_operator_token A) _) as [[]|] eqn:Ho; cbn in H; [| |done].
    + apply bearer_matches_true in Ho as (t & Ht & Hs). by eapply SharedOperator.
    + destruct (bearer_matches (ap_bearer_token A) _) as [[]|] eqn:Hbe; cbn in H; [| |done].
      * apply bearer_matches_true in Hbe as (t & Ht & Hs). eapply SharedBearer; [done|by left].
      * rewrite Hb in H. apply compare_digest_true in H. eapply SharedBearer; [done|by right].
Qed.

Lemma by_token_ok r a : by_token r = Ok (Some a) → r = Ok true ∧ a = no_attributes.
Proof. destruct r as [[]|]; cbn; by intros [= <-]. Qed.

(** What the attributes of an accepted request stand for. *)
Inductive accepted (path : string) (rq : http_request) s : request_attributes → Prop :=
| AcceptedKey k :
    ap_oidc_validator A = None → ap_oidc_only A = false →
    operator_key A (bearer_credential (header_or rq "authorization")) s = Some k →
    String.prefix "/admin" path = true → accepted path rq s (operator_attributes k)
| AcceptedIdentity session base i :
    identity_source rq s base → enriched_from (hs_identity s) base i →
    accepted path rq s (identity_attributes session i)
| AcceptedToken :
    ap_oidc_only A = false → shared_token (header_or rq "authorization") →
    ap_oidc_validator A = None ∨ bearer_credential (header_or rq "authorization") = "" →
    accepted path rq s no_attributes
| AcceptedProbe : health_probe rq path → accepted path rq s no_attributes.

Lemma operator_key_some credential s k :
  operator_key A credential s = Some k → ap_oidc_validator A = None ∧ ap_oidc_only A = false.
Proof.
  unfold operator_key, no_oidc. destruct (hs_operators s); [|done].
  destruct (ap_oidc_validator A); [done|]. by destruct (ap_oidc_only A).
Qed.

Lemma validated_identity_ok V rq s i s' :
  ap_oidc_validator A = Some V →
  validated_identity A E V rq (bearer_credential (header_or rq "authorization")) s = (Ok (Some i), s') →
  identity_source rq s i ∧ hs_identity s' = hs_identity s.
Proof.
  intros HV. unfold validated_identity. rewrite M_bind_run. unfold try_except, on_keys, zoom.
  rewrite M_bind_run.
  destruct (oidc_validate _ _ _ _ _ _) as [[id|e] keys] eqn:Hv; cbn; [|by destruct e].
  intros H. apply M_bind_ok in H as (j & s1 & [Hf ->]%lift_res_ok & H). injection H as <- <-.
  split; [by eapply FromToken|done].
Qed.

Lemma session_identity_ok rq s i s' :
  session_identity A E rq s = (Ok (Some i), s') → identity_source rq s i ∧ hs_identity s' = hs_identity s.
Proof.
  unfold session_identity. rewrite M_bind_run. unfold get_state.
  destruct (hs_sessions s) as [o|] eqn:Ho; [|done].
  destruct (cookie_value _ _) as [token|] eqn:Hc; [|done]. rewrite M_bind_run. unfold on_sessions.
  destruct (get_session _ _ _) as [[[[j|b]|]|e] o'] eqn:Hg; [|done..]. intros [= <- <-].
  split; [by eapply FromSession|done].
Qed.

Lemma session_identity_none rq s s' :
  session_identity A E rq s = (Ok None, s') → hs_identity s' = hs_identity s.
Proof.
  unfold session_identity. rewrite M_bind_run. unfold get_state.
  destruct (hs_sessions s) as [o|] eqn:Ho; [|by intros [= <-]].
  destruct (cookie_value _ _) as [token|] eqn:Hc; [|by intros [= <-]]. rewrite M_bind_run. unfold on_sessions.
  destruct (get_session _ _ _) as [[[[j|b]|]|e] o'] eqn:Hg; [done..| |done]. by intros [= <-].
Qed.

Lemma authenticated_accepted path rq s a s' :
  authenticated A E path rq s = (Ok (Some a), s') → accepted path rq s a.
Proof.
  unfold authenticated. rewrite M_bind_run. unfold get_state.
  set (credential := bearer_credential (header_or rq "authorization")).
  destruct (operator_key A credential s) as [k|] eqn:Hk.
  { destruct (String.prefix "/admin" path) eqn:Hp; [|done]. intros [= <- _].
    pose proof (operator_key_some _ _ _ Hk) as [? ?]. by apply AcceptedKey. }
  assert (∀ s', (identity ← session_identity A E rq;
     match identity with
     | Some i => enriched_attributes E true i
     | None => lift_res (by_token (shared_token_authorized A (rq_command rq) path (header_or rq "authorization")))
     end) s = (Ok (Some a), s') →
     (ap_oidc_validator A = None ∨ credential = "") → accepted path rq s a) as Hsession.
  { intros s1 H Hor. apply M_bind_ok in H as ([i|] & s2 & Hi & H).
    - apply session_identity_ok in Hi as [Hsrc Heq]. apply enriched_attributes_ok in H as (j & -> & Hj).
      rewrite Heq in Hj. by eapply AcceptedIdentity.
    - apply lift_res_ok in H as [[Htok%shared_token_true ->]%by_token_ok _].
      destruct (ap_oidc_only A) eqn:Hon; [by apply AcceptedProbe|by apply AcceptedToken]. }
  destruct (ap_oidc_validator A) as [V|] eqn:HV; [|intros H; eapply Hsession; [done|by left]].
  destruct (String.eqb_spec credential "") as [Hc|Hc]; [intros H; eapply Hsession; [done|by right]|].
  intros H. apply M_bind_ok in H as ([i|] & s2 & Hi & H).
  - apply validated_identity_ok in Hi as [Hsrc Heq]; [|done].
    apply enriched_attributes_ok in H as (j & -> & Hj). rewrite Heq in Hj. by eapply AcceptedIdentity.
  - apply lift_res_ok in H as [[Htok%health_probe_true ->]%by_token_ok _]. by apply AcceptedProbe.
Qed.

(** ** Gates *)

Lemma existsb_nonempty {X} (l : list X) : negb (existsb (λ _, true) l) = false ↔ l ≠ [].
Proof. by destruct l. Qed.

(** A role that opens a route. *)
Definition opens (required : list Role) (roles : list string) : Prop :=
  role_value PLATFORM_ADMIN ∈ roles ∨ ∃ r, r ∈ required ∧ role_value r ∈ roles.

Lemma role_granted_opens roles required : role_granted roles required = true ↔ opens required roles.
Proof.
  unfold role_granted, opens. rewrite orb_true_iff, str_in_spec, existsb_exists.
  apply or_iff_compat_l. setoid_rewrite str_in_spec. by setoid_rewrite <-list_elem_of_In.
Qed.

Definition attribute_roles (a : request_attributes) : list string :=
  match at_identity a with Some i => ri_roles i | None => at_roles a end.

Lemma admin_authorized_true a rq method route :
  admin_authorized A a rq method route = Ok true →
  admin_required_roles method route ≠ [] ∧
  ((ap_oidc_validator A = None ∧ ap_oidc_only A = false ∧
    ∃ t, ap_operator_token A = Some t ∧
      join "" (strip_chars (bearer_scheme (header_or rq "authorization")).2) = t) ∨
   opens (admin_required_roles method route) (attribute_roles a)).
Proof.
  unfold admin_authorized. destruct (negb (existsb _ _)) eqn:He; [done|].
  apply existsb_nonempty in He. intros H. split; [done|].
  destruct (bearer_scheme _) as [bearer credential]. cbn [snd].
  destruct (ap_operator_token A) as [t|].
  - unfold no_oidc in H. destruct (ap_oidc_validator A); cbn [andb mbind res_bind] in H;
      [right; apply role_granted_opens; by injection H|].
    destruct (ap_oidc_only A); cbn [andb negb mbind res_bind] in H; [right; apply role_granted_opens; by injection H|].
    destruct bearer; [|right; apply role_granted_opens; by injection H].
    destruct (compare_digest _ t) as [[]|] eqn:Hc; cbn in H; [| |done].
    + apply compare_digest_true in Hc. left. split_and!; [done|done|by exists t].
    + right. apply role_granted_opens. by injection H.
  - right. apply role_granted_opens. by injection H.
Qed.

Lemma string_prefix_app p r : String.prefix p r = true ↔ ∃ q, r = p +:+ q.
Proof.
  revert r. induction p as [|c p IH]; intros r; simpl.
  - split; [by exists r|by destruct r].
  - destruct r as [|d r]; [split; [done|by intros [q ?]]|].
    change (String.prefix (String c p) (String d r)) with (if ascii_dec c d then String.prefix p r else false).
    destruct (ascii_dec c d) as [<-|Hne].
    + transitivity (∃ q, r = p +:+ q); [apply IH|]. split; intros [q Hq]; exists q; congruence.
    + split; [done|intros [q Hq]; congruence].
Qed.

Lemma strip_prefix_some p r q : strip_prefix p r = Some q → r = p +:+ q.
Proof.
  revert r. induction p as [|c p IH]; intros r; cbn; [by intros [= ->]|].
  destruct r as [|d r]; [done|]. destruct (Ascii.eqb_spec c d) as [<-|]; [|done]. by intros ->%IH.
Qed.

(** The tables only name administration routes. *)
Lemma admin_roles_route method route :
  admin_required_roles method route ≠ [] → String.prefix "/admin" route = true.
Proof.
  assert (∀ l, forallb (String.prefix "/admin") l = true → str_in route l = true →
    String.prefix "/admin" route = true) as Hin.
  { intros l Hl Hr%str_in_spec. rewrite forallb_forall in Hl. by apply Hl, list_elem_of_In. }
  assert (∀ p, String.prefix "/admin" p = true → String.prefix p route = true →
    String.prefix "/admin" route = true) as Hpre.
  { intros p [q Hq]%string_prefix_app [r Hr]%string_prefix_app. apply string_prefix_app.
    exists (q +:+ r). by rewrite Hr, Hq, string_app_assoc. }
  assert (∀ p q, String.prefix "/admin" p = true → segment_between p q route = true →
    String.prefix "/admin" route = true) as Hseg.
  { intros p q Hp Hs. apply (Hpre p); [done|]. unfold segment_between in Hs.
    destruct (strip_prefix p route) as [r|] eqn:Hr; [|done]. apply strip_prefix_some in Hr as ->.
    apply string_prefix_app. by exists r. }
  unfold admin_required_roles. intros H.
  repeat match type of H with
  | context [if str_in route ?l then _ else _] => destruct (str_in route l) eqn:?; [by eapply (Hin l)|]
  | context [if String.eqb route ?x then _ else _] =>
      destruct (String.eqb_spec route x) as [->|]; [done|]
  | context [if String.prefix ?p route then _ else _] => destruct (String.prefix p route) eqn:?; [by eapply (Hpre p)|]
  | context [if segment_between ?p ?q route then _ else _] =>
      destruct (segment_between p q route) eqn:?; [by eapply (Hseg p q)|]
  | context [if segment_between ?p ?q route || _ then _ else _] =>
      destruct (segment_between p q route) eqn:?; [by eapply (Hseg p q)|]; cbn [orb] in H
  | context [if String.eqb route ?x || _ then _ else _] =>
      destruct (String.eqb_spec route x) as [->|]; [done|]; cbn [orb] in H
  | context [if ?b then _ else _] => destruct b
  end; done.
Qed.
End AuthLemmas.

(** A completed sign-in, from its callback. *)
Record signed_in `{U : UnicodeData} `{JC : JWTCrypto} {T} {R} `{OR : OIDCSessionRepository R} {PV}
    (A : AuthenticatedAPI) (E : auth_env (T := T) (PV := PV)) (rq : http_request)
    (s s' : auth_state (T := T) (R := R) (PV := PV)) (response : http_response) : Prop := {
  sg_flow : ∃ client V o query state code pending o1 tokens id keys token max_age o2,
    ap_auth_client A = Some client ∧ ap_login_validator A = Some V ∧ hs_sessions s = Some o ∧
    request_query rq = Ok query ∧ query_values "state" query = [state] ∧
    query_values "code" query = [code] ∧ query_values "error" query = [] ∧
    cookie_value rq (state_cookie_name (ap_cookie_secure A)) = Some state ∧
    consume_login (en_session_now E) state o = (Ok pending, o1) ∧
    exchange_code (en_http_post E) client code (pl_code_verifier pending) = Ok tokens ∧
    oidc_validate V (en_login_provider E) (en_validator_now E) (Some (pl_nonce pending))
      (dict_get "id_token" tokens) (hs_keys s) = (Ok id, keys) ∧
    create_session (en_session_now E) (en_session_token E) id o1 = (Ok (token, max_age), o2) ∧
    hs_sessions s' = Some o2 ∧
    ("Set-Cookie", session_cookie (ap_cookie_secure A) token max_age) ∈ rs_headers response ∧
    ("Location", pl_next_path pending) ∈ rs_headers response
}.

Section LoginLemmas.
Context `{U : UnicodeData} `{JC : JWTCrypto} {T : Type} {IS : IdentityStore T}
        {R : Type} `{OR : OIDCSessionRepository R} {PV : Type}.
Context (A : AuthenticatedAPI) (E : auth_env (T := T) (PV := PV)).
Implicit Types s : auth_state (T := T) (R := R) (PV := PV).

Lemma auth_error_status status message cookie r : auth_error status message cookie = Ok r → rs_status r = status.
Proof. unfold auth_error. intros H. by apply res_bind_ok in H as (e & _ & [= <-]). Qed.

Lemma auth_error_not_302 status message cookie s r s' :
  status ≠ 302 → lift_res (auth_error status message cookie) s = (Ok r, s') → rs_status r ≠ 302.
Proof. intros Hs [->%auth_error_status _]%lift_res_ok. done. Qed.

Lemma complete_login_ok client V o state code s pending token max_age s' :
  hs_sessions s = Some o →
  complete_login E client V o state code s = (Ok (pending, token, max_age), s') →
  ∃ o1 tokens id keys o2, consume_login (en_session_now E) state o = (Ok pending, o1) ∧
    exchange_code (en_http_post E) client code (pl_code_verifier pending) = Ok tokens ∧
    oidc_validate V (en_login_provider E) (en_validator_now E) (Some (pl_nonce pending))
      (dict_get "id_token" tokens) (hs_keys s) = (Ok id, keys) ∧
    create_session (en_session_now E) (en_session_token E) id o1 = (Ok (token, max_age), o2) ∧
    hs_sessions s' = Some o2.
Proof.
  intros Ho. unfold complete_login. intros H.
  apply M_bind_ok in H as (p & s1 & Hp & H). unfold on_sessions in Hp.
  destruct (consume_login _ _ o) as [rp o1] eqn:Hc. injection Hp as -> <-.
  apply M_bind_ok in H as (tokens & s2 & [Ht ->]%lift_res_ok & H).
  apply M_bind_ok in H as (id & s3 & Hv & H). unfold on_keys, zoom in Hv. cbn [hs_keys set_session_store] in Hv.
  destruct (oidc_validate _ _ _ _ _ _) as [rv keys] eqn:Hval. injection Hv as -> <-.
  rewrite M_bind_run in H. unfold get_state in H. cbn [hs_sessions set_session_store default] in H.
  apply M_bind_ok in H as ([tok age] & s4 & Hs & H). unfold on_sessions in Hs.
  destruct (create_session _ _ _ _) as [rc o2] eqn:Hcs. injection Hs as -> <-. injection H as <- <- <- <-.
  exists o1, tokens, id, keys, o2. by split_and!.
Qed.

Lemma handle_oidc_callback_ok rq s response s' :
  handle_oidc_callback A E rq s = (Ok response, s') → rs_status response = 302 →
  signed_in A E rq s s' response.
Proof.
  unfold handle_oidc_callback. rewrite M_bind_run. unfold get_state.
  destruct (ap_auth_client A) as [client|] eqn:Hclient;
    [|intros H Hs; exfalso; by apply (auth_error_not_302 404) in H].
  destruct (ap_login_validator A) as [V|] eqn:HV; [|intros H Hs; exfalso; by apply (auth_error_not_302 404) in H].
  destruct (hs_sessions s) as [o|] eqn:Ho; [|intros H Hs; exfalso; by apply (auth_error_not_302 404) in H].
  intros H Hstatus. apply M_bind_ok in H as (query & s1 & [Hq ->]%lift_res_ok & H).
  assert (∀ s s', lift_res (auth_error 400 "invalid OIDC callback" (Some (clear_state_cookie A))) s =
    (Ok response, s') → False) as Hinvalid by (intros t t' Ht; by apply (auth_error_not_302 400) in Ht).
  destruct (query_values "state" query) as [|state [|]] eqn:Hstate; try by apply Hinvalid in H.
  destruct (cookie_value _ _) as [cookie|] eqn:Hcookie; [|by apply Hinvalid in H].
  apply M_bind_ok in H as (same & s2 & [Hsame ->]%lift_res_ok & H).
  destruct same; cbn [negb] in H; [|by apply Hinvalid in H]. apply compare_digest_true in Hsame as <-.
  destruct (query_values "error" query) as [|e es] eqn:Herror; cbn [existsb] in H.
  2:{ apply M_bind_ok in H as ([] & s3 & _ & H); [by apply (auth_error_not_302 401) in H|by apply Hinvalid in H]. }
  destruct (query_values "code" query) as [|code [|]] eqn:Hcode; try by apply Hinvalid in H.
  destruct (_ || _); [by apply Hinvalid in H|].
  apply M_bind_ok in H as (completed & s3 & Hc & H).
  destruct completed as [[[pending token] max_age]|]; [|by apply (auth_error_not_302 401) in H].
  injection H as <- <-. unfold try_except in Hc. rewrite M_bind_run in Hc.
  destruct (complete_login _ _ _ _ _ _ _) as [[[[p t] m]|e] s4] eqn:Hl; cbn in Hc;
    [|destruct (is_ValueError e); by injection Hc].
  injection Hc as -> -> -> ->. apply complete_login_ok in Hl as (o1 & tokens & id & keys & o2 & Hl); [|done].
  split. exists client, V, o, query, state, code, pending, o1, tokens, id, keys, token, max_age, o2.
  destruct Hl as (? & ? & ? & ? & ?). split_and!; try done; cbn; set_solver.
Qed.
End LoginLemmas.

(** * Properties *)

(** The gate of the administration routes: a request that passes
    authentication and the role table names a route of the table, and it
    presents either the operator token of a server without OpenID Connect, or
    an operator key that is stored under the hash of the credential and not
    revoked, or an identity.  An identity comes from a token that was validated
    or from a live browser session, it carries the roles of that source and
    those assigned to its subject in its own tenant and no others, and a
    platform administrator or a holder of a role of the table. *)
Lemma admin_gate `{U : UnicodeData} `{JC : JWTCrypto} {T} {IS : IdentityStore T} {IL : IdentityStoreLaws T}
    {R} `{OR : OIDCSessionRepository R} {PV} (A : AuthenticatedAPI) (E : auth_env (T := T) (PV := PV))
    (path method route : string) (rq : http_request) (s s' : auth_state (T := T) (R := R) (PV := PV))
    (a : request_attributes) :
  authenticated A E path rq s = (Ok (Some a), s') →
  admin_authorized A a rq method route = Ok true →
  let required := admin_required_roles method route in
  let supplied := header_or rq "authorization" in
  (required ≠ [] ∧ String.prefix "/admin" route = true) ∧
  ((ap_oidc_validator A = None ∧ ap_oidc_only A = false ∧
    ap_operator_token A = Some (join "" (strip_chars (bearer_scheme supplied).2))) ∨
   (∃ rows k, ap_oidc_validator A = None ∧ hs_operators s = Some rows ∧
      authenticate (PStr (bearer_credential supplied)) rows = Some k ∧
      String.prefix "/admin" path = true ∧ opens required [role_value OPERATOR]) ∨
   (∃ base i, identity_source A E rq s base ∧ enriched_from (hs_identity s) base i ∧
      opens required (ri_roles i))).
Proof.
  intros Ha%authenticated_accepted Hg required supplied.
  apply admin_authorized_true in Hg as (Hne & Hg). split.
  { split; [done|]. by eapply admin_roles_route. }
  destruct Hg as [(Hv & Ho & t & Ht & <-)|Hroles]; [by left|].
  destruct Ha as [k Hv Ho Hk Hp|session base i Hsrc Henr|Ho Htok|Hprobe].
  - right. left. unfold operator_key in Hk. destruct (hs_operators s) as [rows|]; [|done].
    destruct (_ && _); [|done]. by exists rows, k.
  - right. right. by exists base, i.
  - by destruct Hroles as [?%not_elem_of_nil|(r & _ & ?%not_elem_of_nil)].
  - by destruct Hroles as [?%not_elem_of_nil|(r & _ & ?%not_elem_of_nil)].
Qed.

(** C39. The browser sign-in: a callback that redirects with a session cookie
    carries one [state], equal to the cookie of the browser that began the
    sign-in; the state was pending and is consumed, the code was exchanged with
    that sign-in's PKCE verifier, the identity token was validated with its
    nonce, and the session that the cookie names was created for this token. *)
Theorem login_callback `{U : UnicodeData} `{JC : JWTCrypto} {T} {IS : IdentityStore T}
    {R} `{OR : OIDCSessionRepository R} {PV} (A : AuthenticatedAPI) (E : auth_env (T := T) (PV := PV))
    (rq : http_request) (s s' : auth_state (T := T) (R := R) (PV := PV)) (response : http_response) :
  handle_oidc_callback A E rq s = (Ok response, s') →
  rs_status response = 302 →
  signed_in A E rq s s' response.
Proof. apply handle_oidc_callback_ok. Qed.

Section Examples.
#[local] Existing Instance ascii_only.

Definition example_api : AuthenticatedAPI :=
  {| ap_bearer_token := Some "probe"; ap_oidc_validator := Some example_validator; ap_oidc_only := true;
     ap_auth_client := Some {| oc_authorization_endpoint := "https://idp.example/authorize";
       oc_token_endpoint := "https://idp.example/token"; oc_client_id := "gas";
       oc_redirect_uri := "https://gas.example/auth/callback"; oc_client_secret := None |};
     ap_login_validator := Some example_validator;
     ap_cookie_secure := true; ap_operator_token := None; ap_operator_role := "gas-admin";
     ap_max_body_bytes := 65536; ap_cors_origins := [] |}.

Definition example_auth_env : auth_env (T := string) (PV := pyval) :=
  {| en_validator_now := time_at 1000; en_session_now := time_at 1000; en_request_id := "r1";
     en_row_id := "u1"; en_event_id := "e1"; en_stamp := "t1"; en_provider := static_provider;
     en_login_provider := static_provider; en_state_token := "state1"; en_nonce_token := "nonce1";
     en_verifier_token := "verifier1"; en_session_token := "session1";
     en_http_post := λ _ _, Ok (json_of [("id_token", PStr (make_jwt [("alg", PStr "EdDSA"); ("kid", PStr "k1")]
       [("aud", PStr "gas"); ("exp", PInt 2000); ("iss", PStr "https://idp.example"); ("nonce", PStr "nonce1");
        ("sub", PStr "alice"); ("tid", PStr "acme")] "pub"))]) |}.

(** Alice is an auditor of her tenant by assignment. *)
Definition example_tables : IdentityTables string :=
  (sqlite_assign_role "a1" "e0" "t0" "alice" "auditor" "root" "acme" no_tables).2.

Definition example_auth_state : auth_state (T := string) (R := Empty_set) (PV := pyval) :=
  {| hs_operators := None; hs_identity := Some example_tables;
     hs_sessions := Some (session_store_init 10 None); hs_keys := example_jwks |}.

Definition bearer_request (target : string) : http_request :=
  {| rq_command := "GET"; rq_target := target;
     rq_headers := [("authorization", "Bearer " +:+ make_jwt [("alg", PStr "EdDSA"); ("kid", PStr "k1")]
       [("aud", PStr "gas"); ("exp", PInt 2000); ("iss", PStr "https://idp.example"); ("sub", PStr "alice");
        ("tid", PStr "acme")] "pub")];
     rq_cookie := λ _, None; rq_client := "10.0.0.1"; rq_body := "" |}.

Lemma admin_gate_witness :
  ∃ base i, identity_source example_api example_auth_env (bearer_request "/admin/metrics") example_auth_state base ∧
    enriched_from (Some example_tables) base i ∧
    opens (admin_required_roles "GET" "/admin/metrics") (ri_roles i).
Proof.
  destruct (authenticated example_api example_auth_env "/admin/metrics" (bearer_request "/admin/metrics")
    example_auth_state) as [r s'] eqn:H.
  destruct r as [[a|]|e]; [|exfalso; vm_compute in H; discriminate H..].
  destruct (admin_gate example_api example_auth_env "/admin/metrics" "GET" "/admin/metrics"
    (bearer_request "/admin/metrics") example_auth_state s' a H) as (_ & [(Hx & _)|[(? & ? & Hx & _)|Hi]]).
  - vm_compute in H. injection H as <- _. vm_compute. reflexivity.
  - discriminate Hx.
  - discriminate Hx.
  - exact Hi.
Defined.

(** The state after Alice's browser asked to sign in, and her callback. *)
Definition login_state : auth_state (T := string) (R := Empty_set) (PV := pyval) :=
  (handle_oidc_login example_api example_auth_env
     {| rq_command := "GET"; rq_target := "/auth/login?next=%2Fadmin"; rq_headers := [];
        rq_cookie := λ _, None; rq_client := "10.0.0.1"; rq_body := "" |} example_auth_state).2.

Definition callback_request : http_request :=
  {| rq_command := "GET"; rq_target := "/auth/callback?state=state1&code=c1"; rq_headers := [];
     rq_cookie := λ name, if String.eqb name "__Host-gas-login" then Some "state1" else None;
     rq_client := "10.0.0.1"; rq_body := "" |}.

Lemma login_callback_witness :
  ∃ response s', rs_status response = 302 ∧
    signed_in example_api example_auth_env callback_request login_state s' response.
Proof.
  destruct (handle_oidc_callback example_api example_auth_env callback_request login_state) as [[r|e] s'] eqn:H;
    [|exfalso; vm_compute in H; discriminate H].
  assert (rs_status r = 302) as Hs by (vm_compute in H; injection H as <- _; reflexivity).
  exists r, s'. split; [exact Hs|].
  exact (login_callback example_api example_auth_env callback_request login_state s' r H Hs).
Defined.

(** ** Deviations *)

(** A path with a line break is kept, and the [Location] of the callback then
    holds a line of its own. *)
Lemma login_next_line_break :
  safe_next_path ("/admin" +:+ CRLF +:+ "Set-Cookie: gas-session=x") =
    Ok ("/admin" +:+ CRLF +:+ "Set-Cookie: gas-session=x").
Proof. vm_compute. reflexivity. Qed.

(** An empty operator token is a token: without OpenID Connect, an
    authorization header without credential opens every administration route. *)
Lemma empty_operator_token (A : AuthenticatedAPI) (a : request_attributes) (rq : http_request) method route :
  ap_oidc_validator A = None → ap_oidc_only A = false → ap_operator_token A = Some "" →
  header_or rq "authorization" = "Bearer " → admin_required_roles method route ≠ [] →
  shared_token_authorized A method route (header_or rq "authorization") = Ok true ∧
  admin_authorized A a rq method route = Ok true.
Proof.
  intros Hv Ho Ht Hh Hne. split.
  - unfold shared_token_authorized. rewrite Ho, Hh, Ht. by destruct (falsy_opt (ap_bearer_token A)).
  - unfold admin_authorized. apply existsb_nonempty in Hne. rewrite Hne, Hh, Ht. unfold no_oidc.
    by rewrite Hv, Ho.
Qed.

(** With sessions in a repository, a request with a live session raises: the
    repository's record has no field [request_id]. *)
Lemma repository_session_raises {T R PV} `{OR : OIDCSessionRepository R} (A : AuthenticatedAPI)
    (E : auth_env (T := T) (PV := PV)) rq (s : auth_state (T := T) (R := R) (PV := PV)) o r token v o' :
  hs_sessions s = Some o → st_repository o = Some r →
  cookie_value rq (session_cookie_name (ap_cookie_secure A)) = Some token →
  get_session (en_session_now E) token o = (Ok (Some v), o') →
  (session_identity A E rq s).1 = Raise session_record_error.
Proof.
  intros Ho Hr Hc Hg. destruct (repository_gives_record _ _ _ _ _ _ Hr Hg) as [b ->].
  unfold session_identity. rewrite M_bind_run. unfold get_state. rewrite Ho, Hc, M_bind_run.
  unfold on_sessions. by rewrite Hg.
Qed.
End Examples.
