(* ===== verification/Server.v ===== *)
(** The starts of the two processes: the [main] functions of http_api.py and
    worker_main.py after argparse, and [create_server], up to the sockets.

    What the environment holds is an argument; the discovery document comes from
    [http_get], and the composition that bootstrap.py builds is a parameter, as
    nothing here looks inside it.  The stores that a process opens are recorded in
    its plan.  The file shows which credentials a server that starts demands. *)

From stdpp Require Import gmap.
From S2P Require Import Prelude PyFloat PyVal Json Sha256 Base64 Crypto Models Policy Rbac Orders SemVer PyText Jobs JobsPostgres Trust Anchors Replay Storage Arbiter PolicyRegistry ReplayStore Mesh Issuer Engine Deployment Service Observability Platform Lines OperatorAuth Worker Tokens IdentityStore HttpSessions HttpRequest HttpAuth.

Section Server.
Context `{U : UnicodeData}.

(** [_env_flag]; the text is ASCII. *)
Definition env_flag (value : option string) : res bool :=
  let text := default "" value in
  if ascii_str text then Ok (str_in (str_lower (join "" (strip_chars text))) ["1"; "true"; "yes"; "on"])
  else unmodelled "a flag outside ASCII".

(** The namespace of [parse_server_args], its defaults read from the environment. *)
Record server_args := {
  sa_host : string;
  sa_port : Z;
  sa_bearer_token : option string;
  sa_oidc_issuer : option string;
  sa_oidc_audience : option string;
  sa_oidc_jwks_url : option string;
  sa_entra_tenant_id : option string;
  sa_entra_client_id : option string;
  sa_entra_client_secret : option string;
  sa_entra_redirect_uri : option string;
  sa_oidc_cookie_insecure : bool;
  sa_oidc_discovery : bool;
  sa_operator_token : option string;
  sa_job_store : option string;
  sa_operator_key_store : option string;
  sa_identity_store : option string;
  sa_operator_role : string;
  sa_max_body_bytes : Z;
  sa_rate_limit : Z;
  sa_cors_origins : string
}.

(** The validator with the provider of its keys, the client of the browser
    sign-in, and whether tokens are the only credential. *)
Definition sign_in : Type := option (OIDCValidator * UrlJWKSProvider) * option OIDCAuthCodeClient * bool.

(** [not x] and [x] of an optional setting *)
Definition set_opt (v : option string) : bool := negb (falsy_opt v).

Definition default_algorithms : list string := ["RS256"; "ES256"; "EdDSA"].

Definition entra_sign_in (http_get : string → res string) (a : server_args) : res sign_in :=
  res_except
    (config ← entra_config (default "" (sa_entra_tenant_id a)) (default "" (sa_entra_client_id a));
     discovery ← discover_oidc_configuration http_get (entra_issuer config) 5;
     validator ← entra_validator_from_discovery config discovery ["RS256"] 300 5;
     client ← (if set_opt (sa_entra_redirect_uri a)
               then c ← auth_code_client_init discovery (eo_client_id config) (default "" (sa_entra_redirect_uri a))
                          (sa_entra_client_secret a) 5; Ok (Some c)
               else Ok None);
     Ok (Some validator, client, true))
    (λ e, if is_ValueError e then Some (SystemExit ("Entra ID OIDC configuration failed: " +:+ exn_str e)) else None).

Definition discovered_sign_in (http_get : string → res string) (a : server_args) : res sign_in :=
  match sa_oidc_issuer a, sa_oidc_audience a with
  | Some issuer, Some audience =>
      fail_if (String.eqb issuer "" || String.eqb audience "")
        (SystemExit "OIDC_ISSUER and OIDC_AUDIENCE are required for OIDC discovery") ;;
      fail_if (set_opt (sa_oidc_jwks_url a))
        (SystemExit "--oidc-jwks-url must not be set when --oidc-discovery is used") ;;
      res_except
        (discovery ← discover_oidc_configuration http_get issuer 5;
         validator ← oidc_validator_from_discovery issuer [audience] None discovery default_algorithms 300 5;
         Ok (Some validator, None, false))
        (λ e, match e with
              | IdentityValidationError m => Some (SystemExit ("OIDC discovery failed: " +:+ m))
              | _ => None
              end)
  | _, _ => Raise (SystemExit "OIDC_ISSUER and OIDC_AUDIENCE are required for OIDC discovery")
  end.

Definition configured_sign_in (a : server_args) : res sign_in :=
  let settings := [sa_oidc_issuer a; sa_oidc_audience a; sa_oidc_jwks_url a] in
  fail_if (existsb set_opt settings && negb (forallb set_opt settings))
    (SystemExit ("OIDC_ISSUER, OIDC_AUDIENCE, and OIDC_JWKS_URL must be configured together " +:+
                 "(or use --oidc-discovery with just issuer and audience)")) ;;
  if forallb set_opt settings then
    provider ← url_provider_init (default "" (sa_oidc_jwks_url a)) 300 5;
    validator ← oidc_validator_init (default "" (sa_oidc_issuer a)) [default "" (sa_oidc_audience a)]
                  default_algorithms None;
    Ok (Some (validator, provider), None, false)
  else Ok (None, None, false).

Definition entra_configured (a : server_args) : bool := set_opt (sa_entra_tenant_id a) || set_opt (sa_entra_client_id a).
Definition generic_oidc_configured (a : server_args) : bool :=
  set_opt (sa_oidc_issuer a) || set_opt (sa_oidc_audience a) || set_opt (sa_oidc_jwks_url a) || sa_oidc_discovery a.

(** The part of [main] before anything is opened. *)
Definition server_sign_in (http_get : string → res string) (a : server_args) : res sign_in :=
  fail_if ((set_opt (sa_entra_redirect_uri a) || set_opt (sa_entra_client_secret a)) && negb (entra_configured a))
    (SystemExit "Entra browser sign-in requires ENTRA_TENANT_ID and ENTRA_CLIENT_ID") ;;
  s ← (if entra_configured a then
         fail_if (falsy_opt (sa_entra_tenant_id a) || falsy_opt (sa_entra_client_id a))
           (SystemExit "ENTRA_TENANT_ID and ENTRA_CLIENT_ID are required together") ;;
         fail_if (generic_oidc_configured a)
           (SystemExit "Entra ID settings cannot be combined with generic OIDC settings") ;;
         entra_sign_in http_get a
       else if sa_oidc_discovery a then discovered_sign_in http_get a
       else configured_sign_in a);
  fail_if (falsy_opt (sa_bearer_token a) && match s.1.1 with None => true | Some _ => false end)
    (SystemExit "GOVERNED_AUTONOMY_BEARER_TOKEN or complete OIDC configuration is required") ;;
  Ok s.

(** ** The stores and the server *)

Inductive store_choice := SQLiteFile (path : string) | PostgresDatabase (url : string).

(** A file that is named comes first, then the shared database. *)
Definition choose_store (path database_url : option string) (psycopg : bool) : res (option store_choice) :=
  if set_opt path then Ok (SQLiteFile <$> path)
  else if set_opt database_url then
    fail_if (negb psycopg) (SystemExit "install the postgres extra: pip install .[postgres]") ;;
    Ok (PostgresDatabase <$> database_url)
  else Ok None.

(** [create_server]'s choice of a TLS version *)
Definition tls_version (min_version : string) : res Z :=
  match assoc_get min_version [("TLSv1.2", 2); ("TLSv1.3", 3)] with
  | Some v => Ok v
  | None => Raise (ValueError "tls.min_version must be TLSv1.2 or TLSv1.3")
  end.

Record server_plan {V} := {
  pl_service : V;
  pl_api : AuthenticatedAPI;
  pl_provider : option UrlJWKSProvider;
  pl_operator_keys : option string;
  pl_identity : option store_choice;
  pl_jobs : option store_choice;
  pl_limiter : BoundedRateLimiter + PostgresRateLimiter;
  pl_sessions_shared : bool;      (** the sign-in state is in the database *)
  pl_host : string;
  pl_port : Z
}.

(** [runtime] is what [build_runtime_service] gives; [hits] are the rows of the
    shared limiter. *)
Definition http_main {V} (http_get : string → res string) (database_url : option string) (psycopg : bool)
    (hits : list (string * string * Z)) (runtime : res V) (a : server_args) : res (@server_plan V) :=
  s ← server_sign_in http_get a;
  let '(validator, client, oidc_only) := s in
  service ← runtime;
  identity ← choose_store (sa_identity_store a) database_url psycopg;
  jobs ← choose_store (sa_job_store a) database_url psycopg;
  limiter ← (if set_opt database_url then
               fail_if (negb psycopg) (SystemExit "install the postgres extra: pip install .[postgres]") ;;
               l ← postgres_limiter_init (sa_rate_limit a) 60 "http" hits; Ok (Some l)
             else Ok None);
  api ← api_init (sa_bearer_token a) (fst <$> validator) oidc_only client None (negb (sa_oidc_cookie_insecure a))
          (sa_operator_token a) (sa_operator_role a) (sa_max_body_bytes a)
          (map (λ o, join "" (strip_chars o)) (split_on "," (sa_cors_origins a)));
  limits ← match limiter with
           | Some l => Ok (inr l)
           | None => l ← limiter_init (sa_rate_limit a) (float_of_Z 60) 10000; Ok (inl l)
           end;
  Ok {| pl_service := service; pl_api := api; pl_provider := snd <$> validator;
        pl_operator_keys := (if set_opt (sa_operator_key_store a) then sa_operator_key_store a else None);
        pl_identity := identity; pl_jobs := jobs; pl_limiter := limits;
        pl_sessions_shared := set_opt database_url && match client with Some _ => true | None => false end;
        pl_host := sa_host a; pl_port := sa_port a |}.

(** ** The worker *)

Inductive secret_source := NoSecrets | VaultSecrets (addr token : string).

Record worker_plan {V} := {
  wp_service : V;
  wp_images : list string;
  wp_secrets : secret_source;
  wp_metrics : option (string * Z);     (** host and port *)
  wp_poll_seconds : spec_float
}.

(** [GAS_WORKER_IMAGES] *)
Definition worker_images (value : option string) : list string :=
  List.filter (λ i, negb (String.eqb i "")) (map (λ i, join "" (strip_chars i)) (split_on "," (default "" value))).

(** [runtime] says whether its log has a connection that the queue can share;
    [poll_seconds] is [float] of its setting. *)
Definition worker_main {V} (env : list (string * string)) (psycopg : bool) (runtime : res (V * bool))
    (poll_seconds : res spec_float) : res (@worker_plan V) :=
  let get k := assoc_get k env in
  let images := worker_images (get "GAS_WORKER_IMAGES") in
  fail_if (negb (nonempty images)) (SystemExit "GAS_WORKER_IMAGES is required") ;;
  fail_if (negb psycopg) (SystemExit "install the postgres extra: pip install .[postgres]") ;;
  service ← runtime;
  fail_if (negb service.2 && negb (assoc_has "DATABASE_URL" env)) (KeyError "DATABASE_URL") ;;
  let secrets := match get "VAULT_ADDR", get "VAULT_TOKEN" with
                 | Some addr, Some token =>
                     if String.eqb addr "" || String.eqb token "" then NoSecrets else VaultSecrets addr token
                 | _, _ => NoSecrets
                 end in
  metrics ← match get "GAS_WORKER_METRICS_PORT" with
            | Some port =>
                if String.eqb port "" then Ok None else
                match int_text port with
                | Some n => Ok (Some (default "127.0.0.1" (get "GAS_WORKER_METRICS_HOST"), n))
                | None => Raise (ValueError ("invalid literal for int() with base 10: " +:+ py_repr_str port))
                end
            | None => Ok None
            end;
  seconds ← poll_seconds;
  Ok {| wp_service := service.1; wp_images := images; wp_secrets := secrets; wp_metrics := metrics;
        wp_poll_seconds := seconds |}.
End Server.
Arguments server_plan : clear implicits.
Arguments worker_plan : clear implicits.

(** * Lemmas *)

Section ServerLemmas.
Context `{U : UnicodeData} {V : Type}.
Implicit Types (a : server_args) (p : server_plan V).

Lemma server_sign_in_credential http_get a s :
  server_sign_in http_get a = Ok s → set_opt (sa_bearer_token a) = true ∨ is_Some s.1.1.
Proof.
  unfold server_sign_in, set_opt. intros H. inv_bind. subst.
  destruct (falsy_opt (sa_bearer_token a)); [|by left]. right. by destruct s as [[[v|] c] o].
Qed.

Lemma api_init_fields bearer validator only client login secure token role body origins api :
  api_init bearer validator only client login secure token role body origins = Ok api →
  ap_bearer_token api = bearer ∧ ap_oidc_validator api = validator ∧ ap_oidc_only api = only ∧
  ap_auth_client api = client ∧ ap_operator_token api = token ∧ ap_cookie_secure api = secure.
Proof. unfold api_init. intros H. inv_bind. by subst. Qed.

Lemma http_main_ok http_get database_url psycopg hits (runtime : res V) a p :
  http_main http_get database_url psycopg hits runtime a = Ok p →
  ∃ s, server_sign_in http_get a = Ok s ∧ runtime = Ok (pl_service p) ∧
    ap_oidc_validator (pl_api p) = fst <$> s.1.1 ∧ ap_oidc_only (pl_api p) = s.2 ∧
    ap_auth_client (pl_api p) = s.1.2 ∧ ap_bearer_token (pl_api p) = sa_bearer_token a ∧
    ap_operator_token (pl_api p) = sa_operator_token a ∧
    ap_cookie_secure (pl_api p) = negb (sa_oidc_cookie_insecure a) ∧
    pl_provider p = snd <$> s.1.1 ∧
    pl_sessions_shared p = set_opt database_url && match s.1.2 with Some _ => true | None => false end.
Proof.
  unfold http_main. intros H. apply res_bind_ok in H as ([[v c] o] & Hs & H). cbv beta iota zeta in H.
  apply res_bind_ok in H as (service & Hr & H). do 3 (apply res_bind_ok in H as (? & ? & H)).
  apply res_bind_ok in H as (api & Ha & H). apply res_bind_ok in H as (? & ? & H). injection H as <-.
  apply api_init_fields in Ha as (? & ? & ? & ? & ? & ?). exists (v, c, o). cbn. by split_and!.
Qed.

(** A server starts only with a credential it can check: a bearer token that is
    not empty, or a validator of identity tokens with the provider of its keys. *)
Lemma server_demands_credential http_get database_url psycopg hits (runtime : res V) a p :
  http_main http_get database_url psycopg hits runtime a = Ok p →
  (∃ t, ap_bearer_token (pl_api p) = Some t ∧ t ≠ "") ∨
  (∃ v k, ap_oidc_validator (pl_api p) = Some v ∧ pl_provider p = Some k).
Proof.
  intros H. apply http_main_ok in H as (s & Hs & _ & Hv & _ & _ & Hb & _ & _ & Hk & _).
  apply server_sign_in_credential in Hs as [Ht|[[v k] E]].
  - left. rewrite Hb. unfold set_opt, falsy_opt in Ht. destruct (sa_bearer_token a) as [t|]; [|done].
    exists t. split; [done|]. intros ->. done.
  - right. rewrite Hv, Hk, E. by exists v, k.
Qed.

Lemma validator_from_discovery_fields issuer audience tenant d algorithms c t v :
  oidc_validator_from_discovery issuer audience tenant d algorithms c t = Ok v →
  ov_issuer v.1 = issuer ∧ ov_audience v.1 = audience ∧ ov_tenant_id v.1 = tenant ∧
  (∀ x, x ∈ ov_algorithms v.1 → x ∈ algorithms) ∧ up_url v.2 = od_jwks_uri d.
Proof.
  unfold oidc_validator_from_discovery, oidc_validator_init, url_provider_init. intros H. inv_bind. subst. cbn.
  split_and!; try done. destruct (nonempty _) eqn:Hn; inv_bind; subst; [|done].
  intros y Hy. apply list_elem_of_In, filter_In in Hy as [Hy _]. by apply list_elem_of_In.
Qed.

(** With Entra settings the server accepts identity tokens only, signed with RS256
    under the keys that the tenant's own discovery document names, for the
    configured client and tenant; browser sign-in needs its redirect address. *)
Lemma entra_server http_get database_url psycopg hits (runtime : res V) a p :
  entra_configured a = true → http_main http_get database_url psycopg hits runtime a = Ok p →
  ap_oidc_only (pl_api p) = true ∧ generic_oidc_configured a = false ∧
  ∃ tenant client config d v k,
    sa_entra_tenant_id a = Some tenant ∧ sa_entra_client_id a = Some client ∧
    entra_config tenant client = Ok config ∧ discover_oidc_configuration http_get (entra_issuer config) 5 = Ok d ∧
    ap_oidc_validator (pl_api p) = Some v ∧ pl_provider p = Some k ∧ up_url k = od_jwks_uri d ∧
    ov_issuer v = entra_issuer config ∧ ov_audience v = [eo_client_id config] ∧
    ov_tenant_id v = Some (eo_tenant_id config) ∧ (∀ x, x ∈ ov_algorithms v → x = "RS256") ∧
    (is_Some (ap_auth_client (pl_api p)) ↔ set_opt (sa_entra_redirect_uri a) = true).
Proof.
  intros He H. apply http_main_ok in H as (s & Hs & _ & Hv & Ho & Hc & _ & _ & _ & Hk & _).
  unfold server_sign_in in Hs. rewrite He in Hs. apply res_bind_ok in Hs as ([] & _ & Hs).
  apply res_bind_ok in Hs as (s' & Hs' & Hs). apply res_bind_ok in Hs as ([] & _ & Hs). injection Hs as ->.
  apply res_bind_ok in Hs' as ([] & Hids%fail_if_ok & Hs'). apply res_bind_ok in Hs' as ([] & Hg%fail_if_ok & Hs').
  apply orb_false_iff in Hids as [Ht Hcl].
  destruct (sa_entra_tenant_id a) as [tenant|] eqn:Et; [|done].
  destruct (sa_entra_client_id a) as [client|] eqn:Ec; [|done].
  unfold entra_sign_in in Hs'. apply res_except_ok in Hs'. rewrite Et, Ec in Hs'.
  apply res_bind_ok in Hs' as (config & Hcfg & Hs'). apply res_bind_ok in Hs' as (d & Hd & Hs').
  apply res_bind_ok in Hs' as ([v k] & Hval & Hs'). apply res_bind_ok in Hs' as (oc & Hoc & Hs'). injection Hs' as <-.
  apply validator_from_discovery_fields in Hval as (Hi & Ha & Htn & Hal & Hu).
  assert (is_Some oc ↔ set_opt (sa_entra_redirect_uri a) = true) as Hoc'.
  { destruct (set_opt (sa_entra_redirect_uri a)).
    - apply res_bind_ok in Hoc as (x & _ & [= <-]). split; eauto.
    - injection Hoc as <-. split; [by intros []|done]. }
  split; [done|]. split; [done|]. exists tenant, client, config, d, v, k. cbn in *. rewrite Hc.
  split_and!; try done; try apply Hoc'. intros x Hx. by apply Hal, list_elem_of_singleton in Hx.
Qed.
End ServerLemmas.

(** ** Witness: a server in front of an Entra tenant *)

Definition example_guid (c : string) : string :=
  join "-" [join "" (repeat c 8); join "" (repeat c 4); join "" (repeat c 4); join "" (repeat c 4); join "" (repeat c 12)].

Definition entra_args : server_args := {|
  sa_host := "127.0.0.1"; sa_port := 8000; sa_bearer_token := None; sa_oidc_issuer := None; sa_oidc_audience := None;
  sa_oidc_jwks_url := None; sa_entra_tenant_id := Some (example_guid "a"); sa_entra_client_id := Some (example_guid "B");
  sa_entra_client_secret := None; sa_entra_redirect_uri := Some "https://gas.example/admin/oidc/callback";
  sa_oidc_cookie_insecure := false; sa_oidc_discovery := false; sa_operator_token := None; sa_job_store := None;
  sa_operator_key_store := None; sa_identity_store := None; sa_operator_role := "gas-admin";
  sa_max_body_bytes := 65536; sa_rate_limit := 120; sa_cors_origins := "" |}.

Definition entra_issuer_url : string := "https://login.microsoftonline.com/" +:+ example_guid "a" +:+ "/v2.0".

Definition entra_document (url : string) : res string :=
  if String.eqb url (entra_issuer_url +:+ "/.well-known/openid-configuration") then
    json_dumps default_style (PDict [("issuer", PStr entra_issuer_url); ("jwks_uri", PStr "https://keys.example/jwks");
      ("authorization_endpoint", PStr "https://login.example/authorize");
      ("token_endpoint", PStr "https://login.example/token")])
  else Raise (OSError "unreachable").

Definition entra_plan : res (server_plan unit) :=
  http_main (U := ascii_only) entra_document (Some "postgres://db") true [] (Ok tt) entra_args.

Lemma entra_server_witness :
  match entra_plan with
  | Ok p => ap_oidc_only (pl_api p) = true ∧ is_Some (ap_auth_client (pl_api p)) ∧ pl_sessions_shared p = true
  | Raise _ => False
  end.
Proof.
  assert (match entra_plan with Ok p => pl_sessions_shared p | Raise _ => false end = true) as Hs by (vm_compute; reflexivity).
  unfold entra_plan in *. destruct (http_main _ _ _ _ _ _) as [p|e] eqn:H; [|discriminate Hs].
  destruct (entra_server (U := ascii_only) entra_document (Some "postgres://db") true [] (Ok tt) entra_args p eq_refl H)
    as (Ho & _ & (t & c & cfg & d & v & k & _ & _ & _ & _ & _ & _ & _ & _ & _ & _ & _ & Hc)).
  split; [exact Ho|]. split; [|exact Hs]. apply Hc. reflexivity.
Defined.

(** Without any credential there is no server. *)
Lemma bare_server_refused :
  http_main (U := ascii_only) (V := unit) entra_document None true [] (Ok tt)
    {| sa_host := "127.0.0.1"; sa_port := 8000; sa_bearer_token := Some ""; sa_oidc_issuer := None;
       sa_oidc_audience := None; sa_oidc_jwks_url := None; sa_entra_tenant_id := None; sa_entra_client_id := None;
       sa_entra_client_secret := None; sa_entra_redirect_uri := None; sa_oidc_cookie_insecure := false;
       sa_oidc_discovery := false; sa_operator_token := Some "operator"; sa_job_store := None;
       sa_operator_key_store := None; sa_identity_store := None; sa_operator_role := "gas-admin";
       sa_max_body_bytes := 65536; sa_rate_limit := 120; sa_cors_origins := "" |} =
  Raise (SystemExit "GOVERNED_AUTONOMY_BEARER_TOKEN or complete OIDC configuration is required").
Proof. vm_compute. reflexivity. Qed.
