(* ===== verification/HttpApi.v ===== *)
(** http_api.py: what the routes do.  The API works on one service, the
    managers of policy and trust changes, the operator keys, the identity store,
    the job queue and the versioned policy registry; the actor of a request is
    recorded with every governance event.

    The replay log is the one in memory.  The service's registry and trust store
    are those of the managers, as the facade composes them.  A manager calls its
    audit hook at the end of an operation, so the events of an operation are
    appended to the log after it.  Arguments that a signed document would need
    as text are left out of the model when they are another JSON value. *)

From stdpp Require Import gmap.
From S2P Require Import Prelude PyFloat PyVal Json Sha256 Base64 Crypto Models Policy Rbac Orders SemVer PyText PolicyStorage VersionedRegistry Jobs JobsPostgres Trust Anchors Replay Storage Arbiter PolicyRegistry ReplayStore Mesh Issuer Engine Deployment PlatformAdmin Service Observability Platform Lines OperatorAuth Worker Tokens IdentityStore HttpSessions HttpRequest HttpAuth.

(** ** The job store of the API *)

(** The protocol [JobSubmissionStore]; identifier and clock are arguments. *)
Class JobSubmission (Q : Type) := {
  jq_enqueue : string → spec_float → pydict → string → Z → M Q Job;
  jq_get : string → M Q Job
}.

#[export] Instance sqlite_submission : JobSubmission (list JobRow) :=
  {| jq_enqueue := λ id now payload key max, sqlite_enqueue id now zero payload key max;
     jq_get := store_get_job |}.
(** [o1], [o2] and [o3] are the outcomes of the transactions. *)
#[export] Instance pg_submission `{J : Jsonb} (o1 o2 o3 : pg_outcome) : JobSubmission pg_table | 10 :=
  {| jq_enqueue := λ id now payload key max, pg_enqueue o1 o2 id now zero payload key max;
     jq_get := JobsPostgres.pg_get o3 |}.

(** A look-up changes nothing. *)
Class JobSubmissionLaws (Q : Type) `{JobSubmission Q} : Prop :=
  jq_get_same : ∀ id q, (jq_get id q).2 = q.

#[export] Instance sqlite_submission_laws : JobSubmissionLaws (list JobRow).
Proof. intros id q. unfold jq_get, sqlite_submission, store_get_job. rewrite M_bind_run. cbn. by case_match. Qed.
#[export] Instance pg_submission_laws `{J : Jsonb} o1 o2 o3 : @JobSubmissionLaws pg_table (pg_submission o1 o2 o3).
Proof.
  intros id q. cbn. unfold JobsPostgres.pg_get. rewrite M_bind_run.
  pose proof (pg_select_table o3 (has_id id) q) as Hs. destruct (pg_run _ _ q) as [[x|e] q']; cbn in Hs |- *; subst.
  - by repeat case_match.
  - done.
Qed.

Section Api.
Context `{C : Crypto} `{U : UnicodeData} `{PD : PrintableData} `{JC : JWTCrypto} `{SCH : PolicySchema}
        `{ISO : IsoTime} {T : Type} `{IS : IdentityStore T} {R : Type} `{OR : OIDCSessionRepository R}
        {PV Q VT W : Type} `{JQ : JobSubmission Q} `{PS : PolicyStorage VT} `{RL : RateLimiter W}.

(** What the API is built on; [sx_admin] is given when there is a trust store. *)
Record api_config := {
  sx_api : AuthenticatedAPI;
  sx_service : GovernedService;
  sx_admin : option AdminConfig;
  sx_policy_signer : option PolicySigner;
  sx_policy_verifier : option PolicyVerifier
}.

Record api_state := {
  hp_auth : auth_state (T := T) (R := R) (PV := PV);
  hp_service : service_state ReplayLog;
  hp_admin : AdminState;
  hp_jobs : option Q;
  hp_policies : option (VersionedPolicyRegistry VT);
  hp_limiter : W;
  hp_trace : option (list pydict)
}.

(** What one request reads from outside. *)
Record api_env := {
  ev_auth : auth_env (T := T) (PV := PV);
  ev_limiter_now : spec_float;
  ev_response_id : string;
  ev_issue_now : Z;
  ev_issue_nonce : string;
  ev_execute_now : Z;
  ev_event_hex : string;
  ev_recorded_at : string;
  ev_assignment_id : string;
  ev_assignment_event_id : string;
  ev_operator_key_id : string;
  ev_operator_secret : string;
  ev_operator_created_at : string;
  ev_job_id : string;
  ev_job_now : spec_float;
  ev_registry_now : string
}.

(** ** Parts of the state *)

Definition on_auth {A} (m : M auth_state A) : M api_state A :=
  zoom hp_auth (λ a s, {| hp_auth := a; hp_service := hp_service s; hp_admin := hp_admin s;
    hp_jobs := hp_jobs s; hp_policies := hp_policies s; hp_limiter := hp_limiter s; hp_trace := hp_trace s |}) m.
Definition on_service {A} (m : M (service_state ReplayLog) A) : M api_state A :=
  zoom hp_service (λ v s, {| hp_auth := hp_auth s; hp_service := v; hp_admin := hp_admin s;
    hp_jobs := hp_jobs s; hp_policies := hp_policies s; hp_limiter := hp_limiter s; hp_trace := hp_trace s |}) m.
Definition on_admin {A} (m : M AdminState A) : M api_state A :=
  zoom hp_admin (λ a s, {| hp_auth := hp_auth s; hp_service := hp_service s; hp_admin := a;
    hp_jobs := hp_jobs s; hp_policies := hp_policies s; hp_limiter := hp_limiter s; hp_trace := hp_trace s |}) m.
Definition on_limiter {A} (m : M W A) : M api_state A :=
  zoom hp_limiter (λ w s, {| hp_auth := hp_auth s; hp_service := hp_service s; hp_admin := hp_admin s;
    hp_jobs := hp_jobs s; hp_policies := hp_policies s; hp_limiter := w; hp_trace := hp_trace s |}) m.
Definition on_trace (f : list pydict → list pydict) : M api_state unit :=
  modify (λ s, {| hp_auth := hp_auth s; hp_service := hp_service s; hp_admin := hp_admin s;
    hp_jobs := hp_jobs s; hp_policies := hp_policies s; hp_limiter := hp_limiter s;
    hp_trace := f <$> hp_trace s |}).

(** A method of the given job store [q], registry [r], operator keys or
    identity tables. *)
Definition on_jobs {A} (q : Q) (m : M Q A) : M api_state A :=
  λ s, let '(x, q') := m q in
       (x, {| hp_auth := hp_auth s; hp_service := hp_service s; hp_admin := hp_admin s;
              hp_jobs := Some q'; hp_policies := hp_policies s; hp_limiter := hp_limiter s;
              hp_trace := hp_trace s |}).
Definition on_policies {A} (r : VersionedPolicyRegistry VT) (m : M (VersionedPolicyRegistry VT) A) : M api_state A :=
  λ s, let '(x, r') := m r in
       (x, {| hp_auth := hp_auth s; hp_service := hp_service s; hp_admin := hp_admin s;
              hp_jobs := hp_jobs s; hp_policies := Some r'; hp_limiter := hp_limiter s;
              hp_trace := hp_trace s |}).
Definition on_operators {A} (rows : list OperatorAPIKey) (m : M (list OperatorAPIKey) A) : M api_state A :=
  on_auth (λ a, let '(x, rows') := m rows in
                (x, {| hs_operators := Some rows'; hs_identity := hs_identity a;
                       hs_sessions := hs_sessions a; hs_keys := hs_keys a |})).

Section Methods.
Context (K : api_config) (E : api_env).

(** The service with the current registry and trust store. *)
Definition current_boundary (s : AdminState) : ExecutionBoundary :=
  let B := sv_boundary (sx_service K) in
  {| eb_keys := match eb_keys B with EngineTrust _ => EngineTrust (as_trust s) | k => k end;
     eb_registry := match eb_registry B with Some _ => Some (as_registry s) | None => None end;
     eb_arbiter := eb_arbiter B |}.
Definition current_service (s : AdminState) : GovernedService :=
  {| sv_issuer := sv_issuer (sx_service K); sv_boundary := current_boundary s;
     sv_policies := as_registry s; sv_actions := sv_actions (sx_service K);
     sv_sources := sv_sources (sx_service K) |}.
Definition the_service : M api_state GovernedService := s ← get_state; mret (current_service (hp_admin s)).
Definition the_log : M api_state ReplayLog := s ← get_state; mret (ss_log (hp_service s)).

(** [self.service.record_governance_event(...)] *)
Definition api_govern (event subject actor : string) : M api_state unit :=
  on_service (record_governance_event (ev_event_hex E) (ev_recorded_at E) event subject actor).

(** ** Policy changes *)

Definition require_policy_change_manager : res AdminConfig :=
  match sx_admin K with
  | Some c => Ok {| ac_required_approvals := ac_required_approvals c; ac_separation := ac_separation c;
                    ac_hook := λ _ _ _, Ok tt |}
  | None => Raise (ValueError "policy change workflow is unavailable without a trust store")
  end.
Definition require_trust_change_manager : res AdminConfig :=
  match sx_admin K with
  | Some c => Ok {| ac_required_approvals := ac_required_approvals c; ac_separation := ac_separation c;
                    ac_hook := λ _ _ _, Ok tt |}
  | None => Raise (ValueError "trust key management is unavailable without a trust store")
  end.

(** An operation of a manager, and the events its hook was called with. *)
Definition administer {A} (m : M AdminState A) : M api_state A :=
  s ← get_state;
  x ← on_admin m;
  s' ← get_state;
  forM_ (drop (length (as_audit (hp_admin s))) (as_audit (hp_admin s')))
    (λ e, api_govern e.1.1 e.1.2 e.2) ;;
  mret x.

Definition text_arg (v : pyval) : res string :=
  match v with PStr s => Ok s | _ => unmodelled "an argument that is not text" end.
Definition text_item (k : string) (payload : pydict) : res string := v ← dict_item k payload; text_arg v.
Definition opt_text (v : pyval) : res (option string) :=
  match v with PNone => Ok None | v => s ← text_arg v; Ok (Some s) end.

Definition api_prepare_proposal (payload : pydict) : M api_state pydict :=
  _ ← lift_res require_policy_change_manager;
  s ← get_state;
  lift_res
    (policy ← dict_item "policy" payload; policy ← policy_from_dict policy;
     proposer ← text_item "proposer_key_id" payload;
     rationale ← text_arg (default (PStr "") (assoc_get "rationale" payload));
     proposal_id ← opt_text (dict_get "proposal_id" payload);
     prepared ← prepare_proposal (as_registry (hp_admin s)) policy proposer rationale proposal_id;
     Ok [("proposal_id", PStr prepared.1.1); ("current_policy_digest", PStr prepared.1.2);
         ("unsigned_payload", PStr prepared.2)]).

Definition api_submit_proposal (payload : pydict) (actor : string) : M api_state pydict :=
  manager ← lift_res require_policy_change_manager;
  policy ← lift_res (policy ← dict_item "policy" payload; policy_from_dict policy);
  proposer ← lift_res (text_item "proposer_key_id" payload);
  signature ← lift_res (text_item "signature" payload);
  rationale ← lift_res (text_arg (default (PStr "") (assoc_get "rationale" payload)));
  proposal_id ← lift_res (opt_text (dict_get "proposal_id" payload));
  proposal ← administer (propose_signed manager policy proposer signature rationale proposal_id actor);
  lift_res (to_summary_dict proposal).

Definition api_prepare_approval (proposal_id : string) (approver : pyval) : M api_state pydict :=
  manager ← lift_res require_policy_change_manager;
  approver ← lift_res (text_arg approver);
  prepared ← on_admin (prepare_approval proposal_id approver);
  mret [("policy_digest", PStr prepared.1); ("unsigned_payload", PStr prepared.2)].

Definition api_submit_approval (proposal_id : string) (payload : pydict) (actor : string) : M api_state pydict :=
  manager ← lift_res require_policy_change_manager;
  approver ← lift_res (text_item "approver_key_id" payload);
  signature ← lift_res (text_item "signature" payload);
  proposal ← administer (approve_signed manager proposal_id approver signature actor);
  lift_res (to_summary_dict proposal).

Definition api_activate_proposal (proposal_id actor : string) : M api_state pydict :=
  manager ← lift_res require_policy_change_manager;
  policy ← administer (admin_activate manager proposal_id actor);
  digest ← lift_res (policy_digest policy);
  mret [("policy_id", PStr (policy_id policy)); ("policy_digest", PStr digest)].

Definition api_list_proposals (s : AdminState) : res pydict :=
  match sx_admin K with
  | None => Ok [("proposals", PList []); ("required_approvals", PNone)]
  | Some c =>
      summaries ← mapM_res to_summary_dict (admin_proposals s);
      Ok [("proposals", PList (map PDict summaries)); ("required_approvals", PInt (ac_required_approvals c))]
  end.

(** ** Trust keys *)

Definition api_prepare_trust_add (payload : pydict) : res pydict :=
  _ ← require_trust_change_manager;
  key_id ← text_item "key_id" payload; public_key ← text_item "public_key_b64" payload;
  requested_by ← text_item "requested_by_key_id" payload;
  text ← prepare_add key_id public_key requested_by;
  Ok [("unsigned_payload", PStr text)].

Definition api_submit_trust_add (payload : pydict) (actor : string) : M api_state pydict :=
  manager ← lift_res require_trust_change_manager;
  key_id ← lift_res (text_item "key_id" payload);
  public_key ← lift_res (text_item "public_key_b64" payload);
  requested_by ← lift_res (text_item "requested_by_key_id" payload);
  signature ← lift_res (text_item "signature" payload);
  administer (submit_add manager key_id public_key requested_by signature actor).

Definition api_prepare_trust_revoke (key_id : string) (payload : pydict) : res pydict :=
  _ ← require_trust_change_manager;
  requested_by ← text_item "requested_by_key_id" payload;
  text ← prepare_revoke key_id requested_by;
  Ok [("unsigned_payload", PStr text)].

Definition api_submit_trust_revoke (key_id : string) (payload : pydict) (actor : string) : M api_state pydict :=
  manager ← lift_res require_trust_change_manager;
  requested_by ← lift_res (text_item "requested_by_key_id" payload);
  signature ← lift_res (text_item "signature" payload);
  administer (submit_revoke manager key_id requested_by signature actor).

Definition trust_snapshot (s : AdminState) : pydict :=
  match eb_keys (current_boundary s) with
  | EngineTrust t => trust_to_dict t
  | EngineIssuers _ => [("keys", PDict []); ("revoked", PList [])]
  end.

(** ** Replay evidence *)

Definition replay_integrity (log : ReplayLog) : res pydict := i ← verify_integrity log; Ok (integrity_to_dict i).

Definition create_replay_anchor (actor : string) : M api_state AuditAnchor :=
  let signer := ai_issuer (sv_issuer (sx_service K)) in
  api_govern "replay.anchor_created" (signer_key_id signer) actor ;;
  log ← the_log;
  lift_res (create_anchor log signer).

(** The certification and its flag [certified]. *)
Definition certify_replay_anchor (payload : pydict) : M api_state (bool * pydict) :=
  anchor ← lift_res (anchor_from_dict (PDict payload));
  s ← get_state;
  let log := ss_log (hp_service s) in
  match eb_keys (current_boundary (hp_admin s)) with
  | EngineIssuers _ => raise (RuntimeError "replay certification requires a trust store")
  | EngineTrust t =>
      match trust_resolve t (an_signer_key_id anchor) with
      | None =>
          integrity ← lift_res (replay_integrity log);
          mret (false, [("certified", PBool false); ("integrity", PDict integrity);
                        ("reason", PStr "anchor_signer_untrusted");
                        ("signer_key_id", PStr (an_signer_key_id anchor))])
      | Some public_key =>
          integrity ← lift_res (replay_integrity log);
          certified ← lift_res (certify_anchor log anchor public_key);
          mret (certified, [("certified", PBool certified); ("integrity", PDict integrity);
                            ("signer_key_id", PStr (an_signer_key_id anchor))] ++
                           if certified : bool then [] else [("reason", PStr "replay_state_mismatch")])
      end
  end.

Definition policy_record_payload (record : StoredPolicy) : pydict :=
  [("policy_id", PStr (sp_id record)); ("version", PStr (sp_version record));
   ("content_digest", sp_content_hash record); ("policy", sp_policy record);
   ("schema_version", sp_schema_version record); ("signature", opt_signature (sp_signature record))].

(** ** Operator keys and jobs *)

Definition require_operator_key_store : M api_state (list OperatorAPIKey) :=
  s ← get_state;
  match hs_operators (hp_auth s) with
  | Some rows => mret rows
  | None => raise (ValueError "operator API key management is not configured")
  end.

Definition list_operator_keys : M api_state pydict :=
  rows ← require_operator_key_store; mret [("keys", PList (map PDict (list_keys rows)))].

Definition create_operator_key (payload : pydict) (actor : string) : M api_state pydict :=
  rows ← require_operator_key_store;
  operator_id ← match dict_get "operator_id" payload with
                | PStr o => mret (PStr o)
                | _ => raise (ValueError "operator_id must be a string")
                end;
  created ← on_operators rows (operator_create operator_id (ev_operator_key_id E) (ev_operator_secret E)
                                 (ev_operator_created_at E));
  api_govern "operator.key_added" (ev_operator_key_id E) actor ;;
  mret created.

Definition revoke_operator_key (key_id actor : string) : M api_state unit :=
  rows ← require_operator_key_store;
  on_operators rows (operator_revoke key_id) ;;
  api_govern "operator.key_revoked" key_id actor.

(** The artifact of a job as JSON text. *)
Definition job_artifact (artifact : pyval) : res string :=
  let invalid := ValueError "artifact must be a JSON object or serialized GAA" in
  match artifact with
  | PDict d => json_dumps compact_style (PDict d)
  | PStr text =>
      parsed ← res_except (json_loads text) (λ e, if is_ValueError e then Some invalid else None);
      match parsed with PDict _ => Ok text | _ => Raise invalid end
  | _ => Raise invalid
  end.

Definition submit_job (payload : pydict) (actor : string) : M api_state pydict :=
  artifact_json ← lift_res (job_artifact (dict_get "artifact" payload));
  key ← match dict_get "idempotency_key" payload with
        | PStr key => if String.eqb key "" then raise (ValueError "idempotency_key must be a non-empty string")
                      else mret key
        | _ => raise (ValueError "idempotency_key must be a non-empty string")
        end;
  attempts ← match default (PInt 3) (assoc_get "max_attempts" payload) with
             | PInt n => if (0 <? n) && (n <=? 20) then mret n
                         else raise (ValueError "max_attempts must be an integer between 1 and 20")
             | _ => raise (ValueError "max_attempts must be an integer between 1 and 20")
             end;
  s ← get_state;
  match hp_jobs s with
  | None => raise (RuntimeError "job queue is not configured")
  | Some q =>
      job ← on_jobs q (jq_enqueue (ev_job_id E) (ev_job_now E) [("artifact", PStr artifact_json)] key attempts);
      api_govern "job.submitted" (job_id job) actor ;;
      mret [("job_id", PStr (job_id job)); ("status", PStr (job_status job))]
  end.

(** ** The control room *)

(** [round(x / n * 100, 1)] of two counts: the quotient and the product are
    rounded to binary64, then to the nearest tenth, then to binary64. *)
Definition percentage (x n : Z) : spec_float :=
  match SFmul 53 1024 (if x =? 0 then zero else round_rational false x n) (float_of_decimal false 100 0) with
  | S754_finite false m e =>
      float_of_decimal false
        (if 0 <=? e then Zpos m * 2 ^ e * 10 else round_div (Zpos m * 10) (2 ^ (- e))) (- 1)
  | f => f
  end.

(** ["; ".join(v)] *)
Definition join_reasons (v : pyval) : res string :=
  items ← match v with
          | PStr _ => unmodelled "reasons that are one string"
          | PList _ | PDict _ => py_tuple v
          | _ => Raise (TypeError "can only join an iterable")
          end;
  texts ← mapM_res (λ x, match x with
                         | PStr t => Ok t | _ => Raise (TypeError "sequence item: expected str instance") end) items;
  Ok (join "; " texts).

(** A failed execution or a refused authorization. *)
Definition is_incident (event : pydict) : bool :=
  py_eqb (dict_get "type" event) (PStr "execution") && py_eqb (dict_get "status" event) (PStr "failed") ||
  py_eqb (dict_get "type" event) (PStr "authorization") &&
  match dict_get "issued" event with PBool b => negb b | _ => false end.

Definition incident (event : pydict) : res pyval :=
  decision ← match dict_get_or "decision" (PDict []) event with
             | PDict d => Ok d
             | _ => Raise (AttributeError "get")
             end;
  reasons ← join_reasons (dict_get_or "reasons" (PList []) decision);
  Ok (PDict [("summary", dict_get_or "error_type" (PStr "Authorization denied") event);
             ("detail", dict_get_or "error" (PStr reasons) event);
             ("type", dict_get "type" event);
             ("severity", PStr (if py_eqb (dict_get "type" event) (PStr "execution") then "high" else "medium"))]).

Definition timeline_entry (event : pydict) : pyval :=
  let type := dict_get_or "type" (PStr "unknown") event in
  PDict [("type", type); ("event", dict_get_or "event" (dict_get_or "status" type event) event);
         ("subject", dict_get_or "subject_id" (dict_get_or "nonce" (PStr "") event) event)].

(** [l[-n:]] *)
Definition last_n {A} (n : nat) (l : list A) : list A := drop (length l - n) l.

Definition summary_count (k : string) (summary : pydict) : Z :=
  match dict_get k summary with PInt n => n | _ => 0 end.

Definition control_policies (V : GovernedService) : list (string * list string) :=
  map (λ p, (policy_id p, allowed_actions p)) (registry_policies (sv_policies V)).

(** The policies that allow an action. *)
Definition coverage (policies : list (string * list string)) (action : string) : list string :=
  map fst (List.filter (λ p, str_in action p.2) policies).

Definition analytics (policies assets : Z) (trust summary : pydict) : pydict :=
  let executions := summary_count "execution_count" summary in
  [("policy_count", PInt policies); ("asset_count", PInt assets);
   ("authorizations", dict_get "authorization_count" summary); ("executions", PInt executions);
   ("failures", dict_get "failure_count" summary);
   ("success_rate", if executions =? 0 then PNone
                    else PFloat (percentage (summary_count "success_count" summary) executions));
   ("trusted_keys", match dict_get "keys" trust with PDict d => PInt (Z.of_nat (length d)) | _ => PInt 0 end);
   ("frames", dict_get "frame_count" summary)].

Definition control_room_snapshot : M api_state pydict :=
  s ← get_state;
  let V := current_service (hp_admin s) in
  let log := ss_log (hp_service s) in
  let summary := audit_summary log in
  proposals ← lift_res (api_list_proposals (hp_admin s));
  let policies := control_policies V in
  let actions := sort_strings (map fst (sv_actions V)) in
  let events := map rf_event (rl_frames log) in
  incidents ← lift_res (mapM_res incident (List.filter is_incident events));
  report ← lift_res (audit_report V log);
  let ok := match dict_get "health" report with PDict h => dict_get "ok" h | _ => PNone end in
  mret [("health", PDict [("ok", ok)]);
        ("assets", PList (map (λ a, PDict [("asset_id", PStr a); ("policies", of_strs (coverage policies a))]) actions));
        ("policies", PList (map (λ p, PDict [("id", PStr p.1); ("actions", of_strs p.2)]) policies));
        ("graph", PDict [("edges", PList (flat_map (λ p, map (λ a,
            PDict [("from", PStr p.1); ("to", PStr a)]) p.2) policies))]);
        ("approvals", PList (match dict_get "proposals" proposals with
                             | PList l => List.filter (λ p, match p with
                                 | PDict d => py_eqb (dict_get "status" d) (PStr "pending") | _ => false end) l
                             | _ => []
                             end));
        ("incidents", PList (last_n 10 incidents));
        ("timeline", PList (map timeline_entry (rev (last_n 20 events))));
        ("analytics", PDict (analytics (Z.of_nat (length policies)) (Z.of_nat (length actions))
                               (trust_snapshot (hp_admin s)) summary))].
End Methods.
End Api.
