(* ===== verification/OpenApi.v ===== *)
(** http_api.py: the OpenAPI document that the API serves about itself: the
    literal, in pieces, and its completion with body schemas and the responses of
    requests that are not authorized. *)

From S2P Require Import Prelude PyFloat PyVal Json Sha256 Base64 Crypto Models Policy Rbac Orders PolicyStorage.

(** * The literal *)

Definition component_schemas : pydict :=
  [("AuthorizeRequest",
     PDict [("type", PStr "object");
            ("required", PList [PStr "policy_id"; PStr "request"]);
            ("properties",
              PDict [("policy_id", PDict [("type", PStr "string")]);
                     ("request", PDict [("type", PStr "object"); ("additionalProperties", PBool true)]);
                     ("ttl_seconds", PDict [("type", PStr "integer"); ("minimum", PInt 1)]);
                     ("approvals",
                       PDict [("type", PStr "array"); ("items", PDict [("type", PStr "object")])]);
                     ("mesh_inputs",
                       PDict [("type", PStr "array"); ("items", PDict [("type", PStr "object")])])])]);
   ("ExecuteRequest",
     PDict [("type", PStr "object");
            ("required", PList [PStr "artifact"]);
            ("properties",
              PDict [("artifact", PDict [("type", PStr "object"); ("additionalProperties", PBool true)])])]);
   ("Error",
     PDict [("type", PStr "object");
            ("required", PList [PStr "error"]);
            ("properties",
              PDict [("error", PDict [("type", PStr "string")]);
                     ("decision", PDict [("type", PStr "object")])])]);
   ("AuthorizationArtifact",
     PDict [("type", PStr "object");
            ("description", PStr "Signed governance authorization artifact (GAA)");
            ("additionalProperties", PBool true)]);
   ("ExecuteResponse",
     PDict [("type", PStr "object");
            ("required", PList [PStr "result"]);
            ("properties",
              PDict [("result", PDict [("type", PStr "object"); ("additionalProperties", PBool true)])])]);
   ("HealthReport",
     PDict [("type", PStr "object");
            ("required", PList [PStr "ok"]);
            ("properties",
              PDict [("ok", PDict [("type", PStr "boolean")]); ("status", PDict [("type", PStr "string")])]);
            ("additionalProperties", PBool true)]);
   ("ReplayAnchor",
     PDict [("type", PStr "object");
            ("required",
              PList [PStr "replay_digest";
                     PStr "head_hash";
                     PStr "frame_count";
                     PStr "signer_key_id";
                     PStr "signature"]);
            ("properties",
              PDict [("replay_digest", PDict [("type", PStr "string")]);
                     ("head_hash", PDict [("type", PStr "string")]);
                     ("frame_count", PDict [("type", PStr "integer"); ("minimum", PInt 0)]);
                     ("signer_key_id", PDict [("type", PStr "string")]);
                     ("signature", PDict [("type", PStr "string")])])]);
   ("ReplayCertification",
     PDict [("type", PStr "object");
            ("required", PList [PStr "certified"; PStr "integrity"; PStr "signer_key_id"]);
            ("properties",
              PDict [("certified", PDict [("type", PStr "boolean")]);
                     ("integrity", PDict [("type", PStr "object"); ("additionalProperties", PBool true)]);
                     ("reason", PDict [("type", PStr "string")]);
                     ("signer_key_id", PDict [("type", PStr "string")])])]);
   ("JobSubmission",
     PDict [("type", PStr "object");
            ("required", PList [PStr "artifact"; PStr "idempotency_key"]);
            ("properties",
              PDict [("artifact",
                       PDict [("oneOf",
                                PList [PDict [("type", PStr "object");
                                              ("additionalProperties", PBool true)];
                                       PDict [("type", PStr "string");
                                              ("description", PStr "Serialized GAA JSON")]])]);
                     ("idempotency_key", PDict [("type", PStr "string"); ("minLength", PInt 1)]);
                     ("max_attempts",
                       PDict [("type", PStr "integer"); ("minimum", PInt 1); ("maximum", PInt 20)])])])].

Definition execution_paths : pydict :=
  [("/api/v1/authorize",
     PDict [("post",
              PDict [("security", PList [PDict [("bearerAuth", PList [])]]);
                     ("requestBody",
                       PDict [("required", PBool true);
                              ("content",
                                PDict [("application/json",
                                         PDict [("schema",
                                                  PDict [("$ref",
                                                           PStr "#/components/schemas/AuthorizeRequest")])])])]);
                     ("responses",
                       PDict [("200",
                                PDict [("description", PStr "Signed governance authorization artifact");
                                       ("content",
                                         PDict [("application/json",
                                                  PDict [("schema",
                                                           PDict [("$ref",
                                                                    PStr "#/components/schemas/AuthorizationArtifact")])])])]);
                              ("400",
                                PDict [("description", PStr "Invalid request");
                                       ("content",
                                         PDict [("application/json",
                                                  PDict [("schema",
                                                           PDict [("$ref",
                                                                    PStr "#/components/schemas/Error")])])])]);
                              ("401",
                                PDict [("description", PStr "Unauthorized");
                                       ("content",
                                         PDict [("application/json",
                                                  PDict [("schema",
                                                           PDict [("$ref",
                                                                    PStr "#/components/schemas/Error")])])])]);
                              ("403",
                                PDict [("description", PStr "Policy denied");
                                       ("content",
                                         PDict [("application/json",
                                                  PDict [("schema",
                                                           PDict [("$ref",
                                                                    PStr "#/components/schemas/Error")])])])])])])]);
   ("/api/v1/execute",
     PDict [("post",
              PDict [("security", PList [PDict [("bearerAuth", PList [])]]);
                     ("requestBody",
                       PDict [("required", PBool true);
                              ("content",
                                PDict [("application/json",
                                         PDict [("schema",
                                                  PDict [("$ref",
                                                           PStr "#/components/schemas/ExecuteRequest")])])])]);
                     ("responses",
                       PDict [("200",
                                PDict [("description", PStr "Action result");
                                       ("content",
                                         PDict [("application/json",
                                                  PDict [("schema",
                                                           PDict [("$ref",
                                                                    PStr "#/components/schemas/ExecuteResponse")])])])]);
                              ("400",
                                PDict [("description", PStr "Invalid request");
                                       ("content",
                                         PDict [("application/json",
                                                  PDict [("schema",
                                                           PDict [("$ref",
                                                                    PStr "#/components/schemas/Error")])])])]);
                              ("401",
                                PDict [("description", PStr "Unauthorized");
                                       ("content",
                                         PDict [("application/json",
                                                  PDict [("schema",
                                                           PDict [("$ref",
                                                                    PStr "#/components/schemas/Error")])])])])])])])].

Definition health_paths : pydict :=
  [("/health",
     PDict [("get",
              PDict [("responses",
                       PDict [("200",
                                PDict [("description", PStr "Health report");
                                       ("content",
                                         PDict [("application/json",
                                                  PDict [("schema",
                                                           PDict [("$ref",
                                                                    PStr "#/components/schemas/HealthReport")])])])])])])]);
   ("/readyz",
     PDict [("get",
              PDict [("responses",
                       PDict [("200",
                                PDict [("description", PStr "Readiness report");
                                       ("content",
                                         PDict [("application/json",
                                                  PDict [("schema",
                                                           PDict [("$ref",
                                                                    PStr "#/components/schemas/HealthReport")])])])]);
                              ("503",
                                PDict [("description", PStr "Not ready");
                                       ("content",
                                         PDict [("application/json",
                                                  PDict [("schema",
                                                           PDict [("$ref",
                                                                    PStr "#/components/schemas/HealthReport")])])])])])])]);
   ("/livez",
     PDict [("get",
              PDict [("responses",
                       PDict [("200",
                                PDict [("description", PStr "Liveness report");
                                       ("content",
                                         PDict [("application/json",
                                                  PDict [("schema",
                                                           PDict [("$ref",
                                                                    PStr "#/components/schemas/HealthReport")])])])])])])]);
   ("/startupz",
     PDict [("get",
              PDict [("responses",
                       PDict [("200",
                                PDict [("description", PStr "Startup report");
                                       ("content",
                                         PDict [("application/json",
                                                  PDict [("schema",
                                                           PDict [("$ref",
                                                                    PStr "#/components/schemas/HealthReport")])])])])])])])].

Definition audit_paths : pydict :=
  [("/audit",
     PDict [("get", PDict [("responses", PDict [("200", PDict [("description", PStr "Audit summary")])])])]);
   ("/audit/replay",
     PDict [("get",
              PDict [("security", PList [PDict [("bearerAuth", PList [])]]);
                     ("responses",
                       PDict [("200",
                                PDict [("description", PStr "Current replay integrity evidence");
                                       ("content",
                                         PDict [("application/json",
                                                  PDict [("schema",
                                                           PDict [("type", PStr "object");
                                                                  ("required",
                                                                    PList [PStr "integrity"]);
                                                                  ("properties",
                                                                    PDict [("integrity",
                                                                             PDict [("type",
                                                                                      PStr "object");
                                                                                    ("additionalProperties",
                                                                                      PBool true)])])])])])])])])]);
   ("/audit/replay/certify",
     PDict [("post",
              PDict [("security", PList [PDict [("bearerAuth", PList [])]]);
                     ("requestBody",
                       PDict [("required", PBool true);
                              ("content",
                                PDict [("application/json",
                                         PDict [("schema",
                                                  PDict [("$ref",
                                                           PStr "#/components/schemas/ReplayAnchor")])])])]);
                     ("responses",
                       PDict [("200",
                                PDict [("description",
                                         PStr "Anchor certifies the current replay state");
                                       ("content",
                                         PDict [("application/json",
                                                  PDict [("schema",
                                                           PDict [("$ref",
                                                                    PStr "#/components/schemas/ReplayCertification")])])])]);
                              ("400", PDict [("description", PStr "Invalid replay anchor")]);
                              ("409",
                                PDict [("description",
                                         PStr "Anchor does not certify the current replay state")]);
                              ("503", PDict [("description", PStr "Replay trust store is unavailable")])])])]);
   ("/admin/replay/anchor",
     PDict [("post",
              PDict [("security", PList [PDict [("bearerAuth", PList [])]]);
                     ("description", PStr "Create a signed replay checkpoint for independent retention.");
                     ("requestBody",
                       PDict [("required", PBool true);
                              ("content",
                                PDict [("application/json",
                                         PDict [("schema",
                                                  PDict [("type", PStr "object");
                                                         ("maxProperties", PInt 0)])])])]);
                     ("responses",
                       PDict [("201",
                                PDict [("description",
                                         PStr "Signed replay anchor; retain it outside the runtime system.");
                                       ("content",
                                         PDict [("application/json",
                                                  PDict [("schema",
                                                           PDict [("$ref",
                                                                    PStr "#/components/schemas/ReplayAnchor")])])])]);
                              ("400", PDict [("description", PStr "Invalid replay anchor request")]);
                              ("503",
                                PDict [("description", PStr "Replay anchor signer is unavailable")])])])])].

Definition job_paths : pydict :=
  [("/admin/jobs",
     PDict [("post",
              PDict [("security", PList [PDict [("bearerAuth", PList [])]]);
                     ("requestBody",
                       PDict [("required", PBool true);
                              ("content",
                                PDict [("application/json",
                                         PDict [("schema",
                                                  PDict [("$ref",
                                                           PStr "#/components/schemas/JobSubmission")])])])]);
                     ("responses",
                       PDict [("202",
                                PDict [("description", PStr "Job accepted into the configured queue")]);
                              ("503",
                                PDict [("description",
                                         PStr "Job queue is not configured or unavailable")])])])]);
   ("/admin/jobs/{job_id}",
     PDict [("get",
              PDict [("security", PList [PDict [("bearerAuth", PList [])]]);
                     ("parameters",
                       PList [PDict [("name", PStr "job_id");
                                     ("in", PStr "path");
                                     ("required", PBool true);
                                     ("schema", PDict [("type", PStr "string")])]]);
                     ("responses",
                       PDict [("200", PDict [("description", PStr "Job status")]);
                              ("404", PDict [("description", PStr "Job not found")]);
                              ("503",
                                PDict [("description",
                                         PStr "Job queue is not configured or unavailable")])])])])].

Definition sign_in_paths : pydict :=
  [("/openapi.json",
     PDict [("get", PDict [("responses", PDict [("200", PDict [("description", PStr "OpenAPI document")])])])]);
   ("/auth/login",
     PDict [("get",
              PDict [("parameters",
                       PList [PDict [("name", PStr "next");
                                     ("in", PStr "query");
                                     ("required", PBool false);
                                     ("schema", PDict [("type", PStr "string")])]]);
                     ("responses",
                       PDict [("302",
                                PDict [("description",
                                         PStr "Redirect to the discovered OpenID provider")])])])]);
   ("/auth/callback",
     PDict [("get",
              PDict [("responses",
                       PDict [("302",
                                PDict [("description",
                                         PStr "Validated sign-in; sets browser session cookie")]);
                              ("400", PDict [("description", PStr "Invalid callback state")]);
                              ("401", PDict [("description", PStr "Sign-in token validation failed")])])])]);
   ("/auth/logout",
     PDict [("post",
              PDict [("responses",
                       PDict [("204", PDict [("description", PStr "Local browser session revoked")])])])]);
   ("/auth/me",
     PDict [("get",
              PDict [("security", PList [PDict [("bearerAuth", PList [])]]);
                     ("responses",
                       PDict [("200",
                                PDict [("description",
                                         PStr "Authenticated subject, tenant, issuer, assigned roles, and identity type")]);
                              ("401",
                                PDict [("description", PStr "Authenticated OIDC identity required")])])])])].

Definition page_paths : pydict :=
  [("/admin",
     PDict [("get",
              PDict [("security", PList [PDict [("bearerAuth", PList [])]]);
                     ("responses",
                       PDict [("200", PDict [("description", PStr "Governance admin dashboard (HTML)")])])])]);
   ("/admin/app.js",
     PDict [("get",
              PDict [("security", PList [PDict [("bearerAuth", PList [])]]);
                     ("responses",
                       PDict [("200", PDict [("description", PStr "Admin dashboard client-side script")])])])]);
   ("/admin/app.css",
     PDict [("get",
              PDict [("security", PList [PDict [("bearerAuth", PList [])]]);
                     ("responses",
                       PDict [("200", PDict [("description", PStr "Admin dashboard stylesheet")])])])]);
   ("/admin/policies",
     PDict [("get",
              PDict [("security", PList [PDict [("bearerAuth", PList [])]]);
                     ("responses", PDict [("200", PDict [("description", PStr "Registered policies")])])])]);
   ("/admin/metrics",
     PDict [("get",
              PDict [("security", PList [PDict [("bearerAuth", PList [])]]);
                     ("responses", PDict [("200", PDict [("description", PStr "Runtime metrics")])])])]);
   ("/admin/control-room",
     PDict [("get",
              PDict [("security", PList [PDict [("bearerAuth", PList [])]]);
                     ("responses",
                       PDict [("200",
                                PDict [("description",
                                         PStr "Authenticated mission-control snapshot of inventory, policies, approvals, replay incidents, timeline, and analytics")])])])]);
   ("/admin/trust",
     PDict [("get",
              PDict [("security", PList [PDict [("bearerAuth", PList [])]]);
                     ("responses",
                       PDict [("200", PDict [("description", PStr "Trusted signing keys snapshot")])])])])].

Definition operator_key_paths : pydict :=
  [("/admin/operator-keys",
     PDict [("get",
              PDict [("security", PList [PDict [("bearerAuth", PList [])]]);
                     ("responses",
                       PDict [("200",
                                PDict [("description", PStr "Operator API keys (secrets omitted)")])])]);
            ("post",
              PDict [("security", PList [PDict [("bearerAuth", PList [])]]);
                     ("requestBody",
                       PDict [("required", PBool true);
                              ("content",
                                PDict [("application/json",
                                         PDict [("schema",
                                                  PDict [("type", PStr "object");
                                                         ("required", PList [PStr "operator_id"]);
                                                         ("properties",
                                                           PDict [("operator_id",
                                                                    PDict [("type",
                                                                             PStr "string")])])])])])]);
                     ("/admin/identities/role-assignments",
                       PDict [("get",
                                PDict [("security", PList [PDict [("bearerAuth", PList [])]]);
                                       ("responses",
                                         PDict [("200",
                                                  PDict [("description",
                                                           PStr "Explicit role assignments")])])]);
                              ("post",
                                PDict [("security", PList [PDict [("bearerAuth", PList [])]]);
                                       ("requestBody",
                                         PDict [("required", PBool true);
                                                ("content",
                                                  PDict [("application/json",
                                                           PDict [("schema",
                                                                    PDict [("type",
                                                                             PStr "object");
                                                                           ("required",
                                                                             PList [PStr "principal_id";
                                                                                    PStr "role"]);
                                                                           ("properties",
                                                                             PDict [("principal_id",
                                                                                      PDict [("type",
                                                                                               PStr "string")]);
                                                                                    ("role",
                                                                                      PDict [("type",
                                                                                               PStr "string");
                                                                                             ("enum",
                                                                                               of_strs (sort_strings (map role_value all_roles)))])])])])])]);
                                       ("responses",
                                         PDict [("201",
                                                  PDict [("description",
                                                           PStr "Role assignment recorded")])])])]);
                     ("/admin/identities/service-principals",
                       PDict [("get",
                                PDict [("security", PList [PDict [("bearerAuth", PList [])]]);
                                       ("responses",
                                         PDict [("200",
                                                  PDict [("description",
                                                           PStr "Authenticated service principals")])])])]);
                     ("/admin/identities/events",
                       PDict [("get",
                                PDict [("security", PList [PDict [("bearerAuth", PList [])]]);
                                       ("responses",
                                         PDict [("200",
                                                  PDict [("description",
                                                           PStr "Identity and role-assignment events")])])])]);
                     ("responses",
                       PDict [("201",
                                PDict [("description",
                                         PStr "Created operator key; bearer token is returned once and is not stored")])])])]);
   ("/admin/operator-keys/{key_id}/revoke",
     PDict [("post",
              PDict [("security", PList [PDict [("bearerAuth", PList [])]]);
                     ("responses",
                       PDict [("200", PDict [("description", PStr "Operator API key revoked")])])])])].

Definition policy_change_paths : pydict :=
  [("/admin/governance-log",
     PDict [("get",
              PDict [("security", PList [PDict [("bearerAuth", PList [])]]);
                     ("responses",
                       PDict [("200",
                                PDict [("description",
                                         PStr "Durable, hash-chained history of policy/trust governance events (proposed, approved, activated, key_added, key_revoked)")])])])]);
   ("/admin/proposals",
     PDict [("get",
              PDict [("security", PList [PDict [("bearerAuth", PList [])]]);
                     ("responses",
                       PDict [("200", PDict [("description", PStr "Policy change proposals")])])]);
            ("post",
              PDict [("security", PList [PDict [("bearerAuth", PList [])]]);
                     ("description",
                       PStr "Submit a proposal signed externally with the payload from /admin/proposals/prepare.");
                     ("responses",
                       PDict [("201", PDict [("description", PStr "Created proposal summary")])])])]);
   ("/admin/proposals/prepare",
     PDict [("post",
              PDict [("security", PList [PDict [("bearerAuth", PList [])]]);
                     ("description", PStr "Return the exact bytes a proposer must sign.");
                     ("responses",
                       PDict [("200", PDict [("description", PStr "Unsigned proposal payload")])])])]);
   ("/admin/proposals/{proposal_id}/prepare-approval",
     PDict [("post",
              PDict [("security", PList [PDict [("bearerAuth", PList [])]]);
                     ("description", PStr "Return the exact bytes an approver must sign.");
                     ("responses",
                       PDict [("200", PDict [("description", PStr "Unsigned approval payload")])])])]);
   ("/admin/proposals/{proposal_id}/approve",
     PDict [("post",
              PDict [("security", PList [PDict [("bearerAuth", PList [])]]);
                     ("description",
                       PStr "Submit an approval signed externally with the payload from prepare-approval.");
                     ("responses",
                       PDict [("200", PDict [("description", PStr "Updated proposal summary")])])])]);
   ("/admin/proposals/{proposal_id}/activate",
     PDict [("post",
              PDict [("security", PList [PDict [("bearerAuth", PList [])]]);
                     ("description", PStr "Activate a proposal that has met its approval quorum.");
                     ("responses",
                       PDict [("200", PDict [("description", PStr "Activated policy summary")])])])])].

Definition trust_paths : pydict :=
  [("/admin/trust/keys/prepare",
     PDict [("post",
              PDict [("security", PList [PDict [("bearerAuth", PList [])]]);
                     ("description",
                       PStr "Return the exact bytes an existing trusted key must sign to add a new trusted key.");
                     ("responses",
                       PDict [("200", PDict [("description", PStr "Unsigned trust-add payload")])])])]);
   ("/admin/trust/keys",
     PDict [("post",
              PDict [("security", PList [PDict [("bearerAuth", PList [])]]);
                     ("description",
                       PStr "Add a trusted key, signed externally by an existing trusted key.");
                     ("responses",
                       PDict [("201", PDict [("description", PStr "Updated trust store snapshot")])])])]);
   ("/admin/trust/keys/{key_id}/revoke/prepare",
     PDict [("post",
              PDict [("security", PList [PDict [("bearerAuth", PList [])]]);
                     ("description",
                       PStr "Return the exact bytes an existing trusted key must sign to revoke a trusted key.");
                     ("responses",
                       PDict [("200", PDict [("description", PStr "Unsigned trust-revoke payload")])])])]);
   ("/admin/trust/keys/{key_id}/revoke",
     PDict [("post",
              PDict [("security", PList [PDict [("bearerAuth", PList [])]]);
                     ("description",
                       PStr "Revoke a trusted key, signed externally by an existing trusted key.");
                     ("responses",
                       PDict [("200", PDict [("description", PStr "Updated trust store snapshot")])])])])].

(** The literal, before it is completed. *)
Definition schema_literal : pydict :=
  [("openapi", PStr "3.0.3");
   ("info",
      PDict [("title", PStr "Governed Autonomy Substrate");
             ("version", PStr "1.0");
             ("description", PStr "Authenticated authorization, execution, health, and audit APIs.")]);
   ("servers", PList [PDict [("url", PStr "/")]]);
   ("components", PDict [("securitySchemes", PDict [("bearerAuth", PDict [("type", PStr "http"); ("scheme", PStr "bearer")])]); ("schemas", PDict component_schemas)]);
   ("paths", PDict (execution_paths ++ health_paths ++ audit_paths ++ job_paths ++ sign_in_paths ++ page_paths ++ operator_key_paths ++ policy_change_paths ++ trust_paths))].

(** * Its completion *)

Definition json_ref (name : string) : pyval :=
  PDict [("application/json", PDict [("schema", PDict [("$ref", PStr ("#/components/schemas/" +:+ name))])])].

(** [d.setdefault(k, v)] *)
Definition setdefault (k : string) (v : pyval) (d : pydict) : pydict := if assoc_has k d then d else assoc_set k v d.

Definition complete_response (path status : string) (response : pydict) : pydict :=
  if assoc_has "content" response then response
  else if String.prefix "2" status then
    if String.prefix "/admin/app." path || String.eqb path "/admin" then response
    else assoc_set "content" (json_ref "Object") response
  else if String.prefix "4" status || String.prefix "5" status
  then assoc_set "content" (json_ref "Error") response
  else response.

Definition unauthorized_response (text : string) : pyval :=
  PDict [("description", PStr text); ("content", json_ref "Error")].

Definition complete_operation (path : string) (operation : pydict) : res pydict :=
  responses ← dict_item "responses" operation; responses ← py_items responses;
  responses ← mapM_res (λ kv : string * pyval, r ← py_items kv.2;
                                               Ok (kv.1, PDict (complete_response path kv.1 r))) responses;
  let responses := if truthy (dict_get "security" operation)
                   then setdefault "403" (unauthorized_response "Forbidden")
                          (setdefault "401" (unauthorized_response "Unauthorized") responses)
                   else responses in
  Ok (assoc_set "responses" (PDict responses) operation).

Definition complete_path (kv : string * pyval) : res (string * pyval) :=
  operations ← py_items kv.2;
  operations ← mapM_res (λ mo : string * pyval, o ← py_items mo.2; o ← complete_operation kv.1 o; Ok (mo.1, PDict o))
                 operations;
  Ok (kv.1, PDict operations).

Definition versioned_paths : list string :=
  ["/health"; "/livez"; "/readyz"; "/startupz"; "/audit"; "/audit/replay"; "/openapi.json"].

Fixpoint version_paths (names : list string) (paths : pydict) : res pydict :=
  match names with
  | [] => Ok paths
  | n :: names =>
      operations ← dict_item n paths;
      version_paths names (setdefault ("/api/v1" +:+ n) operations paths)
  end.

Definition complete_schema (schema : pydict) : res pydict :=
  components ← dict_item "components" schema; components ← py_items components;
  schemas ← dict_item "schemas" components; schemas ← py_items schemas;
  let schemas := setdefault "Object" (PDict [("type", PStr "object"); ("additionalProperties", PBool true)]) schemas in
  paths ← dict_item "paths" schema; paths ← py_items paths;
  paths ← mapM_res complete_path paths;
  paths ← version_paths versioned_paths paths;
  Ok (assoc_set "paths" (PDict paths)
        (assoc_set "components" (PDict (assoc_set "schemas" (PDict schemas) components)) schema)).

Definition API_SCHEMA : pydict := match complete_schema schema_literal with Ok d => d | Raise _ => [] end.

(** * Lemmas *)

Definition schema_paths : pydict := match dict_get "paths" API_SCHEMA with PDict p => p | _ => [] end.

Lemma complete_schema_ok : complete_schema schema_literal = Ok API_SCHEMA.
Proof. vm_compute. reflexivity. Qed.

(** The operations with their path and method. *)
Definition documented : list (string * string * pydict) :=
  flat_map (λ kv, match kv.2 with
                  | PDict operations => flat_map (λ mo, match mo.2 with PDict o => [(kv.1, mo.1, o)] | _ => [] end)
                                          operations
                  | _ => []
                  end) schema_paths.

Definition response_codes (operation : pydict) : list string :=
  match dict_get "responses" operation with PDict d => map fst d | _ => [] end.

(** Each operation that is marked with the bearer scheme documents both refusals. *)
Lemma secured_documented : forallb (λ pmo : string * string * pydict,
  negb (truthy (dict_get "security" pmo.2)) ||
  str_in "401" (response_codes pmo.2) && str_in "403" (response_codes pmo.2)) documented = true.
Proof. vm_compute. reflexivity. Qed.

(** The paths of the identity store are written inside the operation that posts
    an operator key, so no path of the document is one of them. *)
Lemma identity_paths_misplaced :
  forallb (λ p, negb (assoc_has p schema_paths))
    ["/admin/identities/role-assignments"; "/admin/identities/service-principals"; "/admin/identities/events"] = true ∧
  ∃ o, In ("/admin/operator-keys", "post", o) documented ∧
       assoc_has "/admin/identities/role-assignments" o = true.
Proof.
  split; [vm_compute; reflexivity|].
  destruct (List.find (λ pmo, String.eqb pmo.1.1 "/admin/operator-keys" && String.eqb pmo.1.2 "post") documented)
    as [[[p m] o]|] eqn:Hf; [|vm_compute in Hf; done].
  exists o. apply find_some in Hf as Hx. destruct Hx as [Hin Heq]. breflect. cbn in *. subst.
  split; [exact Hin|]. vm_compute in Hf. injection Hf as <-. vm_compute. reflexivity.
Qed.
