(* ===== verification/HttpRoutes.v ===== *)
(** http_api.py: the request handler.  Each command splits the target, asks the
    rate limiter, authenticates, applies the tables of roles and then dispatches
    on the path; an exception that no route catches ends the request without a
    response. *)

From stdpp Require Import gmap.
From S2P Require Import Prelude PyFloat PyVal Json Sha256 Base64 Crypto Models Policy Rbac Orders SemVer PyText PolicyStorage VersionedRegistry Jobs JobsPostgres Trust Anchors Replay Storage Arbiter PolicyRegistry ReplayStore Mesh Issuer Engine Deployment PlatformAdmin Service Observability Platform Lines OperatorAuth Worker Tokens IdentityStore HttpSessions HttpRequest HttpAuth HttpApi OpenApi.

Definition API_VERSION : string := "1".

(** [isinstance(e, sqlite3.Error)] *)
Definition is_sqlite_error (e : exn) : bool :=
  match e with
  | OtherError c _ => str_in c ["Error"; "DatabaseError"; "IntegrityError"; "OperationalError"; "ProgrammingError";
                                "InterfaceError"; "DataError"; "InternalError"; "NotSupportedError"]
  | _ => false
  end.
Definition is_job_store_error (e : exn) : bool := match e with JobStoreError _ => true | _ => false end.

(** [s.strip(chars)] for ASCII characters *)
Fixpoint lstrip_by (f : ascii → bool) (s : string) : string :=
  match s with String c r => if f c then lstrip_by f r else s | EmptyString => s end.
Fixpoint rstrip_by (f : ascii → bool) (s : string) : string :=
  match s with
  | String c r => match rstrip_by f r with
                  | EmptyString => if f c then "" else String c ""
                  | r' => String c r'
                  end
  | EmptyString => s
  end.
Definition strip_by (f : ascii → bool) (s : string) : string := rstrip_by f (lstrip_by f s).

(** The message of an exception, stripped of quotation marks. *)
Definition quote_mark (c : ascii) : bool := Ascii.eqb c "'" || Ascii.eqb c (ascii_of_N 34).
Definition stripped_message (e : exn) : string := strip_by quote_mark (exn_str e).

(** [s or d] *)
Definition or_text (s d : string) : string := if String.eqb s "" then d else s.

(** [[part for part in remainder.split("/") if part]] *)
Definition is_slash (c : ascii) : bool := Ascii.eqb c "/".
Definition route_parts (prefix route : string) : list string :=
  List.filter (λ p, negb (String.eqb p "")) (split_on "/" (strip_by is_slash (default "" (strip_prefix prefix route)))).

(** The pages of admin_ui.py. *)
Record admin_pages := { render_admin_ui : string; render_admin_js : string; render_admin_css : string }.

(** The identifier of a policy in a path, and the parts after it:
    [([a-z0-9][a-z0-9._-]{0,127})(?:/(versions|history|active|[^/]+)(?:/(verify))?)?] *)
Definition policy_first (c : ascii) : bool := ascii_lower c || ascii_digit c.
Definition policy_char (c : ascii) : bool :=
  policy_first c || Ascii.eqb c "." || Ascii.eqb c "_" || Ascii.eqb c "-".
Definition policy_segment (s : string) : bool :=
  match s with
  | String c r => policy_first c && all_chars policy_char r && (String.length r <=? 127)%nat
  | EmptyString => false
  end.
Definition policy_route (route : string) : option (string * option string * bool) :=
  match split_on "/" <$> strip_prefix "/admin/policy-registry/" route with
  | Some [id] => if policy_segment id then Some (id, None, false) else None
  | Some [id; selector] =>
      if policy_segment id && negb (String.eqb selector "") then Some (id, Some selector, false) else None
  | Some [id; selector; "verify"] =>
      if policy_segment id && negb (String.eqb selector "") then Some (id, Some selector, true) else None
  | _ => None
  end.

Section Routes.
Context `{C : Crypto} `{U : UnicodeData} `{PD : PrintableData} `{JC : JWTCrypto} `{SCH : PolicySchema}
        `{ISO : IsoTime} {T : Type} `{IS : IdentityStore T} {R : Type} `{OR : OIDCSessionRepository R}
        {PV Q VT W : Type} `{JQ : JobSubmission Q} `{PS : PolicyStorage VT} `{RL : RateLimiter W}.

Abbreviation state := (api_state (T := T) (R := R) (PV := PV) (Q := Q) (VT := VT) (W := W)).

Section Handler.
Context (K : api_config) (E : api_env (T := T) (PV := PV)) (pages : admin_pages).

(** ** Responses *)

Definition send (rq : http_request) (status : Z) (payload : pydict) : M state http_response :=
  encoded ← lift_res (json_dumps default_style (PDict payload));
  path ← lift_res (request_path rq);
  let context := from_traceparent (header rq "traceparent") in
  on_trace (λ events, (record_trace "gas.http.response"
    [("http.request.method", PStr (rq_command rq)); ("url.path", PStr path);
     ("http.response.status_code", PInt status); ("request.id", PStr (ev_response_id E))] context events).2) ;;
  mret {| rs_status := status;
          rs_headers := [("Content-Type", "application/json");
                         ("Content-Length", string_of_Z (Z.of_nat (String.length encoded)));
                         ("X-Request-ID", ev_response_id E); ("X-API-Version", API_VERSION)] ++
                        match context with Some c => [("traceparent", traceparent c)] | None => [] end ++
                        List.filter (λ kv, negb (has_char (ascii_of_N 13) kv.2 || has_char (ascii_of_N 10) kv.2))
                          (cors_headers (ap_cors_origins (sx_api K)) rq) ++ security_headers;
          rs_body := encoded |}.

Definition send_error (rq : http_request) (status : Z) (message : string) : M state http_response :=
  send rq status [("error", PStr message)].

Definition static_policy : string :=
  "default-src 'none'; script-src 'self'; style-src 'self'; connect-src 'self'; base-uri 'none'".

Definition send_static (body content_type : string) : http_response :=
  {| rs_status := 200;
     rs_headers := [("Content-Type", content_type);
                    ("Content-Length", string_of_Z (Z.of_nat (String.length body)))] ++
                   map (λ kv, if String.eqb kv.1 "Content-Security-Policy" then (kv.1, static_policy) else kv)
                     security_headers;
     rs_body := body |}.

Definition do_OPTIONS (rq : http_request) : http_response :=
  let cors := cors_headers (ap_cors_origins (sx_api K)) rq in
  let allowed := nonempty cors in
  {| rs_status := if allowed then 204 else 403;
     rs_headers := cors ++
       (if allowed then [("Access-Control-Allow-Methods", "GET, POST, OPTIONS");
                         ("Access-Control-Allow-Headers", "Authorization, Content-Type, traceparent");
                         ("Access-Control-Max-Age", "600")] else []) ++ [("Content-Length", "0")];
     rs_body := "" |}.

Definition body_json (rq : http_request) : M state pydict :=
  lift_res (read_json (ap_max_body_bytes (sx_api K)) rq).

(** The handlers that report [str(exc)]: missing names with 404, bad values with 400. *)
Definition admin_errors (rq : http_request) (e : exn) : option (M state http_response) :=
  if is_KeyError e then Some (send_error rq 404 (or_text (stripped_message e) "not found"))
  else if is_TypeError e || is_ValueError e then Some (send_error rq 400 (or_text (exn_str e) "invalid request"))
  else None.

(** ** Routes that change policies and keys *)

Definition handle_admin_proposals_post (a : request_attributes) (rq : http_request) (route : string)
    : M state http_response :=
  try_except
    (if String.eqb route "/admin/proposals/prepare" then
       payload ← body_json rq; result ← api_prepare_proposal K payload; send rq 200 result
     else if String.eqb route "/admin/proposals" then
       payload ← body_json rq; result ← api_submit_proposal K E payload (actor_id a); send rq 201 result
     else match route_parts "/admin/proposals" route with
          | [id; "prepare-approval"] =>
              payload ← body_json rq;
              approver ← lift_res (dict_item "approver_key_id" payload);
              result ← api_prepare_approval K id approver; send rq 200 result
          | [id; "approve"] =>
              payload ← body_json rq; result ← api_submit_approval K E id payload (actor_id a); send rq 200 result
          | [id; "activate"] => result ← api_activate_proposal K E id (actor_id a); send rq 200 result
          | _ => send_error rq 404 "not found"
          end)
    (admin_errors rq).

Definition handle_admin_trust_post (a : request_attributes) (rq : http_request) (route : string)
    : M state http_response :=
  try_except
    (if String.eqb route "/admin/trust/keys/prepare" then
       payload ← body_json rq; result ← lift_res (api_prepare_trust_add K payload); send rq 200 result
     else if String.eqb route "/admin/trust/keys" then
       payload ← body_json rq; result ← api_submit_trust_add K E payload (actor_id a); send rq 201 result
     else match route_parts "/admin/trust/keys" route with
          | [id; "revoke"; "prepare"] =>
              payload ← body_json rq; result ← lift_res (api_prepare_trust_revoke K id payload); send rq 200 result
          | [id; "revoke"] =>
              payload ← body_json rq; result ← api_submit_trust_revoke K E id payload (actor_id a);
              send rq 200 result
          | _ => send_error rq 404 "not found"
          end)
    (admin_errors rq).

Definition handle_admin_operator_keys_post (a : request_attributes) (rq : http_request) (route : string)
    : M state http_response :=
  try_except
    (if String.eqb route "/admin/operator-keys" then
       payload ← body_json rq; created ← create_operator_key E payload (actor_id a); send rq 201 created
     else match route_parts "/admin/operator-keys" route with
          | [key; "revoke"] =>
              revoke_operator_key E key (actor_id a) ;;
              send rq 200 [("revoked", PBool true); ("key_id", PStr key)]
          | _ => send_error rq 404 "not found"
          end)
    (λ e, match admin_errors rq e with
          | Some m => Some m
          | None => if is_sqlite_error e then Some (send_error rq 503 "operator key store unavailable") else None
          end).

Definition registry_missing (rq : http_request) : M state http_response :=
  send_error rq 503 "versioned policy registry is not configured".

Definition handle_policy_registry_get (rq : http_request) (route : string) : M state http_response :=
  s ← get_state;
  let V := sx_policy_verifier K in
  match hp_policies s with
  | None => registry_missing rq
  | Some r =>
      match policy_route route with
      | None => send_error rq 404 "not found"
      | Some (id, selector, verify) =>
          try_except
            (payload ← lift_res match selector with
               | None =>
                   versions ← list_versions r id; states ← list_lifecycle V r id;
                   Ok [("policy_id", PStr id); ("versions", of_strs versions);
                       ("lifecycle", PDict (map (λ vl, (vl.1, PStr (lifecycle_value vl.2))) states))]
               | Some "versions" => versions ← list_versions r id; Ok [("versions", of_strs versions)]
               | Some "history" => Ok [("events", PList (map event_dict (activation_history r id)))]
               | Some "active" => record ← get_active V r id; Ok (policy_record_payload record)
               | Some version =>
                   if verify : bool then v ← vreg_verify V r id version; Ok (verification_to_dict v)
                   else record ← vreg_get V r id version; Ok (policy_record_payload record)
               end;
             send rq 200 payload)
            (λ e, if is_KeyError e then Some (send_error rq 404 (stripped_message e))
                  else if is_ValueError e then Some (send_error rq 400 (exn_str e)) else None)
      end
  end.

(** [expected_revision] of a request: a number other than an integer is left out. *)
Definition revision_arg (v : pyval) : res (option Z) :=
  match v with PNone => Ok None | PInt n => Ok (Some n) | _ => unmodelled "a revision that is not an integer" end.

(** [activate] or [rollback], and its governance event. *)
Definition registry_activation (operation : string) (r : VersionedPolicyRegistry VT) (actor id version : string)
    (payload : pydict) (rq : http_request) : M state http_response :=
  reason ← lift_res (text_item "reason" payload);
  expected ← lift_res (revision_arg (dict_get "expected_revision" payload));
  event ← on_policies r (vreg_activate (sx_policy_verifier K) id version actor reason expected None operation
                           (ev_registry_now E));
  api_govern E ("policy_registry." +:+ ae_operation event)
    (name_of (ae_policy_id event) (ae_selected_version event)) actor ;;
  match event_dict event with PDict d => send rq 200 d | _ => send rq 200 [] end.

Definition handle_policy_registry_post (a : request_attributes) (rq : http_request) (route : string)
    : M state http_response :=
  s ← get_state;
  match hp_policies s with
  | None => registry_missing rq
  | Some r =>
      let actor := actor_id a in
      let V := sx_policy_verifier K in
      try_except
        (payload ← body_json rq;
         if String.eqb route "/admin/policy-registry/publish" then
           signer ← lift_res match sx_policy_signer K with
                             | Some p => Ok p
                             | None => Raise (RuntimeError "policy registry signer is not configured")
                             end;
           policy ← lift_res (dict_item "policy" payload);
           record ← on_policies r (vreg_publish V policy signer None (ev_registry_now E));
           api_govern E "policy_registry.published" (name_of (sp_id record) (sp_version record)) actor ;;
           send rq 201 (policy_record_payload record)
         else
           id ← lift_res (dict_item "policy_id" payload);
           version ← lift_res (dict_item "version" payload);
           match id, version with
           | PStr id, PStr version =>
               if String.eqb route "/admin/policy-registry/activate" then
                 registry_activation "activate" r actor id version payload rq
               else if String.eqb route "/admin/policy-registry/rollback" then
                 registry_activation "rollback" r actor id version payload rq
               else if String.eqb route "/admin/policy-registry/deprecate" then
                 on_policies r (vreg_deprecate V id version None) ;; send rq 200 [("lifecycle", PStr "DEPRECATED")]
               else if String.eqb route "/admin/policy-registry/revoke" then
                 on_policies r (vreg_revoke V id version None) ;; send rq 200 [("lifecycle", PStr "REVOKED")]
               else send_error rq 404 "not found"
           | _, _ => raise (ValueError "policy_id and version must be strings")
           end)
        (λ e, if is_KeyError e then Some (send_error rq 400 (stripped_message e))
              else if is_RuntimeError e || is_TypeError e || is_ValueError e
              then Some (send_error rq 400 (or_text (exn_str e) "invalid request")) else None)
  end.
(** ** Identities and jobs *)

Definition identity_missing (rq : http_request) : M state http_response :=
  send_error rq 503 "identity store is not configured".

Definition tenant_required : exn := ValueError "authenticated tenant is required for role assignment".

Definition post_role_assignment (a : request_attributes) (rq : http_request) : M state http_response :=
  s ← get_state;
  match hs_identity (hp_auth s) with
  | None => identity_missing rq
  | Some tables =>
      try_except
        (payload ← body_json rq;
         principal ← lift_res (dict_item "principal_id" payload);
         role ← lift_res (dict_item "role" payload);
         match principal, role with
         | PStr principal, PStr role =>
             tenant ← lift_res match ri_tenant_id <$> at_identity a with
                               | Some (Some t) => if String.eqb t "" then Raise tenant_required else Ok t
                               | _ => Raise tenant_required
                               end;
             on_auth (on_identity tables (is_assign (ev_assignment_id E) (ev_assignment_event_id E)
               (en_stamp (ev_auth E)) principal role (actor_id a) tenant)) ;;
             send rq 201 [("assigned", PBool true)]
         | _, _ => raise (ValueError "principal_id and role must be strings")
         end)
        (λ e, if is_KeyError e || is_TypeError e || is_ValueError e
              then Some (send_error rq 400 (or_text (exn_str e) "invalid role assignment")) else None)
  end.

Definition jobs_missing (rq : http_request) : M state http_response :=
  send_error rq 503 "job queue is not configured".

Definition handle_admin_jobs_post (a : request_attributes) (rq : http_request) : M state http_response :=
  s ← get_state;
  match hp_jobs s with
  | None => jobs_missing rq
  | Some _ =>
      try_except
        (payload ← body_json rq; job ← submit_job E payload (actor_id a); send rq 202 job)
        (λ e, if is_KeyError e || is_TypeError e || is_ValueError e
              then Some (send_error rq 400 (or_text (exn_str e) "invalid request"))
              else if is_job_store_error e || is_sqlite_error e
              then Some (send_error rq 503 "job store unavailable") else None)
  end.

Definition job_payload_dict (job : Job) : pydict :=
  [("job_id", PStr (job_id job)); ("status", PStr (job_status job)); ("attempts", PInt (job_attempts job));
   ("max_attempts", PInt (job_max job)); ("last_error", opt_str (job_error job))].

Definition handle_admin_job_get (rq : http_request) (route : string) : M state http_response :=
  s ← get_state;
  match hp_jobs s with
  | None => jobs_missing rq
  | Some q =>
      let id := strip_by is_slash (default route (strip_prefix "/admin/jobs/" route)) in
      if String.eqb id "" || has_char "/" id then send_error rq 404 "not found"
      else
        found ← try_except (job ← on_jobs q (jq_get id); mret (inl job))
          (λ e, if is_KeyError e then Some (mret (inr (404, "unknown job")))
                else if is_job_store_error e || is_sqlite_error e then Some (mret (inr (503, "job store unavailable")))
                else None);
        match found with
        | inl job => send rq 200 (job_payload_dict job)
        | inr (status, message) => send_error rq status message
        end
  end.

(** ** Authorization and execution *)

(** The request of [/authorize] with the identity of the caller in its context. *)
Definition identified_request (a : request_attributes) (request : pydict) : res pydict :=
  match at_identity a with
  | None => Ok request
  | Some i =>
      match dict_get_or "context" (PDict []) request with
      | PDict supplied => Ok (assoc_set "context" (PDict (assoc_update supplied (identity_context i))) request)
      | _ => Raise (TypeError "request context must be an object")
      end
  end.

Definition policy_id_arg (v : pyval) : res string :=
  match v with
  | PStr s => Ok s
  | PList _ | PDict _ => Raise (TypeError "unhashable type")
  | v => Raise (AuthorizationError ("unknown policy: " +:+ py_str v))
  end.

Definition ttl_arg (v : pyval) : res Z :=
  match v with
  | PInt n => Ok n
  | PBool b => Ok (if b then 1 else 0)
  | PFloat _ => unmodelled "a lifetime that is a float"
  | _ => Raise (TypeError "'<=' not supported")
  end.

Definition approvals_arg (v : pyval) : res (option (list approval_arg)) :=
  match v with
  | PNone => Ok None
  | v => items ← py_tuple v;
         Ok (Some (map (λ x, match x with PDict d => ApprovalDict d | _ => ApprovalOther end) items))
  end.

Definition mesh_inputs_arg (v : pyval) : res (list GovernanceInput) :=
  match v with PNone => Ok [] | v => items ← py_tuple v; mapM_res gi_from_dict items end.

Definition api_authorize (a : request_attributes) (payload : pydict) : M state gaa :=
  inputs ← lift_res (mesh_inputs_arg (dict_get "mesh_inputs" payload));
  request ← lift_res (dict_item "request" payload);
  request ← lift_res match request with
                     | PDict d => identified_request a d
                     | _ => Raise (TypeError "request must be an object")
                     end;
  policy ← lift_res (policy ← dict_item "policy_id" payload; policy_id_arg policy);
  ttl ← lift_res (ttl_arg (dict_get_or "ttl_seconds" (PInt 300) payload));
  approvals ← lift_res (approvals_arg (dict_get "approvals" payload));
  V ← the_service K;
  on_service (service_authorize V (ev_issue_now E) (ev_issue_nonce E) request policy ttl approvals inputs).

Definition api_execute (payload : pydict) : M state pyval :=
  artifact ← lift_res (dict_item "artifact" payload);
  V ← the_service K;
  on_service (execute_dict V (ev_execute_now E) artifact).

Definition is_AuthorizationError (e : exn) : bool := match e with AuthorizationError _ => true | _ => false end.

Definition handle_governed_post (a : request_attributes) (rq : http_request) (route : string)
    : M state http_response :=
  try_except
    (payload ← body_json rq;
     if str_in route ["/authorize"; "/api/v1/authorize"] then
       artifact ← api_authorize a payload; send rq 200 (gaa_to_dict artifact)
     else if str_in route ["/execute"; "/api/v1/execute"] then
       result ← api_execute payload; send rq 200 [("result", result)]
     else send_error rq 404 "not found")
    (λ e, match e with
          | PolicyDeniedError decision =>
              Some (send rq 403 [("error", PStr "policy denied"); ("decision", PDict decision)])
          | _ => if is_AuthorizationError e || is_KeyError e || is_TypeError e || is_ValueError e
                 then Some (send_error rq 400 "invalid request") else None
          end).

(** ** Replay evidence *)

Definition certify_post (rq : http_request) : M state http_response :=
  certification ← try_except
    (payload ← body_json rq; c ← certify_replay_anchor K payload; mret (inl c))
    (λ e, if is_ValueError e then Some (mret (inr (400, "invalid replay anchor")))
          else if is_RuntimeError e
          then Some (mret (inr (503, or_text (exn_str e) "replay certification unavailable"))) else None);
  match certification with
  | inl (certified, payload) => send rq (if certified : bool then 200 else 409) payload
  | inr (status, message) => send_error rq status message
  end.

Definition anchor_post (a : request_attributes) (rq : http_request) : M state http_response :=
  try_except
    (payload ← body_json rq;
     raise_if (nonempty payload) (ValueError "replay anchor requests must be empty") ;;
     anchor ← create_replay_anchor K E (actor_id a);
     send rq 201 (anchor_to_dict anchor))
    (λ e, if is_TypeError e || is_ValueError e then Some (send_error rq 400 "invalid replay anchor request")
          else if is_RuntimeError e then Some (send_error rq 503 (or_text (exn_str e) "replay anchor unavailable"))
          else None).
(** ** GET *)

Definition health_routes_get : list string := ["/health"; "/livez"; "/readyz"; "/startupz"].

Definition get_health (rq : http_request) (route : string) : M state http_response :=
  V ← the_service K; log ← the_log;
  report ← lift_res (service_health V log);
  if String.eqb route "/livez" then send rq 200 [("ok", PBool true); ("status", PStr "live")]
  else if String.eqb route "/startupz" then send rq 200 [("ok", PBool true); ("status", PStr "started")]
  else if String.eqb route "/readyz" && negb (truthy (dict_get "ok" report)) then send rq 503 report
  else send rq 200 report.

Definition get_operator_keys (rq : http_request) : M state http_response :=
  s ← get_state;
  match hs_operators (hp_auth s) with
  | None => send_error rq 503 "operator API key management is not configured"
  | Some _ =>
      try_except (keys ← list_operator_keys; send rq 200 keys)
        (λ e, if is_sqlite_error e then Some (send_error rq 503 "operator key store unavailable") else None)
  end.

(** A listing of the identity tables under a name. *)
Definition get_identities (rq : http_request) (name : string)
    (listing : IdentityTables T → res (list pydict)) : M state http_response :=
  s ← get_state;
  match hs_identity (hp_auth s) with
  | None => identity_missing rq
  | Some tables => rows ← lift_res (listing tables); send rq 200 [(name, PList (map PDict rows))]
  end.

(** The routes of GET, for a request that passed the checks in front of them. *)
Definition get_route (rq : http_request) (route : string) : M state http_response :=
  V ← the_service K; log ← the_log; s ← get_state;
  if String.eqb route "/admin" then mret (send_static (render_admin_ui pages) "text/html; charset=utf-8")
  else if String.eqb route "/admin/app.js"
  then mret (send_static (render_admin_js pages) "text/javascript; charset=utf-8")
  else if String.eqb route "/admin/app.css" then mret (send_static (render_admin_css pages) "text/css; charset=utf-8")
  else if str_in route health_routes_get then get_health rq route
  else if String.eqb route "/audit" then report ← lift_res (audit_report V log); send rq 200 report
  else if String.eqb route "/audit/replay" then
    integrity ← lift_res (replay_integrity log); send rq 200 [("integrity", PDict integrity)]
  else if String.eqb route "/admin/policies" then
    send rq 200 [("policies", PDict (registry_to_dict (sv_policies V)))]
  else if String.prefix "/admin/policy-registry/" route then handle_policy_registry_get rq route
  else if String.eqb route "/admin/proposals" then
    proposals ← lift_res (api_list_proposals K (hp_admin s)); send rq 200 proposals
  else if String.eqb route "/admin/trust" then send rq 200 (trust_snapshot K (hp_admin s))
  else if String.eqb route "/admin/operator-keys" then get_operator_keys rq
  else if String.eqb route "/admin/identities/role-assignments" then
    get_identities rq "assignments" (λ t, Ok (is_role_assignments t))
  else if String.eqb route "/admin/identities/service-principals" then
    get_identities rq "service_principals" (λ t, Ok (is_service_principals t))
  else if String.eqb route "/admin/identities/events" then
    get_identities rq "events" (is_identity_events 100)
  else if String.prefix "/admin/jobs/" route then handle_admin_job_get rq route
  else if String.eqb route "/admin/governance-log" then
    send rq 200 [("events", PList (map PDict (governance_log (hp_service s))))]
  else if String.eqb route "/admin/metrics" then
    report ← lift_res (audit_report V log);
    match dict_get "audit_summary" report with PDict d => send rq 200 d | _ => send rq 200 [] end
  else if String.eqb route "/admin/control-room" then snapshot ← control_room_snapshot K; send rq 200 snapshot
  else if String.eqb route "/openapi.json" then send rq 200 API_SCHEMA
  else send_error rq 404 "not found".

(** [_authenticated], with the answer when its store fails. *)
Definition authenticate_request (rq : http_request) (path : string)
    (continue : option request_attributes → M state http_response) : M state http_response :=
  checked ← try_except
    (a ← on_auth (authenticated (sx_api K) (ev_auth E) path rq); mret (Some a))
    (λ e, if is_sqlite_error e then Some (mret None) else None);
  match checked with
  | None => send_error rq 503 "authentication backend unavailable"
  | Some a => continue a
  end.

(** The tables of roles, for both commands. *)
Definition route_authorized (a : request_attributes) (rq : http_request) (method route : string) : res bool :=
  admin ← if String.prefix "/admin" route then admin_authorized (sx_api K) a rq method route else Ok true;
  Ok ((admin : bool) && api_authorized (sx_api K) a method route).

Definition login_redirect (rq : http_request) : http_response :=
  {| rs_status := 302;
     rs_headers := [("Location", "/auth/login?" +:+ urlencode [("next", rq_target rq)]);
                    ("Cache-Control", "no-store")] ++ security_headers;
     rs_body := "" |}.

Definition do_GET (rq : http_request) : M state http_response :=
  path ← lift_res (request_path rq);
  let route := unversioned path in
  allowed ← on_limiter (rl_allow (ev_limiter_now E) (rq_client rq));
  if negb allowed then send_error rq 429 "rate limit exceeded"
  else if String.eqb route "/auth/login" then on_auth (handle_oidc_login (sx_api K) (ev_auth E) rq)
  else if String.eqb route "/auth/callback" then on_auth (handle_oidc_callback (sx_api K) (ev_auth E) rq)
  else authenticate_request rq path (λ attributes,
    match attributes with
    | None =>
        if match ap_auth_client (sx_api K) with Some _ => true | None => false end &&
           String.prefix "/admin" route && String.eqb (header_or rq "authorization") ""
        then mret (login_redirect rq)
        else send_error rq 401 "unauthorized"
    | Some a =>
        if String.eqb route "/auth/me" then
          match at_identity a with
          | None => send_error rq 401 "authenticated identity required"
          | Some i => send rq 200 (to_identity_dict i)
          end
        else
          authorized ← lift_res (route_authorized a rq "GET" route);
          if negb authorized then send_error rq 403 "role authorization required"
          else get_route rq route
    end).

(** ** POST *)

Definition logout (a : request_attributes) (rq : http_request) : M state http_response :=
  if negb (at_session a) then send_error rq 401 "browser session required"
  else
    same ← lift_res (session_origin_allowed (sx_api K) rq);
    if negb same then send_error rq 403 "invalid request origin"
    else if negb (String.eqb (default "0" (header rq "content-length")) "0")
    then send_error rq 400 "logout request must be empty"
    else
      on_auth (revoke_browser_session (sx_api K) rq) ;;
      mret {| rs_status := 204;
              rs_headers := [("Set-Cookie", session_cookie (ap_cookie_secure (sx_api K)) "" 0);
                             ("Content-Length", "0")];
              rs_body := "" |}.

(** The routes of POST, for a request that passed the checks in front of them. *)
Definition post_route (a : request_attributes) (rq : http_request) (route : string) : M state http_response :=
  if String.eqb route "/audit/replay/certify" then certify_post rq
  else if String.eqb route "/admin/replay/anchor" then anchor_post a rq
  else if String.prefix "/admin/proposals" route then handle_admin_proposals_post a rq route
  else if String.prefix "/admin/policy-registry" route then handle_policy_registry_post a rq route
  else if String.eqb route "/admin/identities/role-assignments" then post_role_assignment a rq
  else if String.prefix "/admin/trust/keys" route then handle_admin_trust_post a rq route
  else if String.prefix "/admin/operator-keys" route then
    s ← get_state;
    match hs_operators (hp_auth s) with
    | None => send_error rq 503 "operator API key management is not configured"
    | Some _ => handle_admin_operator_keys_post a rq route
    end
  else if String.eqb route "/admin/jobs" then handle_admin_jobs_post a rq
  else handle_governed_post a rq route.

(** The request of a browser session comes from this site. *)
Definition origin_checked (a : request_attributes) (rq : http_request) : res bool :=
  if at_session a then session_origin_allowed (sx_api K) rq else Ok true.

Definition do_POST (rq : http_request) : M state http_response :=
  route ← lift_res (request_path rq);
  allowed ← on_limiter (rl_allow (ev_limiter_now E) (rq_client rq));
  if negb allowed then send_error rq 429 "rate limit exceeded"
  else authenticate_request rq route (λ attributes,
    match attributes with
    | None => send_error rq 401 "unauthorized"
    | Some a =>
        if String.eqb route "/auth/logout" then logout a rq
        else
          same ← lift_res (origin_checked a rq);
          if negb same then send_error rq 403 "invalid request origin"
          else
            authorized ← lift_res (route_authorized a rq "POST" route);
            if negb authorized then send_error rq 403 "role authorization required"
            else post_route a rq route
    end).
End Handler.
End Routes.
