(* ===== verification/HttpGovern.v ===== *)
(** What the HTTP API lets a request do: the checks in front of the routes of
    HttpRoutes, over any stores that keep their contracts.  The file shows what a
    request needs before it changes anything that is governed, what an issued
    artifact says about its requester, and whom the governance events name. *)

From stdpp Require Import gmap.
From S2P Require Import Prelude PyFloat PyVal Moves Json Sha256 Base64 Crypto Models Policy Rbac Orders SemVer PyText PolicyStorage VersionedRegistry Jobs JobsPostgres Trust Anchors Replay Storage Arbiter PolicyRegistry ReplayStore Mesh Issuer Engine Deployment PlatformAdmin Service Observability Platform Lines OperatorAuth Worker Tokens IdentityStore HttpSessions HttpRequest HttpAuth HttpApi OpenApi HttpRoutes.

(** * Lemmas *)

Section AuthKeeps.
Context `{U : UnicodeData} `{JC : JWTCrypto} {T : Type} {IS : IdentityStore T} {IL : IdentityStoreLaws T}
        {R : Type} `{OR : OIDCSessionRepository R} {PV : Type}.
Context (A : AuthenticatedAPI) (E : auth_env (T := T) (PV := PV)).
Implicit Types s : auth_state (T := T) (R := R) (PV := PV).

(** What a sign-in and an authentication leave alone: the operator keys and the
    assigned roles. *)
Definition auth_governed s : option (list OperatorAPIKey) * option (list (AssignmentRow T)) :=
  (hs_operators s, it_assignments <$> hs_identity s).

Lemma on_keys_keeps {X} (m : M PV X) : keeps auth_governed (on_keys (T := T) (R := R) m).
Proof. by apply moves_zoom. Qed.
Lemma on_sessions_keeps {X} o (m : M (OIDCSessionStore R) X) :
  keeps auth_governed (on_sessions (T := T) (PV := PV) o m).
Proof. intros s. unfold on_sessions. by destruct (m o). Qed.
#[local] Hint Resolve on_keys_keeps on_sessions_keeps : keeps.

Lemma enrich_identity_keeps i : keeps auth_governed (enrich_identity E (R := R) i).
Proof.
  apply moves_read. intros s. destruct (hs_identity s) as [t|] eqn:Ht; [|done].
  destruct (_ || _); [done|]. rewrite M_bind_run. cbn [lift_res]. unfold lift_res.
  destruct (is_roles_for _ _ t); [|done]. rewrite M_bind_run. unfold on_identity.
  destruct (is_record _ _ _ _ t) as [[[]|e] t'] eqn:Hr; unfold same, auth_governed; cbn; rewrite Ht; cbn.
  - apply is_record_ok in Hr as [-> _]. done.
  - by apply is_record_raise in Hr as ->.
Qed.
#[local] Hint Resolve enrich_identity_keeps : keeps.

Lemma authenticated_keeps path rq : keeps auth_governed (authenticated A E (R := R) path rq).
Proof.
  unfold authenticated, validated_identity, session_identity, enriched_attributes. keep.
Qed.

Lemma handle_oidc_login_keeps rq : keeps auth_governed (handle_oidc_login A E rq).
Proof. unfold handle_oidc_login. keep. Qed.
Lemma handle_oidc_callback_keeps rq : keeps auth_governed (handle_oidc_callback A E rq).
Proof. unfold handle_oidc_callback, complete_login. keep. Qed.
Lemma revoke_browser_session_keeps rq : keeps auth_governed (revoke_browser_session A rq).
Proof. unfold revoke_browser_session. keep. Qed.
End AuthKeeps.
#[export] Hint Resolve authenticated_keeps handle_oidc_login_keeps handle_oidc_callback_keeps
  revoke_browser_session_keeps : keeps.

Section RouteLemmas.
Context `{C : Crypto} `{U : UnicodeData} `{PD : PrintableData} `{JC : JWTCrypto} `{SCH : PolicySchema}
        `{ISO : IsoTime} {T : Type} {IS : IdentityStore T} {IL : IdentityStoreLaws T}
        {R : Type} `{OR : OIDCSessionRepository R} {PV Q VT W : Type}
        {JQ : JobSubmission Q} {JL : JobSubmissionLaws Q} `{PS : PolicyStorage VT} `{RL : RateLimiter W}.
Context (K : api_config) (E : api_env (T := T) (PV := PV)) (pages : admin_pages).
Implicit Types (s : api_state (T := T) (R := R) (PV := PV) (Q := Q) (VT := VT) (W := W)) (rq : http_request).

(** Everything that is governed: the logs and the actions that were called, the
    reviewed policies and the trusted keys, the versioned registry, the jobs, the
    operator keys and the assigned roles. *)
Definition governed s :=
  (hp_service s, hp_admin s, hp_policies s, hp_jobs s, auth_governed (hp_auth s)).

Lemma on_auth_keeps {X} (m : M auth_state X) : keeps auth_governed m → keeps governed (on_auth m).
Proof.
  intros Hm s. specialize (Hm (hp_auth s)). unfold same, on_auth, zoom, governed in *.
  destruct (m (hp_auth s)) as [r a]. cbn in Hm |- *. by rewrite Hm.
Qed.
Lemma on_limiter_keeps {X} (m : M W X) : keeps governed (on_limiter m).
Proof. by apply moves_zoom. Qed.
Lemma on_trace_keeps g : keeps governed (on_trace g).
Proof. by intros s. Qed.
#[local] Hint Resolve on_auth_keeps on_limiter_keeps on_trace_keeps : keeps.

Lemma send_keeps rq status payload : keeps governed (send K E rq status payload).
Proof. unfold send. keep. Qed.
#[local] Hint Resolve send_keeps : keeps.
Lemma send_error_keeps rq status message : keeps governed (send_error K E rq status message).
Proof. apply send_keeps. Qed.
#[local] Hint Resolve send_error_keeps : keeps.

Lemma the_service_keeps : keeps governed (the_service K).
Proof. by intros s. Qed.
Lemma the_log_keeps : keeps governed the_log.
Proof. by intros s. Qed.
#[local] Hint Resolve the_service_keeps the_log_keeps : keeps.

Lemma handle_admin_job_get_keeps rq route : keeps governed (handle_admin_job_get K E rq route).
Proof.
  apply moves_read. intros s. destruct (hp_jobs s) as [q|] eqn:Hq; [|apply send_error_keeps].
  cbv zeta. destruct (orb _ _); [apply send_error_keeps|].
  apply moves_bind_at; [typeclasses eauto| |intros [?|[]]; keep].
  apply moves_try_at; [typeclasses eauto| |intros e k Hk; repeat case_match; simplify_eq; keep].
  apply moves_bind_at; [typeclasses eauto| |intros ?; keep]. unfold same, on_jobs, governed.
  pose proof (jq_get_same (strip_by is_slash (default route (strip_prefix "/admin/jobs/" route))) q) as Hs.
  destruct (jq_get _ q) as [r q']. cbn in Hs |- *. by rewrite Hq, Hs.
Qed.
#[local] Hint Resolve handle_admin_job_get_keeps : keeps.

Lemma get_route_keeps rq route : keeps governed (get_route K E pages rq route).
Proof.
  unfold get_route, get_health, get_identities, get_operator_keys, list_operator_keys, require_operator_key_store,
    handle_policy_registry_get, registry_missing, identity_missing, control_room_snapshot.
  keep.
Qed.
#[local] Hint Resolve get_route_keeps : keeps.

Lemma do_GET_keeps rq : keeps governed (do_GET K E pages rq).
Proof.
  unfold do_GET, authenticate_request. keep.
Qed.

(** ** What a request of POST needs *)

(** Who may use a route that changes something. *)
Inductive permitted (A : AuthenticatedAPI) (a : request_attributes) rq (route : string) : Prop :=
| PermitOperatorToken t :
    admin_required_roles "POST" route ≠ [] → ap_oidc_validator A = None → ap_oidc_only A = false →
    ap_operator_token A = Some t → join "" (strip_chars (bearer_scheme (header_or rq "authorization")).2) = t →
    permitted A a rq route
| PermitAdminRole :
    admin_required_roles "POST" route ≠ [] →
    opens (admin_required_roles "POST" route) (attribute_roles a) → permitted A a rq route
| PermitSharedToken :
    route ∈ execution_routes → at_identity a = None → ap_oidc_validator A = None → ap_oidc_only A = false →
    permitted A a rq route
| PermitOperator i :
    route ∈ execution_routes → at_identity a = Some i → opens [OPERATOR] (ri_roles i) →
    (∀ v, v ∈ [ri_subject i; ri_tenant_id i; ri_issuer i; ri_identity_source i] → falsy_opt v = false) →
    permitted A a rq route.

Lemma api_authorized_execution (A : AuthenticatedAPI) a rq route :
  route ∈ execution_routes → api_authorized A a "POST" route = true → permitted A a rq route.
Proof.
  intros Hr Ha. assert (str_in route execution_routes = true) as Hin by by apply str_in_spec.
  unfold api_authorized, api_required_roles in Ha. rewrite Hin in Ha. cbn [andb] in Ha.
  assert (str_in route ["/audit"; "/api/v1/audit"; "/audit/replay"] = false) as Haudit.
  { apply not_true_is_false. rewrite str_in_spec. set_solver. }
  assert (String.eqb route "/audit/replay/certify" = false) as Hcert.
  { apply String.eqb_neq. intros ->. unfold execution_routes in Hr. set_solver. }
  change (String.eqb "POST" "GET") with false in Ha. change (String.eqb "POST" "POST") with true in Ha.
  rewrite Hcert in Ha. cbn [andb orb existsb negb] in Ha.
  destruct (at_identity a) as [i|] eqn:Hi.
  - destruct (orb _ _) eqn:Hf; [done|]. apply role_granted_opens in Ha.
    apply (PermitOperator _ _ _ _ i); [done..|]. breflect.
    intros v. rewrite !elem_of_cons, elem_of_nil. naive_solver.
  - unfold no_oidc in Ha. destruct (ap_oidc_validator A) eqn:Hv; [done|]. breflect.
    by eapply PermitSharedToken.
Qed.

Lemma certify_post_keeps rq : keeps governed (certify_post K E rq).
Proof. unfold certify_post, certify_replay_anchor, body_json. keep. Qed.

Lemma handle_governed_post_keeps a rq route :
  route ∉ execution_routes → keeps governed (handle_governed_post K E a rq route).
Proof.
  intros Hr. unfold handle_governed_post.
  assert (str_in route ["/authorize"; "/api/v1/authorize"] = false) as ->.
  { apply not_true_is_false. rewrite str_in_spec. unfold execution_routes in Hr. set_solver. }
  assert (str_in route ["/execute"; "/api/v1/execute"] = false) as ->.
  { apply not_true_is_false. rewrite str_in_spec. unfold execution_routes in Hr. set_solver. }
  unfold body_json. keep.
Qed.

Lemma post_route_permitted a rq route s :
  route_authorized K a rq "POST" route = Ok true →
  governed (post_route K E a rq route s).2 ≠ governed s → permitted (sx_api K) a rq route.
Proof.
  unfold route_authorized. intros H Hne. apply res_bind_ok in H as (admin & Hadmin & H).
  injection H as [-> Happi]%andb_true_iff.
  destruct (String.prefix "/admin" route) eqn:Hp.
  - apply admin_authorized_true in Hadmin as (Hroles & [(Hv & Ho & t & Ht & Hs)|Hopen]).
    + by eapply PermitOperatorToken.
    + by apply PermitAdminRole.
  - apply api_authorized_execution; [|done]. destruct (base.decide (route ∈ execution_routes)) as [|Hr]; [done|].
    assert (∀ p, String.prefix "/admin" p = true → String.prefix p route = false) as Hpre.
    { intros p [q Hq]%string_prefix_app. apply not_true_is_false. intros [r Hr']%string_prefix_app.
      apply not_true_iff_false in Hp. apply Hp, string_prefix_app. exists (q +:+ r). by rewrite Hr', Hq, string_app_assoc. }
    assert (∀ p, String.prefix "/admin" p = true → String.eqb route p = false) as Heqb.
    { intros p Hpp. apply String.eqb_neq. intros ->. congruence. }
    exfalso. apply Hne. unfold post_route. destruct (String.eqb route "/audit/replay/certify").
    + apply certify_post_keeps.
    + rewrite !Heqb, !Hpre by done. by apply handle_governed_post_keeps.
Qed.

(** An answer that is no success and changes nothing that is governed. *)
Definition refuses (m : M api_state http_response) : Prop :=
  ∀ s r s', m s = (r, s') → governed s' = governed s ∧ ∀ response, r = Ok response → rs_status response ≠ 200.

Lemma send_status rq status payload s response s' :
  send K E rq status payload s = (Ok response, s') →
  rs_status response = status ∧ json_dumps default_style (PDict payload) = Ok (rs_body response) ∧
  governed s' = governed s.
Proof.
  intros H. pose proof (send_keeps rq status payload s) as Hk. rewrite H in Hk. cbn [snd] in Hk.
  unfold send in H. apply M_bind_ok in H as (encoded & s1 & [He ->]%lift_res_ok & H).
  apply M_bind_ok in H as (path & s2 & [_ ->]%lift_res_ok & H). cbv zeta in H.
  apply M_bind_ok in H as ([] & s3 & _ & H). by injection H as <- <-.
Qed.

Lemma refuses_send_error rq status message : status ≠ 200 → refuses (send_error K E rq status message).
Proof.
  intros Hs s r s' H. split.
  - pose proof (send_error_keeps rq status message s) as Hk. by rewrite H in Hk.
  - intros response ->. apply send_status in H as [-> _]. done.
Qed.

Lemma refuses_logout a rq : refuses (logout K E a rq).
Proof.
  intros s r s' H. split.
  - assert (keeps governed (logout K E a rq)) as Hk by (unfold logout; keep). specialize (Hk s). by rewrite H in Hk.
  - intros response ->. unfold logout in H. destruct (negb _); [by apply send_status in H as [-> _]|].
    apply M_bind_ok in H as (same & s1 & _ & H). destruct (negb _); [by apply send_status in H as [-> _]|].
    destruct (negb _); [by apply send_status in H as [-> _]|].
    apply M_bind_ok in H as ([] & s2 & _ & H). by injection H as <- _.
Qed.

(** A request is refused, or its route runs after all the checks. *)
Lemma do_POST_cases rq s r s' :
  do_POST K E rq s = (r, s') →
  (governed s' = governed s ∧ ∀ response, r = Ok response → rs_status response ≠ 200) ∨
  ∃ route a s1, request_path rq = Ok route ∧ accepted (sx_api K) (ev_auth E) route rq (hp_auth s) a ∧
    governed s1 = governed s ∧ origin_checked K a rq = Ok true ∧
    route_authorized K a rq "POST" route = Ok true ∧ post_route K E a rq route s1 = (r, s').
Proof.
  unfold do_POST. rewrite M_bind_run. unfold lift_res at 1.
  destruct (request_path rq) as [route|e] eqn:Hpath; cbn; [|intros [= <- <-]; by left].
  rewrite M_bind_run. destruct (on_limiter _ s) as [ra s0] eqn:Hl.
  assert (governed s0 = governed s ∧ hp_auth s0 = hp_auth s) as [Hg0 Ha0].
  { unfold on_limiter, zoom in Hl. destruct (rl_allow _ _ _) as [x w]. by injection Hl as <- <-. }
  destruct ra as [allowed|e]; [|intros [= <- <-]; by left].
  destruct (negb allowed); [intros [Hg Hs]%refuses_send_error; [|done]; left; by rewrite <-Hg0|].
  unfold authenticate_request. rewrite M_bind_run. unfold try_except. rewrite M_bind_run.
  unfold on_auth, zoom. rewrite Ha0.
  pose proof (authenticated_keeps (sx_api K) (ev_auth E) route rq (hp_auth s)) as Hka.
  destruct (authenticated _ _ _ _ _) as [[o|e] auth] eqn:Hauth; cbn [snd] in Hka.
  2:{ destruct (is_sqlite_error e); cbn; [intros [Hg Hs]%refuses_send_error; [|done]|intros [= <- <-]];
        left; unfold governed in *; cbn in *; split; [congruence|done|congruence|done]. }
  unfold mret, M_ret. set (s1 := {| hp_auth := auth |}).
  assert (governed s1 = governed s) as Hg1 by (unfold governed in *; cbn; congruence).
  assert (∀ m : M api_state http_response, refuses m → m s1 = (r, s') →
    governed s' = governed s ∧ ∀ response, r = Ok response → rs_status response ≠ 200) as Hrefuse.
  { intros m Hm [Hg Hs]%Hm. split; [congruence|done]. }
  destruct o as [a|]; [|intros H; left; by eapply Hrefuse, H; apply refuses_send_error].
  destruct (String.eqb_spec route "/auth/logout") as [|_]; [intros H; left; eapply Hrefuse, H; apply refuses_logout|].
  rewrite M_bind_run. unfold lift_res at 1.
  destruct (origin_checked K a rq) as [same|e] eqn:Hor; [|intros [= <- <-]; by left].
  destruct same; cbn [negb]; [|intros H; left; by eapply Hrefuse, H; apply refuses_send_error].
  rewrite M_bind_run. unfold lift_res at 1.
  destruct (route_authorized K a rq "POST" route) as [ok|e] eqn:Hok; [|intros [= <- <-]; by left].
  destruct ok; cbn [negb]; [|intros H; left; by eapply Hrefuse, H; apply refuses_send_error].
  intros H. right. exists route, a, s1. split_and!; try done. by eapply authenticated_accepted.
Qed.

(** ** Authorization *)

Lemma identified_request_get a request request' i :
  at_identity a = Some i → List.NoDup (map fst (ri_scope i)) → identified_request a request = Ok request' →
  ∃ supplied ctx, dict_get_or "context" (PDict []) request = PDict supplied ∧
    assoc_get "context" request' = Some (PDict ctx) ∧
    ∀ k, assoc_get k ctx = match assoc_get k (identity_context i) with
                           | Some v => Some v | None => assoc_get k supplied end.
Proof.
  intros Hi Hnd. unfold identified_request. rewrite Hi.
  destruct (dict_get_or "context" (PDict []) request) as [| | | | | |supplied|]; try done. intros [= <-].
  exists supplied, (assoc_update supplied (identity_context i)). split_and!; [done|apply assoc_get_set_eq|].
  intros k. by apply assoc_get_update, identity_context_NoDup.
Qed.

Lemma authorize_post_ok a rq route s response s' :
  route ∈ ["/authorize"; "/api/v1/authorize"] →
  handle_governed_post K E a rq route s = (Ok response, s') → rs_status response = 200 →
  ∃ payload request artifact s1,
    read_json (ap_max_body_bytes (sx_api K)) rq = Ok payload ∧ assoc_get "request" payload = Some (PDict request) ∧
    api_authorize K E a payload s = (Ok artifact, s1) ∧
    json_dumps default_style (PDict (gaa_to_dict artifact)) = Ok (rs_body response) ∧ governed s' = governed s1.
Proof.
  intros Hr. unfold handle_governed_post, try_except. apply str_in_spec in Hr. rewrite Hr.
  match goal with |- context [match ?m s with _ => _ end] => destruct (m s) as [[x|e] s0] eqn:Hrun end.
  2:{ intros H Hs. exfalso. destruct e; cbn in H;
      first [done | apply send_status in H as [Hst _]; congruence | injection H; done]. }
  intros [= -> ->] Hs. apply M_bind_ok in Hrun as (payload & s1 & [Hp ->]%lift_res_ok & H).
  apply M_bind_ok in H as (artifact & s2 & Ha & H). apply send_status in H as (_ & Hb & Hg).
  pose proof Ha as Hreq. unfold api_authorize in Hreq.
  apply M_bind_ok in Hreq as (inputs & s3 & [_ ->]%lift_res_ok & Hreq).
  apply M_bind_ok in Hreq as (v & s4 & [Hv ->]%lift_res_ok & Hreq).
  apply M_bind_ok in Hreq as (request' & s5 & [Hd ->]%lift_res_ok & _).
  destruct v as [| | | | | |request|]; try done. unfold dict_item in Hv.
  destruct (assoc_get "request" payload) eqn:Hget; [|done]. injection Hv as ->.
  by exists payload, request, artifact, s2.
Qed.

Lemma api_authorize_request a payload request s artifact s' :
  assoc_get "request" payload = Some (PDict request) →
  api_authorize K E a payload s = (Ok artifact, s') →
  ∃ request', identified_request a request = Ok request' ∧
    ∀ k, k ≠ "approvals" → assoc_get k (gaa_action_request artifact) = assoc_get k request'.
Proof.
  intros Hget H. unfold api_authorize in H. apply M_bind_ok in H as (inputs & s1 & [_ ->]%lift_res_ok & H).
  apply M_bind_ok in H as (v & s2 & [Hv ->]%lift_res_ok & H). unfold dict_item in Hv. rewrite Hget in Hv.
  injection Hv as <-. apply M_bind_ok in H as (request' & s3 & [Hd ->]%lift_res_ok & H).
  exists request'. split; [done|]. apply M_bind_ok in H as (pid & s4 & [_ ->]%lift_res_ok & H).
  apply M_bind_ok in H as (ttl & s5 & [_ ->]%lift_res_ok & H).
  apply M_bind_ok in H as (approvals & s6 & [_ ->]%lift_res_ok & H).
  apply M_bind_ok in H as (V & s7 & HV & H). injection HV as <- <-.
  intros k Hk. unfold on_service, zoom in H. destruct (service_authorize _ _ _ _ _ _ _ _ _) as [r v'] eqn:Hs.
  injection H as -> _. by eapply (service_authorize_request (L := ReplayLog)).
Qed.
End RouteLemmas.

(** ** Who the governance events name *)

(** The manager's audit hook was only called with this actor. *)
Definition audited `{C : Crypto} (actor : string) (s s' : AdminState) : Prop :=
  ∃ es, as_audit s' = as_audit s ++ es ∧ Forall (λ e, e.2 = actor) es.
#[export] Instance audited_preorder `{C : Crypto} actor : PreOrder (audited actor).
Proof.
  split.
  - intros s. exists []. by rewrite app_nil_r.
  - intros s1 s2 s3 (es1 & H1 & Ha1) (es2 & H2 & Ha2). exists (es1 ++ es2).
    rewrite H2, H1, <-(assoc_L (++)). split; [done|]. by apply Forall_app.
Qed.

Section Attribution.
Context `{C : Crypto}.

Lemma same_audited actor s s' : as_audit s' = as_audit s → audited actor s s'.
Proof. intros H. exists []. by rewrite app_nil_r. Qed.

Lemma admin_audit_audited K e subject actor : moves (audited actor) (admin_audit K e subject actor).
Proof.
  apply moves_bind; [typeclasses eauto| |intros ?; keep]. intros s. exists [(e, subject, actor)]. by repeat constructor.
Qed.
Lemma admin_registry_audited {X} actor (m : M PolicyRegistry X) : moves (audited actor) (admin_registry m).
Proof. apply moves_zoom. intros t s. by apply same_audited. Qed.
Lemma admin_trust_audited {X} actor (m : M TrustStore X) : moves (audited actor) (admin_trust m).
Proof. apply moves_zoom. intros t s. by apply same_audited. Qed.
Lemma put_proposal_audited actor i p : moves (audited actor) (put_proposal i p).
Proof. intros s. by apply same_audited. Qed.
#[local] Hint Resolve admin_audit_audited admin_registry_audited admin_trust_audited put_proposal_audited : keeps.

Lemma propose_signed_audited K policy k sig why i actor :
  moves (audited actor) (propose_signed K policy k sig why i actor).
Proof. unfold propose_signed, require_trusted, submit_proposal, register_new_proposal. keep. Qed.
Lemma approve_signed_audited K i k sig actor : moves (audited actor) (approve_signed K i k sig actor).
Proof. unfold approve_signed, pending_proposal, check_separation, require_trusted, record_approval. keep. Qed.
Lemma admin_activate_audited K i actor : moves (audited actor) (admin_activate K i actor).
Proof. unfold admin_activate, pending_proposal. keep. Qed.
Lemma submit_add_audited K k b64 by_ sig actor : moves (audited actor) (submit_add K k b64 by_ sig actor).
Proof. unfold submit_add, require_change. keep. Qed.
Lemma submit_revoke_audited K k by_ sig actor : moves (audited actor) (submit_revoke K k by_ sig actor).
Proof. unfold submit_revoke, require_change. keep. Qed.
Lemma prepare_approval_audited actor i k : moves (audited actor) (prepare_approval i k).
Proof. unfold prepare_approval, pending_proposal. keep. Qed.
End Attribution.
#[export] Hint Resolve propose_signed_audited approve_signed_audited admin_activate_audited
  submit_add_audited submit_revoke_audited prepare_approval_audited : keeps.

Section AttributedRoutes.
Context `{C : Crypto} `{U : UnicodeData} `{PD : PrintableData} `{JC : JWTCrypto} `{SCH : PolicySchema}
        `{ISO : IsoTime} {T : Type} {IS : IdentityStore T} {IL : IdentityStoreLaws T}
        {R : Type} `{OR : OIDCSessionRepository R} {PV Q VT W : Type}
        {JQ : JobSubmission Q} {JL : JobSubmissionLaws Q} `{PS : PolicyStorage VT} `{RL : RateLimiter W}.
Context (K : api_config) (E : api_env (T := T) (PV := PV)) (actor : string).
Abbreviation state := (api_state (T := T) (R := R) (PV := PV) (Q := Q) (VT := VT) (W := W)).
Implicit Types (s : state) (rq : http_request).

(** A governance event of the actor at the time of the request. *)
Definition actor_event (e : pydict) : Prop :=
  ∃ event subject, e = governance_event event subject actor (ev_recorded_at E).

(** The log got governance events of the actor, and nothing else; no action was
    called. *)
Definition attributed s s' : Prop :=
  ss_invoked (hp_service s') = ss_invoked (hp_service s) ∧
  ∃ evs, map rf_event (rl_frames (ss_log (hp_service s'))) = map rf_event (rl_frames (ss_log (hp_service s))) ++ evs ∧
         Forall actor_event evs.
#[export] Instance attributed_preorder : PreOrder attributed.
Proof.
  split.
  - intros s. split; [done|]. exists []. by rewrite app_nil_r.
  - intros s1 s2 s3 (Hi1 & es1 & H1 & Ha1) (Hi2 & es2 & H2 & Ha2). split; [congruence|].
    exists (es1 ++ es2). rewrite H2, H1, <-(assoc_L (++)). split; [done|]. by apply Forall_app.
Qed.

Lemma same_attributed s s' : hp_service s' = hp_service s → attributed s s'.
Proof. unfold attributed. intros ->. split; [done|]. exists []. by rewrite app_nil_r. Qed.

Lemma api_govern_attributed event subject : moves attributed (api_govern E event subject actor).
Proof.
  intros s. unfold api_govern, on_service, zoom, record_governance_event, on_service_log, zoom.
  rewrite M_bind_run. destruct (store_append _ _ _) as [[f|e] l'] eqn:Happ; cbn.
  - apply (append_ok (L := ReplayLog)) in Happ as (Hf & Hfs & _). apply frame_create_ok in Hf as (_ & _ & Hev & _).
    split; [done|]. exists [governance_event event subject actor (ev_recorded_at E)].
    change (store_frames l') with (rl_frames l') in Hfs. cbn. rewrite Hfs, map_app. cbn [map]. rewrite Hev.
    split; [done|]. repeat constructor. by eexists _, _.
  - apply (append_raise (L := ReplayLog)) in Happ as ->. split; [done|]. exists []. by rewrite app_nil_r.
Qed.

Lemma on_auth_attributed {X} (m : M auth_state X) : moves attributed (on_auth m).
Proof. apply moves_zoom. intros t s. by apply same_attributed. Qed.
Lemma on_trace_attributed g : moves attributed (on_trace g).
Proof. intros s. by apply same_attributed. Qed.
Lemma on_jobs_attributed {X} q (m : M Q X) : moves attributed (on_jobs q m).
Proof. intros s. unfold on_jobs. destruct (m q). by apply same_attributed. Qed.
Lemma on_policies_attributed {X} r (m : M (VersionedPolicyRegistry VT) X) : moves attributed (on_policies r m).
Proof. intros s. unfold on_policies. destruct (m r). by apply same_attributed. Qed.
Lemma on_admin_attributed {X} (m : M AdminState X) : moves attributed (on_admin m).
Proof. apply moves_zoom. intros t s. by apply same_attributed. Qed.
#[local] Hint Resolve api_govern_attributed on_auth_attributed on_trace_attributed on_jobs_attributed
  on_policies_attributed on_admin_attributed : keeps.

Lemma administer_attributed {X} (m : M AdminState X) : moves (audited actor) m → moves attributed (administer E m).
Proof.
  intros Hm s. unfold administer. rewrite M_bind_run. unfold get_state at 1. rewrite M_bind_run.
  specialize (Hm (hp_admin s)). unfold on_admin, zoom.
  destruct (m (hp_admin s)) as [[x|e] a]; [|by apply same_attributed].
  cbn [snd] in Hm. destruct Hm as (es & Hes & Hall).
  match goal with |- attributed s ((?k ?st).2) => transitivity st; [by apply same_attributed|] end.
  rewrite M_bind_run. unfold get_state. cbn [hp_admin]. rewrite Hes, drop_app_length.
  match goal with |- attributed ?st ((?m ?st).2) => assert (moves attributed m) as Hmv; [|apply Hmv] end.
  apply moves_bind; [typeclasses eauto| |intros ?; keep]. apply moves_forM; [typeclasses eauto|].
  intros e He. rewrite Forall_forall in Hall. rewrite (Hall e) by done. keep.
Qed.
#[local] Hint Resolve administer_attributed : keeps.
Lemma send_attributed rq status payload : moves attributed (send K E rq status payload).
Proof. unfold send. keep. Qed.
Lemma send_error_attributed rq status message : moves attributed (send_error K E rq status message).
Proof. apply send_attributed. Qed.
#[local] Hint Resolve send_attributed send_error_attributed : keeps.

Lemma admin_errors_attributed rq e k : admin_errors K E rq e = Some k → moves attributed k.
Proof. unfold admin_errors. intros H. repeat case_match; simplify_eq; eauto with keeps. Qed.
#[local] Hint Resolve admin_errors_attributed : keeps.

Lemma proposals_attributed a rq route :
  actor_id a = actor → moves attributed (handle_admin_proposals_post K E a rq route).
Proof.
  intros Ha. unfold handle_admin_proposals_post, api_prepare_proposal, api_submit_proposal, api_prepare_approval,
    api_submit_approval, api_activate_proposal, body_json. rewrite ?Ha. keep.
Qed.

Lemma trust_attributed a rq route : actor_id a = actor → moves attributed (handle_admin_trust_post K E a rq route).
Proof.
  intros Ha. unfold handle_admin_trust_post, api_submit_trust_add, api_submit_trust_revoke, body_json. rewrite ?Ha. keep.
Qed.

Lemma operator_keys_attributed a rq route :
  actor_id a = actor → moves attributed (handle_admin_operator_keys_post K E a rq route).
Proof.
  intros Ha. unfold handle_admin_operator_keys_post, create_operator_key, revoke_operator_key,
    require_operator_key_store, on_operators, body_json. rewrite ?Ha. keep.
Qed.

Lemma policy_registry_attributed a rq route :
  actor_id a = actor → moves attributed (handle_policy_registry_post K E a rq route).
Proof.
  intros Ha. unfold handle_policy_registry_post, registry_missing, registry_activation, body_json. rewrite ?Ha. keep.
Qed.

Lemma role_assignment_attributed a rq : moves attributed (post_role_assignment K E a rq).
Proof. unfold post_role_assignment, identity_missing, body_json. keep. Qed.

Lemma jobs_attributed a rq : actor_id a = actor → moves attributed (handle_admin_jobs_post K E a rq).
Proof. intros Ha. unfold handle_admin_jobs_post, jobs_missing, submit_job, body_json. rewrite ?Ha. keep. Qed.

Lemma anchor_attributed a rq : actor_id a = actor → moves attributed (anchor_post K E a rq).
Proof. intros Ha. unfold anchor_post, create_replay_anchor, the_log, body_json. rewrite ?Ha. keep. Qed.

Lemma admin_route_attributed a rq route :
  actor_id a = actor → route ∉ execution_routes → moves attributed (post_route K E a rq route).
Proof.
  intros Ha Hr. unfold post_route.
  assert (moves attributed (handle_governed_post K E a rq route)) as Hg.
  { intros s. apply same_attributed. pose proof (handle_governed_post_keeps K E a rq route Hr s) as Hs.
    unfold same, governed in Hs. congruence. }
  assert (moves attributed (certify_post K E rq)) as Hc.
  { unfold certify_post, certify_replay_anchor, body_json. keep. }
  repeat match goal with |- moves _ (if ?b then _ else _) => destruct b end;
    eauto using anchor_attributed, proposals_attributed, policy_registry_attributed, role_assignment_attributed,
      trust_attributed, jobs_attributed.
  apply moves_bind; [typeclasses eauto|keep|]. intros s. destruct (hs_operators _); [|keep].
  by apply operator_keys_attributed.
Qed.
End AttributedRoutes.

(** * Properties *)

(** C5. What a request changes.  A GET leaves everything that is governed as it
    is: the log and the called actions, the reviewed policies and trusted keys,
    the versioned registry, the jobs, the operator keys and the assigned roles.
    A POST that changes any of it was accepted from the credential it presents,
    comes from this site if it is a browser session's, and is permitted: on an
    administration route of the table by the operator token or a role of the
    table, else on an authorization or execution route by the shared token of a
    server without OpenID Connect or by a complete identity with the operator
    role. *)
Theorem http_changes_permitted `{C : Crypto} `{U : UnicodeData} `{PD : PrintableData} `{JC : JWTCrypto}
    `{SCH : PolicySchema} `{ISO : IsoTime} {T} {IS : IdentityStore T} {IL : IdentityStoreLaws T}
    {R} `{OR : OIDCSessionRepository R} {PV Q VT W} {JQ : JobSubmission Q} {JL : JobSubmissionLaws Q}
    `{PS : PolicyStorage VT} `{RL : RateLimiter W} (K : api_config) (E : api_env (T := T) (PV := PV))
    (pages : admin_pages) (rq : http_request)
    (s : api_state (T := T) (R := R) (PV := PV) (Q := Q) (VT := VT) (W := W)) :
  governed (do_GET K E pages rq s).2 = governed s ∧
  (governed (do_POST K E rq s).2 ≠ governed s →
   ∃ route a, request_path rq = Ok route ∧ accepted (sx_api K) (ev_auth E) route rq (hp_auth s) a ∧
     (at_session a = true → session_origin_allowed (sx_api K) rq = Ok true) ∧
     permitted (sx_api K) a rq route).
Proof.
  split; [apply do_GET_keeps|]. destruct (do_POST K E rq s) as [r s'] eqn:H. cbn [snd]. intros Hne.
  apply do_POST_cases in H as [[Hg _]|(route & a & s1 & Hp & Ha & Hg & Ho & Hr & H)]; [done|].
  exists route, a. split_and!; [done|done| |].
  - intros Hs. unfold origin_checked in Ho. by rewrite Hs in Ho.
  - eapply post_route_permitted; [done|]. rewrite H. cbn [snd]. by rewrite Hg.
Qed.

(** C6. An artifact names its requester: when a POST to the authorization route
    succeeds, its body is the JSON of the issued artifact; the signed request is
    the one of the body but for approvals and context; and when the requester
    has an identity, the signed context holds every claim of that identity,
    whatever the body says of these keys, and the body's values elsewhere. *)
Theorem authorize_names_requester `{C : Crypto} `{U : UnicodeData} `{PD : PrintableData} `{JC : JWTCrypto}
    `{SCH : PolicySchema} `{ISO : IsoTime} {T} {IS : IdentityStore T} {IL : IdentityStoreLaws T}
    {R} `{OR : OIDCSessionRepository R} {PV Q VT W} {JQ : JobSubmission Q} {JL : JobSubmissionLaws Q}
    `{PS : PolicyStorage VT} `{RL : RateLimiter W} (K : api_config) (E : api_env (T := T) (PV := PV))
    (rq : http_request) (route : string)
    (s s' : api_state (T := T) (R := R) (PV := PV) (Q := Q) (VT := VT) (W := W)) (response : http_response) :
  request_path rq = Ok route → route ∈ ["/authorize"; "/api/v1/authorize"] →
  do_POST K E rq s = (Ok response, s') → rs_status response = 200 →
  ∃ a payload request artifact,
    accepted (sx_api K) (ev_auth E) route rq (hp_auth s) a ∧ permitted (sx_api K) a rq route ∧
    read_json (ap_max_body_bytes (sx_api K)) rq = Ok payload ∧
    assoc_get "request" payload = Some (PDict request) ∧
    json_dumps default_style (PDict (gaa_to_dict artifact)) = Ok (rs_body response) ∧
    (∀ k, k ≠ "context" → k ≠ "approvals" → assoc_get k (gaa_action_request artifact) = assoc_get k request) ∧
    ∀ i, at_identity a = Some i → List.NoDup (map fst (ri_scope i)) →
      ∃ supplied ctx, dict_get_or "context" (PDict []) request = PDict supplied ∧
        assoc_get "context" (gaa_action_request artifact) = Some (PDict ctx) ∧ carries i ctx ∧
        ∀ k, assoc_get k ctx = match assoc_get k (identity_context i) with
                               | Some v => Some v | None => assoc_get k supplied end.
Proof.
  intros Hp Hin H Hs. apply do_POST_cases in H as [[_ Hr]|(route' & a & s1 & Hp' & Ha & Hg & Ho & Hr & H)].
  { by apply Hr in Hs. }
  assert (route' = route) as -> by congruence.
  assert (route ∈ execution_routes) as Hex by (unfold execution_routes; set_solver).
  assert (permitted (sx_api K) a rq route) as Hperm.
  { unfold route_authorized in Hr. apply res_bind_ok in Hr as (admin & _ & [= [_ Happi]%andb_true_iff]).
    by apply api_authorized_execution. }
  assert (post_route K E a rq route s1 = handle_governed_post K E a rq route s1) as Heq.
  { repeat (apply elem_of_cons in Hin as [->|Hin]; [done|]). by apply elem_of_nil in Hin. }
  rewrite Heq in H. apply authorize_post_ok in H as (payload & request & artifact & s2 & Hj & Hrq & Hau & Hb & _); [|done..].
  apply (api_authorize_request _ _ _ _ _ _ _ _ Hrq) in Hau as (request' & Hid & Hreq).
  exists a, payload, request, artifact. split_and!; try done.
  - intros k Hk Hk'. rewrite Hreq by done. unfold identified_request in Hid.
    destruct (at_identity a); [|congruence].
    destruct (dict_get_or "context" (PDict []) request); try done. injection Hid as <-. by apply assoc_get_set_ne.
  - intros i Hi Hnd. destruct (identified_request_get _ _ _ _ Hi Hnd Hid) as (supplied & ctx & Hsup & Hctx & Hget).
    exists supplied, ctx. split_and!; [done|by rewrite Hreq| |done].
    eapply carries_agree; [|apply identity_context_carries]. intros k v Hk. by rewrite Hget, Hk.
Qed.

(** C40. Who an administration request names: whatever a POST outside the
    authorization and execution routes does, and however it ends, no action is
    called and the replay log only gets governance events with the time of the
    request and the actor of its credential: the subject of the identity, the
    operator key, or the shared token. *)
Theorem admin_events_attributed `{C : Crypto} `{U : UnicodeData} `{PD : PrintableData} `{JC : JWTCrypto}
    `{SCH : PolicySchema} `{ISO : IsoTime} {T} {IS : IdentityStore T} {IL : IdentityStoreLaws T}
    {R} `{OR : OIDCSessionRepository R} {PV Q VT W} {JQ : JobSubmission Q} {JL : JobSubmissionLaws Q}
    `{PS : PolicyStorage VT} `{RL : RateLimiter W} (K : api_config) (E : api_env (T := T) (PV := PV))
    (rq : http_request) (route : string)
    (s : api_state (T := T) (R := R) (PV := PV) (Q := Q) (VT := VT) (W := W)) :
  request_path rq = Ok route → route ∉ execution_routes →
  let s' := (do_POST K E rq s).2 in
  let events s := map rf_event (rl_frames (ss_log (hp_service s))) in
  ss_invoked (hp_service s') = ss_invoked (hp_service s) ∧
  ∃ evs, events s' = events s ++ evs ∧
    (evs = [] ∨ ∃ a, accepted (sx_api K) (ev_auth E) route rq (hp_auth s) a ∧
       ∀ e, e ∈ evs → ∃ event subject, e = governance_event event subject (actor_id a) (ev_recorded_at E)).
Proof.
  intros Hp Hr s' events. destruct (do_POST K E rq s) as [r s1] eqn:H. subst s'. cbn [snd].
  apply do_POST_cases in H as [[Hg _]|(route' & a & s0 & Hp' & Ha & Hg & _ & _ & H)].
  - unfold governed in Hg. assert (hp_service s1 = hp_service s) as Heq by congruence.
    unfold events. rewrite Heq. split; [done|]. exists []. rewrite app_nil_r. split; [done|by left].
  - assert (route' = route) as -> by congruence.
    destruct (admin_route_attributed K E (actor_id a) a rq route eq_refl Hr s0) as (Hi & evs & Hevs & Hall).
    rewrite H in Hi, Hevs. cbn [snd] in Hi, Hevs.
    assert (hp_service s0 = hp_service s) as Heq by (unfold governed in Hg; congruence). rewrite Heq in Hi, Hevs.
    split; [done|]. exists evs. split; [done|]. right. exists a. split; [done|].
    rewrite Forall_forall in Hall. exact Hall.
Qed.

(** * Examples *)

Section Examples.
#[local] Existing Instance ascii_only.
#[local] Instance no_printable : PrintableData := {| uni_printable := λ _, false |}.

Definition example_config (V : @GovernedService toy_crypto) : @api_config toy_crypto :=
  {| sx_api := example_api; sx_service := V; sx_admin := None; sx_policy_signer := None;
     sx_policy_verifier := None |}.

Definition fresh_ids (row event : string) (E : auth_env (T := string) (PV := pyval)) : auth_env :=
  {| en_validator_now := en_validator_now E; en_session_now := en_session_now E; en_request_id := en_request_id E;
     en_row_id := row; en_event_id := event; en_stamp := en_stamp E; en_provider := en_provider E;
     en_login_provider := en_login_provider E; en_state_token := en_state_token E;
     en_nonce_token := en_nonce_token E; en_verifier_token := en_verifier_token E;
     en_session_token := en_session_token E; en_http_post := en_http_post E |}.

Definition env_with (A : auth_env (T := string) (PV := pyval)) : api_env (T := string) (PV := pyval) :=
  {| ev_auth := A; ev_limiter_now := zero; ev_response_id := "rid"; ev_issue_now := 1000;
     ev_issue_nonce := "n1"; ev_execute_now := 1100; ev_event_hex := "h1"; ev_recorded_at := "t1";
     ev_assignment_id := "a2"; ev_assignment_event_id := "e2"; ev_operator_key_id := "k1";
     ev_operator_secret := "secret"; ev_operator_created_at := "t1"; ev_job_id := "j1"; ev_job_now := zero;
     ev_registry_now := "t1" |}.
Definition example_env : api_env := env_with example_auth_env.
Definition later_env : api_env := env_with (fresh_ids "u2" "e3" example_auth_env).

Abbreviation example_state_type :=
  (@api_state toy_crypto string Empty_set pyval (list JobRow) FilePolicyStorage BoundedRateLimiter).

(** Alice is an operator of her tenant by assignment. *)
Definition example_state : example_state_type :=
  {| hp_auth := {| hs_operators := None;
                   hs_identity := Some (sqlite_assign_role "a1" "e0" "t0" "alice" "operator" "root" "acme" no_tables).2;
                   hs_sessions := None; hs_keys := example_jwks |};
     hp_service := {| ss_log := replay_new false; ss_mesh_log := None; ss_invoked := [] |};
     hp_admin := {| as_registry := registry_put open_policy registry_empty; as_trust := {| ts_path := false; ts_keys := []; ts_revoked := ∅; ts_file := None |};
                    as_proposals := []; as_audit := [] |};
     hp_jobs := Some []; hp_policies := None;
     hp_limiter := {| rl_limit := 10; rl_window := float_of_decimal false 60 0; rl_max_clients := 10;
                      rl_hits := [] |};
     hp_trace := None |}.

Definition post_request (target body : string) : http_request :=
  {| rq_command := "POST"; rq_target := target;
     rq_headers := rq_headers (bearer_request "/") ++
                   [("content-length", string_of_Z (Z.of_nat (String.length body)))];
     rq_cookie := λ _, None; rq_client := "10.0.0.1"; rq_body := body |}.

Definition job_request : http_request :=
  post_request "/admin/jobs" (json_of [("artifact", PDict []); ("idempotency_key", PStr "job-1")]).
Definition authorize_request : http_request :=
  post_request "/authorize" (json_of [("policy_id", PStr "payments");
    ("request", PDict (assoc_set "context" (PDict [("subject", PStr "root"); ("groups", of_strs ["admins"])])
                         (example_unapproved 100)))]).

Abbreviation example_post rq :=
  (do_POST (example_config example_service) example_env rq example_state).

(** A part of the answer. *)
Definition answer {X} (r : res http_response * example_state_type) (f : http_response → X) : option X :=
  match r.1 with Ok response => Some (f response) | Raise _ => None end.

(** Submitting a job changes the queue, and Alice may do it. *)
Lemma http_changes_permitted_witness :
  ∃ a, accepted example_api example_auth_env "/admin/jobs" job_request (hp_auth example_state) a ∧
    permitted example_api a job_request "/admin/jobs".
Proof.
  destruct (proj2 (http_changes_permitted (example_config example_service) example_env
    {| render_admin_ui := ""; render_admin_js := ""; render_admin_css := "" |} job_request example_state))
    as (route & a & Hp & Ha & _ & Hperm).
  - intros H. apply (f_equal (λ g, length <$> g.1.2)) in H. vm_compute in H. discriminate H.
  - assert (route = "/admin/jobs") as -> by (vm_compute in Hp; congruence). exists a. split; [exact Ha|exact Hperm].
Defined.

(** Alice asks as somebody else; the artifact says who she is. *)
Lemma authorize_names_requester_witness :
  ∃ a artifact, accepted example_api example_auth_env "/authorize" authorize_request (hp_auth example_state) a ∧
    ∀ i, at_identity a = Some i → List.NoDup (map fst (ri_scope i)) →
      ∃ ctx, assoc_get "context" (gaa_action_request artifact) = Some (PDict ctx) ∧ carries i ctx.
Proof.
  assert (answer (example_post authorize_request) rs_status = Some 200) as Hs by (vm_compute; reflexivity).
  destruct (example_post authorize_request) as [[response|e] s'] eqn:H; [|discriminate Hs]. injection Hs as Hs.
  destruct (authorize_names_requester (example_config example_service) example_env authorize_request "/authorize"
    example_state s' response ltac:(vm_compute; reflexivity) ltac:(left) H Hs)
    as (a & payload & request & artifact & Ha & _ & _ & _ & _ & _ & Hctx).
  exists a, artifact. split; [exact Ha|]. intros i Hi Hnd.
  destruct (Hctx i Hi Hnd) as (supplied & ctx & _ & Hget & Hc & _). exists ctx. split; [exact Hget|exact Hc].
Defined.

Lemma admin_events_attributed_witness :
  ∃ a, accepted example_api example_auth_env "/admin/jobs" job_request (hp_auth example_state) a ∧
    map rf_event (rl_frames (ss_log (hp_service (example_post job_request).2))) =
      [governance_event "job.submitted" "j1" (actor_id a) "t1"].
Proof.
  assert (map rf_event (rl_frames (ss_log (hp_service (example_post job_request).2))) =
    [governance_event "job.submitted" "j1" "oidc:https://idp.example:alice" "t1"]) as Hlog
    by (vm_compute; reflexivity).
  assert (request_path job_request = Ok "/admin/jobs") as Hp by (vm_compute; reflexivity).
  assert ("/admin/jobs" ∉ execution_routes) as Hr by (intros Hr%str_in_spec; vm_compute in Hr; discriminate Hr).
  destruct (admin_events_attributed (example_config example_service) example_env job_request "/admin/jobs" example_state
    Hp Hr) as (_ & evs & Hevs & Hact).
  rewrite Hlog in Hevs |- *. change ([governance_event "job.submitted" "j1" "oidc:https://idp.example:alice" "t1"] = evs) in Hevs.
  subst evs. destruct Hact as [Hact|(a & Ha & Hall)]; [discriminate Hact|]. exists a. split; [exact Ha|].
  destruct (Hall _ (list_elem_of_here _ _)) as (event & subject & He).
  unfold governance_event in He |- *. injection He as _ _ He. rewrite <-He. reflexivity.
Defined.

(** ** Deviations *)

(** What an identity does not state, the caller may: her token has no groups, and
    the signed context has those of the body. *)
Lemma absent_claims_supplied :
  answer (example_post authorize_request)
    (λ r, str_contains (dquote +:+ "groups" +:+ dquote +:+ ": [" +:+ dquote +:+ "admins") (rs_body r)) = Some true.
Proof. vm_compute. reflexivity. Qed.

(** An action that returns something other than JSON. *)
Definition opaque_service : @GovernedService toy_crypto :=
  {| sv_issuer := example_issuer; sv_boundary := example_boundary;
     sv_policies := registry_put open_policy registry_empty;
     sv_actions := [("payments.transfer", λ _, Ok (PObj "Receipt"))]; sv_sources := None |}.

Definition issued_state : example_state_type := (example_post authorize_request).2.
Definition execute_request : http_request :=
  post_request "/execute"
    match (example_post authorize_request).1 with
    | Ok response => "{" +:+ dquote +:+ "artifact" +:+ dquote +:+ ":" +:+ rs_body response +:+ "}"
    | Raise _ => ""
    end.

(** The action was called, and the answer says that the request is invalid. *)
Lemma executed_but_invalid :
  let outcome := do_POST (example_config opaque_service) later_env execute_request issued_state in
  answer outcome rs_status = Some 400 ∧ length (ss_invoked (hp_service outcome.2)) = 1%nat.
Proof. vm_compute. split; reflexivity. Qed.
End Examples.

Section Unrecorded.
Context `{C : Crypto} `{U : UnicodeData} `{SCH : PolicySchema} `{ISO : IsoTime} {T R PV Q VT W : Type}
        `{OR : OIDCSessionRepository R} `{PS : PolicyStorage VT}.
Context (K : api_config) (E : api_env (T := T) (PV := PV)).
Abbreviation state := (api_state (T := T) (R := R) (PV := PV) (Q := Q) (VT := VT) (W := W)).
Abbreviation service := (hp_service (T := T) (R := R) (PV := PV) (Q := Q) (VT := VT) (W := W)).

Lemma on_trace_service g : keeps service (on_trace g).
Proof. by intros s. Qed.
Lemma on_policies_service {X} r (m : M (VersionedPolicyRegistry VT) X) : keeps service (on_policies r m).
Proof. intros s. unfold on_policies. by destruct (m r). Qed.
#[local] Hint Resolve on_trace_service on_policies_service : keeps.

(** Withdrawing a version of a policy leaves no governance event. *)
Lemma registry_withdrawal_unrecorded a rq route :
  route ∈ ["/admin/policy-registry/deprecate"; "/admin/policy-registry/revoke"] →
  keeps service (handle_policy_registry_post K E a rq route).
Proof.
  intros Hr. unfold handle_policy_registry_post, registry_missing, send_error, send, body_json.
  assert (String.eqb route "/admin/policy-registry/publish" = false ∧
          String.eqb route "/admin/policy-registry/activate" = false ∧
          String.eqb route "/admin/policy-registry/rollback" = false) as (-> & -> & ->).
  { repeat (apply elem_of_cons in Hr as [->|Hr]; [done|]). by apply elem_of_nil in Hr. }
  keep.
Qed.

(** The event of a replay anchor is recorded before the anchor is signed. *)
Lemma anchor_recorded_first actor (s s1 : state) e :
  let signer := ai_issuer (sv_issuer (sx_service K)) in
  api_govern E "replay.anchor_created" (signer_key_id signer) actor s = (Ok tt, s1) →
  create_anchor (ss_log (hp_service s1)) signer = Raise e →
  create_replay_anchor K E actor s = (Raise e, s1).
Proof.
  intros signer Hg Ha. unfold create_replay_anchor. cbv zeta. fold signer. rewrite M_bind_run, Hg.
  unfold the_log, get_state, mbind, M_bind, mret, M_ret, lift_res. by rewrite Ha.
Qed.
End Unrecorded.
