(* ===== verification/Cli.v ===== *)
(** cli.py: the operator's command line, after argparse.

    A command is a value of [cli_args], with the fields of its namespace; files,
    the environment, the HTTP client and the sign-in packages are parameters, and
    what is printed is recorded.  A request carries its payload as a value, whose
    JSON text is sent.  The file shows which routes of the server the commands
    reach, what is stored and sent as credentials, and what the exit code of the
    offline checks says. *)

From stdpp Require Import gmap.
From S2P Require Import Prelude PyFloat PyVal Moves Json Sha256 Base64 Crypto Models Policy Rbac Orders SemVer PyText PolicyStorage Trust Anchors Replay Arbiter PolicyRegistry Worker Tokens HttpRequest HttpRoutes Entra.

Definition DEFAULT_API_URL : string := "http://localhost:8000".
Definition CLIError (msg : string) : exn := OtherError "CLIError" msg.

(** ** [urllib.parse.quote(s, safe="")] *)

Definition unreserved (c : ascii) : bool :=
  ascii_upper c || ascii_lower c || ascii_digit c || Ascii.eqb c "_" || Ascii.eqb c "." ||
  Ascii.eqb c "-" || Ascii.eqb c "~".
Definition percent (c : ascii) : string :=
  String "%" (String (hex_upper (N_of_ascii c / 16)) (String (hex_upper (N_of_ascii c mod 16)) "")).
Definition quote_all (s : string) : string := concat_map (λ c, if unreserved c then String c "" else percent c) s.

Section Cli.
Context `{C : Crypto} `{U : UnicodeData} {W : Type}.

(** ** The process *)

Inductive cli_line := PrintJson (v : pyval) | PrintText (s : string).

Record cli_state := {
  cl_world : W;                       (** the server, as far as it can be reached *)
  cl_credentials : option string;     (** the text of the credentials file *)
  cl_out : list cli_line;
  cl_err : list cli_line
}.

Record cli_request := {
  cr_method : string;
  cr_url : string;
  cr_headers : list (string * string);
  cr_payload : option pyval
}.

(** What [urlopen] does besides raising other exceptions. *)
Inductive http_answer :=
| Answered (body : string)
| HTTPErrorAnswer (code : Z)
| URLErrorAnswer (reason : string).

Record cli_env := {
  ce_vars : list (string * string);
  ce_config_path : string;                       (** [config_path()] *)
  ce_file : string → res (option string);        (** a file's text; [None] does not exist *)
  ce_stdin : res string;
  ce_urlopen : cli_request → M W http_answer;
  ce_msal : msal_packages cli_state
}.

Context (E : cli_env).

Definition print_out (l : cli_line) : M cli_state unit :=
  modify (λ s, {| cl_world := cl_world s; cl_credentials := cl_credentials s; cl_out := cl_out s ++ [l];
                  cl_err := cl_err s |}).
Definition print_err (l : cli_line) : M cli_state unit :=
  modify (λ s, {| cl_world := cl_world s; cl_credentials := cl_credentials s; cl_out := cl_out s;
                  cl_err := cl_err s ++ [l] |}).
Definition on_world {A} (m : M W A) : M cli_state A :=
  zoom cl_world (λ w s, {| cl_world := w; cl_credentials := cl_credentials s; cl_out := cl_out s;
                           cl_err := cl_err s |}) m.
Definition put_credentials (text : string) : M cli_state unit :=
  modify (λ s, {| cl_world := cl_world s; cl_credentials := Some text; cl_out := cl_out s; cl_err := cl_err s |}).

Definition read_text (path : string) : res string :=
  file ← ce_file E path;
  match file with Some text => Ok text | None => Raise (OSError "No such file or directory") end.

(** ** Credentials *)

(** [os.environ.get(name)] where the empty string counts as unset *)
Definition env_value (name : string) : option string :=
  match assoc_get name (ce_vars E) with Some v => if String.eqb v "" then None else Some v | None => None end.

Definition default_credentials : pydict :=
  [("api_url", PStr DEFAULT_API_URL); ("token", PNone); ("tenant_id", PNone); ("client_id", PNone); ("scopes", PNone)].

Definition override (k : string) (v : option string) (d : pydict) : pydict :=
  match v with Some v => assoc_set k (PStr v) d | None => d end.

Definition load_credentials (file : option string) : res pydict :=
  creds ← match file with
          | None => Ok default_credentials
          | Some text =>
              v ← json_loads text;
              match v with
              | PDict d => Ok (assoc_update default_credentials d)
              | PList [] | PStr "" => Ok default_credentials
              | PList _ | PStr _ => unmodelled "credentials that are no object"
              | _ => Raise (TypeError "object is not iterable")
              end
          end;
  Ok (override "token" (env_value "GOVERNED_AUTONOMY_OPERATOR_TOKEN")
        (override "api_url" (env_value "GAS_API_URL") creds)).

(** [json.dump] of a dictionary in its own order *)
Definition dump_object (d : pydict) : string :=
  "{" +:+ join (item_sep default_style) (map (member_text default_style) d) +:+ "}".

Definition save_credentials (api_url token : string) : M cli_state string :=
  put_credentials (dump_object [("api_url", PStr api_url); ("token", PStr token)]) ;; mret (ce_config_path E).

Definition save_entra_credentials (api_url tenant_id client_id : string) (scopes : list string) : M cli_state string :=
  put_credentials (dump_object [("api_url", PStr api_url); ("tenant_id", PStr tenant_id);
                                ("client_id", PStr client_id); ("scopes", of_strs scopes)]) ;;
  mret (ce_config_path E).

(** ** [_request] *)

(** [config_path().with_name("entra.cache.bin")]: the file next to the credentials *)
Definition cache_path : string :=
  join "/" (removelast (split_on "/" (ce_config_path E)) ++ ["entra.cache.bin"]).

Definition default_scopes (c : EntraOIDCConfig) : list string :=
  ["api://" +:+ eo_client_id c +:+ "/access_as_user"].

Definition device_token (creds : pydict) : M cli_state pyval :=
  config ← lift_res (entra_config (py_str (dict_get "tenant_id" creds)) (py_str (dict_get "client_id" creds)));
  client ← lift_res (entra_client_init config (py_or (dict_get "scopes" creds) (of_strs (default_scopes config)))
                       None (Some cache_path));
  result ← acquire_token (ce_msal E) client (λ message, print_err (PrintText message)) true;
  mret match result with PDict d => dict_get "access_token" d | _ => PNone end.

Definition http_error (path api_url : string) (a : http_answer) : res string :=
  match a with
  | Answered body => Ok (if String.eqb body "" then "null" else body)
  | HTTPErrorAnswer code => Raise (CLIError ("HTTP " +:+ string_of_Z code +:+ " from " +:+ path))
  | URLErrorAnswer reason => Raise (CLIError ("cannot reach " +:+ api_url +:+ ": " +:+ reason))
  end.

Definition request_headers (token : pyval) (payload : option pyval) : list (string * string) :=
  [("Accept", "application/json")] ++
  (if truthy token then [("Authorization", "Bearer " +:+ py_str token)] else []) ++
  match payload with Some _ => [("Content-Type", "application/json")] | None => [] end.

Definition request (method path : string) (payload : option pyval) : M cli_state pyval :=
  s ← get_state;
  creds ← lift_res (load_credentials (cl_credentials s));
  let api_url := rstrip_slash (py_str (dict_get "api_url" creds)) in
  u ← lift_res (urlsplit api_url);
  raise_if (negb (str_in (su_scheme u) ["http"; "https"])) (CLIError "api_url must be http(s)") ;;
  token ← (if truthy (dict_get "tenant_id" creds) && truthy (dict_get "client_id" creds)
           then device_token creds else mret (dict_get "token" creds));
  answer ← on_world (ce_urlopen E {| cr_method := method; cr_url := api_url +:+ path;
                                     cr_headers := request_headers token payload; cr_payload := payload |});
  lift_res (body ← http_error path api_url answer; json_loads body).
(** ** Commands *)

Inductive cli_args :=
| AuthLogin (api_url : string) (tenant_id client_id : option string) (scopes : option (list string))
    (token : option string)
| AuthStatus
| OperatorKeyList
| OperatorKeyCreate (operator_id : string)
| OperatorKeyRevoke (key_id : string)
| AdminGet (group : string)          (** policies, proposals, trust, metrics, audit, governance-log *)
| PolicyShow (policy_id : string)
| RegistryList (policy_id : string)
| RegistryInspect (policy_id version : string)
| RegistryVerify (policy_id version : string)
| RegistryActive (policy_id : string)
| RegistryHistory (policy_id : string)
| RegistryPublish (policy : string)
| RegistryChange (cmd policy_id version reason : string) (expected_revision : option Z)
| JobSubmit (artifact : string) (idempotency_key : option string) (max_attempts : Z)
| JobStatus (job_id : string)
| ReplayVerify (path : string)
| ReplayCertify (path anchor public_key : string).

Definition GET_ROUTES : list (string * string) :=
  [("policies", "/admin/policies"); ("proposals", "/admin/proposals"); ("trust", "/admin/trust");
   ("metrics", "/admin/metrics"); ("audit", "/audit"); ("governance-log", "/admin/governance-log")].

Definition operator_key_path (key_id : string) : string :=
  "/admin/operator-keys/" +:+ quote_all key_id +:+ "/revoke".
Definition registry_path (policy_id : string) : string := "/admin/policy-registry/" +:+ quote_all policy_id.
Definition version_path (policy_id version : string) : string := registry_path policy_id +:+ "/" +:+ quote_all version.
Definition job_path (job_id : string) : string := "/admin/jobs/" +:+ quote_all job_id.

Definition show (method path : string) (payload : option pyval) : M cli_state unit :=
  v ← request method path payload; print_out (PrintJson v).

(** [auth login] *)
Definition login (api_url : string) (tenant_id client_id : option string) (scopes : option (list string))
    (token : option string) : M cli_state unit :=
  let explicit := match token with
                  | Some t => if String.eqb t "" then env_value "GOVERNED_AUTONOMY_OPERATOR_TOKEN" else Some t
                  | None => env_value "GOVERNED_AUTONOMY_OPERATOR_TOKEN"
                  end in
  path ←
    match explicit with
    | Some token => save_credentials api_url token
    | None =>
        match tenant_id, client_id with
        | Some tenant, Some client_ =>
            raise_if (String.eqb tenant "" || String.eqb client_ "") (CLIError
              ("Entra device login requires --tenant-id and --client-id " +:+
               "(or ENTRA_TENANT_ID and ENTRA_CLIENT_ID)")) ;;
            saved ← try_except
              (config ← lift_res (entra_config tenant client_);
               let scopes := match scopes with Some (x :: l) => x :: l | _ => default_scopes config end in
               client ← lift_res (entra_client_init config (of_strs scopes) None (Some cache_path));
               acquire_token (ce_msal E) client (λ message, print_out (PrintText message)) true ;;
               mret (config, scopes))
              (λ e, if is_RuntimeError e || is_ValueError e then Some (raise (CLIError (exn_str e))) else None);
            save_entra_credentials api_url (eo_tenant_id saved.1) (eo_client_id saved.1) saved.2
        | _, _ => raise (CLIError
              ("Entra device login requires --tenant-id and --client-id " +:+
               "(or ENTRA_TENANT_ID and ENTRA_CLIENT_ID)"))
        end
    end;
  print_out (PrintText ("Saved credentials to " +:+ path)).

(** The item of [policy show]: the first one whose own identifier, or that of its
    policy, is the one asked for. *)
Fixpoint find_policy (policy_id : string) (items : list pyval) : res (option pyval) :=
  match items with
  | [] => Ok None
  | PDict item :: items =>
      inner ← match dict_get_or "policy" (PDict []) item with
              | PDict p => Ok (dict_get "policy_id" p)
              | _ => Raise (AttributeError "get")
              end;
      if py_eqb (PStr policy_id) (dict_get "policy_id" item) || py_eqb (PStr policy_id) inner
      then Ok (Some (PDict item)) else find_policy policy_id items
  | _ :: items => find_policy policy_id items
  end.

Definition policy_items (answer : pyval) : res (list pyval) :=
  match answer with
  | PDict d =>
      match dict_get_or "policies" (PDict []) d with
      | PDict payload =>
          match dict_get_or "policies" (PList []) payload with
          | PList items => Ok items
          | PDict items => Ok (map (λ kv, PStr kv.1) items)
          | PStr s => Ok (map PStr (split_chars "" s))
          | _ => Raise (TypeError "object is not iterable")
          end
      | _ => Ok []
      end
  | _ => Raise (AttributeError "get")
  end.

Definition policy_show (policy_id : string) : M cli_state unit :=
  answer ← request "GET" "/admin/policies" None;
  found ← lift_res (items ← policy_items answer; find_policy policy_id items);
  match found with
  | Some item => print_out (PrintJson item)
  | None => raise (CLIError ("policy not found: " +:+ policy_id))
  end.

(** [registry verify]: the exit code is the answer's [valid]. *)
Definition registry_verify (policy_id version : string) : M cli_state Z :=
  result ← request "GET" (version_path policy_id version +:+ "/verify") None;
  print_out (PrintJson result) ;;
  match result with
  | PDict d => mret (if truthy (dict_get "valid" d) then 0 else 1)
  | _ => raise (AttributeError "get")
  end.

Definition registry_publish (policy : string) : M cli_state unit :=
  payload ← lift_res (text ← res_except (read_text policy)
                        (λ e, if is_OSError e then Some (CLIError "policy must be a readable JSON document") else None);
                      res_except (json_loads text)
                        (λ e, if is_ValueError e then Some (CLIError "policy must be a readable JSON document") else None));
  match payload with
  | PDict _ => show "POST" "/admin/policy-registry/publish" (Some (PDict [("policy", payload)]))
  | _ => raise (CLIError "policy must be a JSON object")
  end.

Definition registry_change (cmd policy_id version reason : string) (expected_revision : option Z) : M cli_state unit :=
  let body := [("policy_id", PStr policy_id); ("version", PStr version)] ++
    if str_in cmd ["activate"; "rollback"]
    then ("reason", PStr reason) :: match expected_revision with
                                    | Some n => [("expected_revision", PInt n)]
                                    | None => []
                                    end
    else [] in
  show "POST" ("/admin/policy-registry/" +:+ cmd) (Some (PDict body)).

(** Without a key, jobs are submitted under the digest of their artifact. *)
Definition job_key (idempotency_key : option string) (artifact : pydict) : res string :=
  match idempotency_key with
  | Some (String c r) => Ok (String c r)
  | _ => text ← json_dumps compact_style (PDict artifact); Ok (sha256_hex text)
  end.

Definition job_submit (artifact : string) (idempotency_key : option string) (max_attempts : Z) : M cli_state unit :=
  value ← lift_res (raw ← (if String.eqb artifact "-" then ce_stdin E else read_text artifact); json_loads raw);
  match value with
  | PDict d =>
      key ← lift_res (job_key idempotency_key d);
      show "POST" "/admin/jobs" (Some (PDict [("artifact", value); ("idempotency_key", PStr key);
                                              ("max_attempts", PInt max_attempts)]))
  | _ => raise (CLIError "artifact must be a JSON object")
  end.

(** ** The offline checks *)

Definition local_log (path : string) : res ReplayLog := file ← ce_file E path; load_jsonl file.

Definition replay_verify (path : string) : M cli_state Z :=
  report ← lift_res (log ← local_log path; verify_integrity log);
  print_out (PrintJson (PDict (integrity_to_dict report))) ;;
  mret (if in_ok report then 0 else 1).

Definition read_anchor (anchor public_key : string) : res (AuditAnchor * PublicKey) :=
  res_except
    (text ← read_text anchor;
     payload ← json_loads text;
     match payload with
     | PDict _ =>
         a ← anchor_from_dict payload;
         raw ← b64decode public_key;
         match from_public_bytes raw with
         | Some key => Ok (a, key)
         | None => Raise (ValueError "An Ed25519 public key is 32 bytes long")
         end
     | _ => Raise (ValueError "anchor must be a JSON object")
     end)
    (λ e, if is_OSError e || is_ValueError e then Some (CLIError "anchor and public key must be valid") else None).

Definition certification (certified : bool) (report : ReplayIntegrity) (a : AuditAnchor) : pydict :=
  [("certified", PBool certified); ("integrity", PDict (integrity_to_dict report));
   ("signer_key_id", PStr (an_signer_key_id a))].

Definition replay_certify (path anchor public_key : string) : M cli_state Z :=
  lift_res (log ← local_log path; verify_integrity log) ;;
  ak ← lift_res (read_anchor anchor public_key);
  log ← lift_res (local_log path);
  certified ← lift_res (certify_anchor log ak.1 ak.2);
  report ← lift_res (verify_integrity log);
  print_out (PrintJson (PDict (certification certified report ak.1))) ;;
  mret (if certified : bool then 0 else 1).

(** ** [run] and [main] *)

Definition run (args : cli_args) : M cli_state Z :=
  match args with
  | AuthLogin api_url tenant_id client_id scopes token => login api_url tenant_id client_id scopes token ;; mret 0
  | AuthStatus => request "GET" "/admin/policies" None ;;
                  print_out (PrintText "Authenticated: operator credentials accepted.") ;; mret 0
  | OperatorKeyList => show "GET" "/admin/operator-keys" None ;; mret 0
  | OperatorKeyCreate operator_id =>
      show "POST" "/admin/operator-keys" (Some (PDict [("operator_id", PStr operator_id)])) ;;
      print_err (PrintText "Store the token now; it cannot be shown again.") ;; mret 0
  | OperatorKeyRevoke key_id => show "POST" (operator_key_path key_id) (Some (PDict [])) ;; mret 0
  | AdminGet group =>
      route ← lift_res match assoc_get group GET_ROUTES with Some r => Ok r | None => Raise (KeyError group) end;
      show "GET" route None ;; mret 0
  | PolicyShow policy_id => policy_show policy_id ;; mret 0
  | RegistryList policy_id => show "GET" (registry_path policy_id) None ;; mret 0
  | RegistryInspect policy_id version => show "GET" (version_path policy_id version) None ;; mret 0
  | RegistryVerify policy_id version => registry_verify policy_id version
  | RegistryActive policy_id => show "GET" (registry_path policy_id +:+ "/active") None ;; mret 0
  | RegistryHistory policy_id => show "GET" (registry_path policy_id +:+ "/history") None ;; mret 0
  | RegistryPublish policy => registry_publish policy ;; mret 0
  | RegistryChange cmd policy_id version reason expected_revision =>
      registry_change cmd policy_id version reason expected_revision ;; mret 0
  | JobSubmit artifact idempotency_key max_attempts => job_submit artifact idempotency_key max_attempts ;; mret 0
  | JobStatus job_id => show "GET" (job_path job_id) None ;; mret 0
  | ReplayVerify path => replay_verify path
  | ReplayCertify path anchor public_key => replay_certify path anchor public_key
  end.

Definition is_cli_error (e : exn) : bool := match e with OtherError c _ => String.eqb c "CLIError" | _ => false end.

Definition main (args : cli_args) : M cli_state Z :=
  try_except (run args)
    (λ e, if is_cli_error e || is_ValueError e || is_OSError e
          then Some (print_err (PrintText ("error: " +:+ exn_str e)) ;; mret 1) else None).
End Cli.
Arguments cli_state : clear implicits.
Arguments cli_env : clear implicits.

(** * Lemmas *)

(** ** Quoting *)

Lemma percent_decodes a s : unquote_bytes (percent a +:+ s) = String a (unquote_bytes s).
Proof.
  by_chars (λ a, match hex_value (hex_upper (N_of_ascii a / 16)), hex_value (hex_upper (N_of_ascii a mod 16)) with
                 | Some x, Some y => Ascii.eqb (ascii_of_N (x * 16 + y)) a | _, _ => false end) a.
  unfold percent. cbn [String.append unquote_bytes]. change (Ascii.eqb "%" "%") with true. cbv iota.
  destruct (hex_value _), (hex_value _); try done. by intros ->%Ascii.eqb_eq.
Qed.

Lemma unreserved_decodes a s : unreserved a = true → unquote_bytes (String a s) = String a (unquote_bytes s).
Proof.
  intros Ha. assert (Ascii.eqb a "%" = false) as Hp.
  { revert Ha. by_chars (λ a, negb (unreserved a) || negb (Ascii.eqb a "%")) a. by destruct (unreserved a), (Ascii.eqb a _). }
  cbn. rewrite Hp. by destruct s as [|b [|c s]].
Qed.

(** Percent-decoding gives back what was quoted. *)
Lemma quote_all_decodes s : unquote_bytes (quote_all s) = s.
Proof.
  induction s as [|a s IH]; [done|]. unfold quote_all in *. cbn [concat_map].
  destruct (unreserved a) eqn:Ha; [|by rewrite percent_decodes, IH].
  cbn [String.append]. by rewrite unreserved_decodes, IH.
Qed.

Lemma quote_all_chars s : all_chars (λ c, unreserved c || Ascii.eqb c "%") (quote_all s) = true.
Proof.
  induction s as [|a s IH]; [done|]. unfold quote_all in *. cbn [concat_map]. apply all_chars_append. split; [|done].
  destruct (unreserved a) eqn:Ha; [by apply all_chars_cons; rewrite Ha|].
  by_chars (λ a, all_chars (λ c, unreserved c || Ascii.eqb c "%") (percent a)) a. done.
Qed.

(** Only a text of unreserved characters is sent as it is. *)
Lemma quote_all_id s : quote_all s = s ↔ all_chars unreserved s = true.
Proof.
  split; [|induction s as [|a s IH]; [done|]; intros [Ha Hs]%all_chars_cons;
           unfold quote_all in *; cbn [concat_map]; rewrite Ha; cbn; by rewrite IH].
  intros H. induction s as [|a s IH]; [done|]. apply all_chars_cons. revert H. unfold quote_all in *. cbn [concat_map].
  destruct (unreserved a) eqn:Ha; cbn; [by intros [= H]; auto|]. intros [= <- H].
  apply (f_equal String.length) in H. exfalso. clear IH Ha. revert H.
  assert (∀ t, (String.length t <= String.length (concat_map (λ c, if unreserved c then String c "" else percent c) t))%nat) as Hl.
  { induction t as [|b t IHt]; [done|]. cbn. destruct (unreserved b); cbn; lia. }
  specialize (Hl s). cbn. lia.
Qed.

(** ** The routes of the commands *)

Abbreviation no_slash := (all_chars (λ c, negb (Ascii.eqb c "/"))).

Lemma split_from_last cur s : no_slash s = true → split_from "/" cur s = [cur +:+ s].
Proof.
  revert cur. induction s as [|a s IH]; intros cur; [by rewrite string_app_nil_r|].
  intros [Ha%negb_true_iff Hs]%all_chars_cons. cbn. rewrite Ha, IH by done. by rewrite str_app_assoc.
Qed.

Lemma split_from_next cur s t : no_slash s = true →
  split_from "/" cur (s +:+ "/" +:+ t) = (cur +:+ s) :: split_on "/" t.
Proof.
  revert cur. induction s as [|a s IH]; intros cur; [by rewrite string_app_nil_r|].
  intros [Ha%negb_true_iff Hs]%all_chars_cons. cbn. rewrite Ha, (IH _ Hs). by rewrite str_app_assoc.
Qed.

Lemma quote_all_no_slash s : no_slash (quote_all s) = true.
Proof.
  eapply all_chars_impl; [|apply quote_all_chars]. intros a. cbv beta.
  by_chars (λ a, negb (unreserved a || Ascii.eqb a "%") || negb (Ascii.eqb a "/")) a.
  by destruct (unreserved a || Ascii.eqb a "%"), (Ascii.eqb a "/").
Qed.

Lemma policy_segment_plain id : policy_segment id = true → quote_all id = id ∧ no_slash id = true.
Proof.
  assert (∀ a, policy_char a = true → unreserved a = true ∧ negb (Ascii.eqb a "/") = true) as Hp.
  { intros a. by_chars (λ a, negb (policy_char a) || unreserved a && negb (Ascii.eqb a "/")) a.
    destruct (policy_char a), (unreserved a), (Ascii.eqb a "/"); done. }
  unfold policy_segment. destruct id as [|a r]; [done|]. intros [[Ha Hr]%andb_true_iff _]%andb_true_iff.
  assert (policy_char a = true) as Ha' by (unfold policy_char; by rewrite Ha).
  rewrite quote_all_id, !all_chars_cons. split; (split; [by apply Hp|]); (eapply all_chars_impl; [|exact Hr]); naive_solver.
Qed.

Lemma policy_route_registry s : policy_route ("/admin/policy-registry/" +:+ s) =
  match split_on "/" s with
  | [id] => if policy_segment id then Some (id, None, false) else None
  | [id; selector] =>
      if policy_segment id && negb (String.eqb selector "") then Some (id, Some selector, false) else None
  | [id; selector; "verify"] =>
      if policy_segment id && negb (String.eqb selector "") then Some (id, Some selector, true) else None
  | _ => None
  end.
Proof. unfold policy_route. by rewrite strip_prefix_app. Qed.

(** The version paths of the command line name the policy, and the version as it
    was quoted: the server, which decodes no path, looks for the quoted text. *)
Lemma version_path_route (policy_id version : string) :
  policy_segment policy_id = true → version ≠ "" →
  policy_route (registry_path policy_id) = Some (policy_id, None, false) ∧
  policy_route (version_path policy_id version) = Some (policy_id, Some (quote_all version), false) ∧
  policy_route (version_path policy_id version +:+ "/verify") = Some (policy_id, Some (quote_all version), true) ∧
  (quote_all version = version ↔ all_chars unreserved version = true).
Proof.
  intros Hid Hv. destruct (policy_segment_plain _ Hid) as [Hq Hns].
  assert (String.eqb (quote_all version) "" = false) as Hne.
  { apply String.eqb_neq. intros H. apply Hv. by rewrite <-(quote_all_decodes version), H. }
  unfold version_path, registry_path. rewrite Hq, !str_app_assoc, !policy_route_registry.
  assert (split_on "/" policy_id = [policy_id]) as -> by (unfold split_on; by rewrite split_from_last).
  unfold split_on. rewrite !split_from_next by done. unfold split_on.
  rewrite split_from_last by apply quote_all_no_slash.
  change (quote_all version +:+ "/verify") with (quote_all version +:+ "/" +:+ "verify").
  rewrite split_from_next by apply quote_all_no_slash. cbn [String.append]. rewrite Hid, Hne. cbn.
  split_and!; try done. apply quote_all_id.
Qed.

(** A version with build metadata is a version of the registry that the command
    line cannot inspect: what the server is asked for is no version. *)
Lemma build_metadata_unreachable :
  semver_match "1.0.0+build.1" = Some ("1", "0", "0", None) ∧
  policy_route (version_path "payments" "1.0.0+build.1") = Some ("payments", Some "1.0.0%2Bbuild.1", false) ∧
  semver_match "1.0.0%2Bbuild.1" = None.
Proof.
  split; [vm_compute; reflexivity|]. split; [|vm_compute; reflexivity].
  destruct (version_path_route "payments" "1.0.0+build.1") as (_ & -> & _); [reflexivity|discriminate|].
  vm_compute. reflexivity.
Defined.

(** ** [policy show] *)

Section PolicyShow.
Context `{C : Crypto}.
Implicit Types r : PolicyRegistry.

(** Every entry holds the policy of its key, in its manifest too. *)
Definition entry_named r (kp : string * Policy) : Prop :=
  policy_id kp.2 = kp.1 ∧ ∀ m, assoc_get kp.1 (pr_manifests r) = Some m → policy_id (pm_policy m) = kp.1.

Lemma found_policy k d p items :
  NoDup (fst <$> d) → dict_get_or "policy" (PDict []) d = PDict (policy_to_dict p) → dict_get "policy_id" d = PNone →
  find_policy k (norm (PDict d) :: items) =
    if String.eqb k (policy_id p) then Ok (Some (norm (PDict d))) else find_policy k items.
Proof.
  intros Hd Hp Hi. rewrite norm_PDict. cbn [find_policy]. rewrite dict_get_or_norm_entries, Hp, norm_PDict by done.
  rewrite !dict_get_norm_entries, Hi by (done || apply policy_to_dict_keys).
  change (dict_get "policy_id" (policy_to_dict p)) with (PStr (policy_id p)). reflexivity.
Qed.

Lemma find_policy_entries r k l :
  Forall (entry_named r) l →
  find_policy k (map (λ kp, norm (registry_entry r kp)) l) =
    Ok ((λ p, norm (registry_entry r (k, p))) <$> assoc_get k l).
Proof.
  induction 1 as [|[q p] l [Hp Hm] _ IH]; [done|]. cbn [map assoc_get fst snd] in *.
  assert (∃ d p', registry_entry r (q, p) = PDict d ∧ NoDup (fst <$> d) ∧
    dict_get_or "policy" (PDict []) d = PDict (policy_to_dict p') ∧ dict_get "policy_id" d = PNone ∧
    policy_id p' = q) as (d & p' & He & Hnd & Hd & Hi & Hq).
  { unfold registry_entry. cbn [fst snd]. destruct (assoc_get q (pr_manifests r)) as [m|] eqn:E.
    - exists (manifest_to_dict m), (pm_policy m). split_and!; try done; [|by apply Hm].
      apply str_nodup_spec. reflexivity.
    - do 2 eexists. split_and!; [done| | | |exact Hp]; try done. apply str_nodup_spec. reflexivity. }
  rewrite He, (found_policy k d p' _ Hnd Hd Hi), Hq. destruct (String.eqb_spec k q) as [<-|Hne].
  - cbn. by rewrite He.
  - exact IH.
Qed.

(** [policy show] prints the entry of the registry that the server answers with,
    and fails when the registry has no such policy. *)
Lemma policy_show_finds `{U : UnicodeData} {W} (E : cli_env W) r (k : string) (s s1 : cli_state W) :
  Forall (entry_named r) (pr_policies r) → NoDup (fst <$> pr_policies r) →
  request E "GET" "/admin/policies" None s = (Ok (norm (PDict [("policies", PDict (registry_to_dict r))])), s1) →
  policy_show E k s =
    match registry_get r k with
    | Some p => print_out (PrintJson (norm (registry_entry r (k, p)))) s1
    | None => (Raise (CLIError ("policy not found: " +:+ k)), s1)
    end.
Proof.
  intros Hn Hnd Hr. unfold policy_show. rewrite M_bind_run, Hr, M_bind_run. unfold lift_res.
  rewrite norm_PDict. cbn [norm_entries map sort_by]. unfold policy_items.
  change (dict_get_or "policies" (PDict []) _) with (norm (PDict (registry_to_dict r))).
  rewrite norm_PDict. change (dict_get_or "policies" (PList []) _) with
    (norm (PList (map (registry_entry r) (sort_by fst (pr_policies r))))).
  cbn [norm]. rewrite List.map_map. unfold mbind, res_bind.
  rewrite find_policy_entries by (by rewrite sort_by_Permutation).
  rewrite assoc_get_sort_by by done. unfold registry_get. by destruct (assoc_get k (pr_policies r)).
Qed.
End PolicyShow.

(** ** Credentials *)

Section Credentials.
Context `{C : Crypto} `{U : UnicodeData} {W : Type}.
Implicit Types (E : cli_env W) (s : cli_state W).

(** What was saved is what is loaded, unless the environment says otherwise. *)
Lemma saved_credentials_load E (api_url token : string) s s' path :
  utf8_str api_url = true → utf8_str token = true →
  save_credentials E api_url token s = (Ok path, s') →
  load_credentials E (cl_credentials s') =
    Ok (override "token" (env_value E "GOVERNED_AUTONOMY_OPERATOR_TOKEN")
         (override "api_url" (env_value E "GAS_API_URL")
           [("api_url", PStr api_url); ("token", PStr token); ("tenant_id", PNone); ("client_id", PNone);
            ("scopes", PNone)])).
Proof.
  intros Ha Ht [= <- <-]. unfold load_credentials. cbn [cl_credentials].
  set (v := PDict [("api_url", PStr api_url); ("token", PStr token)]).
  change (dump_object _) with (json_text default_style v).
  assert (json_safe default_style v = true) as Hs by (cbn; by rewrite Ha, Ht).
  rewrite (json_loads_dumps default_style v _ Hs eq_refl (json_dumps_safe _ _ Hs)). reflexivity.
Qed.

(** The token of the environment is the one that is used. *)
Lemma environment_token E file creds token :
  env_value E "GOVERNED_AUTONOMY_OPERATOR_TOKEN" = Some token →
  load_credentials E file = Ok creds → dict_get "token" creds = PStr token.
Proof.
  intros Ht H. unfold load_credentials in H. inv_bind. subst. rewrite Ht. unfold dict_get. cbn [override].
  by rewrite assoc_get_set_eq.
Qed.

(** A request that returns was one HTTP request to the configured address: the
    token stands in its Authorization header and nowhere else, and the answer was
    JSON. *)
Lemma request_sends E method path payload s v s' :
  request E method path payload s = (Ok v, s') →
  ∃ creds token w body, load_credentials E (cl_credentials s) = Ok creds ∧
    (truthy (dict_get "tenant_id" creds) && truthy (dict_get "client_id" creds) = false →
       token = dict_get "token" creds ∧ w = cl_world s) ∧
    ce_urlopen E {| cr_method := method; cr_url := rstrip_slash (py_str (dict_get "api_url" creds)) +:+ path;
                    cr_headers := request_headers token payload; cr_payload := payload |} w =
      (Ok (Answered body), cl_world s') ∧
    json_loads (if String.eqb body "" then "null" else body) = Ok v.
Proof.
  unfold request. intros H. apply M_bind_ok in H as (? & ? & [= <- <-] & H).
  apply M_bind_ok in H as (creds & ? & [Hc ->]%lift_res_ok & H).
  apply M_bind_ok in H as (u & ? & [_ ->]%lift_res_ok & H).
  apply M_bind_ok in H as ([] & ? & [_ ->]%raise_if_ok & H).
  apply M_bind_ok in H as (token & s1 & Ht & H).
  apply M_bind_ok in H as (a & s2 & Ha & H). apply lift_res_ok in H as [H ->].
  apply res_bind_ok in H as (body & Hb & Hj). unfold on_world, zoom in Ha.
  destruct (ce_urlopen _ _ _) as [r w2] eqn:Hu. injection Ha as -> <-.
  destruct a as [body'|code|reason]; [|done..]. injection Hb as <-.
  exists creds, token, (cl_world s1), body'. split_and!; try done. intros He. rewrite He in Ht. by injection Ht as <- <-.
Qed.

(** ** Exit codes *)

(** [main] answers with 0 or 1, or the exception is none that it reports. *)
Lemma run_code E args s z s' : run E args s = (Ok z, s') → z = 0 ∨ z = 1.
Proof.
  destruct args; cbn [run]; unfold registry_verify, replay_verify, replay_certify; intros H;
    repeat (apply M_bind_ok in H as (? & ? & _ & H)); repeat case_match; try done; injection H as <- _; auto.
Qed.

Lemma main_code E args s r s' :
  main E args s = (r, s') →
  match r with
  | Ok z => z = 0 ∨ z = 1
  | Raise e => is_cli_error e || is_ValueError e || is_OSError e = false
  end.
Proof.
  unfold main, try_except. destruct (run E args s) as [[z|e] s1] eqn:Hr.
  - intros [= <- <-]. by eapply run_code.
  - destruct (_ || _) eqn:He; [|by intros [= <- <-]]. intros H. unfold print_err in H. injection H as <- <-. by right.
Qed.

(** [replay verify] exits with 0 exactly when the file does not exist or its
    frames load as one chain without a repeated identifier. *)
Lemma replay_verify_exit E path s :
  (main E (ReplayVerify path) s).1 = Ok 0 ↔
  ∃ file log report, ce_file E path = Ok file ∧ load_jsonl file = Ok log ∧ verify_integrity log = Ok report ∧
    in_ok report = true.
Proof.
  transitivity (∃ report, (log ← local_log E path; verify_integrity log) = Ok report ∧ in_ok report = true).
  - unfold main, try_except. cbn [run]. unfold replay_verify. rewrite M_bind_run. unfold lift_res.
    destruct (log ← local_log E path; verify_integrity log) as [report|e].
    + unfold mbind, M_bind, print_out, modify, mret, M_ret. cbn. split.
      * destruct (in_ok report) eqn:Ho; [eauto|done].
      * intros (i & [= <-] & Ho). by rewrite Ho.
    + split; [|by intros (i & ? & _)]. by destruct (is_cli_error e || is_ValueError e || is_OSError e).
  - unfold local_log. split.
    + intros (i & H & Ho). apply res_bind_ok in H as (log & H & Hv). apply res_bind_ok in H as (file & Hf & Hl). eauto 7.
    + intros (file & log & i & Hf & Hl & Hv & Ho). exists i. split; [|done].
      unfold mbind, res_bind. by rewrite Hf, Hl.
Qed.

(** A path without a file passes the check. *)
Lemma replay_verify_missing_file E path s : ce_file E path = Ok None → (main E (ReplayVerify path) s).1 = Ok 0.
Proof.
  intros Hf. apply replay_verify_exit. do 3 eexists. split_and!; [exact Hf|reflexivity| |]; vm_compute; reflexivity.
Qed.

(** [replay certify] exits with 0 only for an anchor of the given key that names
    the digest, the head and the length of this very log. *)
Lemma replay_certify_exit E path anchor public_key s :
  (main E (ReplayCertify path anchor public_key) s).1 = Ok 0 →
  ∃ log a key, local_log E path = Ok log ∧ read_anchor E anchor public_key = Ok (a, key) ∧
    certify_anchor log a key = Ok true.
Proof.
  intros H. destruct (main E (ReplayCertify path anchor public_key) s) as [r s'] eqn:Hm. cbn [fst] in H. subst r.
  unfold main, try_except in Hm. cbn [run] in Hm. destruct (replay_certify _ _ _ _ _) as [[z|e] s1] eqn:Hr.
  2: { destruct (_ || _); [|done]. discriminate Hm. }
  injection Hm as -> <-. unfold replay_certify in Hr.
  apply M_bind_ok in Hr as (? & ? & [_ ->]%lift_res_ok & Hr).
  apply M_bind_ok in Hr as ([a key] & ? & [Ha ->]%lift_res_ok & Hr).
  apply M_bind_ok in Hr as (log & ? & [Hl ->]%lift_res_ok & Hr).
  apply M_bind_ok in Hr as (certified & ? & [Hc ->]%lift_res_ok & Hr).
  do 2 (apply M_bind_ok in Hr as (? & ? & _ & Hr)). destruct certified; [eauto 6|discriminate Hr].
Qed.

(** With stored Entra credentials and without MSAL every request ends with an
    exception that [main] does not report. *)
Lemma entra_failure_unreported E creds u c client s :
  mk_msal (ce_msal E) = None → load_credentials E (cl_credentials s) = Ok creds →
  urlsplit (rstrip_slash (py_str (dict_get "api_url" creds))) = Ok u → str_in (su_scheme u) ["http"; "https"] = true →
  truthy (dict_get "tenant_id" creds) && truthy (dict_get "client_id" creds) = true →
  entra_config (py_str (dict_get "tenant_id" creds)) (py_str (dict_get "client_id" creds)) = Ok c →
  entra_client_init (W := cli_state W) c (py_or (dict_get "scopes" creds) (of_strs (default_scopes c))) None
    (Some (cache_path E)) = Ok client →
  (main E AuthStatus s).1 = Raise (RuntimeError
    "Entra device login requires MSAL; install governed-autonomy-substrate[entra]").
Proof.
  intros Hp Hl Hu Hs Ht Hc Hi. assert (dc_factory client = None) as Hf.
  { unfold entra_client_init in Hi. inv_bind. by subst. }
  unfold main, try_except. cbn [run]. unfold request, device_token, acquire_token, client_factory.
  unfold mbind, M_bind, get_state, lift_res, raise_if. rewrite Hl, Hu, Hs, Ht, Hc, Hi, Hf, Hp. reflexivity.
Qed.
End Credentials.
