(* ===== verification/Base64Strict.v ===== *)
(** The base64 of RFC 4648 with padding: [base64.b64encode], and
    [base64.b64decode(…, validate=True)] as [binascii.a2b_base64] decodes in its
    strict mode.  Padding that follows complete groups is where versions of
    CPython differ, and is outside the model.  Decoding inverts encoding. *)

From S2P Require Import Prelude PyFloat PyVal Base64 Policy.
From Stdlib Require Import ZifyN.

Definition std_char (n : N) : ascii :=
  if (n <? 62)%N then b64_char n else if (n =? 62)%N then "+"%char else "/"%char.

Definition std_value (c : ascii) : option N :=
  if Ascii.eqb c "-" || Ascii.eqb c "_" then None else b64_value c.

(** [base64.b64encode(value).decode("ascii")] *)
Fixpoint std_b64encode (value : string) : string :=
  match value with
  | EmptyString => ""
  | String a EmptyString =>
      let a := N_of_ascii a in
      String (std_char (a / 4)) (String (std_char (a mod 4 * 16)) "==")
  | String a (String b EmptyString) =>
      let a := N_of_ascii a in let b := N_of_ascii b in
      String (std_char (a / 4)) (String (std_char (a mod 4 * 16 + b / 16))
        (String (std_char (b mod 16 * 4)) "="))
  | String a (String b (String c rest)) =>
      let a := N_of_ascii a in let b := N_of_ascii b in let c := N_of_ascii c in
      String (std_char (a / 4)) (String (std_char (a mod 4 * 16 + b / 16))
        (String (std_char (b mod 16 * 4 + c / 64)) (String (std_char (c mod 64))
          (std_b64encode rest))))
  end.

(** The strict loop; [pos], [left] and [pads] as in [a2b_base64].  Padding after
    one character fails however the text goes on. *)
Fixpoint a2b_strict (pos left pads : N) (s : string) : res string :=
  match s with
  | EmptyString =>
      if (pos =? 0)%N then Ok "" else Raise (ValueError "Incorrect padding")
  | String c s =>
      if Ascii.eqb c "=" then
        if (pos =? 0)%N then unmodelled "padding after complete groups of base64"
        else if (pos =? 1)%N then Raise (ValueError "Discontinuous padding not allowed")
        else if (4 <=? pos + (pads + 1))%N then
          match s with
          | EmptyString => Ok ""
          | _ => Raise (ValueError "Excess data after padding")
          end
        else a2b_strict pos left (pads + 1) s
      else match std_value c with
      | None => Raise (ValueError "Only base64 data is allowed")
      | Some v =>
          if (0 <? pads)%N then Raise (ValueError "Discontinuous padding not allowed")
          else if (pos =? 0)%N then a2b_strict 1 v 0 s
          else if (pos =? 1)%N then
            t ← a2b_strict 2 (v mod 16) 0 s; Ok (String (ascii_of_N (left * 4 + v / 16)) t)
          else if (pos =? 2)%N then
            t ← a2b_strict 3 (v mod 4) 0 s; Ok (String (ascii_of_N (left * 16 + v / 4)) t)
          else
            t ← a2b_strict 0 0 0 s; Ok (String (ascii_of_N (left * 64 + v)) t)
      end
  end.

(** [base64.b64decode(value, validate=True)] of a text *)
Definition std_b64decode (value : string) : res string :=
  if negb (is_ascii value) then
    Raise (ValueError "string argument should contain only ASCII characters")
  else match value with
  | String "="%char _ => Raise (ValueError "Leading padding not allowed")
  | _ => a2b_strict 0 0 0 value
  end.

Example std_rfc4648 :
  map std_b64encode ["f"; "fo"; "foo"; "foob"; "fooba"; "foobar"] =
    ["Zg=="; "Zm8="; "Zm9v"; "Zm9vYg=="; "Zm9vYmE="; "Zm9vYmFy"] ∧
  std_b64encode (chr 251 +:+ chr 255) = "+/8=" ∧
  std_b64decode "Zm9vYg==" = Ok "foob" ∧
  map std_b64decode ["Zm9vYg"; "Zm9v Yg=="; "Zm9vYg==="; "Zg=a"; "=" ; "Zm9vY==="; "Zm_v"] =
    [Raise (ValueError "Incorrect padding"); Raise (ValueError "Only base64 data is allowed");
     Raise (ValueError "Excess data after padding"); Raise (ValueError "Discontinuous padding not allowed");
     Raise (ValueError "Leading padding not allowed"); Raise (ValueError "Discontinuous padding not allowed");
     Raise (ValueError "Only base64 data is allowed")].
Proof. vm_compute. repeat split. Qed.

(** ** Decoding inverts encoding *)

Definition std_sextet_ok (n : N) : bool :=
  let c := std_char n in
  match std_value c with Some m => (m =? n)%N | None => false end
  && negb (Ascii.eqb c "=") && (N_of_ascii c <? 128)%N.

Lemma std_char_ok n :
  (n < 64)%N →
  std_value (std_char n) = Some n ∧ Ascii.eqb (std_char n) "=" = false ∧
  (N_of_ascii (std_char n) <? 128)%N = true.
Proof.
  intros Hn. assert (forallb std_sextet_ok (map N.of_nat (seq 0 64)) = true) as H by (by vm_compute).
  rewrite forallb_forall in H. specialize (H n).
  assert (std_sextet_ok n = true) as Hok.
  { apply H. rewrite <-(N2Nat.id n). apply in_map. rewrite in_seq. lia. }
  clear H. unfold std_sextet_ok in Hok. apply andb_true_iff in Hok as [[Hv He]%andb_true_iff Hc].
  destruct (std_value (std_char n)) as [m|]; [|done].
  apply N.eqb_eq in Hv as ->. apply negb_true_iff in He. done.
Qed.

Lemma strict_step pos left n s :
  (n < 64)%N →
  a2b_strict pos left 0 (String (std_char n) s) =
  if (pos =? 0)%N then a2b_strict 1 n 0 s
  else if (pos =? 1)%N then
    t ← a2b_strict 2 (n mod 16) 0 s; Ok (String (ascii_of_N (left * 4 + n / 16)) t)
  else if (pos =? 2)%N then
    t ← a2b_strict 3 (n mod 4) 0 s; Ok (String (ascii_of_N (left * 16 + n / 4)) t)
  else t ← a2b_strict 0 0 0 s; Ok (String (ascii_of_N (left * 64 + n)) t).
Proof.
  intros Hn. destruct (std_char_ok n Hn) as (Hv & He & _).
  cbn [a2b_strict]. by rewrite He, Hv.
Qed.

Ltac strict_steps := repeat (rewrite strict_step by sextet_bound; cbn [N.eqb Pos.eqb]).

Lemma strict_decodes v : a2b_strict 0 0 0 (std_b64encode v) = Ok v.
Proof.
  induction v as [|a|a b|a b c s IH] using string_ind3; [done| | |].
  - cbn [std_b64encode]. strict_steps. cbn.
    unfold mbind, res_bind. do 2 f_equal. apply ascii_of_N_eq. sextet_bound.
  - cbn [std_b64encode]. strict_steps. cbn.
    unfold mbind, res_bind. do 2 f_equal; [|f_equal]; apply ascii_of_N_eq; sextet_bound.
  - cbn [std_b64encode]. strict_steps. rewrite IH.
    unfold mbind, res_bind. do 2 f_equal; [|f_equal; [|f_equal]]; apply ascii_of_N_eq; sextet_bound.
Qed.

Lemma std_char_ascii n : (n < 64)%N → (N_of_ascii (std_char n) <? 128)%N = true.
Proof. intros Hn. by apply std_char_ok. Qed.

Lemma std_b64encode_ascii v : is_ascii (std_b64encode v) = true.
Proof.
  unfold is_ascii.
  induction v as [|a|a b|a b c s IH] using string_ind3; [done| | |];
    cbn [std_b64encode String.list_ascii_of_string forallb];
    rewrite ?std_char_ascii by sextet_bound; done.
Qed.

Lemma std_b64encode_head v :
  v = "" ∨ ∃ n s, (n < 64)%N ∧ std_b64encode v = String (std_char n) s.
Proof.
  destruct v as [|a [|b [|c s]]]; [by left| | |]; right; cbn [std_b64encode];
    do 2 eexists; (split; [|reflexivity]); sextet_bound.
Qed.

Lemma std_b64decode_encode v : std_b64decode (std_b64encode v) = Ok v.
Proof.
  unfold std_b64decode. rewrite std_b64encode_ascii. simpl negb.
  pose proof (strict_decodes v) as Hd.
  destruct (std_b64encode_head v) as [->|(n & s & Hn & Hs)]; [done|].
  rewrite Hs in *. destruct (std_char_ok n Hn) as (_ & He & _).
  destruct (std_char n) as [[] [] [] [] [] [] [] []]; done.
Qed.
