(* ===== verification/Attest.v ===== *)
(** attest/: signed attestations of pull requests, their verification and their
    ledger.

    Parsing PEM files and the RSA-PSS and ECDSA primitives are parameters; a
    signature takes the randomness it draws as an argument.  The file shows that
    a signed attestation verifies, from memory and from its line of the ledger,
    and that a verified signature is one of the fields as they stand. *)

From S2P Require Import Prelude PyFloat PyVal Json Crypto Models Policy Rbac Orders SemVer PyText Base64 Base64Strict Lines Tokens.

(** The classes of keys of the package [cryptography]; [*_verify] does not raise
    [InvalidSignature]. *)
Class AttestKeys := {
  RSAPrivateKey : Type; RSAPublicKey : Type; ECPrivateKey : Type; ECPublicKey : Type;
  rsa_public_of : RSAPrivateKey → RSAPublicKey;
  ec_public_of : ECPrivateKey → ECPublicKey;
  rsa_key_size : RSAPublicKey → Z;
  pss_sign : RSAPrivateKey → string → string → string;
  pss_verify : RSAPublicKey → string → string → bool;
  ecdsa_sign : ECPrivateKey → string → string → string;
  ecdsa_sha256_verify : ECPublicKey → string → string → bool
}.

Class AttestLaws (K : AttestKeys) : Prop := {
  pss_verifies : ∀ k r m, pss_verify (rsa_public_of k) (pss_sign k r m) m = true;
  ecdsa_verifies : ∀ k r m, ecdsa_sha256_verify (ec_public_of k) (ecdsa_sign k r m) m = true
}.

Section Attest.
Context `{U : UnicodeData, K : AttestKeys}.

Inductive attest_private :=
| RSASigning (k : RSAPrivateKey) | ECSigning (k : ECPrivateKey) | OtherSigning.
Inductive attest_public :=
| RSAChecking (k : RSAPublicKey) | ECChecking (k : ECPublicKey) | OtherChecking.

(** [private_key.public_key()] *)
Definition public_of (key : attest_private) : attest_public :=
  match key with
  | RSASigning k => RSAChecking (rsa_public_of k)
  | ECSigning k => ECChecking (ec_public_of k)
  | OtherSigning => OtherChecking
  end.

(** ** common.py *)

Definition REQUIRED_FIELDS : list string :=
  ["pr_id"; "actor"; "approver"; "policy_id"; "risk_score"; "rationale"; "timestamp"; "commit_sha"].
Definition text_fields : list string :=
  ["actor"; "approver"; "policy_id"; "rationale"; "timestamp"; "commit_sha"].

Definition canonicalize (payload : pydict) : res string := json_dumps compact_style (PDict payload).

Definition check_text (d : pydict) (field : string) : res unit :=
  fail_if (match dict_get field d with
           | PStr s => String.eqb (join "" (strip_chars s)) ""
           | _ => true
           end) (ValueError (field +:+ " must be a non-empty string")).

(** [math.isfinite] of an integer beyond the doubles raises [OverflowError]. *)
Definition check_risk (v : pyval) : res unit :=
  match v with
  | PInt _ | PFloat _ =>
      match pynum_isfinite (match v with PFloat f => NFloat f | PInt z => NInt z | _ => NInt 0 end) with
      | Some finite => fail_if (negb finite) (ValueError "risk_score must be finite")
      | None => Raise (OverflowError "int too large to convert to float")
      end
  | _ => Raise (ValueError "risk_score must be a number")
  end.

Definition validate_payload (payload : pyval) : res pydict :=
  match payload with
  | PDict d =>
      let missing := List.filter (λ f, negb (assoc_has f d)) REQUIRED_FIELDS in
      fail_if (negb (match missing with [] => true | _ => false end))
        (ValueError ("missing required field(s): " +:+ join ", " missing)) ;;
      for_res text_fields (check_text d) ;;
      fail_if (match dict_get "pr_id" d with PInt _ => false | _ => true end)
        (ValueError "pr_id must be an integer") ;;
      check_risk (dict_get "risk_score" d) ;;
      Ok d
  | _ => Raise (ValueError "attestation must be a JSON object")
  end.

(** [_sign] *)
Definition attest_sign (key : attest_private) (random message : string) : res string :=
  match key with
  | RSASigning k =>
      fail_if (rsa_key_size (rsa_public_of k) <? 2048) (ValueError "RSA keys must be at least 2048 bits") ;;
      Ok (pss_sign k random message)
  | ECSigning k => Ok (ecdsa_sign k random message)
  | OtherSigning => Raise (ValueError "private key must be RSA or ECDSA")
  end.

Definition sign_attestation (payload : pyval) (key : attest_private) (random : string) : res pydict :=
  d ← validate_payload payload;
  message ← canonicalize d;
  signature ← attest_sign key random message;
  Ok (assoc_set "signature" (PStr (std_b64encode signature)) d).

(** [_verify] *)
Definition attest_verify (key : attest_public) (message signature : string) : bool :=
  match key with
  | RSAChecking k => if rsa_key_size k <? 2048 then false else pss_verify k signature message
  | ECChecking k => ecdsa_sha256_verify k signature message
  | OtherChecking => false
  end.

Definition verify_attestation (attestation : pyval) (key : attest_public) : res bool :=
  match attestation with
  | PDict d =>
      fail_if (negb (assoc_has "signature" d)) (ValueError "attestation signature is missing") ;;
      match dict_get "signature" d with
      | PStr text =>
          payload ← validate_payload (PDict (assoc_remove "signature" d));
          signature ← res_except (std_b64decode text)
            (λ e, if is_ValueError e then Some (ValueError "signature is not valid base64") else None);
          message ← canonicalize payload;
          Ok (attest_verify key message signature)
      | _ => Raise (ValueError "signature must be a base64 string")
      end
  | _ => Raise (ValueError "attestation signature is missing")
  end.

(** [append_to_ledger]: the ledger's text after the call *)
Definition append_to_ledger (attestation_text ledger : string) : res string :=
  attestation ← json_loads attestation_text;
  line ← json_dumps compact_style attestation;
  Ok (ledger +:+ line +:+ newline).

(** ** generate_attestation.py *)

(** [now] is [datetime.now(UTC)…isoformat()]; [timestamp or …]. *)
Definition build_attestation (pr_id : Z) (actor approver policy_id : string) (risk_score : spec_float)
    (rationale commit_sha : string) (key : attest_private) (timestamp : option string) (now random : string)
    : res pydict :=
  sign_attestation (PDict
    [("pr_id", PInt pr_id); ("actor", PStr actor); ("approver", PStr approver);
     ("policy_id", PStr policy_id); ("risk_score", PFloat risk_score); ("rationale", PStr rationale);
     ("timestamp", PStr match timestamp with Some t => if String.eqb t "" then now else t | None => now end);
     ("commit_sha", PStr commit_sha)]) key random.

(** [main] after argparse: the exit code and the attestation it writes;
    [parser.error] exits with 2. *)
Definition generate_main (pr_id : Z) (actor approver policy_id : string) (risk_score : spec_float)
    (rationale commit_sha : string) (private_key : res attest_private) (write : res unit) (now random : string)
    : res (Z * option pydict) :=
  if negb (float_isfinite risk_score) then Ok (2, None) else
  let written :=
    key ← private_key;
    attestation ← build_attestation pr_id actor approver policy_id risk_score rationale commit_sha
                    key None now random;
    write ;; Ok attestation in
  match written with
  | Ok attestation => Ok (0, Some attestation)
  | Raise e => if is_OSError e || is_TypeError e || is_ValueError e then Ok (1, None) else Raise e
  end.

(** ** verify_attestation.py *)

(** [main] after argparse: the exit code; both files are given as read. *)
Definition verify_main (attestation_text : res string) (public_key : res attest_public) : res Z :=
  let checked :=
    text ← attestation_text; attestation ← json_loads text;
    key ← public_key; verify_attestation attestation key in
  match checked with
  | Ok true => Ok 0
  | Ok false => Ok 1
  | Raise e => if is_OSError e || is_ValueError e || is_TypeError e then Ok 1 else Raise e
  end.

(** ** What verification reads: the fields, not their order *)

Lemma check_text_equiv d d' field :
  norm (dict_get field d') = norm (dict_get field d) → check_text d' field = check_text d field.
Proof.
  unfold check_text. intros H.
  destruct (norm_scalar _ _ H) as [->|[[? ?]|[? ?]]]; [done| |]; by destruct (dict_get field d), (dict_get field d').
Qed.

Lemma validate_equiv d d' :
  NoDup (fst <$> d) → NoDup (fst <$> d') → norm (PDict d) = norm (PDict d') →
  validate_payload (PDict d') = (validate_payload (PDict d) ;; Ok d').
Proof.
  intros Hd Hd' Hn. pose proof (λ k, norm_get d d' k Hd Hd' Hn) as H. unfold validate_payload.
  rewrite (List.filter_ext (λ f, negb (assoc_has f d')) (λ f, negb (assoc_has f d)))
    by (intros f; by destruct (H f) as [-> _]).
  rewrite (for_res_ext _ (check_text d') (check_text d))
    by (intros f _; apply check_text_equiv; by destruct (H f)).
  assert ((match dict_get "pr_id" d' with PInt _ => false | _ => true end) =
          (match dict_get "pr_id" d with PInt _ => false | _ => true end)) as ->.
  { destruct (norm_scalar _ _ (proj2 (H "pr_id"))) as [->|[[? ?]|[? ?]]]; [done| |];
      by destruct (dict_get "pr_id" d), (dict_get "pr_id" d'). }
  assert (check_risk (dict_get "risk_score" d') = check_risk (dict_get "risk_score" d)) as ->.
  { destruct (norm_scalar _ _ (proj2 (H "risk_score"))) as [->|[[? ?]|[? ?]]]; [done| |];
      by destruct (dict_get "risk_score" d), (dict_get "risk_score" d'). }
  unfold mbind, res_bind, fail_if. repeat case_match; congruence.
Qed.

Lemma canonicalize_equiv d d' :
  norm (PDict d) = norm (PDict d') → canonicalize d' = canonicalize d.
Proof.
  intros Hn. unfold canonicalize, json_dumps.
  by rewrite <-(serializable_norm (PDict d')), <-(json_text_norm _ (PDict d')), <-Hn,
    serializable_norm, json_text_norm.
Qed.

Lemma validate_payload_ok v d : validate_payload v = Ok d → v = PDict d.
Proof.
  destruct v; try done. unfold validate_payload. intros H.
  repeat (apply res_bind_ok in H as (? & _ & H)). congruence.
Qed.

(** Attestations with the same fields verify alike, in whatever order. *)
Lemma verify_attestation_equiv d d' key :
  NoDup (fst <$> d) → NoDup (fst <$> d') → norm (PDict d) = norm (PDict d') →
  verify_attestation (PDict d') key = verify_attestation (PDict d) key.
Proof.
  intros Hd Hd' Hn. destruct (norm_get d d' "signature" Hd Hd' Hn) as [Hh Hs].
  unfold verify_attestation. rewrite Hh.
  pose proof (norm_remove "signature" d d' Hd Hd' Hn) as Hr.
  rewrite (validate_equiv _ _ (assoc_remove_NoDup _ _ Hd) (assoc_remove_NoDup _ _ Hd') Hr).
  destruct (norm_scalar _ _ Hs) as [->|[[? ?]|[? ?]]];
    [|by destruct (dict_get "signature" d), (dict_get "signature" d')
     |by destruct (dict_get "signature" d), (dict_get "signature" d')].
  unfold mbind, res_bind. destruct (fail_if _ _); [|done].
  destruct (dict_get "signature" d) as [| | | |text| | |]; try done.
  destruct (validate_payload (PDict (assoc_remove "signature" d))) as [p|] eqn:E; [|done].
  apply validate_payload_ok in E as [= <-].
  by rewrite (canonicalize_equiv _ _ Hr).
Qed.

(** ** Signing and verification *)

(** An attestation verifies exactly when its signature is one of the canonical
    text of its other fields, which pass validation. *)
Lemma verify_attestation_iff d key :
  verify_attestation (PDict d) key = Ok true ↔
  ∃ text raw message, assoc_get "signature" d = Some (PStr text) ∧ std_b64decode text = Ok raw ∧
    validate_payload (PDict (assoc_remove "signature" d)) = Ok (assoc_remove "signature" d) ∧
    canonicalize (assoc_remove "signature" d) = Ok message ∧ attest_verify key message raw = true.
Proof.
  unfold verify_attestation, assoc_has, dict_get.
  destruct (assoc_get "signature" d) as [[| | | |text| | |]|] eqn:Es; 
    try (split; [intros H; discriminate H|intros (? & ? & ? & ? & _); congruence]).
  unfold fail_if. simpl negb. split.
  - intros H. change (negb true) with false in H. unfold mbind, res_bind, res_except in H.
    destruct (validate_payload _) as [p|] eqn:Ev; [|done].
    pose proof (validate_payload_ok _ _ Ev) as [= <-].
    destruct (std_b64decode text) as [raw|e] eqn:Er; [|by destruct (is_ValueError e)].
    destruct (canonicalize _) as [m|] eqn:Ec; [|done]. injection H as H. eauto 10.
  - intros (t & raw & m & [= <-] & Hr & Hv & Hc & Hk). unfold mbind, res_bind, res_except.
    by rewrite Hv, Hr, Hc, Hk.
Qed.

(** Fields that differ are signed as different texts. *)
Lemma altered_message d d' k m :
  canonicalize d = Ok m → canonicalize d' = Ok m →
  json_safe compact_style (PDict d) = true → json_safe compact_style (PDict d') = true →
  wf (PDict d) = true → wf (PDict d') = true →
  norm <$> assoc_get k d = norm <$> assoc_get k d'.
Proof.
  intros H%json_dumps_ok H'%json_dumps_ok Hs Hs' Hw Hw'.
  rewrite H in H'. apply (json_text_inj compact_style) in H'; [|done..].
  apply norm_dict_get; [| |done].
  - by apply wf_dict in Hw as [? _].
  - by apply wf_dict in Hw' as [? _].
Qed.

Lemma attest_sign_verifies `{L : !AttestLaws K} key random message signature :
  attest_sign key random message = Ok signature → attest_verify (public_of key) message signature = true.
Proof.
  destruct key as [k|k|]; simpl; [|intros [= <-]; apply ecdsa_verifies|done].
  unfold fail_if. destruct (rsa_key_size (rsa_public_of k) <? 2048); [done|].
  intros [= <-]. apply pss_verifies.
Qed.

(** An attestation just signed verifies under the public key. *)
Lemma signed_attestation_verifies `{L : !AttestLaws K} d key random a :
  assoc_has "signature" d = false → sign_attestation (PDict d) key random = Ok a →
  verify_attestation (PDict a) (public_of key) = Ok true.
Proof.
  unfold assoc_has. destruct (assoc_get "signature" d) eqn:Ed; [done|]. intros _ H.
  unfold sign_attestation in H. apply res_bind_ok in H as (d' & Hv & H).
  pose proof (validate_payload_ok _ _ Hv) as [= <-].
  apply res_bind_ok in H as (m & Hm & H). apply res_bind_ok in H as (s & Hs & [= <-]).
  assert (assoc_remove "signature" (assoc_set "signature" (PStr (std_b64encode s)) d) = d) as Hr.
  { rewrite assoc_set_absent by done. unfold assoc_remove. rewrite List.filter_app.
    change (assoc_remove "signature" d ++ [] = d). rewrite app_nil_r. by apply assoc_remove_absent. }
  apply verify_attestation_iff. exists (std_b64encode s), s, m. rewrite assoc_get_set_eq, Hr.
  split_and!; [done|apply std_b64decode_encode|done..|]. by eapply attest_sign_verifies.
Qed.

(** So does the attestation that its line of the ledger holds, if its texts are
    Unicode; the file it is read from has its keys sorted. *)
Lemma ledger_line_verifies `{L : !AttestLaws K} d key random a ledger text :
  assoc_has "signature" d = false → sign_attestation (PDict d) key random = Ok a →
  json_safe compact_style (PDict a) = true → wf (PDict a) = true →
  json_loads text = Ok (PDict (norm_entries a)) →
  ∃ line a', append_to_ledger text ledger = Ok (ledger +:+ line +:+ newline) ∧
    json_loads line = Ok (PDict a') ∧ verify_attestation (PDict a') (public_of key) = Ok true.
Proof.
  intros Hd Ha Hs Hw Ht. exists (json_text compact_style (PDict a)), (norm_entries a). split_and!.
  - unfold append_to_ledger. rewrite Ht. unfold mbind, res_bind, json_dumps.
    by rewrite <-norm_PDict, serializable_norm, json_text_norm, (json_safe_serializable _ _ Hs).
  - rewrite <-norm_PDict. apply (json_loads_dumps compact_style); [done..|]. by apply json_dumps_safe.
  - assert (NoDup (fst <$> a)) as Hnd by (by apply wf_dict in Hw as [? _]).
    rewrite (verify_attestation_equiv a (norm_entries a)); [by eapply signed_attestation_verifies|done| |].
    + unfold norm_entries. rewrite sort_by_Permutation. by rewrite <-list_fmap_compose.
    + by rewrite <-norm_PDict, norm_idemp.
Qed.

(** What [generate] writes verifies, under a key that [verify] accepts. *)
Lemma generated_attestation_verifies `{L : !AttestLaws K} pr_id actor approver policy_id risk_score rationale
    commit_sha key write now random a :
  generate_main pr_id actor approver policy_id risk_score rationale commit_sha (Ok key) write now random
    = Ok (0, Some a) →
  verify_attestation (PDict a) (public_of key) = Ok true.
Proof.
  unfold generate_main, build_attestation. destruct (negb _); [done|].
  unfold mbind, res_bind. match goal with |- context [sign_attestation ?v key random] => set (payload := v) end.
  destruct (sign_attestation payload key random) as [a'|e] eqn:Ha.
  - destruct write as [[]|e]; [intros [= <-]|by destruct (_ || _)].
    by apply signed_attestation_verifies in Ha.
  - by destruct (_ || _).
Qed.

End Attest.

(** ** Examples *)

#[export] Instance toy_attest : AttestKeys := {|
  RSAPrivateKey := Z; RSAPublicKey := Z; ECPrivateKey := string; ECPublicKey := string;
  rsa_public_of := λ k, k; ec_public_of := λ k, k; rsa_key_size := λ k, k;
  pss_sign := λ _ _ m, m; pss_verify := λ _ s m, String.eqb s m;
  ecdsa_sign := λ k _ m, k +:+ m; ecdsa_sha256_verify := λ k s m, String.eqb s (k +:+ m)
|}.
#[export] Instance toy_attest_laws : AttestLaws toy_attest.
Proof. split; intros; apply String.eqb_refl. Qed.

Definition example_key : attest_private (K := toy_attest) := ECSigning (K := toy_attest) "k".
Definition example_payload : pydict :=
  [("pr_id", PInt 7); ("actor", PStr "bot"); ("approver", PStr "alice"); ("policy_id", PStr "p-1");
   ("risk_score", PInt 3); ("rationale", PStr "checks passed"); ("timestamp", PStr "2026-01-01T00:00:00+00:00");
   ("commit_sha", PStr "abc")].
Definition example_attestation : pydict :=
  match sign_attestation (PDict example_payload) example_key "" with Ok a => a | Raise _ => [] end.

Lemma ledger_line_verifies_witness :
  ∃ line a', append_to_ledger (json_text compact_style (PDict example_attestation)) "" = Ok ("" +:+ line +:+ newline) ∧
    json_loads line = Ok (PDict a') ∧ verify_attestation (PDict a') (public_of example_key) = Ok true.
Proof.
  assert (sign_attestation (PDict example_payload) example_key "" = Ok example_attestation) as Hs
    by (vm_compute; reflexivity).
  destruct (ledger_line_verifies example_payload example_key "" example_attestation ""
    (json_text compact_style (PDict example_attestation))) as (line & a' & H); [reflexivity| | | | |by exists line, a'].
  all: vm_compute; reflexivity.
Defined.

(** A payload that has a signature already is signed over it, and verification
    leaves every signature out: the result never verifies. *)
Example resigned_attestation_fails :
  (a ← sign_attestation (PDict example_attestation) example_key "";
   verify_attestation (PDict a) (public_of example_key)) = Ok false.
Proof. vm_compute. reflexivity. Qed.

(** A risk score that no double holds ends the command in a traceback:
    [OverflowError] is not one of the errors that [main] reports. *)
Example huge_risk_uncaught :
  ∃ text, verify_main (Ok text) (Ok (public_of example_key)) =
    Raise (OverflowError "int too large to convert to float").
Proof.
  exists (json_text compact_style (PDict (assoc_set "risk_score" (PInt (2 ^ 1024)) example_attestation))).
  vm_compute. reflexivity.
Qed.
