(* ===== verification/DemoPr.v ===== *)
(** demo/: the life of a pull request of an agent, with the policy that flags it
    (pr_policy.py), the approvals that count (bot.py), the signed record and the
    audit chain (attest.py), and the whole offline run (simulate.py).

    A GitHub repository is a parameter that answers requests.  The file shows
    when a change is flagged, whose approval counts, that records verify and that
    their chain commits to every record but not to the end of the log. *)

From S2P Require Import Prelude PyFloat PyVal Json Sha256 Base64 Crypto Models Policy Arbiter Rbac Orders SemVer PyText Base64Strict Regex.

(** [value.get(key, default)] *)
Definition py_get (value : pyval) (key : string) (default : pyval) : res pyval :=
  match value with
  | PDict d => Ok (dict_get_or key default d)
  | _ => Raise (AttributeError "get")
  end.

(** [value[key]] *)
Definition py_item (value : pyval) (key : string) : res pyval :=
  match value with
  | PDict d => match assoc_get key d with Some v => Ok v | None => Raise (KeyError key) end
  | _ => Raise (TypeError "indices must be integers")
  end.

(** [for x in value] *)
Definition py_iter (value : pyval) : res (list pyval) :=
  match value with
  | PList l => Ok l
  | PDict d => Ok (map (λ kv, PStr kv.1) d)
  | PStr s => Ok (map PStr (split_chars "" s))
  | _ => Raise (TypeError "object is not iterable")
  end.

(** [canonical] of attest.py and pr_policy.py *)
Definition demo_canonical (value : pyval) : res string := json_dumps compact_style value.

(** * pr_policy.py *)

Definition SCHEMA_VERSION : string := "gaa-demo-policy-result/v1".
Definition PROTECTED_PREFIXES : list string := ["src/"; ".github/"; "deploy/"; "schemas/"].
Definition AI_LABEL : string := "ai-authored".
Definition AI_LOGIN_SUFFIXES : list string := ["-bot"; "[bot]"].
Definition MAX_CHANGED_LINES : Z := 200.

Definition has_suffix (suffix s : string) : bool :=
  (String.length suffix <=? String.length s)%nat &&
  String.eqb (String.substring (String.length s - String.length suffix) (String.length suffix) s) suffix.

Definition has_prefix_of (prefixes : list string) (s : string) : bool :=
  existsb (λ p, String.prefix p s) prefixes.

Section Policy.
Context `{U : UnicodeData}.

Definition pr_login (pr : pyval) : res string :=
  user ← py_get pr "user" PNone;
  login ← py_get (py_or user (PDict [])) "login" (PStr "");
  Ok (py_str login).

Definition pr_labels (pr : pyval) : res (list string) :=
  labels ← py_get pr "labels" PNone;
  items ← py_iter (py_or labels (PList []));
  mapM_res (λ label, name ← py_get label "name" (PStr ""); Ok (py_str name)) items.

Definition ai_authored (login : string) (labels : list string) : bool :=
  bool_decide (AI_LABEL ∈ labels) || existsb (λ s, has_suffix s login) AI_LOGIN_SUFFIXES.

(** The name of a file, if its path is protected; only a text can be. *)
Definition protected_name (f : pyval) : res (option string) :=
  name ← py_get f "filename" (PStr "");
  Ok match name with
     | PStr s => if has_prefix_of PROTECTED_PREFIXES s then Some s else None
     | _ => None
     end.

Fixpoint somes {A} (l : list (option A)) : list A :=
  match l with [] => [] | Some x :: l => x :: somes l | None :: l => somes l end.

Definition changed_lines (f : pyval) : res Z :=
  additions ← py_get f "additions" (PInt 0); a ← py_int additions;
  deletions ← py_get f "deletions" (PInt 0); d ← py_int deletions;
  Ok (a + d).

Definition pr_reasons (files : pyval) : res (list string) :=
  fs ← py_iter files;
  names ← mapM_res protected_name fs;
  counts ← mapM_res changed_lines fs;
  let changed := fold_right Z.add 0 counts in
  Ok (map (λ name, "ai-authored change touches protected path: " +:+ name) (sort_strings (dedup (somes names))) ++
      (if MAX_CHANGED_LINES <? changed
       then ["ai-authored change exceeds " +:+ string_of_Z MAX_CHANGED_LINES +:+ " changed lines (" +:+
             string_of_Z changed +:+ ")"] else [])).

Definition evaluate (pr files : pyval) : res pydict :=
  login ← pr_login pr;
  labels ← pr_labels pr;
  reasons ← if ai_authored login labels then pr_reasons files else Ok [];
  let flagged := negb (match reasons with [] => true | _ => false end) in
  number ← py_get pr "number" (PInt 0); number ← py_int number;
  head ← py_get pr "head" PNone;
  sha ← py_get (py_or head (PDict [])) "sha" (PStr "");
  text ← demo_canonical (PDict [("pr", pr); ("files", files)]);
  Ok [("schema_version", PStr SCHEMA_VERSION);
      ("status", PStr (if flagged then "flag_requires_human_approval" else "pass"));
      ("requires_human_approval", PBool flagged);
      ("pr_number", PInt number);
      ("head_sha", PStr (py_str sha));
      ("reasons", PList (map PStr reasons));
      ("input_digest", PStr (sha256_hex text))].

End Policy.

(** * attest.py *)

Definition SIGNING_KEY_ENV : string := "GAA_DEMO_SIGNING_KEY".
Definition SIMULATION_SEED : string := sha256_bytes "gaa-demo-simulation-key-not-secret".

Section Records.
Context `{C : Crypto}.

(** [vars] is the environment. *)
Definition load_private_key (vars : list (string * string)) (simulated : bool) : res PrivateKey :=
  let from_seed seed := match from_private_bytes seed with
                        | Some key => Ok key
                        | None => Raise (ValueError "An Ed25519 private key is 32 bytes long")
                        end in
  if simulated then from_seed SIMULATION_SEED else
  let raw := match assoc_get SIGNING_KEY_ENV vars with Some v => v | None => "" end in
  fail_if (String.eqb raw "") (SystemExit (SIGNING_KEY_ENV +:+ " is required for live signing")) ;;
  res_except (seed ← std_b64decode raw; from_seed seed)
    (λ e, if is_ValueError e
          then Some (SystemExit (SIGNING_KEY_ENV +:+ " must be base64 of a 32-byte Ed25519 seed")) else None).

Definition public_key_b64 (key : PrivateKey) : string :=
  std_b64encode (public_bytes_raw (private_public_key key)).

Definition sign_gaa (claims : pyval) (key : PrivateKey) : res pydict :=
  text ← demo_canonical claims;
  Ok [("claims", claims); ("public_key", PStr (public_key_b64 key));
      ("signature", PStr (std_b64encode (ed25519_sign key text)))].

(** [base64.b64decode(value, validate=True)] of any value *)
Definition decode_value (value : pyval) : res string :=
  match value with
  | PStr text => std_b64decode text
  | _ => Raise (TypeError "argument should be a bytes-like object or ASCII string")
  end.

(** The embedded key is the trusted one, if one is given. *)
Definition embedded_trusted (gaa : pyval) (trusted_public_key : option string) : res bool :=
  match trusted_public_key with
  | Some trusted => embedded ← py_item gaa "public_key"; Ok (py_eqb embedded (PStr trusted))
  | None => Ok true
  end.

Definition read_public_key (raw : string) : res PublicKey :=
  match from_public_bytes raw with
  | Some public => Ok public
  | None => Raise (ValueError "An Ed25519 public key is 32 bytes long")
  end.

Definition verify_embedded (gaa : pyval) : res bool :=
  embedded ← py_item gaa "public_key"; raw ← decode_value embedded; public ← read_public_key raw;
  encoded ← py_item gaa "signature"; signature ← decode_value encoded;
  claims ← py_item gaa "claims"; text ← demo_canonical claims;
  Ok (ed25519_verify public signature text).

Definition verify_gaa (gaa : pyval) (trusted_public_key : option string) : res bool :=
  match trusted ← embedded_trusted gaa trusted_public_key;
        if trusted : bool then verify_embedded gaa else Ok false with
  | Ok b => Ok b
  | Raise e => if is_KeyError e || is_TypeError e || is_ValueError e then Ok false else Raise e
  end.

Definition build_claims (policy_result : pyval) (approver : string) (simulated : bool) (issued_at : string)
    : res pydict :=
  pr_number ← py_item policy_result "pr_number";
  head_sha ← py_item policy_result "head_sha";
  digest ← py_item policy_result "input_digest";
  status ← py_item policy_result "status";
  Ok [("type", PStr "gaa-demo/v1"); ("pr_number", pr_number); ("head_sha", head_sha);
      ("policy_input_digest", digest); ("policy_status", status); ("approved_by", PStr approver);
      ("approval_simulated", PBool simulated); ("issued_at", PStr issued_at)].

End Records.

(** ** [AuditLog] *)

Definition zeros : string := repeat_char "0" 64.

Definition audit_body (seq : nat) (event timestamp : string) (data : pydict) (prev : pyval) : pydict :=
  [("seq", PInt (Z.of_nat seq)); ("event", PStr event); ("timestamp", PStr timestamp); ("data", PDict data);
   ("prev_hash", prev)].

(** [append]: the records after the call; every record holds a hash. *)
Definition audit_append (event timestamp : string) (data : pydict) (records : list pydict)
    : res (list pydict) :=
  prev ← match last records with Some r => py_item (PDict r) "hash" | None => Ok (PStr zeros) end;
  let body := audit_body (length records) event timestamp data prev in
  text ← demo_canonical (PDict body);
  Ok (records ++ [body ++ [("hash", PStr (sha256_hex text))]]).

(** [AuditLog.verify] from [index] on, where [prev] is the hash before *)
Fixpoint audit_verify_from (index : nat) (prev : pyval) (records : list pyval) : res bool :=
  match records with
  | [] => Ok true
  | PDict record :: records =>
      let body := assoc_remove "hash" record in
      if negb (py_eqb (dict_get "seq" record) (PInt (Z.of_nat index))) ||
         negb (py_eqb (dict_get "prev_hash" body) prev) then Ok false else
      text ← demo_canonical (PDict body);
      if negb (py_eqb (PStr (sha256_hex text)) (dict_get "hash" record)) then Ok false else
      hash ← py_item (PDict record) "hash";
      audit_verify_from (S index) hash records
  | _ :: _ => Raise (AttributeError "items")
  end.
Definition audit_verify (records : list pyval) : res bool := audit_verify_from 0 (PStr zeros) records.

(** ** [main], the commands [verify] and [verify-audit] on the file's value *)

Definition exit_code (ok : bool) : Z := if ok then 0 else 1.
Definition demo_verify_main `{C : Crypto} (data : pyval) (trusted : option string) : res Z :=
  ok ← verify_gaa data trusted; Ok (exit_code ok).
Definition demo_verify_audit_main (data : pyval) : res Z :=
  records ← py_item data "records"; records ← py_iter records;
  ok ← audit_verify records; Ok (exit_code ok).

(** * bot.py *)

Definition BOT_LOGIN : string := "ai-agent-bot".
Definition CHANGE_PATH : string := "src/governed_autonomy/_demo_ai_change.py".
Definition quotes3 : string := dquote +:+ dquote +:+ dquote.
Definition CHANGE_BODY : string :=
  quotes3 +:+ "Simulated AI-authored change for the governed-autonomy demo." +:+ quotes3 +:+ chr 10 +:+ chr 10 +:+
  "DEMO_VALUE = 1" +:+ chr 10.

(** [[A-Za-z0-9_.-]] and [[A-Za-z0-9._-]] *)
Definition repo_char (c : ascii) : bool :=
  ascii_in 65 90 c || ascii_in 97 122 c || ascii_in 48 57 c ||
  Ascii.eqb c "_" || Ascii.eqb c "." || Ascii.eqb c "-".
Definition REPO_RE : regex := rseq [rplus repo_char; RChar (Ascii.eqb "/"); rplus repo_char; REnd].
Definition branch_suffix (s : string) : bool :=
  all_chars repo_char s && (1 <=? String.length s)%nat && (String.length s <=? 40)%nat.

Record Github := { gh_repo : string; gh_token : string; gh_api_url : string }.

Fixpoint rstrip_slash (s : string) : string :=
  match s with
  | EmptyString => ""
  | String c s =>
      let r := rstrip_slash s in
      if String.eqb r "" && Ascii.eqb c "/" then "" else String c r
  end.

(** [Github.__init__] *)
Definition github_init (repo token api_url : string) : res Github :=
  fail_if (match re_match REPO_RE repo with Some _ => false | None => true end)
    (SystemExit "GAA_DEMO_REPO must look like owner/name") ;;
  fail_if (negb (String.prefix "https://" api_url)) (SystemExit "GAA_DEMO_API_URL must use https") ;;
  Ok {| gh_repo := repo; gh_token := token; gh_api_url := rstrip_slash api_url |}.

(** What is sent; the token is in the header [Authorization]. *)
Record github_request := {
  gq_method : string; gq_url : string; gq_body : option pyval; gq_authorization : string
}.
(** A JSON answer, or the code of an [HTTPError]. *)
Inductive github_answer := GAnswer (value : pyval) | GError (code : Z).

Definition dry_run_pr : pyval :=
  PDict [("number", PInt 1); ("title", PStr "AI: widen default rate limit");
         ("user", PDict [("login", PStr BOT_LOGIN)]);
         ("head", PDict [("sha", PStr "0123456789abcdef0123456789abcdef01234567")]);
         ("base", PDict [("ref", PStr "main")]);
         ("labels", PList [PDict [("name", PStr AI_LABEL)]]); ("simulated", PBool true)].

(** [review.get("state") in (…)] *)
Definition review_counts (state : pyval) : bool :=
  match state with
  | PStr s => bool_decide (s ∈ ["APPROVED"; "CHANGES_REQUESTED"; "DISMISSED"])
  | _ => false
  end.

(** The loop over the reviews; a login that is no text is outside the model. *)
Fixpoint latest_reviews (reviews : list pyval) (latest : list (string * pyval)) : res (list (string * pyval)) :=
  match reviews with
  | [] => Ok latest
  | review :: reviews =>
      state ← py_get review "state" PNone;
      if review_counts state then
        user ← py_item review "user"; login ← py_item user "login";
        match login with
        | PStr login => latest_reviews reviews (assoc_set login review latest)
        | _ => unmodelled "a login that is not a text"
        end
      else latest_reviews reviews latest
  end.

Definition approves (head_sha : pyval) (author : pyval) (entry : string * pyval) : res bool :=
  state ← py_item entry.2 "state";
  if negb (py_eqb state (PStr "APPROVED")) then Ok false else
  commit ← py_get entry.2 "commit_id" PNone;
  Ok (py_eqb commit head_sha && negb (py_eqb (PStr entry.1) author)).

Definition real_approvers (reviews head_sha author : pyval) : res (list string) :=
  items ← py_iter reviews;
  latest ← latest_reviews items [];
  kept ← mapM_res (λ entry, b ← approves head_sha author entry; Ok (if b : bool then Some entry.1 else None)) latest;
  Ok (sort_strings (somes kept)).

Section Bot.
Context {W : Type} (urlopen : github_request → M W github_answer) (warn : string → M W unit)
  (vars : list (string * string)).

(** [Github.call] *)
Definition github_call (gh : Github) (method path : string) (body : option pyval) : M W pyval :=
  answer ← urlopen {| gq_method := method; gq_body := body;
                      gq_url := gh_api_url gh +:+ "/repos/" +:+ gh_repo gh +:+ path;
                      gq_authorization := "Bearer " +:+ gh_token gh |};
  match answer with
  | GAnswer value => mret value
  | GError code =>
      raise (SystemExit ("GitHub API " +:+ method +:+ " " +:+ path +:+ " failed: HTTP " +:+ string_of_Z code))
  end.

Definition env_or (name default : string) : string :=
  match assoc_get name vars with Some v => v | None => default end.

Definition env_settings : res (string * string * string * string) :=
  let repo := env_or "GAA_DEMO_REPO" "" in
  let token := env_or "GAA_DEMO_TOKEN" "" in
  fail_if (String.eqb repo "" || String.eqb token "")
    (SystemExit "live mode requires GAA_DEMO_REPO and GAA_DEMO_TOKEN") ;;
  Ok (repo, token, env_or "GAA_DEMO_BASE_BRANCH" "main", env_or "GAA_DEMO_API_URL" "https://api.github.com").

Definition open_live_pr (suffix : string) : M W pyval :=
  '(repo, token, base, api_url) ← lift_res env_settings;
  gh ← lift_res (github_init repo token api_url);
  raise_if (negb (branch_suffix suffix)) (SystemExit "--branch-suffix must match [A-Za-z0-9._-]{1,40}") ;;
  let branch := "ai/demo-" +:+ suffix in
  ref ← github_call gh "GET" ("/git/ref/heads/" +:+ base) None;
  base_sha ← lift_res (object ← py_item ref "object"; py_item object "sha");
  github_call gh "POST" "/git/refs" (Some (PDict [("ref", PStr ("refs/heads/" +:+ branch)); ("sha", base_sha)])) ;;
  github_call gh "PUT" ("/contents/" +:+ CHANGE_PATH) (Some (PDict
    [("message", PStr "AI: simulated demo change"); ("content", PStr (std_b64encode CHANGE_BODY));
     ("branch", PStr branch)])) ;;
  pr ← github_call gh "POST" "/pulls" (Some (PDict
    [("title", PStr "AI: simulated governed-autonomy demo change"); ("head", PStr branch); ("base", PStr base);
     ("body", PStr "Simulated AI-authored change. Requires explicit human approval before merge.")]));
  try_except
    (number ← lift_res (py_item pr "number");
     github_call gh "POST" ("/issues/" +:+ py_str number +:+ "/labels")
       (Some (PDict [("labels", PList [PStr AI_LABEL])])) ;; mret tt)
    (λ e, if is_SystemExit e
          then Some (warn ("warning: could not add '" +:+ AI_LABEL +:+ "' label; add it manually")) else None) ;;
  lift_res (number ← py_item pr "number"; url ← py_item pr "html_url"; head ← py_item pr "head";
            sha ← py_item head "sha";
            Ok (PDict [("number", number); ("html_url", url); ("head_sha", sha)])).

(** Only the first hundred reviews are asked for. *)
Definition fetch_approvers (number : Z) : M W (list string) :=
  '(repo, token, _, api_url) ← lift_res env_settings;
  gh ← lift_res (github_init repo token api_url);
  pr ← github_call gh "GET" ("/pulls/" +:+ string_of_Z number) None;
  reviews ← github_call gh "GET" ("/pulls/" +:+ string_of_Z number +:+ "/reviews?per_page=100") None;
  lift_res (head ← py_item pr "head"; sha ← py_item head "sha"; user ← py_item pr "user";
            login ← py_item user "login"; real_approvers reviews sha login).

(** [main] after argparse: what is printed as JSON. *)
Inductive bot_command := OpenPr (live : bool) (suffix : string) | Approvals (pr : Z).
Definition bot_main (command : bot_command) : M W pyval :=
  match command with
  | OpenPr true suffix => open_live_pr suffix
  | OpenPr false _ => mret (PDict [("dry_run", PBool true); ("pull_request", dry_run_pr)])
  | Approvals pr =>
      approvers ← fetch_approvers pr;
      mret (PDict [("pr", PInt pr); ("approvers", PList (map PStr approvers))])
  end.

End Bot.

(** * simulate.py *)

Definition SIM_APPROVER : string := "simulated-human-reviewer".
Definition clock (i : Z) : string := "2026-01-01T00:00:0" +:+ string_of_Z i +:+ "Z".

Section Simulate.
Context `{U : UnicodeData, C : Crypto}.

(** What a run leaves: the files it writes, as values, and its summary. *)
Record demo_outcome := { do_files : list (string * pyval); do_summary : pydict }.

(** The part of the run behind the policy: records, summary and the record file. *)
Definition simulate_gaa (policy : pydict) (number : pyval) (records : list pydict)
    : res (list pydict * pydict * pyval) :=
  key ← load_private_key [] true;
  claims ← build_claims (PDict policy) SIM_APPROVER true (clock 3);
  gaa ← sign_gaa (PDict claims) key;
  records ← audit_append "gaa_signed" (clock 3) [("public_key", dict_get "public_key" gaa)] records;
  verified ← verify_gaa (PDict gaa) (Some (public_key_b64 key));
  records ← audit_append "gaa_verified" (clock 4) [("valid", PBool verified)] records;
  let summary := [("policy_status", dict_get "status" policy); ("merge_ready", PBool verified);
                  ("gaa_valid", PBool verified)] in
  if verified : bool then
    records ← audit_append "merge_ready" (clock 5)
                [("pr_number", number); ("note", PStr "a human must still merge")] records;
    Ok (records, summary, PDict gaa)
  else Ok (records, summary, PDict gaa).

Definition approval_note : pydict :=
  [("approver", PStr SIM_APPROVER); ("simulated", PBool true);
   ("note", PStr "modeled approval; in live mode this is read from GitHub reviews")].

(** [run]; [fixture] is the value of the fixture's file. *)
Definition simulate_run (fixture : pyval) (approve : bool) : res demo_outcome :=
  let pr := dry_run_pr in
  number ← py_item pr "number"; user ← py_item pr "user"; login ← py_item user "login";
  records ← audit_append "pr_opened" (clock 0)
              [("pr_number", number); ("author", login); ("simulated", PBool true)] [];
  request ← py_item fixture "pull_request"; files ← py_item fixture "files";
  policy ← evaluate request files;
  records ← audit_append "policy_evaluated" (clock 1)
              [("status", dict_get "status" policy); ("reasons", dict_get "reasons" policy)] records;
  let flagged := truthy (dict_get "requires_human_approval" policy) in
  '(records, summary, gaa) ←
    if flagged && negb approve then
      Ok (records, [("policy_status", dict_get "status" policy); ("merge_ready", PBool false);
                    ("note", PStr "awaiting human approval; no GAA issued")], [])
    else
      records ← if flagged then audit_append "human_approved" (clock 2) approval_note records else Ok records;
      '(records, summary, gaa) ← simulate_gaa policy number records;
      Ok (records, summary, [("gaa.json", gaa)]);
  valid ← audit_verify (map PDict records);
  Ok {| do_files := ("policy-result.json", PDict policy) :: gaa ++
                    [("audit.json", PDict [("records", PList (map PDict records))])];
        do_summary := summary ++ [("audit_chain_valid", PBool valid);
                                  ("audit_events", PList (map (dict_get "event") records))] |}.

End Simulate.

(** * What the program shows *)

(** ** The policy *)

Lemma elem_of_somes {A} (x : A) l : x ∈ somes l ↔ Some x ∈ l.
Proof. induction l as [|[y|] l IH]; simpl; set_solver. Qed.

(** A change is flagged exactly when an agent wrote it and it touches a protected
    path or is longer than the limit. *)
Lemma evaluate_flags `{U : UnicodeData} pr files r :
  evaluate pr files = Ok r →
  ∃ login labels, pr_login pr = Ok login ∧ pr_labels pr = Ok labels ∧
    (dict_get "requires_human_approval" r = PBool true ↔
     ai_authored login labels = true ∧ ∃ fs names counts,
       py_iter files = Ok fs ∧ mapM_res protected_name fs = Ok names ∧ mapM_res changed_lines fs = Ok counts ∧
       ((∃ name, Some name ∈ names) ∨ MAX_CHANGED_LINES < fold_right Z.add 0 counts)).
Proof.
  unfold evaluate. intros H. apply res_bind_ok in H as (login & Hl & H).
  apply res_bind_ok in H as (labels & Hb & H). apply res_bind_ok in H as (reasons & Hr & H).
  do 5 (apply res_bind_ok in H as (? & _ & H)). injection H as <-.
  exists login, labels. split; [done|]. split; [done|].
  change (dict_get "requires_human_approval" _) with
    (PBool (negb (match reasons with [] => true | _ => false end))).
  destruct (ai_authored login labels).
  2:{ injection Hr as <-. split; [intros [=]|intros [[=] _]]. }
  unfold pr_reasons in Hr. apply res_bind_ok in Hr as (fs & Hfs & Hr).
  apply res_bind_ok in Hr as (names & Hn & Hr). apply res_bind_ok in Hr as (counts & Hc & Hr).
  injection Hr as <-. split.
  - intros [= H]. split; [done|]. exists fs, names, counts. split_and!; [done..|].
    destruct (sort_strings (dedup (somes names))) as [|n l] eqn:E.
    + right. simpl in H. destruct (MAX_CHANGED_LINES <? _) eqn:E'; [lia|done].
    + left. exists n. apply elem_of_somes, elem_of_sorted_dedup. rewrite E. by left.
  - intros [_ (fs' & names' & counts' & Hfs' & Hn' & Hc' & H)].
    rewrite Hfs in Hfs'. injection Hfs' as <-. rewrite Hn in Hn'. injection Hn' as <-.
    rewrite Hc in Hc'. injection Hc' as <-. f_equal.
    destruct H as [[n Hin]|Hlt].
    + apply elem_of_somes, elem_of_sorted_dedup in Hin.
      destruct (sort_strings (dedup (somes names))); [by apply not_elem_of_nil in Hin|done].
    + assert ((MAX_CHANGED_LINES <? fold_right Z.add 0 counts) = true) as -> by lia.
      by destruct (map _ _).
Qed.

(** ** The approvals that count *)

(** A review of [login] that changes its stand. *)
Definition review_of (login : string) (review : pyval) : bool :=
  match py_get review "state" PNone, user ← py_item review "user"; py_item user "login" with
  | Ok state, Ok v => review_counts state && py_eqb v (PStr login)
  | _, _ => false
  end.

Lemma latest_reviews_spec reviews acc latest :
  latest_reviews reviews acc = Ok latest → List.NoDup (map fst acc) →
  List.NoDup (map fst latest) ∧ ∀ login, assoc_get login latest =
    match last (List.filter (review_of login) reviews) with Some r => Some r | None => assoc_get login acc end.
Proof.
  revert acc. induction reviews as [|review reviews IH]; intros acc H Hacc; cbn [latest_reviews] in H.
  { by injection H as <-. }
  apply res_bind_ok in H as (state & Hs & H).
  destruct (review_counts state) eqn:Ec.
  - apply res_bind_ok in H as (user & Hu & H). apply res_bind_ok in H as (v & Hv & H).
    destruct v as [| | | |who| | |]; try done.
    destruct (IH _ H (assoc_set_NoDup _ _ _ Hacc)) as [Hnd Hget]. split; [done|]. intros login. rewrite Hget.
    cbn [List.filter]. unfold review_of at 2. rewrite Hs, Hu. unfold mbind, res_bind. rewrite Hv, Ec. simpl.
    destruct (String.eqb_spec who login) as [->|Hne].
    + rewrite last_cons. destruct (last (List.filter _ reviews)); [done|]. apply assoc_get_set_eq.
    + destruct (last (List.filter _ reviews)); [done|]. by apply assoc_get_set_ne.
  - destruct (IH _ H Hacc) as [Hnd Hget]. split; [done|]. intros login. rewrite Hget. cbn [List.filter].
    unfold review_of at 2. rewrite Hs, Ec. by destruct (user ← py_item review "user"; py_item user "login").
Qed.

(** A login approves exactly when its latest review that takes a stand approves
    the commit asked for, and it is not the author's. *)
Lemma real_approvers_iff reviews head_sha author logins login :
  real_approvers (PList reviews) head_sha author = Ok logins →
  login ∈ logins ↔
  ∃ review, last (List.filter (review_of login) reviews) = Some review ∧
    approves head_sha author (login, review) = Ok true.
Proof.
  unfold real_approvers. intros H. apply res_bind_ok in H as (items & [= <-] & H).
  apply res_bind_ok in H as (latest & Hl & H). apply res_bind_ok in H as (kept & Hk & [= <-]).
  destruct (latest_reviews_spec _ _ _ Hl ltac:(constructor)) as [Hnd Hget]. simpl in Hget.
  rewrite sort_by_Permutation, elem_of_somes.
  assert (∀ login, last (List.filter (review_of login) reviews) = assoc_get login latest) as Hlast.
  { intros l. rewrite Hget. by destruct (last _). }
  rewrite Hlast. clear -Hk Hnd. apply mapM_res_ok in Hk. split.
  - intros Hin. apply list_elem_of_lookup in Hin as [i Hi].
    destruct (Forall2_lookup_r _ _ _ _ _ Hk Hi) as ([l r] & Hlr & Hf). simpl in Hf.
    apply res_bind_ok in Hf as (b & Hb & Hf). destruct b; [|done]. injection Hf as ->.
    exists r. split; [|done]. apply assoc_In_get; [done|]. apply list_elem_of_In. by eapply list_elem_of_lookup_2.
  - intros (r & Hr & Ha). apply assoc_get_In in Hr. apply list_elem_of_In, list_elem_of_lookup in Hr as [i Hi].
    destruct (Forall2_lookup_l _ _ _ _ _ Hk Hi) as (k & Hk' & Hf). simpl in Hf. rewrite Ha in Hf.
    injection Hf as <-. by eapply list_elem_of_lookup_2.
Qed.

(** ** The audit chain *)

(** The hash the next record states, after the records [l]. *)
Definition end_hash (l : list pydict) : pyval :=
  match last l with Some r => dict_get "hash" r | None => PStr zeros end.

(** [r] is a record at [index] after the hash [prev]. *)
Definition chained (index : nat) (prev : pyval) (r : pydict) : Prop :=
  py_eqb (dict_get "seq" r) (PInt (Z.of_nat index)) = true ∧
  py_eqb (dict_get "prev_hash" (assoc_remove "hash" r)) prev = true ∧
  ∃ text, demo_canonical (PDict (assoc_remove "hash" r)) = Ok text ∧
    assoc_get "hash" r = Some (PStr (sha256_hex text)).

Lemma audit_verify_cons index prev r l :
  audit_verify_from index prev (PDict r :: l) = Ok true ↔
  chained index prev r ∧ audit_verify_from (S index) (dict_get "hash" r) l = Ok true.
Proof.
  cbn [audit_verify_from]. unfold chained.
  destruct (py_eqb (dict_get "seq" r) _); [|split; [intros [=]|intros [(? & _) _]; done]].
  destruct (py_eqb (dict_get "prev_hash" _) prev); [|split; [intros [=]|intros [(_ & ? & _) _]; done]].
  cbn [negb orb]. unfold mbind, res_bind.
  destruct (demo_canonical _) as [text|e];
    [|split; [intros [=]|intros [(_ & _ & ? & [=] & _) _]]].
  unfold dict_get. destruct (assoc_get "hash" r) as [h|] eqn:Eh.
  - destruct (py_eqb (PStr (sha256_hex text)) h) eqn:E; cbn [negb].
    + unfold py_item. rewrite Eh. destruct h; try done. apply String.eqb_eq in E as <-. split; [|naive_solver].
      intros H. split; [|done]. split_and!; [done..|]. by exists text.
    + split; [intros [=]|]. intros [(_ & _ & t & [= <-] & [= ->]) _].
      simpl in E. by rewrite String.eqb_refl in E.
  - split; [intros [=]|]. by intros [(_ & _ & t & _ & [=]) _].
Qed.

Lemma audit_verify_app index prev l r :
  audit_verify_from index prev (map PDict (l ++ [r])) = Ok true ↔
  audit_verify_from index prev (map PDict l) = Ok true ∧
  chained (index + length l) (match last l with Some r => dict_get "hash" r | None => prev end) r.
Proof.
  revert index prev. induction l as [|x l IH]; intros index prev; simpl map.
  - rewrite audit_verify_cons. simpl. rewrite Nat.add_0_r. naive_solver.
  - rewrite !audit_verify_cons, IH, last_cons. simpl length.
    replace (S index + length l)%nat with (index + S (length l))%nat by lia.
    destruct (last l); naive_solver.
Qed.

Lemma audit_verify_snoc l r :
  audit_verify (map PDict (l ++ [r])) = Ok true ↔
  audit_verify (map PDict l) = Ok true ∧ chained (length l) (end_hash l) r.
Proof. unfold audit_verify. by rewrite audit_verify_app. Qed.

(** A log that verifies still verifies with its last records left out. *)
Lemma audit_prefix_verifies l l' :
  audit_verify (map PDict (l ++ l')) = Ok true → audit_verify (map PDict l) = Ok true.
Proof.
  induction l' as [|r l' IH] using rev_ind; [by rewrite app_nil_r|].
  rewrite app_assoc, audit_verify_snoc. intros [? _]. by apply IH.
Qed.

(** Every record of a chain has its hash. *)
Lemma audit_end_item l :
  audit_verify (map PDict l) = Ok true →
  match last l with Some r => py_item (PDict r) "hash" | None => Ok (PStr zeros) end = Ok (end_hash l).
Proof.
  destruct l as [|r l _] using rev_ind; [done|].
  rewrite audit_verify_snoc. intros [_ (_ & _ & text & _ & Hh)].
  unfold end_hash, py_item, dict_get. by rewrite last_snoc, Hh.
Qed.

Lemma end_hash_str l : audit_verify (map PDict l) = Ok true → ∃ s, end_hash l = PStr s.
Proof.
  destruct l as [|r l _] using rev_ind; [by eexists|].
  rewrite audit_verify_snoc. intros [_ (_ & _ & text & _ & Hh)].
  unfold end_hash, dict_get. rewrite last_snoc, Hh. by eexists.
Qed.

(** What is appended keeps the chain. *)
Lemma audit_append_verifies event timestamp data l l' :
  audit_verify (map PDict l) = Ok true → audit_append event timestamp data l = Ok l' →
  audit_verify (map PDict l') = Ok true ∧ ∃ r, l' = l ++ [r] ∧ dict_get "event" r = PStr event.
Proof.
  intros Hl H. unfold audit_append in H. rewrite (audit_end_item l Hl) in H.
  apply res_bind_ok in H as (prev & [= <-] & H). apply res_bind_ok in H as (text & Ht & [= <-]).
  split; [|by eexists]. rewrite audit_verify_snoc. split; [done|].
  destruct (end_hash_str l Hl) as [s Hs]. rewrite Hs in *. unfold chained.
  change (assoc_remove "hash" _) with (audit_body (length l) event timestamp data (PStr s)).
  split_and!; [|apply String.eqb_refl|by exists text].
  change (pynum_eqb (NInt (Z.of_nat (length l))) (NInt (Z.of_nat (length l))) = true).
  rewrite pynum_eqb_int. apply Z.eqb_refl.
Qed.

(** Records with the same content, up to the order of entries. *)
Definition same_record (r s : pydict) : Prop :=
  norm (PDict (assoc_remove "hash" r)) = norm (PDict (assoc_remove "hash" s)) ∧
  dict_get "hash" r = dict_get "hash" s.

Definition json_record (r : pydict) : Prop :=
  json_safe compact_style (PDict r) = true ∧ wf (PDict r) = true.

Lemma json_record_body k r :
  json_record r → json_safe compact_style (PDict (assoc_remove k r)) = true ∧ wf (PDict (assoc_remove k r)) = true.
Proof.
  intros [Hs Hw]. split; [by apply assoc_remove_forallb|].
  apply wf_dict in Hw as [Hn Hw]. apply wf_dict. split; [by apply assoc_remove_NoDup|].
  rewrite Forall_forall in Hw |- *. intros x Hx. apply Hw. apply list_elem_of_In in Hx.
  unfold assoc_remove in Hx. apply filter_In in Hx as [? _]. by apply list_elem_of_In.
Qed.

(** A value is equal to one integer at most. *)
Lemma compare_int_inj i j f :
  compare_Z_float i f = Some Eq → compare_Z_float j f = Some Eq → i = j.
Proof.
  destruct f as [s|[]| |s m e]; simpl; try done.
  - intros [= ?%Z.compare_eq] [= ?%Z.compare_eq]. lia.
  - destruct (0 <=? e) eqn:He.
    + intros [= ?%Z.compare_eq] [= ?%Z.compare_eq]. lia.
    + intros [= H%Z.compare_eq] [= H'%Z.compare_eq]. rewrite <-H' in H.
      apply Z.mul_cancel_r in H; [done|]. apply Z.pow_nonzero; lia.
Qed.

Lemma py_eqb_int_inj v i j : py_eqb v (PInt i) = true → py_eqb v (PInt j) = true → i = j.
Proof.
  destruct v as [|b|z|f| | | |]; try done; simpl; unfold pynum_eqb; simpl.
  - destruct (_ ?= i) eqn:H; [|done..]. destruct (_ ?= j) eqn:H'; [|done..].
    intros _ _. apply Z.compare_eq in H, H'. congruence.
  - destruct (z ?= i) eqn:H; [|done..]. destruct (z ?= j) eqn:H'; [|done..].
    intros _ _. apply Z.compare_eq in H, H'. congruence.
  - destruct (compare_Z_float i f) as [[]|] eqn:H; try done.
    destruct (compare_Z_float j f) as [[]|] eqn:H'; try done. intros _ _. by eapply compare_int_inj.
Qed.

(** The text that the hash of a record is taken of. *)
Definition record_text (r : pydict) : string := json_text compact_style (PDict (assoc_remove "hash" r)).

(** The hash of a record binds its content, its place and the record before. *)
Lemma chained_binds i j prev prev' r s :
  chained i prev r → chained j prev' s → json_record r → json_record s →
  (∃ a b, prev = PStr a ∧ prev' = PStr b) → collision_free [record_text r; record_text s] →
  dict_get "hash" r = dict_get "hash" s → same_record r s ∧ i = j ∧ prev = prev'.
Proof.
  intros (Hi & Hp & text & Ht & Hh) (Hj & Hp' & text' & Ht' & Hh') Hr Hs (a & b & -> & ->) Hfree Heq.
  pose proof Heq as Heq'. unfold dict_get in Heq'. rewrite Hh, Hh' in Heq'. injection Heq' as Heq'.
  apply json_dumps_ok in Ht as ->. apply json_dumps_ok in Ht' as ->.
  pose proof (Hfree (record_text r) (record_text s) ltac:(by left) ltac:(by right; left) Heq') as Ht'.
  destruct (json_record_body "hash" r Hr) as [Hrs Hrw]. destruct (json_record_body "hash" s Hs) as [Hss Hsw].
  apply (json_text_inj compact_style) in Ht'; [|done..].
  assert (∀ k, norm (dict_get k (assoc_remove "hash" s)) = norm (dict_get k (assoc_remove "hash" r))) as Hk.
  { intros k. apply norm_get; [by apply wf_dict in Hrw as [? _]|by apply wf_dict in Hsw as [? _]|done]. }
  split; [done|]. split.
  - specialize (Hk "seq"). unfold dict_get in Hk, Hi, Hj. rewrite !assoc_get_remove_ne in Hk by done.
    assert (∀ v, py_eqb v (PInt (Z.of_nat i)) = true → norm v = v) as Hn.
    { intros v. by destruct v. }
    assert (∀ v, py_eqb v (PInt (Z.of_nat j)) = true → norm v = v) as Hn'.
    { intros v. by destruct v. }
    rewrite (Hn _ Hi), (Hn' _ Hj) in Hk. rewrite Hk in Hj.
    apply Nat2Z.inj. by eapply py_eqb_int_inj.
  - specialize (Hk "prev_hash"). apply py_eqb_str in Hp, Hp'. rewrite Hp, Hp' in Hk. by injection Hk as ->.
Qed.

Lemma records_free l m :
  l ⊆ m → collision_free (map record_text m) → collision_free (map record_text l).
Proof.
  intros H. apply collision_free_mono. intros a (x & -> & Hx)%list_elem_of_fmap. apply list_elem_of_fmap. eauto.
Qed.

Lemma chains_agree l m :
  length l = length m → audit_verify (map PDict l) = Ok true → audit_verify (map PDict m) = Ok true →
  Forall json_record l → Forall json_record m → collision_free (map record_text (l ++ m)) →
  end_hash l = end_hash m → Forall2 same_record l m.
Proof.
  revert m. induction l as [|r l IH] using rev_ind; intros m Hlen Hl Hm Hjl Hjm Hfree Hh.
  - destruct m; [constructor|done].
  - destruct m as [|s m _] using rev_ind; [rewrite length_app in Hlen; simpl in Hlen; lia|].
    rewrite !length_app in Hlen. simpl in Hlen. rewrite audit_verify_snoc in Hl, Hm.
    destruct Hl as [Hl Hr], Hm as [Hm Hs]. unfold end_hash in Hh. rewrite !last_snoc in Hh.
    apply Forall_app in Hjl as [Hjl Hjr%Forall_inv], Hjm as [Hjm Hjs%Forall_inv].
    destruct (end_hash_str l Hl) as [a Ha], (end_hash_str m Hm) as [b Hb].
    destruct (chained_binds _ _ _ _ _ _ Hr Hs Hjr Hjs ltac:(by exists a, b)) as (Hsame & _ & Hp); [|done|].
    { apply (records_free [r; s]) in Hfree; [done|set_solver]. }
    apply Forall2_app; [|by constructor]. apply IH; [lia|done..| |done].
    apply (records_free (l ++ m)) in Hfree; [done|set_solver].
Qed.

(** The last hash commits to the whole log: two logs that verify and end in the
    same hash hold the same records, when SHA-256 tells the texts of these records
    apart. *)
Lemma audit_tamper_evident l m r s :
  audit_verify (map PDict (l ++ [r])) = Ok true → audit_verify (map PDict (m ++ [s])) = Ok true →
  Forall json_record (l ++ [r]) → Forall json_record (m ++ [s]) →
  collision_free (map record_text ((l ++ [r]) ++ m ++ [s])) → dict_get "hash" r = dict_get "hash" s →
  Forall2 same_record (l ++ [r]) (m ++ [s]).
Proof.
  intros Hl Hm Hjl Hjm Hfree Hh. pose proof Hl as Hl'. pose proof Hm as Hm'.
  apply audit_verify_snoc in Hl' as [Hl1 Hr], Hm' as [Hm1 Hs].
  destruct (end_hash_str l Hl1) as [a Ha], (end_hash_str m Hm1) as [b Hb].
  pose proof Hjl as [_ Hjr%Forall_inv]%Forall_app. pose proof Hjm as [_ Hjs%Forall_inv]%Forall_app.
  destruct (chained_binds _ _ _ _ _ _ Hr Hs Hjr Hjs ltac:(by exists a, b)) as (_ & Hlen & _); [|done|].
  { apply (records_free [r; s]) in Hfree; [done|set_solver]. }
  apply chains_agree; [by rewrite !length_app, Hlen|done..|]. unfold end_hash. by rewrite !last_snoc.
Qed.

(** ** Signed records *)

(** A record verifies under the key it was signed with, embedded and trusted. *)
Lemma signed_gaa_verifies `{C : Crypto, L : !CryptoLaws C} claims key gaa trusted :
  sign_gaa claims key = Ok gaa → trusted = None ∨ trusted = Some (public_key_b64 key) →
  verify_gaa (PDict gaa) trusted = Ok true.
Proof.
  unfold sign_gaa. intros H Ht. apply res_bind_ok in H as (text & Hc & [= <-]).
  match goal with |- verify_gaa ?g _ = _ => set (gaa := g) end.
  assert (embedded_trusted gaa trusted = Ok true) as He.
  { destruct Ht as [->| ->]; [done|]. simpl. unfold mbind, res_bind. by rewrite String.eqb_refl. }
  assert (verify_embedded gaa = Ok true) as Hv.
  { unfold verify_embedded. simpl. unfold mbind, res_bind.
    unfold public_key_b64 at 1, read_public_key. simpl decode_value.
    rewrite !std_b64decode_encode, from_public_bytes_raw, Hc. by rewrite verify_sign. }
  unfold verify_gaa. rewrite He. unfold mbind, res_bind. by rewrite Hv.
Qed.

(** ** The offline run *)

Section SimulateRuns.
Context `{U : UnicodeData, C : Crypto, L : !CryptoLaws C}.

Lemma simulate_gaa_ok policy number records records' summary gaa :
  audit_verify (map PDict records) = Ok true →
  simulate_gaa policy number records = Ok (records', summary, gaa) →
  audit_verify (map PDict records') = Ok true ∧
  summary = [("policy_status", dict_get "status" policy); ("merge_ready", PBool true); ("gaa_valid", PBool true)].
Proof.
  intros Hr H. unfold simulate_gaa in H.
  apply res_bind_ok in H as (key & _ & H). apply res_bind_ok in H as (claims & _ & H).
  apply res_bind_ok in H as (signed & Hs & H). apply res_bind_ok in H as (r1 & H1 & H).
  rewrite (signed_gaa_verifies _ _ _ _ Hs) in H by (by right).
  apply res_bind_ok in H as (v & [= <-] & H). apply res_bind_ok in H as (r2 & H2 & H).
  apply res_bind_ok in H as (r3 & H3 & [= <- <- _]).
  apply audit_append_verifies in H1 as [H1 _]; [|done]. apply audit_append_verifies in H2 as [H2 _]; [|done].
  apply audit_append_verifies in H3 as [H3 _]; done.
Qed.

(** A run that ends leaves a chain that verifies, and is ready to merge exactly
    when the policy did not flag the change or the approval was given. *)
Lemma simulate_merge_ready fixture approve out :
  simulate_run fixture approve = Ok out →
  ∃ request files policy, py_item fixture "pull_request" = Ok request ∧ py_item fixture "files" = Ok files ∧
    evaluate request files = Ok policy ∧
    dict_get "merge_ready" (do_summary out) =
      PBool (negb (truthy (dict_get "requires_human_approval" policy)) || approve) ∧
    dict_get "audit_chain_valid" (do_summary out) = PBool true.
Proof.
  unfold simulate_run. intros H. do 3 (apply res_bind_ok in H as (? & _ & H)).
  apply res_bind_ok in H as (r0 & H0 & H). apply audit_append_verifies in H0 as [H0 _]; [|done].
  apply res_bind_ok in H as (request & Hreq & H). apply res_bind_ok in H as (files & Hfiles & H).
  apply res_bind_ok in H as (policy & Hpol & H). apply res_bind_ok in H as (r1 & H1 & H).
  apply audit_append_verifies in H1 as [H1 _]; [|done].
  set (flagged := truthy (dict_get "requires_human_approval" policy)) in *.
  apply res_bind_ok in H as ([[records summary] gaa] & Hm & H). apply res_bind_ok in H as (valid & Hv & [= <-]).
  assert (audit_verify (map PDict records) = Ok true ∧
          dict_get "merge_ready" summary = PBool (negb flagged || approve) ∧
          assoc_get "audit_chain_valid" summary = None ∧ assoc_has "merge_ready" summary = true) as (Hr & Hs & Hn & Hk).
  { destruct (flagged && negb approve) eqn:Ef.
    - injection Hm as <- <- _. apply andb_true_iff in Ef as [-> ->%negb_true_iff]. done.
    - apply res_bind_ok in Hm as (r2 & H2 & Hm). apply res_bind_ok in Hm as ([[r3 s3] g3] & H3 & [= <- <- _]).
      assert (audit_verify (map PDict r2) = Ok true) as Hr2.
      { destruct flagged; [by apply audit_append_verifies in H2 as [? _]|by injection H2 as <-]. }
      apply (simulate_gaa_ok _ _ _ _ _ _ Hr2) in H3 as [Hr3 ->].
      split; [done|]. split; [|done]. by destruct flagged, approve. }
  exists request, files, policy. split_and!; [done..| |]; unfold dict_get; cbn [do_summary]; rewrite assoc_get_app.
  - unfold assoc_has, dict_get in Hk, Hs. by destruct (assoc_get "merge_ready" summary).
  - rewrite Hn. rewrite Hr in Hv. by injection Hv as <-.
Qed.

End SimulateRuns.

(** ** Examples *)

(** The fixture of the repository *)
Definition example_fixture : pyval :=
  PDict [("pull_request", PDict
            [("number", PInt 1); ("title", PStr "AI: widen default rate limit");
             ("user", PDict [("login", PStr "ai-agent-bot")]);
             ("head", PDict [("sha", PStr "0123456789abcdef0123456789abcdef01234567")]);
             ("base", PDict [("ref", PStr "main")]); ("labels", PList [PDict [("name", PStr "ai-authored")]])]);
         ("files", PList
            [PDict [("filename", PStr "src/governed_autonomy/policy.py"); ("additions", PInt 12); ("deletions", PInt 3)];
             PDict [("filename", PStr "docs/demo-note.md"); ("additions", PInt 4); ("deletions", PInt 0)]])].

Definition summary_of (r : res demo_outcome) : pydict :=
  match r with Ok out => do_summary out | Raise _ => [] end.

Example simulate_fixture :
  assoc_get "merge_ready" (summary_of (simulate_run example_fixture true)) = Some (PBool true) ∧
  assoc_get "merge_ready" (summary_of (simulate_run example_fixture false)) = Some (PBool false) ∧
  assoc_get "audit_events" (summary_of (simulate_run example_fixture false)) =
    Some (PList [PStr "pr_opened"; PStr "policy_evaluated"]).
Proof. vm_compute. repeat split. Qed.

(** [$] matches before a line break at the end: the name of a repository may end in one. *)
Example repo_line_break :
  is_Some (re_match REPO_RE ("owner/name" +:+ chr 10)) ∧ re_match REPO_RE "owner/na me" = None.
Proof. split; [by eexists|reflexivity]. Qed.

(** A request for changes after the first hundred reviews does not count. *)
Definition a_review (login state : string) : pyval :=
  PDict [("user", PDict [("login", PStr login)]); ("state", PStr state); ("commit_id", PStr "c1")].
Example late_objection :
  let reviews := repeat (a_review "alice" "APPROVED") 100 ++ [a_review "alice" "CHANGES_REQUESTED"] in
  real_approvers (PList (take 100 reviews)) (PStr "c1") (PStr "bot") = Ok ["alice"] ∧
  real_approvers (PList reviews) (PStr "c1") (PStr "bot") = Ok [].
Proof. vm_compute. split; reflexivity. Qed.
