(* ===== verification/LogFormat.v ===== *)
(** logging_config.py: log records as one line of JSON, and the configuration of
    the program's logger.

    A record gives its time, its formatted message and traceback as they are; the
    names of the levels are those of [logging].  The file shows that every record
    is one line, and how it reads back. *)

From S2P Require Import Prelude PyFloat PyVal Json Crypto Trust Models Policy Lines Rbac Orders SemVer PyText.

(** [_RESERVED]: the attributes of every record, and two that formatting adds. *)
Definition RESERVED : list string :=
  ["name"; "msg"; "args"; "levelname"; "levelno"; "pathname"; "filename"; "module"; "exc_info"; "exc_text";
   "stack_info"; "lineno"; "funcName"; "created"; "msecs"; "relativeCreated"; "thread"; "threadName";
   "processName"; "process"; "taskName"; "message"; "asctime"].

Record log_record := {
  lr_time : string;                   (** [datetime.fromtimestamp(created, UTC).isoformat()] *)
  lr_levelname : string;
  lr_name : string;
  lr_message : string;                (** [getMessage()] *)
  lr_dict : pydict;                   (** [__dict__] *)
  lr_exception : option string        (** [formatException(exc_info)], if there is one *)
}.

(** [default=str]: a value that JSON has no form for is printed as its text. *)
Fixpoint default_str (v : pyval) : pyval :=
  match v with
  | PObj r => PStr r
  | PList l => PList (map default_str l)
  | PDict d => PDict (map (λ kv, (kv.1, default_str kv.2)) d)
  | _ => v
  end.

Definition is_extra (key : string) : bool :=
  negb (existsb (String.eqb key) RESERVED) && negb (String.prefix "_" key).

Definition base_entry (r : log_record) : pydict :=
  [("ts", PStr (lr_time r)); ("level", PStr (lr_levelname r)); ("logger", PStr (lr_name r));
   ("message", PStr (lr_message r))].

Definition log_entry (r : log_record) : pydict :=
  let entry := assoc_update (base_entry r) (List.filter (λ kv, is_extra kv.1) (lr_dict r)) in
  match lr_exception r with Some text => assoc_set "exception" (PStr text) entry | None => entry end.

(** [JsonFormatter.format] *)
Definition log_format (r : log_record) : res string :=
  json_dumps default_style (default_str (PDict (log_entry r))).

(** [configure_logging]: the logger's handlers, by their format, and its level. *)
Record logger := { lg_handlers : list string; lg_level : string; lg_propagate : bool }.

Definition LEVEL_NAMES : list string :=
  ["CRITICAL"; "FATAL"; "ERROR"; "WARN"; "WARNING"; "INFO"; "DEBUG"; "NOTSET"].

Definition upper_char (c : ascii) : ascii :=
  if ascii_in 97 122 c then ascii_of_N (N_of_ascii c - 32) else c.
Definition str_upper (s : string) : string := concat_map (λ c, String (upper_char c) "") s.

(** [a or b or default] *)
Definition first_text (a b : option string) (default : string) : string :=
  match a with
  | Some (String c s) => String c s
  | _ => match b with Some (String c s) => String c s | _ => default end
  end.

Definition configure_logging (vars : list (string * string)) (level fmt : option string) : M logger unit :=
  let level := first_text level (assoc_get "GOVERNED_AUTONOMY_LOG_LEVEL" vars) "INFO" in
  let fmt := first_text fmt (assoc_get "GOVERNED_AUTONOMY_LOG_FORMAT" vars) "json" in
  if negb (ascii_str level && ascii_str fmt) then lift_res (unmodelled "a text outside ASCII") else
  let level := str_upper level in let fmt := str_lower fmt in
  raise_if (negb (existsb (String.eqb level) LEVEL_NAMES)) (ValueError ("invalid log level: " +:+ level)) ;;
  put_state {| lg_handlers := [if String.eqb fmt "json" then "json" else "text"]; lg_level := level;
               lg_propagate := false |}.

(** * What the program shows *)

Lemma default_str_serializable v : serializable (default_str v) = true.
Proof.
  induction v as [| | | | |l IH|kvs IH|r] using pyval_ind_nested; try done; simpl;
    rewrite forallb_forall; intros x Hx; apply in_map_iff in Hx as (y & <- & Hy); simpl.
  - rewrite List.Forall_forall in IH. by apply IH.
  - rewrite List.Forall_forall in IH. by apply (IH y).
Qed.

Lemma log_format_total r : log_format r = Ok (json_text default_style (default_str (PDict (log_entry r)))).
Proof. unfold log_format, json_dumps. by rewrite default_str_serializable. Qed.

Lemma log_entry_NoDup r : NoDup (fst <$> log_entry r).
Proof.
  unfold log_entry. assert (List.NoDup (map fst (assoc_update (base_entry r)
    (List.filter (λ kv, is_extra kv.1) (lr_dict r))))) as H.
  { apply assoc_update_NoDup. simpl. repeat constructor; simpl; intuition discriminate. }
  apply NoDup_ListNoDup. destruct (lr_exception r); [by apply assoc_set_NoDup|done].
Qed.

(** A record of Unicode texts is one line, and reads back as its entry. *)
Lemma log_line_reads_back r :
  let v := default_str (PDict (log_entry r)) in
  json_safe default_style v = true → wf v = true →
  ∃ line, log_format r = Ok line ∧ printable line = true ∧ json_loads line = Ok (norm v).
Proof.
  intros v Hs Hw. exists (json_text default_style v). split; [apply log_format_total|]. split.
  - apply json_text_printable; done.
  - apply (json_loads_dumps default_style); [done..|]. by apply json_dumps_safe.
Qed.

(** Without an extra field of the name, an entry states the record's own level. *)
Lemma assoc_update_absent {A} k (d e : list (string * A)) :
  assoc_get k e = None → assoc_get k (assoc_update d e) = assoc_get k d.
Proof.
  revert d. induction e as [|[k' v] e IH]; intros d H; [done|]. cbn [assoc_get] in H.
  destruct (String.eqb_spec k k'); [done|]. unfold assoc_update. cbn [fold_left fst snd].
  change (assoc_get k (assoc_update (assoc_set k' v d) e) = assoc_get k d).
  rewrite IH by done. by apply assoc_get_set_ne.
Qed.

Lemma log_entry_level r :
  assoc_get "level" (lr_dict r) = None → assoc_get "level" (log_entry r) = Some (PStr (lr_levelname r)).
Proof.
  intros H. unfold log_entry.
  assert (assoc_get "level" (assoc_update (base_entry r) (List.filter (λ kv, is_extra kv.1) (lr_dict r))) =
          Some (PStr (lr_levelname r))) as Hl.
  { rewrite assoc_update_absent; [done|]. apply assoc_get_None. apply assoc_get_None in H. contradict H.
    apply in_map_iff in H as (kv & Hk & Hkv). apply filter_In in Hkv as [Hkv _]. apply in_map_iff. eauto. }
  destruct (lr_exception r); [by rewrite assoc_get_set_ne|done].
Qed.

(** An extra field named like one of the entry's own replaces it. *)
Example log_level_replaced :
  assoc_get "level" (log_entry {| lr_time := "t"; lr_levelname := "ERROR"; lr_name := "n"; lr_message := "m";
                                  lr_dict := [("level", PStr "DEBUG")]; lr_exception := None |}) =
    Some (PStr "DEBUG").
Proof. reflexivity. Qed.

(** Configuring again leaves one handler. *)
Lemma configure_logging_once vars level fmt s s' :
  configure_logging vars level fmt s = (Ok tt, s') → length (lg_handlers s') = 1%nat ∧ lg_propagate s' = false.
Proof.
  unfold configure_logging. destruct (negb _); [by intros [=]|]. unfold mbind, M_bind, raise_if.
  destruct (negb _); [by intros [=]|]. by intros [= <-].
Qed.

Example configure_logging_ex :
  (configure_logging [("GOVERNED_AUTONOMY_LOG_FORMAT", "TEXT")] (Some "debug") None
     {| lg_handlers := []; lg_level := "INFO"; lg_propagate := true |}) =
    (Ok tt, {| lg_handlers := ["text"]; lg_level := "DEBUG"; lg_propagate := false |}) ∧
  (configure_logging [] (Some "loud") None {| lg_handlers := []; lg_level := "INFO"; lg_propagate := true |}).1 =
    Raise (ValueError "invalid log level: LOUD").
Proof. split; reflexivity. Qed.
